(* ===== verification/_CoqProject ===== *)
-Q . S2P
Prelude.v
PageAlloc.v
Queue.v
QueueConc.v
Channel.v
Master.v
MasterEnd.v
SmpData.v
SmpMem.v
SmpRb.v
SmpReserve.v
SmpGrab.v
LibMem.v
SmpCpu.v
SmpOs.v
SmpHist.v
IhkLib.v
Kmsg.v
HostData.v
HostOs.v
HostInv.v
HostCases.v
SmpStatus.v
HostReq.v
HostIoctl.v
SmpDump.v
SmpPt.v
SmpLoad.v
SmpBoot.v
Cokernel.v
CoIrq.v
CoReport.v
