(* ===== verification/Prelude.v ===== *)
(** * A model of IHK in Rocq

    IHK (Interface for Heterogeneous Kernels) runs lightweight kernels beside
    Linux on one machine.  A driver takes CPUs and memory away from Linux and
    assigns them to kernels; the kernels and Linux then talk through message
    queues in shared memory (IKC, inter-kernel communication).  This library
    translates the parts of IHK that manage state into executable functions
    and proves what they keep and what they compute.  Where the C text goes
    wrong on some input the model goes wrong in the same way, and a theorem
    says on which.

    ** The program and the files

    - Page allocator, src/linux/core/mem_alloc.c: PageAlloc.v.  The record
      [ihk_page_allocator_desc] is the C descriptor with its bitmap as a list
      of 64-bit words; the operations have the names of the C functions.
    - IKC queues, src/ikc/queue.c and queue.h: Queue.v has the queue as the
      bytes of its head and slots, and the operations run alone; QueueConc.v
      has writing and reading as small-step programs ([wstep], [rstep]), one
      access to the shared head or one long per step.
    - IKC channels, src/ikc/queue.c, linux.c, manycore.c and
      src/linux/core/mikc.c: Channel.v.  The state of a kernel is [kern]
      (channels, packet pools, allocated memory), the memory that two kernels
      share is [mem]; a class holds what differs between the host and the
      co-kernel.
    - IKC master protocol, src/ikc/master.c and src/linux/core/mikc.c:
      Master.v (listening, connecting) and MasterEnd.v (disconnecting,
      refusals, start of the master channel).  A call that sleeps is split at
      the sleep.
    - SMP driver, src/linux/driver/smp/smp-driver.c: SmpData.v has the
      structures, the requests from user space and their validation, and the
      services of Linux as the class [SmpEnv].  SmpMem.v is the memory of the
      driver: [memst] has the headers of free chunks (which lie in the memory
      they describe), the free list and the list of used chunks.  SmpRb.v is
      the tree that joins neighbouring chunks; SmpGrab.v the loop that collects
      pages from Linux in such a tree and the request around it, SmpReserve.v
      the end of a reservation and its partial release.  SmpCpu.v is the table of
      CPUs with reservation, assignment and the routing of messages, SmpOs.v
      what concerns the CPUs and the memory of a kernel together (shutdown,
      allocation with one request).  SmpHist.v has histories of such requests,
      with destruction.
    - Kernels from the image to the dump, smp-driver.c and
      src/linux/driver/smp/arch/*/smp-arch-driver.c: SmpPt.v builds and frees
      the page tables of a kernel (tables as finite maps, pages from an
      allocator that may fail), SmpLoad.v loads ELF and raw images into
      physical memory (a function from addresses to bytes), SmpBoot.v writes
      the boot parameters into pages of a computed size and gives the commands
      that wake the first CPU, SmpStatus.v computes the status of a kernel,
      detects hangs and has the trampoline page that is borrowed from Linux,
      SmpDump.v has the bitmaps of pages, the dump requests and the panic
      notifier.
    - Host driver core, src/linux/core/host_driver.c: Kmsg.v is the ring of
      kernel messages and the pool of counted message buffers; HostData.v has
      the structures, with instances and devices as finite maps from pointers
      and the operations of a driver as records of functions; HostOs.v has the
      operations on them and the contract of a driver; HostInv.v proves the
      invariant of the core over sequences of requests, HostCases.v single
      operations and requests that go wrong.  HostReq.v has the requests of
      the device files (every ioctl handler with its copies from and to user
      space, the dispatch and the check of privileges, loading a kernel from a
      file, mapping memory to user space, mmap, unloading), HostIoctl.v what
      holds of them.
    - Kernels' side of the boot parameters, src/cokernel/smp/*/setup.c:
      Cokernel.v has the tables and accessors a kernel builds from them,
      CoIrq.v its interrupt table on arm64, CoReport.v what a kernel stores in
      them and the driver reads, with the interrupts that use it and those of
      debug requests.
    - User library, src/linux/user/ihklib.c: IhkLib.v has requests as text,
      LibMem.v the memory of a device (queries, release, reservation and
      balancing), with the ioctl requests as a record of functions that the
      SMP driver instantiates.

    PageAlloc.v and Queue.v stand alone; QueueConc.v and Channel.v use
    Queue.v, Master.v uses Channel.v, MasterEnd.v uses Master.v.  SmpMem.v and
    SmpCpu.v use SmpData.v, SmpRb.v, SmpReserve.v, SmpGrab.v and
    LibMem.v build on SmpMem.v in this order, SmpOs.v uses both halves, and
    SmpHist.v uses SmpGrab.v and SmpOs.v.
    HostData.v, HostOs.v, HostInv.v and HostCases.v build on each other and on
    Kmsg.v; HostReq.v uses HostOs.v and SmpStatus.v, HostIoctl.v uses HostReq.v
    and HostInv.v.  SmpStatus.v and SmpDump.v use SmpData.v,
    SmpLoad.v uses SmpPt.v, and SmpBoot.v uses SmpCpu.v and SmpDump.v;
    Cokernel.v and CoIrq.v use SmpBoot.v, and CoReport.v uses SmpLoad.v.  This
    file has what all of them share.

    ** What the theorems show

    - PageAlloc.v: a client of the allocator holds disjoint regions inside the
      area; small and large allocations complete and find a free region
      exactly when the search of the C text has one; freeing undoes a small
      allocation; what is wrong with areas that are not a multiple of 64
      blocks, with large frees and with areas above 4 GiB.
    - Queue.v, QueueConc.v: the queue refines a bounded FIFO; one writer and
      one reader exchange packets in order in every interleaving; tickets of
      many writers and readers; interleavings that overrun the queue.
    - Channel.v: a channel refines a bounded FIFO with one interrupt for each
      packet; the reception handler drains it; the packet pool never hands out
      a packet in use; creating and freeing a channel is neutral.
    - Master.v, MasterEnd.v: the handshakes between two kernels complete and
      leave two linked channels, or none; refusals change nothing; a channel
      that a listener refuses stays registered.
    - SmpMem.v, SmpRb.v, SmpReserve.v, SmpGrab.v: an assignment succeeds
      exactly when the node has the memory; merging and the tree join what
      touches; a reservation completes with what was wanted or with everything
      given back, or Linux keeps it running with pages that it frees in less
      than a second, for ever if it goes on like this; requests that leak or
      write too much.
    - SmpCpu.v: reservation is all or nothing; queries report what was
      assigned; the check of a routing counts what it should; requests that
      break the table.
    - SmpOs.v: shutdown returns everything; the outcomes of the combined
      allocation.
    - SmpHist.v: free and used chunks stay disjoint and in order under every
      history of reservations, assignments, releases, shutdowns and
      allocations; from the initialisation on, a CPU is in at most one kernel
      and not used by Linux, over every history that also creates and destroys
      kernels.  The partial release of memory and the combined allocation of
      CPUs are excluded, and so are assignments that name a CPU twice and the
      destruction of a kernel that has CPUs but was never loaded: theorems show
      how each of them breaks the invariant.
    - SmpPt.v, SmpLoad.v, SmpBoot.v: the page tables map what a kernel needs
      and are freed exactly once; a loaded image is where these tables say,
      nothing else has changed, and the start-up page has what the start-up
      code reads; the boot parameters describe the kernel and fit their pages,
      and the first CPU of the kernel, and no other, is woken; boots and loads
      that corrupt memory or succeed with a truncated image.
    - SmpStatus.v, SmpDump.v: the status of a kernel, waiting and hangs; the
      bitmaps are inside their buffer and a query returns their maximal runs;
      the panic notifier hides what is clear; dumps with several kernels.
    - Kmsg.v, HostInv.v, HostCases.v: reading a ring of messages; with any
      driver that keeps its contract, every history of allowed requests leaves
      the tables well formed and references counted, and the next request
      completes; creation; failures that corrupt the tables, among them a
      boot that is refused after it took a new message buffer.
    - HostIoctl.v: the ioctls on a device or on a kernel that fault, exactly,
      and that every other one keeps this invariant and completes; what an
      unprivileged caller can do; that any caller can read any physical
      address; auxiliary handlers are found by the codes they were
      registered for; a kernel read from a file reaches the driver in pieces
      that make up the file; a mapping covers its range; requests that report
      a success they did not have.
    - Cokernel.v, CoIrq.v, CoReport.v: a booted kernel sees exactly what the
      driver assigned; an accepted routing gives every CPU its interrupt; what
      a kernel reports is what the driver finds; a routing that makes the
      kernel panic.
    - IhkLib.v: printing and parsing lists of CPUs and of memory.
    - LibMem.v: through the library and the driver, a reservation adds what
      was asked for, a query reports it and a release returns it; what a
      balanced reservation keeps on each node, and when it divides by zero.

    ** Conventions

    Integers are [Z], with the wrap-around of their C types written out where
    a value is stored.  A run that C leaves undefined (an index outside an
    array, a shift that is too wide, a freed or null pointer), or that waits
    for ever for another CPU, is [Undef]; theorems about what a function
    computes therefore also say that it gets there.  Memory allocation is an
    argument ([km], [kok], [rok], ...) that tells which calls succeed.

    Loops that are not structural carry fuel.  The fuel is the number of
    headers in the list where each round unlinks one (merge_mem_chunks, the
    gathering of chunks, the largest chunk of a tree), the number of pages of
    a chunk where each round frees one, the number of words of the bitmap for
    the search of a large region, the slots of a queue where a handler drains
    it, the bytes of a segment or of a file while it
    is loaded, the length of the ring of
    messages, 65 for the at most 64 nodes of a mask, and 64 for the doubling of
    a buffer size; the theorems show a result,
    so that the fuel is enough under their hypotheses.  The loop in which a
    reservation asks Linux for pages need not end.  Its rounds take a page, or
    a second, or a smaller order, except those in which Linux frees pages in
    less than a second: the theorems are about every fuel and say that a loop
    that has not ended by then had all but 2^64 + 40 rounds of this kind.  A retry after a failed
    cmpxchg happens only when another CPU has moved the head, and so does not
    occur in the functions that run alone.

    ** What is not modelled

    Spin locks and mutexes are not part of the states: an operation is one
    critical section, and interleaving is modelled where the code relies on
    atomic instructions instead (QueueConc.v).  The order of memory accesses
    of weakly ordered machines is not modelled.  Left out are code that talks
    to hardware or to Linux only: the delivery of interrupts, the trampoline
    code and the reset of CPUs, the topology files, the DMA and MIC drivers, the page tables of the co-kernels'
    set-up code, and the command line tools; printing to the log.  The
    constants of the headers have the names they have there.  Page tables and loading are
    those of x86_64.  Of the lists of channels that a co-kernel has, one for
    each CPU, the model has the one of the CPU that runs the operation.  The
    build options ENABLE_TOFU, ENABLE_KRM_WORKAROUND, WITH_KRM,
    ENABLE_PANIC_NOTIFIER_WORKAROUND and ENABLE_FUGAKU_HACKS are off. *)

From Stdlib Require Import ZArith Lia.
From stdpp Require Import base tactics numbers list.

Declare Scope ihk_scope.
Delimit Scope ihk_scope with ihk.
#[global] Open Scope Z_scope.

(** ** Outcomes

    C functions may reach behaviour that the language leaves undefined (an
    access outside an array, a shift count that is too large, a null
    dereference).  Such a run is the value [Undef], and so is a loop that ends
    only when another CPU does something; a run that completes is [Ret]. *)

Inductive outcome (A : Type) : Type :=
| Ret (a : A)
| Undef.
Arguments Ret {A} a.
Arguments Undef {A}.

#[global] Instance outcome_ret : MRet outcome := @Ret.
#[global] Instance outcome_bind : MBind outcome := fun A B f m =>
  match m with Ret a => f a | Undef => Undef end.
#[global] Instance outcome_fmap : FMap outcome := fun A B f m =>
  match m with Ret a => Ret (f a) | Undef => Undef end.

Definition is_ret {A} (m : outcome A) : bool :=
  match m with Ret _ => true | Undef => false end.

(** ** Machine integers

    A w-bit integer is a [Z]; the conversions below are the ones the C
    abstract machine applies when a value is stored in an object of the
    type (modulo 2^w; two's complement for the signed types). *)

Definition u16 (z : Z) : Z := z mod 2 ^ 16.
Definition u32 (z : Z) : Z := z mod 2 ^ 32.
Definition u64 (z : Z) : Z := z mod 2 ^ 64.
Definition s32 (z : Z) : Z := (z + 2 ^ 31) mod 2 ^ 32 - 2 ^ 31.
Definition s64 (z : Z) : Z := (z + 2 ^ 63) mod 2 ^ 64 - 2 ^ 63.

(** Shifts: the count must be below the width of the promoted left operand. *)
Definition shl_int (a n : Z) : outcome Z :=
  if (0 <=? n) && (n <? 32) then Ret (s32 (Z.shiftl a n)) else Undef.
Definition shl_uint (a n : Z) : outcome Z :=
  if (0 <=? n) && (n <? 32) then Ret (u32 (Z.shiftl a n)) else Undef.
Definition shl_ulong (a n : Z) : outcome Z :=
  if (0 <=? n) && (n <? 64) then Ret (u64 (Z.shiftl a n)) else Undef.
Definition shr_ulong (a n : Z) : outcome Z :=
  if (0 <=? n) && (n <? 64) then Ret (Z.shiftr a n) else Undef.

(** [fls] of the Linux kernel: position (from 1) of the most significant bit
    set in an unsigned int, 0 when no bit is set. *)
Definition fls (x : Z) : Z := if u32 x =? 0 then 0 else Z.log2 (u32 x) + 1.

Definition PAGE_SHIFT : Z := 12.
Definition PAGE_SIZE : Z := 4096.

(** Error numbers of the Linux kernel ABI used by the sources. *)
Definition EPERM : Z := 1.
Definition ENOENT : Z := 2.
Definition EINTR : Z := 4.
Definition EBUSY : Z := 16.
Definition EFAULT : Z := 14.
Definition ENOMEM : Z := 12.
Definition ENODEV : Z := 19.
Definition EINVAL : Z := 22.
Definition ENOSYS : Z := 38.
Definition ECONNABORTED : Z := 103.
Definition ECONNREFUSED : Z := 111.

(** ** Arrays: access by a C index, undefined outside the bounds. *)

Definition aget {A} (l : list A) (i : Z) : outcome A :=
  if 0 <=? i then match l !! Z.to_nat i with Some x => Ret x | None => Undef end
  else Undef.
Definition aset {A} (l : list A) (i : Z) (x : A) : outcome (list A) :=
  if (0 <=? i) && (i <? Z.of_nat (length l)) then Ret (<[Z.to_nat i := x]> l)
  else Undef.

(** ** Tactics and hints *)

Create HintDb ihk.
Create Rewrite HintDb ihk.

(** Case analysis on the boolean tests of the model, with their meaning. *)
Ltac zcases :=
  repeat match goal with
  | H : context [?a <? ?b] |- _ => destruct (Z.ltb_spec a b)
  | H : context [?a <=? ?b] |- _ => destruct (Z.leb_spec a b)
  | H : context [?a =? ?b] |- _ => destruct (Z.eqb_spec a b)
  | |- context [?a <? ?b] => destruct (Z.ltb_spec a b)
  | |- context [?a <=? ?b] => destruct (Z.leb_spec a b)
  | |- context [?a =? ?b] => destruct (Z.eqb_spec a b)
  end; simpl in *.

(** Invert one monadic bind that is known to return. *)
Ltac inv_ret :=
  repeat match goal with
  | H : Ret _ = Ret _ |- _ => injection H; clear H; intros; subst
  | H : Undef = Ret _ |- _ => discriminate H
  | H : Ret _ = Undef |- _ => discriminate H
  | H : mbind _ ?m = Ret _ |- _ =>
      let E := fresh "E" in destruct m eqn:E; cbn [mbind outcome_bind] in H;
      [ | discriminate H ]
  end.

(** ** Generic lemmas *)

Lemma u64_small z : 0 <= z < 2 ^ 64 -> u64 z = z.
Proof. apply Z.mod_small. Qed.

Lemma u32_small z : 0 <= z < 2 ^ 32 -> u32 z = z.
Proof. apply Z.mod_small. Qed.

Lemma u16_small z : 0 <= z < 2 ^ 16 -> u16 z = z.
Proof. apply Z.mod_small. Qed.

Lemma s32_small z : - 2 ^ 31 <= z < 2 ^ 31 -> s32 z = z.
Proof. intros. unfold s32. rewrite Z.mod_small; lia. Qed.

Lemma u64_range z : 0 <= u64 z < 2 ^ 64.
Proof. apply Z.mod_pos_bound. lia. Qed.

Lemma u32_range z : 0 <= u32 z < 2 ^ 32.
Proof. apply Z.mod_pos_bound. lia. Qed.

#[export] Hint Resolve u64_range u32_range : ihk.
#[export] Hint Rewrite u64_small u32_small u16_small s32_small using lia : ihk.

Lemma aget_Ret {A} (l : list A) i x :
  aget l i = Ret x <-> 0 <= i /\ l !! Z.to_nat i = Some x.
Proof.
  unfold aget. destruct (Z.leb_spec 0 i); [| split; [done | lia]].
  destruct (l !! Z.to_nat i); naive_solver.
Qed.

Lemma aget_in {A} (l : list A) i :
  0 <= i < Z.of_nat (length l) -> exists x, aget l i = Ret x /\ l !! Z.to_nat i = Some x.
Proof.
  intros Hi. destruct (lookup_lt_is_Some_2 l (Z.to_nat i)) as [x Hx]; [lia|].
  exists x. rewrite aget_Ret. auto with lia.
Qed.

Lemma aset_in {A} (l : list A) i x :
  0 <= i < Z.of_nat (length l) -> aset l i x = Ret (<[Z.to_nat i := x]> l).
Proof. intros. unfold aset. zcases; auto; lia. Qed.

Lemma aset_Ret {A} (l l' : list A) i x :
  aset l i x = Ret l' <->
  0 <= i < Z.of_nat (length l) /\ l' = <[Z.to_nat i := x]> l.
Proof. unfold aset. zcases; naive_solver lia. Qed.

(** Bits of a word below 2^64. *)
Lemma testbit_u64 z i : 0 <= i < 64 -> Z.testbit (u64 z) i = Z.testbit z i.
Proof. intros. unfold u64. apply Z.mod_pow2_bits_low. lia. Qed.

Lemma u64_bit_high z i : 0 <= z < 2 ^ 64 -> 64 <= i -> Z.testbit z i = false.
Proof.
  intros Hz Hi. rewrite <- (Z.mod_small z (2 ^ 64)) by done.
  apply Z.mod_pow2_bits_high. lia.
Qed.

Lemma u64_of_bits z : (forall i, 64 <= i -> Z.testbit z i = false) -> 0 <= z < 2 ^ 64.
Proof.
  intros H. enough (z mod 2 ^ 64 = z) as <- by (apply Z.mod_pos_bound; lia).
  apply Z.bits_inj'. intros i Hi. destruct (Z.lt_ge_cases i 64).
  - apply Z.mod_pow2_bits_low. lia.
  - by rewrite Z.mod_pow2_bits_high, H by lia.
Qed.

Lemma u64_lor a b : 0 <= a < 2 ^ 64 -> 0 <= b < 2 ^ 64 -> 0 <= Z.lor a b < 2 ^ 64.
Proof. intros. apply u64_of_bits. intros. by rewrite Z.lor_spec, !u64_bit_high. Qed.

Lemma u64_ldiff a b : 0 <= a < 2 ^ 64 -> 0 <= Z.ldiff a b < 2 ^ 64.
Proof. intros. apply u64_of_bits. intros. by rewrite Z.ldiff_spec, u64_bit_high. Qed.

(** Two words are equal when their 64 bits are. *)
Lemma u64_bits_eq a b :
  0 <= a < 2 ^ 64 -> 0 <= b < 2 ^ 64 ->
  (forall i, 0 <= i < 64 -> Z.testbit a i = Z.testbit b i) -> a = b.
Proof.
  intros Ha Hb H. apply Z.bits_inj'. intros i Hi.
  destruct (Z.lt_ge_cases i 64); [auto|].
  rewrite !u64_bit_high; auto.
Qed.

Lemma ones_testbit n i : 0 <= n -> Z.testbit (Z.ones n) i = (0 <=? i) && (i <? n).
Proof.
  intros. destruct (Z.leb_spec 0 i); [|by apply Z.testbit_neg_r].
  destruct (Z.ltb_spec i n); [apply Z.ones_spec_low | apply Z.ones_spec_high]; lia.
Qed.

(** ** Pairwise relations on lists *)

Fixpoint pairwise {A} (R : A -> A -> Prop) (l : list A) : Prop :=
  match l with
  | [] => True
  | x :: l' => Forall (R x) l' /\ pairwise R l'
  end.

Lemma pairwise_remove {A} (R : A -> A -> Prop) l1 x l2 :
  pairwise R (l1 ++ x :: l2) -> pairwise R (l1 ++ l2).
Proof.
  induction l1 as [|y l1 IH]; simpl; [tauto|].
  intros [H1 H2]. split; [|auto]. rewrite Forall_app, Forall_cons in H1.
  rewrite Forall_app. tauto.
Qed.

Lemma pairwise_split {A} (R : A -> A -> Prop) `{!Symmetric R} l1 x l2 :
  pairwise R (l1 ++ x :: l2) -> Forall (R x) (l1 ++ l2).
Proof.
  induction l1 as [|y l1 IH]; simpl; [tauto|].
  intros [H1 H2]. rewrite Forall_app, Forall_cons in H1. constructor; [|auto].
  symmetry. tauto.
Qed.

(** ** State and outcome

    Stateful code runs in [io S]: a function from the state to an outcome
    with the next state. *)

Definition io (S A : Type) : Type := S -> outcome (A * S).

Definition io_ret {S A} (a : A) : io S A := fun s => Ret (a, s).
Definition io_bind {S A B} (m : io S A) (k : A -> io S B) : io S B := fun s =>
  match m s with Ret (a, s') => k a s' | Undef => Undef end.
Definition io_undef {S A} : io S A := fun _ => Undef.
Definition io_gets {S A} (f : S -> A) : io S A := fun s => Ret (f s, s).
Definition io_modify {S} (f : S -> S) : io S unit := fun s => Ret (tt, f s).
Definition io_lift {S A} (m : outcome A) : io S A := fun s =>
  match m with Ret a => Ret (a, s) | Undef => Undef end.
(** A value that must be there (a valid pointer, a mapped address). *)
Definition io_some {S A} (o : option A) : io S A :=
  match o with Some a => io_ret a | None => io_undef end.

Notation "x <- m ;; k" := (io_bind m (fun x => k))
  (at level 20, m at level 99, k at level 200, only parsing) : ihk_scope.
Notation "' p <- m ;; k" := (io_bind m (fun p => k))
  (at level 20, p pattern, m at level 99, k at level 200, only parsing) : ihk_scope.
Notation "m ;;; k" := (io_bind m (fun _ => k))
  (at level 100, k at level 200, right associativity, only parsing) : ihk_scope.

Fixpoint io_iter {S A} (f : A -> io S unit) (l : list A) : io S unit :=
  match l with
  | [] => io_ret tt
  | x :: l' => io_bind (f x) (fun _ => io_iter f l')
  end.

(** ** Little-endian memory images of unsigned integers *)

Fixpoint le_bytes (n : nat) (z : Z) : list Z :=
  match n with
  | O => []
  | S n' => z mod 256 :: le_bytes n' (z / 256)
  end.
Fixpoint le_value (l : list Z) : Z :=
  match l with
  | [] => 0
  | b :: l' => b + 256 * le_value l'
  end.

Lemma length_le_bytes n z : length (le_bytes n z) = n.
Proof. revert z. induction n; intros; simpl; auto. Qed.

Lemma le_roundtrip n z : 0 <= z < 256 ^ Z.of_nat n -> le_value (le_bytes n z) = z.
Proof.
  revert z. induction n as [|n IH]; intros z Hz; cbn [le_bytes le_value].
  { simpl in Hz. lia. }
  rewrite IH.
  - pose proof (Z.div_mod z 256 ltac:(lia)). lia.
  - rewrite Nat2Z.inj_succ, Z.pow_succ_r in Hz by lia. split; [apply Z.div_pos; lia|].
    apply Z.div_lt_upper_bound; lia.
Qed.

(** ** Folding a run of the monad *)

Lemma io_bind_ret {S A B} (m : io S A) (k : A -> io S B) s a s' :
  m s = Ret (a, s') -> io_bind m k s = k a s'.
Proof. intros H. unfold io_bind. by rewrite H. Qed.

Lemma io_bind_inv {S A B} (m : io S A) (k : A -> io S B) s r :
  io_bind m k s = Ret r -> exists a s', m s = Ret (a, s') /\ k a s' = Ret r.
Proof. unfold io_bind. intros H. destruct (m s) as [[a s']|]; [eauto|done]. Qed.

(** Invert a chain of binds that is known to return. *)
Ltac io_inv :=
  repeat match goal with
  | H : io_bind _ _ _ = Ret _ |- _ =>
      let a := fresh "a" in let s := fresh "s" in let E := fresh "E" in
      apply io_bind_inv in H as (a & s & E & H)
  | H : io_ret _ _ = Ret _ |- _ => unfold io_ret in H; injection H as ? ?; subst
  | H : io_gets _ _ = Ret _ |- _ => unfold io_gets in H; injection H as ? ?; subst
  | H : io_modify _ _ = Ret _ |- _ => unfold io_modify in H; injection H as ? ?; subst
  end.

(** ** Lists filled from an index on *)

Lemma take_insert_snoc {A} (l : list A) n x : (n < length l)%nat -> take (S n) (<[n := x]> l) = take n l ++ [x].
Proof.
  intros Hn. rewrite (take_S_r _ _ x) by (by apply list_lookup_insert_eq).
  by rewrite take_insert_ge by lia.
Qed.

(** [l] with the entries from [n] on replaced by [r]. *)
Definition patch {A} (n : nat) (r l : list A) : list A := take n l ++ r ++ drop (n + length r) l.

Lemma patch_cons {A} n (x : A) r l : (n < length l)%nat -> patch (S n) r (<[n := x]> l) = patch n (x :: r) l.
Proof.
  intros Hn. unfold patch. rewrite take_insert_snoc by done. rewrite <- app_assoc. simpl.
  rewrite drop_insert_lt by lia. by rewrite Nat.add_succ_r.
Qed.

Lemma patch_nil {A} n (l : list A) : patch n [] l = l.
Proof. unfold patch. simpl. by rewrite Nat.add_0_r, take_drop. Qed.

(** ** Permutations and filters *)

Lemma pairwise_perm {A} (R : A -> A -> Prop) `{!Symmetric R} l l' :
  l ≡ₚ l' -> pairwise R l -> pairwise R l'.
Proof.
  induction 1 as [|x l l' Hl IH|x y l|]; simpl; try tauto.
  - intros [Hf Hp]. split; [by rewrite <- Hl | auto].
  - rewrite !Forall_cons. intros [[? ?] [? ?]]. by repeat split.
Qed.

#[global] Instance pairwise_proper {A} (R : A -> A -> Prop) `{!Symmetric R} :
  Proper (Permutation ==> iff) (pairwise R).
Proof. intros l l' Hl. split; apply pairwise_perm; done. Qed.

Lemma Forall_filter_1 {A} (Q P : A -> Prop) `{!forall x, Decision (P x)} l :
  Forall Q l -> Forall Q (filter P l).
Proof. rewrite !Forall_forall. intros Hq x. rewrite list_elem_of_filter. naive_solver. Qed.

Lemma filter_all {A} (P : A -> Prop) `{!forall x, Decision (P x)} (l : list A) :
  (forall x, x ∈ l -> P x) -> filter P l = l.
Proof.
  induction l as [|x l IH]; intros Hl; [done|]. rewrite filter_cons, decide_True by (apply Hl; left).
  rewrite IH; [done|]. intros y Hy. apply Hl. by right.
Qed.

Lemma filter_ne_id (p : Z) (l : list Z) : p ∉ l -> filter (fun q => q <> p) l = l.
Proof. intros Hp. apply filter_all. by intros q Hq ->. Qed.

Lemma filter_ne_perm (p : Z) (l : list Z) : NoDup l -> p ∈ l -> l ≡ₚ p :: filter (fun q => q <> p) l.
Proof.
  intros Hn. induction Hn as [|q l Hq Hn IH]; [by rewrite elem_of_nil|].
  rewrite elem_of_cons, filter_cons. intros [->|Hp].
  - rewrite decide_False by tauto. apply Permutation_skip.
    by rewrite filter_ne_id.
  - rewrite decide_True by naive_solver. rewrite (IH Hp) at 1. apply Permutation_swap.
Qed.

Lemma filter_NoDup_mid (r : Z) k1 k2 : NoDup (k1 ++ r :: k2) -> filter (fun q => q <> r) (k1 ++ r :: k2) = k1 ++ k2.
Proof.
  intros Hn. apply NoDup_app in Hn as (_ & Hd & Hn). rewrite NoDup_cons in Hn.
  rewrite filter_app, filter_cons, decide_False by tauto. rewrite !filter_ne_id; [done|tauto|].
  intros Hr. apply (Hd _ Hr). left.
Qed.

(** ** Occurrences in a list of addresses *)

Fixpoint occ (p : Z) (l : list Z) : Z :=
  match l with [] => 0 | q :: l' => (if q =? p then 1 else 0) + occ p l' end.

#[global] Instance occ_proper p : Proper ((≡ₚ) ==> (=)) (occ p).
Proof. intros l l' H. induction H; simpl; lia. Qed.

Lemma occ_nonneg p l : 0 <= occ p l.
Proof. induction l; simpl; [done|]. case_match; lia. Qed.

Lemma occ_app p l l' : occ p (l ++ l') = occ p l + occ p l'.
Proof. induction l; simpl; lia. Qed.

Lemma occ_pos p l : 0 < occ p l <-> p ∈ l.
Proof.
  induction l as [|q l IH]; simpl; [split; [lia|by intros ?%elem_of_nil]|].
  rewrite elem_of_cons, <- IH. pose proof (occ_nonneg p l). destruct (Z.eqb_spec q p); split; intros; [by left|lia|right; lia|].
  destruct H0; [congruence|lia].
Qed.

Lemma occ_zero p l : occ p l = 0 <-> p ∉ l.
Proof. rewrite <- occ_pos. pose proof (occ_nonneg p l). lia. Qed.
