(* ===== verification/PageAlloc.v ===== *)
(** * The generic page allocator of IHK-Host (src/linux/core/mem_alloc.c)

    A bitmap allocator: word [k] of [pa_map] holds the state of blocks
    [64k .. 64k+63], a set bit is a used block.  The definitions follow the C
    text, with its integer widths; [Undef] marks the runs in which the text
    shifts by too much or leaves the map.  The theorems relate the bitmap code
    to the abstract view "which block numbers are used". *)

From Stdlib Require Import ZArith Lia.
From stdpp Require Import base tactics numbers list relations.
From S2P Require Import Prelude.

(** struct ihk_page_allocator_desc (the lock and the list chain carry no
    state that the functions below read, and no function reads or writes
    [end]). *)
Record ihk_page_allocator_desc : Type := mk_desc {
  pa_start : Z;      (* unsigned long *)
  pa_last  : Z;      (* unsigned int *)
  pa_count : Z;      (* unsigned int *)
  pa_flag  : Z;      (* unsigned int *)
  pa_shift : Z;      (* unsigned int *)
  pa_map   : list Z  (* unsigned long [] *)
}.

Definition set_map (d : ihk_page_allocator_desc) (m : list Z) : ihk_page_allocator_desc :=
  mk_desc (pa_start d) (pa_last d) (pa_count d) (pa_flag d) (pa_shift d) m.

Definition MAP_INDEX (n : Z) : Z := Z.shiftr n 6.
Definition MAP_BIT (n : Z) : Z := Z.land n 63.

(** [index] is an unsigned int, so the product, the sum and the shift are
    all computed on 32 bits before they are added to the unsigned long. *)
Definition ADDRESS (d : ihk_page_allocator_desc) (index bit : Z) : outcome Z :=
  off ← shl_uint (u32 (index * 64 + bit)) (pa_shift d);
  Ret (u64 (pa_start d + off)).

(** How the memory of a descriptor was obtained, and how it is given back. *)
Inductive desc_memory : Type :=
| GetFreePages (order : Z)
| Kzalloc (size : Z).
Inductive desc_release : Type :=
| FreePages (order : Z)
| Kfree.

(** The loop that reserves the padding bits [mapsize .. mapaligned*8 - 1].
    [1 << MAP_BIT(i)] is a shift of an int. *)
Fixpoint reserve_padding (n : nat) (i : Z) (m : list Z) : outcome (list Z) :=
  match n with
  | O => Ret m
  | S n' =>
      b ← shl_int 1 (MAP_BIT i);
      v ← aget m (MAP_INDEX i);
      m' ← aset m (MAP_INDEX i) (Z.lor v (u64 b));
      reserve_padding n' (s32 (i + 1)) m'
  end.

Section Init.
(** [sizeof_desc] is sizeof(struct ihk_page_allocator_desc), which depends on
    the kernel's spinlock_t; [mem_ok] says whether the kernel's allocator can
    serve a request. *)
Context (sizeof_desc : Z) (mem_ok : desc_memory -> bool).

(** ihk_pagealloc_init: [Ret None] is the null pointer. *)
Definition ihk_pagealloc_init (start size unit : Z) :
  outcome (option (ihk_page_allocator_desc * desc_memory)) :=
  if unit =? 0 then Ret None else
  let page_shift := fls unit - 1 in
  sz ← shr_ulong size page_shift;
  let mapsize := s32 sz in
  let mapaligned := s32 (Z.shiftl (Z.shiftr (s32 (mapsize + 63)) 6) 3) in
  let descsize := s32 (sizeof_desc + mapaligned) in
  '(mem, flag) ←
    (if PAGE_SIZE <=? u64 descsize then
       let descsize := s32 (Z.shiftr (u64 (descsize + PAGE_SIZE - 1)) PAGE_SHIFT) in
       let descorder := fls descsize - 1 in
       w ← shl_int 1 descorder;
       let descorder := if w <? descsize then descorder + 1 else descorder in
       Ret (GetFreePages descorder, descorder)
     else Ret (Kzalloc descsize, 0));
  if negb (mem_ok mem) then Ret None else
  let count := u32 (Z.shiftr mapaligned 3) in
  let i0 := mapsize in
  let iend := s32 (mapaligned * 8) in
  m ← reserve_padding (Z.to_nat (iend - i0)) i0 (replicate (Z.to_nat count) 0);
  Ret (Some (mk_desc start 0 count (u32 flag) page_shift m, mem)).
End Init.

(** ihk_pagealloc_destroy: which kernel function gets the memory back. *)
Definition ihk_pagealloc_destroy (d : ihk_page_allocator_desc) : desc_release :=
  if pa_flag d =? 0 then Kfree else FreePages (pa_flag d).

(** for (j = mi; j < mi + nblocks; j++) if (desc->map[j]) break;
    the result is the value of [j] after the loop. *)
Fixpoint scan_words (n : nat) (j : Z) (m : list Z) : outcome Z :=
  match n with
  | O => Ret j
  | S n' =>
      v ← aget m j;
      if v =? 0 then scan_words n' (j + 1) m else Ret j
  end.

(** for (j = mi; j < mi + nblocks; j++) desc->map[j] = (unsigned long)-1; *)
Fixpoint fill_words (n : nat) (j : Z) (m : list Z) : outcome (list Z) :=
  match n with
  | O => Ret m
  | S n' =>
      m' ← aset m j (2 ^ 64 - 1);
      fill_words n' (j + 1) m'
  end.

Fixpoint large_loop (n : nat) (mi nblocks : Z) (d : ihk_page_allocator_desc) :
  outcome (Z * ihk_page_allocator_desc) :=
  match n with
  | O => Ret (0, d)
  | S n' =>
      let mi := if pa_count d <? mi then 0 else mi in
      let last := u32 (mi + nblocks) in
      if pa_count d <=? last then large_loop n' (u32 (mi + 1)) nblocks d else
      j ← scan_words (Z.to_nat (last - mi)) mi (pa_map d);
      if j =? last then
        m ← fill_words (Z.to_nat (last - mi)) mi (pa_map d);
        a ← ADDRESS d mi 0;
        Ret (a, set_map d m)
      else large_loop n' (u32 (mi + 1)) nblocks d
  end.

(** __ihk_pagealloc_large *)
Definition ihk_pagealloc_large (d : ihk_page_allocator_desc) (nblocks : Z) :
  outcome (Z * ihk_page_allocator_desc) :=
  large_loop (Z.to_nat (pa_count d)) (pa_last d) nblocks d.

(** for (j = 0; j <= 64 - npages; j++) if (!(v & (mask << j))) ...;
    the result is the first [j] at which the run is free. *)
Fixpoint find_run (n : nat) (j v mask : Z) : outcome (option Z) :=
  match n with
  | O => Ret None
  | S n' =>
      sm ← shl_ulong mask j;
      if Z.land v sm =? 0 then Ret (Some j) else find_run n' (j + 1) v mask
  end.

Fixpoint alloc_loop (n : nat) (mi npages mask : Z) (d : ihk_page_allocator_desc) :
  outcome (Z * ihk_page_allocator_desc) :=
  match n with
  | O => Ret (0, d)
  | S n' =>
      let mi := if pa_count d <? mi then 0 else mi in
      v ← aget (pa_map d) mi;
      if v =? 2 ^ 64 - 1 then alloc_loop n' (u32 (mi + 1)) npages mask d else
      r ← find_run (Z.to_nat (64 - npages + 1)) 0 v mask;
      match r with
      | Some j =>
          sm ← shl_ulong mask j;
          m ← aset (pa_map d) mi (Z.lor v sm);
          a ← ADDRESS d mi j;
          Ret (a, set_map d m)
      | None => alloc_loop n' (u32 (mi + 1)) npages mask d
      end
  end.

(** ihk_pagealloc_alloc: the result 0 is the failure value. *)
Definition ihk_pagealloc_alloc (d : ihk_page_allocator_desc) (npages : Z) :
  outcome (Z * ihk_page_allocator_desc) :=
  if 32 <=? npages then ihk_pagealloc_large d (Z.shiftr (s32 (npages + 63)) 6) else
  b ← shl_int 1 npages;
  let mask := u64 (s32 (b - 1)) in
  alloc_loop (Z.to_nat (pa_count d)) (pa_last d) npages mask d.

Definition ihk_pagealloc_alloc_size (d : ihk_page_allocator_desc) (size : Z) :
  outcome (Z * ihk_page_allocator_desc) :=
  n ← shr_ulong size (pa_shift d);
  ihk_pagealloc_alloc d (s32 n).

(** for (i = 0; i < npages; i++, mi++)
      desc->map[MAP_INDEX(mi)] &= ~(1UL << MAP_BIT(mi)); *)
Fixpoint free_loop (n : nat) (mi : Z) (m : list Z) : outcome (list Z) :=
  match n with
  | O => Ret m
  | S n' =>
      v ← aget m (MAP_INDEX mi);
      m' ← aset m (MAP_INDEX mi) (Z.ldiff v (Z.shiftl 1 (MAP_BIT mi)));
      free_loop n' (u32 (mi + 1)) m'
  end.

Definition ihk_pagealloc_free (d : ihk_page_allocator_desc) (address npages : Z) :
  outcome ihk_page_allocator_desc :=
  b ← shr_ulong (u64 (address - pa_start d)) (pa_shift d);
  m ← free_loop (Z.to_nat npages) (u32 b) (pa_map d);
  Ret (set_map d m).

Definition ihk_pagealloc_free_size (d : ihk_page_allocator_desc) (address size : Z) :
  outcome ihk_page_allocator_desc :=
  n ← shr_ulong size (pa_shift d);
  ihk_pagealloc_free d address (s32 n).

(** ** Specification: used block numbers *)

Definition used (d : ihk_page_allocator_desc) (b : Z) : bool :=
  (0 <=? b) &&
  match pa_map d !! Z.to_nat (b / 64) with
  | Some v => Z.testbit v (b mod 64)
  | None => true
  end.

Definition in_run (b n x : Z) : bool := (b <=? x) && (x <? b + n).

(** Well-formed descriptors: what ihk_pagealloc_init establishes and the
    other functions keep. *)
Record desc_wf (d : ihk_page_allocator_desc) : Prop := {
  wf_len : Z.of_nat (length (pa_map d)) = pa_count d;
  wf_words : Forall (fun v => 0 <= v < 2 ^ 64) (pa_map d);
  wf_last : pa_last d = 0;
  wf_count : pa_count d < 2 ^ 26;
  wf_shift : 0 <= pa_shift d < 32
}.

(** No address computation leaves 32 bits and the area does not wrap. *)
Definition area_fits (d : ihk_page_allocator_desc) : Prop :=
  pa_count d * 64 * 2 ^ pa_shift d <= 2 ^ 32 /\
  0 <= pa_start d /\ pa_start d + pa_count d * 64 * 2 ^ pa_shift d <= 2 ^ 64.

Definition block_addr (d : ihk_page_allocator_desc) (b : Z) : Z :=
  pa_start d + b * 2 ^ pa_shift d.

(** ** Lemmas: bit masks *)

Lemma mask_ones n : 0 <= n < 32 -> exists b, shl_int 1 n = Ret b /\ u64 (s32 (b - 1)) = Z.ones n.
Proof.
  intros Hn. unfold shl_int. rewrite (proj2 (Z.leb_le 0 n)), (proj2 (Z.ltb_lt n 32)) by lia.
  eexists; split; [done|].
  assert (n = 31 \/ n < 31) as [->|] by lia; [done|].
  rewrite Z.shiftl_1_l, Z.ones_equiv.
  pose proof (Z.pow_pos_nonneg 2 n); pose proof (Z.pow_lt_mono_r 2 n 31).
  rewrite (s32_small (2 ^ n)) by lia. rewrite s32_small, u64_small; lia.
Qed.

Lemma run_mask_bit n k x :
  0 <= n -> 0 <= k -> k + n <= 64 ->
  Z.testbit (u64 (Z.shiftl (Z.ones n) k)) x = in_run k n x.
Proof.
  intros. unfold in_run. destruct (Z.lt_ge_cases x 0).
  { rewrite Z.testbit_neg_r by done. zcases; auto; lia. }
  destruct (Z.lt_ge_cases x 64).
  - rewrite testbit_u64, Z.shiftl_spec, ones_testbit by lia. zcases; auto; lia.
  - rewrite u64_bit_high; auto with ihk. zcases; auto; lia.
Qed.

Lemma run_mask_free n k v :
  0 <= n -> 0 <= k -> k + n <= 64 ->
  Z.land v (u64 (Z.shiftl (Z.ones n) k)) = 0 <->
  (forall x, k <= x < k + n -> Z.testbit v x = false).
Proof.
  intros Hn Hk Hkn. split.
  - intros H x Hx. assert (Z.testbit (Z.land v (u64 (Z.shiftl (Z.ones n) k))) x = false) as Hb.
    { rewrite H. apply Z.testbit_0_l. }
    rewrite Z.land_spec, run_mask_bit in Hb by lia.
    unfold in_run in Hb. zcases; try lia. by rewrite andb_true_r in Hb.
  - intros H. apply Z.bits_inj'. intros x Hx. rewrite Z.land_spec, run_mask_bit, Z.testbit_0_l by lia.
    unfold in_run. zcases; rewrite ?andb_false_r, ?andb_true_r; auto.
Qed.

Lemma shl_ulong_in a k : 0 <= k < 64 -> shl_ulong a k = Ret (u64 (Z.shiftl a k)).
Proof. intros. unfold shl_ulong. zcases; auto; lia. Qed.

(** The inner loop returns the first free run of the word, if there is one. *)
Lemma find_run_spec n j v np :
  1 <= np < 64 -> 0 <= j -> j + Z.of_nat n = 65 - np ->
  match find_run n j v (Z.ones np) with
  | Ret (Some k) => j <= k /\ k + np <= 64 /\ (forall x, k <= x < k + np -> Z.testbit v x = false)
  | Ret None => forall k, j <= k -> k + np <= 64 -> exists x, k <= x < k + np /\ Z.testbit v x = true
  | Undef => False
  end.
Proof.
  intros Hnp. revert j. induction n as [|n IH]; intros j Hj Hn; simpl.
  { intros. lia. }
  rewrite shl_ulong_in by lia. cbn [mbind outcome_bind].
  destruct (Z.eqb_spec (Z.land v (u64 (Z.shiftl (Z.ones np) j))) 0) as [E|E].
  { rewrite run_mask_free in E by lia. split_and!; auto; lia. }
  specialize (IH (j + 1) ltac:(lia) ltac:(lia)).
  destruct (find_run n (j + 1) v (Z.ones np)) as [[k|]|]; [naive_solver lia| |done].
  intros k Hk1 Hk2. destruct (Z.eq_dec k j) as [->|]; [|apply IH; lia].
  rewrite run_mask_free in E by lia.
  destruct (decide (Forall (fun x => Z.testbit v x = false) (seqZ j np))) as [F|F].
  - destruct E. intros x Hx. rewrite list.Forall_forall in F. apply F, elem_of_seqZ. lia.
  - apply not_Forall_Exists in F; [|apply _]. apply list.Exists_exists in F as (x & Hx & Hv).
    apply elem_of_seqZ in Hx. exists x. simpl in Hv. destruct (Z.testbit v x); [split;[lia|done]|done].
Qed.

(** ** Lemmas: the used predicate under map updates *)

Lemma used_word d k v x :
  pa_map d !! Z.to_nat k = Some v -> 0 <= k -> 64 * k <= x < 64 * k + 64 ->
  used d x = Z.testbit v (x - 64 * k).
Proof.
  intros Hv Hk Hx. unfold used. rewrite (proj2 (Z.leb_le 0 x)) by lia.
  replace (x / 64) with k by (apply (Z.div_unique x 64 k (x - 64 * k)); lia).
  rewrite Hv. simpl. f_equal. rewrite (Z.mod_eq x 64) by lia.
  replace (x / 64) with k by (apply (Z.div_unique x 64 k (x - 64 * k)); lia). lia.
Qed.

Lemma used_insert d k v x :
  0 <= k < Z.of_nat (length (pa_map d)) ->
  used (set_map d (<[Z.to_nat k := v]> (pa_map d))) x =
  if in_run (64 * k) 64 x then Z.testbit v (x - 64 * k) else used d x.
Proof.
  intros Hk. unfold in_run. destruct (Z.leb_spec (64 * k) x), (Z.ltb_spec x (64 * k + 64)); simpl.
  1: { apply used_word; [|lia..]. simpl. apply list_lookup_insert_eq. lia. }
  all: unfold used; destruct (Z.leb_spec 0 x); simpl; auto.
  all: rewrite list_lookup_insert_ne; auto.
  all: pose proof (Z.div_mod x 64 ltac:(lia)); pose proof (Z.mod_pos_bound x 64 ltac:(lia)).
  all: intros E; apply (f_equal Z.of_nat) in E; rewrite !Z2Nat.id in E; lia || apply Z.div_pos; lia.
Qed.

Lemma used_out d x : desc_wf d -> 64 * pa_count d <= x -> used d x = true.
Proof.
  intros W Hx. pose proof (wf_len d W). unfold used.
  rewrite (proj2 (Z.leb_le 0 x)), lookup_ge_None_2; auto; [|lia].
  assert (pa_count d <= x / 64) by (apply Z.div_le_lower_bound; lia). lia.
Qed.

Lemma wf_word d k : desc_wf d -> 0 <= k < pa_count d ->
  exists v, pa_map d !! Z.to_nat k = Some v /\ aget (pa_map d) k = Ret v /\ 0 <= v < 2 ^ 64.
Proof.
  intros W Hk. destruct (aget_in (pa_map d) k) as (v & Ha & Hl); [pose proof (wf_len d W); lia|].
  exists v. split_and!; auto. all: pose proof (wf_words d W) as F.
  all: rewrite Forall_lookup in F; apply F in Hl; lia.
Qed.

Lemma wf_set_map d k v : desc_wf d -> 0 <= k -> 0 <= v < 2 ^ 64 ->
  desc_wf (set_map d (<[Z.to_nat k := v]> (pa_map d))).
Proof.
  intros [] ? ?. split; simpl; auto.
  - by rewrite length_insert.
  - by apply Forall_insert.
Qed.

(** [d'] is [d] with the [n] free blocks from [b] on taken. *)
Definition took_run (d : ihk_page_allocator_desc) (b n : Z) (d' : ihk_page_allocator_desc) : Prop :=
  0 <= b /\ b + n <= 64 * pa_count d /\
  (forall x, b <= x < b + n -> used d x = false) /\
  (forall x, used d' x = used d x || in_run b n x) /\
  desc_wf d' /\ d' = set_map d (pa_map d').

(** No free run of [n] blocks inside one map word, from word [k] on. *)
Definition no_run (d : ihk_page_allocator_desc) (k n : Z) : Prop :=
  forall b, 64 * k <= b -> b + n <= 64 * pa_count d -> b mod 64 + n <= 64 ->
  exists x, b <= x < b + n /\ used d x = true.

Lemma word_no_run d k v np :
  pa_map d !! Z.to_nat k = Some v -> 0 <= k -> 1 <= np ->
  (forall j, 0 <= j -> j + np <= 64 -> exists x, j <= x < j + np /\ Z.testbit v x = true) ->
  no_run d (k + 1) np -> no_run d k np.
Proof.
  intros Hv Hk Hnp Hrun Hrest b Hb1 Hb2 Hb3.
  destruct (Z.lt_ge_cases b (64 * (k + 1))); [|by apply Hrest].
  assert (b mod 64 = b - 64 * k) as Hm by (symmetry; apply (Z.mod_unique b 64 k); lia).
  destruct (Hrun (b - 64 * k)) as (x & Hx & Hv'); [lia|lia|].
  exists (64 * k + x). split; [lia|]. rewrite (used_word d k v) by (auto; lia).
  rewrite <- Hv'. f_equal. lia.
Qed.

Lemma ADDRESS_ret d k j :
  desc_wf d -> 0 <= k < pa_count d -> 0 <= j < 64 ->
  ADDRESS d k j = Ret (u64 (pa_start d + u32 ((64 * k + j) * 2 ^ pa_shift d))).
Proof.
  intros W Hk Hj. destruct W. unfold ADDRESS, shl_uint.
  rewrite (proj2 (Z.leb_le 0 _)), (proj2 (Z.ltb_lt _ 32)) by lia. simpl.
  rewrite (u32_small (k * 64 + j)), Z.shiftl_mul_pow2 by lia. do 5 f_equal. lia.
Qed.

Lemma took_run_word d k v j np :
  desc_wf d -> pa_map d !! Z.to_nat k = Some v -> 0 <= k < pa_count d ->
  1 <= np -> 0 <= j -> j + np <= 64 ->
  (forall x, j <= x < j + np -> Z.testbit v x = false) ->
  took_run d (64 * k + j) np
    (set_map d (<[Z.to_nat k := Z.lor v (u64 (Z.shiftl (Z.ones np) j))]> (pa_map d))).
Proof.
  intros W Hv Hk Hnp Hj Hjn Hfree.
  assert (0 <= v < 2 ^ 64) by (pose proof (wf_words d W) as F; rewrite Forall_lookup in F; by apply (F _ _ Hv)).
  split_and!; try done; [lia|lia| | |].
  - intros x Hx. rewrite (used_word d k v) by (auto; lia). apply Hfree. lia.
  - intros x. rewrite used_insert by (rewrite (wf_len d W); lia).
    assert (in_run j np (x - 64 * k) = in_run (64 * k + j) np x) as Hr
      by (unfold in_run; zcases; auto; lia).
    destruct (in_run (64 * k) 64 x) eqn:E; unfold in_run in E; zcases; try done; try lia.
    1: by rewrite Z.lor_spec, run_mask_bit, (used_word d k v), Hr by (auto; lia).
    all: unfold in_run; zcases; rewrite ?orb_false_r; done || lia.
  - apply wf_set_map; auto; [lia|]. apply u64_lor; auto with ihk.
Qed.

Lemma alloc_loop_spec n mi np d :
  desc_wf d -> 1 <= np < 32 -> 0 <= mi -> mi + Z.of_nat n = pa_count d ->
  exists a d', alloc_loop n mi np (Z.ones np) d = Ret (a, d') /\
  ((a = 0 /\ d' = d /\ no_run d mi np) \/
   exists b, took_run d b np d' /\ a = u64 (pa_start d + u32 (b * 2 ^ pa_shift d))).
Proof.
  intros W Hnp. revert mi. induction n as [|n IH]; intros mi Hmi Hn; simpl.
  { exists 0, d. split; [done|]. left. split_and!; auto. intros b ???. lia. }
  rewrite (proj2 (Z.ltb_ge (pa_count d) mi)) by lia.
  destruct (wf_word d mi W) as (v & Hl & Hg & Hr); [lia|]. rewrite Hg. simpl.
  pose proof (wf_count d W). rewrite (u32_small (mi + 1)) by lia.
  destruct (IH (mi + 1)) as (a & d' & Hloop & Hres); [lia|lia|].
  destruct (Z.eqb_spec v (2 ^ 64 - 1)) as [->|_].
  - exists a, d'. split; [done|]. destruct Hres as [(-> & -> & ?)|]; [left|by right].
    split_and!; auto. eapply (word_no_run d mi); eauto; [lia|]. intros j ? ?. exists j.
    split; [lia|]. apply (Z.ones_spec_low 64); lia.
  - pose proof (find_run_spec (Z.to_nat (64 - np + 1)) 0 v np ltac:(lia) ltac:(lia) ltac:(lia)) as Hf.
    destruct find_run as [[j|]|]; simpl; [| |done].
    + destruct Hf as (? & ? & Hfree). rewrite shl_ulong_in by lia. simpl.
      rewrite aset_in by (rewrite (wf_len d W); lia). simpl.
      rewrite ADDRESS_ret by (auto; lia). simpl. eexists _, _. split; [done|]. right.
      exists (64 * mi + j). split; [|done]. apply took_run_word; auto; lia.
    + exists a, d'. split; [done|]. destruct Hres as [(-> & -> & ?)|]; [left|by right].
      split_and!; auto. eapply (word_no_run d mi); eauto; lia.
Qed.

(** ** Lemmas: freeing *)

Lemma MAP_INDEX_eq n : MAP_INDEX n = n / 64.
Proof. apply (Z.shiftr_div_pow2 n 6). lia. Qed.

Lemma MAP_BIT_eq n : MAP_BIT n = n mod 64.
Proof. apply (Z.land_ones n 6). lia. Qed.

Lemma free_loop_spec n mi d :
  desc_wf d -> 0 <= mi -> mi + Z.of_nat n <= 64 * pa_count d ->
  exists m, free_loop n mi (pa_map d) = Ret m /\ desc_wf (set_map d m) /\
  (forall x, used (set_map d m) x = used d x && negb (in_run mi (Z.of_nat n) x)).
Proof.
  revert mi d. induction n as [|n IH]; intros mi d W Hmi Hn; cbn [free_loop].
  { exists (pa_map d). split_and!; auto; [by destruct d, W|]. intros x.
    unfold in_run. zcases; try lia; by rewrite andb_true_r. }
  rewrite MAP_INDEX_eq, MAP_BIT_eq.
  pose proof (Z.div_mod mi 64 ltac:(lia)) as Hdm. pose proof (Z.mod_pos_bound mi 64 ltac:(lia)).
  set (k := mi / 64) in *. set (j := mi mod 64) in *.
  destruct (wf_word d k W) as (v & Hl & Hg & Hv); [lia|]. rewrite Hg. simpl.
  rewrite aset_in by (rewrite (wf_len d W); lia). simpl.
  pose proof (wf_count d W). rewrite u32_small by lia.
  set (v' := Z.ldiff v (Z.shiftl 1 j)).
  assert (desc_wf (set_map d (<[Z.to_nat k := v']> (pa_map d)))) as W'
    by (apply wf_set_map; [done|lia|by apply u64_ldiff]).
  destruct (IH (mi + 1) _ W') as (m & Hm & Wm & Hu); [lia|simpl; lia|].
  exists m. split_and!; [done|done|]. intros x. specialize (Hu x). simpl in Hu.
  change (set_map (set_map d (<[Z.to_nat k := v']> (pa_map d))) m) with (set_map d m) in Hu.
  rewrite Hu, used_insert by (rewrite (wf_len d W); lia).
  assert (64 * k <= x < 64 * k + 64 -> Z.testbit v' (x - 64 * k) = used d x && negb (x =? mi)) as Hw.
  { intros Hx. unfold v'. rewrite Z.ldiff_spec, Z.shiftl_spec, (used_word d k v) by (auto; lia).
    f_equal. f_equal. destruct (Z.eqb_spec x mi) as [->|].
    - by replace (mi - 64 * k - j) with 0 by lia.
    - destruct (Z.lt_ge_cases (x - 64 * k - j) 0); [apply Z.testbit_neg_r; lia|].
      apply Z.bits_above_log2; simpl; lia. }
  destruct (in_run (64 * k) 64 x) eqn:E; unfold in_run in E |- *;
    [rewrite Hw by (zcases; try done; lia)|]; zcases; try done; try lia.
  all: by rewrite ?andb_true_r, ?andb_false_r.
Qed.

(** A descriptor is determined by its used predicate. *)
Lemma used_ext d d' :
  desc_wf d -> desc_wf d' -> pa_count d' = pa_count d ->
  (forall x, used d' x = used d x) -> pa_map d' = pa_map d.
Proof.
  intros W W' Hc H.
  assert (length (pa_map d') = length (pa_map d)) as Hlen.
  { pose proof (wf_len d W). pose proof (wf_len d' W'). lia. }
  apply list_eq_same_length with (n := length (pa_map d)); auto.
  intros i v' v Hi Hv' Hv.
  pose proof (wf_words d W) as F. pose proof (wf_words d' W') as F'.
  rewrite Forall_lookup in F, F'.
  apply u64_bits_eq; eauto. intros b Hb. specialize (H (64 * Z.of_nat i + b)).
  rewrite (used_word d (Z.of_nat i) v), (used_word d' (Z.of_nat i) v') in H;
    rewrite ?Nat2Z.id; auto; try lia.
  by replace (64 * Z.of_nat i + b - 64 * Z.of_nat i) with b in H by lia.
Qed.

Lemma block_addr_inv d b :
  desc_wf d -> area_fits d -> 0 <= b < 64 * pa_count d ->
  u64 (pa_start d + u32 (b * 2 ^ pa_shift d)) = block_addr d b /\
  shr_ulong (u64 (block_addr d b - pa_start d)) (pa_shift d) = Ret b.
Proof.
  intros W (H1 & H2 & H3) Hb. pose proof (wf_shift d W) as Hs.
  assert (0 < 2 ^ pa_shift d) as Hp by (apply Z.pow_pos_nonneg; lia).
  assert (0 <= b * 2 ^ pa_shift d < pa_count d * 64 * 2 ^ pa_shift d) as Hr by nia.
  unfold block_addr. rewrite u32_small by lia. rewrite u64_small by lia. split; [done|].
  replace (pa_start d + b * 2 ^ pa_shift d - pa_start d) with (b * 2 ^ pa_shift d) by lia.
  rewrite u64_small by lia. unfold shr_ulong. zcases; try lia.
  by rewrite Z.shiftr_div_pow2, Z.div_mul by lia.
Qed.

Lemma free_spec d b n :
  desc_wf d -> area_fits d -> 0 <= b < 64 * pa_count d -> 0 <= n -> b + n <= 64 * pa_count d ->
  exists m, ihk_pagealloc_free d (block_addr d b) n = Ret (set_map d m) /\ desc_wf (set_map d m) /\
  (forall x, used (set_map d m) x = used d x && negb (in_run b n x)).
Proof.
  intros W Hf Hb Hn Hbn. pose proof (wf_count d W).
  destruct (block_addr_inv d b W Hf Hb) as [_ Hs].
  destruct (free_loop_spec (Z.to_nat n) b d W) as (m & Hm & Wm & Hu); [lia|lia|].
  exists m. unfold ihk_pagealloc_free. rewrite Hs. simpl. rewrite u32_small by lia.
  rewrite Hm. simpl. split_and!; auto. intros x. rewrite Hu. by rewrite Z2Nat.id.
Qed.

(** ** Lemmas: large requests *)

(** The words [k .. k+n-1] are all free. *)
Definition free_words (d : ihk_page_allocator_desc) (k n : Z) : Prop :=
  forall x, 64 * k <= x < 64 * (k + n) -> used d x = false.

Lemma word_zero d k v : pa_map d !! Z.to_nat k = Some v -> 0 <= k -> 0 <= v < 2 ^ 64 ->
  v = 0 <-> free_words d k 1.
Proof.
  intros Hl Hk Hv. split.
  - intros -> x Hx. rewrite (used_word d k 0) by (auto; lia). apply Z.testbit_0_l.
  - intros H. apply u64_bits_eq; [done|lia|]. intros i Hi. rewrite Z.testbit_0_l.
    specialize (H (64 * k + i) ltac:(lia)). rewrite (used_word d k v) in H by (auto; lia).
    by replace (64 * k + i - 64 * k) with i in H by lia.
Qed.

Lemma scan_words_spec n j d :
  desc_wf d -> 0 <= j -> j + Z.of_nat n <= pa_count d ->
  exists r, scan_words n j (pa_map d) = Ret r /\ j <= r /\
  (r = j + Z.of_nat n <-> free_words d j (Z.of_nat n)).
Proof.
  intros W. revert j. induction n as [|n IH]; intros j Hj Hn; cbn [scan_words].
  { exists j. split_and!; auto; [lia|]. split; [intros _ x; lia|lia]. }
  destruct (wf_word d j W) as (v & Hl & Hg & Hv); [lia|]. rewrite Hg. simpl.
  pose proof (word_zero d j v Hl Hj Hv) as Hz.
  destruct (Z.eqb_spec v 0) as [->|Hne].
  - destruct (IH (j + 1)) as (r & -> & Hr & Heq); [lia|lia|]. exists r.
    split_and!; [done|lia|]. destruct Hz as [Hz _]. specialize (Hz eq_refl).
    replace (j + Z.of_nat (S n)) with (j + 1 + Z.of_nat n) by lia. rewrite Heq. split.
    + intros H x Hx. destruct (Z.lt_ge_cases x (64 * (j + 1))); [apply Hz; lia|apply H; lia].
    + intros H x Hx. apply H. lia.
  - exists j. split_and!; [done|lia|]. split; [lia|]. intros H. destruct Hne. apply Hz.
    intros x Hx. apply H. lia.
Qed.

Lemma fill_words_spec n j d :
  desc_wf d -> 0 <= j -> j + Z.of_nat n <= pa_count d ->
  exists m, fill_words n j (pa_map d) = Ret m /\ desc_wf (set_map d m) /\
  (forall x, used (set_map d m) x = used d x || in_run (64 * j) (64 * Z.of_nat n) x).
Proof.
  revert j d. induction n as [|n IH]; intros j d W Hj Hn; cbn [fill_words].
  { exists (pa_map d). split_and!; auto; [by destruct d, W|]. intros x.
    unfold in_run. zcases; try lia; by rewrite orb_false_r. }
  rewrite aset_in by (rewrite (wf_len d W); lia). cbn [mbind outcome_bind].
  assert (desc_wf (set_map d (<[Z.to_nat j := 2 ^ 64 - 1]> (pa_map d)))) as W'
    by (apply wf_set_map; [done|lia|lia]).
  destruct (IH (j + 1) _ W') as (m & Hm & Wm & Hu); [lia|simpl; lia|].
  exists m. split_and!; [done|done|]. intros x. specialize (Hu x).
  change (set_map (set_map d (<[Z.to_nat j := 2 ^ 64 - 1]> (pa_map d))) m) with (set_map d m) in Hu.
  rewrite Hu, used_insert by (rewrite (wf_len d W); lia).
  assert (64 * j <= x < 64 * j + 64 -> Z.testbit (2 ^ 64 - 1) (x - 64 * j) = true) as Hw
    by (intros; apply (Z.ones_spec_low 64); lia).
  destruct (in_run (64 * j) 64 x) eqn:E; unfold in_run in E |- *;
    [rewrite Hw by (zcases; try done; lia)|]; zcases; try done; try lia.
  all: by rewrite ?orb_true_r, ?orb_false_r.
Qed.

Lemma large_loop_spec n mi nb d :
  desc_wf d -> 1 <= nb < 2 ^ 26 -> 0 <= mi -> mi + Z.of_nat n = pa_count d ->
  exists a d', large_loop n mi nb d = Ret (a, d') /\
  ((a = 0 /\ d' = d /\ forall k, mi <= k -> k + nb < pa_count d -> ~ free_words d k nb) \/
   exists k, mi <= k /\ k + nb < pa_count d /\ took_run d (64 * k) (64 * nb) d' /\
     a = u64 (pa_start d + u32 (64 * k * 2 ^ pa_shift d))).
Proof.
  intros W Hnb. revert mi. induction n as [|n IH]; intros mi Hmi Hn; cbn [large_loop].
  { exists 0, d. split; [done|]. left. split_and!; auto. intros k ??. lia. }
  rewrite (proj2 (Z.ltb_ge (pa_count d) mi)) by lia. cbn zeta.
  pose proof (wf_count d W). rewrite !u32_small by lia.
  destruct (IH (mi + 1)) as (a & d' & Hloop & Hres); [lia|lia|].
  assert (~ (mi + nb < pa_count d /\ free_words d mi nb) ->
    exists a d', large_loop n (mi + 1) nb d = Ret (a, d') /\
    ((a = 0 /\ d' = d /\ forall k, mi <= k -> k + nb < pa_count d -> ~ free_words d k nb) \/
     exists k, mi <= k /\ k + nb < pa_count d /\ took_run d (64 * k) (64 * nb) d' /\
     a = u64 (pa_start d + u32 (64 * k * 2 ^ pa_shift d)))) as Hskip.
  { intros Hno. exists a, d'. split; [done|]. destruct Hres as [(-> & -> & Hk)|(k & ? & ?)].
    - left. split_and!; auto. intros k Hk1 Hk2 Hf. destruct (Z.eq_dec k mi) as [->|]; [by apply Hno|].
      apply (Hk k); auto; lia.
    - right. exists k. split; [lia|done]. }
  destruct (Z.leb_spec (pa_count d) (mi + nb)); [apply Hskip; lia|].
  replace (mi + nb - mi) with nb by lia.
  destruct (scan_words_spec (Z.to_nat nb) mi d W) as (r & -> & Hr & Hfree); [lia|lia|].
  rewrite Z2Nat.id in Hfree by lia. cbn [mbind outcome_bind].
  destruct (Z.eqb_spec r (mi + nb)) as [Heq|Hne]; [|apply Hskip; tauto].
  destruct (fill_words_spec (Z.to_nat nb) mi d W) as (m & -> & Wm & Hu); [lia|lia|].
  cbn [mbind outcome_bind]. rewrite ADDRESS_ret by (auto; lia). cbn [mbind outcome_bind].
  eexists _, _. split; [done|]. right. exists mi. rewrite Z.add_0_r, Z2Nat.id in * by lia.
  split_and!; auto; [lia|]. apply Hfree in Heq.
  split_and!; auto; [lia|lia|]. intros x Hx. apply Heq. lia.
Qed.

(** The number of blocks ihk_pagealloc_alloc takes for a request. *)
Definition rounded (np : Z) : Z := if np <? 32 then np else 64 * ((np + 63) / 64).

Lemma rounded_ge np : 1 <= np -> np <= rounded np.
Proof.
  intros. unfold rounded. destruct (Z.ltb_spec np 32); [lia|].
  pose proof (Z.div_mod (np + 63) 64 ltac:(lia)). pose proof (Z.mod_pos_bound (np + 63) 64 ltac:(lia)). lia.
Qed.

Lemma alloc_small_unfold d np : 1 <= np < 32 ->
  ihk_pagealloc_alloc d np = alloc_loop (Z.to_nat (pa_count d)) (pa_last d) np (Z.ones np) d.
Proof.
  intros Hnp. unfold ihk_pagealloc_alloc. rewrite (proj2 (Z.leb_gt 32 np)) by lia.
  destruct (mask_ones np) as (b & -> & Hb); [lia|]. cbn [mbind outcome_bind]. by rewrite Hb.
Qed.

Lemma alloc_large_unfold d np : 32 <= np < 2 ^ 31 - 64 ->
  ihk_pagealloc_alloc d np = large_loop (Z.to_nat (pa_count d)) (pa_last d) ((np + 63) / 64) d /\
  1 <= (np + 63) / 64 < 2 ^ 26.
Proof.
  intros Hnp. unfold ihk_pagealloc_alloc, ihk_pagealloc_large. rewrite (proj2 (Z.leb_le 32 np)) by lia.
  rewrite s32_small, Z.shiftr_div_pow2 by lia. split; [done|]. split.
  - apply Z.div_le_lower_bound; lia.
  - apply Z.div_lt_upper_bound; lia.
Qed.

(** Every request of at least one block completes; on success a free run of
    [rounded np] blocks is taken and its (32-bit) address returned. *)
Lemma alloc_cases d np :
  desc_wf d -> 1 <= np < 2 ^ 31 - 64 ->
  exists a d', ihk_pagealloc_alloc d np = Ret (a, d') /\
  ((a = 0 /\ d' = d) \/
   exists b, took_run d b (rounded np) d' /\ a = u64 (pa_start d + u32 (b * 2 ^ pa_shift d))).
Proof.
  intros W Hnp. pose proof (wf_last d W) as Hl. pose proof (wf_len d W).
  unfold rounded. destruct (Z.ltb_spec np 32).
  - rewrite alloc_small_unfold, Hl by lia.
    destruct (alloc_loop_spec (Z.to_nat (pa_count d)) 0 np d W) as (a & d' & -> & Hr); [lia..|].
    exists a, d'. split; [done|]. naive_solver.
  - destruct (alloc_large_unfold d np) as [-> Hb]; [lia|]. rewrite Hl.
    destruct (large_loop_spec (Z.to_nat (pa_count d)) 0 ((np + 63) / 64) d W Hb) as (a & d' & -> & Hr); [lia..|].
    exists a, d'. split; [done|]. naive_solver.
Qed.

Lemma took_run_fields d b n d' : took_run d b n d' ->
  pa_start d' = pa_start d /\ pa_count d' = pa_count d /\ pa_shift d' = pa_shift d.
Proof. intros (_ & _ & _ & _ & _ & ->). done. Qed.

(** ** Clients

    A client keeps the (address, number of blocks) pairs it was given and
    frees only what it holds, with the number it asked for. *)

Definition client := (ihk_page_allocator_desc * list (Z * Z))%type.

Inductive client_step : client -> client -> Prop :=
| client_alloc d L np a d' :
    1 <= np < 2 ^ 31 - 64 -> ihk_pagealloc_alloc d np = Ret (a, d') -> a <> 0 ->
    client_step (d, L) (d', (a, np) :: L)
| client_alloc_fail d L np d' :
    1 <= np < 2 ^ 31 - 64 -> ihk_pagealloc_alloc d np = Ret (0, d') ->
    client_step (d, L) (d', L)
| client_free d L1 a np L2 d' :
    ihk_pagealloc_free d a np = Ret d' ->
    client_step (d, L1 ++ (a, np) :: L2) (d', L1 ++ L2).

(** Byte ranges of two regions do not meet. *)
Definition regions_apart (shift : Z) (r1 r2 : Z * Z) : Prop :=
  r1.1 + r1.2 * 2 ^ shift <= r2.1 \/ r2.1 + r2.2 * 2 ^ shift <= r1.1.

#[global] Instance regions_apart_sym shift : Symmetric (regions_apart shift).
Proof. intros ??. unfold regions_apart. tauto. Qed.

Definition held (d : ihk_page_allocator_desc) (r : Z * Z) : Prop :=
  1 <= r.2 /\ exists b, r.1 = block_addr d b /\ 0 <= b /\ b + r.2 <= 64 * pa_count d /\
  forall x, b <= x < b + r.2 -> used d x = true.

Definition client_inv (s : client) : Prop :=
  desc_wf s.1 /\ area_fits s.1 /\ 0 < pa_start s.1 /\
  Forall (held s.1) s.2 /\ pairwise (regions_apart (pa_shift s.1)) s.2.

Lemma apart_blocks d b1 n1 b2 n2 :
  desc_wf d -> regions_apart (pa_shift d) (block_addr d b1, n1) (block_addr d b2, n2) <->
  b1 + n1 <= b2 \/ b2 + n2 <= b1.
Proof.
  intros W. pose proof (wf_shift d W).
  assert (0 < 2 ^ pa_shift d) by (apply Z.pow_pos_nonneg; lia).
  unfold regions_apart, block_addr. simpl. nia.
Qed.

(** Descriptors that differ only in the map. *)
Lemma client_inv_map d L m :
  client_inv (d, L) -> desc_wf (set_map d m) ->
  (forall r, r ∈ L -> held d r -> held (set_map d m) r) -> client_inv (set_map d m, L).
Proof.
  intros (W & Hf & Hs & HL & HP) W' H. split_and!; auto.
  rewrite Forall_forall in HL |- *. auto.
Qed.

Lemma client_inv_sub d L1 r L2 : client_inv (d, L1 ++ r :: L2) ->
  client_inv (d, L1 ++ L2) /\ held d r /\ Forall (regions_apart (pa_shift d) r) (L1 ++ L2).
Proof.
  intros (W & Hf & Hs & HL & HP). simpl in *. rewrite Forall_app, Forall_cons in HL.
  split; [|split; [tauto|by apply pairwise_split in HP; [|apply _]]].
  split_and!; auto; simpl; [rewrite Forall_app; tauto|by apply pairwise_remove in HP].
Qed.

Lemma client_inv_alloc d L np a d' :
  client_inv (d, L) -> 1 <= np < 2 ^ 31 - 64 -> ihk_pagealloc_alloc d np = Ret (a, d') -> a <> 0 ->
  client_inv (d', (a, np) :: L).
Proof.
  intros HI Hnp Ha Ha0. pose proof HI as (W & Hf & Hs & HL & HP). simpl in *.
  destruct (alloc_cases d np W Hnp) as (a' & d'' & Ha' & Hres). rewrite Ha in Ha'.
  injection Ha' as <- <-. destruct Hres as [[? _]|(b & Ht & Haddr)]; [done|].
  pose proof (rounded_ge np ltac:(lia)) as Hr. destruct (took_run_fields _ _ _ _ Ht) as (_ & Hc & _).
  destruct Ht as (Hb & Hbn & Hfree & Hused & W' & Hd').
  destruct (block_addr_inv d b W Hf) as [Hba _]; [lia|]. rewrite Hba in Haddr. subst a.
  set (m := pa_map d') in *. rewrite Hd' in W', Hused |- *.
  assert (client_inv (set_map d m, L)) as (_ & _ & _ & HL' & _).
  { apply client_inv_map; auto. intros r _ (H1 & b' & H2 & H3 & H4 & H5). split; [done|].
    exists b'. split_and!; auto. intros x Hx. rewrite Hused, H5 by done. done. }
  split_and!; auto; simpl.
  - constructor; [|done]. split; [simpl; lia|]. exists b. simpl. split_and!; auto; [lia|].
    intros x Hx. rewrite Hused. unfold in_run. zcases; rewrite ?orb_true_r; done || lia.
  - split; [|done]. rewrite Forall_forall in HL |- *. intros [a2 n2] Hin.
    destruct (HL _ Hin) as (H1 & b2 & H2 & H3 & H4 & H5). simpl in *. subst a2.
    apply apart_blocks; [done|].
    destruct (Z.le_gt_cases (b + np) b2); [by left|]. destruct (Z.le_gt_cases (b2 + n2) b); [by right|].
    specialize (H5 (Z.max b b2) ltac:(lia)). rewrite Hfree in H5 by lia. done.
Qed.

Lemma client_inv_free d L1 a np L2 :
  client_inv (d, L1 ++ (a, np) :: L2) ->
  exists d', ihk_pagealloc_free d a np = Ret d' /\ client_inv (d', L1 ++ L2).
Proof.
  intros HI. destruct (client_inv_sub _ _ _ _ HI) as (HI' & (Hn & b & Hb & Hb0 & Hbn & Hu) & Hap).
  pose proof HI as (W & Hf & Hs & _ & _). simpl in *. subst a.
  destruct (free_spec d b np W Hf) as (m & Hm & Wm & Hused); [lia..|].
  exists (set_map d m). split; [done|]. apply client_inv_map; auto.
  intros [a2 n2] Hin (H1 & b2 & H2 & H3 & H4 & H5). simpl in *. subst a2.
  rewrite Forall_forall in Hap. specialize (Hap _ Hin). apply apart_blocks in Hap; [|done].
  split; [done|]. exists b2. simpl. split_and!; auto. intros x Hx.
  rewrite Hused, H5 by done. unfold in_run. zcases; try lia; done.
Qed.

Lemma client_inv_step s s' : client_inv s -> client_step s s' -> client_inv s'.
Proof.
  intros HI Hst. destruct Hst as [d L np a d' Hnp Ha Ha0|d L np d' Hnp Ha|d L1 a np L2 d' Hfr].
  - by eapply client_inv_alloc.
  - destruct HI as (W & HI). destruct (alloc_cases d np W Hnp) as (a & d'' & Ha' & Hres).
    rewrite Ha in Ha'. injection Ha' as <- <-.
    destruct Hres as [[_ ->]|(b & Ht & Haddr)]; [by split|]. exfalso.
    destruct HI as (Hf & Hs & _). simpl in *.
    destruct Ht as (Hb & Hbn & _). pose proof (rounded_ge np ltac:(lia)).
    destruct (block_addr_inv d b W Hf) as [Hba _]; [lia|]. rewrite Hba in Haddr.
    pose proof (wf_shift d W). unfold block_addr in Haddr.
    assert (0 < 2 ^ pa_shift d) by (apply Z.pow_pos_nonneg; lia). nia.
  - destruct (client_inv_free _ _ _ _ _ HI) as (d'' & Hfr' & HI'). rewrite Hfr in Hfr'. by inv_ret.
Qed.

(** Freeing the first [np] blocks of a run that was just taken. *)
Lemma free_taken d b n d' np :
  desc_wf d -> area_fits d -> took_run d b n d' -> 1 <= np <= n ->
  exists m, ihk_pagealloc_free d' (block_addr d b) np = Ret (set_map d m) /\ desc_wf (set_map d m) /\
  forall x, used (set_map d m) x = (used d x || in_run b n x) && negb (in_run b np x).
Proof.
  intros W Hf (Hb & Hbn & _ & Hused & W' & Hd') Hnp. revert Hused W' Hd'. generalize (pa_map d') as m'.
  intros m' Hused W' ->.
  destruct (free_spec (set_map d m') b np W' Hf) as (m & Hm & Wm & Hu); [simpl; lia..|].
  exists m. split; [exact Hm|]. split; [exact Wm|]. intros x. rewrite <- Hused. apply Hu.
Qed.

(** ** Lemmas: initialisation *)

Lemma reserve_padding_undef n i m k :
  0 <= i -> i + Z.of_nat n < 2 ^ 31 -> i <= k < i + Z.of_nat n -> 32 <= k mod 64 ->
  reserve_padding n i m = Undef.
Proof.
  revert i m. induction n as [|n IH]; intros i m Hi Hn Hk H32; [lia|]. cbn [reserve_padding].
  rewrite MAP_BIT_eq. destruct (Z.eq_dec i k) as [->|].
  { unfold shl_int. rewrite (proj2 (Z.ltb_ge _ 32)), andb_false_r by lia. done. }
  destruct (shl_int 1 (i mod 64)); [|done]. cbn [mbind outcome_bind].
  destruct (aget m (MAP_INDEX i)); [|done]. cbn [mbind outcome_bind].
  destruct (aset m _ _); [|done]. cbn [mbind outcome_bind].
  rewrite s32_small by lia. apply IH; auto; lia.
Qed.

Lemma fls_log2 x : 0 < x < 2 ^ 32 -> fls x = Z.log2 x + 1.
Proof. intros. unfold fls. rewrite u32_small by lia. zcases; [lia|done]. Qed.

Lemma replicate_wf start count flag shift :
  0 <= count < 2 ^ 26 -> 0 <= shift < 32 ->
  desc_wf (mk_desc start 0 count flag shift (replicate (Z.to_nat count) 0)).
Proof.
  intros. split; simpl; auto; try lia.
  - rewrite length_replicate. lia.
  - rewrite Forall_forall. intros v Hv%elem_of_replicate. lia.
Qed.

Lemma replicate_unused start count flag shift x :
  0 <= x < 64 * count ->
  used (mk_desc start 0 count flag shift (replicate (Z.to_nat count) 0)) x = false.
Proof.
  intros Hx. assert (0 <= x / 64 < count) by (split; [apply Z.div_pos|apply Z.div_lt_upper_bound]; lia).
  unfold used. simpl. rewrite lookup_replicate_2 by lia. rewrite Z.testbit_0_l. apply andb_false_r.
Qed.

(** How the descriptor itself is allocated, for [w] words of map. *)
Definition desc_alloc (sizeof_desc w : Z) : desc_memory * Z :=
  let bytes := sizeof_desc + 8 * w in
  if PAGE_SIZE <=? bytes then
    let order := Z.log2_up ((bytes + PAGE_SIZE - 1) / PAGE_SIZE) in (GetFreePages order, order)
  else (Kzalloc bytes, 0).

Lemma order_log2_up p : 0 < p < 2 ^ 31 ->
  exists w, shl_int 1 (fls p - 1) = Ret w /\
  (if w <? p then fls p - 1 + 1 else fls p - 1) = Z.log2_up p.
Proof.
  intros Hp. rewrite fls_log2 by lia. replace (Z.log2 p + 1 - 1) with (Z.log2 p) by lia.
  pose proof (Z.log2_nonneg p). assert (Z.log2 p < 31) by (apply Z.log2_lt_pow2; lia).
  destruct (Z.log2_spec p) as [Hlo Hhi]; [lia|].
  unfold shl_int. rewrite (proj2 (Z.leb_le 0 _)), (proj2 (Z.ltb_lt _ 32)) by lia.
  eexists; split; [done|]. rewrite Z.shiftl_1_l, s32_small by (pose proof (Z.pow_lt_mono_r 2 (Z.log2 p) 31); lia).
  destruct (Z.ltb_spec (2 ^ Z.log2 p) p).
  - symmetry. apply Z.log2_up_unique; [lia|]. replace (Z.log2 p + 1) with (Z.succ (Z.log2 p)) by lia.
    rewrite Z.pred_succ. lia.
  - assert (p = 2 ^ Z.log2 p) as Hpe by lia. rewrite Hpe at 2. by rewrite Z.log2_up_pow2.
Qed.

Section InitLemmas.
Context (sizeof_desc : Z) (mem_ok : desc_memory -> bool).
Hypothesis Hsz : 0 <= sizeof_desc < PAGE_SIZE.

(** The computation of ihk_pagealloc_init up to the padding loop. *)
Lemma init_unfold start s n w :
  0 <= s < 32 -> 0 <= n < 2 ^ 28 -> w = (n + 63) / 64 -> 0 <= start ->
  let '(mem, flag) := desc_alloc sizeof_desc w in
  ihk_pagealloc_init sizeof_desc mem_ok start (n * 2 ^ s) (2 ^ s) =
  if negb (mem_ok mem) then Ret None else
  m ← reserve_padding (Z.to_nat (64 * w - n)) n (replicate (Z.to_nat w) 0);
  Ret (Some (mk_desc start 0 w flag s m, mem)).
Proof.
  intros Hs Hn -> Hstart. set (w := (n + 63) / 64).
  assert (0 <= w < 2 ^ 23) as Hw by (split; [apply Z.div_pos|apply Z.div_lt_upper_bound]; lia).
  assert (0 < 2 ^ s) as Hp by (apply Z.pow_pos_nonneg; lia).
  assert (2 ^ s < 2 ^ 32) by (apply Z.pow_lt_mono_r; lia).
  unfold ihk_pagealloc_init. rewrite (proj2 (Z.eqb_neq _ 0)) by lia.
  rewrite fls_log2, Z.log2_pow2 by lia. replace (s + 1 - 1) with s by lia.
  unfold shr_ulong at 1. rewrite (proj2 (Z.leb_le 0 s)), (proj2 (Z.ltb_lt s 64)) by lia.
  cbn [andb mbind outcome_bind]. rewrite (Z.shiftr_div_pow2 (n * 2 ^ s) s), Z.div_mul by lia.
  rewrite (s32_small n), (s32_small (n + 63)) by lia.
  rewrite (Z.shiftr_div_pow2 _ 6), (Z.shiftl_mul_pow2 _ 3) by lia.
  change ((n + 63) / 2 ^ 6) with w. change (2 ^ 3) with 8. rewrite (s32_small (w * 8)) by lia.
  unfold PAGE_SIZE in *. rewrite (s32_small (sizeof_desc + w * 8)) by lia.
  rewrite (Z.shiftr_div_pow2 _ 3) by lia. change (2 ^ 3) with 8. rewrite Z.div_mul, (u32_small w) by lia.
  rewrite (s32_small (w * 8 * 8)), (u64_small (sizeof_desc + w * 8)) by lia.
  replace (w * 8 * 8 - n) with (64 * w - n) by lia.
  unfold desc_alloc, PAGE_SIZE. replace (8 * w) with (w * 8) by lia.
  destruct (Z.leb_spec 4096 (sizeof_desc + w * 8)); [|done].
  set (p := (sizeof_desc + w * 8 + 4096 - 1) / 4096).
  assert (1 <= p < 2 ^ 23) as Hpp by (split; [apply Z.div_le_lower_bound|apply Z.div_lt_upper_bound]; lia).
  rewrite u64_small, Z.shiftr_div_pow2 by (unfold PAGE_SHIFT; lia).
  change (2 ^ PAGE_SHIFT) with 4096. change ((sizeof_desc + w * 8 + 4096 - 1) / 4096) with p.
  rewrite s32_small by lia.
  destruct (order_log2_up p) as (v & -> & Ho); [lia|]. cbn [mbind outcome_bind]. rewrite Ho.
  assert (0 <= Z.log2_up p < 2 ^ 32) by (pose proof (Z.log2_up_nonneg p); pose proof (Z.log2_up_lt_lin p); lia).
  by rewrite u32_small by lia.
Qed.
End InitLemmas.

(** ** Properties *)

(** A request of 1 to 31 blocks always completes.  It
    either takes the blocks of a free run that lies inside one map word,
    marking exactly these blocks and returning the run's address, or returns
    0 with the descriptor unchanged, and then no map word holds a free run of
    that length. *)
Theorem alloc_small_correct d np :
  desc_wf d -> 1 <= np < 32 ->
  exists a d', ihk_pagealloc_alloc d np = Ret (a, d') /\
  ((a = 0 /\ d' = d /\ no_run d 0 np) \/
   exists b, took_run d b np d' /\ a = u64 (pa_start d + u32 (b * 2 ^ pa_shift d))).
Proof.
  intros W Hnp. rewrite alloc_small_unfold, (wf_last d W) by lia.
  apply alloc_loop_spec; auto; pose proof (wf_len d W); lia.
Qed.

(** A small area: one map word with blocks 0 and 1 used, one empty word. *)
Definition demo : ihk_page_allocator_desc := mk_desc 4096 0 2 0 12 [3; 0].

(** Well-formedness of a concrete descriptor. *)
Ltac wf_concrete :=
  split; cbn; [reflexivity | repeat (apply Forall_cons; split; [lia|]); apply Forall_nil; exact I | reflexivity | lia | lia].

Lemma demo_wf : desc_wf demo.
Proof. wf_concrete. Qed.

Lemma demo_fits : area_fits demo.
Proof. vm_compute. repeat split; discriminate. Qed.

Lemma alloc_small_correct_witness :
  exists a d', ihk_pagealloc_alloc demo 3 = Ret (a, d') /\
  ((a = 0 /\ d' = demo /\ no_run demo 0 3) \/
   exists b, took_run demo b 3 d' /\ a = u64 (4096 + u32 (b * 2 ^ 12))).
Proof. apply (alloc_small_correct demo 3 demo_wf). lia. Defined.

(** A request of 32 blocks or more always completes.
    It takes whole map words, [64 * ceil(np / 64)] blocks in all, that were
    entirely free and never include the last word of the map; it fails,
    leaving the descriptor unchanged, exactly when no such words exist. *)
Theorem alloc_large_correct d np :
  desc_wf d -> 32 <= np < 2 ^ 31 - 64 ->
  let nb := (np + 63) / 64 in
  exists a d', ihk_pagealloc_alloc d np = Ret (a, d') /\
  ((a = 0 /\ d' = d /\ forall k, 0 <= k -> k + nb < pa_count d -> ~ free_words d k nb) \/
   exists k, 0 <= k /\ k + nb < pa_count d /\ took_run d (64 * k) (64 * nb) d' /\
     a = u64 (pa_start d + u32 (64 * k * 2 ^ pa_shift d))).
Proof.
  intros W Hnp nb. destruct (alloc_large_unfold d np Hnp) as [-> Hb]. rewrite (wf_last d W).
  apply large_loop_spec; auto; pose proof (wf_len d W); lia.
Qed.

Lemma alloc_large_correct_witness :
  let d := mk_desc 4096 0 3 0 12 [1; 0; 0] in
  exists a d', ihk_pagealloc_alloc d 40 = Ret (a, d') /\
  ((a = 0 /\ d' = d /\ forall k, 0 <= k -> k + 1 < 3 -> ~ free_words d k 1) \/
   exists k, 0 <= k /\ k + 1 < 3 /\ took_run d (64 * k) (64 * 1) d' /\
     a = u64 (4096 + u32 (64 * k * 2 ^ 12))).
Proof.
  apply (alloc_large_correct (mk_desc 4096 0 3 0 12 [1; 0; 0]) 40).
  - wf_concrete.
  - lia.
Defined.

(** C10: of a well-formed allocator whose area has at most
    4 GiB, does not begin at address 0 and does not wrap around, whatever
    sequence of allocations and frees a client performs, the regions it holds
    are pairwise disjoint byte ranges inside the managed area, no request is
    undefined, and what it holds can be freed.  In a larger area two blocks
    get the same address (address_wraps). *)
Theorem pagealloc_client_safe d0 d L :
  desc_wf d0 -> area_fits d0 -> 0 < pa_start d0 -> rtc client_step (d0, []) (d, L) ->
  pairwise (regions_apart (pa_shift d)) L /\
  Forall (fun r => pa_start d <= r.1 /\
                   r.1 + r.2 * 2 ^ pa_shift d <= pa_start d + 64 * pa_count d * 2 ^ pa_shift d) L /\
  (forall np, 1 <= np < 2 ^ 31 - 64 -> exists r, ihk_pagealloc_alloc d np = Ret r) /\
  (forall r, r ∈ L -> exists d', ihk_pagealloc_free d r.1 r.2 = Ret d').
Proof.
  intros W Hf Hs Hsteps.
  assert (client_inv (d, L)) as HI.
  { eapply (rtc_ind_r client_inv (d0, [])); [refine (conj W (conj Hf (conj Hs (conj _ _)))); constructor| |exact Hsteps].
    intros y z _ Hstep HI. by eapply client_inv_step. }
  pose proof HI as (W' & Hf' & Hs' & HL & HP). simpl in *.
  split_and!; auto.
  - rewrite Forall_forall in HL |- *. intros r Hr. destruct (HL r Hr) as (H1 & b & -> & H2 & H3 & _).
    unfold block_addr. pose proof (wf_shift d W'). assert (0 < 2 ^ pa_shift d) by (apply Z.pow_pos_nonneg; lia).
    nia.
  - intros np Hnp. destruct (alloc_cases d np W' Hnp) as (a & d' & -> & _). eauto.
  - intros [a n] Hr. apply list_elem_of_split in Hr as (l1 & l2 & ->).
    destruct (client_inv_free _ _ _ _ _ HI) as (d' & Hd' & _). eauto.
Qed.

Lemma pagealloc_client_safe_witness :
  pairwise (regions_apart 12) [(28672, 3); (12288, 4)] /\
  Forall (fun r => 4096 <= r.1 /\ r.1 + r.2 * 2 ^ 12 <= 4096 + 64 * 2 * 2 ^ 12) [(28672, 3); (12288, 4)] /\
  (forall np, 1 <= np < 2 ^ 31 - 64 ->
     exists r, ihk_pagealloc_alloc (mk_desc 4096 0 2 0 12 [511; 0]) np = Ret r) /\
  (forall r, r ∈ [(28672, 3); (12288, 4)] ->
     exists d', ihk_pagealloc_free (mk_desc 4096 0 2 0 12 [511; 0]) r.1 r.2 = Ret d').
Proof.
  apply (pagealloc_client_safe demo (mk_desc 4096 0 2 0 12 [511; 0]) [(28672, 3); (12288, 4)]
           demo_wf demo_fits); [done|].
  eapply rtc_l; [eapply (client_alloc _ _ 4); [lia|vm_compute; reflexivity|lia]|].
  eapply rtc_l; [eapply (client_alloc _ _ 3); [lia|vm_compute; reflexivity|lia]|].
  apply rtc_refl.
Defined.

(** Freeing a region of 1 to 31 blocks right after it
    was allocated restores the descriptor. *)
Theorem alloc_free_roundtrip d np a d' :
  desc_wf d -> area_fits d -> 1 <= np < 32 ->
  ihk_pagealloc_alloc d np = Ret (a, d') -> a <> 0 ->
  ihk_pagealloc_free d' a np = Ret d.
Proof.
  intros W Hf Hnp Ha Ha0. destruct (alloc_cases d np W) as (a' & d'' & Ha' & Hres); [lia|].
  rewrite Ha in Ha'. injection Ha' as <- <-. destruct Hres as [[? _]|(b & Ht & Haddr)]; [done|].
  unfold rounded in Ht. rewrite (proj2 (Z.ltb_lt np 32)) in Ht by lia. pose proof Ht as (Hb & Hbn & Hfree & _).
  destruct (block_addr_inv d b W Hf) as [Hba _]; [lia|]. rewrite Hba in Haddr. subst a.
  destruct (free_taken d b np d' np W Hf Ht) as (m & -> & Wm & Hu); [lia|]. f_equal.
  assert (m = pa_map d) as ->; [|by destruct d].
  apply (used_ext d (set_map d m) W Wm eq_refl). intros x. rewrite Hu. unfold in_run.
  destruct (Z.leb_spec b x), (Z.ltb_spec x (b + np)); simpl; rewrite ?andb_true_r, ?orb_false_r, ?andb_false_r; auto.
  symmetry. apply Hfree. lia.
Qed.

Lemma alloc_free_roundtrip_witness :
  ihk_pagealloc_free (mk_desc 4096 0 2 0 12 [63; 0]) 12288 4 = Ret demo.
Proof.
  apply (alloc_free_roundtrip demo 4 12288 _ demo_wf demo_fits); [lia|reflexivity|lia].
Defined.

(** A region of 32 blocks or more whose size is not a
    multiple of 64 is not completely returned: the blocks that the allocation
    took beyond the requested number were free before and stay used after the
    matching free. *)
Theorem large_free_leak d np a d' :
  desc_wf d -> area_fits d -> 32 <= np < 2 ^ 31 - 64 -> np mod 64 <> 0 ->
  ihk_pagealloc_alloc d np = Ret (a, d') -> a <> 0 ->
  exists b d'', ihk_pagealloc_free d' a np = Ret d'' /\ a = block_addr d b /\
  b + np < b + rounded np /\
  forall x, b + np <= x < b + rounded np -> used d x = false /\ used d'' x = true.
Proof.
  intros W Hf Hnp Hmod Ha Ha0. destruct (alloc_cases d np W) as (a' & d1 & Ha' & Hres); [lia|].
  rewrite Ha in Ha'. injection Ha' as <- <-. destruct Hres as [[? _]|(b & Ht & Haddr)]; [done|].
  pose proof (rounded_ge np ltac:(lia)) as Hge.
  assert (np < rounded np).
  { assert (np <> rounded np); [|lia]. intros E. apply Hmod. rewrite E. unfold rounded.
    destruct (Z.ltb_spec np 32); [lia|]. rewrite Z.mul_comm. apply Z.mod_mul. lia. }
  pose proof Ht as (Hb & Hbn & Hfree & _).
  destruct (block_addr_inv d b W Hf) as [Hba _]; [lia|]. rewrite Hba in Haddr. subst a.
  destruct (free_taken d b (rounded np) d' np W Hf Ht) as (m & Hm & Wm & Hu); [lia|].
  exists b, (set_map d m). split_and!; auto; [lia|].
  intros x Hx. split; [apply Hfree; lia|]. rewrite Hu. unfold in_run.
  zcases; rewrite ?orb_true_r; done || lia.
Qed.

Lemma large_free_leak_witness :
  exists b d'', ihk_pagealloc_free (mk_desc 4096 0 3 0 12 [3; 2 ^ 64 - 1; 0]) 266240 40 = Ret d'' /\
  266240 = block_addr (mk_desc 4096 0 3 0 12 [3; 0; 0]) b /\ b + 40 < b + rounded 40 /\
  forall x, b + 40 <= x < b + rounded 40 ->
    used (mk_desc 4096 0 3 0 12 [3; 0; 0]) x = false /\ used d'' x = true.
Proof.
  apply (large_free_leak (mk_desc 4096 0 3 0 12 [3; 0; 0]) 40 266240).
  - wf_concrete.
  - vm_compute. repeat split; discriminate.
  - lia.
  - done.
  - reflexivity.
  - lia.
Defined.

(** The address of a block is computed on 32 bits: when the
    managed area is larger than 4 GiB, the block 4 GiB above the start of the
    area is given the same address as block 0. *)
Theorem address_wraps d :
  desc_wf d -> 6 <= 32 - pa_shift d -> 2 ^ (32 - pa_shift d) < 64 * pa_count d ->
  exists k, 0 < k < pa_count d /\ ADDRESS d k 0 = ADDRESS d 0 0.
Proof.
  intros W Hsh Hbig. pose proof (wf_shift d W). exists (2 ^ (26 - pa_shift d)).
  assert (2 ^ (32 - pa_shift d) = 64 * 2 ^ (26 - pa_shift d)) as Hp.
  { replace (32 - pa_shift d) with (6 + (26 - pa_shift d)) by lia. rewrite Z.pow_add_r by lia. lia. }
  assert (0 < 2 ^ (26 - pa_shift d)) by (apply Z.pow_pos_nonneg; lia).
  split; [lia|]. rewrite !ADDRESS_ret by (auto; lia). do 3 f_equal.
  rewrite Z.add_0_r, <- Hp, <- Z.pow_add_r by lia. replace (32 - pa_shift d + pa_shift d) with 32 by lia. done.
Qed.

Lemma address_wraps_witness :
  exists k, 0 < k < 20 /\
  ADDRESS (mk_desc 4096 0 20 0 22 (replicate 20 0)) k 0 =
  ADDRESS (mk_desc 4096 0 20 0 22 (replicate 20 0)) 0 0.
Proof.
  apply (address_wraps (mk_desc 4096 0 20 0 22 (replicate 20 0))).
  - wf_concrete.
  - simpl; lia.
  - simpl; lia.
Defined.

(** Ihk_pagealloc_init of an area of [n] blocks yields, when
    [n] is a multiple of 64, a well-formed descriptor in which exactly the
    [n] blocks of the area are free; when it is not, the loop that reserves
    the padding bits shifts an int by 32 or more, which C leaves undefined. *)
Theorem init_padding sizeof_desc start s n :
  0 <= sizeof_desc < PAGE_SIZE -> 0 <= s < 32 -> 0 <= n < 2 ^ 28 -> 0 <= start ->
  (n mod 64 = 0 -> exists d mem,
     ihk_pagealloc_init sizeof_desc (fun _ => true) start (n * 2 ^ s) (2 ^ s) = Ret (Some (d, mem)) /\
     desc_wf d /\ pa_start d = start /\ pa_shift d = s /\ 64 * pa_count d = n /\
     (forall x, 0 <= x < n -> used d x = false)) /\
  (n mod 64 <> 0 ->
     ihk_pagealloc_init sizeof_desc (fun _ => true) start (n * 2 ^ s) (2 ^ s) = Undef).
Proof.
  intros Hsz Hs Hn Hst.
  pose proof (init_unfold sizeof_desc (fun _ => true) Hsz start s n _ Hs Hn eq_refl Hst) as Hi.
  destruct (desc_alloc sizeof_desc ((n + 63) / 64)) as [mem flag]. simpl in Hi. rewrite Hi.
  pose proof (Z.div_mod n 64 ltac:(lia)) as Hdm. pose proof (Z.mod_pos_bound n 64 ltac:(lia)) as Hmb.
  split; intros Hm.
  - assert ((n + 63) / 64 = n / 64) as ->
      by (symmetry; apply (Z.div_unique (n + 63) 64 (n / 64) 63); lia).
    replace (64 * (n / 64) - n) with 0 by lia. cbn [Z.to_nat reserve_padding mbind outcome_bind].
    assert (0 <= n / 64 < 2 ^ 26) by lia.
    eexists _, _. split_and!; [done|by apply replicate_wf|done|done|simpl; lia|].
    intros x Hx. apply replicate_unused. lia.
  - assert ((n + 63) / 64 = n / 64 + 1) as ->
      by (symmetry; apply (Z.div_unique (n + 63) 64 (n / 64 + 1) (n mod 64 - 1)); lia).
    rewrite (reserve_padding_undef _ _ _ (64 * (n / 64) + 63)); [done|lia|lia|lia|].
    replace (64 * (n / 64) + 63) with (63 + n / 64 * 64) by lia. rewrite Z.mod_add by lia. done.
Qed.

Lemma init_padding_witness :
  (128 mod 64 = 0 -> exists d mem,
     ihk_pagealloc_init 56 (fun _ => true) 4096 (128 * 2 ^ 12) (2 ^ 12) = Ret (Some (d, mem)) /\
     desc_wf d /\ pa_start d = 4096 /\ pa_shift d = 12 /\ 64 * pa_count d = 128 /\
     (forall x, 0 <= x < 128 -> used d x = false)) /\
  (128 mod 64 <> 0 ->
     ihk_pagealloc_init 56 (fun _ => true) 4096 (128 * 2 ^ 12) (2 ^ 12) = Undef).
Proof. apply (init_padding 56 4096 12 128); unfold PAGE_SIZE; lia. Defined.

(** Ihk_pagealloc_destroy gives the descriptor back
    to the kernel allocator it came from, except when the descriptor fills
    exactly one page: it then came from __get_free_pages and goes to kfree. *)
Theorem init_destroy_memory sizeof_desc start s w d mem :
  0 <= sizeof_desc < PAGE_SIZE -> 0 <= s < 32 -> 0 <= w < 2 ^ 22 -> 0 <= start ->
  ihk_pagealloc_init sizeof_desc (fun _ => true) start (64 * w * 2 ^ s) (2 ^ s) = Ret (Some (d, mem)) ->
  match mem with
  | Kzalloc _ => ihk_pagealloc_destroy d = Kfree
  | GetFreePages order =>
      (ihk_pagealloc_destroy d = FreePages order <-> sizeof_desc + 8 * w <> PAGE_SIZE) /\
      (ihk_pagealloc_destroy d = Kfree <-> sizeof_desc + 8 * w = PAGE_SIZE)
  end.
Proof.
  intros Hsz Hs Hw Hst H. unfold PAGE_SIZE in *.
  pose proof (init_unfold sizeof_desc (fun _ => true) Hsz start s (64 * w) _ Hs ltac:(lia) eq_refl Hst) as Hi.
  assert ((64 * w + 63) / 64 = w) as Hww by (symmetry; apply (Z.div_unique _ 64 w 63); lia).
  rewrite Hww in Hi. unfold desc_alloc, PAGE_SIZE in Hi.
  destruct (Z.leb_spec 4096 (sizeof_desc + 8 * w)); rewrite H in Hi; simpl in Hi.
  all: destruct reserve_padding; [|discriminate]; injection Hi as -> ->.
  2: done.
  set (p := (sizeof_desc + 8 * w + 4096 - 1) / 4096).
  assert (p = 1 <-> sizeof_desc + 8 * w = 4096) as Hp1.
  { unfold p. split; intros Hp.
    - apply Z.le_antisymm; [|lia]. assert (sizeof_desc + 8 * w + 4096 - 1 < 4096 * 2); [|lia].
      pose proof (Z.div_mod (sizeof_desc + 8 * w + 4096 - 1) 4096 ltac:(lia)).
      pose proof (Z.mod_pos_bound (sizeof_desc + 8 * w + 4096 - 1) 4096 ltac:(lia)). lia.
    - rewrite Hp. done. }
  assert (1 <= p) by (apply Z.div_le_lower_bound; lia).
  unfold ihk_pagealloc_destroy; simpl. fold p. destruct (Z.eqb_spec (Z.log2_up p) 0) as [E|E].
  - apply Z.log2_up_null in E. split; split; try done; lia.
  - assert (p <> 1) by (intros ->; by apply E). split; split; try done; lia.
Qed.

Lemma init_destroy_memory_witness :
  (ihk_pagealloc_destroy (mk_desc 4096 0 505 0 12 (replicate 505 0)) = FreePages 0 <-> 56 + 8 * 505 <> 4096) /\
  (ihk_pagealloc_destroy (mk_desc 4096 0 505 0 12 (replicate 505 0)) = Kfree <-> 56 + 8 * 505 = 4096).
Proof.
  apply (init_destroy_memory 56 4096 12 505 (mk_desc 4096 0 505 0 12 (replicate 505 0)) (GetFreePages 0));
    [unfold PAGE_SIZE; lia|lia|lia|lia|vm_compute; reflexivity].
Defined.
