(* ===== verification/Queue.v ===== *)
(** * The IKC message queue (src/ikc/queue.c, src/ikc/include/ikc/queue.h)

    A queue is a head of 64 bytes followed by [pktcount] slots of [pktsize]
    bytes.  This file models the queue operations as functions on the queue's
    memory, run without interference of other CPUs, and proves that they
    implement a bounded FIFO.  QueueConc.v models the same operations step by
    step under interleaving. *)

From Stdlib Require Import ZArith Lia.
From stdpp Require Import base tactics numbers list.
From S2P Require Import Prelude.

(** struct ihk_ikc_queue_head, and the bytes that follow it. *)
Record ihk_ikc_queue_head : Type := mk_queue {
  q_id : Z;            (* uint32_t *)
  q_type : Z;          (* uint16_t *)
  q_pktsize : Z;       (* uint16_t *)
  q_pktcount : Z;      (* uint32_t *)
  q_flag : Z;          (* uint32_t *)
  q_read_off : Z;      (* uint64_t *)
  q_max_read_off : Z;  (* uint64_t *)
  q_write_off : Z;     (* uint64_t *)
  q_queue_size : Z;    (* uint64_t *)
  q_channel_id : Z;    (* uint32_t *)
  q_read_cpu : Z;      (* uint32_t *)
  q_write_cpu : Z;     (* uint32_t *)
  q_data : list Z      (* the slots, as bytes *)
}.

Definition sizeof_queue_head : Z := 64.
Definition IHK_IKC_WRITE_QUEUE_RETRY : nat := 128.

Definition set_read_off (q : ihk_ikc_queue_head) (v : Z) : ihk_ikc_queue_head :=
  mk_queue (q_id q) (q_type q) (q_pktsize q) (q_pktcount q) (q_flag q) v
    (q_max_read_off q) (q_write_off q) (q_queue_size q) (q_channel_id q)
    (q_read_cpu q) (q_write_cpu q) (q_data q).
Definition set_max_read_off (q : ihk_ikc_queue_head) (v : Z) : ihk_ikc_queue_head :=
  mk_queue (q_id q) (q_type q) (q_pktsize q) (q_pktcount q) (q_flag q) (q_read_off q)
    v (q_write_off q) (q_queue_size q) (q_channel_id q)
    (q_read_cpu q) (q_write_cpu q) (q_data q).
Definition set_write_off (q : ihk_ikc_queue_head) (v : Z) : ihk_ikc_queue_head :=
  mk_queue (q_id q) (q_type q) (q_pktsize q) (q_pktcount q) (q_flag q) (q_read_off q)
    (q_max_read_off q) v (q_queue_size q) (q_channel_id q)
    (q_read_cpu q) (q_write_cpu q) (q_data q).
Definition set_data (q : ihk_ikc_queue_head) (l : list Z) : ihk_ikc_queue_head :=
  mk_queue (q_id q) (q_type q) (q_pktsize q) (q_pktcount q) (q_flag q) (q_read_off q)
    (q_max_read_off q) (q_write_off q) (q_queue_size q) (q_channel_id q)
    (q_read_cpu q) (q_write_cpu q) l.
Definition set_channel_id (q : ihk_ikc_queue_head) (v : Z) : ihk_ikc_queue_head :=
  mk_queue (q_id q) (q_type q) (q_pktsize q) (q_pktcount q) (q_flag q) (q_read_off q)
    (q_max_read_off q) (q_write_off q) (q_queue_size q) v
    (q_read_cpu q) (q_write_cpu q) (q_data q).
Definition set_read_cpu (q : ihk_ikc_queue_head) (v : Z) : ihk_ikc_queue_head :=
  mk_queue (q_id q) (q_type q) (q_pktsize q) (q_pktcount q) (q_flag q) (q_read_off q)
    (q_max_read_off q) (q_write_off q) (q_queue_size q) (q_channel_id q)
    v (q_write_cpu q) (q_data q).
Definition set_write_cpu (q : ihk_ikc_queue_head) (v : Z) : ihk_ikc_queue_head :=
  mk_queue (q_id q) (q_type q) (q_pktsize q) (q_pktcount q) (q_flag q) (q_read_off q)
    (q_max_read_off q) (q_write_off q) (q_queue_size q) (q_channel_id q)
    (q_read_cpu q) v (q_data q).

(** ** Byte memory *)

Definition segment (l : list Z) (off n : Z) : list Z :=
  take (Z.to_nat n) (drop (Z.to_nat off) l).
Definition splice (l : list Z) (off : Z) (s : list Z) : list Z :=
  take (Z.to_nat off) l ++ s ++ drop (Z.to_nat off + length s) l.

(** One iteration of memcpyl: a long is copied between two buffers. *)
Definition copy_long (dst : list Z) (doff : Z) (src : list Z) (soff : Z) : outcome (list Z) :=
  if (0 <=? doff) && (doff + 8 <=? Z.of_nat (length dst)) &&
     (0 <=? soff) && (soff + 8 <=? Z.of_nat (length src))
  then Ret (splice dst doff (segment src soff 8))
  else Undef.

Fixpoint memcpyl_loop (n : nat) (dst : list Z) (doff : Z) (src : list Z) (soff : Z) :
  outcome (list Z) :=
  match n with
  | O => Ret dst
  | S n' =>
      dst' ← copy_long dst doff src soff;
      memcpyl_loop n' dst' (doff + 8) src (soff + 8)
  end.

(** memcpyl: [n / sizeof(unsigned long)] longs are copied. *)
Definition memcpyl (dst : list Z) (doff : Z) (src : list Z) (soff n : Z) : outcome (list Z) :=
  memcpyl_loop (Z.to_nat (n / 8)) dst doff src soff.

(** ** Operations *)

(** ihk_ikc_init_queue; the head pointer is [None] when null. *)
Definition ihk_ikc_init_queue (q : option ihk_ikc_queue_head) (id type size packetsize : Z) :
  outcome (Z * option ihk_ikc_queue_head) :=
  match q with
  | None => Ret (- EINVAL, None)
  | Some q =>
      if u64 packetsize =? 0 then Undef else
      let pktsize := u16 packetsize in
      let pktcount := u32 (u64 (size - sizeof_queue_head) / u64 packetsize) in
      Ret (0, Some (mk_queue (u32 id) (u16 type) pktsize pktcount 0 0 0 0
                      (u32 (pktsize * pktcount)) 0 0 0 (q_data q)))
  end.

Definition queue_is_empty_b (q : ihk_ikc_queue_head) : bool := q_read_off q =? q_max_read_off q.

(** ihk_ikc_queue_is_empty: an int, -EINVAL for the null pointer. *)
Definition ihk_ikc_queue_is_empty (q : option ihk_ikc_queue_head) : Z :=
  match q with
  | None => - EINVAL
  | Some q => Z.b2z (queue_is_empty_b q)
  end.

(** (w - r) == (q->pktcount - 1): the left side on 64 bits, the right on 32. *)
Definition full_test (q : ihk_ikc_queue_head) (r w : Z) : bool :=
  u64 (w - r) =? u32 (q_pktcount q - 1).

Definition ihk_ikc_queue_is_full (q : option ihk_ikc_queue_head) : Z :=
  match q with
  | None => - EINVAL
  | Some q => if full_test q (q_read_off q) (q_write_off q) then 1 else 0
  end.

(** Byte offset of slot number [i]: ((i % pktcount) * pktsize). *)
Definition slot_off (q : ihk_ikc_queue_head) (i : Z) : outcome Z :=
  if q_pktcount q =? 0 then Undef else Ret (u64 (i mod q_pktcount q * q_pktsize q)).

(** ihk_ikc_read_queue: the result code, the queue and the packet buffer. *)
Definition ihk_ikc_read_queue (q : option ihk_ikc_queue_head) (packet : option (list Z)) :
  outcome (Z * option ihk_ikc_queue_head * option (list Z)) :=
  match q, packet with
  | Some q, Some packet =>
      let r := q_read_off q in
      let m := q_max_read_off q in
      if r =? m then Ret (-1, Some q, Some packet) else
      let q := set_read_off q (u64 (r + 1)) in
      off ← slot_off q r;
      packet ← memcpyl packet 0 (q_data q) off (q_pktsize q);
      Ret (0, Some q, Some packet)
  | _, _ => Ret (- EINVAL, q, packet)
  end.

(** ihk_ikc_read_queue_handler: the handler [h] is called on the slot of the
    queue itself; its result is dropped. *)
Definition ihk_ikc_read_queue_handler {S} (q : ihk_ikc_queue_head)
  (h : S -> ihk_ikc_queue_head -> Z -> outcome (S * ihk_ikc_queue_head)) (s : S) :
  outcome (Z * S * ihk_ikc_queue_head) :=
  let r := q_read_off q in
  let m := q_max_read_off q in
  if r =? m then Ret (-1, s, q) else
  let q := set_read_off q (u64 (r + 1)) in
  off ← slot_off q r;
  '(s, q) ← h s q off;
  Ret (0, s, q).

(** The retry loop of ihk_ikc_write_queue: [tries] attempts are left when the
    queue is found full. *)
Fixpoint write_retry (tries : nat) (q : ihk_ikc_queue_head) (packet : list Z) :
  outcome (Z * ihk_ikc_queue_head) :=
  let r := q_read_off q in
  let w := q_write_off q in
  if full_test q r w then
    match tries with
    | O => Ret (- EBUSY, q)
    | S tries' => write_retry tries' q packet
    end
  else
    let q := set_write_off q (u64 (w + 1)) in
    off ← slot_off q w;
    data ← memcpyl (q_data q) off packet 0 (q_pktsize q);
    let q := set_data q data in
    (* while (cmpxchg(&q->max_read_off, w, w + 1) != w) {} *)
    if q_max_read_off q =? w then Ret (0, set_max_read_off q (u64 (w + 1))) else Undef.

Definition ihk_ikc_write_queue (q : option ihk_ikc_queue_head) (packet : option (list Z)) :
  outcome (Z * option ihk_ikc_queue_head) :=
  match q, packet with
  | Some q, Some packet =>
      '(r, q) ← write_retry IHK_IKC_WRITE_QUEUE_RETRY q packet;
      Ret (r, Some q)
  | _, _ => Ret (- EINVAL, q)
  end.

(** ** Specification: a bounded FIFO of packets *)

Definition nslots (q : ihk_ikc_queue_head) : nat := Z.to_nat (q_max_read_off q - q_read_off q).

(** The packet in slot number [i]. *)
Definition slot (q : ihk_ikc_queue_head) (i : Z) : list Z :=
  segment (q_data q) (i mod q_pktcount q * q_pktsize q) (q_pktsize q).

(** The packets in the queue, oldest first. *)
Definition contents (q : ihk_ikc_queue_head) : list (list Z) :=
  slot q <$> seqZ (q_read_off q) (q_max_read_off q - q_read_off q).

Definition capacity (q : ihk_ikc_queue_head) : Z := q_pktcount q - 1.

(** Geometry: sizes fixed at initialisation. *)
Record queue_geom (q : ihk_ikc_queue_head) : Prop := {
  g_count : 2 <= q_pktcount q < 2 ^ 32;
  g_size : 0 < q_pktsize q < 2 ^ 16;
  g_long : q_pktsize q mod 8 = 0;
  g_data : q_pktcount q * q_pktsize q <= Z.of_nat (length (q_data q))
}.

(** A queue at rest. *)
Record queue_wf (q : ihk_ikc_queue_head) : Prop := {
  qw_geom : queue_geom q;
  qw_order : 0 <= q_read_off q <= q_max_read_off q;
  qw_rest : q_max_read_off q = q_write_off q;
  qw_cap : q_write_off q - q_read_off q <= capacity q;
  qw_64 : q_write_off q < 2 ^ 64
}.

(** ** Lemmas: byte memory *)

Lemma length_segment l off n :
  0 <= off -> 0 <= n -> off + n <= Z.of_nat (length l) -> length (segment l off n) = Z.to_nat n.
Proof. intros. unfold segment. rewrite length_take, length_drop. lia. Qed.

Lemma length_splice l off s :
  0 <= off -> off + Z.of_nat (length s) <= Z.of_nat (length l) -> length (splice l off s) = length l.
Proof. intros. unfold splice. rewrite !length_app, length_take, length_drop. lia. Qed.

Lemma splice_lookup l off s i :
  0 <= off -> off + Z.of_nat (length s) <= Z.of_nat (length l) ->
  splice l off s !! i =
  if decide (Z.to_nat off <= i < Z.to_nat off + length s)%nat then s !! (i - Z.to_nat off)%nat else l !! i.
Proof.
  intros Ho Hl. unfold splice. case_decide as Hd.
  - rewrite lookup_app_r by (rewrite length_take; lia). rewrite length_take.
    rewrite lookup_app_l by lia. f_equal. lia.
  - destruct (decide (i < Z.to_nat off)%nat).
    + rewrite lookup_app_l by (rewrite length_take; lia). apply lookup_take_lt. lia.
    + rewrite lookup_app_r by (rewrite length_take; lia). rewrite length_take.
      rewrite lookup_app_r by lia. rewrite lookup_drop. f_equal. lia.
Qed.

Lemma segment_lookup l off n i :
  0 <= off -> segment l off n !! i =
  if decide (i < Z.to_nat n)%nat then l !! (Z.to_nat off + i)%nat else None.
Proof.
  intros Ho. unfold segment. case_decide.
  - rewrite lookup_take_lt, lookup_drop by lia. done.
  - apply lookup_take_ge. lia.
Qed.

Lemma segment_splice_same l off s :
  0 <= off -> off + Z.of_nat (length s) <= Z.of_nat (length l) ->
  segment (splice l off s) off (Z.of_nat (length s)) = s.
Proof.
  intros. apply list_eq. intros i. rewrite segment_lookup, splice_lookup by lia.
  repeat case_decide; try lia; [f_equal; lia|]. symmetry. apply lookup_ge_None. lia.
Qed.

Lemma segment_splice_apart l off s off' n :
  0 <= off -> off + Z.of_nat (length s) <= Z.of_nat (length l) -> 0 <= off' ->
  off' + n <= off \/ off + Z.of_nat (length s) <= off' ->
  segment (splice l off s) off' n = segment l off' n.
Proof.
  intros. apply list_eq. intros i. rewrite !segment_lookup by lia. case_decide; [|done].
  rewrite splice_lookup by lia. case_decide; [lia|done].
Qed.

Lemma segment_app l off a b :
  0 <= off -> 0 <= a -> 0 <= b -> off + a + b <= Z.of_nat (length l) ->
  segment l off (a + b) = segment l off a ++ segment l (off + a) b.
Proof.
  intros. apply list_eq. intros i. rewrite segment_lookup by lia.
  destruct (decide (i < Z.to_nat a)%nat).
  - rewrite lookup_app_l by (rewrite length_segment; lia). rewrite segment_lookup by lia.
    by rewrite !decide_True by lia.
  - rewrite lookup_app_r by (rewrite length_segment; lia). rewrite segment_lookup, length_segment by lia.
    repeat case_decide; try lia; [f_equal; lia|done].
Qed.

Lemma splice_adjacent l off s1 s2 :
  0 <= off -> off + Z.of_nat (length s1) + Z.of_nat (length s2) <= Z.of_nat (length l) ->
  splice (splice l off s1) (off + Z.of_nat (length s1)) s2 = splice l off (s1 ++ s2).
Proof.
  intros. assert (length (splice l off s1) = length l) by (apply length_splice; lia).
  apply list_eq. intros i. rewrite !splice_lookup by (rewrite ?length_app; lia). rewrite length_app.
  repeat case_decide; try lia.
  - rewrite lookup_app_r by lia. f_equal. lia.
  - rewrite lookup_app_l by lia. done.
  - done.
Qed.

Lemma splice_nil l off : splice l off [] = l.
Proof. unfold splice. simpl. rewrite Nat.add_0_r. apply take_drop. Qed.

Lemma segment_full l n : n = Z.of_nat (length l) -> segment l 0 n = l.
Proof. intros ->. unfold segment. rewrite Nat2Z.id. by rewrite drop_0, firstn_all. Qed.

Lemma memcpyl_loop_spec n dst doff src soff :
  0 <= doff -> 0 <= soff -> doff + 8 * Z.of_nat n <= Z.of_nat (length dst) ->
  soff + 8 * Z.of_nat n <= Z.of_nat (length src) ->
  memcpyl_loop n dst doff src soff = Ret (splice dst doff (segment src soff (8 * Z.of_nat n))).
Proof.
  revert dst doff soff. induction n as [|n IH]; intros dst doff soff Hd Hs Hdl Hsl; cbn [memcpyl_loop].
  { replace (8 * Z.of_nat 0) with 0 by lia. unfold segment. simpl. by rewrite splice_nil. }
  unfold copy_long. rewrite !(proj2 (Z.leb_le _ _)) by lia. cbn [andb mbind outcome_bind].
  assert (length (segment src soff 8) = 8%nat) as Hl8 by (rewrite length_segment; lia).
  assert (length (splice dst doff (segment src soff 8)) = length dst) by (apply length_splice; lia).
  rewrite IH by lia. f_equal.
  replace (doff + 8) with (doff + Z.of_nat (length (segment src soff 8))) by lia.
  rewrite splice_adjacent by (rewrite ?length_segment; lia). f_equal.
  rewrite <- segment_app by lia. f_equal. lia.
Qed.

(** memcpyl transfers the whole packet exactly when its size is a multiple of
    a long; otherwise the last [n mod 8] bytes are left out. *)
Lemma memcpyl_spec dst doff src soff n :
  0 <= doff -> 0 <= soff -> 0 <= n -> doff + 8 * (n / 8) <= Z.of_nat (length dst) ->
  soff + 8 * (n / 8) <= Z.of_nat (length src) ->
  memcpyl dst doff src soff n = Ret (splice dst doff (segment src soff (8 * (n / 8)))).
Proof.
  intros. assert (0 <= n / 8) by (apply Z.div_pos; lia).
  unfold memcpyl. rewrite memcpyl_loop_spec by lia. by rewrite Z2Nat.id by lia.
Qed.

(** ** Lemmas: slots *)

Lemma slot_range q i : queue_geom q ->
  0 <= i mod q_pktcount q * q_pktsize q /\
  i mod q_pktcount q * q_pktsize q + q_pktsize q <= q_pktcount q * q_pktsize q.
Proof.
  intros G. destruct G. pose proof (Z.mod_pos_bound i (q_pktcount q) ltac:(lia)). nia.
Qed.

Lemma slot_off_ret q i : queue_geom q -> slot_off q i = Ret (i mod q_pktcount q * q_pktsize q).
Proof.
  intros G. pose proof (slot_range q i G). destruct G. unfold slot_off. zcases; [lia|].
  rewrite u64_small; [done|]. nia.
Qed.

(** Different numbers less than [pktcount] apart have different slots. *)
Lemma mod_neq a b n : 0 < n -> a < b < a + n -> a mod n <> b mod n.
Proof.
  intros Hn Hab E. pose proof (Z.div_mod a n ltac:(lia)). pose proof (Z.div_mod b n ltac:(lia)).
  destruct (Z.le_gt_cases (b / n) (a / n)); [assert (n * (b / n) <= n * (a / n)) by nia; lia|].
  assert (n * (a / n + 1) <= n * (b / n)) by nia. lia.
Qed.

Lemma slots_apart q i j : queue_geom q -> i mod q_pktcount q <> j mod q_pktcount q ->
  i mod q_pktcount q * q_pktsize q + q_pktsize q <= j mod q_pktcount q * q_pktsize q \/
  j mod q_pktcount q * q_pktsize q + q_pktsize q <= i mod q_pktcount q * q_pktsize q.
Proof. intros G Hne. destruct G. nia. Qed.

(** Writing a whole packet into slot [w] leaves the other slots alone. *)
Lemma slot_write_same q w p d :
  queue_geom q -> Z.of_nat (length p) = q_pktsize q ->
  d = splice (q_data q) (w mod q_pktcount q * q_pktsize q) p -> slot (set_data q d) w = p.
Proof.
  intros G Hp ->. pose proof (slot_range q w G). destruct G. unfold slot. simpl.
  set (off := w mod q_pktcount q * q_pktsize q) in *. rewrite <- Hp. apply segment_splice_same; lia.
Qed.

Lemma slot_write_other q w i p d :
  queue_geom q -> Z.of_nat (length p) <= q_pktsize q ->
  i mod q_pktcount q <> w mod q_pktcount q ->
  d = splice (q_data q) (w mod q_pktcount q * q_pktsize q) p -> slot (set_data q d) i = slot q i.
Proof.
  intros G Hp Hne ->. pose proof (slot_range q w G). pose proof (slot_range q i G).
  pose proof (slots_apart q i w G Hne). destruct G. unfold slot. simpl.
  apply segment_splice_apart; lia.
Qed.

Lemma geom_long q : queue_geom q -> 8 * (q_pktsize q / 8) = q_pktsize q.
Proof. intros []. pose proof (Z.div_mod (q_pktsize q) 8 ltac:(lia)). lia. Qed.

Lemma full_test_spec q : queue_wf q ->
  full_test q (q_read_off q) (q_write_off q) = true <-> Z.of_nat (length (contents q)) = capacity q.
Proof.
  intros W. pose proof (qw_order q W). pose proof (qw_rest q W). pose proof (qw_cap q W).
  pose proof (qw_64 q W). destruct (g_count q (qw_geom q W)).
  unfold full_test, contents, capacity in *. rewrite length_fmap, length_seqZ.
  rewrite Z.eqb_eq, u64_small, u32_small by lia. lia.
Qed.

Lemma contents_snoc q q' p :
  q_read_off q' = q_read_off q -> q_max_read_off q' = q_max_read_off q + 1 ->
  q_read_off q <= q_max_read_off q ->
  (forall i, q_read_off q <= i < q_max_read_off q -> slot q' i = slot q i) ->
  slot q' (q_max_read_off q) = p -> contents q' = contents q ++ [p].
Proof.
  intros Hr Hm Hle Hsame Hnew. unfold contents. rewrite Hr, Hm.
  replace (q_max_read_off q + 1 - q_read_off q) with (q_max_read_off q - q_read_off q + 1) by lia.
  rewrite seqZ_app, fmap_app by lia. f_equal.
  - apply list_fmap_ext. intros _ i Hi%list_elem_of_lookup_2. apply elem_of_seqZ in Hi. apply Hsame. lia.
  - replace (q_read_off q + (q_max_read_off q - q_read_off q)) with (q_max_read_off q) by lia.
    rewrite (seqZ_cons _ 1) by lia. simpl. by rewrite Hnew.
Qed.

(** ** Lemmas: the operations at rest *)

Lemma contents_cons q : q_read_off q < q_max_read_off q ->
  contents q = slot q (q_read_off q) :: contents (set_read_off q (q_read_off q + 1)).
Proof.
  intros H. unfold contents. simpl. rewrite (seqZ_cons (q_read_off q)) by lia. simpl. f_equal.
  replace (q_max_read_off q - (q_read_off q + 1)) with (Z.pred (q_max_read_off q - q_read_off q)) by lia.
  replace (q_read_off q + 1) with (Z.succ (q_read_off q)) by lia. done.
Qed.

Lemma contents_nil q : q_max_read_off q <= q_read_off q -> contents q = [].
Proof. intros H. unfold contents. rewrite seqZ_nil by lia. done. Qed.

Lemma geom_transfer q q' :
  queue_geom q -> q_pktcount q' = q_pktcount q -> q_pktsize q' = q_pktsize q ->
  length (q_data q') = length (q_data q) -> queue_geom q'.
Proof. intros [] Hc Hs Hl. split; rewrite ?Hc, ?Hs, ?Hl; auto. Qed.

(** The slot write of ihk_ikc_write_queue, for slot number [w]. *)
Definition stored (q : ihk_ikc_queue_head) (w : Z) (p : list Z) : list Z :=
  splice (q_data q) (w mod q_pktcount q * q_pktsize q) (segment p 0 (q_pktsize q)).

Lemma stored_length q w p : queue_geom q -> q_pktsize q <= Z.of_nat (length p) ->
  length (stored q w p) = length (q_data q).
Proof.
  intros G Hp. pose proof (slot_range q w G). destruct G.
  apply length_splice; [lia|]. rewrite length_segment by lia. lia.
Qed.

Lemma store_slot q w p :
  queue_geom q -> q_pktsize q <= Z.of_nat (length p) ->
  memcpyl (q_data q) (w mod q_pktcount q * q_pktsize q) p 0 (q_pktsize q) = Ret (stored q w p).
Proof.
  intros G Hp. pose proof (slot_range q w G). pose proof (geom_long q G) as Hl. destruct G.
  rewrite memcpyl_spec by lia. rewrite Hl. done.
Qed.

Lemma fetch_slot q r buf :
  queue_geom q -> q_pktsize q <= Z.of_nat (length buf) ->
  memcpyl buf 0 (q_data q) (r mod q_pktcount q * q_pktsize q) (q_pktsize q) =
  Ret (slot q r ++ drop (Z.to_nat (q_pktsize q)) buf).
Proof.
  intros G Hb. pose proof (slot_range q r G). pose proof (geom_long q G) as Hl. destruct G.
  rewrite memcpyl_spec by lia. rewrite Hl. f_equal. unfold slot, splice.
  rewrite length_segment by lia. simpl. done.
Qed.

Lemma write_full q packet n : full_test q (q_read_off q) (q_write_off q) = true ->
  write_retry n q packet = Ret (- EBUSY, q).
Proof. intros H. induction n; simpl; rewrite H; auto. Qed.

Lemma write_room q packet :
  queue_wf q -> q_write_off q + 1 < 2 ^ 64 -> q_pktsize q <= Z.of_nat (length packet) ->
  full_test q (q_read_off q) (q_write_off q) = false ->
  exists q', ihk_ikc_write_queue (Some q) (Some packet) = Ret (0, Some q') /\ queue_wf q' /\
  q_write_off q' = q_write_off q + 1 /\ q_pktcount q' = q_pktcount q /\ q_pktsize q' = q_pktsize q /\
  contents q' = contents q ++ [segment packet 0 (q_pktsize q)].
Proof.
  intros W H64 Hp Hfull. pose proof (full_test_spec q W) as Hft.
  destruct W as [G Ho Hrest Hcap _]. pose proof (g_count q G).
  assert (Z.of_nat (length (contents q)) = q_write_off q - q_read_off q) as Hlen
    by (unfold contents; rewrite length_fmap, length_seqZ; lia).
  assert (q_write_off q - q_read_off q < capacity q) as Hroom
    by (rewrite Hfull, Hlen in Hft; destruct Hft as [_ Hft]; destruct (Z.eq_dec (q_write_off q - q_read_off q) (capacity q)); [by apply Hft in e|lia]).
  set (w := q_write_off q) in *.
  set (q1 := set_write_off q (w + 1)).
  set (q' := set_max_read_off (set_data q1 (stored q w packet)) (w + 1)).
  assert (write_retry 128 q packet = Ret (0, q')) as Hw.
  { cbn [write_retry]. fold w. rewrite Hfull. rewrite u64_small by lia. fold q1.
    rewrite (slot_off_ret q1) by (apply (geom_transfer q); auto). cbn [mbind outcome_bind].
    change (q_pktcount q1) with (q_pktcount q). change (q_pktsize q1) with (q_pktsize q).
    change (q_data q1) with (q_data q). rewrite (store_slot q w packet G Hp). cbn [mbind outcome_bind].
    change (q_max_read_off (set_data q1 (stored q w packet))) with (q_max_read_off q).
    rewrite Hrest, Z.eqb_refl. done. }
  exists q'. assert (queue_geom q') as G' by (apply (geom_transfer q); auto; simpl; by apply stored_length).
  split_and!; try done.
  - unfold ihk_ikc_write_queue, IHK_IKC_WRITE_QUEUE_RETRY. rewrite Hw. done.
  - split; auto; simpl; unfold capacity in *; simpl; lia.
  - apply contents_snoc; auto; simpl; [lia|lia| |].
    + intros i Hi. apply (slot_write_other q w i (segment packet 0 (q_pktsize q))); auto.
      * rewrite length_segment; pose proof (g_size q G); lia.
      * unfold capacity in *. apply mod_neq; lia.
    + rewrite Hrest. apply (slot_write_same q w (segment packet 0 (q_pktsize q))); auto.
      rewrite length_segment; pose proof (g_size q G); lia.
Qed.

Lemma read_some q buf :
  queue_wf q -> q_pktsize q <= Z.of_nat (length buf) -> q_read_off q < q_max_read_off q ->
  exists q', ihk_ikc_read_queue (Some q) (Some buf) =
    Ret (0, Some q', Some (slot q (q_read_off q) ++ drop (Z.to_nat (q_pktsize q)) buf)) /\
  queue_wf q' /\ q_write_off q' = q_write_off q /\ q_pktcount q' = q_pktcount q /\
  q_pktsize q' = q_pktsize q /\ contents q = slot q (q_read_off q) :: contents q'.
Proof.
  intros W Hb Hr. destruct W as [G Ho Hrest Hcap H64].
  set (q' := set_read_off q (q_read_off q + 1)).
  assert (queue_geom q') as G' by (apply (geom_transfer q); auto).
  exists q'. split_and!; try done.
  - unfold ihk_ikc_read_queue. rewrite (proj2 (Z.eqb_neq _ _)) by lia.
    rewrite u64_small by lia. fold q'. rewrite slot_off_ret by done. cbn [mbind outcome_bind].
    change (q_pktcount q') with (q_pktcount q). change (q_pktsize q') with (q_pktsize q).
    change (q_data q') with (q_data q). by rewrite (fetch_slot q (q_read_off q) buf G Hb).
  - split; auto; simpl; unfold capacity in *; simpl; lia.
  - by apply contents_cons.
Qed.

(** ** Runs: sequences of operations on one queue *)

Inductive qop : Type :=
| OpWrite (p : list Z)
| OpRead.

(** What a caller observes: the return code and, for a read that succeeds,
    the packet. *)
Definition qres : Type := (Z * option (list Z))%type.

Definition do_op (q : ihk_ikc_queue_head) (o : qop) : outcome (qres * ihk_ikc_queue_head) :=
  match o with
  | OpWrite p =>
      '(r, q') ← ihk_ikc_write_queue (Some q) (Some p);
      match q' with Some q' => Ret ((r, None), q') | None => Undef end
  | OpRead =>
      '(r, q', p) ← ihk_ikc_read_queue (Some q) (Some (replicate (Z.to_nat (q_pktsize q)) 0));
      match q' with
      | Some q' => Ret ((r, if r =? 0 then p else None), q')
      | None => Undef
      end
  end.

Fixpoint run_queue (q : ihk_ikc_queue_head) (l : list qop) : outcome (list qres) :=
  match l with
  | [] => Ret []
  | o :: l' =>
      '(r, q') ← do_op q o;
      rs ← run_queue q' l';
      Ret (r :: rs)
  end.

(** The abstract queue: a list of at most [cap] packets. *)
Definition fifo_op (cap : Z) (f : list (list Z)) (o : qop) : qres * list (list Z) :=
  match o with
  | OpWrite p => if Z.of_nat (length f) =? cap then ((- EBUSY, None), f) else ((0, None), f ++ [p])
  | OpRead => match f with [] => ((-1, None), []) | p :: f' => ((0, Some p), f') end
  end.

Fixpoint run_fifo (cap : Z) (f : list (list Z)) (l : list qop) : list qres :=
  match l with
  | [] => []
  | o :: l' => let '(r, f') := fifo_op cap f o in r :: run_fifo cap f' l'
  end.

Definition op_ok (size : Z) (o : qop) : Prop :=
  match o with OpWrite p => Z.of_nat (length p) = size | OpRead => True end.

Lemma do_op_refines q o :
  queue_wf q -> q_write_off q + 1 < 2 ^ 64 -> op_ok (q_pktsize q) o ->
  exists q', do_op q o = Ret ((fifo_op (capacity q) (contents q) o).1, q') /\
  contents q' = (fifo_op (capacity q) (contents q) o).2 /\
  queue_wf q' /\ q_write_off q' <= q_write_off q + 1 /\ capacity q' = capacity q /\ q_pktsize q' = q_pktsize q.
Proof.
  intros W H64 Hok. pose proof (full_test_spec q W) as Hft. destruct o as [p|]; cbn [do_op fifo_op op_ok] in *.
  - destruct (full_test q (q_read_off q) (q_write_off q)) eqn:E.
    + rewrite (proj2 (Z.eqb_eq _ _)) by tauto. exists q.
      unfold ihk_ikc_write_queue. rewrite write_full by done. cbn. split_and!; auto. lia.
    + rewrite (proj2 (Z.eqb_neq _ _)) by (intros X; apply Hft in X; done).
      destruct (write_room q p W H64) as (q' & -> & W' & Hw & Hc & Hs & Hcont); [lia|done|].
      exists q'. simpl. rewrite segment_full in Hcont by lia. unfold capacity. split_and!; auto; lia.
  - pose proof (qw_order q W). pose proof (g_size q (qw_geom q W)).
    destruct (Z.eq_dec (q_read_off q) (q_max_read_off q)) as [He|Hne].
    + exists q. rewrite (contents_nil q) by lia. simpl. unfold ihk_ikc_read_queue.
      rewrite (proj2 (Z.eqb_eq _ _)) by done. simpl. split_and!; auto; try lia; by rewrite contents_nil by lia.
    + destruct (read_some q (replicate (Z.to_nat (q_pktsize q)) 0) W) as (q' & -> & W' & Hw & Hc & Hs & Hcont);
        [rewrite length_replicate; lia|lia|].
      exists q'. rewrite Hcont. simpl. rewrite drop_ge, app_nil_r by (rewrite length_replicate; lia).
      unfold capacity. split_and!; auto; lia.
Qed.

Lemma init_queue_ok q id type size packetsize :
  0 < packetsize < 2 ^ 16 -> packetsize mod 8 = 0 ->
  sizeof_queue_head + 2 * packetsize <= size < 2 ^ 31 ->
  size - sizeof_queue_head <= Z.of_nat (length (q_data q)) ->
  exists q', ihk_ikc_init_queue (Some q) id type size packetsize = Ret (0, Some q') /\
  queue_wf q' /\ contents q' = [] /\ q_pktsize q' = packetsize /\
  capacity q' = (size - sizeof_queue_head) / packetsize - 1 /\
  sizeof_queue_head + q_queue_size q' <= size /\ q_data q' = q_data q.
Proof.
  intros Hp H8 Hsz Hd. unfold sizeof_queue_head in *.
  unfold ihk_ikc_init_queue. rewrite (u64_small packetsize), (u16_small packetsize) by lia.
  rewrite (proj2 (Z.eqb_neq _ _)) by lia. unfold sizeof_queue_head. rewrite u64_small by lia.
  set (n := (size - 64) / packetsize).
  assert (2 <= n) by (apply Z.div_le_lower_bound; lia).
  assert (packetsize * n <= size - 64) by (apply Z.mul_div_le; lia).
  assert (n < 2 ^ 31) by nia.
  rewrite (u32_small n), (u32_small (packetsize * n)) by lia.
  eexists; split; [done|]. split_and!; try done; try (simpl; lia).
  repeat split; simpl; unfold capacity; simpl; lia.
Qed.

(** ** Properties *)

(** C9: any sequence of writes and reads on a queue at rest
    returns, operation by operation, the codes and packets of a FIFO that
    holds at most [pktcount - 1] packets: a write into a full queue fails with
    -EBUSY, a read from an empty one with -1, and packets come out whole, in
    the order they were written. *)
Theorem queue_refines_fifo q l :
  queue_wf q -> Forall (op_ok (q_pktsize q)) l -> q_write_off q + Z.of_nat (length l) < 2 ^ 64 ->
  run_queue q l = Ret (run_fifo (capacity q) (contents q) l).
Proof.
  revert q. induction l as [|o l IH]; intros q W Hok H64; [done|].
  rewrite Forall_cons in Hok. destruct Hok as [Ho Hl]. cbn [length] in H64.
  destruct (do_op_refines q o W) as (q' & Hd & Hc & W' & Hw & Hcap & Hs); [lia|done|].
  cbn [run_queue run_fifo]. rewrite Hd. cbn [mbind outcome_bind].
  rewrite IH; auto; [|by rewrite Hs|lia]. rewrite Hcap, Hc.
  destruct (fifo_op (capacity q) (contents q) o). done.
Qed.

(** A queue of three slots of eight bytes, just initialised. *)
Definition demo_queue : ihk_ikc_queue_head :=
  mk_queue 1 0 8 3 0 0 0 0 24 0 0 0 (replicate 24 0).

Lemma demo_queue_wf : queue_wf demo_queue.
Proof. repeat split; vm_compute; intros; discriminate. Qed.

Lemma queue_refines_fifo_witness :
  run_queue demo_queue [OpWrite [1;2;3;4;5;6;7;8]; OpRead; OpRead] =
  Ret [(0, None); (0, Some [1;2;3;4;5;6;7;8]); (-1, None)].
Proof.
  apply (queue_refines_fifo demo_queue [OpWrite [1;2;3;4;5;6;7;8]; OpRead; OpRead] demo_queue_wf).
  - repeat constructor.
  - vm_compute. reflexivity.
Defined.

(** Ihk_ikc_init_queue lays out an empty queue whose
    slots, head included, fit in the given size, with room for as many
    packets as fit less one. *)
Theorem init_queue_correct q id type size packetsize :
  0 < packetsize < 2 ^ 16 -> packetsize mod 8 = 0 ->
  sizeof_queue_head + 2 * packetsize <= size < 2 ^ 31 ->
  size - sizeof_queue_head <= Z.of_nat (length (q_data q)) ->
  exists q', ihk_ikc_init_queue (Some q) id type size packetsize = Ret (0, Some q') /\
  queue_wf q' /\ contents q' = [] /\ q_pktsize q' = packetsize /\
  capacity q' = (size - sizeof_queue_head) / packetsize - 1 /\
  sizeof_queue_head + q_queue_size q' <= size /\ q_data q' = q_data q.
Proof. apply init_queue_ok. Qed.

Lemma init_queue_correct_witness :
  exists q', ihk_ikc_init_queue (Some (set_data demo_queue (replicate 448 7))) 1 2 512 56 = Ret (0, Some q') /\
  queue_wf q' /\ contents q' = [] /\ q_pktsize q' = 56 /\
  capacity q' = (512 - 64) / 56 - 1 /\ 64 + q_queue_size q' <= 512 /\ q_data q' = replicate 448 7.
Proof. apply (init_queue_correct (set_data demo_queue (replicate 448 7)) 1 2 512 56); vm_compute; intuition congruence. Defined.

(** On a queue at rest ihk_ikc_queue_is_empty and
    ihk_ikc_queue_is_full answer whether the FIFO is empty and whether it
    holds [pktcount - 1] packets. *)
Theorem empty_full_tests q :
  queue_wf q ->
  (ihk_ikc_queue_is_empty (Some q) = 1 <-> contents q = []) /\
  (ihk_ikc_queue_is_empty (Some q) = 0 <-> contents q <> []) /\
  (ihk_ikc_queue_is_full (Some q) = 1 <-> Z.of_nat (length (contents q)) = capacity q) /\
  (ihk_ikc_queue_is_full (Some q) = 0 <-> Z.of_nat (length (contents q)) < capacity q).
Proof.
  intros W. pose proof (full_test_spec q W) as Hft. pose proof (qw_order q W). pose proof (qw_rest q W).
  pose proof (qw_cap q W).
  assert (Z.of_nat (length (contents q)) = q_write_off q - q_read_off q) as Hlen
    by (unfold contents; rewrite length_fmap, length_seqZ; lia).
  assert (contents q = [] <-> q_read_off q = q_max_read_off q) as Hnil.
  { split; [intros E; rewrite E in Hlen; simpl in Hlen; lia|intros; apply contents_nil; lia]. }
  unfold ihk_ikc_queue_is_empty, ihk_ikc_queue_is_full, queue_is_empty_b.
  destruct (Z.eqb_spec (q_read_off q) (q_max_read_off q)); simpl;
    destruct (full_test q (q_read_off q) (q_write_off q)) eqn:E.
  all: split_and!; split; intros; try done; try tauto; try lia.
  all: assert (Z.of_nat (length (contents q)) <> capacity q) by (intros X; apply Hft in X; done); lia.
Qed.

Lemma empty_full_tests_witness :
  (ihk_ikc_queue_is_empty (Some demo_queue) = 1 <-> contents demo_queue = []) /\
  (ihk_ikc_queue_is_empty (Some demo_queue) = 0 <-> contents demo_queue <> []) /\
  (ihk_ikc_queue_is_full (Some demo_queue) = 1 <-> Z.of_nat (length (contents demo_queue)) = capacity demo_queue) /\
  (ihk_ikc_queue_is_full (Some demo_queue) = 0 <-> Z.of_nat (length (contents demo_queue)) < capacity demo_queue).
Proof. apply (empty_full_tests demo_queue demo_queue_wf). Defined.

(** A packet whose size is not a multiple of eight is
    transferred without its last [size mod 8] bytes: a read leaves these
    bytes of the destination buffer unchanged. *)
Theorem memcpyl_truncates dst src soff n :
  0 <= soff -> 0 <= n -> n <= Z.of_nat (length dst) -> soff + n <= Z.of_nat (length src) ->
  exists dst', memcpyl dst 0 src soff n = Ret dst' /\
  segment dst' 0 (n - n mod 8) = segment src soff (n - n mod 8) /\
  segment dst' (n - n mod 8) (n mod 8) = segment dst (n - n mod 8) (n mod 8).
Proof.
  intros. pose proof (Z.mod_pos_bound n 8 ltac:(lia)). pose proof (Z.div_mod n 8 ltac:(lia)).
  assert (n - n mod 8 = 8 * (n / 8)) as -> by lia.
  rewrite memcpyl_spec by lia. eexists; split; [done|].
  assert (Z.of_nat (length (segment src soff (8 * (n / 8)))) = 8 * (n / 8)) as Hl
    by (rewrite length_segment; lia).
  split.
  - rewrite <- Hl at 2. apply segment_splice_same; lia.
  - apply segment_splice_apart; lia.
Qed.

Lemma memcpyl_truncates_witness :
  exists dst', memcpyl (replicate 12 0) 0 (replicate 12 9) 0 12 = Ret dst' /\
  segment dst' 0 8 = segment (replicate 12 9) 0 8 /\ segment dst' 8 4 = segment (replicate 12 0) 8 4.
Proof. apply (memcpyl_truncates (replicate 12 0) (replicate 12 9) 0 12); vm_compute; discriminate. Defined.
