(* ===== verification/QueueConc.v ===== *)
(** * The IKC queue under interleaving (src/ikc/queue.c)

    ihk_ikc_write_queue and ihk_ikc_read_queue as small-step programs: one
    step is one access to the shared head (a load or a cmpxchg) or the copy
    of one long.  Memory is sequentially consistent.  The file shows that one
    writer and one reader that run concurrently exchange packets in FIFO order
    without loss, what any number of writers and readers keep, and an
    interleaving of several writers that overruns the queue. *)

From Stdlib Require Import ZArith Lia.
From stdpp Require Import base tactics numbers list gmap relations.
From S2P Require Import Prelude Queue.

(** Where a writer is inside ihk_ikc_write_queue. *)
Inductive wstate : Type :=
| WLoadR (p : list Z) (attempt : Z)          (* retry: r = q->read_off *)
| WLoadW (p : list Z) (attempt r : Z)        (* w = q->write_off *)
| WTest (p : list Z) (attempt r w : Z)       (* is the queue full? *)
| WCas (p : list Z) (attempt w : Z)          (* cmpxchg(&q->write_off, w, w + 1) *)
| WCopy (p : list Z) (w : Z) (k : nat)       (* memcpyl, k longs done *)
| WPublish (w : Z)                           (* cmpxchg(&q->max_read_off, w, w + 1) *)
| WRet (code : Z).

(** One step of ihk_ikc_write_queue on the shared queue. *)
Definition wstep (q : ihk_ikc_queue_head) (s : wstate) : outcome (ihk_ikc_queue_head * wstate) :=
  match s with
  | WLoadR p a => Ret (q, WLoadW p a (q_read_off q))
  | WLoadW p a r => Ret (q, WTest p a r (q_write_off q))
  | WTest p a r w =>
      if full_test q r w then
        if Z.of_nat IHK_IKC_WRITE_QUEUE_RETRY <? a + 1 then Ret (q, WRet (- EBUSY))
        else Ret (q, WLoadR p (a + 1))
      else Ret (q, WCas p a w)
  | WCas p a w =>
      if q_write_off q =? w then Ret (set_write_off q (u64 (w + 1)), WCopy p w 0)
      else Ret (q, WLoadR p a)
  | WCopy p w k =>
      if (k <? Z.to_nat (q_pktsize q / 8))%nat then
        off ← slot_off q w;
        d ← copy_long (q_data q) (off + 8 * Z.of_nat k) p (8 * Z.of_nat k);
        Ret (set_data q d, WCopy p w (S k))
      else Ret (q, WPublish w)
  | WPublish w =>
      if q_max_read_off q =? w then Ret (set_max_read_off q (u64 (w + 1)), WRet 0)
      else Ret (q, WPublish w)
  | WRet c => Ret (q, WRet c)
  end.

(** Where a reader is inside ihk_ikc_read_queue; [b] is its packet buffer. *)
Inductive rstate : Type :=
| RLoadR (b : list Z)                        (* retry: r = q->read_off *)
| RLoadM (b : list Z) (r : Z)                (* m = q->max_read_off *)
| RTest (b : list Z) (r m : Z)               (* is the queue empty? *)
| RCas (b : list Z) (r : Z)                  (* cmpxchg(&q->read_off, r, r + 1) *)
| RCopy (b : list Z) (r : Z) (k : nat)       (* memcpyl, k longs done *)
| RRet (code : Z) (b : list Z).

(** One step of ihk_ikc_read_queue on the shared queue. *)
Definition rstep (q : ihk_ikc_queue_head) (s : rstate) : outcome (ihk_ikc_queue_head * rstate) :=
  match s with
  | RLoadR b => Ret (q, RLoadM b (q_read_off q))
  | RLoadM b r => Ret (q, RTest b r (q_max_read_off q))
  | RTest b r m => if r =? m then Ret (q, RRet (-1) b) else Ret (q, RCas b r)
  | RCas b r =>
      if q_read_off q =? r then Ret (set_read_off q (u64 (r + 1)), RCopy b r 0)
      else Ret (q, RLoadR b)
  | RCopy b r k =>
      if (k <? Z.to_nat (q_pktsize q / 8))%nat then
        off ← slot_off q r;
        b' ← copy_long b (8 * Z.of_nat k) (q_data q) (off + 8 * Z.of_nat k);
        Ret (q, RCopy b' r (S k))
      else Ret (q, RRet 0 b)
  | RRet c b => Ret (q, RRet c b)
  end.

(** ** Agreement with the functions of Queue.v: a thread that runs alone *)

Fixpoint wrun (n : nat) (q : ihk_ikc_queue_head) (s : wstate) : outcome (ihk_ikc_queue_head * wstate) :=
  match n with
  | O => Ret (q, s)
  | S n' => '(q', s') ← wstep q s; wrun n' q' s'
  end.

Fixpoint rrun (n : nat) (q : ihk_ikc_queue_head) (s : rstate) : outcome (ihk_ikc_queue_head * rstate) :=
  match n with
  | O => Ret (q, s)
  | S n' => '(q', s') ← rstep q s; rrun n' q' s'
  end.

(** ** One writer and one reader *)

Record spsc : Type := mk_spsc {
  sp_q : ihk_ikc_queue_head;
  sp_w : wstate;
  sp_r : rstate;
  sp_sent : list (list Z);   (* packets that got a slot, in order *)
  sp_got : list (list Z)     (* packets that reads delivered, in order *)
}.

(** The history after a step: a packet is sent when the cmpxchg on write_off
    succeeds, and got when a read returns 0. *)
Definition note_sent (q : ihk_ikc_queue_head) (w : wstate) (sent : list (list Z)) : list (list Z) :=
  match w with
  | WCas p _ x => if q_write_off q =? x then sent ++ [p] else sent
  | _ => sent
  end.
Definition note_got (q : ihk_ikc_queue_head) (r : rstate) (got : list (list Z)) : list (list Z) :=
  match r with
  | RCopy b _ k => if (k <? Z.to_nat (q_pktsize q / 8))%nat then got else got ++ [segment b 0 (q_pktsize q)]
  | _ => got
  end.

Inductive spsc_step : spsc -> spsc -> Prop :=
| sp_write_call q c r sent got p :
    Z.of_nat (length p) = q_pktsize q ->
    spsc_step (mk_spsc q (WRet c) r sent got) (mk_spsc q (WLoadR p 0) r sent got)
| sp_write q w r sent got q' w' :
    wstep q w = Ret (q', w') ->
    spsc_step (mk_spsc q w r sent got) (mk_spsc q' w' r (note_sent q w sent) got)
| sp_read_call q w c b sent got b' :
    Z.of_nat (length b') = q_pktsize q ->
    spsc_step (mk_spsc q w (RRet c b) sent got) (mk_spsc q w (RLoadR b') sent got)
| sp_read q w r sent got q' r' :
    rstep q r = Ret (q', r') ->
    spsc_step (mk_spsc q w r sent got) (mk_spsc q' w r' sent (note_got q r got)).

Definition spsc_init (q : ihk_ikc_queue_head) : spsc := mk_spsc q (WRet 0) (RRet 0 []) [] [].

(** ** Any number of writers and readers *)

Inductive thread : Type :=
| Writer (w : wstate)
| Reader (r : rstate).

Definition mpmc : Type := (ihk_ikc_queue_head * gmap nat thread)%type.

Definition tstep (q : ihk_ikc_queue_head) (t : thread) : outcome (ihk_ikc_queue_head * thread) :=
  match t with
  | Writer w => '(q', w') ← wstep q w; Ret (q', Writer w')
  | Reader r => '(q', r') ← rstep q r; Ret (q', Reader r')
  end.

(** A thread that is not inside an operation. *)
Definition idle (t : thread) : bool :=
  match t with Writer (WRet _) => true | Reader (RRet _ _) => true | _ => false end.

Inductive mpmc_step : mpmc -> mpmc -> Prop :=
| mp_call_write q ts i p :
    from_option idle true (ts !! i) = true ->
    mpmc_step (q, ts) (q, <[i := Writer (WLoadR p 0)]> ts)
| mp_call_read q ts i b :
    from_option idle true (ts !! i) = true ->
    mpmc_step (q, ts) (q, <[i := Reader (RLoadR b)]> ts)
| mp_step q ts i t q' t' :
    ts !! i = Some t -> tstep q t = Ret (q', t') ->
    mpmc_step (q, ts) (q', <[i := t']> ts).

(** The same as a schedule: run thread [i] for one step. *)
Inductive sched : Type :=
| CallWrite (i : nat) (p : list Z)
| CallRead (i : nat) (b : list Z)
| Run (i : nat).

Definition exec1 (s : mpmc) (e : sched) : option mpmc :=
  match e with
  | CallWrite i p =>
      if from_option idle true (s.2 !! i) then Some (s.1, <[i := Writer (WLoadR p 0)]> s.2) else None
  | CallRead i b =>
      if from_option idle true (s.2 !! i) then Some (s.1, <[i := Reader (RLoadR b)]> s.2) else None
  | Run i =>
      match s.2 !! i with
      | Some t => match tstep s.1 t with Ret (q', t') => Some (q', <[i := t']> s.2) | Undef => None end
      | None => None
      end
  end.

Fixpoint exec (s : mpmc) (l : list sched) : option mpmc :=
  match l with
  | [] => Some s
  | e :: l' => match exec1 s e with Some s' => exec s' l' | None => None end
  end.

(** ** The single-writer single-reader invariant *)

Definition longs (q : ihk_ikc_queue_head) : nat := Z.to_nat (q_pktsize q / 8).
Definition off_of (q : ihk_ikc_queue_head) (i : Z) : Z := i mod q_pktcount q * q_pktsize q.

(** What the writer's position implies; [sent] is the history. *)
Definition wr_ok (q : ihk_ikc_queue_head) (sent : list (list Z)) (s : wstate) : Prop :=
  let R := q_read_off q in let M := q_max_read_off q in let W := q_write_off q in
  match s with
  | WLoadR p _ => M = W /\ Z.of_nat (length p) = q_pktsize q
  | WLoadW p _ r => M = W /\ Z.of_nat (length p) = q_pktsize q /\ 0 <= r <= R /\ W - r <= capacity q
  | WTest p _ r w => M = W /\ Z.of_nat (length p) = q_pktsize q /\ 0 <= r <= R /\ W - r <= capacity q /\ w = W
  | WCas p _ w => M = W /\ Z.of_nat (length p) = q_pktsize q /\ w = W /\ W - R < capacity q
  | WCopy p w k =>
      M = w /\ W = w + 1 /\ (k <= longs q)%nat /\ Z.of_nat (length p) = q_pktsize q /\
      sent !! Z.to_nat w = Some p /\
      segment (q_data q) (off_of q w) (8 * Z.of_nat k) = segment p 0 (8 * Z.of_nat k)
  | WPublish w => M = w /\ W = w + 1 /\ sent !! Z.to_nat w = Some (slot q w)
  | WRet _ => M = W
  end.

(** What the reader's position implies; [G] packets were delivered. *)
Definition rd_ok (q : ihk_ikc_queue_head) (G : Z) (s : rstate) : Prop :=
  let R := q_read_off q in let M := q_max_read_off q in
  match s with
  | RLoadR b => G = R /\ Z.of_nat (length b) = q_pktsize q
  | RLoadM b r => G = R /\ Z.of_nat (length b) = q_pktsize q /\ r = R
  | RTest b r m => G = R /\ Z.of_nat (length b) = q_pktsize q /\ r = R /\ R <= m <= M
  | RCas b r => G = R /\ Z.of_nat (length b) = q_pktsize q /\ r = R /\ R < M
  | RCopy b r k =>
      G = r /\ R = r + 1 /\ (k <= longs q)%nat /\ Z.of_nat (length b) = q_pktsize q /\
      segment b 0 (8 * Z.of_nat k) = segment (slot q r) 0 (8 * Z.of_nat k)
  | RRet _ _ => G = R
  end.

Record spsc_inv (s : spsc) : Prop := {
  iv_geom : queue_geom (sp_q s);
  iv_order : 0 <= q_read_off (sp_q s) <= q_max_read_off (sp_q s);
  iv_cap : q_write_off (sp_q s) - q_read_off (sp_q s) <= capacity (sp_q s);
  iv_sent : q_write_off (sp_q s) = Z.of_nat (length (sp_sent s));
  iv_slots : forall i, Z.of_nat (length (sp_got s)) <= i < q_max_read_off (sp_q s) ->
             sp_sent s !! Z.to_nat i = Some (slot (sp_q s) i);
  iv_got : sp_got s `prefix_of` sp_sent s;
  iv_w : wr_ok (sp_q s) (sp_sent s) (sp_w s);
  iv_r : rd_ok (sp_q s) (Z.of_nat (length (sp_got s))) (sp_r s)
}.

Lemma wr_ok_MW q sent s : wr_ok q sent s ->
  q_max_read_off q <= q_write_off q <= q_max_read_off q + 1.
Proof. destruct s; simpl; lia. Qed.

Lemma rd_ok_G q G s : rd_ok q G s -> G <= q_read_off q <= G + 1.
Proof. destruct s; simpl; lia. Qed.

(** The writer's facts survive a step of the reader, which at most advances
    read_off. *)
Lemma wr_ok_read q sent s v :
  wr_ok q sent s -> q_read_off q <= v -> wr_ok (set_read_off q v) sent s.
Proof.
  intros H Hv. destruct s; simpl in *; unfold capacity in *; simpl in *; try lia; tauto.
Qed.

(** The reader's facts survive a step of the writer that leaves the slots in
    use alone and does not lower max_read_off. *)
Lemma rd_ok_write q q' G s :
  rd_ok q G s -> q_read_off q' = q_read_off q -> q_max_read_off q <= q_max_read_off q' ->
  q_read_off q <= q_max_read_off q -> q_pktsize q' = q_pktsize q ->
  (forall i, G <= i < q_max_read_off q -> slot q' i = slot q i) -> rd_ok q' G s.
Proof.
  intros H HR HM Ho Hs Hsl. destruct s; simpl in *; unfold longs in *; rewrite ?HR, ?Hs; try lia; try tauto.
  rewrite Hsl by lia. tauto.
Qed.

Lemma copy_long_ret dst doff src soff :
  0 <= doff -> doff + 8 <= Z.of_nat (length dst) -> 0 <= soff -> soff + 8 <= Z.of_nat (length src) ->
  copy_long dst doff src soff = Ret (splice dst doff (segment src soff 8)).
Proof. intros. unfold copy_long. by rewrite !(proj2 (Z.leb_le _ _)) by lia. Qed.

Lemma longs_spec q : queue_geom q -> 8 * Z.of_nat (longs q) = q_pktsize q.
Proof.
  intros G. pose proof (geom_long q G). destruct G. unfold longs.
  assert (0 <= q_pktsize q / 8) by (apply Z.div_pos; lia). lia.
Qed.

(** Copying the next long extends the prefix that is already equal. *)
Lemma copy_extends dst doff src soff k :
  0 <= doff -> 0 <= soff -> doff + 8 * Z.of_nat (S k) <= Z.of_nat (length dst) ->
  soff + 8 * Z.of_nat (S k) <= Z.of_nat (length src) ->
  segment dst doff (8 * Z.of_nat k) = segment src soff (8 * Z.of_nat k) ->
  let dst' := splice dst (doff + 8 * Z.of_nat k) (segment src (soff + 8 * Z.of_nat k) 8) in
  segment dst' doff (8 * Z.of_nat (S k)) = segment src soff (8 * Z.of_nat (S k)).
Proof.
  intros Hd Hs Hdl Hsl E dst'.
  assert (length (segment src (soff + 8 * Z.of_nat k) 8) = 8%nat) as H8 by (rewrite length_segment; lia).
  assert (length dst' = length dst) by (apply length_splice; lia).
  replace (8 * Z.of_nat (S k)) with (8 * Z.of_nat k + 8) by lia.
  rewrite !segment_app by lia. f_equal.
  - unfold dst'. rewrite segment_splice_apart by lia. done.
  - change 8 with (Z.of_nat 8) at 2. rewrite <- H8 at 1. apply segment_splice_same; lia.
Qed.

Lemma segment_segment l off n k :
  0 <= off -> 0 <= k -> 0 <= n -> k + n <= Z.of_nat (length l) - off ->
  forall m, k + n <= m -> segment (segment l off m) k n = segment l (off + k) n.
Proof.
  intros. apply list_eq. intros i. rewrite !segment_lookup by lia. repeat case_decide; try lia; try done.
  f_equal. lia.
Qed.

(** A write into slot [w] at long [k] keeps every other slot. *)
Lemma slot_copy_other q w i k s :
  queue_geom q -> i mod q_pktcount q <> w mod q_pktcount q ->
  Z.of_nat k + Z.of_nat (length s) <= q_pktsize q ->
  slot (set_data q (splice (q_data q) (off_of q w + Z.of_nat k) s)) i = slot q i.
Proof.
  intros G Hne Hk. pose proof (slot_range q w G). pose proof (slot_range q i G).
  pose proof (slots_apart q i w G Hne). destruct G. unfold slot, off_of. simpl.
  apply segment_splice_apart; lia.
Qed.

Lemma inv_set_w q w w' r sent got :
  spsc_inv (mk_spsc q w r sent got) -> wr_ok q sent w' -> spsc_inv (mk_spsc q w' r sent got).
Proof. intros [] H. by split. Qed.

Lemma inv_set_r q w r r' sent got :
  spsc_inv (mk_spsc q w r sent got) -> rd_ok q (Z.of_nat (length got)) r' ->
  spsc_inv (mk_spsc q w r' sent got).
Proof. intros [] H. by split. Qed.

Lemma full_test_false q r w : queue_geom q -> 0 <= w - r <= capacity q ->
  full_test q r w = false -> w - r < capacity q.
Proof.
  intros G H. destruct (g_count q G). unfold full_test, capacity in *.
  rewrite u64_small, u32_small by lia. intros E%Z.eqb_neq. lia.
Qed.

(** The step in which the writer gets a slot. *)
Lemma inv_ticket q p a r sent got :
  spsc_inv (mk_spsc q (WCas p a (q_write_off q)) r sent got) -> q_write_off q + 1 < 2 ^ 64 ->
  spsc_inv (mk_spsc (set_write_off q (u64 (q_write_off q + 1))) (WCopy p (q_write_off q) 0) r (sent ++ [p]) got).
Proof.
  intros [G Ho Hc Hs Hsl Hg Hw Hr] H64. simpl in *. rewrite u64_small by lia.
  split; simpl; auto.
  - by apply (geom_transfer q).
  - unfold capacity in *; simpl; lia.
  - rewrite length_app. simpl. lia.
  - intros i Hi. rewrite lookup_app_l by lia. by apply Hsl.
  - by apply prefix_app_r.
  - split_and!; auto; try lia. rewrite lookup_app_r by lia.
    replace (Z.to_nat (q_write_off q) - length sent)%nat with 0%nat by lia. done.
Qed.

(** The step in which the writer copies one long. *)
Lemma inv_copy q p w k r sent got q' s' :
  spsc_inv (mk_spsc q (WCopy p w k) r sent got) -> wstep q (WCopy p w k) = Ret (q', s') ->
  spsc_inv (mk_spsc q' s' r sent got).
Proof.
  intros HI Hst. pose proof HI as [G Ho Hc Hs Hsl Hg (HM & HW & Hk & Hp & Hsent & Hseg) Hr]. simpl in *.
  fold (longs q) in Hst. pose proof (longs_spec q G) as Hlg. pose proof (slot_range q w G) as Hrange.
  destruct (Nat.ltb_spec k (longs q)).
  - rewrite slot_off_ret in Hst by done. cbn [mbind outcome_bind] in Hst. fold (off_of q w) in Hst, Hrange.
    pose proof (g_data q G). rewrite copy_long_ret in Hst by lia. cbn [mbind outcome_bind] in Hst. injection Hst as <- <-.
    pose proof (copy_extends (q_data q) (off_of q w) p 0 k ltac:(lia) ltac:(lia) ltac:(lia) ltac:(lia) Hseg) as Hext.
    rewrite Z.add_0_l in Hext. simpl in Hext.
    assert (length (segment p (8 * Z.of_nat k) 8) = 8%nat) as H8 by (rewrite length_segment; lia).
    set (q' := set_data q _).
    assert (length (q_data q') = length (q_data q)) as Hlen by (apply length_splice; lia).
    pose proof (rd_ok_G _ _ _ Hr) as HG. unfold capacity in *. pose proof (g_count q G).
    assert (forall i, Z.of_nat (length got) <= i < q_max_read_off q -> slot q' i = slot q i) as Hsame.
    { intros i Hi. unfold q'. replace (8 * Z.of_nat k) with (Z.of_nat (8 * k)) by lia.
      apply slot_copy_other; auto; [apply mod_neq; lia|rewrite length_segment; lia]. }
    split; simpl; auto.
    + by apply (geom_transfer q).
    + intros i Hi. fold q'. rewrite Hsame by lia. by apply Hsl.
    + fold q'. unfold longs in *. split_and!; auto.
    + fold q'. apply (rd_ok_write q); auto; simpl; lia.
  - injection Hst as <- <-. eapply inv_set_w; [exact HI|]. simpl. split_and!; auto. rewrite Hsent. f_equal.
    unfold slot. fold (off_of q w). assert (k = longs q) as -> by lia. rewrite Hlg in Hseg.
    rewrite Hseg. symmetry. apply segment_full. lia.
Qed.

(** The step in which the packet becomes visible to the reader. *)
Lemma inv_publish q w r sent got :
  spsc_inv (mk_spsc q (WPublish w) r sent got) -> q_write_off q < 2 ^ 64 ->
  spsc_inv (mk_spsc (set_max_read_off q (u64 (w + 1))) (WRet 0) r sent got).
Proof.
  intros [G Ho Hc Hs Hsl Hg (HM & HW & Hsent) Hr] H64. simpl in *. rewrite u64_small by lia.
  split; simpl; auto; try lia.
  - by apply (geom_transfer q).
  - intros i Hi. destruct (Z.eq_dec i w) as [->|]; [done|]. apply Hsl. lia.
  - apply (rd_ok_write q); auto; simpl; lia.
Qed.

Lemma inv_write q w r sent got q' w' :
  spsc_inv (mk_spsc q w r sent got) -> wstep q w = Ret (q', w') ->
  Z.of_nat (length (note_sent q w sent)) < 2 ^ 64 ->
  spsc_inv (mk_spsc q' w' r (note_sent q w sent) got).
Proof.
  intros HI Hst H64. pose proof (iv_geom _ HI) as G. pose proof (iv_w _ HI) as Hw.
  pose proof (iv_order _ HI) as Ho. pose proof (iv_cap _ HI) as Hc. pose proof (iv_sent _ HI) as Hs. simpl in *.
  destruct w as [p a|p a x|p a x w|p a w|p w k|w|c]; simpl in Hst, Hw, H64 |- *.
  - inv_ret. eapply inv_set_w; [exact HI|]. simpl. split_and!; try tauto; lia.
  - inv_ret. eapply inv_set_w; [exact HI|]. simpl. split_and!; try tauto; lia.
  - destruct (full_test q x w) eqn:E.
    + destruct (Z.ltb _ _); inv_ret; (eapply inv_set_w; [exact HI|]); simpl; tauto.
    + inv_ret. apply full_test_false in E; [|done|lia]. eapply inv_set_w; [exact HI|]. simpl. split_and!; try tauto; lia.
  - destruct Hw as (HM & Hp & -> & Hroom). rewrite Z.eqb_refl in *. inv_ret. eapply inv_ticket; [exact HI|].
    rewrite length_app in H64. simpl in H64. lia.
  - by eapply inv_copy.
  - destruct Hw as (HM & HW & Hsent). rewrite HM, Z.eqb_refl in Hst. inv_ret. apply inv_publish; [done|lia].
  - by inv_ret.
Qed.

(** The step in which the reader takes a slot. *)
Lemma inv_take q w b sent got :
  spsc_inv (mk_spsc q w (RCas b (q_read_off q)) sent got) -> q_write_off q < 2 ^ 64 ->
  spsc_inv (mk_spsc (set_read_off q (u64 (q_read_off q + 1))) w (RCopy b (q_read_off q) 0) sent got).
Proof.
  intros [G Ho Hc Hs Hsl Hg Hw Hr] H64. simpl in *. pose proof (wr_ok_MW _ _ _ Hw).
  rewrite u64_small by lia. split; simpl; auto; try lia.
  - by apply (geom_transfer q).
  - unfold capacity in *; simpl; lia.
  - apply wr_ok_read; [done|lia].
  - unfold longs. simpl. split_and!; auto; lia.
Qed.

(** The steps in which the reader copies one long, or returns the packet. *)
Lemma inv_fetch q w b r k sent got q' s' :
  spsc_inv (mk_spsc q w (RCopy b r k) sent got) -> rstep q (RCopy b r k) = Ret (q', s') ->
  spsc_inv (mk_spsc q' w s' sent (note_got q (RCopy b r k) got)).
Proof.
  intros HI Hst. pose proof HI as [G Ho Hc Hs Hsl Hg Hw (HG & HR & Hk & Hb & Hseg)]. simpl in *.
  fold (longs q) in Hst |- *. pose proof (longs_spec q G) as Hlg. pose proof (slot_range q r G) as Hrange.
  pose proof (g_data q G). destruct (Nat.ltb_spec k (longs q)).
  - rewrite slot_off_ret in Hst by done. cbn [mbind outcome_bind] in Hst. fold (off_of q r) in Hst, Hrange.
    rewrite copy_long_ret in Hst by lia. cbn [mbind outcome_bind] in Hst. injection Hst as <- <-.
    assert (segment (slot q r) (8 * Z.of_nat k) 8 = segment (q_data q) (off_of q r + 8 * Z.of_nat k) 8) as Hss.
    { unfold slot. fold (off_of q r). apply segment_segment; lia. }
    assert (length (slot q r) = Z.to_nat (q_pktsize q)) as Hsl'.
    { unfold slot. fold (off_of q r). apply length_segment; destruct (g_size q G); lia. }
    pose proof (copy_extends b 0 (slot q r) 0 k ltac:(lia) ltac:(lia) ltac:(lia) ltac:(lia) Hseg) as Hext.
    rewrite !Z.add_0_l, Hss in Hext.
    eapply inv_set_r; [exact HI|]. simpl. split_and!; auto.
    rewrite length_splice by (rewrite ?length_segment; lia). done.
  - injection Hst as <- <-. assert (k = longs q) as -> by lia. rewrite Hlg in Hseg.
    assert (segment b 0 (q_pktsize q) = slot q r) as Hpkt.
    { rewrite Hseg. apply segment_full. unfold slot. rewrite length_segment; destruct (g_size q G); lia. }
    rewrite Hpkt. pose proof (Hsl r ltac:(lia)) as Hnext.
    split; simpl; auto; rewrite ?length_app; simpl.
    + intros i Hi. apply Hsl. lia.
    + destruct Hg as [k' ->]. rewrite lookup_app_r in Hnext by lia.
      replace (Z.to_nat r - length got)%nat with 0%nat in Hnext by lia.
      destruct k' as [|x k']; [done|]. injection Hnext as <-. exists k'. by rewrite <- app_assoc.
    + lia.
Qed.

Lemma inv_read q w r sent got q' r' :
  spsc_inv (mk_spsc q w r sent got) -> rstep q r = Ret (q', r') -> Z.of_nat (length sent) < 2 ^ 64 ->
  spsc_inv (mk_spsc q' w r' sent (note_got q r got)).
Proof.
  intros HI Hst H64. pose proof (iv_r _ HI) as Hr. pose proof (iv_sent _ HI) as Hs.
  pose proof (iv_order _ HI) as Ho. pose proof (iv_w _ HI) as Hw. apply wr_ok_MW in Hw. simpl in *.
  destruct r as [b|b x|b x m|b x|b x k|c b]; simpl in Hst, Hr |- *.
  - inv_ret. eapply inv_set_r; [exact HI|]. simpl. tauto.
  - inv_ret. eapply inv_set_r; [exact HI|]. simpl. split_and!; try tauto; lia.
  - destruct (Z.eqb_spec x m); inv_ret; (eapply inv_set_r; [exact HI|]); simpl; split_and?; try tauto; lia.
  - destruct Hr as (HG & Hb & -> & Hlt). rewrite Z.eqb_refl in Hst. inv_ret. apply inv_take; [done|lia].
  - by eapply inv_fetch.
  - by inv_ret.
Qed.

Lemma spsc_sent_mono s s' : spsc_step s s' -> (length (sp_sent s) <= length (sp_sent s'))%nat.
Proof.
  destruct 1; simpl; auto. destruct w; simpl; auto. destruct (_ =? _); rewrite ?length_app; lia.
Qed.

Lemma spsc_inv_step s s' : spsc_inv s -> spsc_step s s' -> Z.of_nat (length (sp_sent s')) < 2 ^ 64 -> spsc_inv s'.
Proof.
  intros HI Hst H64. destruct Hst; simpl in *.
  - eapply inv_set_w; [exact HI|]. pose proof (iv_w _ HI). simpl in *. done.
  - by eapply inv_write.
  - eapply inv_set_r; [exact HI|]. pose proof (iv_r _ HI). simpl in *. done.
  - by eapply inv_read.
Qed.

Lemma spsc_inv_init q :
  queue_geom q -> q_read_off q = 0 -> q_max_read_off q = 0 -> q_write_off q = 0 -> spsc_inv (spsc_init q).
Proof.
  intros G H1 H2 H3. destruct (g_count q G). unfold capacity. split; simpl; rewrite ?H1, ?H2, ?H3; auto; try lia.
  all: unfold capacity; intros; lia.
Qed.

Lemma spsc_reachable q s :
  queue_geom q -> q_read_off q = 0 -> q_max_read_off q = 0 -> q_write_off q = 0 ->
  rtc spsc_step (spsc_init q) s -> Z.of_nat (length (sp_sent s)) < 2 ^ 64 -> spsc_inv s.
Proof.
  intros G H1 H2 H3 Hs. 
  eapply (rtc_ind_r (fun s => Z.of_nat (length (sp_sent s)) < 2 ^ 64 -> spsc_inv s) (spsc_init q)); [| |exact Hs].
  - intros _. by apply spsc_inv_init.
  - intros y z _ Hyz IH Hz. pose proof (spsc_sent_mono y z Hyz). eapply spsc_inv_step; eauto. apply IH. lia.
Qed.

(** ** Lemmas: a thread that runs alone *)

Lemma wrun_app n m q s :
  wrun (n + m) q s = '(q', s') ← wrun n q s; wrun m q' s'.
Proof.
  revert q s. induction n as [|n IH]; intros q s; [done|]. cbn [wrun Nat.add].
  destruct (wstep q s) as [[q' s']|]; [|done]. cbn [mbind outcome_bind]. apply IH.
Qed.

Lemma rrun_app n m q s :
  rrun (n + m) q s = '(q', s') ← rrun n q s; rrun m q' s'.
Proof.
  revert q s. induction n as [|n IH]; intros q s; [done|]. cbn [rrun Nat.add].
  destruct (rstep q s) as [[q' s']|]; [|done]. cbn [mbind outcome_bind]. apply IH.
Qed.

Lemma wrun_copy n k q p w off d :
  slot_off q w = Ret off -> (k + n = longs q)%nat ->
  memcpyl_loop n (q_data q) (off + 8 * Z.of_nat k) p (8 * Z.of_nat k) = Ret d ->
  wrun n q (WCopy p w k) = Ret (set_data q d, WCopy p w (k + n)).
Proof.
  revert k q. induction n as [|n IH]; intros k q Hoff Hk Hm; cbn [memcpyl_loop wrun] in *.
  { inv_ret. rewrite Nat.add_0_r. by destruct q. }
  unfold wstep. fold (longs q). rewrite (proj2 (Nat.ltb_lt k (longs q))) by lia.
  rewrite Hoff. cbn [mbind outcome_bind].
  destruct (copy_long (q_data q) (off + 8 * Z.of_nat k) p (8 * Z.of_nat k)) as [d1|]; [|done].
  cbn [mbind outcome_bind] in *. rewrite (IH (S k) (set_data q d1)); auto.
  - by rewrite Nat.add_succ_r.
  - unfold longs in *. simpl. lia.
  - simpl. rewrite <- Hm. f_equal; lia.
Qed.

Lemma rrun_copy n k q b r off b' :
  slot_off q r = Ret off -> (k + n = longs q)%nat ->
  memcpyl_loop n b (8 * Z.of_nat k) (q_data q) (off + 8 * Z.of_nat k) = Ret b' ->
  rrun n q (RCopy b r k) = Ret (q, RCopy b' r (k + n)).
Proof.
  revert k b. induction n as [|n IH]; intros k b Hoff Hk Hm; cbn [memcpyl_loop rrun] in *.
  { inv_ret. by rewrite Nat.add_0_r. }
  unfold rstep. fold (longs q). rewrite (proj2 (Nat.ltb_lt k (longs q))) by lia.
  rewrite Hoff. cbn [mbind outcome_bind].
  destruct (copy_long b (8 * Z.of_nat k) (q_data q) (off + 8 * Z.of_nat k)) as [b1|]; [|done].
  cbn [mbind outcome_bind] in *. rewrite (IH (S k) b1); auto; [by rewrite Nat.add_succ_r|lia|].
  rewrite <- Hm. f_equal; lia.
Qed.

Lemma wrun_room q p c q' a :
  full_test q (q_read_off q) (q_write_off q) = false -> write_retry 0 q p = Ret (c, q') ->
  exists n, wrun n q (WLoadR p a) = Ret (q', WRet c).
Proof.
  intros E Hw. cbn [write_retry] in Hw. rewrite E in Hw.
  set (w := q_write_off q) in *. set (q1 := set_write_off q (u64 (w + 1))) in *.
  destruct (slot_off q1 w) as [off|] eqn:Eo; [|done]. cbn [mbind outcome_bind] in Hw.
  destruct (memcpyl (q_data q1) off p 0 (q_pktsize q1)) as [d|] eqn:Ed; [|done]. cbn [mbind outcome_bind] in Hw.
  destruct (Z.eqb_spec (q_max_read_off (set_data q1 d)) w) as [Em|]; [|done]. injection Hw as <- <-.
  exists (4 + (longs q + 2))%nat. cbn [wrun Nat.add wstep mbind outcome_bind]. fold w. rewrite E.
  cbn [wrun wstep mbind outcome_bind]. fold w. rewrite Z.eqb_refl. cbn [mbind outcome_bind]. fold q1.
  rewrite wrun_app, (wrun_copy (longs q) 0 q1 p w off d); auto; [|by rewrite Z.mul_0_r, Z.add_0_r].
  cbn [mbind outcome_bind wrun wstep]. fold (longs (set_data q1 d)).
  rewrite (proj2 (Nat.ltb_ge _ _)) by (unfold longs; simpl; lia). cbn [mbind outcome_bind wrun wstep].
  rewrite Em, Z.eqb_refl. done.
Qed.

Lemma wrun_write_retry t q p c q' :
  (t <= 128)%nat -> write_retry t q p = Ret (c, q') ->
  exists n, wrun n q (WLoadR p (128 - Z.of_nat t)) = Ret (q', WRet c).
Proof.
  intros Ht Hw. destruct (full_test q (q_read_off q) (q_write_off q)) eqn:E.
  - rewrite write_full in Hw by done. injection Hw as <- <-. induction t as [|t IH].
    + exists 3%nat. cbn [wrun wstep mbind outcome_bind]. by rewrite E.
    + destruct IH as [n Hn]; [lia|]. exists (3 + n)%nat. cbn [wrun Nat.add wstep mbind outcome_bind].
      rewrite E. unfold IHK_IKC_WRITE_QUEUE_RETRY. rewrite (proj2 (Z.ltb_ge _ _)) by lia.
      cbn [mbind outcome_bind]. rewrite <- Hn. do 2 f_equal. lia.
  - apply wrun_room; [done|]. rewrite <- Hw. destruct t; cbn [write_retry]; by rewrite E.
Qed.

(** ** Properties: one writer, one reader *)

(** A thread that is not disturbed runs through the
    steps of this file to exactly the result and queue that the functions of
    Queue.v compute, also when these report a full or an empty queue. *)
Theorem thread_alone_agrees q p b c q' :
  (ihk_ikc_write_queue (Some q) (Some p) = Ret (c, Some q') ->
   exists n, wrun n q (WLoadR p 0) = Ret (q', WRet c)) /\
  (forall b', ihk_ikc_read_queue (Some q) (Some b) = Ret (c, Some q', Some b') ->
   exists n, rrun n q (RLoadR b) = Ret (q', RRet c b')).
Proof.
  split.
  - unfold ihk_ikc_write_queue. intros H. destruct write_retry as [[c' q'']|] eqn:E; [|done].
    injection H as -> ->. by apply (wrun_write_retry 128).
  - intros b' H. unfold ihk_ikc_read_queue in H.
    destruct (Z.eqb_spec (q_read_off q) (q_max_read_off q)) as [E|E].
    + injection H as <- <- <-. exists 3%nat. cbn [rrun rstep mbind outcome_bind].
      by rewrite (proj2 (Z.eqb_eq _ _)).
    + set (r := q_read_off q) in *. set (q1 := set_read_off q (u64 (r + 1))) in *.
      destruct (slot_off q1 r) as [off|] eqn:Eo; [|done]. cbn [mbind outcome_bind] in H.
      destruct (memcpyl b 0 (q_data q1) off (q_pktsize q1)) as [d|] eqn:Ed; [|done]. injection H as <- <- <-.
      exists (4 + (longs q + 1))%nat. cbn [rrun Nat.add rstep mbind outcome_bind]. fold r.
      rewrite (proj2 (Z.eqb_neq _ _)) by done. cbn [rstep mbind outcome_bind]. fold r.
      rewrite Z.eqb_refl. cbn [mbind outcome_bind]. fold q1.
      rewrite rrun_app, (rrun_copy (longs q) 0 q1 b r off d); auto; [|by rewrite Z.mul_0_r, Z.add_0_r].
      cbn [mbind outcome_bind rrun rstep]. fold (longs q1). by rewrite (proj2 (Nat.ltb_ge _ _)) by (unfold longs; simpl; lia).
Qed.

Lemma thread_alone_agrees_witness :
  exists n, wrun n demo_queue (WLoadR [1;2;3;4;5;6;7;8] 0) =
  Ret (mk_queue 1 0 8 3 0 0 1 1 24 0 0 0 ([1;2;3;4;5;6;7;8] ++ replicate 16 0), WRet 0).
Proof.
  apply (proj1 (thread_alone_agrees demo_queue [1;2;3;4;5;6;7;8] [] 0 _)). vm_compute. reflexivity.
Defined.

Lemma inv_no_undef s : spsc_inv s ->
  (exists r, wstep (sp_q s) (sp_w s) = Ret r) /\ (exists r, rstep (sp_q s) (sp_r s) = Ret r).
Proof.
  intros [G Ho Hc Hs Hsl Hg Hw Hr]. pose proof (longs_spec _ G). pose proof (g_data _ G). split.
  - destruct (sp_w s) as [| | | |p w k| |]; simpl in *; try (repeat case_match; eauto; fail).
    fold (longs (sp_q s)). destruct (Nat.ltb_spec k (longs (sp_q s))); [|eauto].
    pose proof (slot_range (sp_q s) w G). rewrite slot_off_ret by done. cbn [mbind outcome_bind].
    rewrite copy_long_ret by lia. simpl. eauto.
  - destruct (sp_r s) as [| | | |b r k|]; simpl in *; try (repeat case_match; eauto; fail).
    fold (longs (sp_q s)). destruct (Nat.ltb_spec k (longs (sp_q s))); [|eauto].
    pose proof (slot_range (sp_q s) r G). rewrite slot_off_ret by done. cbn [mbind outcome_bind].
    rewrite copy_long_ret by lia. simpl. eauto.
Qed.

(** C3: when one CPU writes and one CPU reads, then in every
    interleaving of their steps the packets delivered so far are, in order
    and content, the first packets that were accepted; the packets published
    and not yet delivered are intact in their slots; at most [pktcount - 1]
    packets are outstanding; and no step of either side is undefined. *)
Theorem spsc_fifo q s :
  queue_geom q -> q_read_off q = 0 -> q_max_read_off q = 0 -> q_write_off q = 0 ->
  rtc spsc_step (spsc_init q) s -> Z.of_nat (length (sp_sent s)) < 2 ^ 64 ->
  sp_got s `prefix_of` sp_sent s /\
  (forall i, Z.of_nat (length (sp_got s)) <= i < q_max_read_off (sp_q s) ->
     sp_sent s !! Z.to_nat i = Some (slot (sp_q s) i)) /\
  Z.of_nat (length (sp_sent s)) - q_read_off (sp_q s) <= capacity (sp_q s) /\
  (exists r, wstep (sp_q s) (sp_w s) = Ret r) /\ (exists r, rstep (sp_q s) (sp_r s) = Ret r).
Proof.
  intros G H1 H2 H3 Hs H64. pose proof (spsc_reachable q s G H1 H2 H3 Hs H64) as HI.
  pose proof (inv_no_undef s HI). destruct HI as [_ _ Hc Hse Hsl Hg _ _]. rewrite <- Hse. tauto.
Qed.

Lemma spsc_fifo_witness :
  let s := mk_spsc demo_queue (WLoadR [1;2;3;4;5;6;7;8] 0) (RRet 0 []) [] [] in
  sp_got s `prefix_of` sp_sent s /\
  (forall i, 0 <= i < 0 -> sp_sent s !! Z.to_nat i = Some (slot (sp_q s) i)) /\
  0 - 0 <= capacity demo_queue /\
  (exists r, wstep (sp_q s) (sp_w s) = Ret r) /\ (exists r, rstep (sp_q s) (sp_r s) = Ret r).
Proof.
  apply (spsc_fifo demo_queue (mk_spsc demo_queue (WLoadR [1;2;3;4;5;6;7;8] 0) (RRet 0 []) [] [])).
  - apply (qw_geom _ demo_queue_wf).
  - reflexivity.
  - reflexivity.
  - reflexivity.
  - apply rtc_once. apply sp_write_call. reflexivity.
  - vm_compute. reflexivity.
Defined.

(** ** Any number of writers and readers: tickets *)

(** The slot number a thread has reserved and not yet published. *)
Definition ticket (t : thread) : option Z :=
  match t with
  | Writer (WCopy _ w _) | Writer (WPublish w) => Some w
  | _ => None
  end.

(** What a reader has learnt about the offsets. *)
Definition reader_ok (q : ihk_ikc_queue_head) (t : thread) : Prop :=
  match t with
  | Reader (RLoadM _ r) => r <= q_read_off q
  | Reader (RTest _ r m) => r <= m <= q_max_read_off q
  | Reader (RCas _ r) => r < q_max_read_off q
  | _ => True
  end.

Record mp_inv (s : mpmc) : Prop := {
  mi_order : 0 <= q_read_off s.1 <= q_max_read_off s.1;
  mi_mw : q_max_read_off s.1 <= q_write_off s.1;
  mi_held : forall x, q_max_read_off s.1 <= x < q_write_off s.1 ->
            exists i t, s.2 !! i = Some t /\ ticket t = Some x;
  mi_range : forall i t x, s.2 !! i = Some t -> ticket t = Some x -> q_max_read_off s.1 <= x < q_write_off s.1;
  mi_unique : forall i j t u x, s.2 !! i = Some t -> s.2 !! j = Some u ->
              ticket t = Some x -> ticket u = Some x -> i = j;
  mi_readers : forall i t, s.2 !! i = Some t -> reader_ok s.1 t
}.

Lemma wstep_effect q w q' w' : wstep q w = Ret (q', w') ->
  q_read_off q' = q_read_off q /\
  ((q_max_read_off q' = q_max_read_off q /\ q_write_off q' = q_write_off q /\
    ticket (Writer w') = ticket (Writer w)) \/
   (q_max_read_off q' = q_max_read_off q /\ q_write_off q' = u64 (q_write_off q + 1) /\
    ticket (Writer w) = None /\ ticket (Writer w') = Some (q_write_off q)) \/
   (q_max_read_off q' = u64 (q_max_read_off q + 1) /\ q_write_off q' = q_write_off q /\
    ticket (Writer w) = Some (q_max_read_off q) /\ ticket (Writer w') = None)).
Proof.
  intros H. destruct w as [p a|p a x|p a x w|p a w|p w k|w|c]; cbn [wstep] in H.
  1,2,7: inv_ret; tauto.
  - repeat case_match; inv_ret; simpl; tauto.
  - destruct (Z.eqb_spec (q_write_off q) w) as [<-|]; inv_ret; simpl; tauto.
  - destruct (Nat.ltb _ _); inv_ret; simpl; tauto.
  - destruct (Z.eqb_spec (q_max_read_off q) w) as [<-|]; inv_ret; simpl; tauto.
Qed.

Lemma rstep_effect q r q' r' : rstep q r = Ret (q', r') ->
  q_max_read_off q' = q_max_read_off q /\ q_write_off q' = q_write_off q /\
  ((q_read_off q' = q_read_off q /\
    (reader_ok q (Reader r) -> q_read_off q <= q_max_read_off q -> reader_ok q (Reader r'))) \/
   (exists b, r = RCas b (q_read_off q) /\ q_read_off q' = u64 (q_read_off q + 1) /\ r' = RCopy b (q_read_off q) 0)).
Proof.
  intros H. destruct r as [b|b x|b x m|b x|b x k|c b]; cbn [rstep] in H.
  - inv_ret. simpl. split_and!; auto. left. split; [done|]. lia.
  - inv_ret. simpl. split_and!; auto. left. split; [done|]. lia.
  - destruct (Z.eqb_spec x m); inv_ret; simpl; (split_and!; auto); left; (split; [done|]); lia.
  - destruct (Z.eqb_spec (q_read_off q) x) as [<-|]; inv_ret; simpl; split_and!; auto. right. eauto.
  - destruct (Nat.ltb _ _); inv_ret; simpl; split_and!; auto.
  - inv_ret. simpl. split_and!; auto.
Qed.

(** Changing the state of a thread that holds the same ticket as before. *)
Lemma mp_inv_same q q' ts i t :
  mp_inv (q, ts) -> (forall t0, ts !! i = Some t0 -> ticket t = ticket t0) ->
  (ts !! i = None -> ticket t = None) ->
  q_max_read_off q' = q_max_read_off q -> q_write_off q' = q_write_off q ->
  q_read_off q <= q_read_off q' <= q_max_read_off q -> reader_ok q' t ->
  mp_inv (q', <[i := t]> ts).
Proof.
  intros [Ho Hmw Hh Hr Hu Hrd] Ht Ht0 HM HW HR Hok. simpl in *.
  assert (forall j u x, <[i := t]> ts !! j = Some u -> ticket u = Some x ->
          exists u0, ts !! j = Some u0 /\ ticket u0 = Some x) as Hback.
  { intros j u x Hj Hx. destruct (decide (i = j)) as [<-|Hne].
    - rewrite lookup_insert_eq in Hj. injection Hj as <-. destruct (ts !! i) as [t0|].
      + exists t0. by rewrite <- (Ht t0).
      + rewrite Ht0 in Hx by done. done.
    - rewrite lookup_insert_ne in Hj by done. eauto. }
  split; simpl; rewrite ?HM, ?HW; auto; try lia.
  - intros x Hx. destruct (Hh x Hx) as (j & u & Hj & Hux). destruct (decide (i = j)) as [<-|Hne].
    + exists i, t. rewrite lookup_insert_eq. split; [done|]. by rewrite (Ht u Hj).
    + exists j, u. by rewrite lookup_insert_ne.
  - intros j u x Hj Hx. destruct (Hback j u x Hj Hx) as (u0 & ? & ?). by eapply Hr.
  - intros j k u v x Hj Hk Hux Hvx. destruct (Hback j u x Hj Hux) as (u0 & ? & ?).
    destruct (Hback k v x Hk Hvx) as (v0 & ? & ?). by eapply Hu.
  - intros j u Hj. destruct (decide (i = j)) as [<-|Hne].
    + rewrite lookup_insert_eq in Hj. by injection Hj as <-.
    + rewrite lookup_insert_ne in Hj by done. specialize (Hrd j u Hj).
      destruct u as [|[]]; simpl in *; rewrite ?HM; try lia; done.
Qed.

Lemma idle_ticket t : idle t = true -> ticket t = None.
Proof. by destruct t as [[]|[]]. Qed.

Lemma mp_inv_writer q ts i w q' w' :
  mp_inv (q, ts) -> ts !! i = Some (Writer w) -> wstep q w = Ret (q', w') -> q_write_off q + 1 < 2 ^ 64 ->
  mp_inv (q', <[i := Writer w']> ts).
Proof.
  intros HI Hi Hst H64. pose proof HI as [Ho Hmw Hh Hr Hu Hrd]. simpl in *.
  destruct (wstep_effect q w q' w' Hst) as (HR & [(HM & HW & Ht)|[(HM & HW & Hn & Ht)|(HM & HW & Hs & Hn)]]).
  - apply (mp_inv_same q); auto; try lia; naive_solver.
  - rewrite u64_small in HW by lia. split; simpl; rewrite ?HM, ?HW, ?HR; auto; try lia.
    + intros x Hx. destruct (Z.eq_dec x (q_write_off q)) as [->|].
      * exists i, (Writer w'). by rewrite lookup_insert_eq.
      * destruct (Hh x) as (j & u & Hj & Hux); [lia|]. exists j, u. rewrite lookup_insert_ne; [done|].
        intros <-. naive_solver.
    + intros j u x Hj Hx. apply lookup_insert_Some in Hj as [[<- <-]|[Hne Hj]].
      * rewrite Ht in Hx. injection Hx as <-. lia.
      * pose proof (Hr j u x Hj Hx). lia.
    + intros j k u v x Hj Hk Hux Hvx.
      apply lookup_insert_Some in Hj as [[<- <-]|[Hne Hj]]; apply lookup_insert_Some in Hk as [[<- <-]|[Hne' Hk]]; auto.
      * rewrite Ht in Hux. injection Hux as <-. pose proof (Hr k v _ Hk Hvx). lia.
      * rewrite Ht in Hvx. injection Hvx as <-. pose proof (Hr j u _ Hj Hux). lia.
      * by eapply Hu.
    + intros j u Hj. apply lookup_insert_Some in Hj as [[<- <-]|[Hne Hj]]; [done|].
      specialize (Hrd j u Hj). destruct u as [|[]]; simpl in *; rewrite ?HM, ?HR; done.
  - pose proof (Hr i _ _ Hi Hs) as Hlt. rewrite u64_small in HM by lia.
    split; simpl; rewrite ?HM, ?HW, ?HR; auto; try lia.
    + intros x Hx. destruct (Hh x) as (j & u & Hj & Hux); [lia|]. exists j, u. rewrite lookup_insert_ne; [done|].
      intros <-. rewrite Hi in Hj. injection Hj as <-. rewrite Hs in Hux. injection Hux as Hux. lia.
    + intros j u x Hj Hx. apply lookup_insert_Some in Hj as [[<- <-]|[Hne Hj]]; [congruence|].
      pose proof (Hr j u x Hj Hx). destruct (Z.eq_dec x (q_max_read_off q)) as [->|]; [|lia].
      destruct Hne. by eapply Hu.
    + intros j k u v x Hj Hk Hux Hvx.
      apply lookup_insert_Some in Hj as [[<- <-]|[Hne Hj]]; [congruence|].
      apply lookup_insert_Some in Hk as [[<- <-]|[Hne' Hk]]; [congruence|]. by eapply Hu.
    + intros j u Hj. apply lookup_insert_Some in Hj as [[<- <-]|[Hne Hj]]; [done|].
      specialize (Hrd j u Hj). destruct u as [|[]]; simpl in *; rewrite ?HM, ?HR; try lia; done.
Qed.

Lemma mp_inv_step s s' : mp_inv s -> mpmc_step s s' -> q_write_off s.1 + 1 < 2 ^ 64 ->
  mp_inv s' /\ q_write_off s'.1 <= q_write_off s.1 + 1.
Proof.
  intros HI Hst H64. destruct Hst as [q ts i p Hi|q ts i b Hi|q ts i t q' t' Hi Hst]; simpl in *.
  1,2: split; [|simpl; lia]; pose proof (mi_order _ HI); simpl in *;
    apply (mp_inv_same q); auto; simpl; try lia; intros t0 Ht0; rewrite Ht0 in Hi; by rewrite (idle_ticket _ Hi).
  destruct t as [w|r]; cbn [tstep] in Hst; inv_ret.
  - destruct a as [q1 w1]. inv_ret. split; [by eapply mp_inv_writer|].
    pose proof (mi_mw _ HI). pose proof (mi_order _ HI). simpl in *.
    destruct (wstep_effect q w q' w1 E) as (_ & [(_ & -> & _)|[(_ & -> & _)|(_ & -> & _)]]); try lia.
    rewrite u64_small by lia. lia.
  - destruct a as [q1 r1]. inv_ret. pose proof (mi_order _ HI). pose proof (mi_mw _ HI).
    pose proof (mi_readers _ HI i _ Hi) as Hok. simpl in *.
    destruct (rstep_effect q r q' r1 E) as (HM & HW & [[HR Hrd]|(b & -> & HR & ->)]).
    + split; [|lia]. apply (mp_inv_same q); auto; try lia; try (intros; simplify_eq; done).
      specialize (Hrd Hok ltac:(lia)). destruct r1; simpl in *; rewrite ?HM, ?HR; auto.
    + simpl in Hok. rewrite u64_small in HR by lia. split; [|lia].
      apply (mp_inv_same q); auto; try lia; intros; simplify_eq; done.
Qed.

Lemma mp_inv_init q :
  q_read_off q = 0 -> q_max_read_off q = 0 -> q_write_off q = 0 -> mp_inv (q, ∅).
Proof.
  intros H1 H2 H3. split; simpl; rewrite ?H1, ?H2, ?H3; try lia.
  all: intros *; rewrite lookup_empty; done.
Qed.

Lemma mp_reachable n q s :
  q_read_off q = 0 -> q_max_read_off q = 0 -> q_write_off q = 0 ->
  nsteps mpmc_step n (q, ∅) s -> Z.of_nat n < 2 ^ 64 ->
  mp_inv s /\ q_write_off s.1 <= Z.of_nat n.
Proof.
  intros H1 H2 H3. revert s. induction n as [|n IH]; intros s Hs Hn.
  - inversion Hs; subst. simpl. split; [by apply mp_inv_init|lia].
  - apply nsteps_inv_r in Hs as (s1 & Hs1 & Hst). destruct (IH s1 Hs1) as [HI HW]; [lia|].
    destruct (mp_inv_step s1 s HI Hst) as [HI' HW']; [lia|]. split; [done|lia].
Qed.

Lemma exec1_step s e s' : exec1 s e = Some s' -> mpmc_step s s'.
Proof.
  destruct s as [q ts], e as [i p|i b|i]; simpl; intros H.
  - destruct (from_option idle true (ts !! i)) eqn:E; [|done]. injection H as <-. by apply mp_call_write.
  - destruct (from_option idle true (ts !! i)) eqn:E; [|done]. injection H as <-. by apply mp_call_read.
  - destruct (ts !! i) as [t|] eqn:Ei; [|done]. destruct (tstep q t) as [[q' t']|] eqn:Et; [|done].
    injection H as <-. by eapply mp_step.
Qed.

Lemma exec_steps s l s' : exec s l = Some s' -> nsteps mpmc_step (length l) s s'.
Proof.
  revert s. induction l as [|e l IH]; intros s H; simpl in *.
  - injection H as <-. constructor.
  - destruct (exec1 s e) as [s1|] eqn:E; [|done]. econstructor; [by eapply exec1_step|]. by apply IH.
Qed.

(** ** Properties: any number of writers and readers *)

(** With any number of concurrent writers and readers, the
    slot numbers reserved and not yet published are exactly those from
    max_read_off to write_off, each held by one writer.  So packets are
    published in the order in which slots were reserved, the writer whose turn
    it is to publish always exists, and a reader only takes slot numbers that
    were published. *)
Theorem mpmc_tickets n q s :
  q_read_off q = 0 -> q_max_read_off q = 0 -> q_write_off q = 0 ->
  nsteps mpmc_step n (q, ∅) s -> Z.of_nat n < 2 ^ 64 ->
  0 <= q_read_off s.1 <= q_max_read_off s.1 /\ q_max_read_off s.1 <= q_write_off s.1 /\
  (forall x, q_max_read_off s.1 <= x < q_write_off s.1 <->
     exists i t, s.2 !! i = Some t /\ ticket t = Some x) /\
  (forall i j t u x, s.2 !! i = Some t -> s.2 !! j = Some u ->
     ticket t = Some x -> ticket u = Some x -> i = j).
Proof.
  intros H1 H2 H3 Hs Hn. destruct (mp_reachable n q s H1 H2 H3 Hs Hn) as [[Ho Hmw Hh Hr Hu _] _].
  split_and!; auto; try lia. intros x. split; [apply Hh|]. intros (i & t & Hi & Ht). by eapply Hr.
Qed.

Definition pkt (b : Z) : list Z := replicate 8 b.

(** Run thread [i] for [n] steps. *)
Definition runs (i n : nat) : list sched := replicate n (Run i).

(** Two writers get a slot; only the second has copied its packet. *)
Definition two_tickets : list sched :=
  [CallWrite 1 (pkt 1)] ++ runs 1 4 ++ [CallWrite 2 (pkt 2)] ++ runs 2 6.

Lemma mpmc_tickets_witness :
  exists s, nsteps mpmc_step 12 (demo_queue, ∅) s /\
  0 <= q_read_off s.1 <= q_max_read_off s.1 /\ q_max_read_off s.1 <= q_write_off s.1 /\
  (forall x, q_max_read_off s.1 <= x < q_write_off s.1 <->
     exists i t, s.2 !! i = Some t /\ ticket t = Some x) /\
  (forall i j t u x, s.2 !! i = Some t -> s.2 !! j = Some u ->
     ticket t = Some x -> ticket u = Some x -> i = j).
Proof.
  destruct (exec (demo_queue, ∅) two_tickets) as [s|] eqn:E; [|vm_compute in E; discriminate].
  pose proof (exec_steps _ _ _ E) as Hs. exists s. split; [exact Hs|].
  apply (mpmc_tickets 12 demo_queue s); [reflexivity|reflexivity|reflexivity|exact Hs|lia].
Defined.

(** Writer 4 loads read_off and is delayed; writers 1 and 2 fill the queue,
    reader 6 takes one packet and writer 3 fills the queue again; writer 4
    then compares its old read_off with the new write_off, and writer 5 finds
    a queue that is more than full. *)
Definition overrun : list sched :=
  [CallWrite 4 (pkt 4)] ++ runs 4 1 ++
  [CallWrite 1 (pkt 1)] ++ runs 1 7 ++
  [CallWrite 2 (pkt 2)] ++ runs 2 7 ++
  [CallRead 6 (pkt 0)] ++ runs 6 6 ++
  [CallWrite 3 (pkt 3)] ++ runs 3 7 ++
  runs 4 6 ++
  [CallWrite 5 (pkt 5)] ++ runs 5 7 ++
  [CallRead 7 (pkt 0)] ++ runs 7 6.

(** With several writers the test for a full queue can be
    passed on a full queue, because read_off and write_off are loaded
    separately and compared for equality with [pktcount - 1].  In an
    interleaving of five writers and two reads on a queue of three slots, all
    writes report success and the second read delivers the fifth packet: the
    second was overwritten before it was read. *)
Theorem writers_overrun :
  exists s, nsteps mpmc_step (length overrun) (demo_queue, ∅) s /\
  (forall i, (1 <= i <= 5)%nat -> s.2 !! i = Some (Writer (WRet 0))) /\
  s.2 !! 6%nat = Some (Reader (RRet 0 (pkt 1))) /\
  s.2 !! 7%nat = Some (Reader (RRet 0 (pkt 5))) /\
  capacity demo_queue < q_write_off s.1 - q_read_off s.1.
Proof.
  destruct (exec (demo_queue, ∅) overrun) as [s|] eqn:E; [|vm_compute in E; discriminate].
  exists s. split; [by apply exec_steps|]. vm_compute in E. injection E as <-.
  split_and!; try (vm_compute; reflexivity).
  intros i Hi. assert (i = 1 \/ i = 2 \/ i = 3 \/ i = 4 \/ i = 5)%nat as Hc by lia.
  destruct Hc as [->|[->|[->|[->| ->]]]]; vm_compute; reflexivity.
Qed.

(** Reader 4 takes slot 0 and is delayed before the copy; reader 5 takes slot
    1; the writer then reuses slot 0. *)
Definition slow_reader : list sched :=
  [CallWrite 1 (pkt 1)] ++ runs 1 7 ++
  [CallWrite 2 (pkt 2)] ++ runs 2 7 ++
  [CallRead 4 (pkt 0)] ++ runs 4 4 ++
  [CallRead 5 (pkt 0)] ++ runs 5 6 ++
  [CallWrite 3 (pkt 3)] ++ runs 3 7 ++
  [CallWrite 6 (pkt 6)] ++ runs 6 7 ++
  runs 4 2 ++
  [CallRead 7 (pkt 0)] ++ runs 7 6 ++
  [CallRead 8 (pkt 0)] ++ runs 8 6.

(** With two readers a slot can be written again while a
    reader that took it has not copied the packet yet, because read_off moves
    on before the copy.  In an interleaving with four successful writes and
    four successful reads the first packet is lost and the last is delivered
    twice. *)
Theorem readers_overrun :
  exists s, nsteps mpmc_step (length slow_reader) (demo_queue, ∅) s /\
  (forall i, i ∈ [1; 2; 3; 6]%nat -> s.2 !! i = Some (Writer (WRet 0))) /\
  s.2 !! 4%nat = Some (Reader (RRet 0 (pkt 6))) /\ s.2 !! 5%nat = Some (Reader (RRet 0 (pkt 2))) /\
  s.2 !! 7%nat = Some (Reader (RRet 0 (pkt 3))) /\ s.2 !! 8%nat = Some (Reader (RRet 0 (pkt 6))).
Proof.
  destruct (exec (demo_queue, ∅) slow_reader) as [s|] eqn:E; [|vm_compute in E; discriminate].
  exists s. split; [by apply exec_steps|]. vm_compute in E. injection E as <-.
  split_and!; try (vm_compute; reflexivity).
  intros i Hi. rewrite !elem_of_cons, elem_of_nil in Hi.
  destruct Hi as [->|[->|[->|[->|[]]]]]; vm_compute; reflexivity.
Qed.
