(* ===== verification/Channel.v ===== *)
(** * IKC channels (src/ikc/queue.c, linux.c, manycore.c, src/linux/core/mikc.c)

    Channel descriptors with their receive and send queues, packet pools,
    sending and receiving packets, and the interrupt handler that drains the
    queues.  The state of one kernel is [kern]; the memory that two kernels
    share (the queues) is [mem].  Spin locks are not part of the state: each
    operation here is one critical section or runs with interrupts disabled. *)

From Stdlib Require Import ZArith Lia.
From stdpp Require Import base tactics numbers list gmap.
From S2P Require Import Prelude Queue.
Open Scope ihk_scope.

(** enum ihk_ikc_channel_flag *)
Definition IKC_FLAG_ENABLED : Z := 1.
Definition IKC_FLAG_DESTROYING : Z := 2.
Definition IKC_FLAG_DESTROY_ACKED : Z := 4.
Definition IKC_FLAG_STATUS_MASK : Z := 7.
Definition IKC_FLAG_NO_COPY : Z := 16.
Definition IKC_NO_NOTIFY : Z := 256.
Definition IHK_IKC_MAX_PORT : Z := 512.
Definition IHK_IKC_SEND_RETRY : nat := 1000.

(** struct ihk_ikc_queue_desc; [qd_queue] is the address of the queue head,
    0 for the null pointer. *)
Record ihk_ikc_queue_desc : Type := mk_qd {
  qd_queue : Z;
  qd_cache_channel_id : Z;   (* cache.channel_id, the only field of the copy that is read *)
  qd_qrphys : Z;
  qd_qphys : Z;
  qd_intr_cpu : Z
}.

(** struct ihk_ikc_channel_desc; [c_handler] names a packet handler. *)
Record ihk_ikc_channel_desc : Type := mk_chan {
  c_remote_os : Z;
  c_remote_channel_id : Z;
  c_remote_channel_va : Z;
  c_master : Z;
  c_port : Z;
  c_channel_id : Z;
  c_recv : ihk_ikc_queue_desc;
  c_send : ihk_ikc_queue_desc;
  c_flag : Z;
  c_handler : Z;
  c_pool : list Z            (* packet_pool: addresses of free packets *)
}.

(** struct ihk_ikc_listen_param; the listen handler is named by a number, 0
    for the null pointer. *)
Record ihk_ikc_listen_param : Type := mk_listen {
  l_handler : Z;
  l_port : Z;
  l_recv_direction : bool;   (* ikc_direction == IHK_IKC_DIRECTION_RECV *)
  l_pkt_size : Z;
  l_queue_size : Z;
  l_magic : Z
}.

(** struct ihk_ikc_master_packet *)
Record ihk_ikc_master_packet : Type := mk_mpkt {
  mp_channel : Z;            (* header.channel *)
  mp_msg : Z;                (* uint32_t *)
  mp_ref : Z;                (* uint32_t *)
  mp_param : list Z          (* uint64_t [5] *)
}.

(** struct ihk_ikc_master_wait_struct *)
Record ihk_ikc_master_wait_struct : Type := mk_wait {
  ws_status : Z;
  ws_msg : Z;
  ws_ref : Z;
  ws_res : ihk_ikc_master_packet
}.

(** What a kernel asks its environment to do. *)
Inductive event : Type :=
| EvInterrupt (cpu : Z)                 (* inter-processor interrupt to a remote CPU *)
| EvMap (phys size : Z)
| EvUnmapVirtual (virt size : Z)
| EvUnmapMemory (phys size : Z)
| EvFreePages (addr order : Z)          (* 2^order pages *)
| EvFreeNPages (addr n : Z)
| EvRegisterHandler
| EvUnregisterHandler
| EvWake (ws : Z).

(** The IKC part of struct ihk_host_linux_os_data with the kernel heap it
    uses.  Linux has one list of channels for each kernel (linux.c); a
    co-kernel has one for each of its CPUs (manycore.c), and [k_channels] is
    then the list of the CPU that runs the operation. *)
Record kern : Type := mk_kern {
  k_chans : gmap Z ihk_ikc_channel_desc;
  k_pkts : gmap Z (list Z);
  k_channels : list Z;                  (* ikc_channels *)
  k_mchannel : Z;                       (* mchannel *)
  k_regular : list Z;                   (* regular_channels [num_possible_cpus()] *)
  k_listeners : list (option ihk_ikc_listen_param);
  k_channel_id : Z;                     (* last channel id *)
  k_wait : list (Z * ihk_ikc_master_wait_struct);
  k_events : list event
}.

(** Memory shared by the kernels, and the next address an allocator returns. *)
Record mem : Type := mk_mem {
  m_queues : gmap Z ihk_ikc_queue_head;
  m_brk : Z
}.

Definition world : Type := (kern * mem)%type.

(** ** Field updates *)

Definition set_chans (k : kern) v := mk_kern v (k_pkts k) (k_channels k) (k_mchannel k) (k_regular k) (k_listeners k) (k_channel_id k) (k_wait k) (k_events k).
Definition set_pkts (k : kern) v := mk_kern (k_chans k) v (k_channels k) (k_mchannel k) (k_regular k) (k_listeners k) (k_channel_id k) (k_wait k) (k_events k).
Definition set_channels (k : kern) v := mk_kern (k_chans k) (k_pkts k) v (k_mchannel k) (k_regular k) (k_listeners k) (k_channel_id k) (k_wait k) (k_events k).
Definition set_mchannel (k : kern) v := mk_kern (k_chans k) (k_pkts k) (k_channels k) v (k_regular k) (k_listeners k) (k_channel_id k) (k_wait k) (k_events k).
Definition set_regular (k : kern) v := mk_kern (k_chans k) (k_pkts k) (k_channels k) (k_mchannel k) v (k_listeners k) (k_channel_id k) (k_wait k) (k_events k).
Definition set_listeners (k : kern) v := mk_kern (k_chans k) (k_pkts k) (k_channels k) (k_mchannel k) (k_regular k) v (k_channel_id k) (k_wait k) (k_events k).
Definition set_last_id (k : kern) v := mk_kern (k_chans k) (k_pkts k) (k_channels k) (k_mchannel k) (k_regular k) (k_listeners k) v (k_wait k) (k_events k).
Definition set_wait (k : kern) v := mk_kern (k_chans k) (k_pkts k) (k_channels k) (k_mchannel k) (k_regular k) (k_listeners k) (k_channel_id k) v (k_events k).
Definition set_events (k : kern) v := mk_kern (k_chans k) (k_pkts k) (k_channels k) (k_mchannel k) (k_regular k) (k_listeners k) (k_channel_id k) (k_wait k) v.

Definition c_set_flag (c : ihk_ikc_channel_desc) v := mk_chan (c_remote_os c) (c_remote_channel_id c) (c_remote_channel_va c) (c_master c) (c_port c) (c_channel_id c) (c_recv c) (c_send c) v (c_handler c) (c_pool c).
Definition c_set_pool (c : ihk_ikc_channel_desc) v := mk_chan (c_remote_os c) (c_remote_channel_id c) (c_remote_channel_va c) (c_master c) (c_port c) (c_channel_id c) (c_recv c) (c_send c) (c_flag c) (c_handler c) v.
Definition c_set_recv (c : ihk_ikc_channel_desc) v := mk_chan (c_remote_os c) (c_remote_channel_id c) (c_remote_channel_va c) (c_master c) (c_port c) (c_channel_id c) v (c_send c) (c_flag c) (c_handler c) (c_pool c).
Definition c_set_send (c : ihk_ikc_channel_desc) v := mk_chan (c_remote_os c) (c_remote_channel_id c) (c_remote_channel_va c) (c_master c) (c_port c) (c_channel_id c) (c_recv c) v (c_flag c) (c_handler c) (c_pool c).
Definition c_set_handler (c : ihk_ikc_channel_desc) v := mk_chan (c_remote_os c) (c_remote_channel_id c) (c_remote_channel_va c) (c_master c) (c_port c) (c_channel_id c) (c_recv c) (c_send c) (c_flag c) v (c_pool c).
Definition c_set_remote (c : ihk_ikc_channel_desc) (id va : Z) := mk_chan (c_remote_os c) id va (c_master c) (c_port c) (c_channel_id c) (c_recv c) (c_send c) (c_flag c) (c_handler c) (c_pool c).
Definition qd_set_intr_cpu (d : ihk_ikc_queue_desc) v := mk_qd (qd_queue d) (qd_cache_channel_id d) (qd_qrphys d) (qd_qphys d) v.

(** ** Memory access: undefined through a null or dangling pointer *)

Definition get_chan (a : Z) : io world ihk_ikc_channel_desc :=
  o <- io_gets (fun w => k_chans w.1 !! a) ;; io_some o.
Definition put_chan (a : Z) (c : ihk_ikc_channel_desc) : io world unit :=
  io_modify (fun w => (set_chans w.1 (<[a := c]> (k_chans w.1)), w.2)).
Definition upd_chan (a : Z) (f : ihk_ikc_channel_desc -> ihk_ikc_channel_desc) : io world unit :=
  c <- get_chan a ;; put_chan a (f c).
Definition get_queue (a : Z) : io world ihk_ikc_queue_head :=
  o <- io_gets (fun w => m_queues w.2 !! a) ;; io_some o.
Definition put_queue (a : Z) (q : ihk_ikc_queue_head) : io world unit :=
  io_modify (fun w => (w.1, mk_mem (<[a := q]> (m_queues w.2)) (m_brk w.2))).
Definition upd_queue (a : Z) (f : ihk_ikc_queue_head -> ihk_ikc_queue_head) : io world unit :=
  q <- get_queue a ;; put_queue a (f q).
Definition get_pkt (a : Z) : io world (list Z) :=
  o <- io_gets (fun w => k_pkts w.1 !! a) ;; io_some o.
Definition put_pkt (a : Z) (p : list Z) : io world unit :=
  io_modify (fun w => (set_pkts w.1 (<[a := p]> (k_pkts w.1)), w.2)).
Definition emit (e : event) : io world unit :=
  io_modify (fun w => (set_events w.1 (k_events w.1 ++ [e]), w.2)).
Definition new_addr : io world Z :=
  fun w => Ret (m_brk w.2, (w.1, mk_mem (m_queues w.2) (m_brk w.2 + 1))).

(** ** Master packets in memory: header, msg, ref and five parameters *)

Definition MASTER_IKCQ_PKTSIZE : Z := 56.

Definition encode_mpkt (p : ihk_ikc_master_packet) : list Z :=
  le_bytes 8 (mp_channel p) ++ le_bytes 4 (mp_msg p) ++ le_bytes 4 (mp_ref p) ++
  concat (le_bytes 8 <$> mp_param p).
Definition decode_mpkt (b : list Z) : ihk_ikc_master_packet :=
  mk_mpkt (le_value (segment b 0 8)) (le_value (segment b 8 4)) (le_value (segment b 12 4))
    [le_value (segment b 16 8); le_value (segment b 24 8); le_value (segment b 32 8);
     le_value (segment b 40 8); le_value (segment b 48 8)].

(** ((struct ihk_ikc_packet_header * )p)->channel *)
Definition pkt_channel (b : list Z) : Z := le_value (segment b 0 8).
Definition pkt_set_channel (b : list Z) (c : Z) : list Z := splice b 0 (le_bytes 8 c).

(** ** Environment and platform *)

(** The environment of one kernel. *)
Class Env : Type := {
  this_cpu : Z;                      (* ihk_ikc_get_processor_id() *)
  smp_cpu : Z;                       (* smp_processor_id() *)
  map_memory : Z -> Z;               (* remote physical to local physical address *)
  map_virtual : Z -> Z;              (* physical address to pointer *)
  virt_to_phys : Z -> Z;
  malloc_ok : Z -> Z -> bool;        (* does the allocation (address, size) succeed? *)
  uninit : Z -> nat -> Z;            (* bytes found in fresh memory *)
  sizeof_chan : Z                    (* sizeof(struct ihk_ikc_channel_desc) *)
}.

(** What IKC takes from its platform layer: src/ikc/linux.c with
    src/linux/core/mikc.c on the host, src/ikc/manycore.c on the co-kernel. *)
Class Platform : Type := {
  ihk_ikc_alloc_queue : Z -> io world Z;
  ihk_ikc_free_queue : Z -> io world unit;
  ihk_ikc_get_regular_channel : Z -> io world Z;
  ihk_ikc_set_regular_channel : Z -> Z -> io world unit;
  ihk_ikc_send : Z -> option (list Z) -> Z -> io world Z
}.

(** ** Operations of src/ikc/queue.c *)

Section Ops.
Context `{Env} `{Platform}.

Definition fresh_buf (a n : Z) : list Z := uninit a <$> seq 0 (Z.to_nat n).

(** ihk_ikc_malloc (kmalloc): 0 on failure. *)
Definition ihk_ikc_malloc (size : Z) : io world Z :=
  a <- new_addr ;;
  io_ret (if malloc_ok a size then a else 0).

(** ihk_os_get_unique_channel_id *)
Definition ihk_os_get_unique_channel_id : io world Z :=
  id <- io_gets (fun w => s32 (k_channel_id w.1 + 1)) ;;
  io_modify (fun w => (set_last_id w.1 id, w.2)) ;;;
  io_ret id.

(** ihk_ikc_get_master_channel *)
Definition ihk_ikc_get_master_channel : io world Z := io_gets (fun w => k_mchannel w.1).

(** ihk_ikc_init_desc *)
Definition ihk_ikc_init_desc (a ros port rq wq handler master : Z) : io world unit :=
  c <- get_chan a ;;
  id <- ihk_os_get_unique_channel_id ;;
  rcache <- (if rq =? 0 then io_ret (qd_cache_channel_id (c_recv c)) else
               upd_queue rq (fun q => set_channel_id q (u32 id)) ;;;
               upd_queue rq (fun q => set_read_cpu q (u32 this_cpu)) ;;;
               q <- get_queue rq ;; io_ret (q_channel_id q)) ;;
  (* remote_channel_id is taken from the cache before the cache is filled *)
  let rid := if wq =? 0 then c_remote_channel_id c else s32 (qd_cache_channel_id (c_send c)) in
  wcache <- (if wq =? 0 then io_ret (qd_cache_channel_id (c_send c)) else
               upd_queue wq (fun q => set_write_cpu q (u32 this_cpu)) ;;;
               q <- get_queue wq ;; io_ret (q_channel_id q)) ;;
  put_chan a
    (mk_chan ros rid (c_remote_channel_va c) master port id
       (mk_qd rq rcache (qd_qrphys (c_recv c)) (qd_qphys (c_recv c)) (qd_intr_cpu (c_recv c)))
       (mk_qd wq wcache (qd_qrphys (c_send c)) (qd_qphys (c_send c)) (qd_intr_cpu (c_send c)))
       (c_flag c) handler []) ;;;
  io_modify (fun w => (set_channels w.1 (k_channels w.1 ++ [a]), w.2)).

(** ihk_ikc_alloc_packet: the first packet of the pool, or a new one (the
    allocation is retried until it succeeds). *)
Definition ihk_ikc_alloc_packet (a : Z) : io world Z :=
  c <- get_chan a ;;
  match c_pool c with
  | p :: rest => put_chan a (c_set_pool c rest) ;;; io_ret p
  | [] =>
      q <- get_queue (qd_queue (c_recv c)) ;;
      p <- new_addr ;;
      put_pkt p (fresh_buf p (q_pktsize q)) ;;;
      io_ret p
  end.

(** ihk_ikc_free of a packet. *)
Definition ihk_ikc_free_packet (p : Z) : io world unit :=
  get_pkt p ;;;
  io_modify (fun w => (set_pkts w.1 (delete p (k_pkts w.1)), w.2)).

(** sizeof(struct ihk_ikc_free_packet): the list node lies behind the header. *)
Definition sizeof_free_packet : Z := 24.

(** ihk_ikc_release_packet: the packet goes back to the pool of the channel
    named in its header. *)
Definition ihk_ikc_release_packet (p : Z) : io world unit :=
  if p =? 0 then io_ret tt else
  b <- get_pkt p ;;
  let ca := pkt_channel b in
  if ca =? 0 then ihk_ikc_free_packet p else
    c <- get_chan ca ;;
    if Z.of_nat (length b) <? sizeof_free_packet then io_undef else
    put_chan ca (c_set_pool c (c_pool c ++ [p])).

(** ihk_ikc_channel_set_cpu *)
Definition ihk_ikc_channel_set_cpu (a cpu : Z) : io world unit :=
  c <- get_chan a ;;
  upd_queue (qd_queue (c_recv c)) (fun q => set_read_cpu q (u32 cpu)) ;;;
  upd_queue (qd_queue (c_send c)) (fun q => set_write_cpu q (u32 cpu)).

Definition pages_of (qsize : Z) : Z := s32 (Z.shiftr (u64 (qsize + PAGE_SIZE - 1)) PAGE_SHIFT).

(** ihk_ikc_set_remote_queue, applied to the send queue of channel [a]. *)
Definition ihk_ikc_set_remote_queue (a rphys qsize : Z) : io world Z :=
  let qpages := pages_of qsize in
  let qphys := map_memory rphys in
  emit (EvMap rphys (u64 (qpages * PAGE_SIZE))) ;;;
  let virt := map_virtual qphys in
  q <- get_queue virt ;;
  upd_chan a (fun c => c_set_send c
    (mk_qd virt (q_channel_id q) rphys qphys (qd_intr_cpu (c_send c)))) ;;;
  io_ret 0.

(** A zeroed descriptor (memset) with its flag. *)
Definition zero_qd : ihk_ikc_queue_desc := mk_qd 0 0 0 0 0.
Definition zero_chan (flag : Z) : ihk_ikc_channel_desc := mk_chan 0 0 0 0 0 0 zero_qd zero_qd flag 0 [].

(** ihk_ikc_free of a descriptor. *)
Definition ihk_ikc_free_desc (a : Z) : io world unit :=
  io_modify (fun w => (set_chans w.1 (delete a (k_chans w.1)), w.2)).

(** Mapping of a remote queue: its local physical address and its address. *)
Definition map_queue (rphys qpages : Z) : io world (Z * Z) :=
  emit (EvMap rphys (u64 (qpages * PAGE_SIZE))) ;;;
  io_ret (map_memory rphys, map_virtual (map_memory rphys)).

(** ihk_ikc_create_channel: the descriptor (0 for null) and the value of
    *rq on return. *)
Definition ihk_ikc_create_channel (os port packet_size qsize rq sq flag : Z) : io world (Z * Z) :=
  let qpages := pages_of qsize in
  desc <- ihk_ikc_malloc (s32 (sizeof_chan + packet_size)) ;;
  if desc =? 0 then io_ret (0, rq) else
  put_chan desc (zero_chan flag) ;;;
  recv <-
    (if rq =? 0 then
       recvq <- ihk_ikc_alloc_queue qpages ;;
       if recvq =? 0 then io_ret None else
       q <- get_queue recvq ;;
       '(_, q') <- io_lift (ihk_ikc_init_queue (Some q) 1 port (s32 (PAGE_SIZE * qpages)) packet_size) ;;
       q' <- io_some q' ;;
       put_queue recvq q' ;;;
       io_ret (Some (recvq, virt_to_phys recvq, mk_qd 0 0 0 (virt_to_phys recvq) 0))
     else
       '(phys, recvq) <- map_queue rq qpages ;;
       io_ret (Some (recvq, rq, mk_qd 0 0 rq phys 0))) ;;
  match recv with
  | None => ihk_ikc_free_desc desc ;;; io_ret (0, rq)
  | Some (recvq, rq', rd) =>
  upd_chan desc (fun c => c_set_recv c rd) ;;;
  sendq <-
    (if sq =? 0 then io_ret 0 else
       '(phys, sendq) <- map_queue sq qpages ;;
       upd_chan desc (fun c => c_set_send c (mk_qd 0 0 sq phys 0)) ;;;
       io_ret sendq) ;;
  m <- ihk_ikc_get_master_channel ;;
  ihk_ikc_init_desc desc os port recvq sendq 0 m ;;;
  io_ret (desc, rq')
  end.

(** Give back the queue of a descriptor being freed. *)
Definition free_qd (d : ihk_ikc_queue_desc) : io world unit :=
  if qd_queue d =? 0 then io_ret tt else
  q <- get_queue (qd_queue d) ;;
  let qpages := s32 (Z.shiftr (u64 (q_queue_size q + sizeof_queue_head + PAGE_SIZE - 1)) PAGE_SHIFT) in
  if qd_qrphys d =? 0 then ihk_ikc_free_queue (qd_queue d) else
  emit (EvUnmapVirtual (qd_queue d) qpages) ;;;
  emit (EvUnmapMemory (qd_qphys d) qpages).

(** ihk_ikc_free_channel *)
Definition ihk_ikc_free_channel (a : Z) : io world unit :=
  c <- get_chan a ;;
  io_modify (fun w => (set_channels w.1 (filter (fun x => x <> a) (k_channels w.1)), w.2)) ;;;
  io_iter ihk_ikc_free_packet (c_pool c) ;;;
  put_chan a (c_set_pool c []) ;;;
  free_qd (c_recv c) ;;;
  free_qd (c_send c) ;;;
  ihk_ikc_free_desc a.

(** ihk_ikc_channel_enabled *)
Definition ihk_ikc_channel_enabled (c : ihk_ikc_channel_desc) : bool :=
  Z.land (c_flag c) IKC_FLAG_STATUS_MASK =? IKC_FLAG_ENABLED.

(** ihk_ikc_send_interrupt, ihk_ikc_notify_remote_read / _write *)
Definition ihk_ikc_send_interrupt (a : Z) : io world unit :=
  c <- get_chan a ;;
  q <- get_queue (qd_queue (c_send c)) ;;
  emit (EvInterrupt (s32 (q_read_cpu q))).

(** The queue behind a pointer that may be null. *)
Definition queue_ptr (a : Z) : io world (option ihk_ikc_queue_head) :=
  if a =? 0 then io_ret None else q <- get_queue a ;; io_ret (Some q).
Definition store_queue (a : Z) (q : option ihk_ikc_queue_head) : io world unit :=
  match q with Some q => put_queue a q | None => io_ret tt end.

(** ihk_ikc_recv *)
Definition ihk_ikc_recv (a p opt : Z) : io world Z :=
  if (a =? 0) || (p =? 0) then io_ret (- EINVAL) else
  c <- get_chan a ;;
  if ihk_ikc_channel_enabled c then
    b <- get_pkt p ;;
    q <- queue_ptr (qd_queue (c_recv c)) ;;
    '(r, q', b') <- io_lift (ihk_ikc_read_queue q (Some b)) ;;
    store_queue (qd_queue (c_recv c)) q' ;;;
    b' <- io_some b' ;;
    (if r =? 0 then
       if Z.of_nat (length b') <? 8 then io_undef else put_pkt p (pkt_set_channel b' a)
     else io_ret tt) ;;;
    (if Z.land opt IKC_NO_NOTIFY =? 0 then ihk_ikc_send_interrupt a else io_ret tt) ;;;
    io_ret r
  else io_ret (- EINVAL).

(** ihk_ikc_recv_handler: [h] is the packet handler. *)
Definition ihk_ikc_recv_handler (a : Z) (h : Z -> Z -> io world Z) (opt : Z) : io world Z :=
  if a =? 0 then io_ret (- EINVAL) else
  p <- ihk_ikc_alloc_packet a ;;
  r <- ihk_ikc_recv a p (Z.lor opt IKC_NO_NOTIFY) ;;
  if negb (r =? 0) then
    ihk_ikc_release_packet p ;;;
    io_ret r
  else
    h a p ;;;
    c <- get_chan a ;;
    (if Z.land (c_flag c) IKC_FLAG_NO_COPY =? 0 then io_ret tt else ihk_ikc_send_interrupt a) ;;;
    io_ret r.

Definition ihk_ikc_enable_channel (a : Z) : io world unit :=
  upd_chan a (fun c => c_set_flag c (Z.lor (c_flag c) IKC_FLAG_ENABLED)).
Definition ihk_ikc_disable_channel (a : Z) : io world unit :=
  upd_chan a (fun c => c_set_flag c (Z.ldiff (c_flag c) IKC_FLAG_ENABLED)).

(** The list walk of ihk_ikc_find_channel. *)
Fixpoint find_in (l : list Z) (id : Z) : io world Z :=
  match l with
  | [] => io_ret 0
  | a :: l' => c <- get_chan a ;; if c_channel_id c =? id then io_ret a else find_in l' id
  end.
Definition ihk_ikc_find_channel (id : Z) : io world Z :=
  l <- io_gets (fun w => k_channels w.1) ;; find_in l id.

End Ops.

(** ** The Linux platform: src/ikc/linux.c, src/linux/core/mikc.c *)

Section Linux.
Context `{Env}.

(** ihk_ikc_alloc_queue (linux.c): __get_free_pages of order fls(qpages) - 1. *)
Definition alloc_queue_linux (qpages : Z) : io world Z :=
  let order := fls qpages - 1 in
  a <- new_addr ;;
  if (0 <=? order) && malloc_ok a (PAGE_SIZE * 2 ^ order) then
    put_queue a (mk_queue 0 0 0 0 0 0 0 0 0 0 0 0
                   (fresh_buf a (PAGE_SIZE * 2 ^ order - sizeof_queue_head))) ;;;
    io_ret a
  else io_ret 0.

(** ihk_ikc_free_queue (linux.c) *)
Definition free_queue_linux (a : Z) : io world unit :=
  q <- get_queue a ;;
  let qpages := s32 (Z.shiftr (u64 (q_queue_size q + PAGE_SIZE - 1)) PAGE_SHIFT) in
  let order := fls qpages - 1 in
  io_modify (fun w => (w.1, mk_mem (delete a (m_queues w.2)) (m_brk w.2))) ;;;
  emit (EvFreePages a order).

(** ihk_os_get_regular_channel: no check of [cpu]. *)
Definition ihk_os_get_regular_channel (cpu : Z) : io world Z :=
  l <- io_gets (fun w => k_regular w.1) ;; io_lift (aget l cpu).

(** ihk_os_set_regular_channel; num_possible_cpus() is the length of the
    array. *)
Definition ihk_os_set_regular_channel (c cpu : Z) : io world unit :=
  l <- io_gets (fun w => k_regular w.1) ;;
  if (cpu <? 0) || (Z.of_nat (length l) <? cpu) then io_ret tt else
  l' <- io_lift (aset l cpu c) ;;
  io_modify (fun w => (set_regular w.1 l', w.2)).

(** The retry loop of ihk_ikc_send of linux.c. *)
Fixpoint send_retry (attempts : nat) (a : Z) (p : list Z) (opt : Z) : io world Z :=
  c <- get_chan a ;;
  if ihk_ikc_channel_enabled c then
    q <- queue_ptr (qd_queue (c_send c)) ;;
    '(r, q') <- io_lift (ihk_ikc_write_queue q (Some p)) ;;
    store_queue (qd_queue (c_send c)) q' ;;;
    if negb (r =? 0) then
      match attempts with
      | O => io_ret (- EBUSY)
      | S n => send_retry n a p opt
      end
    else
      (if Z.land opt IKC_NO_NOTIFY =? 0 then ihk_ikc_send_interrupt a else io_ret tt) ;;;
      io_ret r
  else io_ret (- EINVAL).

(** ihk_ikc_send (linux.c): the packet is [None] when the pointer is null. *)
Definition send_linux (a : Z) (p : option (list Z)) (opt : Z) : io world Z :=
  match p with
  | None => io_ret (- EINVAL)
  | Some p => if a =? 0 then io_ret (- EINVAL) else send_retry IHK_IKC_SEND_RETRY a p opt
  end.

#[export] Instance Linux : Platform := {
  ihk_ikc_alloc_queue := alloc_queue_linux;
  ihk_ikc_free_queue := free_queue_linux;
  ihk_ikc_get_regular_channel := ihk_os_get_regular_channel;
  ihk_ikc_set_regular_channel := ihk_os_set_regular_channel;
  ihk_ikc_send := send_linux
}.

(** Packet handlers by name: what a handler does to the state. *)
Context (handler_sem : Z -> Z -> Z -> io world Z).

(** while (enabled && !empty) ihk_ikc_recv_handler(...); [false] when the
    loop has not ended after [n] packets. *)
Fixpoint drain (n : nat) (a : Z) : io world bool :=
  c <- get_chan a ;;
  if negb (ihk_ikc_channel_enabled c) then io_ret true else
  q <- queue_ptr (qd_queue (c_recv c)) ;;
  if negb (ihk_ikc_queue_is_empty q =? 0) then io_ret true else
  match n with
  | O => io_ret false
  | S n' => ihk_ikc_recv_handler a (handler_sem (c_handler c)) 0 ;;; drain n' a
  end.

(** __ihk_ikc_reception_handler *)
Definition ihk_ikc_reception_handler (n : nat) : io world bool :=
  ok <- (if smp_cpu =? 0 then
           m <- ihk_ikc_get_master_channel ;;
           if m =? 0 then io_ret true else drain n m
         else io_ret true) ;;
  if negb ok then io_ret false else
  r <- ihk_os_get_regular_channel smp_cpu ;;
  if r =? 0 then io_ret true else drain n r.
End Linux.

(** ** The co-kernel platform: src/ikc/manycore.c *)

Section Manycore.
Context `{Env}.

(** ihk_ikc_alloc_queue (manycore.c): ihk_mc_alloc_pages(qpages). *)
Definition alloc_queue_mc (qpages : Z) : io world Z :=
  a <- new_addr ;;
  if malloc_ok a (PAGE_SIZE * qpages) then
    put_queue a (mk_queue 0 0 0 0 0 0 0 0 0 0 0 0
                   (fresh_buf a (PAGE_SIZE * qpages - sizeof_queue_head))) ;;;
    io_ret a
  else io_ret 0.

(** ihk_ikc_free_queue (manycore.c): gives back a number of pages. *)
Definition free_queue_mc (a : Z) : io world unit :=
  q <- get_queue a ;;
  let npages := Z.shiftr (u64 (sizeof_queue_head + q_queue_size q + PAGE_SIZE - 1)) PAGE_SHIFT in
  io_modify (fun w => (w.1, mk_mem (delete a (m_queues w.2)) (m_brk w.2))) ;;;
  emit (EvFreeNPages a (s32 npages)).

(** ihk_ikc_get_regular_channel; num_processors is the length of the array. *)
Definition get_regular_channel_mc (cpu : Z) : io world Z :=
  l <- io_gets (fun w => k_regular w.1) ;;
  if (cpu <? 0) || (Z.of_nat (length l) <=? cpu) then io_ret 0 else io_lift (aget l cpu).

(** ihk_ikc_set_regular_channel (manycore.c) *)
Definition set_regular_channel_mc (c cpu : Z) : io world unit :=
  l <- io_gets (fun w => k_regular w.1) ;;
  if (0 <=? cpu) && (cpu <? Z.of_nat (length l)) then
    l' <- io_lift (aset l cpu c) ;;
    io_modify (fun w => (set_regular w.1 l', w.2))
  else io_ret tt.

(** ihk_ikc_send (manycore.c) retries for ever: when the queue cannot take
    the packet and no other CPU runs, the call does not return. *)
Definition send_mc (a : Z) (p : option (list Z)) (opt : Z) : io world Z :=
  match p with
  | None => io_ret (- EINVAL)
  | Some p =>
      if a =? 0 then io_ret (- EINVAL) else
      c <- get_chan a ;;
      if ihk_ikc_channel_enabled c then
        q <- queue_ptr (qd_queue (c_send c)) ;;
        '(r, q') <- io_lift (ihk_ikc_write_queue q (Some p)) ;;
        store_queue (qd_queue (c_send c)) q' ;;;
        if negb (r =? 0) then io_undef else
        (if Z.land opt IKC_NO_NOTIFY =? 0 then ihk_ikc_send_interrupt a else io_ret tt) ;;;
        io_ret r
      else io_ret (- EINVAL)
  end.

Definition Manycore : Platform := {|
  ihk_ikc_alloc_queue := alloc_queue_mc;
  ihk_ikc_free_queue := free_queue_mc;
  ihk_ikc_get_regular_channel := get_regular_channel_mc;
  ihk_ikc_set_regular_channel := set_regular_channel_mc;
  ihk_ikc_send := send_mc
|}.

Context (handler_sem : Z -> Z -> Z -> io world Z).

(** The receive loops of the interrupt handler: a packet is taken only on the
    CPU that the queue names. *)
Fixpoint drain_mc (n : nat) (a : Z) : io world bool :=
  c <- get_chan a ;;
  if negb (ihk_ikc_channel_enabled c) then io_ret true else
  q <- queue_ptr (qd_queue (c_recv c)) ;;
  if negb (ihk_ikc_queue_is_empty q =? 0) then io_ret true else
  q <- get_queue (qd_queue (c_recv c)) ;;
  if negb (q_read_cpu q =? u32 this_cpu) then io_ret true else
  match n with
  | O => io_ret false
  | S n' => ihk_ikc_recv_handler a (handler_sem (c_handler c)) 0 ;;; drain_mc n' a
  end.

(** ihk_ikc_interrupt_handler (manycore.c), without the call of
    smp_func_call_handler, which is McKernel code. *)
Definition ihk_ikc_interrupt_handler_mc (n : nat) : io world bool :=
  ok <- (if this_cpu =? 0 then
           m <- ihk_ikc_get_master_channel ;;
           if m =? 0 then io_ret true else drain_mc n m
         else io_ret true) ;;
  if negb ok then io_ret false else
  r <- get_regular_channel_mc this_cpu ;;
  if r =? 0 then io_ret true else drain_mc n r.
End Manycore.

(** ** Evaluating runs *)

Ltac io_eval :=
  cbv beta iota delta [io_bind io_ret io_gets io_modify io_lift io_some io_undef
    get_chan put_chan upd_chan get_queue put_queue upd_queue get_pkt put_pkt emit new_addr
    queue_ptr store_queue mbind outcome_bind];
  cbn [fst snd
    k_chans k_pkts k_channels k_mchannel k_regular k_listeners k_channel_id k_wait k_events
    set_chans set_pkts set_channels set_mchannel set_regular set_listeners set_last_id set_wait set_events
    m_queues m_brk].

Lemma insert_same_world (k : kern) (m : mem) (a : Z) (q : ihk_ikc_queue_head) :
  m_queues m !! a = Some q -> (k, mk_mem (<[a := q]> (m_queues m)) (m_brk m)) = (k, m).
Proof. intros H. destruct m as [qs b]. simpl in *. by rewrite insert_id. Qed.

(** The queue operations leave the routing information of the head alone. *)
Lemma write_queue_cpu q p r q' :
  ihk_ikc_write_queue (Some q) (Some p) = Ret (r, Some q') ->
  q_read_cpu q' = q_read_cpu q /\ q_channel_id q' = q_channel_id q.
Proof.
  unfold ihk_ikc_write_queue. intros H.
  destruct (write_retry IHK_IKC_WRITE_QUEUE_RETRY q p) as [[r1 q1]|] eqn:E; [|done].
  simpl in H. injection H as -> ->. revert E. generalize IHK_IKC_WRITE_QUEUE_RETRY as n.
  induction n as [|n IH]; cbn [write_retry]; destruct (full_test _ _ _);
    try (intros [= <- <-]; done); auto.
  all: destruct (slot_off _ _) as [off|]; [|done]; cbn [mbind outcome_bind];
    destruct (memcpyl _ _ _ _ _) as [d|]; [|done]; cbn [mbind outcome_bind];
    destruct (_ =? _); [|done]; intros [= <- <-]; done.
Qed.

Lemma read_queue_cpu q b r q' b' :
  ihk_ikc_read_queue (Some q) (Some b) = Ret (r, Some q', b') -> q_read_cpu q' = q_read_cpu q.
Proof.
  unfold ihk_ikc_read_queue. destruct (_ =? _); [by intros [= <- <- <-]|].
  destruct (slot_off _ _) as [off|]; [|done]. cbn [mbind outcome_bind].
  destruct (memcpyl _ _ _ _ _) as [d|]; [|done]. by intros [= <- <- <-].
Qed.

Definition same_shape (q q' : ihk_ikc_queue_head) : Prop :=
  q_pktcount q' = q_pktcount q /\ q_pktsize q' = q_pktsize q /\ q_read_cpu q' = q_read_cpu q.

(** A channel whose send (or receive) queue is the queue at [qa]. *)
Record sends_on (k : kern) (a qa : Z) : Prop := {
  so_ptr : a <> 0 /\ qa <> 0;
  so_chan : exists c, k_chans k !! a = Some c /\ ihk_ikc_channel_enabled c = true /\
            qd_queue (c_send c) = qa
}.
Record receives_on (k : kern) (a qa : Z) : Prop := {
  ro_ptr : a <> 0 /\ qa <> 0;
  ro_chan : exists c, k_chans k !! a = Some c /\ ihk_ikc_channel_enabled c = true /\
            qd_queue (c_recv c) = qa
}.

Definition notified (k : kern) (q : ihk_ikc_queue_head) (opt : Z) : kern :=
  if Z.land opt IKC_NO_NOTIFY =? 0
  then set_events k (k_events k ++ [EvInterrupt (s32 (q_read_cpu q))]) else k.

Section Send.
Context `{Env}.

Lemma send_retry_full n k m a qa q p opt :
  sends_on k a qa -> m_queues m !! qa = Some q ->
  full_test q (q_read_off q) (q_write_off q) = true ->
  send_retry n a p opt (k, m) = Ret (- EBUSY, (k, m)).
Proof.
  intros [[Ha Hqa] (c & Hc & Hen & Hq)] Hm Hfull.
  induction n as [|n IH]; cbn [send_retry]; io_eval; rewrite Hc; io_eval; rewrite Hen, Hq;
    rewrite (proj2 (Z.eqb_neq _ _) Hqa); io_eval; rewrite Hm; io_eval;
    unfold ihk_ikc_write_queue; rewrite write_full by done; io_eval;
    rewrite insert_same_world by done; cbn [negb]; [done | exact IH].
Qed.

Lemma send_retry_room n k m a qa q p opt :
  sends_on k a qa -> m_queues m !! qa = Some q -> queue_wf q -> q_write_off q + 1 < 2 ^ 64 ->
  q_pktsize q <= Z.of_nat (length p) -> full_test q (q_read_off q) (q_write_off q) = false ->
  exists q', send_retry n a p opt (k, m) =
    Ret (0, (notified k q opt, mk_mem (<[qa := q']> (m_queues m)) (m_brk m))) /\
  queue_wf q' /\ q_write_off q' = q_write_off q + 1 /\ same_shape q q' /\
  contents q' = contents q ++ [segment p 0 (q_pktsize q)].
Proof.
  intros [[Ha Hqa] (c & Hc & Hen & Hq)] Hm W H64 Hp Hfull.
  destruct (write_room q p W H64 Hp Hfull) as (q' & Hw & W' & Hoff & Hcnt & Hsz & Hcont).
  destruct (write_queue_cpu _ _ _ _ Hw) as [Hcpu _].
  exists q'. split; [|unfold same_shape; tauto]. unfold notified.
  destruct n; cbn [send_retry]; io_eval; rewrite Hc; io_eval; rewrite Hen, Hq;
    rewrite (proj2 (Z.eqb_neq _ _) Hqa); io_eval; rewrite Hm; io_eval; rewrite Hw; io_eval;
    rewrite Z.eqb_refl; cbn [negb]; destruct (Z.land opt IKC_NO_NOTIFY =? 0); io_eval; auto;
    unfold ihk_ikc_send_interrupt; io_eval; rewrite Hc; io_eval; rewrite Hq, lookup_insert_eq; io_eval;
    by rewrite Hcpu.
Qed.

(** The packet read, with the header field set. *)
Lemma recv_some k m a pa qa q buf opt :
  receives_on k a qa -> m_queues m !! qa = Some q -> queue_wf q -> 
  pa <> 0 -> k_pkts k !! pa = Some buf -> Z.of_nat (length buf) = q_pktsize q ->
  q_read_off q < q_max_read_off q -> Z.land opt IKC_NO_NOTIFY <> 0 ->
  exists q', ihk_ikc_recv a pa opt (k, m) =
    Ret (0, (set_pkts k (<[pa := pkt_set_channel (slot q (q_read_off q)) a]> (k_pkts k)),
             mk_mem (<[qa := q']> (m_queues m)) (m_brk m))) /\
  queue_wf q' /\ q_write_off q' = q_write_off q /\ same_shape q q' /\
  contents q = slot q (q_read_off q) :: contents q'.
Proof.
  intros [[Ha Hqa] (c & Hc & Hen & Hq)] Hm W Hpa Hk Hlen Hne Hopt.
  destruct (read_some q buf W ltac:(lia) Hne) as (q' & Hr & W' & Hoff & Hcnt & Hsz & Hcont).
  pose proof (qw_geom q W) as G. pose proof (geom_long q G). pose proof (g_size q G).
  pose proof (slot_range q (q_read_off q) G). pose proof (g_data q G).
  assert (length (slot q (q_read_off q)) = Z.to_nat (q_pktsize q)) as Hsl
    by (apply length_segment; lia).
  rewrite drop_ge, app_nil_r in Hr by lia.
  pose proof (read_queue_cpu _ _ _ _ _ Hr) as Hcpu.
  exists q'. split; [|unfold same_shape; tauto]. unfold ihk_ikc_recv.
  rewrite (proj2 (Z.eqb_neq _ _) Ha), (proj2 (Z.eqb_neq _ _) Hpa). cbn [orb]. io_eval.
  rewrite Hc. io_eval. rewrite Hen. io_eval. rewrite Hk. io_eval. rewrite Hq, (proj2 (Z.eqb_neq _ _) Hqa).
  io_eval. rewrite Hm. io_eval. rewrite Hr. io_eval. rewrite Z.eqb_refl, Hsl.
  rewrite (proj2 (Z.ltb_ge _ _)) by lia. io_eval. by rewrite (proj2 (Z.eqb_neq _ _) Hopt).
Qed.

Lemma recv_none k m a pa qa q buf opt :
  receives_on k a qa -> m_queues m !! qa = Some q -> q_read_off q = q_max_read_off q ->
  pa <> 0 -> k_pkts k !! pa = Some buf -> Z.land opt IKC_NO_NOTIFY <> 0 ->
  ihk_ikc_recv a pa opt (k, m) = Ret (-1, (k, m)).
Proof.
  intros [[Ha Hqa] (c & Hc & Hen & Hq)] Hm He Hpa Hk Hopt. unfold ihk_ikc_recv.
  rewrite (proj2 (Z.eqb_neq _ _) Ha), (proj2 (Z.eqb_neq _ _) Hpa). cbn [orb]. io_eval.
  rewrite Hc. io_eval. rewrite Hen. io_eval. rewrite Hk. io_eval. rewrite Hq, (proj2 (Z.eqb_neq _ _) Hqa).
  io_eval. rewrite Hm. io_eval. unfold ihk_ikc_read_queue. rewrite He, Z.eqb_refl. io_eval.
  cbn [Z.eqb]. io_eval. rewrite insert_same_world by done. by rewrite (proj2 (Z.eqb_neq _ _) Hopt).
Qed.
End Send.

(** ** A channel between two kernels as a FIFO *)

(** A sender kernel, a receiver kernel and the memory they share. *)
Definition pair_state : Type := (kern * kern * mem)%type.

Section Pair.
Context `{Env}.

(** The sender's channel is [a]; the receiver's is [b], with the packet
    buffer [pb]. *)
Definition do_chan (a b pb : Z) (s : pair_state) (o : qop) : outcome (qres * pair_state) :=
  let '(ka, kb, m) := s in
  match o with
  | OpWrite p =>
      '(r, (ka', m')) ← ihk_ikc_send a (Some p) 0 (ka, m);
      Ret ((r, None), (ka', kb, m'))
  | OpRead =>
      '(r, (kb', m')) ← ihk_ikc_recv b pb IKC_NO_NOTIFY (kb, m);
      Ret ((r, if r =? 0 then k_pkts kb' !! pb else None), (ka, kb', m'))
  end.

Fixpoint run_chan (a b pb : Z) (s : pair_state) (l : list qop) : outcome (list qres * pair_state) :=
  match l with
  | [] => Ret ([], s)
  | o :: l' =>
      '(r, s') ← do_chan a b pb s o;
      '(rs, s'') ← run_chan a b pb s' l';
      Ret (r :: rs, s'')
  end.

(** A packet received on channel [b] carries the address of [b]. *)
Definition stamp (b : Z) (r : qres) : qres := (r.1, (fun p => pkt_set_channel p b) <$> r.2).

(** Packets accepted by a run of the FIFO. *)
Definition accepted (cap : Z) (f : list (list Z)) (l : list qop) : nat :=
  length (filter (fun x => x.1 = 0 /\ x.2 = None) (run_fifo cap f l)).

Record linked (a b pb qa : Z) (ka kb : kern) (m : mem) (q : ihk_ikc_queue_head) : Prop := {
  ln_send : sends_on ka a qa;
  ln_recv : receives_on kb b qa;
  ln_queue : m_queues m !! qa = Some q;
  ln_wf : queue_wf q;
  ln_buf : pb <> 0 /\ exists buf, k_pkts kb !! pb = Some buf /\ Z.of_nat (length buf) = q_pktsize q
}.

Lemma length_stamped q i a : queue_geom q ->
  Z.of_nat (length (pkt_set_channel (slot q i) a)) = q_pktsize q.
Proof.
  intros G. pose proof (slot_range q i G). pose proof (geom_long q G).
  pose proof (g_size q G). pose proof (g_data q G).
  assert (length (slot q i) = Z.to_nat (q_pktsize q)) by (apply length_segment; lia).
  unfold pkt_set_channel. rewrite length_splice; [lia|lia|]. rewrite length_le_bytes. lia.
Qed.

Lemma do_chan_refines a b pb qa ka kb m q o :
  linked a b pb qa ka kb m q -> q_write_off q + 1 < 2 ^ 64 -> op_ok (q_pktsize q) o ->
  exists ka' kb' m' q',
  do_chan a b pb (ka, kb, m) o = Ret (stamp b (fifo_op (capacity q) (contents q) o).1, (ka', kb', m')) /\
  linked a b pb qa ka' kb' m' q' /\ same_shape q q' /\ q_write_off q' <= q_write_off q + 1 /\
  contents q' = (fifo_op (capacity q) (contents q) o).2 /\
  k_events ka' = k_events ka ++
    replicate (if decide ((fifo_op (capacity q) (contents q) o).1.1 = 0 /\
                          (fifo_op (capacity q) (contents q) o).1.2 = None) then 1 else 0)
      (EvInterrupt (s32 (q_read_cpu q))).
Proof.
  intros [Hs Hr Hm W [Hpb (buf & Hk & Hlen)]] H64 Hok. pose proof (full_test_spec q W) as Hft.
  pose proof (qw_order q W). destruct o as [p|]; cbn [do_chan fifo_op op_ok] in *.
  - cbn [ihk_ikc_send Linux]. unfold send_linux. destruct (so_ptr _ _ _ Hs) as [Ha _].
    rewrite (proj2 (Z.eqb_neq _ _) Ha). destruct (full_test q (q_read_off q) (q_write_off q)) eqn:E.
    + rewrite (send_retry_full _ _ _ _ _ q) by done. rewrite (proj2 (Z.eqb_eq _ _)) by tauto.
      exists ka, kb, m, q. split_and!; try done; [by split; eauto|lia|]. simpl. by rewrite app_nil_r.
    + rewrite (proj2 (Z.eqb_neq _ _)) by (intros X; apply Hft in X; done).
      destruct (send_retry_room IHK_IKC_SEND_RETRY ka m a qa q p 0) as (q' & -> & W' & Hw & Hsh & Hcont);
        try done; [lia|]. rewrite segment_full in Hcont by lia.
      eexists _, kb, _, q'. split; [done|]. split_and!; try done; [|lia].
      split; [destruct Hs as [? (c & ?)]; by split; eauto | done | simpl; by rewrite lookup_insert_eq | done |].
      split; [done|]. exists buf. destruct Hsh as (_ & -> & _). done.
  - destruct (Z.eq_dec (q_read_off q) (q_max_read_off q)) as [He|Hne].
    + rewrite (recv_none _ _ _ _ qa q buf) by done. rewrite (contents_nil q) by lia.
      exists ka, kb, m, q. split_and!; try done; [by split; eauto|lia|by rewrite contents_nil by lia|].
      simpl. by rewrite app_nil_r.
    + destruct (recv_some kb m b pb qa q buf IKC_NO_NOTIFY) as (q' & -> & W' & Hw & Hsh & Hcont);
        try done; [lia|]. rewrite Hcont. cbn [mbind outcome_bind Z.eqb]. io_eval. rewrite lookup_insert_eq.
      eexists ka, _, _, q'. split; [done|]. split_and!; try done; [|lia|simpl; by rewrite app_nil_r].
      split; [done | destruct Hr as [? (c & ?)]; by split; eauto | simpl; by rewrite lookup_insert_eq | done |].
      split; [done|]. simpl. rewrite lookup_insert_eq. eexists. split; [done|].
      rewrite length_stamped by apply W. by destruct Hsh as (_ & -> & _).
Qed.
End Pair.

(** C2: a channel whose two ends share a queue behaves,
    over any sequence of ihk_ikc_send calls on the one kernel and ihk_ikc_recv
    calls on the other, as a bounded FIFO: the codes and packets are those of
    the FIFO (each received packet with the receiver's channel in its header),
    and the sender raises exactly one interrupt, to the CPU named in the
    queue, per packet accepted. *)
Theorem channel_refines_fifo `{Env} a b pb qa ka kb m q l :
  linked a b pb qa ka kb m q -> Forall (op_ok (q_pktsize q)) l ->
  q_write_off q + Z.of_nat (length l) < 2 ^ 64 ->
  exists ka' kb' m',
  run_chan a b pb (ka, kb, m) l =
    Ret (stamp b <$> run_fifo (capacity q) (contents q) l, (ka', kb', m')) /\
  k_events ka' = k_events ka ++
    replicate (accepted (capacity q) (contents q) l) (EvInterrupt (s32 (q_read_cpu q))).
Proof.
  revert ka kb m q. induction l as [|o l IH]; intros ka kb m q L Hok H64.
  { exists ka, kb, m. split; [done|]. simpl. by rewrite app_nil_r. }
  rewrite Forall_cons in Hok. destruct Hok as [Ho Hl]. cbn [length] in H64.
  destruct (do_chan_refines a b pb qa ka kb m q o L) as (ka1 & kb1 & m1 & q1 & Hd & L1 & Hsh & Hw & Hc & Hev);
    [lia|done|]. destruct Hsh as (Hcnt & Hsz & Hcpu).
  destruct (IH ka1 kb1 m1 q1 L1) as (ka2 & kb2 & m2 & Hrun & Hev2); [by rewrite Hsz|lia|].
  exists ka2, kb2, m2. cbn [run_chan run_fifo]. rewrite Hd. cbn [mbind outcome_bind]. rewrite Hrun.
  cbn [mbind outcome_bind]. rewrite Hc in Hrun, Hev2 |- *. unfold capacity in Hev2, Hev |- *.
  rewrite Hcnt in Hev2 |- *. unfold accepted in *. cbn [run_fifo].
  destruct (fifo_op (q_pktcount q - 1) (contents q) o) as [r f]. split; [done|].
  rewrite Hev2, Hev, Hcpu, <- app_assoc. f_equal. rewrite filter_cons. cbn [fst snd] in *.
  case_decide; done.
Qed.

(** A concrete environment: identity address maps, CPU 0, allocations succeed. *)
Definition demo_env : Env := {|
  this_cpu := 0; smp_cpu := 0; map_memory := fun a => a; map_virtual := fun a => a;
  virt_to_phys := fun a => a; malloc_ok := fun _ _ => true; uninit := fun _ _ => 170;
  sizeof_chan := 448 |}.
Definition demo_chan (rq sq : Z) : ihk_ikc_channel_desc :=
  mk_chan 0 0 0 0 7 1 (mk_qd rq 0 0 rq 0) (mk_qd sq 0 sq sq 0) IKC_FLAG_ENABLED 9 [].
Definition demo_kern (chans : gmap Z ihk_ikc_channel_desc) (pkts : gmap Z (list Z)) : kern :=
  mk_kern chans pkts (fst <$> map_to_list chans) 0 (replicate 4 0) (replicate 512 None) 1 [] [].
Definition demo_mem : mem := mk_mem {[500 := demo_queue]} 1000.
Definition demo_sender : kern := demo_kern {[100 := demo_chan 0 500]} ∅.
Definition demo_receiver : kern := demo_kern {[200 := demo_chan 500 0]} {[300 := replicate 8 0]}.

Lemma demo_linked : linked 100 200 300 500 demo_sender demo_receiver demo_mem demo_queue.
Proof.
  split; [| | | apply demo_queue_wf |].
  - split; [lia|]. by exists (demo_chan 0 500).
  - split; [lia|]. by exists (demo_chan 500 0).
  - done.
  - split; [lia|]. by exists (replicate 8 0).
Qed.

Lemma channel_refines_fifo_witness :
  let l := [OpWrite [1;2;3;4;5;6;7;8]; OpWrite [8;8;8;8;8;8;8;8]; OpWrite [9;9;9;9;9;9;9;9]; OpRead; OpRead; OpRead] in
  exists ka' kb' m',
  run_chan (H := demo_env) 100 200 300 (demo_sender, demo_receiver, demo_mem) l =
    Ret ([(0, None); (0, None); (- EBUSY, None); (0, Some (le_bytes 8 200)); (0, Some (le_bytes 8 200));
          (-1, None)], (ka', kb', m')) /\
  k_events ka' = [EvInterrupt 0; EvInterrupt 0].
Proof.
  apply (channel_refines_fifo (H := demo_env) 100 200 300 500 demo_sender demo_receiver demo_mem demo_queue
    [OpWrite [1;2;3;4;5;6;7;8]; OpWrite [8;8;8;8;8;8;8;8]; OpWrite [9;9;9;9;9;9;9;9]; OpRead; OpRead; OpRead] demo_linked).
  - repeat constructor.
  - vm_compute. reflexivity.
Defined.

(** ** Draining a channel from the interrupt handler *)

(** Channel [a] with handler [hid] takes packets from the queue at [qa]. *)
Record ready (a qa hid : Z) (w : world) (q : ihk_ikc_queue_head) : Prop := {
  rd_a : 0 < a < 2 ^ 64;
  rd_qa : qa <> 0;
  rd_size : sizeof_free_packet <= q_pktsize q;
  rd_brk : 0 < m_brk w.2;
  rd_queue : m_queues w.2 !! qa = Some q;
  rd_chan : exists c, k_chans w.1 !! a = Some c /\ ihk_ikc_channel_enabled c = true /\
    qd_queue (c_recv c) = qa /\ c_handler c = hid /\ Z.land (c_flag c) IKC_FLAG_NO_COPY = 0 /\
    Forall (fun p => p <> 0 /\ exists b, k_pkts w.1 !! p = Some b /\
                     Z.of_nat (length b) = q_pktsize q) (c_pool c)
}.

Lemma pkt_channel_set b a : 0 <= a < 2 ^ 64 -> (8 <= length b)%nat -> pkt_channel (pkt_set_channel b a) = a.
Proof.
  intros Ha Hl. unfold pkt_channel, pkt_set_channel.
  pose proof (segment_splice_same b 0 (le_bytes 8 a)) as E. rewrite length_le_bytes in E.
  change (Z.of_nat 8) with 8 in E. rewrite E by lia. apply le_roundtrip. simpl. lia.
Qed.

Section Drain.
Context `{Env}.

Lemma length_fresh_buf a n : 0 <= n -> Z.of_nat (length (fresh_buf a n)) = n.
Proof. intros. unfold fresh_buf. rewrite length_fmap, length_seq. lia. Qed.

(** The kernels differ in their packets and in the pool of channel [a]. *)
Record same_kern (a : Z) (k k1 : kern) : Prop := {
  sk_channels : k_channels k1 = k_channels k;
  sk_mchannel : k_mchannel k1 = k_mchannel k;
  sk_regular : k_regular k1 = k_regular k;
  sk_listeners : k_listeners k1 = k_listeners k;
  sk_id : k_channel_id k1 = k_channel_id k;
  sk_wait : k_wait k1 = k_wait k;
  sk_events : k_events k1 = k_events k;
  sk_other : forall x, x <> a -> k_chans k1 !! x = k_chans k !! x;
  sk_chan : exists pool, k_chans k1 !! a = (fun c => c_set_pool c pool) <$> k_chans k !! a
}.

(** Allocating a packet on a ready channel leaves it ready. *)
Lemma alloc_packet_ready a qa hid k m q :
  ready a qa hid (k, m) q ->
  exists p k1 m1 b, ihk_ikc_alloc_packet a (k, m) = Ret (p, (k1, m1)) /\ ready a qa hid (k1, m1) q /\ p <> 0 /\
  k_pkts k1 !! p = Some b /\ Z.of_nat (length b) = q_pktsize q /\ same_kern a k k1 /\
  m_queues m1 = m_queues m /\ m_brk m <= m_brk m1 <= m_brk m + 1.
Proof.
  intros [Ha Hqa Hsz Hbrk Hq (c & Hc & Hen & Hcq & Hh & Hnc & Hpool)].
  cbn [fst snd] in *. unfold ihk_ikc_alloc_packet. io_eval. rewrite Hc. io_eval.
  destruct (c_pool c) as [|p rest] eqn:Ep; io_eval.
  - rewrite Hcq, Hq. io_eval. eexists _, _, _, _. split; [done|].
    split; [|split_and!]; try done; cbn [fst snd k_pkts k_events m_brk].
    + split; cbn [fst snd m_brk m_queues]; try done; [lia|]. exists c. rewrite Ep. split_and!; auto.
    + lia.
    + apply lookup_insert_eq.
    + apply length_fresh_buf. unfold sizeof_free_packet in *. lia.
    + split; try done. cbn [k_chans set_pkts]. exists []. rewrite Hc. simpl. rewrite <- Ep. by destruct c.
    + lia.
  - apply Forall_cons in Hpool as [[Hp (b & Hb & Hl)] Hrest].
    eexists p, _, _, b. split; [done|]. split; [|split_and!]; try done; cbn [fst snd k_pkts k_events].
    + split; cbn [fst snd m_brk m_queues k_chans set_chans]; try done. rewrite lookup_insert_eq.
      eexists. split_and!; try done.
    + split; try done; cbn [k_chans set_chans].
      * intros x Hx. by rewrite lookup_insert_ne.
      * exists rest. by rewrite lookup_insert_eq, Hc.
    + cbn [m_brk]. lia.
Qed.

(** ihk_ikc_recv_handler on a ready channel with a packet waiting: the packet
    handler [h] is called on a buffer that holds the packet. *)
Lemma recv_handler_step a qa hid h k m q :
  ready a qa hid (k, m) q -> queue_wf q -> q_read_off q < q_max_read_off q ->
  exists p k1 m1 q',
  ihk_ikc_recv_handler a h 0 (k, m) =
    (h a p ;;; c <- get_chan a ;;
     (if Z.land (c_flag c) IKC_FLAG_NO_COPY =? 0 then io_ret tt else ihk_ikc_send_interrupt a) ;;; io_ret 0) (k1, m1) /\
  p <> 0 /\ k_pkts k1 !! p = Some (pkt_set_channel (slot q (q_read_off q)) a) /\
  ready a qa hid (k1, m1) q' /\ queue_wf q' /\ q_write_off q' = q_write_off q /\ same_shape q q' /\
  contents q = slot q (q_read_off q) :: contents q' /\
  same_kern a k k1 /\ m_queues m1 = <[qa := q']> (m_queues m) /\ m_brk m <= m_brk m1 <= m_brk m + 1.
Proof.
  intros R W Hne. pose proof (qw_geom q W) as G.
  unfold ihk_ikc_recv_handler. rewrite (proj2 (Z.eqb_neq a 0)) by (pose proof (rd_a _ _ _ _ _ R); lia).
  destruct (alloc_packet_ready a qa hid k m q R) as (p & k1 & m1 & b & Hal & R1 & Hp & Hb & Hl & Hsame & Hmq & Hbrk1).
  erewrite io_bind_ret by done.
  destruct R1 as [Ha Hqa Hs24 Hbrk Hq (c & Hc & Hen & Hcq & Hhid & Hnc & Hpool)]. cbn [fst snd] in *.
  destruct (recv_some k1 m1 a p qa q b (Z.lor 0 IKC_NO_NOTIFY)) as (q' & Hr & W' & Hw & Hsh & Hcont);
    try done; [split; [lia|]; eauto|].
  erewrite io_bind_ret by done. cbn [Z.eqb negb]. pose proof Hsh as (Hcnt & Hsz & _).
  eexists p, _, _, q'. split; [done|]. cbn [k_pkts set_pkts m_queues m_brk]. rewrite Hmq.
  split_and!; try done; try lia; [apply lookup_insert_eq| |by destruct Hsame].
  split; cbn [fst snd m_brk m_queues]; try done; [by rewrite Hsz|by rewrite lookup_insert_eq|].
  exists c. split_and!; try done. cbn [k_pkts set_pkts]. rewrite Hsz.
  eapply Forall_impl; [exact Hpool|]. intros x (Hx & bx & Hbx & Hlx). split; [done|].
  destruct (decide (x = p)) as [->|]; [rewrite lookup_insert_eq | rewrite lookup_insert_ne by done; eauto].
  eexists. split; [done|]. by apply length_stamped.
Qed.

Context (handler_sem : Z -> Z -> Z -> io world Z).
Context {X : Type} (log : list event -> list X) (entry : list Z -> X).

(** A packet handler that records every packet it is given and leaves the
    channel ready. *)
Definition handler_ok (a qa hid : Z) : Prop :=
  forall w q p b, ready a qa hid w q -> p <> 0 -> k_pkts w.1 !! p = Some b ->
  Z.of_nat (length b) = q_pktsize q -> pkt_channel b = a ->
  exists r w', handler_sem hid a p w = Ret (r, w') /\ ready a qa hid w' q /\
  log (k_events w'.1) = log (k_events w.1) ++ [entry b].

Lemma recv_handler_ready a qa hid w q :
  handler_ok a qa hid -> ready a qa hid w q -> queue_wf q -> q_read_off q < q_max_read_off q ->
  exists w' q', ihk_ikc_recv_handler a (handler_sem hid) 0 w = Ret (0, w') /\ ready a qa hid w' q' /\
  queue_wf q' /\ contents q = slot q (q_read_off q) :: contents q' /\
  log (k_events w'.1) = log (k_events w.1) ++ [entry (pkt_set_channel (slot q (q_read_off q)) a)].
Proof.
  destruct w as [k m]. intros Hh R W Hne. pose proof (qw_geom q W) as G. pose proof (g_size q G). pose proof (geom_long q G).
  destruct (recv_handler_step a qa hid (handler_sem hid) k m q R W Hne)
    as (p & k1 & m1 & q' & -> & Hp & Hb & R1 & W' & _ & (_ & Hsz & _) & Hcont & Hsame & _).
  destruct (Hh (k1, m1) q' p (pkt_set_channel (slot q (q_read_off q)) a) R1 Hp Hb) as (r & w2 & Hhs & R3 & Hlog).
  { rewrite Hsz. by apply length_stamped. }
  { pose proof (rd_a _ _ _ _ _ R). apply pkt_channel_set; [lia|].
    pose proof (slot_range q (q_read_off q) G). pose proof (g_data q G). unfold slot. rewrite length_segment; lia. }
  erewrite io_bind_ret by done.
  destruct (rd_chan _ _ _ _ _ R3) as (c2 & Hc2 & _ & _ & _ & Hnc2 & _).
  exists w2, q'. split; [|split_and!; try done; rewrite Hlog; cbn; by rewrite (sk_events _ _ _ Hsame)].
  io_eval. rewrite Hc2. io_eval. by rewrite Hnc2.
Qed.

Lemma empty_b_spec q : ihk_ikc_queue_is_empty (Some q) = if q_read_off q =? q_max_read_off q then 1 else 0.
Proof. simpl. unfold queue_is_empty_b. by destruct (_ =? _). Qed.

Lemma drain_ready a qa hid n w q :
  handler_ok a qa hid -> ready a qa hid w q -> queue_wf q -> (length (contents q) <= n)%nat ->
  exists w' q', drain handler_sem n a w = Ret (true, w') /\ ready a qa hid w' q' /\ queue_wf q' /\
  contents q' = [] /\
  log (k_events w'.1) = log (k_events w.1) ++ ((fun p => entry (pkt_set_channel p a)) <$> contents q).
Proof.
  intros Hh. revert w q. induction n as [|n IH]; intros w q R W Hn; pose proof (qw_order q W);
    pose proof (rd_chan _ _ _ _ _ R) as (c & Hc & Hen & Hcq & Hhid & _);
    pose proof (rd_queue _ _ _ _ _ R) as Hq; pose proof (rd_qa _ _ _ _ _ R) as Hqa;
    cbn [drain]; (erewrite io_bind_ret by (io_eval; rewrite Hc; done)); rewrite Hen; cbn [negb];
    (erewrite io_bind_ret by (rewrite Hcq; unfold queue_ptr; rewrite (proj2 (Z.eqb_neq _ _) Hqa); io_eval; rewrite Hq; done));
    rewrite empty_b_spec; destruct (Z.eqb_spec (q_read_off q) (q_max_read_off q)) as [He|He]; cbn [Z.eqb negb].
  1,3: exists w, q; rewrite (contents_nil q) by lia; split_and!; try done; by rewrite app_nil_r.
  - exfalso. unfold contents in Hn. rewrite length_fmap, length_seqZ in Hn. lia.
  - rewrite Hhid. destruct (recv_handler_ready a qa hid w q Hh R W ltac:(lia)) as (w1 & q1 & Hr & R1 & W1 & Hc1 & Hl1).
    erewrite io_bind_ret by done. rewrite Hc1 in Hn |- *. cbn [length] in Hn.
    destruct (IH w1 q1 R1 W1 ltac:(lia)) as (w2 & q2 & Hd & R2 & W2 & Hc2 & Hl2).
    exists w2, q2. split_and!; try done. rewrite Hl2, Hl1, <- app_assoc. done.
Qed.
End Drain.

(** C26: the reception handler of a host CPU other than 0
    empties the queue of the CPU's regular channel and hands every packet that
    was in it, in order, exactly once and marked with the channel, to the
    channel's packet handler; it ends after as many rounds as there are
    packets.  The packet handler may do anything that leaves the channel able
    to receive. *)
Theorem reception_drains `{Env} handler_sem {X} (log : list event -> list X) entry a qa hid n w q :
  handler_ok handler_sem log entry a qa hid -> ready a qa hid w q -> queue_wf q ->
  smp_cpu <> 0 -> aget (k_regular w.1) smp_cpu = Ret a -> (length (contents q) <= n)%nat ->
  exists w' q', ihk_ikc_reception_handler handler_sem n w = Ret (true, w') /\
  m_queues w'.2 !! qa = Some q' /\ contents q' = [] /\
  log (k_events w'.1) = log (k_events w.1) ++ ((fun p => entry (pkt_set_channel p a)) <$> contents q).
Proof.
  intros Hh R W Hcpu Hreg Hn.
  destruct (drain_ready handler_sem log entry a qa hid n w q Hh R W Hn) as (w' & q' & Hd & R' & _ & Hc & Hl).
  exists w', q'. split_and!; try done; [|by apply (rd_queue _ _ _ _ _ R')].
  unfold ihk_ikc_reception_handler. rewrite (proj2 (Z.eqb_neq _ _) Hcpu).
  erewrite io_bind_ret by done. cbn [negb]. unfold ihk_os_get_regular_channel.
  erewrite io_bind_ret by (io_eval; rewrite Hreg; done).
  rewrite (proj2 (Z.eqb_neq a 0)) by (pose proof (rd_a _ _ _ _ _ R); lia). done.
Qed.

(** A handler that reports the packet (by its payload) and gives it back. *)
Definition demo_handler (_ a p : Z) : io world Z :=
  b <- get_pkt p ;;
  emit (EvWake (le_value (drop 8 b))) ;;;
  ihk_ikc_release_packet p ;;;
  io_ret 0.
Definition demo_log (l : list event) : list Z :=
  omap (fun e => match e with EvWake x => Some x | _ => None end) l.
Definition demo_entry (b : list Z) : Z := le_value (drop 8 b).

Lemma demo_handler_ok a qa hid : handler_ok demo_handler demo_log demo_entry a qa hid.
Proof.
  intros [k m] q p b [Ha Hqa Hsz Hbrk Hq (c & Hc & Hen & Hcq & Hh & Hnc & Hpool)] Hp Hb Hl Hch.
  cbn [fst snd] in *. unfold sizeof_free_packet in *. eexists _, _. split_and!.
  - unfold demo_handler, ihk_ikc_release_packet. io_eval. rewrite Hb. io_eval.
    rewrite (proj2 (Z.eqb_neq _ _) Hp). io_eval. rewrite Hb. io_eval. rewrite Hch.
    rewrite (proj2 (Z.eqb_neq a 0)) by lia. io_eval. rewrite Hc. io_eval.
    unfold sizeof_free_packet. rewrite (proj2 (Z.ltb_ge _ _)) by lia. io_eval. done.
  - split; cbn [fst snd m_brk m_queues k_chans set_chans]; try done. rewrite lookup_insert_eq.
    eexists. split_and!; try done. cbn [c_pool c_set_pool]. apply Forall_app. split; [done|].
    apply Forall_singleton. split; [done|]. by exists b.
  - cbn [fst k_events set_chans set_events]. unfold demo_log. by rewrite omap_app.
Qed.

Definition demo_env1 : Env := {|
  this_cpu := 1; smp_cpu := 1; map_memory := fun a => a; map_virtual := fun a => a;
  virt_to_phys := fun a => a; malloc_ok := fun _ _ => true; uninit := fun _ _ => 170;
  sizeof_chan := 448 |}.
Definition demo_queue24 : ihk_ikc_queue_head :=
  mk_queue 1 0 24 3 0 0 2 2 72 0 0 0 (replicate 8 0 ++ le_bytes 16 11 ++ replicate 8 0 ++ le_bytes 16 22 ++ replicate 24 0).
Definition demo_world1 : world :=
  (set_regular (demo_kern {[200 := demo_chan 500 0]} ∅) [0; 200; 0; 0], mk_mem {[500 := demo_queue24]} 1000).

Lemma reception_drains_witness :
  exists w' q', ihk_ikc_reception_handler (H := demo_env1) demo_handler 2 demo_world1 = Ret (true, w') /\
  m_queues w'.2 !! 500 = Some q' /\ contents q' = [] /\ demo_log (k_events w'.1) = [11; 22].
Proof.
  apply (reception_drains (H := demo_env1) demo_handler demo_log demo_entry 200 500 9 2 demo_world1 demo_queue24);
    [apply demo_handler_ok | | | | | ].
  - split; try (vm_compute; done). exists (demo_chan 500 0). split_and!; done.
  - repeat split; vm_compute; intros; discriminate.
  - vm_compute. discriminate.
  - reflexivity.
  - vm_compute. constructor.
Defined.

(** ** Creating and freeing a channel *)

Lemma fls_pow2 o : 0 <= o < 32 -> fls (2 ^ o) = o + 1.
Proof.
  intros Ho. assert (2 ^ o < 2 ^ 32) by (apply Z.pow_lt_mono_r; lia). assert (0 < 2 ^ o) by (apply Z.pow_pos_nonneg; lia).
  unfold fls. rewrite u32_small by lia. rewrite (proj2 (Z.eqb_neq _ _)) by lia. by rewrite Z.log2_pow2 by lia.
Qed.

Lemma shiftr12 x : Z.shiftr x PAGE_SHIFT = x / 4096.
Proof. unfold PAGE_SHIFT. by rewrite Z.shiftr_div_pow2 by lia. Qed.

(** The pages given back are those that were allocated, for packets below a page. *)
Lemma free_pages_order size n qp :
  0 < size <= 4032 -> 0 < qp < 2 ^ 19 -> n = (PAGE_SIZE * qp - sizeof_queue_head) / size -> 2 <= n ->
  s32 (Z.shiftr (u64 (size * n + PAGE_SIZE - 1)) PAGE_SHIFT) = qp.
Proof.
  unfold PAGE_SIZE, sizeof_queue_head. intros Hs Hq Hn H2.
  pose proof (Z.div_mod (4096 * qp - 64) size ltac:(lia)) as Hd.
  pose proof (Z.mod_pos_bound (4096 * qp - 64) size ltac:(lia)). rewrite <- Hn in Hd.
  rewrite u64_small by lia. rewrite shiftr12.
  assert ((size * n + 4096 - 1) / 4096 = qp) as ->
    by (symmetry; apply (Z.div_unique _ _ _ (size * n + 4096 - 1 - 4096 * qp)); lia).
  apply s32_small. lia.
Qed.

Lemma init_queue_size q id type size packetsize q' :
  ihk_ikc_init_queue (Some q) id type size packetsize = Ret (0, Some q') ->
  q_queue_size q' = u32 (q_pktsize q' * q_pktcount q').
Proof. unfold ihk_ikc_init_queue. destruct (_ =? _); [done|]. by intros [= <-]. Qed.

(** The head of a new local queue once its descriptor is initialised. *)
Definition named_queue (q : ihk_ikc_queue_head) (id cpu : Z) : ihk_ikc_queue_head :=
  set_read_cpu (set_channel_id q (u32 id)) (u32 cpu).

Section Create.
Context `{Env} `{Platform}.

(** ihk_ikc_create_channel with a local receive queue and no send queue,
    once the platform has provided the queue. *)
Lemma create_local os port size qsize flag k m raw q m1 qa :
  0 < m_brk m -> qa <> 0 -> malloc_ok (m_brk m) (s32 (sizeof_chan + size)) = true ->
  ihk_ikc_alloc_queue (pages_of qsize) (set_chans k (<[m_brk m := zero_chan flag]> (k_chans k)), mk_mem (m_queues m) (m_brk m + 1))
    = Ret (qa, (set_chans k (<[m_brk m := zero_chan flag]> (k_chans k)), m1)) ->
  m_queues m1 !! qa = Some raw ->
  ihk_ikc_init_queue (Some raw) 1 port (s32 (PAGE_SIZE * pages_of qsize)) size = Ret (0, Some q) ->
  let id := s32 (k_channel_id k + 1) in
  ihk_ikc_create_channel os port size qsize 0 0 flag (k, m) =
    Ret ((m_brk m, virt_to_phys qa),
      (mk_kern (<[m_brk m := mk_chan os 0 0 (k_mchannel k) port id (mk_qd qa (u32 id) 0 (virt_to_phys qa) 0)
                               zero_qd flag 0 []]> (k_chans k))
        (k_pkts k) (k_channels k ++ [m_brk m]) (k_mchannel k) (k_regular k) (k_listeners k) id (k_wait k) (k_events k),
       mk_mem (<[qa := named_queue q id this_cpu]> (m_queues m1)) (m_brk m1))).
Proof.
  intros Hb Hqa Hok Hal Hraw Hinit id. unfold ihk_ikc_create_channel, ihk_ikc_malloc. io_eval. rewrite Hok.
  rewrite (proj2 (Z.eqb_neq (m_brk m) 0)) by lia. io_eval.
  change (0 =? 0) with true. io_eval. rewrite Hal. io_eval. rewrite (proj2 (Z.eqb_neq _ _) Hqa). io_eval.
  rewrite Hraw. io_eval. rewrite Hinit. io_eval. rewrite lookup_insert_eq. io_eval.
  unfold ihk_ikc_get_master_channel, ihk_ikc_init_desc, ihk_os_get_unique_channel_id. io_eval.
  rewrite !insert_insert_eq, lookup_insert_eq. io_eval. rewrite (proj2 (Z.eqb_neq _ _) Hqa). io_eval.
  rewrite lookup_insert_eq. io_eval. rewrite !insert_insert_eq, lookup_insert_eq. io_eval.
  rewrite !insert_insert_eq, lookup_insert_eq. change (0 =? 0) with true. io_eval.
  rewrite !insert_insert_eq. done.
Qed.
End Create.


Lemma filter_ne_snoc (l : list Z) a :
  Forall (fun x => x <> a) l -> filter (fun x => x <> a) (l ++ [a]) = l.
Proof.
  intros Hl. rewrite filter_app, filter_cons, filter_nil. rewrite decide_False by (intros X; by apply X).
  rewrite app_nil_r. induction Hl as [|x l Hx Hl IH]; [done|]. rewrite filter_cons, decide_True by done. by f_equal.
Qed.

Section FreeLinux.
Context `{Env}.

(** ihk_ikc_free_channel of a channel with a local receive queue, an empty
    packet pool and no send queue. *)
Lemma free_local k m a c q qa o :
  k_chans k !! a = Some c -> c_pool c = [] -> qd_queue (c_recv c) = qa -> qa <> 0 ->
  qd_qrphys (c_recv c) = 0 -> qd_queue (c_send c) = 0 -> m_queues m !! qa = Some q ->
  fls (s32 (Z.shiftr (u64 (q_queue_size q + PAGE_SIZE - 1)) PAGE_SHIFT)) - 1 = o ->
  ihk_ikc_free_channel a (k, m) =
    Ret (tt, (mk_kern (delete a (k_chans k)) (k_pkts k) (filter (fun x => x <> a) (k_channels k)) (k_mchannel k)
                (k_regular k) (k_listeners k) (k_channel_id k) (k_wait k) (k_events k ++ [EvFreePages qa o]),
              mk_mem (delete qa (m_queues m)) (m_brk m))).
Proof.
  intros Hc Hp Hq Hqa Hr Hs Hm Ho. unfold ihk_ikc_free_channel. io_eval. rewrite Hc. io_eval.
  rewrite Hp. cbn [io_iter]. io_eval. unfold free_qd. rewrite Hq, Hs, Hr, (proj2 (Z.eqb_neq _ _) Hqa).
  change (0 =? 0) with true. io_eval. rewrite Hm. io_eval. cbn [ihk_ikc_free_queue Linux]. unfold free_queue_linux.
  io_eval. rewrite Hm. io_eval. rewrite Ho. unfold ihk_ikc_free_desc. io_eval. by rewrite delete_insert_eq.
Qed.
End FreeLinux.

Lemma named_queue_wf q id cpu : queue_wf q -> queue_wf (named_queue q id cpu).
Proof. intros [[] ? ? ? ?]. split; [split|..]; done. Qed.

(** On the host, ihk_ikc_create_channel for a local
    queue of 2^o pages returns a new channel, listed last, with a fresh id and
    an empty, well-formed receive queue that names the channel and the CPU;
    and ihk_ikc_free_channel after it leaves the channels, the list, the
    packets and the queues as they were and returns exactly the 2^o pages that
    were allocated. *)
Theorem create_free_roundtrip `{Env} os port size qsize flag o k m :
  0 <= o < 19 -> pages_of qsize = 2 ^ o -> 0 < size <= 4032 -> size mod 8 = 0 ->
  sizeof_queue_head + 2 * size <= PAGE_SIZE * 2 ^ o ->
  0 < m_brk m -> k_chans k !! m_brk m = None -> m_queues m !! (m_brk m + 1) = None ->
  Forall (fun x => x <> m_brk m) (k_channels k) ->
  malloc_ok (m_brk m) (s32 (sizeof_chan + size)) = true ->
  malloc_ok (m_brk m + 1) (PAGE_SIZE * 2 ^ o) = true ->
  exists w1 c q,
  ihk_ikc_create_channel os port size qsize 0 0 flag (k, m) =
    Ret ((m_brk m, virt_to_phys (m_brk m + 1)), w1) /\
  k_chans w1.1 = <[m_brk m := c]> (k_chans k) /\ k_channels w1.1 = k_channels k ++ [m_brk m] /\
  m_queues w1.2 = <[m_brk m + 1 := q]> (m_queues m) /\
  c_flag c = flag /\ c_port c = port /\ c_channel_id c = s32 (k_channel_id k + 1) /\
  qd_queue (c_recv c) = m_brk m + 1 /\ qd_queue (c_send c) = 0 /\
  queue_wf q /\ contents q = [] /\ q_pktsize q = size /\
  q_channel_id q = u32 (c_channel_id c) /\ q_read_cpu q = u32 this_cpu /\
  exists w2, ihk_ikc_free_channel (m_brk m) w1 = Ret (tt, w2) /\
  k_chans w2.1 = k_chans k /\ k_channels w2.1 = k_channels k /\ k_pkts w2.1 = k_pkts k /\
  m_queues w2.2 = m_queues m /\ k_events w2.1 = k_events k ++ [EvFreePages (m_brk m + 1) o].
Proof.
  intros Ho Hqp Hs H8 Hfit Hb Hk Hm Hl Hok1 Hok2.
  assert (0 < 2 ^ o) by (apply Z.pow_pos_nonneg; lia).
  assert (2 ^ o < 2 ^ 19) by (apply Z.pow_lt_mono_r; lia).
  assert (s32 (PAGE_SIZE * 2 ^ o) = PAGE_SIZE * 2 ^ o) as Hs32 by (apply s32_small; unfold PAGE_SIZE; lia).
  set (qa := m_brk m + 1) in *. set (a := m_brk m) in *.
  set (raw := mk_queue 0 0 0 0 0 0 0 0 0 0 0 0 (fresh_buf qa (PAGE_SIZE * 2 ^ o - sizeof_queue_head))).
  destruct (init_queue_ok raw 1 port (PAGE_SIZE * 2 ^ o) size) as (q & Hinit & W & Hc & Hsz & Hcap & Hfits & Hdata).
  { lia. } { done. } { unfold PAGE_SIZE, sizeof_queue_head in *; lia. }
  { unfold raw. cbn [q_data]. rewrite length_fresh_buf; unfold PAGE_SIZE, sizeof_queue_head in *; lia. }
  set (id := s32 (k_channel_id k + 1)).
  eexists _, _, (named_queue q id this_cpu). split.
  { apply (create_local os port size qsize flag k m raw q (mk_mem (<[qa := raw]> (m_queues m)) (m_brk m + 1 + 1)) qa); try done.
    - lia.
    - rewrite Hqp. cbn [ihk_ikc_alloc_queue Linux]. unfold alloc_queue_linux. rewrite fls_pow2 by lia.
      replace (o + 1 - 1) with o by lia. rewrite (proj2 (Z.leb_le _ _)) by lia. io_eval. fold a qa. by rewrite Hok2.
    - apply lookup_insert_eq.
    - by rewrite Hqp, Hs32. }
  cbn [fst snd k_chans k_channels m_queues]. rewrite insert_insert_eq. split_and!; try done; [by apply named_queue_wf|].
  eexists. split.
  { eapply (free_local _ _ _ _ _ qa o); cbn [fst snd k_chans m_queues]; [by rewrite lookup_insert_eq|done|done|lia|done|done|by rewrite lookup_insert_eq|].
    cbn [named_queue q_queue_size set_read_cpu set_channel_id]. rewrite (init_queue_size _ _ _ _ _ _ Hinit).
    pose proof (g_count q (qw_geom q W)). unfold capacity in Hcap.
    rewrite u32_small by (unfold sizeof_queue_head, PAGE_SIZE in *; pose proof (g_data q (qw_geom q W));
      rewrite Hdata in *; unfold raw in *; cbn [q_data] in *; rewrite length_fresh_buf in * by lia; nia).
    rewrite Hsz, (free_pages_order size (q_pktcount q) (2 ^ o)) by (unfold PAGE_SIZE, sizeof_queue_head in *; lia).
    rewrite fls_pow2; lia. }
  cbn [fst snd k_chans k_channels k_pkts m_queues k_events].
  rewrite delete_insert_id by done. rewrite filter_ne_snoc by done. rewrite delete_insert_id by done. done.
Qed.

Lemma create_free_roundtrip_witness :
  exists w1 c q,
  @ihk_ikc_create_channel demo_env (@Linux demo_env) 0 7 64 16384 0 0 0 (demo_sender, demo_mem) = Ret ((1000, 1001), w1) /\
  k_chans w1.1 = <[1000 := c]> (k_chans demo_sender) /\ k_channels w1.1 = k_channels demo_sender ++ [1000] /\
  m_queues w1.2 = <[1001 := q]> (m_queues demo_mem) /\
  c_flag c = 0 /\ c_port c = 7 /\ c_channel_id c = 2 /\
  qd_queue (c_recv c) = 1001 /\ qd_queue (c_send c) = 0 /\
  queue_wf q /\ contents q = [] /\ q_pktsize q = 64 /\
  q_channel_id q = u32 (c_channel_id c) /\ q_read_cpu q = 0 /\
  exists w2, @ihk_ikc_free_channel (@Linux demo_env) 1000 w1 = Ret (tt, w2) /\
  k_chans w2.1 = k_chans demo_sender /\ k_channels w2.1 = k_channels demo_sender /\ k_pkts w2.1 = k_pkts demo_sender /\
  m_queues w2.2 = m_queues demo_mem /\ k_events w2.1 = [EvFreePages 1001 2].
Proof.
  apply (create_free_roundtrip (H := demo_env) 0 7 64 16384 0 2 demo_sender demo_mem); try (vm_compute; done).
  vm_compute. repeat constructor; discriminate.
Defined.

(** ** Queues whose size is not a power of two pages *)

Lemma memcpyl_loop_undef n dst doff src soff :
  (0 < n)%nat -> 0 <= doff -> Z.of_nat (length dst) < doff + 8 * Z.of_nat n ->
  memcpyl_loop n dst doff src soff = Undef.
Proof.
  revert dst doff soff. induction n as [|n IH]; intros dst doff soff Hn Hd Hl; [lia|].
  cbn [memcpyl_loop]. unfold copy_long. destruct (Z.leb_spec (doff + 8) (Z.of_nat (length dst))) as [Hle|];
    [|by rewrite andb_false_r].
  destruct (_ && _) eqn:E; [|done]. cbn [mbind outcome_bind].
  rewrite !andb_true_iff, !Z.leb_le in E. apply IH; [lia|lia|].
  rewrite length_splice; [lia|lia|]. rewrite length_segment; lia.
Qed.

(** A write that has to go to a slot behind the end of the memory. *)
Lemma write_outside q p :
  0 < q_pktcount q < 2 ^ 32 -> 0 < q_pktsize q < 2 ^ 16 -> q_pktsize q mod 8 = 0 ->
  0 <= q_write_off q < q_pktcount q -> q_read_off q = q_write_off q -> 1 < q_pktcount q ->
  Z.of_nat (length (q_data q)) < (q_write_off q + 1) * q_pktsize q ->
  ihk_ikc_write_queue (Some q) (Some p) = Undef.
Proof.
  intros Hc Hs H8 Hw Hr H1 Hl. unfold ihk_ikc_write_queue, IHK_IKC_WRITE_QUEUE_RETRY. cbn [write_retry].
  unfold full_test. rewrite Hr, Z.sub_diag, u64_small, u32_small by lia.
  rewrite (proj2 (Z.eqb_neq _ _)) by lia. unfold slot_off. cbn [q_pktcount q_pktsize q_data set_write_off].
  rewrite (proj2 (Z.eqb_neq _ _)) by lia. cbn [mbind outcome_bind].
  rewrite Z.mod_small by lia. rewrite (u64_small (q_write_off q * q_pktsize q)) by nia. unfold memcpyl.
  pose proof (Z.div_mod (q_pktsize q) 8 ltac:(lia)).
  assert (0 < q_pktsize q / 8) by (clear Hl; lia).
  rewrite memcpyl_loop_undef; [done|clear Hl; lia|apply Z.mul_nonneg_nonneg; clear Hl; lia|]. rewrite Z2Nat.id by lia. nia.
Qed.

(** When the requested queue size is a number of pages
    that is not a power of two, ihk_ikc_create_channel on the host succeeds
    with a queue whose slots need more memory than ihk_ikc_alloc_queue took
    (the order is rounded down): a write into the last slot leaves the
    allocated pages. *)
Theorem queue_alloc_short `{Env} os port size qsize flag k m :
  1 < pages_of qsize < 2 ^ 19 -> 2 ^ Z.log2 (pages_of qsize) <> pages_of qsize ->
  0 < size <= 4032 -> size mod 8 = 0 -> 0 < m_brk m ->
  malloc_ok (m_brk m) (s32 (sizeof_chan + size)) = true ->
  malloc_ok (m_brk m + 1) (PAGE_SIZE * 2 ^ Z.log2 (pages_of qsize)) = true ->
  exists w1 q,
  ihk_ikc_create_channel os port size qsize 0 0 flag (k, m) =
    Ret ((m_brk m, virt_to_phys (m_brk m + 1)), w1) /\
  m_queues w1.2 !! (m_brk m + 1) = Some q /\
  Z.of_nat (length (q_data q)) < q_pktcount q * q_pktsize q /\
  forall p, ihk_ikc_write_queue
    (Some (set_read_off (set_max_read_off (set_write_off q (q_pktcount q - 1)) (q_pktcount q - 1)) (q_pktcount q - 1)))
    (Some p) = Undef.
Proof.
  intros Hqp Hnp Hs H8 Hb Hok1 Hok2. set (qp := pages_of qsize) in *. set (o := Z.log2 qp) in *.
  assert (2 ^ o <= qp < 2 * 2 ^ o) as Hlog
    by (pose proof (Z.log2_spec qp ltac:(lia)) as Hsp; rewrite Z.pow_succ_r in Hsp by apply Z.log2_nonneg; exact Hsp).
  assert (0 <= o) by apply Z.log2_nonneg.
  assert (s32 (PAGE_SIZE * qp) = PAGE_SIZE * qp) as Hs32 by (apply s32_small; unfold PAGE_SIZE; lia).
  set (qa := m_brk m + 1) in *.
  set (raw := mk_queue 0 0 0 0 0 0 0 0 0 0 0 0 (fresh_buf qa (PAGE_SIZE * 2 ^ o - sizeof_queue_head))).
  set (n := (PAGE_SIZE * qp - sizeof_queue_head) / size).
  assert (2 <= n) as Hn by (apply Z.div_le_lower_bound; unfold PAGE_SIZE, sizeof_queue_head; lia).
  pose proof (Z.div_mod (PAGE_SIZE * qp - sizeof_queue_head) size ltac:(lia)) as Hd. fold n in Hd.
  pose proof (Z.mod_pos_bound (PAGE_SIZE * qp - sizeof_queue_head) size ltac:(lia)).
  assert (Z.of_nat (length (q_data raw)) < n * size) as Hshort
    by (unfold raw; cbn [q_data]; rewrite length_fresh_buf; unfold PAGE_SIZE, sizeof_queue_head in *; lia).
  assert (0 < n < 2 ^ 32) by (unfold PAGE_SIZE, sizeof_queue_head in *; nia).
  eexists _, _. split.
  { eapply (create_local os port size qsize flag k m raw _ (mk_mem (<[qa := raw]> (m_queues m)) (m_brk m + 1 + 1)) qa); try done.
    - lia.
    - cbn [ihk_ikc_alloc_queue Linux]. unfold alloc_queue_linux. fold qp.
      assert (fls qp = o + 1) as -> by (unfold fls; rewrite u32_small by lia; rewrite (proj2 (Z.eqb_neq _ _)); [done|lia]).
      replace (o + 1 - 1) with o by lia. rewrite (proj2 (Z.leb_le _ _)) by lia. io_eval. fold qa. by rewrite Hok2.
    - apply lookup_insert_eq.
    - fold qp. rewrite Hs32. unfold ihk_ikc_init_queue. rewrite (u64_small size) by lia.
      rewrite (proj2 (Z.eqb_neq _ _)) by lia. done. }
  cbn [fst snd m_queues]. rewrite lookup_insert_eq. split; [done|].
  rewrite (u16_small size), (u64_small (_ - _)) by (unfold PAGE_SIZE, sizeof_queue_head; lia). fold n.
  rewrite (u32_small n) by lia. split; [done|]. intros p.
  apply write_outside; cbn; try lia; try done. replace (n - 1 + 1) with n by lia. done.
Qed.

Lemma queue_alloc_short_witness :
  exists w1 q,
  @ihk_ikc_create_channel demo_env (@Linux demo_env) 0 7 64 12288 0 0 0 (demo_sender, demo_mem) = Ret ((1000, 1001), w1) /\
  m_queues w1.2 !! 1001 = Some q /\
  Z.of_nat (length (q_data q)) < q_pktcount q * q_pktsize q /\
  forall p, ihk_ikc_write_queue
    (Some (set_read_off (set_max_read_off (set_write_off q (q_pktcount q - 1)) (q_pktcount q - 1)) (q_pktcount q - 1)))
    (Some p) = Undef.
Proof.
  apply (queue_alloc_short (H := demo_env) 0 7 64 12288 0 demo_sender demo_mem); vm_compute; done.
Defined.

(** ** The packet pool of a channel *)

Section Pool.
Context `{Env} (a : Z).

(** Users of channel [a]'s packets: they take packets, fill the ones they
    hold with any bytes, and give back packets whose header names [a]. *)
Inductive pool_step : world * list Z -> world * list Z -> Prop :=
| ps_alloc w w' p held :
    ihk_ikc_alloc_packet a w = Ret (p, w') -> pool_step (w, held) (w', p :: held)
| ps_fill k m p b b' held :
    p ∈ held -> k_pkts k !! p = Some b -> length b' = length b ->
    pool_step (k, m, held) (set_pkts k (<[p := b']> (k_pkts k)), m, held)
| ps_release w w' p b l1 l2 :
    k_pkts w.1 !! p = Some b -> pkt_channel b = a ->
    ihk_ikc_release_packet p w = Ret (tt, w') -> pool_step (w, l1 ++ p :: l2) (w', l1 ++ l2).

(** The packets of the pool and those held are distinct live buffers, big
    enough for the list node of the pool. *)
Record pool_inv (s : world * list Z) : Prop := {
  pi_a : a <> 0;
  pi_brk : 0 < m_brk s.1.2;
  pi_chan : exists c q, k_chans s.1.1 !! a = Some c /\ m_queues s.1.2 !! qd_queue (c_recv c) = Some q /\
    sizeof_free_packet <= q_pktsize q /\
    NoDup (s.2 ++ c_pool c) /\
    Forall (fun p => 0 < p < m_brk s.1.2 /\ exists b, k_pkts s.1.1 !! p = Some b /\
                     sizeof_free_packet <= Z.of_nat (length b)) (s.2 ++ c_pool c)
}.

Lemma alloc_packet_inv k m held :
  pool_inv (k, m, held) ->
  exists p w', ihk_ikc_alloc_packet a (k, m) = Ret (p, w') /\ (p ∉ held) /\ pool_inv (w', p :: held).
Proof.
  intros [Ha Hb (c & q & Hc & Hq & Hs & Hnd & Hall)]. cbn [fst snd] in *.
  unfold ihk_ikc_alloc_packet. io_eval. rewrite Hc. io_eval. destruct (c_pool c) as [|p rest] eqn:Ep; io_eval.
  - rewrite Hq. io_eval. rewrite app_nil_r in *. rewrite Forall_forall in Hall. eexists _, _. split; [done|].
    assert (~ m_brk m ∈ held) as Hnew by (intros X; apply Hall in X; lia). split; [done|].
    split; cbn [fst snd m_brk]; [done|lia|]. exists c, q. rewrite Ep, app_nil_r. split_and!; try done; [by constructor|].
    rewrite Forall_cons, Forall_forall. cbn [k_pkts set_pkts]. split.
    + split; [lia|]. rewrite lookup_insert_eq. eexists. split; [done|]. unfold sizeof_free_packet in *.
      rewrite length_fresh_buf; lia.
    + intros x Hx. destruct (Hall x Hx) as [Hr Hbx]. split; [lia|]. rewrite lookup_insert_ne by (intros <-; done). done.
  - eexists _, _. split; [done|]. split.
    + intros X. apply NoDup_app in Hnd as (_ & Hd & _). by apply (Hd p X), list_elem_of_here.
    + split; cbn [fst snd m_brk k_chans set_chans]; try done. rewrite lookup_insert_eq.
      exists (c_set_pool c rest), q. cbn [c_recv c_pool c_set_pool k_pkts]. 
      assert (p :: held ++ rest ≡ₚ held ++ p :: rest) as Hperm by (by rewrite Permutation_middle).
      split_and!; try done; cbn [app]; by rewrite Hperm.
Qed.

Lemma pool_step_inv s s' : pool_inv s -> pool_step s s' -> pool_inv s'.
Proof.
  intros I Hst. destruct Hst as [[k m] w' p held Hal | k m p b b' held Hp Hb Hl | [k m] w' p b l1 l2 Hb Hch Hrel].
  - destruct (alloc_packet_inv k m held I) as (p' & w1 & E & _ & I'). rewrite Hal in E. by injection E as <- <-.
  - destruct I as [Ha Hbr (c & q & Hc & Hq & Hs & Hnd & Hall)]. split; try done. exists c, q. cbn [fst snd] in *.
    split_and!; try done. eapply Forall_impl; [exact Hall|]. intros x (Hx & bx & Hbx & Hlx). split; [done|].
    cbn [k_pkts set_pkts]. destruct (decide (x = p)) as [->|]; [|rewrite lookup_insert_ne by done; eauto].
    rewrite lookup_insert_eq. exists b'. split; [done|]. rewrite Hl. congruence.
  - destruct I as [Ha Hbr (c & q & Hc & Hq & Hs & Hnd & Hall)]. cbn [fst snd] in *.
    assert (l1 ++ p :: l2 ++ c_pool c ≡ₚ (l1 ++ l2) ++ c_pool c ++ [p]) as Hperm
      by (rewrite <- Permutation_middle, (Permutation_app_comm (c_pool c)); cbn [app]; rewrite <- Permutation_middle, app_assoc; done).
    rewrite <- app_assoc in Hnd, Hall. cbn [app] in Hnd, Hall. rewrite Hperm in Hnd, Hall.
    assert (0 < p) by (rewrite !Forall_app, Forall_singleton in Hall; lia).
    unfold ihk_ikc_release_packet in Hrel. rewrite (proj2 (Z.eqb_neq p 0)) in Hrel by lia.
    revert Hrel. io_eval. rewrite Hb. io_eval. rewrite Hch, (proj2 (Z.eqb_neq _ _) Ha). io_eval. rewrite Hc. io_eval.
    destruct (_ <? _); [done|]. io_eval. intros [= <-]. split; cbn [fst snd k_chans set_chans]; try done.
    rewrite lookup_insert_eq. by exists (c_set_pool c (c_pool c ++ [p])), q.
Qed.
End Pool.

(** C27: whatever sequence of allocations, uses and releases
    of a channel's packets has run, ihk_ikc_alloc_packet returns a packet that
    nobody holds, and ihk_ikc_release_packet of a held packet puts exactly
    that packet at the end of the pool. *)
Theorem packet_pool_safe `{Env} a s k m held :
  pool_inv a s -> rtc (pool_step a) s (k, m, held) ->
  (exists p w', ihk_ikc_alloc_packet a (k, m) = Ret (p, w') /\ 0 < p /\ p ∉ held) /\
  (forall p b, p ∈ held -> k_pkts k !! p = Some b -> pkt_channel b = a ->
     exists c, k_chans k !! a = Some c /\ (p ∉ c_pool c) /\
     ihk_ikc_release_packet p (k, m) =
       Ret (tt, (set_chans k (<[a := c_set_pool c (c_pool c ++ [p])]> (k_chans k)), m))).
Proof.
  intros I Hr. assert (pool_inv a (k, m, held)) as I'.
  { revert I. induction Hr as [|x y z Hxy _ IH]; auto. intros I. apply IH. eapply pool_step_inv; eauto. }
  split.
  - destruct (alloc_packet_inv a k m held I') as (p & w' & E & Hp & I2). exists p, w'. split_and!; try done.
    destruct I2 as [_ _ (c & q & _ & _ & _ & _ & Hall)]. apply Forall_cons in Hall as [Hall _]. lia.
  - intros p b Hp Hb Hch. destruct I' as [Ha _ (c & q & Hc & _ & _ & Hnd & Hall)]. cbn [fst snd] in *.
    exists c. split; [done|]. split; [apply NoDup_app in Hnd as (_ & Hd & _); by apply Hd|].
    rewrite Forall_app, Forall_forall in Hall. destruct Hall as [Hall _].
    destruct (Hall p Hp) as (Hpos & b' & Hb' & Hl). simplify_eq.
    unfold ihk_ikc_release_packet. rewrite (proj2 (Z.eqb_neq p 0)) by lia. io_eval. rewrite Hb. io_eval.
    rewrite (proj2 (Z.eqb_neq _ _) Ha). io_eval. rewrite Hc. io_eval. by rewrite (proj2 (Z.ltb_ge _ _)).
Qed.

Lemma demo_pool_inv : pool_inv 200 (demo_world1, []).
Proof.
  split; [lia|done|]. exists (demo_chan 500 0), demo_queue24. split_and!; try done. constructor.
Qed.

Lemma packet_pool_safe_witness :
  exists k m, rtc (pool_step (H := demo_env1) 200) (demo_world1, []) (k, m, [1000]) /\
  (exists p w', ihk_ikc_alloc_packet (H := demo_env1) 200 (k, m) = Ret (p, w') /\ 0 < p /\ p ∉ [1000]).
Proof.
  eexists _, _. split.
  - apply rtc_once. apply (ps_alloc (H := demo_env1) 200 demo_world1 _ 1000 []). reflexivity.
  - apply (packet_pool_safe (H := demo_env1) 200 (demo_world1, []) _ _ [1000] demo_pool_inv).
    apply rtc_once. apply (ps_alloc (H := demo_env1) 200 demo_world1 _ 1000 []). reflexivity.
Defined.

(** ** What the core relies on in its platform

    Both platform layers keep this contract; the protocol theorems of
    Master.v are proved against it. *)

Definition raw_queue `{Env} (a size : Z) : ihk_ikc_queue_head :=
  mk_queue 0 0 0 0 0 0 0 0 0 0 0 0 (fresh_buf a (size - sizeof_queue_head)).

Class PlatformOk `{Env} (P : Platform) : Type := {
  pages_ok : Z -> Prop;
  pages_ok_range : forall n, pages_ok n -> 0 < n < 2 ^ 19;
  po_alloc : forall k m n, pages_ok n -> malloc_ok (m_brk m) (PAGE_SIZE * n) = true ->
    ihk_ikc_alloc_queue n (k, m) =
      Ret (m_brk m, (k, mk_mem (<[m_brk m := raw_queue (m_brk m) (PAGE_SIZE * n)]> (m_queues m)) (m_brk m + 1)));
  po_set_regular : forall k m c cpu, 0 <= cpu < Z.of_nat (length (k_regular k)) ->
    ihk_ikc_set_regular_channel c cpu (k, m) =
      Ret (tt, (set_regular k (<[Z.to_nat cpu := c]> (k_regular k)), m));
  po_send : forall k m a qa q p opt,
    sends_on k a qa -> m_queues m !! qa = Some q -> queue_wf q -> q_write_off q + 1 < 2 ^ 64 ->
    q_pktsize q <= Z.of_nat (length p) -> full_test q (q_read_off q) (q_write_off q) = false ->
    exists q', ihk_ikc_send a (Some p) opt (k, m) =
      Ret (0, (notified k q opt, mk_mem (<[qa := q']> (m_queues m)) (m_brk m))) /\
    queue_wf q' /\ q_write_off q' = q_write_off q + 1 /\ same_shape q q' /\
    contents q' = contents q ++ [segment p 0 (q_pktsize q)]
}.
#[global] Arguments pages_ok {_} _ {_} _.

Section Contract.
Context `{Env}.

#[export] Instance Linux_ok : PlatformOk Linux.
Proof.
  refine {| pages_ok := fun n => exists o, 0 <= o < 19 /\ n = 2 ^ o |}.
  - intros n (o & Ho & ->). split; [apply Z.pow_pos_nonneg; lia|apply Z.pow_lt_mono_r; lia].
  - intros k m n (o & Ho & ->) Hok. cbn [ihk_ikc_alloc_queue Linux]. unfold alloc_queue_linux.
    rewrite fls_pow2 by lia. replace (o + 1 - 1) with o by lia. rewrite (proj2 (Z.leb_le _ _)) by lia.
    io_eval. by rewrite Hok.
  - intros k m c cpu Hcpu. cbn [ihk_ikc_set_regular_channel Linux]. unfold ihk_os_set_regular_channel. io_eval.
    rewrite (proj2 (Z.ltb_ge cpu 0)), (proj2 (Z.ltb_ge _ cpu)) by lia. cbn [orb]. io_eval. by rewrite aset_in.
  - intros k m a qa q p opt Hs. cbn [ihk_ikc_send Linux]. unfold send_linux.
    rewrite (proj2 (Z.eqb_neq a 0)) by apply (so_ptr _ _ _ Hs). by apply send_retry_room.
Defined.

#[export] Instance Manycore_ok : PlatformOk Manycore.
Proof.
  refine {| pages_ok := fun n => 0 < n < 2 ^ 19 |}; [done| | |].
  - intros k m n _ Hok. cbn [ihk_ikc_alloc_queue Manycore]. unfold alloc_queue_mc. io_eval. by rewrite Hok.
  - intros k m c cpu Hcpu. cbn [ihk_ikc_set_regular_channel Manycore]. unfold set_regular_channel_mc. io_eval.
    rewrite (proj2 (Z.leb_le _ _)), (proj2 (Z.ltb_lt _ _)) by lia. cbn [andb]. io_eval. by rewrite aset_in.
  - intros k m a qa q p opt [[Ha Hqa] (c & Hc & Hen & Hq)] Hm W H64 Hp Hfull.
    destruct (write_room q p W H64 Hp Hfull) as (q' & Hw & W' & Hoff & Hcnt & Hsz & Hcont).
    destruct (write_queue_cpu _ _ _ _ Hw) as [Hcpu _].
    exists q'. split; [|unfold same_shape; tauto]. unfold notified. cbn [ihk_ikc_send Manycore]. unfold send_mc.
    rewrite (proj2 (Z.eqb_neq _ _) Ha). io_eval. rewrite Hc. io_eval. rewrite Hen, Hq.
    rewrite (proj2 (Z.eqb_neq _ _) Hqa). io_eval. rewrite Hm. io_eval. rewrite Hw. io_eval.
    rewrite Z.eqb_refl. cbn [negb]. destruct (Z.land opt IKC_NO_NOTIFY =? 0); io_eval; auto.
    unfold ihk_ikc_send_interrupt. io_eval. rewrite Hc. io_eval. rewrite Hq, lookup_insert_eq. io_eval. by rewrite Hcpu.
Defined.
End Contract.

Section CreateContract.
Context `{Env} {P : Platform} {PO : PlatformOk P}.

(** The receive queue that a platform allocates and ihk_ikc_init_queue lays
    out is an empty, well-formed queue. *)
Lemma fresh_queue_ok qa size qp port :
  0 < qp < 2 ^ 19 -> 0 < size < 2 ^ 16 -> size mod 8 = 0 -> sizeof_queue_head + 2 * size <= PAGE_SIZE * qp ->
  exists q, ihk_ikc_init_queue (Some (raw_queue qa (PAGE_SIZE * qp))) 1 port (s32 (PAGE_SIZE * qp)) size = Ret (0, Some q) /\
  queue_wf q /\ contents q = [] /\ q_pktsize q = size /\ q_read_off q = 0 /\ q_write_off q = 0 /\
  capacity q = (PAGE_SIZE * qp - sizeof_queue_head) / size - 1.
Proof.
  intros Hqp Hs H8 Hfit.
  rewrite s32_small by (unfold PAGE_SIZE; lia).
  destruct (init_queue_ok (raw_queue qa (PAGE_SIZE * qp)) 1 port (PAGE_SIZE * qp) size)
    as (q & Hinit & W & Hc & Hsz & Hcap & _ & _); [done|done|unfold PAGE_SIZE, sizeof_queue_head in *; lia| |].
  { cbn [raw_queue q_data]. unfold raw_queue. cbn [q_data]. rewrite length_fresh_buf; unfold PAGE_SIZE, sizeof_queue_head in *; lia. }
  exists q. split_and!; try done; revert Hinit; unfold ihk_ikc_init_queue; destruct (_ =? _); try done; by intros [= <-].
Qed.

(** ihk_ikc_create_channel with a local receive queue and, when [sq] is not
    null, a send queue of the remote kernel. *)
Lemma create_ok os port size qsize sq flag k m SQ :
  pages_ok P (pages_of qsize) -> 0 < size < 2 ^ 16 -> size mod 8 = 0 ->
  sizeof_queue_head + 2 * size <= PAGE_SIZE * pages_of qsize -> 0 < m_brk m ->
  malloc_ok (m_brk m) (s32 (sizeof_chan + size)) = true ->
  malloc_ok (m_brk m + 1) (PAGE_SIZE * pages_of qsize) = true ->
  (sq <> 0 -> map_virtual (map_memory sq) <> 0 /\ map_virtual (map_memory sq) <> m_brk m + 1 /\
              m_queues m !! map_virtual (map_memory sq) = Some SQ) ->
  let a := m_brk m in let qa := m_brk m + 1 in let id := s32 (k_channel_id k + 1) in
  let sv := if sq =? 0 then 0 else map_virtual (map_memory sq) in
  exists q,
  ihk_ikc_create_channel os port size qsize 0 sq flag (k, m) =
    Ret ((a, virt_to_phys qa),
      (mk_kern (<[a := mk_chan os 0 0 (k_mchannel k) port id (mk_qd qa (u32 id) 0 (virt_to_phys qa) 0)
                         (if sq =? 0 then zero_qd else mk_qd sv (q_channel_id SQ) sq (map_memory sq) 0)
                         flag 0 []]> (k_chans k))
        (k_pkts k) (k_channels k ++ [a]) (k_mchannel k) (k_regular k) (k_listeners k) id (k_wait k)
        (if sq =? 0 then k_events k else k_events k ++ [EvMap sq (u64 (pages_of qsize * PAGE_SIZE))]),
       mk_mem (if sq =? 0 then <[qa := named_queue q id this_cpu]> (m_queues m)
               else <[sv := set_write_cpu SQ (u32 this_cpu)]> (<[qa := named_queue q id this_cpu]> (m_queues m)))
         (m_brk m + 2))) /\
  queue_wf q /\ contents q = [] /\ q_pktsize q = size /\ q_read_off q = 0 /\ q_write_off q = 0.
Proof.
  intros Hpg Hs H8 Hfit Hb Hok1 Hok2 HSQ a qa id sv. pose proof (pages_ok_range _ Hpg) as Hrange.
  destruct (fresh_queue_ok qa size (pages_of qsize) port Hrange Hs H8 Hfit) as (q & Hinit & W & Hc & Hsz & Hr & Hw & _).
  exists q. split; [|done]. unfold ihk_ikc_create_channel, ihk_ikc_malloc. io_eval. rewrite Hok1.
  rewrite (proj2 (Z.eqb_neq (m_brk m) 0)) by lia. io_eval. change (0 =? 0) with true. io_eval.
  rewrite po_alloc by done. io_eval. rewrite (proj2 (Z.eqb_neq (m_brk m + 1) 0)) by lia. io_eval.
  fold qa; fold a. rewrite lookup_insert_eq. io_eval. rewrite Hinit. io_eval. rewrite !insert_insert_eq, lookup_insert_eq. io_eval.
  rewrite !insert_insert_eq.
  assert (qa <> 0) as Hqa by (unfold qa; lia). replace (qa + 1) with (m_brk m + 2) by (unfold qa; lia).
  destruct (Z.eqb_spec sq 0) as [->|Hsq]; unfold ihk_ikc_get_master_channel, ihk_ikc_init_desc, ihk_os_get_unique_channel_id, map_queue; io_eval.
  - rewrite lookup_insert_eq. io_eval. rewrite (proj2 (Z.eqb_neq _ _) Hqa). io_eval.
    rewrite lookup_insert_eq. io_eval. rewrite !insert_insert_eq, lookup_insert_eq. io_eval.
    rewrite !insert_insert_eq, lookup_insert_eq. change (0 =? 0) with true. io_eval. by rewrite !insert_insert_eq.
  - destruct (HSQ Hsq) as (Hv0 & Hv1 & Hv). fold sv in Hv0, Hv1, Hv.
    rewrite lookup_insert_eq. io_eval. rewrite !insert_insert_eq, lookup_insert_eq. io_eval.
    rewrite (proj2 (Z.eqb_neq _ _) Hqa). io_eval.
    rewrite lookup_insert_eq. io_eval. rewrite !insert_insert_eq, lookup_insert_eq. io_eval.
    rewrite !insert_insert_eq, lookup_insert_eq. unfold sv in *. rewrite (proj2 (Z.eqb_neq _ _) Hv0). io_eval.
    rewrite lookup_insert_ne, Hv by done. io_eval. rewrite lookup_insert_eq. io_eval. by rewrite !insert_insert_eq.
Qed.
End CreateContract.
