(* ===== verification/Master.v ===== *)
(** * The IKC master channel protocol (src/ikc/master.c, src/linux/core/mikc.c)

    Connection set-up and tear-down: listening on a port, the CONNECT /
    CONNECT_REPLY / DISCONNECT messages exchanged over the master channels of
    two kernels, and the waiters for replies.  A call that sleeps is split
    into the part before the sleep, which yields [Sleeping], and the part
    after it. *)

From Stdlib Require Import ZArith Lia.
From stdpp Require Import base tactics numbers list gmap.
From S2P Require Import Prelude Queue Channel.
Open Scope ihk_scope.

(** ** Messages (src/ikc/include/ikc/msg.h) *)

Definition IHK_IKC_MASTER_MSG_INIT_ACK : Z := 0x10203010.
Definition IHK_IKC_MASTER_MSG_CONNECT : Z := 0x20000001.
Definition IHK_IKC_MASTER_MSG_CONNECT_REPLY : Z := 0x20000002.
Definition IHK_IKC_MASTER_MSG_DISCONNECT : Z := 0x20000008.
Definition IHK_IKC_MASTER_MSG_PACKET_ON_CHANNEL : Z := 0x20000010.

(** struct ihk_ikc_connect_param (without the result field channel). *)
Record ihk_ikc_connect_param : Type := mk_connect {
  cp_port : Z;
  cp_pkt_size : Z;
  cp_queue_size : Z;
  cp_magic : Z;
  cp_intr_cpu : Z;
  cp_handler : Z
}.

(** How far a call that may sleep got: it is over, or its caller sleeps on
    the waiter at an address. *)
Inductive blocking : Type :=
| Done (r : Z)
| Sleeping (ws : Z).

Definition zero_mpkt : ihk_ikc_master_packet := mk_mpkt 0 0 0 [0; 0; 0; 0; 0].
Definition param (p : ihk_ikc_master_packet) (i : nat) : Z := nth i (mp_param p) 0.

Section Master.
Context `{Env} `{Platform}.

(** Packet handlers by name; listen handlers by name: the return value and
    the packet handler they leave in the channel info; the architecture's
    handler for other master messages. *)
Context (handler_sem : Z -> Z -> Z -> io world Z).
Context (listen_sem : Z -> Z -> io world (Z * Z)).
Context (arch_handler : Z -> Z -> io world Z).

(** ihk_ikc_listen_port *)
Definition ihk_ikc_listen_port (p : option ihk_ikc_listen_param) : io world Z :=
  match p with
  | None => io_ret (- EINVAL)
  | Some p =>
      let port := l_port p in
      if (port <? 0) || (IHK_IKC_MAX_PORT <=? port) then io_ret (- EINVAL) else
      l <- io_gets (fun w => k_listeners w.1) ;;
      e <- io_lift (aget l port) ;;
      match e with
      | Some _ => io_ret (- EBUSY)
      | None =>
          l' <- io_lift (aset l port (Some p)) ;;
          io_modify (fun w => (set_listeners w.1 l', w.2)) ;;;
          io_ret 0
      end
  end.

(** ihk_ikc_master_send: the header of the packet on the stack is not set. *)
Definition ihk_ikc_master_send (msg ref a1 a2 a3 a4 a5 : Z) : io world Z :=
  c <- ihk_ikc_get_master_channel ;;
  let packet := mk_mpkt (le_value (fresh_buf 0 8)) (u32 msg) (u32 ref)
                  [u64 a1; u64 a2; u64 a3; u64 a4; u64 a5] in
  ihk_ikc_send c (Some (encode_mpkt packet)) 0.

(** ihk_ikc_accept: the result, *newc (0 when not set) and *rq. *)
Definition ihk_ikc_accept (cm : Z) (p : option ihk_ikc_listen_param)
  (packet_size rq sq remote_channel_va magic intr_cpu : Z) : io world (Z * Z * Z) :=
  match p with
  | None => io_ret (- ECONNREFUSED, 0, rq)
  | Some p =>
      if l_handler p =? 0 then io_ret (- ECONNREFUSED, 0, rq) else
      if negb (l_magic p =? magic) then io_ret (- ECONNREFUSED, 0, rq) else
      if negb (packet_size =? u64 (l_pkt_size p)) then io_ret (- ECONNABORTED, 0, rq) else
      m <- get_chan cm ;;
      '(c, rq) <- ihk_ikc_create_channel (c_remote_os m) (l_port p) (l_pkt_size p)
                    (u64 (l_queue_size p)) rq sq 0 ;;
      if c =? 0 then io_ret (- ENOMEM, 0, rq) else
      (if l_recv_direction p then
         ihk_ikc_channel_set_cpu c intr_cpu ;;;
         ihk_ikc_set_regular_channel c intr_cpu
       else io_ret tt) ;;;
      '(r, ph) <- listen_sem (l_handler p) c ;;
      if negb (r =? 0) then
        ihk_ikc_free_channel c ;;;
        io_ret (r, 0, rq)
      else
        upd_chan c (fun d => c_set_handler d ph) ;;;
        upd_chan c (fun d => c_set_remote d (c_remote_channel_id d) remote_channel_va) ;;;
        io_ret (0, c, rq)
  end.

(** ihk_ikc_wait_reply_prepare: the waiter lives on the caller's stack. *)
Definition ihk_ikc_wait_reply_prepare (msg ref : Z) : io world Z :=
  ws <- new_addr ;;
  io_modify (fun w => (set_wait w.1 (k_wait w.1 ++ [(ws, mk_wait 0 (u32 msg) (u32 ref) zero_mpkt)]), w.2)) ;;;
  io_ret ws.

(** ihk_ikc_wait_finish *)
Definition ihk_ikc_wait_finish (ws : Z) : io world unit :=
  io_modify (fun w => (set_wait w.1 (filter (fun x => x.1 <> ws) (k_wait w.1)), w.2)).

(** The waiter behind an address on a sleeping stack. *)
Definition get_wait (ws : Z) : io world ihk_ikc_master_wait_struct :=
  l <- io_gets (fun w => k_wait w.1) ;;
  o <- io_some (list_find (fun x => x.1 = ws) l) ;;
  io_ret o.2.2.

Definition reply_matches (p : ihk_ikc_master_packet) (w : ihk_ikc_master_wait_struct) : bool :=
  (ws_msg w =? mp_msg p) && (ws_ref w =? mp_ref p).

(** The body of the list walk of ihk_ikc_master_reply_handler. *)
Definition reply_one (p : ihk_ikc_master_packet) (x : Z * ihk_ikc_master_wait_struct) :
  Z * ihk_ikc_master_wait_struct :=
  if reply_matches p x.2 then (x.1, mk_wait 1 (ws_msg x.2) (ws_ref x.2) p) else x.

(** ihk_ikc_master_reply_handler *)
Definition ihk_ikc_master_reply_handler (p : ihk_ikc_master_packet) : io world Z :=
  l <- io_gets (fun w => k_wait w.1) ;;
  io_modify (fun w => (set_wait w.1 (reply_one p <$> l), w.2)) ;;;
  io_iter (fun x => emit (EvWake x.1)) (filter (fun x => reply_matches p x.2 = true) l) ;;;
  io_ret 0.

(** __ihk_send_disconnect *)
Definition ihk_send_disconnect (c : Z) : io world Z :=
  d <- get_chan c ;;
  ihk_ikc_master_send IHK_IKC_MASTER_MSG_DISCONNECT (c_remote_channel_id d)
    (c_channel_id d) 0 0 (c_remote_channel_va d) 0.

(** __ihk_wait_for_disconnect_ack, up to the sleep. *)
Definition ihk_wait_for_disconnect_ack (c : Z) : io world blocking :=
  d <- get_chan c ;;
  ws <- ihk_ikc_wait_reply_prepare IHK_IKC_MASTER_MSG_DISCONNECT (c_channel_id d) ;;
  r <- ihk_send_disconnect c ;;
  if negb (r =? 0) then
    ihk_ikc_wait_finish ws ;;;
    io_ret (Done (- EBUSY))
  else
    d <- get_chan c ;;
    if Z.land (c_flag d) IKC_FLAG_DESTROY_ACKED =? 0 then io_ret (Sleeping ws) else
    ihk_ikc_wait_finish ws ;;;
    io_ret (Done 0).

(** ihk_ikc_disconnect, up to the sleep. *)
Definition ihk_ikc_disconnect (c : Z) : io world blocking :=
  if c =? 0 then io_ret (Done (- EINVAL)) else
  upd_chan c (fun d => c_set_flag d (Z.ldiff (c_flag d) IKC_FLAG_ENABLED)) ;;;
  d <- get_chan c ;;
  if negb (Z.land (c_flag d) IKC_FLAG_DESTROYING =? 0) then io_ret (Done (- EBUSY)) else
  upd_chan c (fun d => c_set_flag d (Z.lor (c_flag d) IKC_FLAG_DESTROYING)) ;;;
  d <- get_chan c ;;
  if Z.land (c_flag d) IKC_FLAG_DESTROY_ACKED =? 0 then ihk_wait_for_disconnect_ack c else
  r <- ihk_send_disconnect c ;;
  io_ret (Done r).

(** The rest of ihk_ikc_disconnect after ihk_ikc_wait_master returned [wr]. *)
Definition ihk_ikc_disconnect_finish (ws wr : Z) : io world Z :=
  ihk_ikc_wait_finish ws ;;;
  io_ret wr.

(** ihk_ikc_destroy_channel *)
Definition ihk_ikc_destroy_channel (c : Z) : io world unit :=
  if c =? 0 then io_ret tt else
  ihk_ikc_disable_channel c ;;;
  ihk_ikc_free_channel c.

(** The CONNECT case of the master packet handler. *)
Definition handle_connect (c : Z) (packet : ihk_ikc_master_packet) : io world Z :=
  let port := s32 (Z.land (param packet 0) 0xffffffff) in
  '(r, newc, rq) <-
    (if (port <? 0) || (IHK_IKC_MAX_PORT <=? port) then io_ret (EINVAL, 0, 0) else
     l <- io_gets (fun w => k_listeners w.1) ;;
     p <- io_lift (aget l port) ;;
     ihk_ikc_accept c p (Z.shiftr (param packet 0) 32) (param packet 1) (param packet 2)
       (param packet 3) (s32 (param packet 4)) (s32 (Z.shiftr (param packet 4) 32))) ;;
  if negb (r =? 0) then
    ihk_ikc_master_send IHK_IKC_MASTER_MSG_CONNECT_REPLY (mp_ref packet) (- r) 0 0 0 0 ;;;
    io_ret 0
  else
    upd_chan newc (fun d => c_set_remote d (s32 (mp_ref packet)) (c_remote_channel_va d)) ;;;
    ihk_ikc_enable_channel newc ;;;
    ihk_ikc_master_send IHK_IKC_MASTER_MSG_CONNECT_REPLY (mp_ref packet)
      0 rq (param packet 3) newc 0 ;;;
    io_ret 0.

(** ihk_ikc_master_channel_packet_handler: [p] is the address of the packet. *)
Definition ihk_ikc_master_channel_packet_handler (c p : Z) : io world Z :=
  if (c =? 0) || (p =? 0) then io_ret (- EINVAL) else
  b <- get_pkt p ;;
  let packet := decode_mpkt b in
  ret <-
    (if mp_msg packet =? IHK_IKC_MASTER_MSG_PACKET_ON_CHANNEL then
       let c := param packet 3 in
       if c =? 0 then io_ret (- ENOENT) else
       d <- get_chan c ;;
       if negb (ihk_ikc_channel_enabled d) then io_ret 0 else
       q <- queue_ptr (qd_queue (c_recv d)) ;;
       if negb (ihk_ikc_queue_is_empty q =? 0) then io_ret 0 else
       ihk_ikc_recv_handler c (handler_sem (c_handler d)) 0 ;;;
       io_ret 0
     else if mp_msg packet =? IHK_IKC_MASTER_MSG_CONNECT then handle_connect c packet
     else if mp_msg packet =? IHK_IKC_MASTER_MSG_CONNECT_REPLY then
       ihk_ikc_master_reply_handler packet
     else if mp_msg packet =? IHK_IKC_MASTER_MSG_DISCONNECT then
       let newc := param packet 3 in
       if newc =? 0 then io_ret (- ENOENT) else
       upd_chan newc (fun d => c_set_flag d (Z.lor (c_flag d) IKC_FLAG_DESTROY_ACKED)) ;;;
       d <- get_chan newc ;;
       (if Z.land (c_flag d) IKC_FLAG_DESTROYING =? 0 then
          r <- ihk_ikc_disconnect newc ;;
          match r with
          | Done _ => io_ret tt
          | Sleeping _ => io_undef   (* a sleep in the interrupt handler *)
          end
        else io_ret tt) ;;;
       ihk_ikc_master_reply_handler packet
     else arch_handler c p) ;;
  ihk_ikc_release_packet p ;;;
  io_ret ret.

(** ihk_ikc_connect, up to the sleep: the channel is returned with it. *)
Definition ihk_ikc_connect (os : Z) (p : option ihk_ikc_connect_param) : io world (blocking * Z) :=
  match p with
  | None => io_ret (Done (- EINVAL), 0)
  | Some p =>
      '(c, rq) <- ihk_ikc_create_channel os (cp_port p) (cp_pkt_size p) (u64 (cp_queue_size p)) 0 0 0 ;;
      if c =? 0 then io_ret (Done (- ENOMEM), 0) else
      d <- get_chan c ;;
      let ref := c_channel_id d in
      ws <- ihk_ikc_wait_reply_prepare IHK_IKC_MASTER_MSG_CONNECT_REPLY ref ;;
      r <- ihk_ikc_master_send IHK_IKC_MASTER_MSG_CONNECT ref
             (Z.lor (u64 (Z.shiftl (u64 (cp_pkt_size p)) 32)) (u64 (cp_port p)))
             0 rq c
             (Z.lor (u64 (Z.shiftl (u64 (cp_intr_cpu p)) 32)) (u64 (cp_magic p))) ;;
      if r =? 0 then io_ret (Sleeping ws, c) else
      ihk_ikc_wait_finish ws ;;;
      ihk_ikc_free_channel c ;;;
      io_ret (Done (- EBUSY), 0)
  end.

(** The rest of ihk_ikc_connect after ihk_ikc_wait_master returned [wr]: the
    result and p->channel (0 when it is not set). *)
Definition ihk_ikc_connect_finish (p : ihk_ikc_connect_param) (c ws wr : Z) : io world (Z * Z) :=
  wq <- get_wait ws ;;
  ihk_ikc_wait_finish ws ;;;
  let res := ws_res wq in
  if negb (wr =? 0) then
    ihk_ikc_free_channel c ;;;
    io_ret (- EINTR, 0)
  else if negb (param res 0 =? 0) then
    ihk_ikc_free_channel c ;;;
    io_ret (s32 (- param res 0), 0)
  else
    ihk_ikc_set_remote_queue c (param res 1) (u64 (cp_queue_size p)) ;;;
    upd_chan c (fun d => c_set_remote d (s32 (qd_cache_channel_id (c_send d))) (param res 3)) ;;;
    upd_chan c (fun d => c_set_handler d (cp_handler p)) ;;;
    d <- get_chan c ;;
    rq <- get_queue (qd_queue (c_recv d)) ;;
    upd_queue (qd_queue (c_send d)) (fun q => set_write_cpu q (q_read_cpu rq)) ;;;
    upd_chan c (fun d => c_set_send d (qd_set_intr_cpu (c_send d) (cp_intr_cpu p))) ;;;
    ihk_ikc_enable_channel c ;;;
    io_ret (0, c).
End Master.

(** ** Lemmas: packing and packets *)

(** Two non-negative ints in one parameter: (high << 32) | low. *)
Lemma pack_value hi lo :
  0 <= hi < 2 ^ 32 -> 0 <= lo < 2 ^ 32 ->
  Z.lor (u64 (Z.shiftl (u64 hi) 32)) (u64 lo) = hi * 2 ^ 32 + lo.
Proof.
  intros Hh Hl. rewrite (u64_small hi), (u64_small lo), Z.shiftl_mul_pow2, u64_small by lia.
  assert (Z.land (hi * 2 ^ 32) lo = 0) as E.
  { apply Z.bits_inj'. intros i Hi. rewrite Z.land_spec, Z.bits_0. destruct (Z.lt_ge_cases i 32).
    - by rewrite Z.mul_pow2_bits_low.
    - rewrite <- (Z.mod_small lo (2 ^ 32)), Z.mod_pow2_bits_high, andb_false_r by lia. done. }
  pose proof (Z.add_lor_land (hi * 2 ^ 32) lo). lia.
Qed.

Lemma unpack_low hi lo : 0 <= lo < 2 ^ 32 -> Z.land (hi * 2 ^ 32 + lo) 0xffffffff = lo.
Proof.
  intros Hl. change 0xffffffff with (Z.ones 32). rewrite Z.land_ones by lia.
  rewrite Z.add_comm, Z.mod_add by lia. by apply Z.mod_small.
Qed.

Lemma unpack_high hi lo : 0 <= lo < 2 ^ 32 -> Z.shiftr (hi * 2 ^ 32 + lo) 32 = hi.
Proof.
  intros Hl. rewrite Z.shiftr_div_pow2 by lia. rewrite Z.add_comm, Z.div_add by lia.
  rewrite Z.div_small by lia. lia.
Qed.

Lemma s32_pack hi lo : 0 <= lo < 2 ^ 31 -> s32 (hi * 2 ^ 32 + lo) = lo.
Proof.
  intros Hl. unfold s32. replace (hi * 2 ^ 32 + lo + 2 ^ 31) with (lo + 2 ^ 31 + hi * 2 ^ 32) by lia.
  rewrite Z.mod_add, Z.mod_small by lia. lia.
Qed.

Definition mpkt_ok (p : ihk_ikc_master_packet) : Prop :=
  0 <= mp_msg p < 2 ^ 32 /\ 0 <= mp_ref p < 2 ^ 32 /\
  length (mp_param p) = 5%nat /\ Forall (fun x => 0 <= x < 2 ^ 64) (mp_param p).

Lemma encode_length p : length (mp_param p) = 5%nat -> length (encode_mpkt p) = 56%nat.
Proof.
  intros H5. destruct p as [c msg ref l]. cbn [mp_param] in H5. unfold encode_mpkt. cbn [mp_channel mp_msg mp_ref mp_param].
  do 5 (destruct l as [|? l]; [done|]). destruct l; [|done].
  cbn [fmap list_fmap concat]. rewrite !length_app, !length_le_bytes. done.
Qed.

Lemma segment_le_bytes l1 n z l2 off len :
  off = Z.of_nat (length l1) -> len = Z.of_nat n -> segment (l1 ++ le_bytes n z ++ l2) off len = le_bytes n z.
Proof.
  intros -> ->. unfold segment. rewrite !Nat2Z.id, drop_app_length.
  rewrite take_app_le by (rewrite length_le_bytes; lia). apply firstn_all2. rewrite length_le_bytes. lia.
Qed.

(** Encoding, setting the header on receipt, and decoding. *)
Lemma decode_encode p a :
  mpkt_ok p -> 0 <= a < 2 ^ 64 ->
  decode_mpkt (pkt_set_channel (encode_mpkt p) a) = mk_mpkt a (mp_msg p) (mp_ref p) (mp_param p).
Proof.
  destruct p as [c msg ref l]. unfold mpkt_ok. cbn [mp_channel mp_msg mp_ref mp_param].
  intros (Hm & Hr & H5 & Hl) Ha.
  do 5 (destruct l as [|? l]; [done|]). destruct l; [|done]. clear H5.
  rewrite !Forall_cons in Hl. destruct Hl as (H1 & H2 & H3 & H4 & H5 & _).
  unfold encode_mpkt, pkt_set_channel, splice. cbn [mp_channel mp_msg mp_ref mp_param fmap list_fmap concat].
  change (Z.to_nat 0) with 0%nat. rewrite take_0, length_le_bytes. cbn [Nat.add app].
  replace (drop 8 (le_bytes 8 c ++ le_bytes 4 msg ++ _)) with
    (le_bytes 4 msg ++ le_bytes 4 ref ++ le_bytes 8 z ++ le_bytes 8 z0 ++ le_bytes 8 z1 ++ le_bytes 8 z2 ++ le_bytes 8 z3 ++ [])
    by (by rewrite drop_app_length' by (by rewrite length_le_bytes)).
  unfold decode_mpkt.
  set (l := le_bytes 8 a ++ _).
  assert (forall n pre x post off len, l = pre ++ le_bytes n x ++ post -> off = Z.of_nat (length pre) -> len = Z.of_nat n ->
    0 <= x < 256 ^ len -> le_value (segment l off len) = x) as Hseg.
  { intros n pre x post off len -> Hoff Hlen Hx. rewrite (segment_le_bytes pre n) by done. apply le_roundtrip. by rewrite <- Hlen. }
  set (h := le_bytes 8 a ++ le_bytes 4 msg ++ le_bytes 4 ref).
  assert (length h = 16%nat) by (unfold h; by rewrite !length_app, !length_le_bytes).
  f_equal; [by eapply (Hseg 8%nat []) | eapply (Hseg 4%nat (le_bytes 8 a)); try done |
            eapply (Hseg 4%nat (le_bytes 8 a ++ le_bytes 4 msg)); [by rewrite <- app_assoc|..]; try done |].
    f_equal; [apply (Hseg 8%nat h z (le_bytes 8 z0 ++ le_bytes 8 z1 ++ le_bytes 8 z2 ++ le_bytes 8 z3 ++ []))|f_equal;
      [apply (Hseg 8%nat (h ++ le_bytes 8 z) z0 (le_bytes 8 z1 ++ le_bytes 8 z2 ++ le_bytes 8 z3 ++ []))|f_equal;
      [apply (Hseg 8%nat (h ++ le_bytes 8 z ++ le_bytes 8 z0) z1 (le_bytes 8 z2 ++ le_bytes 8 z3 ++ []))|f_equal;
      [apply (Hseg 8%nat (h ++ le_bytes 8 z ++ le_bytes 8 z0 ++ le_bytes 8 z1) z2 (le_bytes 8 z3 ++ []))|f_equal;
       apply (Hseg 8%nat (h ++ le_bytes 8 z ++ le_bytes 8 z0 ++ le_bytes 8 z1 ++ le_bytes 8 z2) z3 [])]]]];
      try (simpl; lia); try (unfold l, h; by rewrite <- !app_assoc); rewrite ?length_app, ?length_le_bytes; lia.
Qed.

(** ** The two ends of the master channels *)

Definition MASTER_HANDLER : Z := 1.

(** A kernel's master channel [mc]: it sends on the queue [sq] and receives
    from the queue [rq]. *)
Record master_end (k : kern) (m : mem) (mc sq rq : Z) (SQ RQ : ihk_ikc_queue_head) : Prop := {
  me_mc : k_mchannel k = mc;
  me_send : sends_on k mc sq;
  me_ready : ready mc rq MASTER_HANDLER (k, m) RQ;
  me_SQ : m_queues m !! sq = Some SQ;
  me_wfs : queue_wf SQ /\ queue_wf RQ;
  me_size : q_pktsize SQ = MASTER_IKCQ_PKTSIZE /\ q_pktsize RQ = MASTER_IKCQ_PKTSIZE;
  me_below : mc < m_brk m /\ sq < m_brk m /\ rq < m_brk m;
  me_apart : sq <> rq
}.

Definition has_room (q : ihk_ikc_queue_head) : Prop :=
  full_test q (q_read_off q) (q_write_off q) = false /\ q_write_off q + 1 < 2 ^ 64.

Section Ends.
Context `{Env} {P : Platform} {PO : PlatformOk P}.

Definition sent_packet (msg ref a1 a2 a3 a4 a5 : Z) : ihk_ikc_master_packet :=
  mk_mpkt (le_value (fresh_buf 0 8)) (u32 msg) (u32 ref) [u64 a1; u64 a2; u64 a3; u64 a4; u64 a5].

Lemma sent_packet_ok msg ref a1 a2 a3 a4 a5 : mpkt_ok (sent_packet msg ref a1 a2 a3 a4 a5).
Proof. repeat split; try apply u32_range. cbn [mp_param sent_packet]. repeat constructor; apply u64_range. Qed.

Lemma master_send_ok msg ref a1 a2 a3 a4 a5 k m mc sq SQ :
  k_mchannel k = mc -> sends_on k mc sq -> m_queues m !! sq = Some SQ -> queue_wf SQ ->
  q_pktsize SQ = MASTER_IKCQ_PKTSIZE -> has_room SQ ->
  exists SQ', ihk_ikc_master_send msg ref a1 a2 a3 a4 a5 (k, m) =
    Ret (0, (notified k SQ 0, mk_mem (<[sq := SQ']> (m_queues m)) (m_brk m))) /\
  queue_wf SQ' /\ same_shape SQ SQ' /\
  contents SQ' = contents SQ ++ [encode_mpkt (sent_packet msg ref a1 a2 a3 a4 a5)].
Proof.
  intros Hmc Hs Hq W Hsz [Hroom H64]. unfold ihk_ikc_master_send, ihk_ikc_get_master_channel. io_eval. rewrite Hmc.
  fold (sent_packet msg ref a1 a2 a3 a4 a5).
  pose proof (encode_length (sent_packet msg ref a1 a2 a3 a4 a5) eq_refl) as Hlen.
  destruct (po_send k m mc sq SQ (encode_mpkt (sent_packet msg ref a1 a2 a3 a4 a5)) 0)
    as (SQ' & E & W' & _ & Hsh & Hc); try done; [rewrite Hsz, Hlen; done|].
  exists SQ'. split_and!; try done. rewrite Hc, Hsz, segment_full by (rewrite Hlen; done). done.
Qed.

(** What a kernel must provide for its half of a connection. *)
Record side_ok (size qsize : Z) : Prop := {
  sd_pages : pages_ok P (pages_of qsize);
  sd_size : 0 < size < 2 ^ 16 /\ size mod 8 = 0 /\ sizeof_queue_head + 2 * size <= PAGE_SIZE * pages_of qsize;
  sd_malloc : forall a n, malloc_ok a n = true
}.

(** Phase 1: the connecting kernel has created its channel, registered the
    waiter and sent the CONNECT message. *)
Lemma connect_phase os p k m mc sq rq SQ RQ :
  master_end k m mc sq rq SQ RQ -> has_room SQ -> side_ok (cp_pkt_size p) (u64 (cp_queue_size p)) ->
  let c := m_brk m in let qa := m_brk m + 1 in let ws := m_brk m + 2 in let id := s32 (k_channel_id k + 1) in
  let d := mk_chan os 0 0 mc (cp_port p) id (mk_qd qa (u32 id) 0 (virt_to_phys qa) 0) zero_qd 0 0 [] in
  exists k1 q SQ',
  ihk_ikc_connect os (Some p) (k, m) =
    Ret ((Sleeping ws, c),
         (k1, mk_mem (<[sq := SQ']> (<[qa := named_queue q id this_cpu]> (m_queues m))) (m_brk m + 3))) /\
  k_chans k1 = <[c := d]> (k_chans k) /\ k_pkts k1 = k_pkts k /\ k_mchannel k1 = mc /\
  k_wait k1 = k_wait k ++ [(ws, mk_wait 0 (u32 IHK_IKC_MASTER_MSG_CONNECT_REPLY) (u32 id) zero_mpkt)] /\
  queue_wf q /\ contents q = [] /\ q_pktsize q = cp_pkt_size p /\ q_read_off q = 0 /\ q_write_off q = 0 /\
  queue_wf SQ' /\ same_shape SQ SQ' /\
  contents SQ' = contents SQ ++
    [encode_mpkt (sent_packet IHK_IKC_MASTER_MSG_CONNECT id
       (Z.lor (u64 (Z.shiftl (u64 (cp_pkt_size p)) 32)) (u64 (cp_port p))) 0 (virt_to_phys qa) c
       (Z.lor (u64 (Z.shiftl (u64 (cp_intr_cpu p)) 32)) (u64 (cp_magic p))))].
Proof.
  intros [Hmc Hs R HSQ [WS _] [HsS _] (Hb1 & Hb2 & Hb3) Hap] Hroom [Hpg (Hsz & H8 & Hfit) Hok] c qa ws id d.
  pose proof (rd_brk _ _ _ _ _ R) as Hbrk. cbn [snd] in Hbrk.
  destruct (create_ok os (cp_port p) (cp_pkt_size p) (u64 (cp_queue_size p)) 0 0 k m SQ)
    as (q & Hcr & W & Hc & Hqs & Hr0 & Hw0); try done.
  change (0 =? 0) with true in Hcr. cbv iota in Hcr. fold c qa id in Hcr. rewrite Hmc in Hcr. fold d in Hcr.
  set (k0 := mk_kern _ _ _ _ _ _ _ _ _) in Hcr.
  set (k1 := set_wait k0 (k_wait k ++ [(ws, mk_wait 0 (u32 IHK_IKC_MASTER_MSG_CONNECT_REPLY) (u32 id) zero_mpkt)])).
  set (m1 := mk_mem (<[qa := named_queue q id this_cpu]> (m_queues m)) (m_brk m + 3)).
  assert (sends_on k1 mc sq) as Hs1.
  { destruct Hs as [? (x & Hx & ?)]. split; [done|]. exists x. split; [|done]. cbn [k1 k0 k_chans set_wait].
    unfold k1, k0. cbn [k_chans set_wait]. by rewrite lookup_insert_ne by (unfold c; lia). }
  edestruct (master_send_ok IHK_IKC_MASTER_MSG_CONNECT id) with (k := k1) (m := m1) (mc := mc) (sq := sq) (SQ := SQ)
    as (SQ' & Hsend & WS' & Hsh & Hcont); [done|done| |done|done|done|].
  { unfold m1. cbn [m_queues]. by rewrite lookup_insert_ne by (unfold qa; lia). }
  exists (notified k1 SQ 0), q, SQ'. split.
  { unfold ihk_ikc_connect. erewrite io_bind_ret by exact Hcr. cbn [fst snd].
    rewrite (proj2 (Z.eqb_neq c 0)) by (unfold c; lia).
    erewrite io_bind_ret by (io_eval; unfold k0; cbn [k_chans]; rewrite lookup_insert_eq; done).
    erewrite (io_bind_ret (ihk_ikc_wait_reply_prepare _ _) _ _ ws (k1, m1)); [by erewrite io_bind_ret by exact Hsend|].
    unfold ihk_ikc_wait_reply_prepare. io_eval. unfold m1. by replace (c + 2 + 1) with (m_brk m + 3) by (unfold c; lia). }
  split_and!; done.
Qed.
End Ends.

(** ** Phase 2: the accepting kernel *)

Section Accept.
Context `{Env} {P : Platform} {PO : PlatformOk P}.
Context (listen_sem : Z -> Z -> io world (Z * Z)).

(** A listener that takes every channel and names [ph] as its handler. *)
Definition listener_accepts (h ph : Z) : Prop := forall c w, listen_sem h c w = Ret ((0, ph), w).

Lemma accept_ok k m mc dm lp sqp qa QA va cpu ph :
  k_chans k !! mc = Some dm -> side_ok (l_pkt_size lp) (u64 (l_queue_size lp)) -> 0 < m_brk m -> mc < m_brk m ->
  l_handler lp <> 0 -> listener_accepts (l_handler lp) ph ->
  sqp <> 0 -> map_virtual (map_memory sqp) = qa -> 0 < qa < m_brk m -> m_queues m !! qa = Some QA ->
  (l_recv_direction lp = true -> 0 <= cpu < Z.of_nat (length (k_regular k))) ->
  let c := m_brk m in let qb := m_brk m + 1 in
  exists k2 m2 d QB QA',
  ihk_ikc_accept listen_sem mc (Some lp) (u64 (l_pkt_size lp)) 0 sqp va (l_magic lp) cpu (k, m) =
    Ret ((0, c, virt_to_phys qb), (k2, m2)) /\
  k_chans k2 = <[c := d]> (k_chans k) /\ k_pkts k2 = k_pkts k /\ k_mchannel k2 = k_mchannel k /\
  c_flag d = 0 /\ qd_queue (c_recv d) = qb /\ qd_queue (c_send d) = qa /\ c_remote_channel_va d = va /\ c_handler d = ph /\
  m_queues m2 !! qb = Some QB /\ m_queues m2 !! qa = Some QA' /\
  (forall x, x <> qa -> x <> qb -> m_queues m2 !! x = m_queues m !! x) /\ m_brk m2 = m_brk m + 2 /\
  queue_wf QB /\ contents QB = [] /\ q_pktsize QB = l_pkt_size lp /\
  q_channel_id QB = u32 (s32 (k_channel_id k + 1)) /\
  q_read_cpu QB = u32 (if l_recv_direction lp then cpu else this_cpu) /\
  (exists v, QA' = set_write_cpu QA v).
Proof.
  intros Hdm [Hpg (Hsz & H8 & Hfit) Hok] Hb Hmc Hh Hacc Hsq Hmap Hqa HQA Hdir c qb.
  destruct (create_ok (c_remote_os dm) (l_port lp) (l_pkt_size lp) (u64 (l_queue_size lp)) sqp 0 k m QA)
    as (q & Hcr & W & Hc & Hqs & Hr0 & Hw0); try done.
  { intros _. rewrite Hmap. split_and!; [lia|lia|done]. }
  cbv zeta in Hcr. rewrite (proj2 (Z.eqb_neq _ _) Hsq), Hmap in Hcr. fold qb in Hcr. fold c in Hcr.
  set (id := s32 (k_channel_id k + 1)) in *. set (q1 := named_queue q id this_cpu) in *.
  set (k0 := mk_kern _ _ _ _ _ _ _ _ _) in Hcr. set (m0 := mk_mem _ _) in Hcr.
  assert (qb <> qa) as Hne by (unfold qb; lia).
  assert (c <> 0) as Hc0 by (unfold c; lia).
  unfold ihk_ikc_accept. rewrite (proj2 (Z.eqb_neq _ _) Hh), !Z.eqb_refl. cbn [negb].
  erewrite io_bind_ret by (io_eval; rewrite Hdm; done). erewrite io_bind_ret by exact Hcr. cbn [fst snd].
  rewrite (proj2 (Z.eqb_neq _ _) Hc0).
  set (d0 := mk_chan _ _ _ _ _ _ _ _ _ _ _) in k0.
  set (d := c_set_remote (c_set_handler d0 ph) 0 va).
  destruct (l_recv_direction lp) eqn:Ed.
  - set (m2 := mk_mem (<[qa := set_write_cpu (set_write_cpu QA (u32 this_cpu)) (u32 cpu)]> (<[qb := set_read_cpu q1 (u32 cpu)]> (m_queues m0))) (m_brk m + 2)).
    set (k2 := set_chans (set_regular k0 (<[Z.to_nat cpu := c]> (k_regular k))) (<[c := d]> (k_chans k))).
    exists k2, m2, d, (set_read_cpu q1 (u32 cpu)), (set_write_cpu (set_write_cpu QA (u32 this_cpu)) (u32 cpu)).
    split.
    { erewrite (io_bind_ret (io_bind (ihk_ikc_channel_set_cpu c cpu) _) _ _ tt (set_regular k0 (<[Z.to_nat cpu := c]> (k_regular k)), m2)).
      - erewrite io_bind_ret by apply Hacc. cbv beta iota. change (0 =? 0) with true. cbn [negb].
        io_eval. unfold k0. cbn [k_chans set_regular set_chans]. rewrite lookup_insert_eq. io_eval. rewrite lookup_insert_eq. io_eval.
        unfold k2, k0. cbn [k_chans set_regular set_chans]. by rewrite !insert_insert_eq.
      - erewrite (io_bind_ret (ihk_ikc_channel_set_cpu c cpu) _ _ tt (k0, m2)).
        + rewrite po_set_regular by (by apply Hdir). done.
        + unfold ihk_ikc_channel_set_cpu. io_eval. unfold k0. cbn [k_chans set_chans]. rewrite lookup_insert_eq. io_eval.
          unfold d0. cbn [c_recv c_send qd_queue]. unfold m0. cbn [m_queues]. rewrite lookup_insert_ne, lookup_insert_eq by done.
          io_eval. rewrite lookup_insert_ne, lookup_insert_eq by done. io_eval. done. }
    split_and!; try done; cbn [m_queues m2].
    + unfold m2. cbn [m_queues]. by rewrite lookup_insert_ne, lookup_insert_eq by done.
    + unfold m2. cbn [m_queues]. by rewrite lookup_insert_eq.
    + intros x Hx1 Hx2. unfold m2, m0. cbn [m_queues]. by rewrite !lookup_insert_ne by done.
    + by apply (named_queue_wf q id cpu).
    + by eexists.
  - set (k2 := set_chans k0 (<[c := d]> (k_chans k))).
    exists k2, m0, d, q1, (set_write_cpu QA (u32 this_cpu)). split.
    { erewrite io_bind_ret by done. erewrite io_bind_ret by apply Hacc. cbv beta iota. change (0 =? 0) with true. cbn [negb].
      io_eval. unfold k0. cbn [k_chans set_chans]. rewrite lookup_insert_eq. io_eval. rewrite lookup_insert_eq. io_eval.
      unfold k2, k0. cbn [k_chans set_chans]. by rewrite !insert_insert_eq. }
    split_and!; try done.
    + unfold m0. cbn [m_queues]. by rewrite lookup_insert_ne, lookup_insert_eq by done.
    + unfold m0. cbn [m_queues]. by rewrite lookup_insert_eq.
    + intros x Hx1 Hx2. unfold m0. cbn [m_queues]. by rewrite !lookup_insert_ne by done.
    + by apply named_queue_wf.
    + by eexists.
Qed.
End Accept.

(** The kernel gives a packet of a ready channel back to the pool. *)
Lemma release_ok (k : kern) (m : mem) a p b c :
  p <> 0 -> a <> 0 -> k_pkts k !! p = Some b -> pkt_channel b = a -> k_chans k !! a = Some c ->
  sizeof_free_packet <= Z.of_nat (length b) ->
  ihk_ikc_release_packet p (k, m) = Ret (tt, (set_chans k (<[a := c_set_pool c (c_pool c ++ [p])]> (k_chans k)), m)).
Proof.
  intros Hp Ha Hb Hch Hc Hl. unfold ihk_ikc_release_packet. rewrite (proj2 (Z.eqb_neq _ _) Hp). io_eval.
  rewrite Hb. io_eval. rewrite Hch, (proj2 (Z.eqb_neq _ _) Ha). io_eval. rewrite Hc. io_eval.
  by rewrite (proj2 (Z.ltb_ge _ _)).
Qed.

(** A CONNECT message as the connecting kernel builds it. *)
Definition connect_packet (pk : ihk_ikc_master_packet) (ref size port rphys va cpu magic : Z) : Prop :=
  mpkt_ok pk /\ mp_msg pk = IHK_IKC_MASTER_MSG_CONNECT /\ mp_ref pk = ref /\
  mp_param pk = [size * 2 ^ 32 + port; 0; rphys; va; cpu * 2 ^ 32 + magic].

(** A successful CONNECT_REPLY. *)
Definition reply_packet (pk : ihk_ikc_master_packet) (ref rphys va newc : Z) : Prop :=
  mpkt_ok pk /\ mp_msg pk = IHK_IKC_MASTER_MSG_CONNECT_REPLY /\ mp_ref pk = ref /\
  mp_param pk = [0; rphys; va; newc; 0].

Lemma mpkt_nil ch p : mpkt_ok p -> mpkt_ok (mk_mpkt ch (mp_msg p) (mp_ref p) (mp_param p)).
Proof. done. Qed.

(** The listener of the accepting kernel and the numbers of a connection. *)
Record accepts (k : kern) (m : mem) (lp : ihk_ikc_listen_param) (port magic cpu : Z) : Prop := {
  ac_port : 0 <= port < IHK_IKC_MAX_PORT;
  ac_entry : aget (k_listeners k) port = Ret (Some lp);
  ac_handler : l_handler lp <> 0;
  ac_magic : l_magic lp = magic /\ 0 <= magic < 2 ^ 31;
  ac_cpu : 0 <= cpu < 2 ^ 31;
  ac_dir : l_recv_direction lp = true -> cpu < Z.of_nat (length (k_regular k))
}.

(** What the two kernels have once the acceptor has run. *)
Record accepted_state `{Env} (k2 : kern) (m m2 : mem) (lp : ihk_ikc_listen_param) (ref va cpu qa sq ph : Z)
  (QA SQ : ihk_ikc_queue_head) (cb qb : Z) : Prop := {
  as_fresh : m_brk m <= cb <= m_brk m + 1 /\ qb = cb + 1 /\ qb < m_brk m2;
  as_chan : exists d, k_chans k2 !! cb = Some d /\ c_flag d = IKC_FLAG_ENABLED /\
    qd_queue (c_recv d) = qb /\ qd_queue (c_send d) = qa /\ c_remote_channel_va d = va /\
    c_remote_channel_id d = s32 ref /\ c_handler d = ph;
  as_recv : exists QB, m_queues m2 !! qb = Some QB /\ queue_wf QB /\ contents QB = [] /\
    q_pktsize QB = l_pkt_size lp /\ q_read_cpu QB = u32 (if l_recv_direction lp then cpu else this_cpu);
  as_send : exists v, m_queues m2 !! qa = Some (set_write_cpu QA v);
  as_reply : exists SQ' pk, m_queues m2 !! sq = Some SQ' /\ queue_wf SQ' /\ same_shape SQ SQ' /\
    contents SQ' = contents SQ ++ [encode_mpkt pk] /\ reply_packet pk ref (u64 (virt_to_phys qb)) va cb
}.

Section AcceptPhase.
Context `{Env} {P : Platform} {PO : PlatformOk P}.
Context (listen_sem : Z -> Z -> io world (Z * Z)).

Lemma handle_connect_ok k m mc dm sq SQ lp pk ref port rphys va cpu magic qa QA ph :
  k_chans k !! mc = Some dm -> k_mchannel k = mc -> sends_on k mc sq -> m_queues m !! sq = Some SQ -> queue_wf SQ ->
  q_pktsize SQ = MASTER_IKCQ_PKTSIZE -> has_room SQ -> 0 < m_brk m -> m_brk m + 1 < 2 ^ 64 -> mc < m_brk m -> sq < m_brk m ->
  connect_packet pk ref (l_pkt_size lp) port rphys va cpu magic -> accepts k m lp port magic cpu ->
  side_ok (l_pkt_size lp) (u64 (l_queue_size lp)) -> listener_accepts listen_sem (l_handler lp) ph ->
  rphys <> 0 -> map_virtual (map_memory rphys) = qa -> 0 < qa < m_brk m -> qa <> sq -> m_queues m !! qa = Some QA ->
  exists k2 m2, handle_connect listen_sem mc pk (k, m) = Ret (0, (k2, m2)) /\
  k_pkts k2 = k_pkts k /\ k_chans k2 !! mc = Some dm /\
  accepted_state k2 m m2 lp ref va cpu qa sq ph QA SQ (m_brk m) (m_brk m + 1).
Proof.
  intros Hdm Hmc Hs HSQ WS HsS Hroom Hb Hb64 Hmcb Hsqb ((Hmsg & Href & H5 & Hpar) & Em & Er & Ep)
    [Hport Hent Hh [Hmag Hmr] Hcpu Hdir] Hside Hacc Hrp Hmap Hqa Hqs HQA.
  pose proof (sd_size _ _ Hside) as (Hsz & _ & _).
  destruct (accept_ok listen_sem k m mc dm lp rphys qa QA va cpu ph)
    as (k1 & m1 & d & QB & QA' & Hac & Hk1 & Hp1 & Hm1 & Hf & Hr & Hsd & Hva & Hph & HQB & HQA' & Hfr & Hbrk & WB & HcB & HzB & HiB & HrB & HwA);
    try done; [naive_solver lia|].
  set (c := m_brk m) in *. set (qb := m_brk m + 1) in *.
  set (d1 := c_set_flag (c_set_remote d (s32 ref) (c_remote_channel_va d)) (Z.lor (c_flag d) IKC_FLAG_ENABLED)).
  set (k2 := set_chans k1 (<[c := d1]> (k_chans k1))).
  assert (sends_on k2 mc sq) as Hs2.
  { destruct Hs as [? (x & Hx & ?)]. split; [done|]. exists x. split; [|done]. unfold k2. cbn [k_chans set_chans].
    rewrite Hk1, !lookup_insert_ne by lia. done. }
  edestruct (master_send_ok IHK_IKC_MASTER_MSG_CONNECT_REPLY ref 0 (virt_to_phys qb) va c 0 k2 m1 mc sq SQ)
    as (SQ' & Hsend & WS' & Hsh & Hcont); try done.
  { by rewrite <- Hmc, <- Hm1. } { rewrite Hfr by (unfold qb; lia). done. }
  eexists _, _. split; [|split_and!].
  - unfold handle_connect, param. rewrite Ep, Er. cbn [nth]. rewrite unpack_low by (unfold IHK_IKC_MAX_PORT in *; lia).
    rewrite unpack_high by (unfold IHK_IKC_MAX_PORT in *; lia). rewrite s32_pack, unpack_high, !s32_small by (unfold IHK_IKC_MAX_PORT in *; lia).
    rewrite (proj2 (Z.ltb_ge port 0)), (proj2 (Z.leb_gt _ port)) by lia. cbn [orb].
    erewrite (io_bind_ret (io_bind (io_gets _) _) _ _ (0, c, virt_to_phys qb) (k1, m1)).
    + change (negb (0 =? 0)) with false. cbv iota.
      erewrite (io_bind_ret (upd_chan c _) _ _ tt); [|io_eval; rewrite Hk1, lookup_insert_eq; io_eval; done].
      erewrite (io_bind_ret (ihk_ikc_enable_channel c) _ _ tt (k2, m1)).
      * by erewrite io_bind_ret by exact Hsend.
      * unfold ihk_ikc_enable_channel. io_eval. rewrite lookup_insert_eq. io_eval. unfold k2, d1. by rewrite insert_insert_eq.
    + erewrite io_bind_ret by done. cbn [fst]. erewrite io_bind_ret by (unfold io_lift; rewrite Hent; done).
      rewrite <- (u64_small (l_pkt_size lp)) at 1 by lia. by rewrite <- Hmag.
  - done.
  - change (k_chans k2 !! mc = Some dm). unfold k2. cbn [k_chans set_chans]. rewrite Hk1, !lookup_insert_ne by lia. done.
  - assert (0 <= c < 2 ^ 64) as Hc64 by (unfold c; lia).
    split; cbn [m_brk m_queues].
    + rewrite Hbrk. unfold c, qb. lia.
    + exists d1. split; [change (k_chans k2 !! c = Some d1); unfold k2; cbn [k_chans set_chans]; by rewrite lookup_insert_eq|]. unfold d1. cbn. by rewrite Hf.
    + exists QB. rewrite lookup_insert_ne by (unfold qb; lia). done.
    + destruct HwA as [v ->]. exists v. by rewrite lookup_insert_ne by lia.
    + exists SQ', (sent_packet IHK_IKC_MASTER_MSG_CONNECT_REPLY ref 0 (virt_to_phys qb) va c 0).
      rewrite lookup_insert_eq. split_and!; try done. split; [apply sent_packet_ok|].
      cbn [sent_packet mp_msg mp_ref mp_param]. rewrite Ep in Hpar. rewrite !Forall_cons in Hpar.
      rewrite (u64_small va), (u64_small c), (u32_small ref) by (try lia; rewrite <- Er; done). done.
Qed.
End AcceptPhase.

(** What the receive path leaves of a kernel's master channel. *)
Lemma master_after_recv k k1 mc sq :
  same_kern mc k k1 -> sends_on k mc sq ->
  sends_on k1 mc sq /\ exists dm, k_chans k1 !! mc = Some dm.
Proof.
  intros Hsame [Hp (c & Hc & Hen & Hq)]. destruct (sk_chan _ _ _ Hsame) as [pool Hpool]. rewrite Hc in Hpool.
  split; [split; [done|]|]; by exists (c_set_pool c pool).
Qed.

Section AcceptStep.
Context `{Env} {P : Platform} {PO : PlatformOk P}.
Context (handler_sem : Z -> Z -> Z -> io world Z).
Context (listen_sem : Z -> Z -> io world (Z * Z)).
Context (arch_handler : Z -> Z -> io world Z).

(** A master message at the head of the queue reaches the master handler,
    decoded; when the handling of the message is over the packet is released
    and the receive handler returns 0. *)
Lemma master_recv_step k m mc rq RQ pk rest :
  ready mc rq MASTER_HANDLER (k, m) RQ -> queue_wf RQ -> contents RQ = encode_mpkt pk :: rest -> mpkt_ok pk ->
  exists p k1 m1 RQ',
  p <> 0 /\ k_pkts k1 !! p = Some (pkt_set_channel (encode_mpkt pk) mc) /\
  decode_mpkt (pkt_set_channel (encode_mpkt pk) mc) = mk_mpkt mc (mp_msg pk) (mp_ref pk) (mp_param pk) /\
  ready mc rq MASTER_HANDLER (k1, m1) RQ' /\ queue_wf RQ' /\ same_shape RQ RQ' /\ contents RQ' = rest /\
  same_kern mc k k1 /\ m_queues m1 = <[rq := RQ']> (m_queues m) /\ m_brk m <= m_brk m1 <= m_brk m + 1 /\
  forall r k2 m2 c2,
    ihk_ikc_master_channel_packet_handler handler_sem listen_sem arch_handler mc p (k1, m1) =
      (io_bind (fun _ => Ret (r, (k2, m2))) (fun ret => ihk_ikc_release_packet p ;;; io_ret ret)) (k1, m1) ->
    k_pkts k2 !! p = k_pkts k1 !! p -> k_chans k2 !! mc = Some c2 -> Z.land (c_flag c2) IKC_FLAG_NO_COPY = 0 ->
    ihk_ikc_recv_handler mc (ihk_ikc_master_channel_packet_handler handler_sem listen_sem arch_handler) 0 (k, m) =
      Ret (0, (set_chans k2 (<[mc := c_set_pool c2 (c_pool c2 ++ [p])]> (k_chans k2)), m2)).
Proof.
  intros R WR Hcont Hpk.
  assert (q_read_off RQ < q_max_read_off RQ) as Hne.
  { pose proof (qw_order RQ WR). destruct (Z.eq_dec (q_read_off RQ) (q_max_read_off RQ)); [|lia].
    rewrite contents_nil in Hcont by lia. done. }
  destruct (recv_handler_step mc rq MASTER_HANDLER
    (ihk_ikc_master_channel_packet_handler handler_sem listen_sem arch_handler) k m RQ R WR Hne)
    as (p & k1 & m1 & RQ' & Hrun & Hp & Hb & R1 & WR' & _ & Hsh & Hc2 & Hsame & Hmq & Hbrk).
  rewrite Hcont in Hc2. injection Hc2 as Hslot Hrest. rewrite <- Hslot in Hb.
  pose proof (rd_a _ _ _ _ _ R) as Ha. destruct Hpk as (Hm & Hr & H5 & Hpar).
  exists p, k1, m1, RQ'. split_and!; try done; try lia.
  { apply decode_encode; [done|lia]. }
  intros r k2 m2 c2 Hh Hpk2 Hc Hnc. rewrite Hb in Hpk2.
  assert (Z.of_nat (length (encode_mpkt pk)) = 56) as Hlen by (by rewrite encode_length).
  pose proof (release_ok k2 m2 mc p _ c2 Hp ltac:(lia) Hpk2 (pkt_channel_set (encode_mpkt pk) mc ltac:(lia) ltac:(lia)) Hc) as Hrel.
  rewrite Hrun. erewrite io_bind_ret; [|rewrite Hh; unfold io_bind at 1; cbv beta; erewrite io_bind_ret; [done|apply Hrel]].
  - io_eval. rewrite lookup_insert_eq. io_eval. cbn [c_flag c_set_pool]. by rewrite Hnc.
  - unfold pkt_set_channel, sizeof_free_packet. rewrite length_splice; rewrite ?length_le_bytes; lia.
Qed.

Lemma accept_phase k m mc sq rq SQ RQ lp pk rest ref port rphys va cpu magic qa QA ph :
  master_end k m mc sq rq SQ RQ -> has_room SQ -> m_brk m + 2 < 2 ^ 64 -> contents RQ = encode_mpkt pk :: rest ->
  connect_packet pk ref (l_pkt_size lp) port rphys va cpu magic -> accepts k m lp port magic cpu ->
  side_ok (l_pkt_size lp) (u64 (l_queue_size lp)) -> listener_accepts listen_sem (l_handler lp) ph ->
  rphys <> 0 -> map_virtual (map_memory rphys) = qa -> 0 < qa < m_brk m -> qa <> sq -> qa <> rq -> m_queues m !! qa = Some QA ->
  exists k2 m2 cb qb,
  ihk_ikc_recv_handler mc (ihk_ikc_master_channel_packet_handler handler_sem listen_sem arch_handler) 0 (k, m) =
    Ret (0, (k2, m2)) /\
  accepted_state k2 m m2 lp ref va cpu qa sq ph QA SQ cb qb.
Proof.
  intros ME Hroom H64 Hcont Hconn [Hport Hent Hh Hmag Hcpu Hdir] Hside Hacc Hrp Hmap Hqa Hqs Hqr HQA.
  pose proof Hconn as (Hok & Em & Er & Ep).
  destruct (master_recv_step k m mc rq RQ pk rest (me_ready _ _ _ _ _ _ _ ME) (proj2 (me_wfs _ _ _ _ _ _ _ ME)) Hcont Hok)
    as (p & k1 & m1 & RQ' & Hp & Hb & Hdec & R1 & WR' & _ & _ & Hsame & Hmq & Hbrk & Hfin).
  destruct ME as [Hmc Hs R HSQ [WS WR] [HsS HsR] (Hb1 & Hb2 & Hb3) Hap].
  destruct (master_after_recv k k1 mc sq Hsame Hs) as [Hs1 _].
  destruct (rd_chan _ _ _ _ _ R1) as (dm & Hdm & Hen & _ & _ & Hnc & _). cbn [fst] in Hdm.
  pose proof (rd_brk _ _ _ _ _ R) as Hbp. pose proof (rd_a _ _ _ _ _ R) as Ha. cbn [snd] in Hbp.
  destruct (handle_connect_ok listen_sem k1 m1 mc dm sq SQ lp (mk_mpkt mc (mp_msg pk) (mp_ref pk) (mp_param pk))
    ref port rphys va cpu magic qa QA ph) as (k2 & m2 & Hhc & Hpk2 & Hc2 & [Hfr Hch Hrv Hsn Hrep]); try done; try lia.
  { by rewrite (sk_mchannel _ _ _ Hsame). }
  { rewrite Hmq, lookup_insert_ne by done. done. }
  { split; try done; by rewrite ?(sk_listeners _ _ _ Hsame), ?(sk_regular _ _ _ Hsame). }
  { rewrite Hmq, lookup_insert_ne by done. done. }
  exists (set_chans k2 (<[mc := c_set_pool dm (c_pool dm ++ [p])]> (k_chans k2))), m2, (m_brk m1), (m_brk m1 + 1).
  split.
  - apply (Hfin 0 k2 m2 dm); [|by rewrite Hpk2|done|done].
    unfold ihk_ikc_master_channel_packet_handler.
    rewrite (proj2 (Z.eqb_neq mc 0)), (proj2 (Z.eqb_neq _ _) Hp) by lia. cbn [orb].
    erewrite io_bind_ret by (io_eval; rewrite Hb; done). rewrite Hdec. cbn [mp_msg]. rewrite Em.
    change (IHK_IKC_MASTER_MSG_CONNECT =? IHK_IKC_MASTER_MSG_PACKET_ON_CHANNEL) with false. rewrite Z.eqb_refl. cbv iota.
    rewrite Em in Hhc. erewrite io_bind_ret by exact Hhc. reflexivity.
  - split; try done; [lia|]. destruct Hch as (d & Hd & Hrest). exists d. split; [|done]. cbn [k_chans set_chans].
    rewrite lookup_insert_ne by lia. done.
Qed.
End AcceptStep.

(** ** Phase 3 and 4: the reply reaches the connecting kernel *)

Lemma wake_all (l : list (Z * ihk_ikc_master_wait_struct)) (k : kern) (m : mem) :
  io_iter (fun x => emit (EvWake x.1)) l (k, m) =
  Ret (tt, (set_events k (k_events k ++ ((fun x => EvWake x.1) <$> l)), m)).
Proof.
  revert k. induction l as [|x l IH]; intros k; cbn [io_iter].
  - cbn [fmap list_fmap]. rewrite app_nil_r. by destruct k.
  - erewrite io_bind_ret by done. cbn [fst snd]. rewrite IH. cbn [set_events k_events fmap list_fmap].
    by rewrite <- app_assoc.
Qed.

Lemma reply_handler_ok (p : ihk_ikc_master_packet) (k : kern) (m : mem) :
  ihk_ikc_master_reply_handler p (k, m) =
  Ret (0, (set_events (set_wait k (reply_one p <$> k_wait k))
             (k_events k ++ ((fun x => EvWake x.1) <$> filter (fun x => reply_matches p x.2 = true) (k_wait k))), m)).
Proof.
  unfold ihk_ikc_master_reply_handler. do 2 (erewrite io_bind_ret by done). cbn [fst snd].
  by erewrite io_bind_ret by apply wake_all.
Qed.

Lemma find_waiter (l : list (Z * ihk_ikc_master_wait_struct)) ws (x : ihk_ikc_master_wait_struct) :
  Forall (fun y => y.1 <> ws) l -> list_find (fun y => y.1 = ws) (l ++ [(ws, x)]) = Some (length l, (ws, x)).
Proof.
  induction 1 as [|y l Hy Hl IH]; cbn [app list_find length].
  - by rewrite decide_True.
  - rewrite decide_False by done. by rewrite IH.
Qed.

(** Only the waiter that is finished leaves the list. *)
Lemma filter_waiters (l : list (Z * ihk_ikc_master_wait_struct)) ws x :
  Forall (fun y => y.1 <> ws) l -> filter (fun y => y.1 <> ws) (l ++ [(ws, x)]) = l.
Proof.
  intros Hl. rewrite filter_app, filter_cons, filter_nil. rewrite decide_False by (intros X; by apply X).
  rewrite app_nil_r. induction Hl as [|y l Hy Hl IH]; [done|]. rewrite filter_cons, decide_True by done. by f_equal.
Qed.

(** A reply wakes waiters but neither adds nor removes one. *)
Lemma reply_keeps_waiters (l : list (Z * ihk_ikc_master_wait_struct)) pk ws :
  (fst <$> (reply_one pk <$> l) = fst <$> l) /\
  (Forall (fun y => y.1 <> ws) l -> Forall (fun y => y.1 <> ws) (reply_one pk <$> l)).
Proof.
  assert (fst <$> (reply_one pk <$> l) = fst <$> l) as Hfst.
  { rewrite <- list_fmap_compose. apply list_fmap_ext. intros i x _. unfold compose, reply_one.
    destruct (reply_matches pk x.2); done. }
  split; [done|]. intros Hl.
  assert (Forall (fun y => y <> ws) (fst <$> (reply_one pk <$> l))) as HF; [|by rewrite Forall_fmap in HF].
  by rewrite Hfst, Forall_fmap.
Qed.

Section Finish.
Context `{Env} {P : Platform} {PO : PlatformOk P}.
Context (handler_sem : Z -> Z -> Z -> io world Z).
Context (listen_sem : Z -> Z -> io world (Z * Z)).
Context (arch_handler : Z -> Z -> io world Z).

Lemma reply_phase k m mc rq RQ pk rest :
  ready mc rq MASTER_HANDLER (k, m) RQ -> queue_wf RQ -> contents RQ = encode_mpkt pk :: rest -> mpkt_ok pk ->
  mp_msg pk = IHK_IKC_MASTER_MSG_CONNECT_REPLY ->
  exists k2 m2 RQ',
  ihk_ikc_recv_handler mc (ihk_ikc_master_channel_packet_handler handler_sem listen_sem arch_handler) 0 (k, m) =
    Ret (0, (k2, m2)) /\
  k_wait k2 = reply_one (mk_mpkt mc (mp_msg pk) (mp_ref pk) (mp_param pk)) <$> k_wait k /\
  (forall x, x <> mc -> k_chans k2 !! x = k_chans k !! x) /\ m_queues m2 = <[rq := RQ']> (m_queues m).
Proof.
  intros R WR Hcont Hok Em.
  destruct (master_recv_step handler_sem listen_sem arch_handler k m mc rq RQ pk rest R WR Hcont Hok)
    as (p & k1 & m1 & RQ' & Hp & Hb & Hdec & R1 & _ & _ & _ & Hsame & Hmq & _ & Hfin).
  destruct (rd_chan _ _ _ _ _ R1) as (dm & Hdm & _ & _ & _ & Hnc & _). cbn [fst] in Hdm.
  pose proof (rd_a _ _ _ _ _ R1) as Ha.
  pose proof (reply_handler_ok (mk_mpkt mc (mp_msg pk) (mp_ref pk) (mp_param pk)) k1 m1) as Hrh.
  set (k2 := set_events _ _) in Hrh.
  exists (set_chans k2 (<[mc := c_set_pool dm (c_pool dm ++ [p])]> (k_chans k2))), m1, RQ'. split; [|split_and!].
  - apply (Hfin 0 k2 m1 dm); [|done|done|done]. unfold ihk_ikc_master_channel_packet_handler.
    rewrite (proj2 (Z.eqb_neq mc 0)), (proj2 (Z.eqb_neq _ _) Hp) by lia. cbn [orb].
    erewrite io_bind_ret by (io_eval; rewrite Hb; done). rewrite Hdec. cbn [mp_msg]. rewrite Em.
    change (IHK_IKC_MASTER_MSG_CONNECT_REPLY =? IHK_IKC_MASTER_MSG_PACKET_ON_CHANNEL) with false.
    change (IHK_IKC_MASTER_MSG_CONNECT_REPLY =? IHK_IKC_MASTER_MSG_CONNECT) with false. rewrite Z.eqb_refl. cbv iota.
    rewrite Em in Hrh. erewrite io_bind_ret by exact Hrh. done.
  - unfold k2. cbn [k_wait set_chans set_events set_wait]. by rewrite (sk_wait _ _ _ Hsame).
  - intros x Hx. unfold k2. cbn [k_chans set_chans set_events set_wait]. rewrite lookup_insert_ne by done.
    apply (sk_other _ _ _ Hsame x Hx).
  - done.
Qed.

Lemma connect_finish_ok p c ws k m d l w r qa QA qb QB :
  k_wait k = l ++ [(ws, w)] -> Forall (fun y => y.1 <> ws) l -> ws_res w = r -> param r 0 = 0 ->
  map_virtual (map_memory (param r 1)) = qb -> m_queues m !! qb = Some QB ->
  k_chans k !! c = Some d -> qd_queue (c_recv d) = qa -> m_queues m !! qa = Some QA -> c_flag d = 0 ->
  exists k2 m2 d2,
  ihk_ikc_connect_finish p c ws 0 (k, m) = Ret ((0, c), (k2, m2)) /\
  k_chans k2 = <[c := d2]> (k_chans k) /\ c_flag d2 = IKC_FLAG_ENABLED /\
  qd_queue (c_send d2) = qb /\ qd_queue (c_recv d2) = qa /\ c_remote_channel_va d2 = param r 3 /\
  c_remote_channel_id d2 = s32 (q_channel_id QB) /\ c_handler d2 = cp_handler p /\
  k_wait k2 = l /\ k_pkts k2 = k_pkts k /\
  m_queues m2 = <[qb := set_write_cpu QB (q_read_cpu QA)]> (m_queues m) /\ m_brk m2 = m_brk m.
Proof.
  intros Hw Hl Hr H0 Hmap HQB Hd Hqa HQA Hf. eexists _, _, _. split.
  - unfold ihk_ikc_connect_finish.
    erewrite io_bind_ret by (unfold get_wait; io_eval; rewrite Hw, find_waiter by done; done). cbn [snd].
    erewrite io_bind_ret by done. cbn [fst snd]. rewrite Hr, H0. change (negb (0 =? 0)) with false. cbv iota.
    unfold ihk_ikc_set_remote_queue. rewrite Hmap. io_eval. rewrite HQB. io_eval. rewrite Hd. io_eval.
    rewrite lookup_insert_eq. io_eval. rewrite lookup_insert_eq. io_eval. rewrite !insert_insert_eq, lookup_insert_eq. io_eval.
    cbn [c_recv c_send c_set_handler c_set_remote c_set_send qd_queue]. rewrite Hqa, HQA. io_eval. rewrite HQB. io_eval.
    rewrite lookup_insert_eq. io_eval. unfold ihk_ikc_enable_channel. io_eval. rewrite !insert_insert_eq, lookup_insert_eq. io_eval.
    rewrite !insert_insert_eq. done.
  - cbn [k_chans k_wait k_pkts m_queues m_brk set_chans set_wait set_events c_flag c_set_flag c_set_send c_set_handler c_set_remote c_send c_recv
      qd_queue qd_set_intr_cpu c_remote_channel_va c_remote_channel_id c_handler qd_cache_channel_id]. rewrite Hf.
    split_and!; try done. by rewrite Hw, filter_waiters.
Qed.
End Finish.

(** ** The whole handshake *)

Section Handshake.
(** Kernel A connects, kernel B accepts; each has its environment, platform
    and handlers. *)
Context (EA EB : Env) (PA PB : Platform) {POA : @PlatformOk EA PA} {POB : @PlatformOk EB PB}.
Context (hsA hsB : Z -> Z -> Z -> io world Z) (lsA lsB : Z -> Z -> io world (Z * Z)) (arA arB : Z -> Z -> io world Z).

(** ihk_ikc_connect on A up to its sleep; the receive handler of B's master
    channel; the one of A's; and, if the waiter has been woken, the rest of
    ihk_ikc_connect. *)
Definition handshake (os : Z) (p : ihk_ikc_connect_param) (mcA mcB : Z) (s : pair_state) :
  outcome ((Z * Z) * pair_state) :=
  let '(ka, kb, m) := s in
  '(b, c, (ka, m)) ← @ihk_ikc_connect EA PA os (Some p) (ka, m);
  match b with
  | Done r => Ret ((r, c), (ka, kb, m))
  | Sleeping ws =>
      '(_, (kb, m)) ← @ihk_ikc_recv_handler EB mcB (@ihk_ikc_master_channel_packet_handler EB PB hsB lsB arB) 0 (kb, m);
      '(_, (ka, m)) ← @ihk_ikc_recv_handler EA mcA (@ihk_ikc_master_channel_packet_handler EA PA hsA lsA arA) 0 (ka, m);
      '(w, _) ← get_wait ws (ka, m);
      if ws_status w =? 0 then Undef else
      '(r, (ka, m)) ← @ihk_ikc_connect_finish EA PA p c ws 0 (ka, m);
      Ret (r, (ka, kb, m))
  end.

(** An address of A, sent as a physical address, leads B to the same queue,
    and the other way round. *)
Definition translates (E1 E2 : Env) : Prop := forall a, 0 < a < 2 ^ 64 ->
  0 < @virt_to_phys E1 a < 2 ^ 64 /\ @map_virtual E2 (@map_memory E2 (@virt_to_phys E1 a)) = a.

Lemma empty_has_room q : queue_wf q -> contents q = [] -> q_write_off q + 1 < 2 ^ 64 -> has_room q.
Proof.
  intros W Hc H64. split; [|done]. pose proof (full_test_spec q W) as Hf. rewrite Hc in Hf.
  destruct (full_test q _ _); [|done]. pose proof (g_count q (qw_geom q W)). unfold capacity in Hf. cbn [length] in Hf.
  destruct Hf as [Hf _]. specialize (Hf eq_refl). lia.
Qed.

Lemma connect_sends ids p phys c :
  0 <= cp_pkt_size p < 2 ^ 16 -> 0 <= cp_port p < IHK_IKC_MAX_PORT -> 0 <= cp_magic p < 2 ^ 31 -> 0 <= cp_intr_cpu p < 2 ^ 31 ->
  0 <= phys < 2 ^ 64 -> 0 <= c < 2 ^ 64 ->
  connect_packet (@sent_packet EA IHK_IKC_MASTER_MSG_CONNECT ids
       (Z.lor (u64 (Z.shiftl (u64 (cp_pkt_size p)) 32)) (u64 (cp_port p))) 0 phys c
       (Z.lor (u64 (Z.shiftl (u64 (cp_intr_cpu p)) 32)) (u64 (cp_magic p))))
    (u32 ids) (cp_pkt_size p) (cp_port p) phys c (cp_intr_cpu p) (cp_magic p).
Proof.
  intros Hs Hp Hm Hc Hph Hcc. unfold IHK_IKC_MAX_PORT in Hp. split; [apply sent_packet_ok|]. split_and!; try done.
  cbn [mp_param sent_packet]. rewrite !pack_value by lia.
  rewrite (u64_small (_ * _ + cp_port p)), (u64_small (_ * _ + cp_magic p)), (u64_small phys), (u64_small c) by lia. done.
Qed.

Lemma wake_and_finish p ka m mcA qBA RQ pk l ws ref cA cB d qa QA qb QB phys :
  ready mcA qBA MASTER_HANDLER (ka, m) RQ -> queue_wf RQ -> contents RQ = [encode_mpkt pk] ->
  reply_packet pk ref phys cA cB -> @map_virtual EA (@map_memory EA phys) = qb ->
  k_wait ka = l ++ [(ws, mk_wait 0 IHK_IKC_MASTER_MSG_CONNECT_REPLY ref zero_mpkt)] -> Forall (fun x => x.1 <> ws) l ->
  k_chans ka !! cA = Some d -> cA <> mcA -> c_flag d = 0 -> qd_queue (c_recv d) = qa ->
  m_queues m !! qa = Some QA -> m_queues m !! qb = Some QB -> qa <> qBA -> qb <> qBA ->
  exists ka2 m2 w ka3 m3 d3,
  @ihk_ikc_recv_handler EA mcA (@ihk_ikc_master_channel_packet_handler EA PA hsA lsA arA) 0 (ka, m) = Ret (0, (ka2, m2)) /\
  get_wait ws (ka2, m2) = Ret (w, (ka2, m2)) /\ ws_status w = 1 /\
  @ihk_ikc_connect_finish EA PA p cA ws 0 (ka2, m2) = Ret ((0, cA), (ka3, m3)) /\
  k_chans ka3 !! cA = Some d3 /\ c_flag d3 = IKC_FLAG_ENABLED /\ qd_queue (c_send d3) = qb /\ qd_queue (c_recv d3) = qa /\
  c_remote_channel_va d3 = cB /\ c_handler d3 = cp_handler p /\ fst <$> k_wait ka3 = fst <$> l /\
  (qa <> qb -> m_queues m3 !! qa = Some QA) /\ m_queues m3 !! qb = Some (set_write_cpu QB (q_read_cpu QA)).
Proof.
  intros R W Hcont (Hpk & Em & Er & Ep) Hmap Hw Hl Hd HcA Hf Hqa HQA HQB Hn1 Hn2.
  destruct (@reply_phase EA PA hsA lsA arA ka m mcA qBA RQ pk [] R W Hcont Hpk Em)
    as (ka2 & m2 & R2 & Hrep & Hw2 & Hoth & Hmq).
  rewrite Hw, fmap_app in Hw2. cbn [fmap list_fmap] in Hw2. unfold reply_one at 2, reply_matches in Hw2.
  cbn [fst snd ws_msg ws_ref mp_msg mp_ref] in Hw2. rewrite Em, Er, !Z.eqb_refl in Hw2. cbn [andb] in Hw2.
  set (pk' := mk_mpkt mcA _ _ _) in Hw2. set (l2 := _ <$> l) in Hw2.
  destruct (reply_keeps_waiters l pk' ws) as [Hfst Hl2]. fold l2 in Hfst, Hl2. specialize (Hl2 Hl).
  destruct (@connect_finish_ok EA PA p cA ws ka2 m2 d l2 _ pk' qa QA qb QB Hw2 Hl2)
    as (ka3 & m3 & d3 & Hfin & Hch3 & Haf & Has & Har & Hava & _ & Hah & Hw3 & _ & Hmq3 & _);
    try done; try (unfold pk', param; cbn [mp_param]; rewrite Ep; done);
    [by rewrite Hmq, lookup_insert_ne|by rewrite Hoth|by rewrite Hmq, lookup_insert_ne|].
  eexists ka2, m2, _, ka3, m3, d3. split; [exact Hrep|].
  split; [unfold get_wait; io_eval; rewrite Hw2, find_waiter by done; done|]. cbn [ws_status fst snd].
  rewrite Hch3, lookup_insert_eq, Hava, Hw3, Hmq3, lookup_insert_eq, Hmq. split_and!; try done.
  - unfold pk', param. cbn [mp_param]. by rewrite Ep.
  - intros Hne. by rewrite !lookup_insert_ne by done.
Qed.

(** C1: two kernels whose master channels are up and empty:
    kernel A calls ihk_ikc_connect for a port on which kernel B listens with
    the same packet size and magic.  The call, the two runs of the master
    packet handler and the continuation after the sleep all complete, the call
    returns 0, and the two kernels then hold a channel each, both enabled,
    each one's send queue the other's (distinct, empty, well-formed) receive
    queue, each naming the other's descriptor, with the handlers that the
    caller and the listener chose; A's own waiter is gone and no other is.
    This holds for both platform layers on either side. *)
Theorem connect_handshake os p mcA mcB qAB qBA QAB QBA lp ph ka kb m :
  @master_end ka m mcA qAB qBA QAB QBA -> @master_end kb m mcB qBA qAB QBA QAB ->
  contents QAB = [] -> contents QBA = [] -> q_write_off QAB + 1 < 2 ^ 64 -> q_write_off QBA + 1 < 2 ^ 64 ->
  @side_ok EA PA POA (cp_pkt_size p) (u64 (cp_queue_size p)) -> @side_ok EB PB POB (l_pkt_size lp) (u64 (l_queue_size lp)) ->
  accepts kb m lp (cp_port p) (cp_magic p) (cp_intr_cpu p) -> l_pkt_size lp = cp_pkt_size p ->
  listener_accepts lsB (l_handler lp) ph -> translates EA EB -> translates EB EA ->
  m_brk m + 7 < 2 ^ 64 -> Forall (fun x => x.1 < m_brk m) (k_wait ka) ->
  exists ka' kb' m' cA cB da db QA QB,
  handshake os p mcA mcB (ka, kb, m) = Ret ((0, cA), (ka', kb', m')) /\
  k_chans ka' !! cA = Some da /\ k_chans kb' !! cB = Some db /\
  c_flag da = IKC_FLAG_ENABLED /\ c_flag db = IKC_FLAG_ENABLED /\
  qd_queue (c_send da) = qd_queue (c_recv db) /\ qd_queue (c_send db) = qd_queue (c_recv da) /\
  qd_queue (c_recv da) <> 0 /\ qd_queue (c_recv db) <> 0 /\ qd_queue (c_recv da) <> qd_queue (c_recv db) /\
  c_remote_channel_va da = cB /\ c_remote_channel_va db = cA /\ c_handler da = cp_handler p /\ c_handler db = ph /\
  m_queues m' !! qd_queue (c_recv da) = Some QA /\ m_queues m' !! qd_queue (c_recv db) = Some QB /\
  queue_wf QA /\ queue_wf QB /\ contents QA = [] /\ contents QB = [] /\
  q_pktsize QA = cp_pkt_size p /\ q_pktsize QB = cp_pkt_size p /\
  fst <$> k_wait ka' = fst <$> k_wait ka.
Proof.
  intros MA MB HcAB HcBA H64A H64B SA SB Acc Hsize Hlis Tab Tba Hbrk Hwait.
  destruct MA as [HmcA HsA RA HSA [WAB WBA] [HzAB HzBA] (Hb1 & Hb2 & Hb3) HapA].
  pose proof (rd_brk _ _ _ _ _ RA) as Hb0. cbn [snd] in Hb0. pose proof (rd_a _ _ _ _ _ RA) as HmcA0.
  set (qa := m_brk m + 1). destruct (Tab qa ltac:(unfold qa; lia)) as [Hva Htr].
  (* phase 1 *)
  destruct (@connect_phase EA PA POA os p ka m mcA qAB qBA QAB QBA)
    as (ka1 & q & QAB' & Hcon & Hch1 & Hpk1 & Hmc1 & Hw1 & Wq & Hcq & Hzq & _ & _ & WAB' & Hsh1 & Hcont1);
    [by split|by apply empty_has_room|done|].
  fold qa in Hcon, Hch1, Hcont1. set (id := s32 (k_channel_id ka + 1)) in *.
  set (nq := named_queue q id (@this_cpu EA)) in *. set (m1 := mk_mem _ _) in Hcon. set (cA := m_brk m) in *. set (ws := cA + 2) in *.
  rewrite HcAB in Hcont1. cbn [app] in Hcont1.
  (* phase 2 *)
  destruct MB as [HmcB HsB RB HSB _ _ (HbB1 & _ & _) _].
  pose proof (rd_queue _ _ _ _ _ RB) as HqAB. cbn [snd] in HqAB. pose proof (rd_qa _ _ _ _ _ RB) as HqAB0.
  destruct Hsh1 as (Hcn1 & Hsz1 & Hcpu1).
  assert (qAB <> qa /\ qBA <> qa /\ qa <> 0 /\ qAB <> qBA) as (Hn1 & Hn2 & Hn3 & Hn4) by (unfold qa; lia).
  assert (master_end kb m1 mcB qBA qAB QBA QAB') as MB1.
  { split; try done; unfold m1; cbn [m_queues m_brk].
    - destruct RB as [? ? ? ? ? (d & Hd & He & Hq' & Hh & Hnc & Hpool)]. cbn [fst snd] in *.
      split; cbn [fst snd m_queues m_brk]; try done; [by rewrite Hsz1|lia|by rewrite lookup_insert_eq|].
      exists d. by rewrite Hsz1.
    - by rewrite !lookup_insert_ne by done.
    - by rewrite Hsz1.
    - lia. }
  pose proof (sd_size _ _ SA) as (HszA & _ & _). destruct Acc as [Hport Hent Hhan [Hmag Hmr] Hcpu Hdir].
  edestruct (@accept_phase EB PB POB hsB lsB arB kb m1 mcB qBA qAB QBA QAB' lp) with
    (ref := u32 id) (port := cp_port p) (rphys := @virt_to_phys EA qa) (va := cA) (cpu := cp_intr_cpu p)
    (magic := cp_magic p) (qa := qa) (QA := nq) (ph := ph)
    as (kb2 & m2 & cB & qb & Hacc & AS); try done; try (unfold m1; cbn [m_brk]; lia).
  { by apply empty_has_room. }
  { rewrite Hsize. apply connect_sends; try done; unfold cA; lia. }
  { unfold m1. cbn [m_queues]. by rewrite lookup_insert_ne, lookup_insert_eq by done. }
  destruct AS as [(Hf1 & Hf2 & Hf3) (db & Hdb & Hdf & Hdr & Hds & Hdva & _ & Hdh) (QB & HQB & WB & HcB & HzB & _) (v & HQA)
    (QBA' & pk & HBA & WBA' & (Hcn2 & Hsz2 & _) & Hcont2 & Hpk & Em & Er & Ep)].
  unfold m1, cA in Hf1. cbn [m_brk] in Hf1.
  destruct (Tba qb) as [Hvb Htrb]; [lia|]. rewrite (u64_small (@virt_to_phys EB qb)) in Ep by lia.
  (* phase 3 *)
  assert (ready mcA qBA MASTER_HANDLER (ka1, m2) QBA') as RA2.
  { destruct RA as [? ? ? ? ? (d & Hd & He & Hq' & Hh & Hnc & Hpool)]. cbn [fst snd] in *.
    split; cbn [fst snd]; try done; [by rewrite Hsz2|lia|]. exists d. rewrite Hch1, Hpk1, Hsz2, lookup_insert_ne by (unfold cA; lia). done. }
  rewrite HcBA in Hcont2. cbn [app] in Hcont2.
  assert (Forall (fun y => y.1 <> ws) (k_wait ka)) as Hws
    by (eapply Forall_impl; [exact Hwait|]; intros y Hy; unfold ws, cA; simpl in Hy; lia).
  destruct (wake_and_finish p ka1 m2 mcA qBA QBA' pk (k_wait ka) ws (u32 id) cA cB
    (mk_chan os 0 0 mcA (cp_port p) id (mk_qd qa (u32 id) 0 (@virt_to_phys EA qa) 0) zero_qd 0 0 [])
    qa (set_write_cpu nq v) qb QB (@virt_to_phys EB qb))
    as (ka2 & m3 & w & ka3 & m4 & da & Hrep & Hgw & Hst & Hfin & Hda & Haf & Has & Har & Hava & Hah & Hw3 & HmA & HmB);
    try done; try (unfold qa in *; lia).
  { rewrite Hch1. by rewrite lookup_insert_eq. }
  exists ka3, kb2, m4, cA, cB, da, db, (set_write_cpu nq v), (set_write_cpu QB (q_read_cpu (set_write_cpu nq v))).
  split.
  { unfold handshake. rewrite Hcon. cbn [mbind outcome_bind]. rewrite Hacc. cbn [mbind outcome_bind]. rewrite Hrep.
    cbn [mbind outcome_bind]. rewrite Hgw. cbn [mbind outcome_bind]. rewrite Hst.
    change (1 =? 0) with false. cbv iota. rewrite Hfin. done. }
  rewrite Has, Har, Hdr, Hds, HmA, HmB by (unfold qa; lia).
  split_and!; try done; try (unfold qa; lia).
  - by apply (named_queue_wf q id (@this_cpu EA)) in Wq as [[] ? ? ? ?].
  - by destruct WB as [[] ? ? ? ?].
  - cbn [q_pktsize set_write_cpu]. by rewrite HzB, Hsize.
Qed.
End Handshake.

(** A host (A, Linux) connecting to a co-kernel (B, manycore). *)
Definition demo_mqueue : ihk_ikc_queue_head := mk_queue 1 0 56 4 0 0 0 0 224 0 0 0 (replicate 224 0).
Definition demo_master (rq sq : Z) : ihk_ikc_channel_desc :=
  mk_chan 0 0 0 100 0 1 (mk_qd rq 0 rq rq 0) (mk_qd sq 0 sq sq 0) IKC_FLAG_ENABLED MASTER_HANDLER [].
Definition demo_listener : ihk_ikc_listen_param := mk_listen 5 501 true 64 8192 0x1129.
Definition demo_connect : ihk_ikc_connect_param := mk_connect 501 64 8192 0x1129 2 77.
Definition demo_host : kern := set_mchannel (demo_kern {[100 := demo_master 502 501]} ∅) 100.
Definition demo_lwk : kern :=
  set_listeners (set_mchannel (demo_kern {[200 := demo_master 501 502]} ∅) 200)
    (<[501%nat := Some demo_listener]> (replicate 512 None)).
Definition demo_shared : mem := mk_mem (<[501 := demo_mqueue]> {[502 := demo_mqueue]}) 1000.
Definition no_handler (_ _ _ : Z) : io world Z := io_ret 0.
Definition no_arch (_ _ : Z) : io world Z := io_ret 0.
Definition demo_listen (_ _ : Z) : io world (Z * Z) := io_ret (0, 88).

Lemma demo_mqueue_wf : queue_wf demo_mqueue.
Proof. repeat split; vm_compute; intros; discriminate. Qed.

Lemma demo_host_end : master_end demo_host demo_shared 100 501 502 demo_mqueue demo_mqueue.
Proof.
  split; try (vm_compute; done); [split; [lia|]; by exists (demo_master 502 501)|].
  split; try (vm_compute; done). exists (demo_master 502 501). split_and!; done.
Qed.

Lemma demo_lwk_end : master_end demo_lwk demo_shared 200 502 501 demo_mqueue demo_mqueue.
Proof.
  split; try (vm_compute; done); [split; [lia|]; by exists (demo_master 501 502)|].
  split; try (vm_compute; done). exists (demo_master 501 502). split_and!; done.
Qed.

Lemma connect_handshake_witness :
  exists ka' kb' m' cA cB da db,
  handshake demo_env demo_env (@Linux demo_env) (@Manycore demo_env) no_handler no_handler demo_listen demo_listen
    no_arch no_arch 0 demo_connect 100 200 (demo_host, demo_lwk, demo_shared) = Ret ((0, cA), (ka', kb', m')) /\
  k_chans ka' !! cA = Some da /\ k_chans kb' !! cB = Some db /\ qd_queue (c_send da) = qd_queue (c_recv db).
Proof.
  edestruct (connect_handshake demo_env demo_env (@Linux demo_env) (@Manycore demo_env) no_handler no_handler
    demo_listen demo_listen no_arch no_arch 0 demo_connect 100 200 501 502 demo_mqueue demo_mqueue demo_listener 88
    demo_host demo_lwk demo_shared demo_host_end demo_lwk_end eq_refl eq_refl)
    as (ka' & kb' & m' & cA & cB & da & db & QA & QB & Hrun & Ha & Hb & _ & _ & Hq & _).
  - reflexivity.
  - reflexivity.
  - split; [by exists 1|vm_compute; done|done].
  - split; vm_compute; done.
  - split; vm_compute; done.
  - reflexivity.
  - done.
  - intros a Ha. done.
  - intros a Ha. done.
  - reflexivity.
  - constructor.
  - exists ka', kb', m', cA, cB, da, db. exact (conj Hrun (conj Ha (conj Hb Hq))).
Defined.
