(* ===== verification/MasterEnd.v ===== *)
(** * Tear-down, refusals and start of the IKC master protocol
    (src/ikc/master.c, src/linux/core/mikc.c)

    The DISCONNECT exchange between two kernels, the replies to CONNECT
    messages that are turned down, and the creation of the host's master
    channel; the operations of master.c are those of Master.v. *)

From Stdlib Require Import ZArith Lia.
From stdpp Require Import base tactics numbers list gmap.
From S2P Require Import Prelude Queue Channel Master.
Open Scope ihk_scope.

(** ** Tearing a channel down *)

Definition flag_gone : Z := Z.lor IKC_FLAG_DESTROYING IKC_FLAG_DESTROY_ACKED.

(** A DISCONNECT message. *)
Definition disconnect_packet (pk : ihk_ikc_master_packet) (ref id va : Z) : Prop :=
  mpkt_ok pk /\ mp_msg pk = IHK_IKC_MASTER_MSG_DISCONNECT /\ mp_ref pk = ref /\ mp_param pk = [id; 0; 0; va; 0].

Lemma notified_chans k q opt : k_chans (notified k q opt) = k_chans k.
Proof. unfold notified. by destruct (_ =? _). Qed.

Section Disconnect.
Context `{Env} {P : Platform} {PO : PlatformOk P}.

Lemma send_disconnect_ok k m mc sq SQ c d :
  k_mchannel k = mc -> sends_on k mc sq -> m_queues m !! sq = Some SQ -> queue_wf SQ ->
  q_pktsize SQ = MASTER_IKCQ_PKTSIZE -> has_room SQ -> k_chans k !! c = Some d ->
  exists SQ' pk, ihk_send_disconnect c (k, m) = Ret (0, (notified k SQ 0, mk_mem (<[sq := SQ']> (m_queues m)) (m_brk m))) /\
  queue_wf SQ' /\ same_shape SQ SQ' /\ contents SQ' = contents SQ ++ [encode_mpkt pk] /\
  disconnect_packet pk (u32 (c_remote_channel_id d)) (u64 (c_channel_id d)) (u64 (c_remote_channel_va d)).
Proof.
  intros Hmc Hs HSQ W Hz Hroom Hc. unfold ihk_send_disconnect.
  edestruct (master_send_ok IHK_IKC_MASTER_MSG_DISCONNECT (c_remote_channel_id d) (c_channel_id d) 0 0 (c_remote_channel_va d) 0)
    as (SQ' & Hsend & W' & Hsh & Hcont); [exact Hmc|exact Hs|exact HSQ|exact W|exact Hz|exact Hroom|].
  eexists SQ', _. split; [erewrite io_bind_ret by (io_eval; rewrite Hc; done); exact Hsend|].
  split_and!; try done. split; [apply sent_packet_ok|done].
Qed.

(** ihk_ikc_disconnect on a live channel: it is disabled, marked, and the
    peer is told; the caller sleeps unless the peer had asked already. *)
Lemma disconnect_ok k m mc sq SQ c d (acked : bool) :
  k_mchannel k = mc -> sends_on k mc sq -> m_queues m !! sq = Some SQ -> queue_wf SQ ->
  q_pktsize SQ = MASTER_IKCQ_PKTSIZE -> has_room SQ -> k_chans k !! c = Some d -> c <> 0 -> c <> mc ->
  c_flag d = Z.lor IKC_FLAG_ENABLED (if acked then IKC_FLAG_DESTROY_ACKED else 0) ->
  exists SQ' pk k1 m1,
  ihk_ikc_disconnect c (k, m) = Ret (if acked then Done 0 else Sleeping (m_brk m), (k1, m1)) /\
  k_chans k1 = <[c := c_set_flag d (Z.lor IKC_FLAG_DESTROYING (if acked then IKC_FLAG_DESTROY_ACKED else 0))]> (k_chans k) /\
  k_pkts k1 = k_pkts k /\ m_queues m1 = <[sq := SQ']> (m_queues m) /\ m_brk m <= m_brk m1 <= m_brk m + 1 /\
  k_wait k1 = k_wait k ++ (if acked then [] else [(m_brk m, mk_wait 0 IHK_IKC_MASTER_MSG_DISCONNECT (u32 (c_channel_id d)) zero_mpkt)]) /\
  queue_wf SQ' /\ same_shape SQ SQ' /\ contents SQ' = contents SQ ++ [encode_mpkt pk] /\
  disconnect_packet pk (u32 (c_remote_channel_id d)) (u64 (c_channel_id d)) (u64 (c_remote_channel_va d)).
Proof.
  intros Hmc Hs HSQ W Hz Hroom Hc Hc0 Hcm Hf.
  set (d1 := c_set_flag d (Z.lor IKC_FLAG_DESTROYING (if acked then IKC_FLAG_DESTROY_ACKED else 0))).
  set (k0 := set_chans k (<[c := d1]> (k_chans k))).
  assert (forall wl, sends_on (set_wait k0 wl) mc sq) as Hs0.
  { intros wl. destruct Hs as [? (x & Hx & ?)]. split; [done|]. exists x. split; [|done]. unfold k0. cbn [k_chans set_wait set_chans].
    by rewrite lookup_insert_ne by done. }
  set (wl := k_wait k ++ (if acked then [] else [(m_brk m, mk_wait 0 IHK_IKC_MASTER_MSG_DISCONNECT (u32 (c_channel_id d)) zero_mpkt)])).
  set (m0 := mk_mem (m_queues m) (if acked then m_brk m else m_brk m + 1)).
  destruct (send_disconnect_ok (set_wait k0 wl) m0 mc sq SQ c d1) as (SQ' & pk & Hsend & W' & Hsh & Hcont & Hpk);
    try done; try apply Hs0; [unfold k0; cbn; apply lookup_insert_eq|].
  exists SQ', pk, (notified (set_wait k0 wl) SQ 0), (mk_mem (<[sq := SQ']> (m_queues m)) (if acked then m_brk m else m_brk m + 1)).
  split; [|split_and!; try done; cbn [m_brk]; destruct acked; lia].
  unfold ihk_ikc_disconnect. rewrite (proj2 (Z.eqb_neq _ _) Hc0).
  erewrite io_bind_ret by (io_eval; rewrite Hc; done). erewrite io_bind_ret by (io_eval; rewrite lookup_insert_eq; done).
  cbn [c_flag c_set_flag]. rewrite Hf.
  assert ((Z.land (Z.ldiff (Z.lor IKC_FLAG_ENABLED (if acked then IKC_FLAG_DESTROY_ACKED else 0)) IKC_FLAG_ENABLED) IKC_FLAG_DESTROYING =? 0) = true) as ->
    by (by destruct acked). cbn [negb].
  erewrite (io_bind_ret (upd_chan c _) _ _ tt (k0, m)); [|io_eval; rewrite lookup_insert_eq; io_eval; rewrite insert_insert_eq;
    unfold k0, d1; cbn [c_flag c_set_flag]; rewrite ?Hf; by destruct acked].
  erewrite io_bind_ret by (io_eval; unfold k0; cbn [k_chans set_chans]; rewrite lookup_insert_eq; done).
  assert ((Z.land (c_flag d1) IKC_FLAG_DESTROY_ACKED =? 0) = negb acked) as -> by (by destruct acked).
  destruct acked; cbn [negb].
  - unfold wl in Hsend. rewrite app_nil_r in Hsend. change (set_wait k0 (k_wait k)) with k0 in Hsend.
    erewrite io_bind_ret by (destruct m; exact Hsend). unfold wl. rewrite app_nil_r. by destruct m.
  - unfold ihk_wait_for_disconnect_ack.
    erewrite io_bind_ret by (io_eval; unfold k0; cbn [k_chans set_chans]; rewrite lookup_insert_eq; done).
    erewrite io_bind_ret by done. cbn [fst snd]. change (c_channel_id d1) with (c_channel_id d).
    erewrite io_bind_ret by exact Hsend. change (0 =? 0) with true. cbn [negb].
    erewrite io_bind_ret; [|io_eval; rewrite notified_chans; unfold k0; cbn [k_chans set_wait set_chans]; rewrite lookup_insert_eq; done]. done.
Qed.
End Disconnect.

Section DisconnectRecv.
Context `{Env} {P : Platform} {PO : PlatformOk P}.
Context (handler_sem : Z -> Z -> Z -> io world Z).
Context (listen_sem : Z -> Z -> io world (Z * Z)).
Context (arch_handler : Z -> Z -> io world Z).

(** The DISCONNECT case of the master handler, once its packet is decoded. *)
Lemma disconnect_case k m mc p b pk ref id c d :
  mc <> 0 -> p <> 0 -> k_pkts k !! p = Some b -> decode_mpkt b = pk ->
  mp_msg pk = IHK_IKC_MASTER_MSG_DISCONNECT -> mp_ref pk = ref -> mp_param pk = [id; 0; 0; c; 0] -> c <> 0 ->
  k_chans k !! c = Some d ->
  let k0 := set_chans k (<[c := c_set_flag d (Z.lor (c_flag d) IKC_FLAG_DESTROY_ACKED)]> (k_chans k)) in
  ihk_ikc_master_channel_packet_handler handler_sem listen_sem arch_handler mc p (k, m) =
  ((if Z.land (Z.lor (c_flag d) IKC_FLAG_DESTROY_ACKED) IKC_FLAG_DESTROYING =? 0 then
      r <- ihk_ikc_disconnect c ;; match r with Done _ => io_ret tt | Sleeping _ => io_undef end
    else io_ret tt) ;;;
   ret <- ihk_ikc_master_reply_handler pk ;; ihk_ikc_release_packet p ;;; io_ret ret) (k0, m).
Proof.
  intros Hmc Hp Hb Hdec Em Er Ep Hc0 Hc k0. unfold ihk_ikc_master_channel_packet_handler.
  rewrite (proj2 (Z.eqb_neq _ _) Hmc), (proj2 (Z.eqb_neq _ _) Hp). cbn [orb].
  erewrite io_bind_ret by (io_eval; rewrite Hb; done). rewrite Hdec, Em.
  change (IHK_IKC_MASTER_MSG_DISCONNECT =? IHK_IKC_MASTER_MSG_PACKET_ON_CHANNEL) with false.
  change (IHK_IKC_MASTER_MSG_DISCONNECT =? IHK_IKC_MASTER_MSG_CONNECT) with false.
  change (IHK_IKC_MASTER_MSG_DISCONNECT =? IHK_IKC_MASTER_MSG_CONNECT_REPLY) with false. rewrite Z.eqb_refl. cbv iota.
  unfold param. rewrite Ep. cbn [nth]. rewrite (proj2 (Z.eqb_neq _ _) Hc0). unfold io_bind at 1 2.
  assert (upd_chan c (fun d => c_set_flag d (Z.lor (c_flag d) IKC_FLAG_DESTROY_ACKED)) (k, m) = Ret (tt, (k0, m))) as ->
    by (io_eval; rewrite Hc; done).
  unfold io_bind at 1. io_eval. unfold k0. cbn [k_chans set_chans]. rewrite lookup_insert_eq. cbn [c_flag c_set_flag].
  destruct (_ =? _); [|done].
  unfold io_bind. destruct (ihk_ikc_disconnect c _) as [[[r|r] w]|]; done.
Qed.

(** The peer's DISCONNECT for a channel in use: the channel is shut down and
    the message answered. *)
Lemma disconnected_by_peer k m mc sq rq SQ RQ pk ref id c d :
  master_end k m mc sq rq SQ RQ -> has_room SQ -> contents RQ = [encode_mpkt pk] -> disconnect_packet pk ref id c ->
  k_chans k !! c = Some d -> c <> 0 -> c <> mc -> c_flag d = IKC_FLAG_ENABLED ->
  exists k2 m2 SQ' pk2,
  ihk_ikc_recv_handler mc (ihk_ikc_master_channel_packet_handler handler_sem listen_sem arch_handler) 0 (k, m) = Ret (0, (k2, m2)) /\
  k_chans k2 !! c = Some (c_set_flag d flag_gone) /\ m_queues m2 !! sq = Some SQ' /\ m_brk m <= m_brk m2 /\
  queue_wf SQ' /\ same_shape SQ SQ' /\ contents SQ' = contents SQ ++ [encode_mpkt pk2] /\
  disconnect_packet pk2 (u32 (c_remote_channel_id d)) (u64 (c_channel_id d)) (u64 (c_remote_channel_va d)).
Proof.
  intros ME Hroom Hcont (Hok & Em & Er & Ep) Hc Hc0 Hcm Hf.
  destruct (master_recv_step handler_sem listen_sem arch_handler k m mc rq RQ pk [] (me_ready _ _ _ _ _ _ _ ME)
    (proj2 (me_wfs _ _ _ _ _ _ _ ME)) Hcont Hok)
    as (p & k1 & m1 & RQ' & Hp & Hb & Hdec & R1 & _ & _ & _ & Hsame & Hmq & Hbrk & Hfin).
  destruct ME as [Hmc Hs R HSQ [WS _] [HsS _] _ Hap]. pose proof (rd_a _ _ _ _ _ R) as Ha.
  destruct (master_after_recv k k1 mc sq Hsame Hs) as [Hs1 _].
  destruct (rd_chan _ _ _ _ _ R1) as (dm & Hdm & _ & _ & _ & Hnc & _). cbn [fst] in Hdm.
  pose proof (sk_other _ _ _ Hsame c Hcm) as Hc1. rewrite Hc in Hc1.
  set (d0 := c_set_flag d (Z.lor (c_flag d) IKC_FLAG_DESTROY_ACKED)).
  set (k0 := set_chans k1 (<[c := d0]> (k_chans k1))).
  assert (sends_on k0 mc sq) as Hs0.
  { destruct Hs1 as [? (x & Hx & ?)]. split; [done|]. exists x. split; [|done]. unfold k0. cbn [k_chans set_chans].
    by rewrite lookup_insert_ne by done. }
  destruct (disconnect_ok k0 m1 mc sq SQ c d0 true) as (SQ' & pk2 & k2 & m2 & Hdis & Hk2 & Hp2 & Hm2 & Hbrk2 & _ & W' & Hsh & Hcont' & Hpk2);
    try done; [unfold k0; cbn; by rewrite (sk_mchannel _ _ _ Hsame)|rewrite Hmq, lookup_insert_ne; done
              |unfold k0; cbn; apply lookup_insert_eq|unfold d0; cbn; by rewrite Hf|].
  pose proof (reply_handler_ok (mk_mpkt mc (mp_msg pk) (mp_ref pk) (mp_param pk)) k2 m2) as Hrh.
  set (k3 := set_events _ _) in Hrh.
  assert (k_chans k3 !! mc = Some dm) as Hdm3 by (unfold k3; cbn; rewrite Hk2; unfold k0; cbn; by rewrite !lookup_insert_ne by done).
  eexists _, m2, SQ', pk2. split; [apply (Hfin 0 k3 m2 dm)|split_and!]; try done.
  - erewrite (disconnect_case k1 m1 mc p _ _ ref id c d); [|lia|done|exact Hb|exact Hdec|done|done|done|done|done].
    cbv zeta. assert ((Z.land (Z.lor (c_flag d) IKC_FLAG_DESTROY_ACKED) IKC_FLAG_DESTROYING =? 0) = true) as -> by (by rewrite Hf). erewrite io_bind_ret; [|erewrite io_bind_ret by exact Hdis; done].
    erewrite io_bind_ret by exact Hrh. done.
  - unfold k3. cbn. by rewrite Hp2.
  - unfold k3. cbn. rewrite lookup_insert_ne by done. rewrite Hk2. unfold k0. cbn. by rewrite lookup_insert_eq.
  - by rewrite Hm2, lookup_insert_eq.
  - lia.
Qed.

(** The peer's answer for a channel that this kernel is tearing down: the
    waiters for it are woken. *)
Lemma disconnect_answered k m mc rq RQ pk ref id c d :
  ready mc rq MASTER_HANDLER (k, m) RQ -> queue_wf RQ -> contents RQ = [encode_mpkt pk] -> disconnect_packet pk ref id c ->
  k_chans k !! c = Some d -> c <> 0 -> c <> mc -> c_flag d = IKC_FLAG_DESTROYING ->
  exists k2 m2,
  ihk_ikc_recv_handler mc (ihk_ikc_master_channel_packet_handler handler_sem listen_sem arch_handler) 0 (k, m) = Ret (0, (k2, m2)) /\
  k_chans k2 !! c = Some (c_set_flag d flag_gone) /\
  k_wait k2 = reply_one (mk_mpkt mc IHK_IKC_MASTER_MSG_DISCONNECT ref [id; 0; 0; c; 0]) <$> k_wait k.
Proof.
  intros R WR Hcont (Hok & Em & Er & Ep) Hc Hc0 Hcm Hf.
  destruct (master_recv_step handler_sem listen_sem arch_handler k m mc rq RQ pk [] R WR Hcont Hok)
    as (p & k1 & m1 & RQ' & Hp & Hb & Hdec & R1 & _ & _ & _ & Hsame & Hmq & Hbrk & Hfin).
  pose proof (rd_a _ _ _ _ _ R) as Ha.
  destruct (rd_chan _ _ _ _ _ R1) as (dm & Hdm & _ & _ & _ & Hnc & _). cbn [fst] in Hdm.
  pose proof (sk_other _ _ _ Hsame c Hcm) as Hc1. rewrite Hc in Hc1.
  set (k0 := set_chans k1 (<[c := c_set_flag d (Z.lor (c_flag d) IKC_FLAG_DESTROY_ACKED)]> (k_chans k1))).
  pose proof (reply_handler_ok (mk_mpkt mc (mp_msg pk) (mp_ref pk) (mp_param pk)) k0 m1) as Hrh.
  set (k3 := set_events _ _) in Hrh.
  assert (k_chans k3 !! mc = Some dm) as Hdm3 by (unfold k3, k0; cbn; by rewrite !lookup_insert_ne by done).
  eexists _, m1. split; [apply (Hfin 0 k3 m1 dm)|split_and!]; try done.
  - erewrite (disconnect_case k1 m1 mc p _ _ ref id c d); [|lia|done|exact Hb|exact Hdec|done|done|done|done|done].
    cbv zeta. assert ((Z.land (Z.lor (c_flag d) IKC_FLAG_DESTROY_ACKED) IKC_FLAG_DESTROYING =? 0) = false) as -> by (by rewrite Hf). erewrite io_bind_ret by done. erewrite io_bind_ret by exact Hrh. done.
  - unfold k3, k0. cbn. rewrite lookup_insert_ne, lookup_insert_eq, Hf by done. done.
  - unfold k3, k0. cbn. by rewrite (sk_wait _ _ _ Hsame), Em, Er, Ep.
Qed.
End DisconnectRecv.

Section Teardown.
Context (EA EB : Env) (PA PB : Platform) {POA : @PlatformOk EA PA} {POB : @PlatformOk EB PB}.
Context (hsA hsB : Z -> Z -> Z -> io world Z) (lsA lsB : Z -> Z -> io world (Z * Z)) (arA arB : Z -> Z -> io world Z).

(** ihk_ikc_disconnect on A up to its sleep, the receive handlers of the two
    master channels, and, if the waiter has been woken, the rest. *)
Definition teardown (cA mcA mcB : Z) (s : pair_state) : outcome (Z * pair_state) :=
  let '(ka, kb, m) := s in
  '(b, (ka, m)) ← @ihk_ikc_disconnect EA PA cA (ka, m);
  match b with
  | Done r => Ret (r, (ka, kb, m))
  | Sleeping ws =>
      '(_, (kb, m)) ← @ihk_ikc_recv_handler EB mcB (@ihk_ikc_master_channel_packet_handler EB PB hsB lsB arB) 0 (kb, m);
      '(_, (ka, m)) ← @ihk_ikc_recv_handler EA mcA (@ihk_ikc_master_channel_packet_handler EA PA hsA lsA arA) 0 (ka, m);
      '(w, _) ← get_wait ws (ka, m);
      if ws_status w =? 0 then Undef else
      '(r, (ka, m)) ← ihk_ikc_disconnect_finish ws 0 (ka, m);
      Ret (r, (ka, kb, m))
  end.

(** C25: two kernels whose master channels are up and empty
    hold the two ends of a connected channel.  ihk_ikc_disconnect on the one
    side, and the master packet handlers of both, complete; the sleeping
    caller is woken by the peer's answer and the call returns 0; both ends are
    then disabled and marked as destroyed and acknowledged, and the caller's
    waiter is gone. *)
Theorem disconnect_teardown mcA mcB qAB qBA QAB QBA cA cB da db ka kb m :
  master_end ka m mcA qAB qBA QAB QBA -> master_end kb m mcB qBA qAB QBA QAB ->
  contents QAB = [] -> contents QBA = [] -> q_write_off QAB + 1 < 2 ^ 64 -> q_write_off QBA + 1 < 2 ^ 64 ->
  k_chans ka !! cA = Some da -> k_chans kb !! cB = Some db -> cA <> mcA -> cB <> mcB ->
  0 < cA < 2 ^ 64 -> 0 < cB < 2 ^ 64 -> c_flag da = IKC_FLAG_ENABLED -> c_flag db = IKC_FLAG_ENABLED ->
  c_remote_channel_va da = cB -> c_remote_channel_va db = cA -> c_remote_channel_id db = c_channel_id da ->
  Forall (fun x => x.1 < m_brk m) (k_wait ka) ->
  exists ka' kb' m',
  teardown cA mcA mcB (ka, kb, m) = Ret (0, (ka', kb', m')) /\
  k_chans ka' !! cA = Some (c_set_flag da flag_gone) /\ k_chans kb' !! cB = Some (c_set_flag db flag_gone) /\
  fst <$> k_wait ka' = fst <$> k_wait ka.
Proof.
  intros MA MB HcAB HcBA H64A H64B Hda Hdb HcmA HcmB HcA HcB Hfa Hfb Hva Hvb Hid Hwait.
  destruct MA as [HmcA HsA RA HSA [WAB WBA] [HzAB HzBA] (Hb1 & Hb2 & Hb3) HapA].
  destruct (@disconnect_ok EA PA POA ka m mcA qAB QAB cA da false)
    as (QAB' & pk & ka1 & m1 & Hdis & Hk1 & Hp1 & Hm1 & Hbrk1 & Hw1 & W1 & (Hcn1 & Hsz1 & Hcp1) & Hc1 & Hpk);
    try done; [by apply empty_has_room|lia|].
  rewrite HcAB in Hc1. rewrite Hva, (u64_small cB) in Hpk by lia. destruct MB as [HmcB HsB RB HSB _ _ (HbB1 & HbB2 & HbB3) _].
  assert (master_end kb m1 mcB qBA qAB QBA QAB') as MB1.
  { split; try done; try (by rewrite Hsz1); [|by rewrite Hm1, lookup_insert_ne|lia].
    destruct RB as [? ? ? ? ? (d & Hd & He & Hq' & Hh & Hnc & Hpool)]. cbn [fst snd] in *.
    split; cbn [fst snd]; try done; [by rewrite Hsz1|lia|by rewrite Hm1, lookup_insert_eq|]. exists d. by rewrite Hsz1. }
  destruct (@disconnected_by_peer EB PB POB hsB lsB arB kb m1 mcB qBA qAB QBA QAB' pk _ _ cB db MB1
    (empty_has_room _ WBA HcBA H64B) Hc1 Hpk Hdb)
    as (kb2 & m2 & QBA' & pk2 & Hrb & Hkb2 & HQBA' & Hbrk2 & W2 & (Hcn2 & Hsz2 & Hcp2) & Hc2 & Hpk2); try done; [lia|].
  rewrite HcBA in Hc2. rewrite Hvb, (u64_small cA), Hid in Hpk2 by lia.
  assert (ready mcA qBA MASTER_HANDLER (ka1, m2) QBA') as RA2.
  { destruct RA as [? ? ? ? ? (d & Hd & He & Hq' & Hh & Hnc & Hpool)]. cbn [fst snd] in *.
    split; cbn [fst snd]; try done; [by rewrite Hsz2|lia|]. exists d. rewrite Hk1, Hp1, Hsz2, lookup_insert_ne by done. done. }
  destruct (@disconnect_answered EA PA hsA lsA arA ka1 m2 mcA qBA QBA' pk2 _ _ cA
    (c_set_flag da IKC_FLAG_DESTROYING) RA2 W2 Hc2 Hpk2) as (ka2 & m3 & Hra & Hka2 & Hw2); try done; [by rewrite Hk1, lookup_insert_eq|lia|].
  rewrite Hw1, fmap_app in Hw2. cbn [fmap list_fmap] in Hw2. unfold reply_one at 2, reply_matches in Hw2.
  cbn [fst snd ws_msg ws_ref mp_msg mp_ref] in Hw2. rewrite !Z.eqb_refl in Hw2. cbn [andb] in Hw2.
  set (l2 := _ <$> k_wait ka) in Hw2. set (w := mk_wait 1 _ _ _) in Hw2.
  assert (Forall (fun y => y.1 <> m_brk m) (k_wait ka)) as Hws
    by (eapply Forall_impl; [exact Hwait|]; intros y Hy; simpl in Hy; lia).
  destruct (reply_keeps_waiters (k_wait ka) (mk_mpkt mcA IHK_IKC_MASTER_MSG_DISCONNECT (u32 (c_channel_id da))
    [u64 (c_channel_id db); 0; 0; cA; 0]) (m_brk m)) as [Hfst Hl2]. fold l2 in Hfst, Hl2. specialize (Hl2 Hws).
  exists (set_wait ka2 l2), kb2, m3. split_and!; try done.
  unfold teardown. rewrite Hdis. cbn [mbind outcome_bind]. rewrite Hrb. cbn [mbind outcome_bind]. rewrite Hra.
  cbn [mbind outcome_bind]. unfold get_wait. io_eval. rewrite Hw2, find_waiter by done. io_eval.
  change (ws_status w =? 0) with false. cbv iota. unfold ihk_ikc_disconnect_finish, ihk_ikc_wait_finish. io_eval.
  rewrite Hw2. by rewrite filter_waiters by done.
Qed.
End Teardown.

Definition demo_end (id rid va rq sq : Z) : ihk_ikc_channel_desc :=
  mk_chan 0 rid va 0 7 id (mk_qd rq 0 0 rq 0) (mk_qd sq 0 sq sq 0) IKC_FLAG_ENABLED 9 [].

Lemma disconnect_teardown_witness :
  let ka := set_chans demo_host (<[300 := demo_end 4 6 400 0 0]> (k_chans demo_host)) in
  let kb := set_chans demo_lwk (<[400 := demo_end 6 4 300 0 0]> (k_chans demo_lwk)) in
  exists ka' kb' m',
  teardown demo_env demo_env (@Linux demo_env) (@Manycore demo_env) no_handler no_handler demo_listen demo_listen
    no_arch no_arch 300 100 200 (ka, kb, demo_shared) = Ret (0, (ka', kb', m')) /\
  k_chans ka' !! 300 = Some (c_set_flag (demo_end 4 6 400 0 0) flag_gone) /\
  k_chans kb' !! 400 = Some (c_set_flag (demo_end 6 4 300 0 0) flag_gone) /\ fst <$> k_wait ka' = [].
Proof.
  intros ka kb.
  assert (master_end ka demo_shared 100 501 502 demo_mqueue demo_mqueue) as MA.
  { split; try (vm_compute; done); [split; [lia|]; by exists (demo_master 502 501)|].
    split; try (vm_compute; done). exists (demo_master 502 501). split_and!; done. }
  assert (master_end kb demo_shared 200 502 501 demo_mqueue demo_mqueue) as MB.
  { split; try (vm_compute; done); [split; [lia|]; by exists (demo_master 501 502)|].
    split; try (vm_compute; done). exists (demo_master 501 502). split_and!; done. }
  apply (disconnect_teardown demo_env demo_env (@Linux demo_env) (@Manycore demo_env) no_handler no_handler
    demo_listen demo_listen no_arch no_arch 100 200 501 502 demo_mqueue demo_mqueue 300 400
    (demo_end 4 6 400 0 0) (demo_end 6 4 300 0 0) ka kb demo_shared MA MB eq_refl eq_refl); first [reflexivity | lia | constructor].
Defined.

(** ** Refused connections *)

Section Refuse.
Context `{Env} {P : Platform} {PO : PlatformOk P}.
Context (listen_sem : Z -> Z -> io world (Z * Z)).

(** The answer to a CONNECT message that is not accepted. *)
Definition refusal (k : kern) (port size magic : Z) : option Z :=
  if (port <? 0) || (IHK_IKC_MAX_PORT <=? port) then Some EINVAL else
  match aget (k_listeners k) port with
  | Ret (Some lp) =>
      if l_handler lp =? 0 then Some (- ECONNREFUSED)
      else if negb (l_magic lp =? magic) then Some (- ECONNREFUSED)
      else if negb (size =? u64 (l_pkt_size lp)) then Some (- ECONNABORTED)
      else None
  | Ret None => Some (- ECONNREFUSED)
  | Undef => None
  end.

(** A CONNECT message for a bad port, a port without a
    listener, with the wrong magic or the wrong packet size changes nothing in
    the accepting kernel but its master send queue, which gets exactly one
    reply; on receipt of that reply ihk_ikc_connect returns the code of
    [refusal]: a negative error number in every case but one, the bad port,
    for which it returns the positive number EINVAL. *)
Theorem connect_refused k m mc sq SQ pk size port magic cpu a1 a2 a3 r :
  k_mchannel k = mc -> sends_on k mc sq -> m_queues m !! sq = Some SQ -> queue_wf SQ ->
  q_pktsize SQ = MASTER_IKCQ_PKTSIZE -> has_room SQ ->
  mp_param pk = [size * 2 ^ 32 + u32 port; a1; a2; a3; cpu * 2 ^ 32 + magic] -> 
  s32 port = port -> 0 <= magic < 2 ^ 31 -> refusal k port size magic = Some r ->
  exists SQ' rp, handle_connect listen_sem mc pk (k, m) =
    Ret (0, (notified k SQ 0, mk_mem (<[sq := SQ']> (m_queues m)) (m_brk m))) /\
  contents SQ' = contents SQ ++ [encode_mpkt rp] /\ mpkt_ok rp /\
  mp_msg rp = IHK_IKC_MASTER_MSG_CONNECT_REPLY /\ mp_ref rp = u32 (mp_ref pk) /\
  param rp 0 <> 0 /\ s32 (- param rp 0) = r.
Proof.
  intros Hmc Hs HSQ W Hz Hroom Ep Hport Hmag Href.
  assert (u32 port = port mod 2 ^ 32) as Hu by done. pose proof (u32_range port) as Hur.
  destruct (master_send_ok IHK_IKC_MASTER_MSG_CONNECT_REPLY (mp_ref pk) (- r) 0 0 0 0 k m mc sq SQ)
    as (SQ' & Hsend & W' & _ & Hcont); try done.
  exists SQ', (sent_packet IHK_IKC_MASTER_MSG_CONNECT_REPLY (mp_ref pk) (- r) 0 0 0 0).
  assert (r <> 0 /\ s32 (- u64 (- r)) = r /\ u64 (- r) <> 0) as (Hr0 & Hr1 & Hr2).
  { unfold refusal in Href. destruct (_ || _); [by injection Href as <-|].
    destruct (aget _ _) as [[lp|]|]; [|by injection Href as <-|done].
    do 3 (destruct (_ =? _); cbn [negb] in Href; try by injection Href as <-). done. }
  split; [|split_and!; try done; apply sent_packet_ok].
  unfold handle_connect. unfold param. rewrite Ep. cbn [nth].
  rewrite unpack_low, unpack_high, s32_pack by lia.
  assert (s32 (u32 port) = port) as -> by (rewrite <- Hport at 2; unfold s32, u32; rewrite Zplus_mod_idemp_l; done).
  unfold refusal in Href. destruct ((port <? 0) || (IHK_IKC_MAX_PORT <=? port)) eqn:Ebad.
  - injection Href as <-. erewrite io_bind_ret by done. cbv beta iota. change (EINVAL =? 0) with false. cbn [negb].
    by erewrite io_bind_ret by exact Hsend.
  - erewrite (io_bind_ret (io_bind (io_gets _) _) _ _ (r, 0, a1) (k, m));
      [cbv beta iota; rewrite (proj2 (Z.eqb_neq _ _) Hr0); cbn [negb]; by erewrite io_bind_ret by exact Hsend|].
    erewrite io_bind_ret by done. cbn [fst]. unfold io_lift, io_bind at 1.
    destruct (aget (k_listeners k) port) as [[lp|]|]; [| by injection Href as <- | done].
    unfold ihk_ikc_accept. destruct (l_handler lp =? 0); [by injection Href as <-|].
    destruct (l_magic lp =? magic); cbn [negb] in *; [|by injection Href as <-].
    destruct (size =? u64 (l_pkt_size lp)); cbn [negb] in *; [done|by injection Href as <-].
Qed.
End Refuse.

Lemma connect_refused_witness :
  exists SQ' rp, @handle_connect demo_env (@Linux demo_env) demo_listen 100
      (mk_mpkt 0 IHK_IKC_MASTER_MSG_CONNECT 3 [64 * 2 ^ 32 + 600; 0; 500; 7; 0 * 2 ^ 32 + 1]) (demo_host, demo_shared) =
    Ret (0, (notified demo_host demo_mqueue 0, mk_mem (<[501 := SQ']> (m_queues demo_shared)) 1000)) /\
  contents SQ' = [] ++ [encode_mpkt rp] /\ mpkt_ok rp /\
  mp_msg rp = IHK_IKC_MASTER_MSG_CONNECT_REPLY /\ mp_ref rp = 3 /\
  param rp 0 <> 0 /\ s32 (- param rp 0) = EINVAL.
Proof.
  apply (connect_refused (H := demo_env) (P := @Linux demo_env) demo_listen demo_host demo_shared 100 501 demo_mqueue
    (mk_mpkt 0 IHK_IKC_MASTER_MSG_CONNECT 3 [64 * 2 ^ 32 + 600; 0; 500; 7; 0 * 2 ^ 32 + 1]) 64 600 1 0 0 500 7 EINVAL);
    try (vm_compute; done).
  split; [lia|]. by exists (demo_master 502 501).
Defined.

(** ** A listener that turns a channel down *)

Definition rejecting_listen (_ _ : Z) : io world (Z * Z) := io_ret (- ENOMEM, 0).
Definition demo_env2 : Env := {|
  this_cpu := 2; smp_cpu := 2; map_memory := fun a => a; map_virtual := fun a => a;
  virt_to_phys := fun a => a; malloc_ok := fun _ _ => true; uninit := fun _ _ => 170;
  sizeof_chan := 448 |}.
Definition reject_run : outcome (Z * Z * Z * world) :=
  @ihk_ikc_accept demo_env2 (@Linux demo_env2) rejecting_listen 100 (Some demo_listener) 64 0 501 7 0x1129 2
    (demo_host, demo_shared).

(** When the listen handler of a receiving port
    refuses the channel on the host, ihk_ikc_accept frees the channel but
    leaves it registered as the CPU's regular channel, so the next IKC
    interrupt on that CPU uses freed memory. *)
Theorem rejected_channel_dangles :
  exists rq w c, reject_run = Ret ((- ENOMEM, 0, rq), w) /\
  k_regular w.1 !! 2%nat = Some c /\ c <> 0 /\ k_chans w.1 !! c = None /\
  forall n, @ihk_ikc_reception_handler demo_env2 no_handler n w = Undef.
Proof.
  eexists _, _, _. split; [vm_compute; reflexivity|]. split; [vm_compute; reflexivity|].
  split; [done|]. split; [vm_compute; reflexivity|]. intros n. destruct n; vm_compute; reflexivity.
Qed.


(** ** Bringing the master channel up (src/linux/core/mikc.c) *)

Section Init.
Context `{Env} `{Platform}.

(** ihk_host_ikc_init_first: [ready] is the result of the wait for the state
    READY; [r], [w] (of sizes [rsz], [wsz]) are the special addresses of the
    queues that the device driver reports.  kzalloc's result is not checked. *)
Definition ihk_host_ikc_init_first (os : Z) (ready : bool) (r rsz w wsz : Z) : io world Z :=
  emit EvRegisterHandler ;;;
  if negb ready then io_ret 0 else
  emit (EvMap r rsz) ;;;
  emit (EvMap w wsz) ;;;
  let rp := map_memory r in
  let wp := map_memory w in
  let rq := map_virtual rp in
  let wq := map_virtual wp in
  c <- ihk_ikc_malloc (sizeof_chan + MASTER_IKCQ_PKTSIZE) ;;
  if c =? 0 then io_undef else
  put_chan c (zero_chan 0) ;;;
  ihk_ikc_init_desc c os 0 rq wq MASTER_HANDLER c ;;;
  ihk_ikc_channel_set_cpu c 0 ;;;
  upd_chan c (fun d => c_set_recv d (mk_qd (qd_queue (c_recv d)) (qd_cache_channel_id (c_recv d)) r rp (qd_intr_cpu (c_recv d)))) ;;;
  upd_chan c (fun d => c_set_send d (mk_qd (qd_queue (c_send d)) (qd_cache_channel_id (c_send d)) w wp (qd_intr_cpu (c_send d)))) ;;;
  io_ret c.

(** The acknowledgement: only the field msg of the packet on the stack is set. *)
Definition init_ack : ihk_ikc_master_packet :=
  let garbage := le_value (fresh_buf 0 8) in
  mk_mpkt garbage IHK_IKC_MASTER_MSG_INIT_ACK (u32 garbage)
    [u64 garbage; u64 garbage; u64 garbage; u64 garbage; u64 garbage].

(** ihk_ikc_master_init *)
Definition ihk_ikc_master_init (os : Z) (ready : bool) (r rsz w wsz : Z) : io world Z :=
  if os =? 0 then io_ret (- EINVAL) else
  c <- ihk_host_ikc_init_first os ready r rsz w wsz ;;
  io_modify (fun x => (set_mchannel x.1 c, x.2)) ;;;
  if c =? 0 then io_ret (- EINVAL) else
  ihk_ikc_enable_channel c ;;;
  ihk_ikc_send c (Some (encode_mpkt init_ack)) 0 ;;;
  io_ret 0.

(** ikc_master_finalize: os->ikc_initialized is an argument and the result. *)
Definition ikc_master_finalize (initialized : bool) : io world bool :=
  if negb initialized then io_ret initialized else
  m <- ihk_ikc_get_master_channel ;;
  (if m =? 0 then io_ret tt else ihk_ikc_destroy_channel m) ;;;
  emit EvUnregisterHandler ;;;
  io_ret false.
End Init.

(** The host's end after ihk_host_ikc_init_first: the master channel, not yet
    enabled, and the two queues with CPU 0 as reader and writer. *)
Section first.
  Context `{Env} (os r rsz w wsz : Z) (k : kern) (m : mem) (RQ SQ : ihk_ikc_queue_head).

Definition first_id : Z := s32 (k_channel_id k + 1).
Definition first_rq : ihk_ikc_queue_head :=
  set_read_cpu (set_read_cpu (set_channel_id RQ (u32 first_id)) (u32 this_cpu)) (u32 0).
Definition first_sq : ihk_ikc_queue_head := set_write_cpu (set_write_cpu SQ (u32 this_cpu)) (u32 0).
Definition first_chan : ihk_ikc_channel_desc :=
  mk_chan os 0 0 (m_brk m) 0 first_id (mk_qd (map_virtual (map_memory r)) (u32 first_id) r (map_memory r) 0)
    (mk_qd (map_virtual (map_memory w)) (q_channel_id SQ) w (map_memory w) 0) 0 MASTER_HANDLER [].
Definition first_kern (mc : Z) (d : ihk_ikc_channel_desc) : kern :=
  mk_kern (<[m_brk m := d]> (k_chans k)) (k_pkts k) (k_channels k ++ [m_brk m]) mc (k_regular k) (k_listeners k) first_id (k_wait k)
    (((k_events k ++ [EvRegisterHandler]) ++ [EvMap r rsz]) ++ [EvMap w wsz]).
Definition first_mem : mem :=
  mk_mem (<[map_virtual (map_memory w) := first_sq]> (<[map_virtual (map_memory r) := first_rq]> (m_queues m))) (m_brk m + 1).

Lemma init_first_ok :
  0 < m_brk m < 2 ^ 64 -> (forall n, malloc_ok (m_brk m) n = true) ->
  map_virtual (map_memory r) <> 0 -> map_virtual (map_memory w) <> 0 ->
  map_virtual (map_memory r) <> map_virtual (map_memory w) ->
  m_queues m !! map_virtual (map_memory r) = Some RQ -> m_queues m !! map_virtual (map_memory w) = Some SQ ->
  ihk_host_ikc_init_first os true r rsz w wsz (k, m) = Ret (m_brk m, (first_kern (k_mchannel k) first_chan, first_mem)).
Proof.
  intros Hb Hok Hr0 Hw0 Hrw HRQ HSQ. set (rq := map_virtual (map_memory r)) in *. set (wq := map_virtual (map_memory w)) in *.
  unfold ihk_host_ikc_init_first, ihk_ikc_malloc. cbn [negb]. io_eval. rewrite Hok, (proj2 (Z.eqb_neq (m_brk m) 0)) by lia. io_eval.
  unfold ihk_ikc_init_desc, ihk_os_get_unique_channel_id, ihk_ikc_channel_set_cpu. fold rq wq.
  rewrite (proj2 (Z.eqb_neq _ _) Hr0), (proj2 (Z.eqb_neq _ _) Hw0). io_eval. rewrite lookup_insert_eq. io_eval.
  rewrite HRQ. io_eval. rewrite lookup_insert_eq. io_eval. rewrite insert_insert_eq, lookup_insert_eq. io_eval.
  rewrite lookup_insert_ne, HSQ by done. io_eval. rewrite lookup_insert_eq. io_eval.
  rewrite insert_insert_eq, lookup_insert_eq. io_eval. cbn [c_recv c_send qd_queue].
  rewrite lookup_insert_ne, lookup_insert_eq by done. io_eval. rewrite lookup_insert_ne, lookup_insert_eq by done. io_eval.
  rewrite lookup_insert_eq. io_eval. rewrite !insert_insert_eq, lookup_insert_eq. io_eval. rewrite !insert_insert_eq.
  match goal with |- Ret (_, (_, mk_mem ?Q _)) = _ => assert (Q = m_queues first_mem) as -> end; [|done].
  unfold first_mem. cbn [m_queues]. fold rq wq.
  apply map_eq. intros x. destruct (decide (x = wq)) as [->|]; [by simplify_map_eq|].
  destruct (decide (x = rq)) as [->|]; by simplify_map_eq.
Qed.
End first.

(** Once the co-kernel has reported its two master queues,
    ihk_ikc_master_init creates the master channel on them: the result is 0,
    the channel is enabled, receives from the one queue and sends on the other
    with CPU 0 as its reader and writer, and the only message sent is
    INIT_ACK. *)
Theorem master_init_up `{Env} {P : Platform} {PO : PlatformOk P} os r rsz w wsz k m RQ SQ :
  os <> 0 -> 0 < m_brk m < 2 ^ 64 -> (forall n, malloc_ok (m_brk m) n = true) ->
  map_virtual (map_memory r) <> 0 -> map_virtual (map_memory w) <> 0 ->
  map_virtual (map_memory r) <> map_virtual (map_memory w) ->
  map_virtual (map_memory r) < m_brk m -> map_virtual (map_memory w) < m_brk m ->
  m_queues m !! map_virtual (map_memory r) = Some RQ -> m_queues m !! map_virtual (map_memory w) = Some SQ ->
  queue_wf RQ -> queue_wf SQ -> q_pktsize RQ = MASTER_IKCQ_PKTSIZE -> q_pktsize SQ = MASTER_IKCQ_PKTSIZE -> has_room SQ ->
  exists k' m' RQ' SQ',
  ihk_ikc_master_init os true r rsz w wsz (k, m) = Ret (0, (k', m')) /\
  master_end k' m' (m_brk m) (map_virtual (map_memory w)) (map_virtual (map_memory r)) SQ' RQ' /\
  contents RQ' = contents RQ /\ contents SQ' = contents SQ ++ [encode_mpkt init_ack] /\
  q_read_cpu RQ' = 0 /\ q_write_cpu RQ' = q_write_cpu RQ /\
  k_channels k' = k_channels k ++ [m_brk m].
Proof.
  intros Hos Hb Hok Hr0 Hw0 Hrw Hrb Hwb HRQ HSQ WR WS HzR HzS Hroom.
  set (c := m_brk m). set (RQ' := first_rq k RQ). set (SQ1 := first_sq SQ).
  set (d := c_set_flag (first_chan os r w k m SQ) IKC_FLAG_ENABLED).
  set (k1 := first_kern r rsz w wsz k m c d). set (m1 := first_mem r w k m RQ SQ).
  assert (sends_on k1 c (map_virtual (map_memory w))) as Hs1.
  { split; [unfold c; lia|]. exists d. unfold k1. cbn [k_chans first_kern]. by rewrite lookup_insert_eq. }
  pose proof (encode_length init_ack eq_refl) as Hlen.
  destruct (po_send k1 m1 c (map_virtual (map_memory w)) SQ1 (encode_mpkt init_ack) 0 Hs1) as (SQ' & Hsend & WS' & _ & (Hcn & Hsz & _) & Hcont).
  { unfold m1. cbn [m_queues first_mem]. by rewrite lookup_insert_eq. }
  { by destruct WS as [[] ? ? ? ?]. } { apply Hroom. } { change (q_pktsize SQ1) with (q_pktsize SQ). rewrite HzS, Hlen. done. } { apply Hroom. }
  change (q_pktsize SQ1) with (q_pktsize SQ) in Hcont. rewrite segment_full in Hcont by (by rewrite Hlen, HzS).
  eexists _, _, RQ', SQ'. split; [|split].
  - unfold ihk_ikc_master_init. rewrite (proj2 (Z.eqb_neq _ _) Hos).
    erewrite io_bind_ret by (by apply init_first_ok). erewrite io_bind_ret by done.
    rewrite (proj2 (Z.eqb_neq (m_brk m) 0)) by lia.
    erewrite (io_bind_ret (ihk_ikc_enable_channel c) _ _ tt (k1, m1)); [by erewrite io_bind_ret by exact Hsend|].
    unfold ihk_ikc_enable_channel, k1, first_kern. fold c. io_eval. cbn [k_chans]. rewrite lookup_insert_eq. io_eval.
    by rewrite insert_insert_eq.
  - split; try done.
    + destruct Hs1 as [? (x & Hx & ?)]. split; [done|]. exists x. by rewrite notified_chans.
    + split; try done.
      * change (q_pktsize RQ') with (q_pktsize RQ). by rewrite HzR.
      * unfold m1. cbn [fst snd m_brk first_mem]. lia.
      * cbn [fst snd m_queues]. unfold m1, first_mem. cbn [m_queues]. by simplify_map_eq.
      * exists d. split_and!; try done. cbn [fst]. rewrite notified_chans. unfold k1. cbn [k_chans first_kern]. by rewrite lookup_insert_eq.
    + cbn [m_queues]. apply lookup_insert_eq.
    + split; [done|]. by destruct WR as [[] ? ? ? ?].
    + split; [by rewrite Hsz|done].
    + unfold m1. cbn [m_brk first_mem]. lia.
  - split_and!; done.
Qed.

Lemma master_init_up_witness :
  exists k' m' RQ' SQ',
  @ihk_ikc_master_init demo_env (@Linux demo_env) 5 true 501 4096 502 4096 (demo_kern ∅ ∅, demo_shared) = Ret (0, (k', m')) /\
  master_end k' m' 1000 502 501 SQ' RQ' /\
  contents RQ' = [] /\ contents SQ' = [] ++ [encode_mpkt (@init_ack demo_env)] /\
  q_read_cpu RQ' = 0 /\ q_write_cpu RQ' = 0 /\ k_channels k' = k_channels (demo_kern ∅ ∅) ++ [1000].
Proof.
  apply (master_init_up (H := demo_env) (P := @Linux demo_env) 5 501 4096 502 4096 (demo_kern ∅ ∅) demo_shared demo_mqueue demo_mqueue);
    first [exact demo_mqueue_wf | reflexivity | discriminate | split; reflexivity].
Defined.
