(* ===== verification/SmpData.v ===== *)
(** * Data of the SMP host driver (src/linux/driver/smp)

    The records that the memory and the CPU halves of smp-driver.c share, the
    requests that reach the driver from user space, and their validation.
    The Linux services the driver uses are the fields of [SmpEnv].  The build
    options ENABLE_TOFU, ENABLE_KRM_WORKAROUND and ENABLE_FUGAKU_HACKS are
    off, which is their default. *)

From stdpp Require Import base tactics numbers list gmap.
From S2P Require Import Prelude.

Open Scope ihk_scope.

(** ** Constants *)

(** enum of kernel states, smp-driver.h *)
Definition BUILTIN_OS_STATUS_INITIAL : Z := 0.
Definition BUILTIN_OS_STATUS_LOADING : Z := 1.
Definition BUILTIN_OS_STATUS_BOOTING : Z := 3.
Definition BUILTIN_OS_STATUS_SHUTDOWN : Z := 4.
Definition BUILTIN_OS_STATUS_HUNGUP : Z := 5.

Definition IHK_SMP_CPU_NONE : Z := 0.
Definition IHK_SMP_CPU_ONLINE : Z := 1.
Definition IHK_SMP_CPU_AVAILABLE : Z := 2.
Definition IHK_SMP_CPU_ASSIGNED : Z := 3.
Definition IHK_SMP_CPU_TO_OFFLINE : Z := 4.
Definition IHK_SMP_CPU_OFFLINED : Z := 5.
Definition IHK_SMP_CPU_TO_ONLINE : Z := 6.

Definition SMP_MAX_CPUS : Z := 512.
Definition IHK_SMP_MEM_ALL : Z := 2 ^ 64 - 1.
Definition IHK_RESERVE_MEM_GRANULE : Z := 4 * 2 ^ 20.
Definition IHK_RESERVE_MEM_MAX_SIZE_RATIO_ALL_LIMIT : Z := 98.

(** ** Structures *)

(** struct chunk: header of a free range, stored at its beginning. *)
Record chunk : Type := mk_chunk {
  ch_addr : Z;
  ch_size : Z;
  ch_numa : Z
}.

(** struct ihk_os_mem_chunk: a range used by a kernel. *)
Record ihk_os_mem_chunk : Type := mk_os_chunk {
  oc_addr : Z;
  oc_size : Z;
  oc_os : Z;
  oc_numa : Z
}.

(** struct ihk_smp_cpu *)
Record ihk_smp_cpu : Type := mk_cpu {
  cpu_id : Z;
  cpu_hw_id : Z;
  cpu_status : Z;
  cpu_os : Z;
  cpu_ikc_map : Z
}.

(** struct smp_os_data, the fields the resource operations use.  The bit
    sets (cpu_hw_ids_map, numa_mask) are sets of bit numbers, the fixed
    arrays cpu_mapping and cpu_hw_ids are lists of SMP_MAX_CPUS entries. *)
Record smp_os_data : Type := mk_osd {
  os_status : Z;
  os_mem_start : Z;
  os_mem_end : Z;
  os_numa_mask : gset Z;
  os_hw_ids_map : gset Z;
  os_cpu_mapping : list Z;
  os_cpu_hw_ids : list Z;
  os_ikc_mapped : Z;
  os_nr_cpus : Z
}.

#[global] Instance chunk_eq_dec : EqDecision chunk.
Proof. solve_decision. Defined.
#[global] Instance os_chunk_eq_dec : EqDecision ihk_os_mem_chunk.
Proof. solve_decision. Defined.
#[global] Instance cpu_eq_dec : EqDecision ihk_smp_cpu.
Proof. solve_decision. Defined.

(** The architecture: on arm64, [Some n] is the module parameter ihk_nr_irq of
    a driver with its own interrupts, [None] a driver built with
    IHK_IKC_USE_LINUX_WORK_IRQ. *)
Inductive smp_arch : Type :=
| X86_64
| ARM64 (ihk_nr_irq : option Z).

(** ** Linux services

    [page_tail pa]: PageTail of the page that holds [pa], with the physical
    address of its compound head and compound_order of the head.
    [page_order pa]: compound_order of the page that holds [pa] when it is
    the head of a compound page.
    [filp_open cpu]: whether the file
    /sys/devices/system/cpu/cpu<cpu>/online can be opened.
    [kernel_write cpu v online]: a write of 1 or 0 to it, with the CPUs that
    are online afterwards; [None] when the write fails. *)
Class SmpEnv : Type := {
  arch : smp_arch;
  nr_cpu_ids : Z;
  cpu_present : Z -> bool;
  cpu_to_node : Z -> Z;
  x86_cpu_to_apicid : Z -> Z;
  filp_open : Z -> bool;
  kernel_write : Z -> bool -> gset Z -> option (gset Z);
  page_tail : Z -> option (Z * Z);
  page_order : Z -> option Z
}.

(** ** Requests from user space

    An array of the caller: a null pointer, or memory with its contents
    that may be unreadable or unwritable. *)
Inductive uarr (A : Type) : Type :=
| UNull
| UArr (readable writable : bool) (l : list A).
Arguments UNull {A}.
Arguments UArr {A} readable writable l.

Definition is_null {A} (u : uarr A) : bool :=
  match u with UNull => true | UArr _ _ _ => false end.

(** copy_from_user of [n] elements; [None] when it does not copy them all. *)
Definition copy_from_user {A} (u : uarr A) (n : Z) : option (list A) :=
  if n =? 0 then Some [] else
  match u with
  | UArr true _ l => if n <=? Z.of_nat (length l) then Some (take (Z.to_nat n) l) else None
  | _ => None
  end.

(** Whether copy_to_user of [n] elements succeeds. *)
Definition copy_to_user {A} (u : uarr A) (n : Z) : bool :=
  if n =? 0 then true else
  match u with UArr _ true l => n <=? Z.of_nat (length l) | _ => false end.

(** The structure an ioctl argument points to. *)
Record uptr (A : Type) : Type := mk_uptr { up_val : A; up_read : bool; up_write : bool }.
Arguments mk_uptr {A} up_val up_read up_write.
Arguments up_val {A} _.
Arguments up_read {A} _.
Arguments up_write {A} _.

(** struct ihk_cpu_req *)
Record ihk_cpu_req : Type := mk_cpu_req { cr_cpus : uarr Z; cr_num : Z }.

(** struct ihk_mem_req *)
Record ihk_mem_req : Type := mk_mem_req {
  mr_sizes : uarr Z;
  mr_numa_ids : uarr Z;
  mr_num : Z;
  mr_min_chunk_size : Z;
  mr_max_size_ratio_all : Z;
  mr_timeout : Z
}.

(** struct ihk_ikc_req *)
Record ihk_ikc_req : Type := mk_ikc_req { ir_src : uarr Z; ir_dst : uarr Z; ir_num : Z }.

(** validate_cpu_req *)
Definition validate_cpu_req (req : ihk_cpu_req) : Z :=
  if (cr_num req <? 0) || (SMP_MAX_CPUS <? cr_num req) then - EINVAL else
  if (0 <? cr_num req) && is_null (cr_cpus req) then - EINVAL else 0.

(** validate_ikc_req *)
Definition validate_ikc_req (req : ihk_ikc_req) : Z :=
  if (ir_num req <? 0) || (SMP_MAX_CPUS <? ir_num req) then - EINVAL else
  if (0 <? ir_num req) && (is_null (ir_src req) || is_null (ir_dst req)) then - EINVAL else 0.

(** validate_mem_req *)
Definition validate_mem_req (req : ihk_mem_req) : Z :=
  if mr_num req <? 0 then - EINVAL else
  if (0 <? mr_num req) && (is_null (mr_sizes req) || is_null (mr_numa_ids req)) then - EINVAL else
  if mr_min_chunk_size req <? 0 then - EINVAL else
  if (mr_max_size_ratio_all req <? 0) ||
     (IHK_RESERVE_MEM_MAX_SIZE_RATIO_ALL_LIMIT <? mr_max_size_ratio_all req) then - EINVAL
  else 0.

Definition osd_set_status (o : smp_os_data) v := mk_osd v (os_mem_start o) (os_mem_end o) (os_numa_mask o) (os_hw_ids_map o) (os_cpu_mapping o) (os_cpu_hw_ids o) (os_ikc_mapped o) (os_nr_cpus o).
Definition osd_set_mem (o : smp_os_data) s e m := mk_osd (os_status o) s e m (os_hw_ids_map o) (os_cpu_mapping o) (os_cpu_hw_ids o) (os_ikc_mapped o) (os_nr_cpus o).
Definition osd_set_cpus (o : smp_os_data) nm hm cm ch n := mk_osd (os_status o) (os_mem_start o) (os_mem_end o) nm hm cm ch (os_ikc_mapped o) n.
Definition osd_set_ikc_mapped (o : smp_os_data) v := mk_osd (os_status o) (os_mem_start o) (os_mem_end o) (os_numa_mask o) (os_hw_ids_map o) (os_cpu_mapping o) (os_cpu_hw_ids o) v (os_nr_cpus o).
