(* ===== verification/SmpMem.v ===== *)
(** * Memory chunks of the SMP host driver (src/linux/driver/smp/smp-driver.c)

    The driver keeps the memory it has reserved from Linux in two lists: the
    free ranges, each described by a header at its own beginning, and the
    ranges that kernels use.  The file models the operations on these lists
    (assignment to a kernel, release, queries), shows that each of them keeps
    the ranges apart, that an assignment gets what it asks for exactly when the NUMA
    node has it, and what happens on the error paths. *)

From stdpp Require Import base tactics numbers list gmap sorting.
From S2P Require Import Prelude SmpData.

Open Scope ihk_scope.

(** ** State

    [hdr p] is the struct chunk that memory holds at physical address [p]
    (headers are reached through phys_to_virt); [free_chunks] lists the
    headers chained in ihk_mem_free_chunks, [used_chunks] the elements of
    ihk_mem_used_chunks. *)
Record memst : Type := mk_mem {
  hdr : Z -> chunk;
  free_chunks : list Z;
  used_chunks : list ihk_os_mem_chunk
}.

Definition set_free (s : memst) l := mk_mem (hdr s) l (used_chunks s).
Definition set_used (s : memst) l := mk_mem (hdr s) (free_chunks s) l.
Definition put_hdr (s : memst) (p : Z) (c : chunk) :=
  mk_mem (fun q => if q =? p then c else hdr s q) (free_chunks s) (used_chunks s).

(** list_del of a header *)
Definition list_del (s : memst) (p : Z) : memst := set_free s (filter (fun q => q <> p) (free_chunks s)).

(** The position add_free_mem_chunk inserts at: in front of the first header
    with a higher address. *)
Fixpoint insert_hdr (h : Z -> chunk) (p : Z) (l : list Z) : list Z :=
  match l with
  | [] => [p]
  | q :: r => if ch_addr (h p) <? ch_addr (h q) then p :: q :: r else q :: insert_hdr h p r
  end.

(** add_free_mem_chunk *)
Definition add_free_mem_chunk (p : Z) (s : memst) : memst :=
  set_free s (insert_hdr (hdr s) p (free_chunks s)).

(** The test of merge_mem_chunks on a header and its successor. *)
Definition mergeable (c d : chunk) : bool :=
  (ch_addr d =? u64 (ch_addr c + ch_size c)) && (ch_numa d =? ch_numa c).

(** The first pair the loop of merge_mem_chunks stops at.  The successor of
    the last element is the list head itself, read as if it were a chunk. *)
Fixpoint merge_scan (head : Z) (h : Z -> chunk) (l : list Z) : option (Z * Z) :=
  match l with
  | [] => None
  | p :: r =>
      let q := match r with [] => head | q :: _ => q end in
      if negb (p =? q) && mergeable (h p) (h q) then Some (p, q) else merge_scan head h r
  end.

(** merge_mem_chunks; unlinking the list head ruins the list. *)
Fixpoint merge_loop (fuel : nat) (head : Z) (s : memst) : outcome memst :=
  match merge_scan head (hdr s) (free_chunks s) with
  | None => Ret s
  | Some (p, q) =>
      if q =? head then Undef else
      match fuel with
      | O => Undef
      | S fuel' =>
          let c := hdr s p in
          let s := put_hdr s p (mk_chunk (ch_addr c) (u64 (ch_size c + ch_size (hdr s q))) (ch_numa c)) in
          merge_loop fuel' head (list_del s q)
      end
  end.
Definition merge_mem_chunks (head : Z) (s : memst) : outcome memst :=
  merge_loop (length (free_chunks s)) head s.

(** ** Assignment to a kernel *)

Section env.
  Context `{SmpEnv}.

(** The search of __smp_ihk_os_assign_mem: a chunk of the node with exactly
    the size, else the first one of the largest size. *)
Fixpoint find_chunk (h : Z -> chunk) (mem_size numa_id : Z) (max : option Z) (l : list Z) :
    option Z * option Z :=
  match l with
  | [] => (None, max)
  | p :: r =>
      let c := h p in
      if negb (ch_numa c =? numa_id) then find_chunk h mem_size numa_id max r else
      if ch_size c =? mem_size then (Some p, max) else
      let max := match max with
        | None => Some p
        | Some m => if ch_size (h m) <? ch_size c then Some p else Some m
        end in
      find_chunk h mem_size numa_id max r
  end.

(** Writing a leftover header and chaining it. *)
Definition put_leftover (s : memst) (a sz numa : Z) : memst :=
  add_free_mem_chunk a (put_hdr s a (mk_chunk a sz numa)).

(** The split of the largest chunk: the part behind the [mem_size] bytes
    taken becomes a free chunk, from the end of a compound page if it would
    start inside one. *)
Definition split_chunk (s : memst) (c : chunk) (mem_size : Z) : memst :=
  let x := u64 (ch_addr c + mem_size) in
  match page_tail x with
  | Some (head, order) =>
      let comp_size := u64 (Z.shiftl PAGE_SIZE order) in
      if u64 (head + comp_size) <? u64 (ch_addr c + ch_size c) then
        let comp_end_offset := u64 (comp_size - (x - x mod PAGE_SIZE - head)) in
        put_leftover s (u64 (x + comp_end_offset))
          (u64 (ch_size c - mem_size - comp_end_offset)) (ch_numa c)
      else s
  | None => put_leftover s x (u64 (ch_size c - mem_size)) (ch_numa c)
  end.

(** One round of the gathering loop with a chunk found: what is taken. *)
Definition take_chunk (s : memst) (os numa_id mem_size : Z) (found : Z * bool) :
    ihk_os_mem_chunk * memst :=
  let '(p, exact) := found in
  let c := hdr s p in
  if exact then (mk_os_chunk (ch_addr c) (ch_size c) os numa_id, list_del s p) else
  let sz := if mem_size <? ch_size c then mem_size else ch_size c in
  let s' := list_del s p in
  (mk_os_chunk (ch_addr c) sz os numa_id,
   if mem_size <? ch_size c then split_chunk s' c mem_size else s').

(** The while loop of __smp_ihk_os_assign_mem; [kok i] tells whether the
    i-th kmalloc of a descriptor succeeds.  It returns ret, the state and
    the chunks gathered. *)
Fixpoint gather (fuel : nat) (kok : nat -> bool) (i : nat) (os want numa_id left : Z)
    (s : memst) (tba : list ihk_os_mem_chunk) : outcome (Z * memst * list ihk_os_mem_chunk) :=
  if left =? 0 then Ret (0, s, tba) else
  match fuel with
  | O => Undef
  | S fuel' =>
      if negb (kok i) then Ret (- ENOMEM, s, tba) else
      let found := match find_chunk (hdr s) left numa_id None (free_chunks s) with
        | (Some p, _) => Some (p, true)
        | (None, Some p) => Some (p, false)
        | (None, None) => None
        end in
      match found with
      | None => if want =? IHK_SMP_MEM_ALL then Ret (0, s, tba) else Ret (- ENOMEM, s, tba)
      | Some f =>
          let '(oc, s') := take_chunk s os numa_id left f in
          gather fuel' kok (S i) os want numa_id (u64 (left - oc_size oc)) s' (tba ++ [oc])
      end
  end.

(** Insertion in ihk_mem_used_chunks in ascending order of addresses. *)
Fixpoint insert_used (oc : ihk_os_mem_chunk) (l : list ihk_os_mem_chunk) : list ihk_os_mem_chunk :=
  match l with
  | [] => [oc]
  | x :: r => if oc_addr oc <? oc_addr x then oc :: x :: r else x :: insert_used oc r
  end.

(** The chunks gathered become the kernel's. *)
Definition commit_one (so : memst * smp_os_data) (oc : ihk_os_mem_chunk) : memst * smp_os_data :=
  let '(s, o) := so in
  let e := u64 (oc_addr oc + oc_size oc) in
  (set_used s (insert_used oc (used_chunks s)),
   osd_set_mem o
     (if (os_mem_start o =? 0) || (oc_addr oc <? os_mem_start o) then oc_addr oc else os_mem_start o)
     (if (os_mem_end o =? 0) || (os_mem_end o <? e) then e else os_mem_end o)
     ({[oc_numa oc]} ∪ os_numa_mask o)).

(** The error path: every chunk gathered goes back, and the list is merged. *)
Fixpoint give_back (head : Z) (s : memst) (l : list ihk_os_mem_chunk) : outcome memst :=
  match l with
  | [] => Ret s
  | oc :: r => s ← merge_mem_chunks head (put_leftover s (oc_addr oc) (oc_size oc) (oc_numa oc));
               give_back head s r
  end.

(** __smp_ihk_os_assign_mem *)
Definition smp_ihk_os_assign_mem_one (head : Z) (kok : nat -> bool) (os mem_size numa_id : Z)
    (s : memst) (o : smp_os_data) : outcome (Z * memst * smp_os_data) :=
  ' (ret, s, tba) ← gather (S (length (free_chunks s))) kok 0 os mem_size numa_id mem_size s [];
  if negb (ret =? 0) then s ← give_back head s tba; Ret (ret, s, o) else
  match tba with
  | [] => Ret (- ENOMEM, s, o)
  | _ => let '(s, o) := foldl commit_one (s, o) tba in Ret (0, s, o)
  end.

(** The element of ihk_mem_used_chunks that _smp_ihk_os_release_mem stops at,
    and the list without it. *)
Fixpoint take_used (os size numa_id : Z) (l : list ihk_os_mem_chunk) :
    option (ihk_os_mem_chunk * list ihk_os_mem_chunk) :=
  match l with
  | [] => None
  | x :: r =>
      if (oc_os x =? os) && (oc_size x =? size) && (oc_numa x =? numa_id) then Some (x, r) else
      match take_used os size numa_id r with
      | Some (y, r') => Some (y, x :: r')
      | None => None
      end
  end.

(** _smp_ihk_os_release_mem *)
Definition smp_ihk_os_release_mem_one (os size numa_id : Z) (s : memst) : Z * memst :=
  match take_used os size numa_id (used_chunks s) with
  | None => (- EINVAL, s)
  | Some (oc, r) => (0, put_leftover (set_used s r) (oc_addr oc) (oc_size oc) (oc_numa oc))
  end.

(** ** Handlers of the kernel's ioctls

    [km i] tells whether the i-th kmalloc of a request array succeeds. *)

Fixpoint assign_all (head : Z) (kok : nat -> nat -> bool) (i : nat) (os : Z)
    (reqs : list (Z * Z)) (s : memst) (o : smp_os_data) :
    outcome (Z * nat * memst * smp_os_data) :=
  match reqs with
  | [] => Ret (0, O, s, o)
  | (sz, numa) :: r =>
      ' (ret, s, o) ← smp_ihk_os_assign_mem_one head (kok i) os sz numa s o;
      if negb (ret =? 0) then Ret (ret, i, s, o) else assign_all head kok (S i) os r s o
  end.

(** The clean-up loop behind the label out, which ignores the results. *)
Definition release_ignore (os : Z) (s : memst) (r : Z * Z) : memst :=
  (smp_ihk_os_release_mem_one os r.1 r.2 s).2.

(** smp_ihk_os_assign_mem *)
Definition smp_ihk_os_assign_mem (head : Z) (km : nat -> bool) (kok : nat -> nat -> bool) (os : Z)
    (arg : uptr ihk_mem_req) (s : memst) (o : smp_os_data) : outcome (Z * memst * smp_os_data) :=
  let req := up_val arg in
  if negb (os_status o =? BUILTIN_OS_STATUS_INITIAL) then Ret (- EBUSY, s, o) else
  if negb (up_read arg) then Ret (- EFAULT, s, o) else
  if negb (validate_mem_req req =? 0) then Ret (- EINVAL, s, o) else
  if mr_num req =? 0 then Ret (0, s, o) else
  if negb (km 0%nat) then Ret (- EINVAL, s, o) else
  if negb (km 1%nat) then Ret (- EINVAL, s, o) else
  match copy_from_user (mr_sizes req) (mr_num req) with
  | None => Ret (- EFAULT, s, o)
  | Some sizes =>
      match copy_from_user (mr_numa_ids req) (mr_num req) with
      | None => Ret (- EFAULT, s, o)
      | Some numas =>
          let reqs := zip sizes numas in
          ' (ret, failed_index, s, o) ← assign_all head kok 0 os reqs s o;
          Ret (ret, foldl (release_ignore os) s (take failed_index reqs), o)
      end
  end.

Fixpoint release_all (os : Z) (reqs : list (Z * Z)) (s : memst) : Z * memst :=
  match reqs with
  | [] => (0, s)
  | (sz, numa) :: r =>
      let '(ret, s) := smp_ihk_os_release_mem_one os sz numa s in
      if negb (ret =? 0) then (ret, s) else release_all os r s
  end.

(** smp_ihk_os_release_mem; copy_from_user returns the number of bytes it
    could not copy, and the handler returns that number: [left]. *)
Definition smp_ihk_os_release_mem (km : nat -> bool) (left : Z) (os : Z) (arg : uptr ihk_mem_req)
    (s : memst) (o : smp_os_data) : Z * memst :=
  let req := up_val arg in
  if negb (os_status o =? BUILTIN_OS_STATUS_INITIAL) then (- EBUSY, s) else
  if negb (up_read arg) then (left, s) else
  if negb (validate_mem_req req =? 0) then (- EINVAL, s) else
  if mr_num req =? 0 then (0, s) else
  if negb (km 0%nat) then (- ENOMEM, s) else
  if negb (km 1%nat) then (- ENOMEM, s) else
  match copy_from_user (mr_sizes req) (mr_num req), copy_from_user (mr_numa_ids req) (mr_num req) with
  | Some sizes, Some numas => release_all os (zip sizes numas) s
  | _, _ => (left, s)
  end.

(** What a query writes to the caller: the two arrays and the count. *)
Record mem_out : Type := mk_mem_out {
  mo_sizes : option (list Z);
  mo_numas : option (list Z);
  mo_num : option Z
}.
Definition no_out : mem_out := mk_mem_out None None None.

(** The end of both queries: [idx] entries are copied out. *)
Definition copy_out (arg : uptr ihk_mem_req) (sizes numas : list Z) : Z * mem_out :=
  let req := up_val arg in
  let idx := Z.of_nat (length sizes) in
  if negb (copy_to_user (mr_sizes req) idx) then (- EFAULT, no_out) else
  let wr l := if idx =? 0 then None else Some l in
  if negb (copy_to_user (mr_numa_ids req) idx) then (- EFAULT, mk_mem_out (wr sizes) None None) else
  if negb (up_write arg) then (- EFAULT, mk_mem_out (wr sizes) (wr numas) None) else
  (0, mk_mem_out (wr sizes) (wr numas) (Some idx)).

(** smp_ihk_os_query_mem *)
Definition smp_ihk_os_query_mem (km : nat -> bool) (os : Z) (arg : uptr ihk_mem_req) (s : memst) :
    Z * mem_out :=
  let req := up_val arg in
  if negb (up_read arg) then (- EFAULT, no_out) else
  let mine := filter (fun oc => oc_os oc = os) (used_chunks s) in
  let num_chunks := Z.of_nat (length mine) in
  if negb (validate_mem_req req =? 0) then (- EINVAL, no_out) else
  if mr_num req =? 0 then
    if up_write arg then (0, mk_mem_out None None (Some num_chunks)) else (- EFAULT, no_out)
  else
  if negb (num_chunks =? mr_num req) then (- EINVAL, no_out) else
  if negb (km 0%nat) then (- ENOMEM, no_out) else
  if negb (km 1%nat) then (- ENOMEM, no_out) else
  copy_out arg (map oc_size mine) (map oc_numa mine).

(** smp_ihk_query_mem: the free chunks of the device *)
Definition smp_ihk_query_mem (km : nat -> bool) (arg : uptr ihk_mem_req) (s : memst) : Z * mem_out :=
  let req := up_val arg in
  if negb (up_read arg) then (- EFAULT, no_out) else
  let all := map (hdr s) (free_chunks s) in
  if negb (validate_mem_req req =? 0) then (- EINVAL, no_out) else
  if mr_num req =? 0 then
    if up_write arg then (0, mk_mem_out None None (Some (Z.of_nat (length all)))) else (- EFAULT, no_out)
  else
  if negb (km 0%nat) then (- ENOMEM, no_out) else
  if negb (km 1%nat) then (- ENOMEM, no_out) else
  copy_out arg (map ch_size all) (map ch_numa all).

(** ** Giving memory back to Linux *)

(** The loop of __ihk_smp_release_chunk: the calls free_page and free_pages
    with their addresses and orders.  [fuel] is one more than the number of
    pages; a chunk whose size is not a whole number of pages makes
    size_left wrap around, and the loop leaves the chunk. *)
Fixpoint release_pages (fuel : nat) (va size_left : Z) : outcome (list (Z * Z)) :=
  if size_left =? 0 then Ret [] else
  match fuel with
  | O => Undef
  | S fuel' =>
      match page_order va with
      | Some order =>
          let order_size := u64 (Z.shiftl PAGE_SIZE order) in
          l ← (if order_size <=? size_left then
                 release_pages fuel' (u64 (va + order_size)) (u64 (size_left - order_size))
               else Ret []);
          Ret ((va, order) :: l)
      | None =>
          l ← release_pages fuel' (u64 (va + PAGE_SIZE)) (u64 (size_left - PAGE_SIZE));
          match page_tail va with
          | Some _ => Ret l
          | None => Ret ((va, 0) :: l)
          end
      end
  end.

(** __ihk_smp_release_chunk *)
Definition ihk_smp_release_chunk (c : chunk) : outcome (list (Z * Z)) :=
  release_pages (S (Z.to_nat (ch_size c / PAGE_SIZE))) (ch_addr c) (ch_size c).

(** The header __ihk_smp_release_mem stops at. *)
Fixpoint find_free (h : Z -> chunk) (size numa_id : Z) (l : list Z) : option Z :=
  match l with
  | [] => None
  | p :: r => if (ch_size (h p) =? size) && (ch_numa (h p) =? numa_id) then Some p
              else find_free h size numa_id r
  end.

(** __ihk_smp_release_mem: ret, the pages freed, the state *)
Definition ihk_smp_release_mem (ihk_mem numa_id : Z) (s : memst) : outcome (Z * list (Z * Z) * memst) :=
  match find_free (hdr s) ihk_mem numa_id (free_chunks s) with
  | None => Ret (- EINVAL, [], s)
  | Some p => l ← ihk_smp_release_chunk (hdr s p); Ret (0, l, list_del s p)
  end.

(** The loop of smp_ihk_release_mem *)
Fixpoint release_dev (reqs : list (Z * Z)) (s : memst) : outcome (Z * list (Z * Z) * memst) :=
  match reqs with
  | [] => Ret (0, [], s)
  | (sz, numa) :: r =>
      ' (ret, l, s) ← ihk_smp_release_mem sz numa s;
      if negb (ret =? 0) then Ret (ret, l, s) else
      ' (ret, l', s) ← release_dev r s; Ret (ret, l ++ l', s)
  end.

(** smp_ihk_release_mem *)
Definition smp_ihk_release_mem (km : nat -> bool) (arg : uptr ihk_mem_req) (s : memst) :
    outcome (Z * list (Z * Z) * memst) :=
  let req := up_val arg in
  if negb (up_read arg) then Ret (- EFAULT, [], s) else
  if negb (validate_mem_req req =? 0) then Ret (- EINVAL, [], s) else
  if mr_num req =? 0 then Ret (0, [], s) else
  if negb (km 0%nat) then Ret (- EINVAL, [], s) else
  if negb (km 1%nat) then Ret (- EINVAL, [], s) else
  match copy_from_user (mr_sizes req) (mr_num req), copy_from_user (mr_numa_ids req) (mr_num req) with
  | Some sizes, Some numas => release_dev (zip sizes numas) s
  | _, _ => Ret (- EFAULT, [], s)
  end.
End env.

(** ** Ranges

    A list of chunks is good when they are not empty, consist of whole pages
    of the address space and do not overlap.  [own l x n]: byte [x] belongs to a chunk of
    node [n]. *)

Definition ch_end (c : chunk) : Z := ch_addr c + ch_size c.
Definition as_chunk (oc : ihk_os_mem_chunk) : chunk := mk_chunk (oc_addr oc) (oc_size oc) (oc_numa oc).
Definition apart (c d : chunk) : Prop := ch_end c <= ch_addr d \/ ch_end d <= ch_addr c.
Definition aligned (x : Z) : Prop := (PAGE_SIZE | x).
Definition ch_valid (c : chunk) : Prop :=
  0 < ch_addr c /\ 0 < ch_size c /\ ch_end c < 2 ^ 64 /\ aligned (ch_addr c) /\ aligned (ch_size c).
Definition good (l : list chunk) : Prop := pairwise apart l /\ Forall ch_valid l.
Definition within (x : Z) (c : chunk) : Prop := ch_addr c <= x < ch_end c.
Definition own (l : list chunk) (x n : Z) : Prop := Exists (fun c => within x c /\ ch_numa c = n) l.

#[global] Instance apart_sym : Symmetric apart.
Proof. unfold apart. intros c d. tauto. Qed.

#[global] Instance good_proper : Proper (Permutation ==> iff) good.
Proof. intros l l' Hl. unfold good. by rewrite Hl. Qed.

#[global] Instance own_proper : Proper (Permutation ==> eq ==> eq ==> iff) own.
Proof. intros l l' Hl x ? <- n ? <-. unfold own. by rewrite Hl. Qed.

Lemma good_cons c l : good (c :: l) <-> ch_valid c /\ Forall (apart c) l /\ good l.
Proof. unfold good. simpl. rewrite Forall_cons. tauto. Qed.

Lemma own_cons c l x n : own (c :: l) x n <-> (within x c /\ ch_numa c = n) \/ own l x n.
Proof. unfold own. by rewrite Exists_cons. Qed.

Lemma own_app l1 l2 x n : own (l1 ++ l2) x n <-> own l1 x n \/ own l2 x n.
Proof. unfold own. by rewrite Exists_app. Qed.

(** A part of a chunk that is cut off. *)
Definition part (c d : chunk) : Prop :=
  ch_addr d <= ch_addr c /\ ch_end c <= ch_end d /\ 0 < ch_size c /\ ch_numa c = ch_numa d /\
  aligned (ch_addr c) /\ aligned (ch_size c).

Lemma part_valid c d : part c d -> ch_valid d -> ch_valid c.
Proof. unfold part, ch_valid, ch_end. intuition lia. Qed.

Lemma part_apart c d l : part c d -> Forall (apart d) l -> Forall (apart c) l.
Proof.
  intros Hp Hf. eapply Forall_impl; [exact Hf|]. unfold part, apart, ch_end in *. lia.
Qed.

Lemma good_part c d l : part c d -> good (d :: l) -> good (c :: l).
Proof. rewrite !good_cons. intros Hp (Hv & Ha & Hg). eauto using part_valid, part_apart. Qed.

Lemma good_split c1 c2 d l :
  part c1 d -> part c2 d -> apart c1 c2 -> good (d :: l) -> good (c1 :: c2 :: l).
Proof.
  rewrite !good_cons, Forall_cons. intros Hp1 Hp2 H12 (Hv & Ha & Hg).
  eauto 10 using part_valid, part_apart.
Qed.

Lemma own_part c d l x n : part c d -> own (c :: l) x n -> own (d :: l) x n.
Proof. rewrite !own_cons. unfold part, within. intuition (try lia); left; lia. Qed.

Lemma good_app_r l1 l2 : good (l1 ++ l2) -> good l2.
Proof.
  induction l1 as [|c l1 IH]; [done|]. intros Hg. change (good (c :: (l1 ++ l2))) in Hg.
  rewrite good_cons in Hg. naive_solver.
Qed.

Lemma good_app_l l1 l2 : good (l1 ++ l2) -> good l1.
Proof. rewrite Permutation_app_comm. apply good_app_r. Qed.

(** ** The free list *)

Definition chunks (s : memst) : list chunk := map (hdr s) (free_chunks s).

(** Every header describes the memory it lies in, and the list is sorted. *)
Definition hdrs_ok (s : memst) : Prop :=
  Forall (fun p => ch_addr (hdr s p) = p) (free_chunks s) /\ StronglySorted Z.lt (free_chunks s).

Lemma sorted_NoDup (l : list Z) : StronglySorted Z.lt l -> NoDup l.
Proof.
  induction 1 as [|p l Hs IH Hf]; constructor; auto.
  rewrite Forall_forall in Hf. intros Hp. specialize (Hf _ Hp). lia.
Qed.

Lemma filter_sorted (P : Z -> Prop) `{!forall x, Decision (P x)} l :
  StronglySorted Z.lt l -> StronglySorted Z.lt (filter P l).
Proof.
  induction 1 as [|p l Hs IH Hf]; [constructor|]. rewrite filter_cons. case_decide; [|done].
  constructor; [done|]. by apply Forall_filter_1.
Qed.

Lemma list_del_ok s p : hdrs_ok s -> hdrs_ok (list_del s p).
Proof. intros [Hh Hs]. split; simpl; [by apply Forall_filter_1 | by apply filter_sorted]. Qed.

Lemma list_del_chunks s p :
  hdrs_ok s -> p ∈ free_chunks s -> chunks s ≡ₚ hdr s p :: chunks (list_del s p).
Proof.
  intros [_ Hs] Hp. unfold chunks, list_del. simpl.
  by rewrite (filter_ne_perm p) at 1 by auto using sorted_NoDup.
Qed.

Lemma insert_hdr_perm h p l : insert_hdr h p l ≡ₚ p :: l.
Proof.
  induction l as [|q l IH]; simpl; [done|]. case_match; [done|]. rewrite IH. apply Permutation_swap.
Qed.

Lemma insert_hdr_sorted h p l :
  Forall (fun q => ch_addr (h q) = q) l -> ch_addr (h p) = p -> p ∉ l ->
  StronglySorted Z.lt l -> StronglySorted Z.lt (insert_hdr h p l).
Proof.
  intros Hh Hp Hn. induction 1 as [|q l Hs IH Hf]; simpl.
  { constructor; constructor. }
  rewrite Forall_cons in Hh. destruct Hh as [Hq Hh]. rewrite not_elem_of_cons in Hn.
  rewrite Hp, Hq. destruct (Z.ltb_spec p q).
  - constructor; [by constructor|]. constructor; [done|]. eapply Forall_impl; [exact Hf|]. simpl. lia.
  - constructor; [by apply IH; tauto|]. rewrite insert_hdr_perm. constructor; [lia|done].
Qed.

Lemma map_put_hdr s p c l :
  p ∉ l -> map (hdr (put_hdr s p c)) l = map (hdr s) l.
Proof.
  intros Hn. apply map_ext_in. intros q Hq. simpl. destruct (Z.eqb_spec q p) as [->|]; [|done].
  by rewrite <- list_elem_of_In in Hq.
Qed.

Lemma put_leftover_ok s a sz n :
  hdrs_ok s -> a ∉ free_chunks s ->
  hdrs_ok (put_leftover s a sz n) /\
  chunks (put_leftover s a sz n) ≡ₚ mk_chunk a sz n :: chunks s /\
  used_chunks (put_leftover s a sz n) = used_chunks s.
Proof.
  intros [Hh Hs] Ha.
  assert (Forall (fun q => ch_addr (hdr (put_hdr s a (mk_chunk a sz n)) q) = q) (free_chunks s)) as Hh'.
  { rewrite Forall_forall in Hh |- *. intros q Hq. simpl. destruct (Z.eqb_spec q a) as [->|]; auto. }
  assert (ch_addr (hdr (put_hdr s a (mk_chunk a sz n)) a) = a) as Haa by (simpl; by rewrite Z.eqb_refl).
  split; [|split; [|done]].
  - split; simpl.
    + rewrite insert_hdr_perm. by constructor.
    + by apply insert_hdr_sorted.
  - unfold chunks, put_leftover, add_free_mem_chunk. simpl free_chunks. simpl hdr.
    rewrite insert_hdr_perm. simpl. rewrite Z.eqb_refl. f_equiv.
    pose proof (map_put_hdr s a (mk_chunk a sz n) (free_chunks s) Ha) as E. simpl in E. by rewrite E.
Qed.

(** A fresh start is not the address of a free header. *)
Lemma start_fresh s c : hdrs_ok s -> good (c :: chunks s) -> ch_addr c ∉ free_chunks s.
Proof.
  intros [Hh _] Hg Hin. rewrite good_cons in Hg. destruct Hg as (Hv & Ha & Hg).
  rewrite Forall_forall in Hh. specialize (Hh _ Hin).
  assert (hdr s (ch_addr c) ∈ chunks s) as Hc by (by apply list_elem_of_fmap_2).
  rewrite Forall_forall in Ha. specialize (Ha _ Hc).
  destruct Hg as [_ Hf]. rewrite Forall_forall in Hf. specialize (Hf _ Hc).
  unfold apart, ch_valid, ch_end in *. rewrite Hh in *. lia.
Qed.

(** ** Amounts of memory *)

Definition total (l : list chunk) : Z := foldr (fun c a => ch_size c + a) 0 l.
Definition on_node (n : Z) (l : list chunk) : list chunk := filter (fun c => ch_numa c = n) l.
Definition node_free (s : memst) (n : Z) : Z := total (on_node n (chunks s)).

#[global] Instance total_proper : Proper (Permutation ==> eq) total.
Proof. intros l l' Hl. induction Hl; simpl; lia. Qed.

#[global] Instance on_node_proper n : Proper (Permutation ==> Permutation) (on_node n).
Proof. intros l l' Hl. unfold on_node. by rewrite Hl. Qed.

Lemma on_node_cons n c l :
  on_node n (c :: l) = if decide (ch_numa c = n) then c :: on_node n l else on_node n l.
Proof. unfold on_node. by rewrite filter_cons. Qed.

Lemma total_app l1 l2 : total (l1 ++ l2) = total l1 + total l2.
Proof. induction l1; simpl; lia. Qed.

Lemma total_nonneg l : Forall ch_valid l -> 0 <= total l.
Proof. induction 1 as [|c l Hc _ IH]; simpl; [lia|]. unfold ch_valid in Hc. lia. Qed.

Lemma node_free_nonneg s n : good (chunks s) -> 0 <= node_free s n.
Proof. intros [_ Hv]. by apply total_nonneg, Forall_filter_1. Qed.

(** Memory in ascending order fits between its first byte and its end. *)
Lemma sorted_total h l b :
  Forall (fun p => ch_addr (h p) = p) l -> StronglySorted Z.lt l -> good (map h l) ->
  Forall (fun p => b <= p) l -> b < 2 ^ 64 -> b + total (map h l) < 2 ^ 64.
Proof.
  revert b. induction l as [|p l IH]; intros b Hh Hs Hg Hb H64; simpl; [lia|].
  inversion Hs as [|? ? Hs' Hf]; subst. rewrite Forall_cons in Hh, Hb.
  destruct Hh as [Hp Hh], Hb as [Hbp Hb]. change (good (h p :: map h l)) in Hg.
  rewrite good_cons in Hg. destruct Hg as (Hv & Ha & Hg).
  assert (ch_end (h p) + total (map h l) < 2 ^ 64) as Hi.
  { apply IH; auto; [|unfold ch_valid in Hv; lia]. rewrite Forall_forall in Ha. rewrite Forall_forall in Hf, Hh |- *.
    intros q Hq. specialize (Ha (h q) (list_elem_of_fmap_2 _ _ _ Hq)). specialize (Hf _ Hq).
    specialize (Hh _ Hq). unfold apart, ch_valid, ch_end in *.
    destruct Hg as [_ Hg]. rewrite Forall_forall in Hg.
    specialize (Hg (h q) (list_elem_of_fmap_2 _ _ _ Hq)). unfold ch_valid in Hg. lia. }
  unfold ch_end in *. lia.
Qed.

Lemma total_on_node n l : Forall ch_valid l -> total (on_node n l) <= total l.
Proof.
  induction 1 as [|c l Hc Hl IH]; [simpl; lia|]. rewrite on_node_cons. simpl.
  unfold ch_valid in Hc. case_decide; simpl; lia.
Qed.

Lemma node_free_bound s n : hdrs_ok s -> good (chunks s) -> node_free s n < IHK_SMP_MEM_ALL.
Proof.
  intros [Hh Hs] Hg. pose proof (total_on_node n (chunks s) (proj2 Hg)) as Ht.
  assert (1 + total (chunks s) < 2 ^ 64) as H1; [|unfold node_free, IHK_SMP_MEM_ALL; lia].
  apply sorted_total; auto; [|lia]. destruct Hg as [_ Hv]. rewrite Forall_forall in Hv. rewrite Forall_forall in Hh |- *.
  intros p Hp. specialize (Hv (hdr s p) (list_elem_of_fmap_2 _ _ _ Hp)).
  rewrite <- (Hh p Hp). unfold ch_valid in Hv. lia.
Qed.

Lemma in_node_free s n p :
  good (chunks s) -> p ∈ free_chunks s -> ch_numa (hdr s p) = n -> ch_size (hdr s p) <= node_free s n.
Proof.
  intros [_ Hv] Hp Hn. unfold node_free.
  assert (hdr s p ∈ on_node n (chunks s)) as Hin.
  { apply list_elem_of_filter. split; [done|]. by apply list_elem_of_fmap_2. }
  assert (Forall ch_valid (on_node n (chunks s))) as Hv' by (by apply Forall_filter_1).
  apply elem_of_Permutation in Hin as [l Hl]. rewrite Hl in Hv' |- *.
  rewrite Forall_cons in Hv'. simpl. pose proof (total_nonneg l (proj2 Hv')). lia.
Qed.

(** ** The search *)

Lemma find_chunk_spec h sz n max l :
  match find_chunk h sz n max l with
  | (Some p, _) => p ∈ l /\ ch_numa (h p) = n /\ ch_size (h p) = sz
  | (None, Some p) => (p ∈ l /\ ch_numa (h p) = n) \/ max = Some p
  | (None, None) => max = None /\ Forall (fun p => ch_numa (h p) <> n) l
  end.
Proof.
  revert max. induction l as [|q l IH]; intros max; simpl.
  { destruct max; auto. }
  destruct (Z.eqb_spec (ch_numa (h q)) n) as [Hq|Hq]; simpl.
  2:{ specialize (IH max). destruct (find_chunk h sz n max l) as [[p|] [m|]];
      rewrite ?elem_of_cons, ?Forall_cons; naive_solver. }
  destruct (Z.eqb_spec (ch_size (h q)) sz) as [Hs|Hs].
  { rewrite elem_of_cons. auto. }
  match goal with |- context [find_chunk h sz n ?m l] => specialize (IH m); destruct (find_chunk h sz n m l) as [[p|] [m'|]] end;
    rewrite ?elem_of_cons, ?Forall_cons; destruct max as [m0|]; try case_match; naive_solver.
Qed.

(** ** Taking a chunk *)

(** A tail page lies inside its compound page, behind the head page. *)
Definition tails_ok `{SmpEnv} : Prop := forall x h o,
  page_tail x = Some (h, o) ->
  0 <= o /\ aligned h /\ 0 <= h < x - x mod PAGE_SIZE /\
  x - x mod PAGE_SIZE < h + PAGE_SIZE * 2 ^ o /\ h + PAGE_SIZE * 2 ^ o < 2 ^ 64.

Lemma aligned_add x y : aligned x -> aligned y -> aligned (x + y).
Proof. apply Z.divide_add_r. Qed.
Lemma aligned_sub x y : aligned x -> aligned y -> aligned (x - y).
Proof. apply Z.divide_sub_r. Qed.
Lemma aligned_mod x : aligned x -> x mod PAGE_SIZE = 0.
Proof. intros. by apply Z.mod_divide. Qed.
Lemma aligned_mul x : aligned (PAGE_SIZE * x).
Proof. apply Z.divide_factor_l. Qed.
#[local] Hint Resolve aligned_add aligned_sub aligned_mul : ihk.

Section taking.
  Context `{SmpEnv} (Htails : tails_ok).

Lemma leftover_ok s c d rest t :
  hdrs_ok s -> good (c :: chunks s ++ rest) -> part t c -> part d c -> apart t d ->
  let s' := put_leftover s (ch_addr d) (ch_size d) (ch_numa d) in
  hdrs_ok s' /\ used_chunks s' = used_chunks s /\ good (t :: chunks s' ++ rest) /\
  forall x n, own (t :: chunks s') x n <-> own (t :: d :: chunks s) x n.
Proof.
  intros Hs Hg Ht Hd Ha s'. subst s'.
  assert (good (t :: d :: chunks s ++ rest)) as Hg' by (eapply good_split; eauto).
  destruct (put_leftover_ok s (ch_addr d) (ch_size d) (ch_numa d) Hs) as (Hok & Hp & Hu).
  { apply start_fresh; [done|]. rewrite good_cons in Hg'. destruct Hg' as (_ & _ & Hg').
    rewrite (app_comm_cons (chunks s) rest d), (Permutation_app_comm (d :: chunks s)) in Hg'.
    by apply good_app_r in Hg'. }
  replace (mk_chunk (ch_addr d) (ch_size d) (ch_numa d)) with d in Hp by (by destruct d).
  split; [done|]. split; [done|]. split; [by rewrite Hp|]. intros x n. by rewrite Hp.
Qed.

(** A chunk at [a], up to the end of [c]. *)
Definition tail_of (c : chunk) (a : Z) : chunk := mk_chunk a (ch_end c - a) (ch_numa c).

(** Cutting off [left] bytes in front and keeping the memory from [a] on. *)
Lemma cut_ok s c left a rest :
  hdrs_ok s -> good (c :: chunks s ++ rest) -> 0 < left -> ch_addr c + left <= a < ch_end c ->
  aligned left -> aligned a ->
  let t := mk_chunk (ch_addr c) left (ch_numa c) in
  let s' := put_leftover s a (ch_end c - a) (ch_numa c) in
  hdrs_ok s' /\ used_chunks s' = used_chunks s /\ good (t :: chunks s' ++ rest) /\
  (forall x n, own (t :: chunks s') x n -> own (c :: chunks s) x n) /\
  (a = ch_addr c + left -> forall x n, own (c :: chunks s) x n -> own (t :: chunks s') x n) /\
  (forall q, ~ within q c -> hdr s' q = hdr s q).
Proof.
  intros Hs Hg Hl Ha Hal Haa t s'.
  pose proof Hg as Hc. rewrite good_cons in Hc. destruct Hc as ((Ha0 & Hs0 & He & Hca & Hcs) & _).
  assert (part t c) as Ht by (unfold part, ch_end in *; simpl; intuition lia).
  assert (part (tail_of c a) c) as Hd.
  { unfold part, tail_of, ch_end in *; simpl; repeat split; try lia; auto with ihk. }
  destruct (leftover_ok s c (tail_of c a) rest t Hs Hg Ht Hd) as (Hok & Hu & Hg' & Hown).
  { unfold apart, tail_of, ch_end, t; simpl; lia. }
  split; [done|]. split; [done|]. split; [done|].
  unfold s'. change (ch_end c - a) with (ch_size (tail_of c a)).
  split; [|split; [intros Hx|]]; [intros x n|intros x n|intros q Hq]; rewrite ?Hown, ?own_cons;
    unfold within, tail_of, t, ch_end in *; simpl.
  - intuition (try lia); left; lia.
  - destruct (Z.lt_ge_cases x (ch_addr c + left)); intuition lia.
  - destruct (Z.eqb_spec q a); [lia|done].
Qed.

Lemma split_chunk_ok s c left rest :
  hdrs_ok s -> good (c :: chunks s ++ rest) -> 0 < left < ch_size c -> aligned left ->
  let t := mk_chunk (ch_addr c) left (ch_numa c) in
  let s' := split_chunk s c left in
  hdrs_ok s' /\ used_chunks s' = used_chunks s /\ good (t :: chunks s' ++ rest) /\
  (forall x n, own (t :: chunks s') x n -> own (c :: chunks s) x n) /\
  (page_tail (ch_addr c + left) = None ->
   forall x n, own (c :: chunks s) x n -> own (t :: chunks s') x n) /\
  (forall q, ~ within q c -> hdr s' q = hdr s q).
Proof.
  intros Hs Hg Hl Hal t s'. subst s'. unfold split_chunk.
  pose proof Hg as Hc. rewrite good_cons in Hc. destruct Hc as ((Ha0 & Hs0 & He & Haa & Has) & _).
  unfold ch_end in He. rewrite !(u64_small (ch_addr c + _)) by lia.
  destruct (page_tail (ch_addr c + left)) as [[h o]|] eqn:Et.
  - destruct (Htails _ _ _ Et) as (Ho & Hh & Hh1 & Hh2 & Hh3).
    rewrite aligned_mod in Hh1, Hh2 by auto with ihk. rewrite aligned_mod by auto with ihk.
    rewrite Z.shiftl_mul_pow2 by done. rewrite !(u64_small (PAGE_SIZE * _)) by lia.
    rewrite (u64_small (h + _)) by lia.
    destruct (Z.ltb_spec (h + PAGE_SIZE * 2 ^ o) (ch_addr c + ch_size c)) as [Hlt|Hge].
    + destruct (cut_ok s c left (h + PAGE_SIZE * 2 ^ o) rest) as (Hok & Hu & Hg' & Hown & _ & Hh');
        auto with ihk; [lia|unfold ch_end; lia|].
      rewrite (u64_small (PAGE_SIZE * 2 ^ o - _)), !u64_small by lia.
      replace (ch_addr c + left + _) with (h + PAGE_SIZE * 2 ^ o) by lia.
      replace (ch_size c - left - _) with (ch_end c - (h + PAGE_SIZE * 2 ^ o)) by (unfold ch_end; lia).
      repeat (split; [done|]). done.
    + split; [done|]. split; [done|]. split; [|split; [|done]].
      * eapply good_part; [|done]. unfold part, ch_end; simpl; intuition lia.
      * intros x n. apply own_part. unfold part, ch_end; simpl; intuition lia.
  - destruct (cut_ok s c left (ch_addr c + left) rest) as (Hok & Hu & Hg' & Hown & Hown' & Hh');
      auto with ihk; [lia|unfold ch_end; lia|].
    rewrite u64_small by lia.
    replace (ch_size c - left) with (ch_end c - (ch_addr c + left)) by (unfold ch_end; lia).
    repeat (split; [done|]). split; [|done]. intros _. by apply Hown'.
Qed.

(** What was taken ([l]) and what is left, against the memory before. *)
Record taken (os numa : Z) (s s' : memst) (rest : list chunk) (l : list ihk_os_mem_chunk) : Prop := {
  tk_hdrs : hdrs_ok s';
  tk_used : used_chunks s' = used_chunks s;
  tk_owner : Forall (fun oc => oc_os oc = os /\ oc_numa oc = numa) l;
  tk_good : good (map as_chunk l ++ chunks s' ++ rest);
  tk_own : forall x n, own (map as_chunk l ++ chunks s') x n -> own (chunks s) x n;
  tk_keep : (forall x, page_tail x = None) ->
            forall x n, own (chunks s) x n -> own (map as_chunk l ++ chunks s') x n;
  tk_hdr : forall q, (forall n, ~ own (chunks s) q n) -> hdr s' q = hdr s q
}.

Lemma taken_nil os numa s rest : hdrs_ok s -> good (chunks s ++ rest) -> taken os numa s s rest [].
Proof. by constructor. Qed.

(** Nothing cut: the chunks taken are chunks of the free list. *)
Lemma taken_whole os numa s s' rest l :
  hdrs_ok s' -> used_chunks s' = used_chunks s -> hdr s' = hdr s -> good (chunks s ++ rest) ->
  Forall (fun oc => oc_os oc = os /\ oc_numa oc = numa) l ->
  chunks s ≡ₚ map as_chunk l ++ chunks s' -> taken os numa s s' rest l.
Proof.
  intros Hs Hu Hh Hg Ho Hp. constructor; auto.
  - by rewrite Hp, <- app_assoc in Hg.
  - intros x n. by rewrite Hp.
  - intros _ x n. by rewrite Hp.
  - by rewrite Hh.
Qed.

Lemma taken_trans os numa s1 s2 s3 rest l1 l2 :
  taken os numa s1 s2 rest l1 -> taken os numa s2 s3 (map as_chunk l1 ++ rest) l2 ->
  taken os numa s1 s3 rest (l1 ++ l2).
Proof.
  intros [H1 H2 H3 H4 H5 H6 H7] [K1 K2 K3 K4 K5 K6 K7]. constructor.
  - done.
  - congruence.
  - by apply Forall_app_2.
  - assert (map as_chunk (l1 ++ l2) ++ chunks s3 ++ rest
      ≡ₚ map as_chunk l2 ++ chunks s3 ++ map as_chunk l1 ++ rest) as ->; [|done].
    rewrite map_app. solve_Permutation.
  - intros x n. rewrite map_app, <- app_assoc, own_app. intros [Hx|Hx]; apply H5; rewrite own_app; auto.
  - intros Hn x n Hx. apply (H6 Hn) in Hx. rewrite map_app, <- app_assoc, own_app in *.
    destruct Hx as [Hx|Hx]; auto.
  - intros q Hq. rewrite K7, H7; [done|done|]. intros n Hn. apply (Hq n), H5. rewrite own_app. by right.
Qed.

Lemma list_del_taken os s p rest :
  hdrs_ok s -> good (chunks s ++ rest) -> p ∈ free_chunks s ->
  let c := hdr s p in
  taken os (ch_numa c) s (list_del s p) rest [mk_os_chunk (ch_addr c) (ch_size c) os (ch_numa c)].
Proof.
  intros Hs Hg Hp c. apply taken_whole; auto using list_del_ok.
  rewrite (list_del_chunks s p) by done. simpl. unfold as_chunk; simpl. subst c. by destruct (hdr s p).
Qed.

Lemma take_chunk_ok s os numa left p exact rest :
  hdrs_ok s -> good (chunks s ++ rest) -> p ∈ free_chunks s -> ch_numa (hdr s p) = numa ->
  0 < left -> (exact = true -> ch_size (hdr s p) = left) ->
  (aligned left \/ ch_size (hdr s p) <= left) ->
  exists oc s', take_chunk s os numa left (p, exact) = (oc, s') /\
    oc_size oc = Z.min left (ch_size (hdr s p)) /\ taken os numa s s' rest [oc] /\
    (ch_size (hdr s p) <= left -> chunks s ≡ₚ as_chunk oc :: chunks s').
Proof.
  intros Hs Hg Hp <- Hl He Hor. set (c := hdr s p) in *.
  pose proof (list_del_taken os s p rest Hs Hg Hp) as Ht. simpl in Ht. fold c in Ht.
  pose proof (list_del_chunks s p Hs Hp) as Hperm. fold c in Hperm.
  assert (as_chunk (mk_os_chunk (ch_addr c) (ch_size c) os (ch_numa c)) = c) as Ec by (by destruct c).
  unfold take_chunk. fold c. destruct exact.
  { eexists _, _. split; [reflexivity|]. simpl. rewrite Ec. split; [lia|]. auto. }
  destruct (Z.ltb_spec left (ch_size c)) as [Hlt|Hge].
  2:{ eexists _, _. split; [reflexivity|]. simpl. rewrite Ec. split; [lia|]. auto. }
  assert (aligned left) as Hal by (destruct Hor; [done|lia]).
  rewrite Hperm in Hg. destruct (split_chunk_ok (list_del s p) c left rest)
    as (Hok & Hu & Hg' & Hown & Hkeep & Hh); auto using list_del_ok.
  eexists _, _. split; [reflexivity|]. split; [simpl; lia|]. split; [|lia].
  constructor; auto.
  - intros x n. rewrite Hperm. apply Hown.
  - intros Hn x n. rewrite Hperm. by apply Hkeep.
  - intros q Hq. apply Hh. intros Hw. apply (Hq (ch_numa c)). rewrite Hperm, own_cons. by left.
Qed.

Lemma node_free_perm s c l n :
  chunks s ≡ₚ c :: l -> ch_numa c = n -> node_free s n = ch_size c + total (on_node n l).
Proof. intros Hp Hn. unfold node_free. rewrite Hp, on_node_cons, decide_True by done. done. Qed.

(** One round. *)
Lemma gather_S fuel kok i os want numa left s tba :
  left <> 0 ->
  gather (S fuel) kok i os want numa left s tba =
  if negb (kok i) then Ret (- ENOMEM, s, tba) else
  let found := match find_chunk (hdr s) left numa None (free_chunks s) with
    | (Some p, _) => Some (p, true)
    | (None, Some p) => Some (p, false)
    | (None, None) => None
    end in
  match found with
  | None => if want =? IHK_SMP_MEM_ALL then Ret (0, s, tba) else Ret (- ENOMEM, s, tba)
  | Some f =>
      let '(oc, s') := take_chunk s os numa left f in
      gather fuel kok (S i) os want numa (u64 (left - oc_size oc)) s' (tba ++ [oc])
  end.
Proof. intros Hl. simpl. by rewrite (proj2 (Z.eqb_neq left 0)). Qed.

Lemma gather_0 fuel kok i os want numa s tba : gather fuel kok i os want numa 0 s tba = Ret (0, s, tba).
Proof. by destruct fuel. Qed.

Lemma found_spec s numa left :
  match match find_chunk (hdr s) left numa None (free_chunks s) with
    | (Some p, _) => Some (p, true)
    | (None, Some p) => Some (p, false)
    | (None, None) => None
    end with
  | Some (p, exact) => p ∈ free_chunks s /\ ch_numa (hdr s p) = numa /\
      (exact = true -> ch_size (hdr s p) = left)
  | None => on_node numa (chunks s) = []
  end.
Proof.
  pose proof (find_chunk_spec (hdr s) left numa None (free_chunks s)) as Hf.
  destruct (find_chunk _ _ _ _ _) as [[p|] [m|]]; try tauto; [naive_solver|].
  destruct Hf as [_ Hf]. unfold on_node, chunks. induction Hf as [|q l Hq Hl IH]; [done|].
  simpl. rewrite filter_cons, decide_False by done. apply IH.
Qed.

Lemma free_valid s p rest : good (chunks s ++ rest) -> p ∈ free_chunks s -> ch_valid (hdr s p).
Proof.
  intros Hg Hp. apply good_app_l in Hg as [_ Hv]. rewrite Forall_forall in Hv.
  by apply Hv, list_elem_of_fmap_2.
Qed.

(** The whole loop: enough fuel is one more than the number of chunks of the
    node. *)
Lemma gather_ok kok os want numa fuel : forall i left s tba rest,
  hdrs_ok s -> good (chunks s ++ rest) -> 0 <= left < 2 ^ 64 ->
  (aligned left \/ node_free s numa <= left) ->
  (length (on_node numa (chunks s)) < fuel)%nat ->
  exists ret s' l, gather fuel kok i os want numa left s tba = Ret (ret, s', tba ++ l) /\
    taken os numa s s' rest l /\
    (ret = 0 -> total (map as_chunk l) = Z.min left (node_free s numa)) /\
    (ret <> 0 -> ret = - ENOMEM /\ chunks s ≡ₚ map as_chunk l ++ chunks s') /\
    (l = [] -> s' = s) /\
    ((forall j, kok j = true) ->
     ret = if (left <=? node_free s numa) || (want =? IHK_SMP_MEM_ALL) then 0 else - ENOMEM).
Proof.
  induction fuel as [|fuel IH]; intros i left s tba rest Hs Hg Hleft Hor Hfuel; [lia|].
  pose proof (node_free_nonneg s numa (good_app_l _ _ Hg)) as Hnf.
  destruct (Z.eq_dec left 0) as [->|Hl].
  { rewrite gather_0. exists 0, s, []. rewrite app_nil_r, (proj2 (Z.leb_le 0 _)) by done.
    split; [done|]. split; [by apply taken_nil|]. split; [simpl; lia|].
    split; [done|]. split; [done|]. done. }
  rewrite gather_S by done. destruct (kok i) eqn:Ek; cbn [negb].
  2:{ exists (- ENOMEM), s, []. rewrite app_nil_r. split; [done|]. split; [by apply taken_nil|].
      split; [done|]. split; [done|]. split; [done|]. intros Hk. by rewrite Hk in Ek. }
  pose proof (found_spec s numa left) as Hf. cbv zeta.
  destruct (match find_chunk _ _ _ _ _ with (Some p, _) => _ | (None, _) => _ end) as [[p exact]|].
  2:{ unfold node_free in *. rewrite Hf in *. change (total []) with 0 in *.
      rewrite (proj2 (Z.leb_gt left 0)) by lia. destruct (want =? IHK_SMP_MEM_ALL); cbn [orb].
      - exists 0, s, []. rewrite app_nil_r. split; [done|]. split; [by apply taken_nil|]. split; [simpl; lia|]. done.
      - exists (- ENOMEM), s, []. rewrite app_nil_r. split; [done|]. split; [by apply taken_nil|]. done. }
  destruct Hf as (Hp & Hn & He). pose proof (in_node_free s numa p (good_app_l _ _ Hg) Hp Hn) as Hin.
  destruct (take_chunk_ok s os numa left p exact rest) as (oc & s1 & -> & Hsz & Ht & Hw);
    auto; [lia|destruct Hor; [by left|right; lia]|].
  destruct (free_valid s p rest Hg Hp) as (_ & Hpos & _ & _ & Hcal).
  destruct (Z.le_gt_cases (ch_size (hdr s p)) left) as [Hle|Hgt].
  - specialize (Hw Hle). rewrite Z.min_r in Hsz by done.
    assert (oc_numa oc = numa) as Hon by (destruct Ht as [_ _ Ho]; rewrite Forall_singleton in Ho; tauto).
    pose proof (node_free_perm s (as_chunk oc) (chunks s1) numa Hw Hon) as Hnf1. simpl in Hnf1.
    fold (node_free s1 numa) in Hnf1. pose proof (tk_good _ _ _ _ _ _ Ht) as Hg1.
    destruct (IH (S i) (left - oc_size oc) s1 (tba ++ [oc]) (map as_chunk [oc] ++ rest))
      as (ret & s' & l & E & Ht' & H0 & H1 & _ & H2).
    { by destruct Ht. }
    { rewrite Permutation_app_comm, <- app_assoc. by rewrite (Permutation_app_comm rest). }
    { lia. }
    { destruct Hor as [Hor|Hor]; [left; rewrite Hsz; by apply aligned_sub | right; lia]. }
    { rewrite Hw, on_node_cons, decide_True in Hfuel by done. simpl in Hfuel. lia. }
    rewrite u64_small by lia. exists ret, s', (oc :: l). rewrite E, <- app_assoc.
    split; [done|]. split; [by apply (taken_trans _ _ _ s1 _ _ [oc])|]. simpl.
    split; [|split; [|split; [done|]]].
    + intros Hr. rewrite (H0 Hr). lia.
    + intros Hr. destruct (H1 Hr) as [-> Hp1]. split; [done|]. by rewrite Hw, Hp1.
    + intros Hk. rewrite (H2 Hk). replace (left <=? node_free s numa) with
        (left - oc_size oc <=? node_free s1 numa); [done|]. zcases; lia.
  - rewrite Z.min_l in Hsz by lia. rewrite Hsz, Z.sub_diag. change (u64 0) with 0. rewrite gather_0.
    exists 0, s1, [oc]. rewrite (proj2 (Z.leb_le left _)) by lia. split; [done|]. split; [done|].
    split; [simpl; lia|]. done.
Qed.
End taking.

(** ** Merging *)

(** The list head, and the words behind it that merge_mem_chunks reads as an
    address, do not refer to the memory the driver manages. *)
Definition all_mem (s : memst) : list chunk := chunks s ++ map as_chunk (used_chunks s).
Definition head_safe (head : Z) (s : memst) : Prop := forall x n,
  own (all_mem s) x n -> x <> head /\ x + 1 <> ch_addr (hdr s head).

Lemma head_safe_mono head s s' :
  head_safe head s -> hdr s' head = hdr s head ->
  (forall x n, own (all_mem s') x n -> own (all_mem s) x n) -> head_safe head s'.
Proof. unfold head_safe. intros Hs -> Ho x n Hx. eauto. Qed.

Lemma merge_scan_None head h l1 p q l2 :
  merge_scan head h (l1 ++ p :: q :: l2) = None -> p = q \/ mergeable (h p) (h q) = false.
Proof.
  induction l1 as [|a l1 IH]; simpl.
  - destruct (Z.eqb_spec p q); [auto|]. simpl. destruct (mergeable (h p) (h q)); auto. done.
  - case_match; [done|auto].
Qed.

Lemma merge_scan_Some head h l p q :
  merge_scan head h l = Some (p, q) ->
  mergeable (h p) (h q) = true /\ p ∈ l /\ (q = head \/ exists l1 l2, l = l1 ++ p :: q :: l2).
Proof.
  induction l as [|a l IH]; simpl; [done|].
  destruct (negb _ && _) eqn:E.
  - intros [= <- <-]. apply andb_prop in E as [_ E]. split; [done|]. split; [left|].
    destruct l as [|b l]; [by left|]. right. by exists [], l.
  - intros Hs. destruct (IH Hs) as (Hm & Hp & Hq). split; [done|]. split; [by right|].
    destruct Hq as [->|(l1 & l2 & ->)]; [by left|]. right. by exists (a :: l1), l2.
Qed.

Definition join (c d : chunk) : chunk := mk_chunk (ch_addr c) (ch_size c + ch_size d) (ch_numa c).

Lemma good_join c d l : good (c :: d :: l) -> ch_addr d = ch_end c -> good (join c d :: l).
Proof.
  rewrite !good_cons, Forall_cons. intros (Hv & (Ha & Hf) & Hv' & Hf' & Hg) He. split; [|split; [|done]].
  - unfold ch_valid, ch_end, join in *. simpl. intuition (try lia); auto with ihk.
  - rewrite Forall_forall in Hf, Hf' |- *. intros x Hx. specialize (Hf x Hx). specialize (Hf' x Hx).
    destruct Hg as [_ Hl]. rewrite Forall_forall in Hl. specialize (Hl x Hx).
    unfold apart, ch_end, join, ch_valid in *. simpl. lia.
Qed.

Lemma own_join c d l x n :
  0 < ch_size c -> 0 < ch_size d -> ch_addr d = ch_end c -> ch_numa d = ch_numa c ->
  own (join c d :: l) x n <-> own (c :: d :: l) x n.
Proof.
  intros H1 H2 He Hn. rewrite !own_cons. unfold within, ch_end, join in *. simpl.
  destruct (Z.lt_ge_cases x (ch_addr d)); intuition lia.
Qed.

Lemma merge_step s l1 p q l2 rest :
  hdrs_ok s -> good (chunks s ++ rest) -> free_chunks s = l1 ++ p :: q :: l2 ->
  mergeable (hdr s p) (hdr s q) = true ->
  let c := hdr s p in
  let s1 := list_del (put_hdr s p (mk_chunk (ch_addr c) (u64 (ch_size c + ch_size (hdr s q))) (ch_numa c))) q in
  hdrs_ok s1 /\ used_chunks s1 = used_chunks s /\ good (chunks s1 ++ rest) /\
  (forall x n, own (chunks s1) x n <-> own (chunks s) x n) /\
  (S (length (free_chunks s1)) = length (free_chunks s))%nat.
Proof.
  intros [Hh Hs] Hg Ef Hm c s1.
  pose proof (sorted_NoDup _ Hs) as Hn. rewrite Ef in Hn, Hs, Hh.
  assert ((p ∉ l1) /\ (q ∉ l1) /\ q <> p /\ (p ∉ l2) /\ (q ∉ l2)) as (Hpl1 & Hql1 & Hqp & Hpl2 & Hql2).
  { apply NoDup_app in Hn as (_ & Hd & Hn). rewrite !NoDup_cons, not_elem_of_cons in Hn.
    split_and!; try naive_solver; intros Hx; destruct (Hd _ Hx); rewrite !elem_of_cons; auto. }
  apply andb_prop in Hm as [Hm1 Hm2]. apply Z.eqb_eq in Hm1, Hm2.
  assert (chunks s ≡ₚ hdr s p :: hdr s q :: map (hdr s) (l1 ++ l2)) as Ec.
  { unfold chunks. rewrite Ef. rewrite !map_app. simpl. solve_Permutation. }
  rewrite Ec in Hg.
  assert (ch_valid (hdr s p) /\ ch_valid (hdr s q)) as [Hvp Hvq].
  { simpl in Hg. rewrite !good_cons in Hg. tauto. }
  assert (ch_end (hdr s p) = ch_addr (hdr s q)) as Hend.
  { rewrite Hm1, u64_small; unfold ch_valid, ch_end in *; lia. }
  assert (free_chunks s1 = l1 ++ p :: l2) as Ef1.
  { unfold s1. simpl. rewrite Ef, filter_app, !filter_cons. rewrite decide_True by congruence.
    rewrite decide_False by tauto. by rewrite !filter_ne_id. }
  assert (chunks s1 ≡ₚ join (hdr s p) (hdr s q) :: map (hdr s) (l1 ++ l2)) as Ec1.
  { unfold chunks. rewrite Ef1, <- Permutation_middle. cbn [map].
    change (hdr s1) with (hdr (put_hdr s p (mk_chunk (ch_addr c) (u64 (ch_size c + ch_size (hdr s q))) (ch_numa c)))).
    rewrite map_put_hdr.
    - simpl. rewrite Z.eqb_refl. unfold join. rewrite u64_small; [done|].
      unfold ch_valid, ch_end, c in *. lia.
    - rewrite elem_of_app. tauto. }
  split; [|split; [done|split; [|split]]].
  - split; rewrite Ef1.
    + rewrite Forall_app, Forall_cons in Hh |- *. rewrite Forall_cons in Hh.
      destruct Hh as (H1 & H2 & H3 & H4). split; [|split].
      * rewrite Forall_forall in H1 |- *. intros x Hx. simpl. destruct (Z.eqb_spec x p) as [->|]; auto.
      * simpl. by rewrite Z.eqb_refl.
      * rewrite Forall_forall in H4 |- *. intros x Hx. simpl. destruct (Z.eqb_spec x p) as [->|]; auto.
    + rewrite <- Ef1. unfold s1. simpl. rewrite Ef. by apply filter_sorted.
  - rewrite Ec1. simpl in Hg |- *. by apply good_join.
  - intros x n. rewrite Ec1, Ec. apply own_join; unfold ch_valid in *; auto; lia.
  - rewrite Ef1, Ef, !length_app. simpl. lia.
Qed.

(** The same free memory, arranged in other chunks. *)
Record same_mem (head : Z) (rest : list chunk) (s s' : memst) : Prop := {
  sm_hdrs : hdrs_ok s';
  sm_used : used_chunks s' = used_chunks s;
  sm_good : good (chunks s' ++ rest);
  sm_own : forall x n, own (chunks s') x n <-> own (chunks s) x n;
  sm_head : hdr s' head = hdr s head
}.

Lemma same_mem_refl head rest s : hdrs_ok s -> good (chunks s ++ rest) -> same_mem head rest s s.
Proof. by constructor. Qed.

Lemma same_mem_trans head rest s1 s2 s3 :
  same_mem head rest s1 s2 -> same_mem head rest s2 s3 -> same_mem head rest s1 s3.
Proof.
  intros [? ? ? H1 ?] [? ? ? H2 ?]. constructor; try congruence; auto.
  intros x n. by rewrite H2.
Qed.

Lemma own_all_ext s s' :
  used_chunks s' = used_chunks s -> (forall x n, own (chunks s') x n -> own (chunks s) x n) ->
  forall x n, own (all_mem s') x n -> own (all_mem s) x n.
Proof. intros Hu Ho x n. unfold all_mem. rewrite Hu, !own_app. naive_solver. Qed.

Lemma head_safe_same head rest s s' : head_safe head s -> same_mem head rest s s' -> head_safe head s'.
Proof.
  intros Hs [_ Hu _ Ho Hh]. eapply head_safe_mono; eauto. apply own_all_ext; [done|].
  intros x n. by rewrite Ho.
Qed.

Lemma own_hdr s p x :
  p ∈ free_chunks s -> within x (hdr s p) -> own (all_mem s) x (ch_numa (hdr s p)).
Proof.
  intros Hp Hx. unfold all_mem. rewrite own_app. left. apply Exists_exists.
  exists (hdr s p). split; [by apply list_elem_of_fmap_2 | done].
Qed.

Lemma own_start s p rest : hdrs_ok s -> good (chunks s ++ rest) -> p ∈ free_chunks s ->
  own (all_mem s) p (ch_numa (hdr s p)).
Proof.
  intros [Hh _] Hg Hp. apply own_hdr; [done|]. destruct (free_valid s p _ Hg Hp) as (? & ? & _).
  rewrite Forall_forall in Hh. specialize (Hh _ Hp). unfold within, ch_end. lia.
Qed.

Lemma own_last s p rest : good (chunks s ++ rest) -> p ∈ free_chunks s ->
  own (all_mem s) (ch_end (hdr s p) - 1) (ch_numa (hdr s p)).
Proof.
  intros Hg Hp. apply own_hdr; [done|]. destruct (free_valid s p _ Hg Hp) as (? & ? & _).
  unfold within, ch_end. lia.
Qed.

Lemma merge_loop_ok head rest fuel : forall s,
  hdrs_ok s -> good (chunks s ++ rest) -> head_safe head s -> (length (free_chunks s) <= fuel)%nat ->
  exists s', merge_loop fuel head s = Ret s' /\ same_mem head rest s s' /\
    merge_scan head (hdr s') (free_chunks s') = None.
Proof.
  induction fuel as [|fuel IH]; intros s Hs Hg Hh Hf.
  { exists s. destruct (free_chunks s) eqn:E; [|simpl in Hf; lia]. simpl. rewrite E. by auto using same_mem_refl. }
  simpl. destruct (merge_scan head (hdr s) (free_chunks s)) as [[p q]|] eqn:E.
  2:{ exists s. by auto using same_mem_refl. }
  apply merge_scan_Some in E as (Hm & Hp & Hq).
  destruct (Hh _ _ (own_start s p _ Hs Hg Hp)) as [Hph _].
  assert (q <> head) as Hqh.
  { intros ->. destruct (Hh _ _ (own_last s p _ Hg Hp)) as [_ He].
    apply andb_prop in Hm as [Hm _]. apply Z.eqb_eq in Hm.
    destruct (free_valid s p rest Hg Hp) as (? & ? & ? & _). unfold ch_end in *.
    rewrite u64_small in Hm by lia. lia. }
  rewrite (proj2 (Z.eqb_neq q head)) by done. destruct Hq as [?|(l1 & l2 & Ef)]; [done|].
  destruct (merge_step s l1 p q l2 rest Hs Hg Ef Hm) as (Hs1 & Hu1 & Hg1 & Ho1 & Hl1).
  match goal with |- context [merge_loop fuel head ?x] => set (s1 := x) in * end.
  assert (same_mem head rest s s1) as Hsm.
  { constructor; auto. simpl. by rewrite (proj2 (Z.eqb_neq head p)) by congruence. }
  destruct (IH s1) as (s' & -> & Hsm' & Hn); eauto using head_safe_same; [lia|].
  exists s'. eauto using same_mem_trans.
Qed.

Lemma merge_ok head rest s :
  hdrs_ok s -> good (chunks s ++ rest) -> head_safe head s ->
  exists s', merge_mem_chunks head s = Ret s' /\ same_mem head rest s s' /\
    merge_scan head (hdr s') (free_chunks s') = None.
Proof. intros. by apply merge_loop_ok. Qed.

(** ** One assignment *)

Definition mem_ok (s : memst) : Prop := hdrs_ok s /\ good (all_mem s).

Lemma give_back_ok `{SmpEnv} head rest l : forall s,
  hdrs_ok s -> good (map as_chunk l ++ chunks s ++ rest) ->
  (forall x n, own (map as_chunk l ++ all_mem s) x n -> x <> head /\ x + 1 <> ch_addr (hdr s head)) ->
  exists s', give_back head s l = Ret s' /\ hdrs_ok s' /\ used_chunks s' = used_chunks s /\
    good (chunks s' ++ rest) /\ hdr s' head = hdr s head /\
    (forall x n, own (chunks s') x n <-> own (map as_chunk l ++ chunks s) x n).
Proof.
  induction l as [|oc l IH]; intros s Hs Hg Hh.
  { exists s. by repeat (split; [done|]). }
  set (c := as_chunk oc) in *. change (map as_chunk (oc :: l)) with (c :: map as_chunk l) in *.
  assert (good (c :: chunks s)) as Hgc.
  { apply (good_app_l _ (map as_chunk l ++ rest)). simpl. revert Hg. apply good_proper.
    simpl. solve_Permutation. }
  destruct (put_leftover_ok s (oc_addr oc) (oc_size oc) (oc_numa oc) Hs) as (Hs1 & Hp1 & Hu1).
  { by apply (start_fresh s c). }
  set (s1 := put_leftover s (oc_addr oc) (oc_size oc) (oc_numa oc)) in *.
  change (chunks s1 ≡ₚ c :: chunks s) in Hp1.
  assert (hdr s1 head = hdr s head) as Hh1.
  { simpl. destruct (Z.eqb_spec head (oc_addr oc)) as [->|]; [|done]. exfalso.
    destruct (Hh (oc_addr oc) (oc_numa oc)) as [? _]; [|done]. simpl. rewrite own_cons. left.
    rewrite good_cons in Hgc. unfold c, as_chunk, within, ch_valid, ch_end in *. simpl in *. split; [lia|done]. }
  destruct (merge_ok head (map as_chunk l ++ rest) s1) as (s2 & E2 & [Hs2 Hu2 Hg2 Ho2 Hh2] & _); [done| | |].
  { rewrite Hp1. revert Hg. apply good_proper. simpl. solve_Permutation. }
  { intros x n Hx. rewrite Hh1. apply (Hh x n). revert Hx. unfold all_mem. rewrite Hu1, Hp1.
    simpl. rewrite !own_cons, !own_app. tauto. }
  destruct (IH s2) as (s' & E' & H1 & H2 & H3 & H4 & H5); [done| | |].
  { revert Hg2. apply good_proper. solve_Permutation. }
  { intros x n Hx. rewrite Hh2, Hh1. apply (Hh x n). revert Hx. unfold all_mem. rewrite Hu2, Hu1.
    simpl. rewrite !own_cons, !own_app, Ho2, Hp1, own_cons. tauto. }
  exists s'. cbn [give_back]. fold s1. rewrite E2. cbn [mbind outcome_bind]. rewrite E'.
  split; [done|]. split; [done|]. split; [congruence|]. split; [done|]. split; [congruence|].
  intros x n. rewrite H5. simpl. rewrite own_cons, !own_app, Ho2, Hp1, own_cons. tauto.
Qed.

Lemma insert_used_perm oc l : insert_used oc l ≡ₚ oc :: l.
Proof.
  induction l as [|x l IH]; simpl; [done|]. case_match; [done|]. rewrite IH. apply Permutation_swap.
Qed.

Lemma commit_ok l : forall s o s' o', foldl commit_one (s, o) l = (s', o') ->
  hdr s' = hdr s /\ free_chunks s' = free_chunks s /\ used_chunks s' ≡ₚ l ++ used_chunks s /\
  os_status o' = os_status o.
Proof.
  induction l as [|oc l IH]; intros s o s' o' E; simpl in E.
  { injection E as <- <-. done. }
  destruct (IH _ _ _ _ E) as (-> & -> & -> & ->). simpl. rewrite insert_used_perm.
  split; [done|]. split; [done|]. split; [|done]. by rewrite Permutation_middle.
Qed.

Lemma total_zero l rest : good (map as_chunk l ++ rest) -> total (map as_chunk l) <= 0 -> l = [].
Proof.
  intros Hg. apply good_app_l in Hg as [_ Hv]. destruct l as [|oc l]; [done|]. simpl in *.
  rewrite Forall_cons in Hv. destruct Hv as [Hc Hl]. pose proof (total_nonneg _ Hl).
  unfold ch_valid, as_chunk in Hc. simpl in Hc. lia.
Qed.

(** Outcome of an assignment: the kernel has got [l], or nothing changed but
    the arrangement of the free memory. *)
Definition assigned (os numa sz : Z) (s s' : memst) (ret : Z) : Prop :=
  (ret = 0 /\ exists l, l <> [] /\ used_chunks s' ≡ₚ l ++ used_chunks s /\
     Forall (fun oc => oc_os oc = os /\ oc_numa oc = numa) l /\
     total (map as_chunk l) = Z.min sz (node_free s numa)) \/
  (ret = - ENOMEM /\ used_chunks s' = used_chunks s /\
     forall x n, own (chunks s') x n <-> own (chunks s) x n).

(** Memory neither appears nor moves to another node; it is all kept when no
    compound page is in the way. *)
Record step_ok (head : Z) (s s' : memst) `{SmpEnv} : Prop := {
  st_ok : mem_ok s';
  st_safe : head_safe head s';
  st_own : forall x n, own (all_mem s') x n -> own (all_mem s) x n;
  st_keep : (forall x, page_tail x = None) -> forall x n, own (all_mem s) x n -> own (all_mem s') x n
}.

Lemma node_free_length s numa : (length (on_node numa (chunks s)) < S (length (free_chunks s)))%nat.
Proof.
  unfold on_node, chunks. pose proof (length_filter (fun c => ch_numa c = numa) (map (hdr s) (free_chunks s))).
  rewrite length_map in *. lia.
Qed.

Section assign.
  Context `{SmpEnv} (Htails : tails_ok) (head : Z).

Lemma commit_step s s1 s' l os numa :
  mem_ok s -> head_safe head s ->
  taken os numa s s1 (map as_chunk (used_chunks s)) l ->
  hdr s' = hdr s1 -> free_chunks s' = free_chunks s1 -> used_chunks s' ≡ₚ l ++ used_chunks s1 ->
  step_ok head s s'.
Proof.
  intros [Hs Hg] Hsafe [T1 T2 T3 T4 T5 T6 T7] Eh Ef Eu.
  assert (all_mem s' ≡ₚ (map as_chunk l ++ chunks s1) ++ map as_chunk (used_chunks s)) as Ea.
  { unfold all_mem, chunks. rewrite Eh, Ef, Eu, T2, map_app. solve_Permutation. }
  assert (forall x n, own (all_mem s') x n -> own (all_mem s) x n) as Hown.
  { intros x n. rewrite Ea. unfold all_mem. rewrite (own_app _ _ x n), (own_app (chunks s)).
    intros [Hx|Hx]; auto. }
  constructor.
  - split; [|by rewrite Ea, <- app_assoc]. unfold hdrs_ok. by rewrite Eh, Ef.
  - eapply head_safe_mono; [exact Hsafe| |done]. rewrite Eh. apply T7. intros n Hn.
    destruct (Hsafe head n) as [? _]; [|done]. unfold all_mem. rewrite own_app. by left.
  - done.
  - intros Hn x n. rewrite Ea. unfold all_mem. rewrite (own_app _ _ x n), (own_app _ _ x n).
    intros [Hx|Hx]; auto.
Qed.

Lemma rollback_step s s1 l os numa :
  mem_ok s -> head_safe head s -> taken os numa s s1 (map as_chunk (used_chunks s)) l ->
  chunks s ≡ₚ map as_chunk l ++ chunks s1 ->
  exists s', give_back head s1 l = Ret s' /\ step_ok head s s' /\ used_chunks s' = used_chunks s /\
    (forall x n, own (chunks s') x n <-> own (chunks s) x n).
Proof.
  intros [Hs Hg] Hsafe [T1 T2 T3 T4 T5 T6 T7] Hp.
  assert (hdr s1 head = hdr s head) as Hh.
  { apply T7. intros n Hn. destruct (Hsafe head n) as [? _]; [|done]. unfold all_mem. rewrite own_app. by left. }
  destruct (give_back_ok head (map as_chunk (used_chunks s)) l s1)
    as (s' & E & H1 & H2 & H3 & H4 & H5); [done|done| |].
  { intros x n Hx. rewrite Hh. apply (Hsafe x n). revert Hx. unfold all_mem.
    rewrite T2, Hp, !own_app. tauto. }
  exists s'. rewrite T2 in H2. assert (forall x n, own (chunks s') x n <-> own (chunks s) x n) as Ho.
  { intros x n. by rewrite H5, Hp. }
  split; [done|]. split; [|done]. constructor.
  - split; [done|]. unfold all_mem. by rewrite H2.
  - eapply head_safe_mono; [exact Hsafe|congruence|]. apply own_all_ext; [done|]. intros x n. by rewrite Ho.
  - apply own_all_ext; [done|]. intros x n. by rewrite Ho.
  - intros _ x n. unfold all_mem. by rewrite H2, !own_app, Ho.
Qed.

Lemma assign_one_ok kok os sz numa s o :
  mem_ok s -> head_safe head s -> 0 <= sz < 2 ^ 64 -> aligned sz \/ sz = IHK_SMP_MEM_ALL ->
  exists ret s' o', smp_ihk_os_assign_mem_one head kok os sz numa s o = Ret (ret, s', o') /\
    step_ok head s s' /\ os_status o' = os_status o /\ assigned os numa sz s s' ret /\
    ((forall j, kok j = true) ->
     (ret = 0 <-> 0 < sz /\ 0 < node_free s numa /\ (sz <= node_free s numa \/ sz = IHK_SMP_MEM_ALL))).
Proof.
  intros Hok Hsafe Hsz Hal. pose proof Hok as [Hs Hg].
  pose proof (node_free_bound s numa Hs (good_app_l _ _ Hg)) as Hnb.
  pose proof (node_free_nonneg s numa (good_app_l _ _ Hg)) as Hnn.
  destruct (gather_ok Htails kok os sz numa (S (length (free_chunks s))) 0 sz s []
    (map as_chunk (used_chunks s))) as (ret & s1 & l & E & Ht & Hr0 & Hr1 & Hl & Hk);
    auto using node_free_length.
  { destruct Hal as [?| ->]; [by left|right; lia]. }
  unfold smp_ihk_os_assign_mem_one. rewrite E. cbn [mbind outcome_bind app].
  destruct (Z.eqb_spec ret 0) as [->|Hne]; cbn [negb].
  - specialize (Hr0 eq_refl).
    destruct l as [|oc l].
    + simpl in Hr0. eexists _, s1, o. split; [reflexivity|].
      split; [by apply (commit_step s s1 s1 [] os numa)|]. split; [done|].
      split; [|split; [done|lia]].
      right. split; [done|]. by rewrite (Hl eq_refl).
    + destruct (foldl commit_one (s1, o) (oc :: l)) as [s' o'] eqn:Ec.
      destruct (commit_ok _ _ _ _ _ Ec) as (Eh & Ef & Eu & Eo).
      eexists _, s', o'. split; [reflexivity|]. split; [by apply (commit_step s s1 s' (oc :: l) os numa)|].
      split; [done|]. rewrite (tk_used _ _ _ _ _ _ Ht) in Eu. split.
      * left. split; [done|]. exists (oc :: l). split; [done|]. split; [done|]. split; [apply Ht|done].
      * intros Hkk. specialize (Hk Hkk). split; [intros _|done].
        assert (0 < total (map as_chunk (oc :: l))).
        { destruct (Z.le_gt_cases (total (map as_chunk (oc :: l))) 0) as [Hz|]; [|done].
          by pose proof (total_zero _ _ (tk_good _ _ _ _ _ _ Ht) Hz). }
        split; [lia|]. split; [lia|]. rewrite <- Z.leb_le, <- Z.eqb_eq, <- orb_true_iff.
        by destruct (_ || _).
  - destruct (Hr1 Hne) as [-> Hp]. destruct (rollback_step s s1 l os numa) as (s' & -> & Hst & Hu & Ho); auto.
    eexists _, s', o. split; [reflexivity|]. split; [done|]. split; [done|]. split; [right; auto|].
    intros Hkk. specialize (Hk Hkk). split; [done|]. intros (? & ? & Hz).
    assert ((sz <=? node_free s numa) || (sz =? IHK_SMP_MEM_ALL) = true) as Hb.
    { rewrite orb_true_iff, Z.leb_le, Z.eqb_eq. done. }
    by rewrite Hb in Hk.
Qed.
End assign.

(** ** Release *)

Lemma take_used_Some os size numa l oc r :
  take_used os size numa l = Some (oc, r) ->
  l ≡ₚ oc :: r /\ oc_os oc = os /\ oc_size oc = size /\ oc_numa oc = numa.
Proof.
  revert r. induction l as [|x l IH]; intros r; simpl; [done|].
  destruct (_ && _ && _) eqn:E.
  - intros [= <- <-]. rewrite !andb_true_iff, !Z.eqb_eq in E. naive_solver.
  - destruct (take_used os size numa l) as [[y r']|]; [|done]. intros [= <- <-].
    destruct (IH r' eq_refl) as (-> & H). split; [apply Permutation_swap|done].
Qed.

Lemma take_used_None os size numa l :
  take_used os size numa l = None <->
  Forall (fun oc => ~ (oc_os oc = os /\ oc_size oc = size /\ oc_numa oc = numa)) l.
Proof.
  induction l as [|x l IH]; simpl; [done|]. rewrite Forall_cons, <- IH.
  destruct (_ && _ && _) eqn:E.
  - rewrite !andb_true_iff, !Z.eqb_eq in E. split; [done|]. tauto.
  - assert (~ (oc_os x = os /\ oc_size x = size /\ oc_numa x = numa)).
    { intros (E1 & E2 & E3). rewrite (proj2 (Z.eqb_eq _ _) E1), (proj2 (Z.eqb_eq _ _) E2),
        (proj2 (Z.eqb_eq _ _) E3) in E. done. }
    destruct (take_used os size numa l) as [[y r']|]; naive_solver.
Qed.

Lemma release_one_ok `{SmpEnv} head os size numa s :
  mem_ok s -> head_safe head s ->
  let '(ret, s') := smp_ihk_os_release_mem_one os size numa s in
  step_ok head s s' /\
  ((ret = - EINVAL /\ s' = s /\
    Forall (fun oc => ~ (oc_os oc = os /\ oc_size oc = size /\ oc_numa oc = numa)) (used_chunks s)) \/
   (ret = 0 /\ exists oc, oc_os oc = os /\ oc_size oc = size /\ oc_numa oc = numa /\
    used_chunks s ≡ₚ oc :: used_chunks s' /\ chunks s' ≡ₚ as_chunk oc :: chunks s)).
Proof.
  intros [Hs Hg] Hsafe. unfold smp_ihk_os_release_mem_one.
  destruct (take_used os size numa (used_chunks s)) as [[oc r]|] eqn:E.
  2:{ apply take_used_None in E. split; [by constructor|]. by left. }
  apply take_used_Some in E as (Hp & Ho & Hz & Hn).
  assert (all_mem s ≡ₚ (as_chunk oc :: chunks s) ++ map as_chunk r) as Ea.
  { unfold all_mem. rewrite Hp. simpl. solve_Permutation. }
  destruct (put_leftover_ok (set_used s r) (oc_addr oc) (oc_size oc) (oc_numa oc) Hs) as (H1 & H2 & H3).
  { apply (start_fresh s (as_chunk oc) Hs). rewrite Ea in Hg. by apply good_app_l in Hg. }
  set (s' := put_leftover _ _ _ _) in *. change (chunks s' ≡ₚ as_chunk oc :: chunks s) in H2.
  assert (all_mem s' ≡ₚ all_mem s) as Eas by (rewrite Ea; unfold all_mem; by rewrite H2, H3).
  split; [|right; split; [done|]; exists oc; by rewrite H3, H2].
  constructor.
  - split; [done|]. by rewrite Eas.
  - eapply head_safe_mono; [exact Hsafe| |intros x n; by rewrite Eas].
    simpl. destruct (Z.eqb_spec head (oc_addr oc)) as [->|]; [|done]. exfalso.
    destruct (Hsafe (oc_addr oc) (oc_numa oc)) as [? _]; [|done]. rewrite Ea. simpl. rewrite own_cons. left.
    rewrite Ea in Hg. simpl in Hg. rewrite good_cons in Hg.
    unfold as_chunk, within, ch_valid, ch_end in *. simpl in *. split; [lia|done].
  - intros x n. by rewrite Eas.
  - intros _ x n. by rewrite Eas.
Qed.

Lemma step_ok_refl `{SmpEnv} head s : mem_ok s -> head_safe head s -> step_ok head s s.
Proof. by constructor. Qed.

Lemma step_ok_trans `{SmpEnv} head s1 s2 s3 : step_ok head s1 s2 -> step_ok head s2 s3 -> step_ok head s1 s3.
Proof. intros [? ? H1 H2] [? ? H3 H4]. constructor; auto. Qed.

Lemma release_ignore_ok `{SmpEnv} head os l : forall s,
  mem_ok s -> head_safe head s -> step_ok head s (foldl (release_ignore os) s l).
Proof.
  induction l as [|[sz numa] l IH]; intros s Hs Hh; simpl; [by apply step_ok_refl|].
  unfold release_ignore at 2. simpl. pose proof (release_one_ok head os sz numa s Hs Hh) as Hr.
  destruct (smp_ihk_os_release_mem_one os sz numa s) as [ret s']. destruct Hr as [Hr _].
  eapply step_ok_trans; [exact Hr|]. destruct Hr. by apply IH.
Qed.

Lemma release_all_ok `{SmpEnv} head os l : forall s,
  mem_ok s -> head_safe head s -> step_ok head s (release_all os l s).2.
Proof.
  induction l as [|[sz numa] l IH]; intros s Hs Hh; simpl; [by apply step_ok_refl|].
  pose proof (release_one_ok head os sz numa s Hs Hh) as Hr.
  destruct (smp_ihk_os_release_mem_one os sz numa s) as [ret s']. destruct Hr as [Hr _].
  case_match; [done|]. eapply step_ok_trans; [exact Hr|]. destruct Hr. by apply IH.
Qed.

(** Sizes a client of the ioctl may ask for: whole pages, or all. *)
Definition size_ok (sz : Z) : Prop := 0 <= sz < 2 ^ 64 /\ (aligned sz \/ sz = IHK_SMP_MEM_ALL).

Lemma assign_all_ok `{SmpEnv} (Htails : tails_ok) head kok os l : forall i s o,
  mem_ok s -> head_safe head s -> Forall (fun r => size_ok r.1) l ->
  exists ret k s' o', assign_all head kok i os l s o = Ret (ret, k, s', o') /\
    step_ok head s s' /\ os_status o' = os_status o.
Proof.
  induction l as [|[sz numa] l IH]; intros i s o Hs Hh Hl; simpl.
  { eexists _, _, _, _. split; [reflexivity|]. auto using step_ok_refl. }
  rewrite Forall_cons in Hl. destruct Hl as [[Hsz Hal] Hl]. simpl in Hsz, Hal.
  destruct (assign_one_ok Htails head (kok i) os sz numa s o)
    as (ret & s1 & o1 & -> & Hst & Ho & _); auto. cbn [mbind outcome_bind].
  destruct (ret =? 0); cbn [negb].
  - destruct (IH (S i) s1 o1) as (ret' & k & s' & o' & -> & Hst' & Ho'); [apply Hst|apply Hst|done|].
    eexists _, _, _, _. split; [reflexivity|]. split; [by eapply step_ok_trans|congruence].
  - eexists _, _, _, _. split; [reflexivity|]. auto.
Qed.

(** ** Pages given back to Linux *)

(** compound_order of a head page: the block fits in the address space. *)
Definition orders_ok `{SmpEnv} : Prop := forall x o, page_order x = Some o -> 0 <= o < 52.

Lemma order_bounds o : 0 <= o < 52 -> 0 < PAGE_SIZE <= PAGE_SIZE * 2 ^ o /\ PAGE_SIZE * 2 ^ o < 2 ^ 64.
Proof.
  intros Ho. pose proof (Z.pow_lt_mono_r 2 o 52 ltac:(lia) ltac:(lia)).
  pose proof (Z.pow_pos_nonneg 2 o ltac:(lia) ltac:(lia)). unfold PAGE_SIZE. lia.
Qed.

Lemma aligned_pos x : aligned x -> 0 < x -> PAGE_SIZE <= x.
Proof. intros [k ->] Hx. unfold PAGE_SIZE in *. nia. Qed.

Lemma release_pages_ok `{SmpEnv} (Ho : orders_ok) fuel : forall va left,
  aligned left -> 0 <= left -> 0 <= va -> va + left < 2 ^ 64 -> left < PAGE_SIZE * Z.of_nat fuel ->
  exists l, release_pages fuel va left = Ret l /\ Forall (fun f => va <= f.1 < va + left) l.
Proof.
  induction fuel as [|fuel IH]; intros va left Hal H0 Hv Hend Hf; [unfold PAGE_SIZE in Hf; lia|].
  simpl. destruct (Z.eqb_spec left 0) as [->|Hl]; [by eexists|].
  pose proof (aligned_pos left Hal ltac:(lia)) as Hp.
  assert (forall k, aligned k -> PAGE_SIZE <= k <= left ->
    exists l, release_pages fuel (u64 (va + k)) (u64 (left - k)) = Ret l /\
      Forall (fun f => va + k <= f.1 < va + left) l) as Hrec.
  { intros k Hk Hkl. destruct (IH (va + k) (left - k)) as (l & E & Hl'); auto with ihk;
      try (unfold PAGE_SIZE in *; lia).
    exists l. rewrite !u64_small by (unfold PAGE_SIZE in *; lia). split; [done|].
    eapply Forall_impl; [exact Hl'|]. simpl. lia. }
  assert (forall k l, 0 <= k -> Forall (fun f : Z * Z => va + k <= f.1 < va + left) l ->
    Forall (fun f => va <= f.1 < va + left) l) as Hw.
  { intros k l Hk Hf'. eapply Forall_impl; [exact Hf'|]. simpl. lia. }
  destruct (page_order va) as [o|] eqn:Eo.
  - pose proof (order_bounds o (Ho _ _ Eo)) as Hb. rewrite Z.shiftl_mul_pow2 by (destruct (Ho _ _ Eo); lia).
    rewrite (u64_small (PAGE_SIZE * _)) by lia.
    destruct (Z.leb_spec (PAGE_SIZE * 2 ^ o) left).
    + destruct (Hrec (PAGE_SIZE * 2 ^ o)) as (l & -> & Hl'); auto with ihk; [lia|]. cbn [mbind outcome_bind].
      eexists. split; [reflexivity|]. constructor; [simpl; lia|]. eapply Hw; [|exact Hl']. lia.
    + eexists. split; [reflexivity|]. constructor; [simpl; lia|done].
  - destruct (Hrec PAGE_SIZE) as (l & -> & Hl'); [apply (aligned_mul 1)|lia|]. cbn [mbind outcome_bind].
    assert (Forall (fun f => va <= f.1 < va + left) l) by (eapply Hw; [|exact Hl']; unfold PAGE_SIZE; lia).
    destruct (page_tail va); eexists; (split; [reflexivity|]); [done|].
    constructor; [simpl; lia|done].
Qed.

Lemma release_chunk_ok `{SmpEnv} (Ho : orders_ok) c : ch_valid c ->
  exists l, ihk_smp_release_chunk c = Ret l /\ Forall (fun f => within f.1 c) l.
Proof.
  intros (Ha & Hs & He & _ & Hal). unfold ihk_smp_release_chunk, within, ch_end in *.
  apply release_pages_ok; auto; try lia. rewrite Nat2Z.inj_succ, Z2Nat.id by (apply Z.div_pos; [lia|done]).
  rewrite <- Z.add_1_r. by apply Z.mul_succ_div_gt.
Qed.

Lemma find_free_in h size numa l p : find_free h size numa l = Some p -> p ∈ l.
Proof.
  induction l as [|q l IH]; simpl; [done|]. case_match; [intros [= ->]; left|right; auto].
Qed.

(** Handing a chunk to Linux leaves the rest in order. *)
Lemma release_mem_ok `{SmpEnv} (Ho : orders_ok) head sz numa s :
  mem_ok s -> head_safe head s ->
  exists ret l s', ihk_smp_release_mem sz numa s = Ret (ret, l, s') /\ mem_ok s' /\ head_safe head s' /\
    (forall x n, own (all_mem s') x n -> own (all_mem s) x n).
Proof.
  intros [Hs Hg] Hh. unfold ihk_smp_release_mem.
  destruct (find_free (hdr s) sz numa (free_chunks s)) as [p|] eqn:E.
  2:{ eexists _, _, _. split; [reflexivity|]. done. }
  apply find_free_in in E. destruct (release_chunk_ok Ho (hdr s p)) as (l & -> & _).
  { by eapply free_valid. }
  cbn [mbind outcome_bind]. eexists _, _, _. split; [reflexivity|].
  assert (all_mem s ≡ₚ hdr s p :: all_mem (list_del s p)) as Ea.
  { unfold all_mem at 1. by rewrite (list_del_chunks s p). }
  assert (forall x n, own (all_mem (list_del s p)) x n -> own (all_mem s) x n) as Hown.
  { intros x n Hx. rewrite Ea, own_cons. by right. }
  split; [split|split]; [by apply list_del_ok| | |done].
  - rewrite Ea, good_cons in Hg. tauto.
  - by eapply head_safe_mono.
Qed.

Lemma release_dev_ok `{SmpEnv} (Ho : orders_ok) head reqs : forall s,
  mem_ok s -> head_safe head s ->
  exists ret l s', release_dev reqs s = Ret (ret, l, s') /\ mem_ok s' /\ head_safe head s' /\
    (forall x n, own (all_mem s') x n -> own (all_mem s) x n).
Proof.
  induction reqs as [|[sz numa] reqs IH]; intros s Hs Hh; simpl; [by eauto 10|].
  destruct (release_mem_ok Ho head sz numa s Hs Hh) as (ret & l & s1 & -> & H1 & H2 & H3).
  cbn [mbind outcome_bind]. destruct (ret =? 0); cbn [negb]; [|by eauto 10].
  destruct (IH s1 H1 H2) as (ret' & l' & s' & -> & K1 & K2 & K3). cbn [mbind outcome_bind].
  eexists _, _, _. split; [reflexivity|]. auto.
Qed.

(** ** Any use of the memory ioctls *)

Inductive mem_op : Type :=
| MAssign (km : nat -> bool) (kok : nat -> nat -> bool) (os : Z) (arg : uptr ihk_mem_req) (o : smp_os_data)
| MRelease (km : nat -> bool) (rem os : Z) (arg : uptr ihk_mem_req) (o : smp_os_data)
| MFree (km : nat -> bool) (arg : uptr ihk_mem_req).

Definition mem_run `{SmpEnv} (head : Z) (op : mem_op) (s : memst) : outcome memst :=
  match op with
  | MAssign km kok os arg o => ' (_, s', _) ← smp_ihk_os_assign_mem head km kok os arg s o; Ret s'
  | MRelease km rem os arg o => Ret (smp_ihk_os_release_mem km rem os arg s o).2
  | MFree km arg => ' (_, _, s') ← smp_ihk_release_mem km arg s; Ret s'
  end.

Fixpoint mem_runs `{SmpEnv} (head : Z) (ops : list mem_op) (s : memst) : outcome memst :=
  match ops with
  | [] => Ret s
  | op :: r => s' ← mem_run head op s; mem_runs head r s'
  end.

(** An assignment asks for whole pages, or for all. *)
Definition op_ok (op : mem_op) : Prop :=
  match op with
  | MAssign _ _ _ arg _ =>
      match mr_sizes (up_val arg) with UArr _ _ l => Forall size_ok l | UNull => True end
  | _ => True
  end.

Lemma copy_from_user_sizes u n l :
  match u with UArr _ _ l => Forall size_ok l | UNull => True end ->
  copy_from_user u n = Some l -> Forall size_ok l.
Proof.
  unfold copy_from_user. intros Hu. destruct (n =? 0); [by intros [= <-]|].
  destruct u as [|[] w l0]; try done. case_match; [|done]. intros [= <-]. by apply Forall_take.
Qed.

Lemma zip_sizes (l k : list Z) : Forall size_ok l -> Forall (fun r => size_ok r.1) (zip l k).
Proof.
  intros Hl. revert k. induction Hl as [|x l Hx Hl IH]; intros [|y k]; simpl; auto.
Qed.

Definition sub_mem (head : Z) (s s' : memst) : Prop :=
  mem_ok s' /\ head_safe head s' /\ forall x n, own (all_mem s') x n -> own (all_mem s) x n.

Lemma step_sub `{SmpEnv} head s s' : step_ok head s s' -> sub_mem head s s'.
Proof. by intros [? ? ? _]. Qed.

(** Case analysis on the next early return of a handler. *)
Ltac next_guard := match goal with |- context [if ?b then _ else _] => destruct b end.

Lemma assign_mem_ok `{SmpEnv} (Ht : tails_ok) head km kok os arg s o :
  mem_ok s -> head_safe head s -> op_ok (MAssign km kok os arg o) ->
  exists ret s' o', smp_ihk_os_assign_mem head km kok os arg s o = Ret (ret, s', o') /\ step_ok head s s'.
Proof.
  intros Hs Hh Hop. simpl in Hop. unfold smp_ihk_os_assign_mem.
  repeat (next_guard; [eexists _, _, _; split; [reflexivity|by apply step_ok_refl]|]).
  destruct (copy_from_user (mr_sizes _) _) as [sizes|] eqn:E1.
  2:{ eexists _, _, _. split; [reflexivity|by apply step_ok_refl]. }
  destruct (copy_from_user (mr_numa_ids _) _) as [numas|].
  2:{ eexists _, _, _. split; [reflexivity|by apply step_ok_refl]. }
  destruct (assign_all_ok Ht head kok os (zip sizes numas) 0 s o) as (ret & k & s1 & o1 & -> & Hst & _);
    eauto using zip_sizes, copy_from_user_sizes.
  cbn [mbind outcome_bind]. eexists _, _, _. split; [reflexivity|].
  eapply step_ok_trans; [exact Hst|]. destruct Hst. by apply release_ignore_ok.
Qed.

Lemma mem_run_ok `{SmpEnv} (Ht : tails_ok) (Ho : orders_ok) head op s :
  mem_ok s -> head_safe head s -> op_ok op ->
  exists s', mem_run head op s = Ret s' /\ sub_mem head s s'.
Proof.
  intros Hs Hh Hop. destruct op as [km kok os arg o|km rem os arg o|km arg]; simpl.
  - destruct (assign_mem_ok Ht head km kok os arg s o) as (ret & s' & o' & -> & Hst); auto.
    eauto using step_sub.
  - eexists. split; [reflexivity|]. apply step_sub. unfold smp_ihk_os_release_mem.
    repeat (case_match; try by apply step_ok_refl). by apply release_all_ok.
  - unfold smp_ihk_release_mem.
    repeat (next_guard; [eexists; split; [reflexivity|]; by split|]).
    repeat (case_match; try (eexists; split; [reflexivity|]; by split)).
    match goal with |- context [release_dev ?r s] =>
      destruct (release_dev_ok Ho head r s Hs Hh) as (ret & l' & s' & -> & Hsub) end.
    cbn [mbind outcome_bind]. eauto.
Qed.

(** C15 When kmalloc works, __smp_ihk_os_assign_mem of a
    positive number of whole pages succeeds exactly when the NUMA node has
    that much free memory, in however many chunks; "all" succeeds when there
    is any.  The kernel then owns new chunks of the node of exactly the size
    asked for (all the free memory for "all"); otherwise the result is
    -ENOMEM, no chunk was assigned and the same memory is free. *)
Theorem assign_mem_correct `{SmpEnv} head kok os sz numa s o :
  tails_ok -> mem_ok s -> head_safe head s -> size_ok sz -> (forall j, kok j = true) ->
  exists ret s' o', smp_ihk_os_assign_mem_one head kok os sz numa s o = Ret (ret, s', o') /\
    (ret = 0 <-> 0 < sz /\ 0 < node_free s numa /\ (sz <= node_free s numa \/ sz = IHK_SMP_MEM_ALL)) /\
    ((ret = 0 /\ exists l, used_chunks s' ≡ₚ l ++ used_chunks s /\
        Forall (fun oc => oc_os oc = os /\ oc_numa oc = numa) l /\
        total (map as_chunk l) = Z.min sz (node_free s numa)) \/
     (ret = - ENOMEM /\ used_chunks s' = used_chunks s /\
        forall x n, own (chunks s') x n <-> own (chunks s) x n)).
Proof.
  intros Ht Hs Hh [Hsz Hal] Hk.
  destruct (assign_one_ok Ht head kok os sz numa s o) as (ret & s' & o' & E & _ & _ & Ha & Hr); auto.
  exists ret, s', o'. split; [done|]. split; [auto|].
  destruct Ha as [(? & l & _ & ?)|?]; [left; eauto|by right].
Qed.

(** merge_mem_chunks, run on a free list in order, ends; the
    free memory and its nodes stay as they are and no two neighbours that
    could be merged are left. *)
Theorem merge_correct head s :
  mem_ok s -> head_safe head s ->
  exists s', merge_mem_chunks head s = Ret s' /\ mem_ok s' /\ used_chunks s' = used_chunks s /\
    (forall x n, own (chunks s') x n <-> own (chunks s) x n) /\
    forall l1 p q l2, free_chunks s' = l1 ++ p :: q :: l2 -> mergeable (hdr s' p) (hdr s' q) = false.
Proof.
  intros [Hs Hg] Hh. destruct (merge_ok head (map as_chunk (used_chunks s)) s Hs Hg Hh)
    as (s' & E & [H1 H2 H3 H4 _] & Hn).
  exists s'. split; [done|]. split; [split; [done|]; unfold all_mem; by rewrite H2|].
  split; [done|]. split; [done|]. intros l1 p q l2 Ef. rewrite Ef in Hn.
  apply merge_scan_None in Hn as [->|]; [|done]. destruct H1 as [_ Hsort].
  apply sorted_NoDup in Hsort. rewrite Ef in Hsort. apply NoDup_app in Hsort as (_ & _ & Hsort).
  rewrite NoDup_cons, elem_of_cons in Hsort. naive_solver.
Qed.

(** smp_ihk_query_mem of the device copies out all the
    free chunks, also when the caller has room for fewer (the query of a
    kernel refuses that): more entries than announced are written. *)
Theorem query_mem_overrun km arg s :
  up_read arg = true -> up_write arg = true -> validate_mem_req (up_val arg) = 0 ->
  km 0%nat = true -> km 1%nat = true ->
  0 < mr_num (up_val arg) < Z.of_nat (length (free_chunks s)) ->
  copy_to_user (mr_sizes (up_val arg)) (Z.of_nat (length (free_chunks s))) = true ->
  copy_to_user (mr_numa_ids (up_val arg)) (Z.of_nat (length (free_chunks s))) = true ->
  exists sizes numas, smp_ihk_query_mem km arg s =
    (0, mk_mem_out (Some sizes) (Some numas) (Some (Z.of_nat (length (free_chunks s))))) /\
    mr_num (up_val arg) < Z.of_nat (length sizes).
Proof.
  intros Hr Hw Hv H0 H1 Hn Hc1 Hc2. unfold smp_ihk_query_mem, copy_out.
  rewrite Hr, Hv, H0, H1, Hw. simpl. rewrite (proj2 (Z.eqb_neq (mr_num _) 0)) by lia.
  rewrite !length_map, Hc1, Hc2. simpl. rewrite (proj2 (Z.eqb_neq _ 0)) by lia.
  eexists _, _. split; [reflexivity|]. rewrite !length_map. lia.
Qed.

(** ** A machine with two reserved chunks

    Node 0 has three pages at 1 MiB and four at 4 MiB, of which the first two
    are a compound page. *)

Definition demo_smp : SmpEnv := {|
  arch := X86_64;
  nr_cpu_ids := 8;
  cpu_present := fun c => (0 <=? c) && (c <? 8);
  cpu_to_node := fun c => c / 4;
  x86_cpu_to_apicid := fun c => 2 * c;
  filp_open := fun c => negb (c =? 0);
  kernel_write := fun c v on => Some (if v then {[c]} ∪ on else on ∖ {[c]});
  page_tail := fun x => if (0x401000 <=? x) && (x <? 0x402000) then Some (0x400000, 1) else None;
  page_order := fun x => if x =? 0x400000 then Some 1 else None
|}.

Definition demo_mem : memst := mk_mem
  (fun p => if p =? 0x100000 then mk_chunk 0x100000 0x3000 0
            else if p =? 0x400000 then mk_chunk 0x400000 0x4000 0 else mk_chunk 0 0 0)
  [0x100000; 0x400000] [].
Definition demo_head : Z := 64.
Definition demo_osd : smp_os_data := mk_osd BUILTIN_OS_STATUS_INITIAL 0 0 ∅ ∅ [] [] 0 0.
Definition demo_req (sizes numas : list Z) : uptr ihk_mem_req :=
  mk_uptr (mk_mem_req (UArr true true sizes) (UArr true true numas) (Z.of_nat (length sizes)) 0 0 0) true true.

Lemma aligned_dec x : (x mod PAGE_SIZE =? 0) = true -> aligned x.
Proof. intros Hx. apply Z.mod_divide; [done|]. by apply Z.eqb_eq. Qed.

Lemma demo_tails : @tails_ok demo_smp.
Proof.
  intros x h o. simpl. destruct ((0x401000 <=? x) && (x <? 0x402000)) eqn:E; [|done].
  intros [= <- <-]. apply andb_prop in E as [E1 E2]. rewrite Z.leb_le in E1. rewrite Z.ltb_lt in E2.
  assert (x mod PAGE_SIZE = x - 0x401000) as ->.
  { symmetry. apply (Z.mod_unique _ _ 0x401); unfold PAGE_SIZE; lia. }
  split; [lia|]. split; [by apply aligned_dec|]. unfold PAGE_SIZE. lia.
Qed.

Lemma demo_orders : @orders_ok demo_smp.
Proof. intros x o. simpl. case_match; [intros [= <-]; lia|done]. Qed.

Lemma demo_mem_ok : mem_ok demo_mem.
Proof.
  split.
  - split; [by repeat constructor|]. repeat constructor.
  - change (all_mem demo_mem) with [mk_chunk 0x100000 0x3000 0; mk_chunk 0x400000 0x4000 0].
    rewrite !good_cons. unfold ch_valid, apart, ch_end, good. simpl.
    repeat split; try lia; try (by apply aligned_dec); try done.
    repeat constructor. simpl. lia.
Qed.

Lemma demo_head_safe : head_safe demo_head demo_mem.
Proof.
  intros x n. change (all_mem demo_mem) with [mk_chunk 0x100000 0x3000 0; mk_chunk 0x400000 0x4000 0].
  rewrite !own_cons. unfold within, ch_end. simpl. intros [?|[?|Hx]]; [unfold demo_head; lia..|].
  by inversion Hx.
Qed.

Lemma demo_size_ok sz : (0 <=? sz) && (sz <? 2 ^ 64) && (sz mod PAGE_SIZE =? 0) = true -> size_ok sz.
Proof.
  rewrite !andb_true_iff, Z.leb_le, Z.ltb_lt. intros [[? ?] ?]. split; [done|]. left. by apply aligned_dec.
Qed.

Lemma assign_mem_correct_witness :
  exists ret s' o', @smp_ihk_os_assign_mem_one demo_smp demo_head (fun _ => true) 1 0x5000 0 demo_mem demo_osd
      = Ret (ret, s', o') /\
    (ret = 0 <-> 0 < 0x5000 /\ 0 < node_free demo_mem 0 /\
       (0x5000 <= node_free demo_mem 0 \/ 0x5000 = IHK_SMP_MEM_ALL)) /\
    ((ret = 0 /\ exists l, used_chunks s' ≡ₚ l ++ used_chunks demo_mem /\
        Forall (fun oc => oc_os oc = 1 /\ oc_numa oc = 0) l /\
        total (map as_chunk l) = Z.min 0x5000 (node_free demo_mem 0)) \/
     (ret = - ENOMEM /\ used_chunks s' = used_chunks demo_mem /\
        forall x n, own (chunks s') x n <-> own (chunks demo_mem) x n)).
Proof.
  apply (@assign_mem_correct demo_smp); auto using demo_tails, demo_mem_ok, demo_head_safe.
  by apply demo_size_ok.
Defined.

Lemma merge_correct_witness :
  exists s', merge_mem_chunks demo_head demo_mem = Ret s' /\ mem_ok s' /\
    used_chunks s' = used_chunks demo_mem /\
    (forall x n, own (chunks s') x n <-> own (chunks demo_mem) x n) /\
    forall l1 p q l2, free_chunks s' = l1 ++ p :: q :: l2 -> mergeable (hdr s' p) (hdr s' q) = false.
Proof. apply merge_correct; auto using demo_mem_ok, demo_head_safe. Defined.

Definition demo_query : uptr ihk_mem_req :=
  mk_uptr (mk_mem_req (UArr true true [0; 0; 0]) (UArr true true [0; 0; 0]) 1 0 0 0) true true.

Lemma query_mem_overrun_witness :
  exists sizes numas, smp_ihk_query_mem (fun _ => true) demo_query demo_mem =
    (0, mk_mem_out (Some sizes) (Some numas) (Some 2)) /\ 1 < Z.of_nat (length sizes).
Proof. by apply (query_mem_overrun (fun _ => true) demo_query demo_mem). Defined.

(** A request for two pieces of which the second one
    cannot be had fails with -ENOMEM, but the first piece, which was put
    together from two chunks, stays assigned: the clean-up looks for one
    chunk of the size that was asked for. *)
Theorem assign_rollback_leak `{SmpEnv} :
  match smp_ihk_os_assign_mem demo_head (fun _ => true) (fun _ _ => true) 1
      (demo_req [0x7000; 0x1000] [0; 0]) demo_mem demo_osd with
  | Ret (ret, s', _) => ret = - ENOMEM /\ free_chunks s' = [] /\
      used_chunks s' = [mk_os_chunk 0x100000 0x3000 1 0; mk_os_chunk 0x400000 0x4000 1 0]
  | Undef => False
  end.
Proof. vm_compute. auto. Qed.
