(* ===== verification/SmpRb.v ===== *)
(** * Red-black trees of chunks (src/linux/driver/smp/smp-driver.c)

    While memory is reserved from Linux or given back in part, the driver
    keeps chunks in a red-black tree ordered by address; inserting a chunk
    joins it with the chunks next to it.  The rebalancing is the kernel's
    (lib/rbtree.c); the model only uses that it keeps the order of the
    nodes.  The nodes are the headers themselves, so the tree shares them
    with the free list. *)

From stdpp Require Import base tactics numbers list gmap sorting.
From S2P Require Import Prelude SmpData SmpMem.

Open Scope ihk_scope.

(** ** Trees *)

Inductive tree : Type :=
| Leaf
| Node (l : tree) (p : Z) (r : tree).

(** The nodes in the order rb_first and rb_next visit them. *)
Fixpoint inorder (t : tree) : list Z :=
  match t with
  | Leaf => []
  | Node l p r => inorder l ++ p :: inorder r
  end.

(** rb_insert_color after a node was linked, and rb_erase. *)
Class RbTree : Type := {
  rb_insert_color : Z -> tree -> tree;
  rb_erase : Z -> tree -> tree
}.

Class RbTreeOk (R : RbTree) : Prop := {
  inorder_insert_color p t : inorder (rb_insert_color p t) = inorder t;
  inorder_erase p t : inorder (rb_erase p t) = filter (fun q => q <> p) (inorder t)
}.

(** rb_next and rb_prev of a node *)
Fixpoint next_in (p : Z) (l : list Z) : option Z :=
  match l with
  | [] => None
  | q :: r => if q =? p then head r else next_in p r
  end.
Fixpoint prev_in (p : Z) (before : option Z) (l : list Z) : option Z :=
  match l with
  | [] => None
  | q :: r => if q =? p then before else prev_in p (Some q) r
  end.
Definition rb_next (p : Z) (t : tree) : option Z := next_in p (inorder t).
Definition rb_prev (p : Z) (t : tree) : option Z := prev_in p None (inorder t).

(** Where the descent of __mem_chunk_insert stops: at a node that ends where
    the chunk begins, at a node that begins where it ends, or at a leaf. *)
Inductive stop : Type :=
| AtLeft (p : Z)
| AtRight (p : Z)
| AtLeaf.

Fixpoint descend (h : Z -> chunk) (c : chunk) (t : tree) : stop :=
  match t with
  | Leaf => AtLeaf
  | Node l p r =>
      let i := h p in
      if u64 (ch_addr i + ch_size i) =? ch_addr c then AtLeft p else
      if u64 (ch_addr c + ch_size c) =? ch_addr i then AtRight p else
      if ch_addr c <? ch_addr i then descend h c l else descend h c r
  end.

(** rb_link_node at the leaf the descent has reached *)
Fixpoint link (h : Z -> chunk) (p : Z) (t : tree) : tree :=
  match t with
  | Leaf => Node Leaf p Leaf
  | Node l q r =>
      if ch_addr (h p) <? ch_addr (h q) then Node (link h p l) q r else Node l q (link h p r)
  end.

Definition hput (h : Z -> chunk) (p : Z) (c : chunk) : Z -> chunk := fun q => if q =? p then c else h q.

Section insert.
  Context `{RbTree}.

(** __mem_chunk_insert *)
Definition mem_chunk_insert (h : Z -> chunk) (t : tree) (p : Z) : (Z -> chunk) * tree :=
  let c := h p in
  match descend h c t with
  | AtLeft q =>
      let i := mk_chunk (ch_addr (h q)) (u64 (ch_size (h q) + ch_size c)) (ch_numa (h q)) in
      match rb_next q t with
      | Some r =>
          if u64 (ch_addr i + ch_size i) =? ch_addr (h r) then
            (hput h q (mk_chunk (ch_addr i) (u64 (ch_size i + ch_size (h r))) (ch_numa i)), rb_erase r t)
          else (hput h q i, t)
      | None => (hput h q i, t)
      end
  | AtRight q =>
      let i := mk_chunk (u64 (ch_addr (h q) - ch_size c)) (u64 (ch_size (h q) + ch_size c)) (ch_numa (h q)) in
      match rb_prev q t with
      | Some l =>
          if u64 (ch_addr (h l) + ch_size (h l)) =? ch_addr i then
            (hput h q (mk_chunk (u64 (ch_addr i - ch_size (h l))) (u64 (ch_size i + ch_size (h l))) (ch_numa i)),
             rb_erase l t)
          else (hput h q i, t)
      | None => (hput h q i, t)
      end
  | AtLeaf => (h, rb_insert_color p (link h p t))
  end.

(** max_size_mem_chunk *)
Definition max_size_mem_chunk (h : Z -> chunk) (t : tree) : Z :=
  foldl (fun m p => if m <? ch_size (h p) then ch_size (h p) else m) 0 (inorder t).
End insert.

(** ** Ascending chunks with gaps *)

Definition gap (c d : chunk) : Prop := ch_end c < ch_addr d.
Definition spaced (l : list chunk) : Prop := StronglySorted gap l /\ Forall ch_valid l.
Definition view (h : Z -> chunk) (t : tree) : list chunk := map h (inorder t).

Lemma spaced_cons c l : spaced (c :: l) <-> ch_valid c /\ Forall (gap c) l /\ spaced l.
Proof.
  unfold spaced. rewrite Forall_cons. split.
  - intros [Hs Hv]. inversion Hs; subst. tauto.
  - intros (? & ? & ? & ?). split; [by constructor|done].
Qed.

Lemma gap_trans a b c : gap a b -> ch_valid b -> gap b c -> gap a c.
Proof. unfold gap, ch_valid, ch_end. lia. Qed.

Lemma spaced_app l1 l2 :
  spaced (l1 ++ l2) <-> spaced l1 /\ spaced l2 /\ Forall (fun c => Forall (gap c) l2) l1.
Proof.
  induction l1 as [|c l1 IH]; simpl.
  - split; [|tauto]. intros Hs. split; [split; constructor|]. split; [done|constructor].
  - rewrite !spaced_cons, IH, Forall_app, Forall_cons. tauto.
Qed.

Lemma spaced_middle l1 x l2 :
  spaced l1 -> spaced l2 -> ch_valid x -> Forall (fun c => gap c x) l1 -> Forall (gap x) l2 ->
  spaced (l1 ++ x :: l2).
Proof.
  intros H1 H2 Hx Hl Hr. rewrite spaced_app, spaced_cons. split; [done|]. split; [done|].
  eapply Forall_impl; [exact Hl|]. intros c Hc. constructor; [done|].
  eapply Forall_impl; [exact Hr|]. intros d. by apply gap_trans.
Qed.

Lemma own_middle l1 x l2 y n : own (l1 ++ x :: l2) y n <-> own (x :: l1 ++ l2) y n.
Proof. by rewrite <- Permutation_middle. Qed.

(** ** The descent finds the neighbours *)

Lemma valid_end c : ch_valid c -> u64 (ch_addr c + ch_size c) = ch_end c.
Proof. intros (? & ? & ? & _). apply u64_small. unfold ch_end in *. lia. Qed.

Lemma spaced_in (h : Z -> chunk) l q : spaced (map h l) -> q ∈ l -> ch_valid (h q).
Proof. intros [_ Hv] Hq. rewrite Forall_forall in Hv. by apply Hv, list_elem_of_fmap_2. Qed.

Lemma descend_spec h c t :
  spaced (view h t) -> ch_valid c -> Forall (apart c) (view h t) ->
  match descend h c t with
  | AtLeft q => q ∈ inorder t /\ ch_end (h q) = ch_addr c
  | AtRight q => q ∈ inorder t /\ ch_end c = ch_addr (h q)
  | AtLeaf => Forall (fun q => ch_end (h q) <> ch_addr c /\ ch_end c <> ch_addr (h q)) (inorder t)
  end.
Proof.
  intros Hs Hc. unfold view in *. induction t as [|l IHl p r IHr]; simpl; [done|]. simpl in Hs.
  rewrite map_app in *. simpl in *. rewrite spaced_app, spaced_cons in Hs.
  destruct Hs as (Hl & (Hp & Hpr & Hr) & Hlp). rewrite Forall_app, Forall_cons. intros (Ha1 & Ha2 & Ha3).
  rewrite !valid_end by done. destruct (Z.eqb_spec (ch_end (h p)) (ch_addr c)).
  { rewrite elem_of_app, elem_of_cons. auto. }
  destruct (Z.eqb_spec (ch_end c) (ch_addr (h p))).
  { rewrite elem_of_app, elem_of_cons. auto. }
  assert (forall q, q ∈ inorder l -> ch_end (h q) < ch_addr (h p) /\ ch_valid (h q)) as Hq1.
  { intros q Hq. split; [|by apply (spaced_in h (inorder l))]. rewrite Forall_forall in Hlp. specialize (Hlp _ (list_elem_of_fmap_2 h _ _ Hq)).
    rewrite Forall_cons in Hlp. apply Hlp. }
  assert (forall q, q ∈ inorder r -> ch_end (h p) < ch_addr (h q) /\ ch_valid (h q)) as Hq2.
  { intros q Hq. split; [|by apply (spaced_in h (inorder r))]. rewrite Forall_forall in Hpr. apply (Hpr _ (list_elem_of_fmap_2 h _ _ Hq)). }
  destruct (Z.ltb_spec (ch_addr c) (ch_addr (h p))).
  - specialize (IHl Hl Ha1). destruct (descend h c l); rewrite ?elem_of_app; [naive_solver..|].
    rewrite Forall_app, Forall_cons. split; [done|]. split; [done|]. rewrite Forall_forall. intros q Hq.
    specialize (Hq2 q Hq). unfold apart, ch_end, ch_valid in *. lia.
  - specialize (IHr Hr Ha3). destruct (descend h c r); rewrite ?elem_of_app, ?elem_of_cons; [naive_solver..|].
    rewrite Forall_app, Forall_cons. split; [|done]. rewrite Forall_forall. intros q Hq.
    specialize (Hq1 q Hq). unfold apart, ch_end, ch_valid in *. lia.
Qed.

Lemma link_spec h p t :
  spaced (view h t) -> ch_valid (h p) -> Forall (apart (h p)) (view h t) ->
  exists k1 k2, inorder t = k1 ++ k2 /\ inorder (link h p t) = k1 ++ p :: k2 /\
    Forall (fun q => ch_end (h q) <= ch_addr (h p)) k1 /\ Forall (fun q => ch_end (h p) <= ch_addr (h q)) k2.
Proof.
  intros Hs Hc. unfold view in *. induction t as [|l IHl q r IHr]; simpl.
  { by exists [], []. }
  simpl in Hs. rewrite map_app in *. simpl in *. rewrite spaced_app, spaced_cons in Hs.
  destruct Hs as (Hl & (Hq & Hqr & Hr) & Hlq). rewrite Forall_app, Forall_cons. intros (Ha1 & Ha2 & Ha3).
  destruct (Z.ltb_spec (ch_addr (h p)) (ch_addr (h q))).
  - destruct (IHl Hl Ha1) as (k1 & k2 & E1 & E2 & H1 & H2). exists k1, (k2 ++ q :: inorder r).
    simpl. rewrite E2, E1, <- !app_assoc. split; [done|]. split; [done|]. split; [done|].
    assert (ch_end (h p) <= ch_addr (h q)) by (unfold apart, ch_end, ch_valid in *; lia).
    rewrite Forall_app, Forall_cons. split; [done|]. split; [done|].
    rewrite Forall_fmap in Hqr. eapply Forall_impl; [exact Hqr|]. unfold gap, ch_end, ch_valid in *. simpl. lia.
  - destruct (IHr Hr Ha3) as (k1 & k2 & E1 & E2 & H1 & H2). exists (inorder l ++ q :: k1), k2.
    simpl. rewrite E2, E1, <- !app_assoc. split; [done|]. split; [done|]. split; [|done].
    assert (ch_end (h q) <= ch_addr (h p)) by (unfold apart, ch_end, ch_valid in *; lia).
    rewrite Forall_app, Forall_cons. split; [|done].
    rewrite Forall_fmap in Hlq. eapply Forall_impl; [exact Hlq|]. simpl. intros x Hx.
    rewrite Forall_cons in Hx. unfold gap, ch_end, ch_valid in *. lia.
Qed.

(** ** Joining with the neighbours *)

Lemma map_hput h q x k1 k2 :
  NoDup (k1 ++ q :: k2) -> map (hput h q x) (k1 ++ q :: k2) = map h k1 ++ x :: map h k2.
Proof.
  intros Hn. apply NoDup_app in Hn as (_ & Hd & Hn). rewrite NoDup_cons in Hn.
  rewrite map_app. simpl. unfold hput at 2. rewrite Z.eqb_refl.
  assert (forall k, q ∉ k -> map (hput h q x) k = map h k) as Hk.
  { intros k Hq. apply map_ext_in. intros y Hy. unfold hput. destruct (Z.eqb_spec y q) as [->|]; [|done].
    by rewrite <- list_elem_of_In in Hy. }
  rewrite !Hk; [done|tauto|]. intros Hq. apply (Hd _ Hq). left.
Qed.

Lemma next_in_spec q k1 k2 : NoDup (k1 ++ q :: k2) -> next_in q (k1 ++ q :: k2) = head k2.
Proof.
  induction k1 as [|a k1 IH]; simpl; [by rewrite Z.eqb_refl|].
  rewrite NoDup_cons, elem_of_app, elem_of_cons. intros [Ha Hn].
  destruct (Z.eqb_spec a q); [tauto|auto].
Qed.

Lemma prev_in_spec q b k1 k2 :
  NoDup (k1 ++ q :: k2) -> prev_in q b (k1 ++ q :: k2) = match last k1 with Some x => Some x | None => b end.
Proof.
  revert b. induction k1 as [|a k1 IH]; intros b; simpl; [by rewrite Z.eqb_refl|].
  rewrite NoDup_cons, elem_of_app, elem_of_cons. intros [Ha Hn].
  destruct (Z.eqb_spec a q); [tauto|]. rewrite IH by done. destruct k1 as [|a' k1]; [done|].
  change (last (a :: a' :: k1)) with (last (a' :: k1)).
  destruct (last (a' :: k1)) eqn:E; [done|]. by apply last_None in E.
Qed.

(** A chunk that ends where [c] begins lies between the chunks below and
    those that begin behind [c]. *)
Lemma above_left (h : Z -> chunk) k1 q k2 c :
  spaced (map h (k1 ++ q :: k2)) -> ch_valid c -> Forall (apart c) (map h (k1 ++ q :: k2)) ->
  ch_end (h q) = ch_addr c -> Forall (fun y => ch_end c <= ch_addr (h y)) k2.
Proof.
  rewrite map_app. simpl. rewrite spaced_app, spaced_cons, Forall_app, Forall_cons.
  intros (_ & (_ & Hg & Hs) & _) Hc (_ & _ & Ha) He. rewrite Forall_forall. intros y Hy.
  pose proof (spaced_in h k2 y Hs Hy) as Hv. rewrite Forall_forall in Hg, Ha.
  specialize (Hg _ (list_elem_of_fmap_2 h _ _ Hy)). specialize (Ha _ (list_elem_of_fmap_2 h _ _ Hy)).
  unfold gap, apart, ch_end, ch_valid in *. lia.
Qed.

Lemma below_right (h : Z -> chunk) k1 q k2 c :
  spaced (map h (k1 ++ q :: k2)) -> ch_valid c -> Forall (apart c) (map h (k1 ++ q :: k2)) ->
  ch_end c = ch_addr (h q) -> Forall (fun y => ch_end (h y) <= ch_addr c) k1.
Proof.
  rewrite map_app. simpl. rewrite spaced_app, spaced_cons, Forall_app, Forall_cons.
  intros (Hs & _ & Hg) Hc (Ha & _ & _) He. rewrite Forall_forall. intros y Hy.
  pose proof (spaced_in h k1 y Hs Hy) as Hv. rewrite Forall_forall in Hg, Ha.
  specialize (Hg _ (list_elem_of_fmap_2 h _ _ Hy)). specialize (Ha _ (list_elem_of_fmap_2 h _ _ Hy)).
  rewrite Forall_cons in Hg. unfold gap, apart, ch_end, ch_valid in *. lia.
Qed.

Lemma valid_join c d : ch_valid c -> ch_valid d -> ch_end c = ch_addr d -> ch_valid (join c d).
Proof.
  intros (? & ? & ? & ? & ?) (? & ? & ? & ? & ?) He. unfold ch_valid, join, ch_end in *. simpl in *.
  repeat split; try lia; try done. by apply aligned_add.
Qed.

Lemma join_end c d : ch_end c = ch_addr d -> ch_end (join c d) = ch_end d.
Proof. unfold join, ch_end. simpl. lia. Qed.

(** Replacing the middle of a spaced list by a chunk with the same hull. *)
Lemma spaced_replace l1 m l2 x :
  spaced (l1 ++ m ++ l2) -> ch_valid x ->
  (exists d m', m = d :: m' /\ ch_addr x = ch_addr d) \/ Forall (fun a => gap a x) l1 ->
  (exists d m', m = m' ++ [d] /\ ch_end x = ch_end d) \/ Forall (gap x) l2 ->
  spaced (l1 ++ x :: l2).
Proof.
  intros Hs Hx Hl Hr. rewrite !spaced_app in Hs. destruct Hs as (H1 & (Hm & H2 & Hm2) & H12).
  apply spaced_middle; auto.
  - destruct Hl as [(d & m' & -> & E)|?]; [|done]. eapply Forall_impl; [exact H12|].
    intros a Ha. simpl in Ha. rewrite Forall_cons in Ha. unfold gap in *. rewrite E. apply Ha.
  - destruct Hr as [(d & m' & -> & E)|?]; [|done]. rewrite Forall_app, Forall_singleton in Hm2.
    eapply Forall_impl; [apply Hm2|]. intros b Hb. unfold gap in *. by rewrite E.
Qed.

(** Only headers of nodes change, and those that stay nodes grow. *)
Definition grown (h : Z -> chunk) (t : tree) (p : Z) (h' : Z -> chunk) (t' : tree) : Prop :=
  (forall q, q ∉ inorder t -> h' q = h q) /\
  (forall q, q ∈ inorder t' -> (q ∈ inorder t \/ q = p) /\ ch_addr (h' q) <= ch_addr (h q) /\ ch_end (h q) <= ch_end (h' q)).

(** What an insertion has to establish: the old memory and the chunk, again
    in ascending order with gaps. *)
Definition inserted (h : Z -> chunk) (t : tree) (p : Z) (c : chunk) (h' : Z -> chunk) (t' : tree) : Prop :=
  NoDup (inorder t') /\ spaced (view h' t') /\
  (forall x n, own (view h' t') x n <-> own (c :: view h t) x n) /\
  total (view h' t') = ch_size c + total (view h t) /\ grown h t p h' t'.

Section insertion.
  Context `{RbTreeOk} (h : Z -> chunk) (t : tree) (c : chunk) (n : Z) (p : Z).
  Hypothesis Hnodup : NoDup (inorder t).
  Hypothesis Hspaced : spaced (view h t).
  Hypothesis Hvalid : ch_valid c.
  Hypothesis Hapart : Forall (apart c) (view h t).
  Hypothesis Hnuma : Forall (fun d => ch_numa d = n) (c :: view h t).

Lemma numa_in q : q ∈ inorder t -> ch_numa (h q) = ch_numa c.
Proof.
  intros Hq. rewrite Forall_cons, Forall_forall in Hnuma. destruct Hnuma as [-> Hn].
  by apply Hn, list_elem_of_fmap_2.
Qed.

Lemma valid_in q : q ∈ inorder t -> ch_valid (h q).
Proof. by apply spaced_in. Qed.

Lemma in_mid (k1 k2 : list Z) q : inorder t = k1 ++ q :: k2 -> q ∈ inorder t.
Proof. intros ->. rewrite elem_of_app, elem_of_cons. auto. Qed.

Lemma hput_grown q x t' :
  q ∈ inorder t -> ch_addr x <= ch_addr (h q) -> ch_end (h q) <= ch_end x ->
  (forall y, y ∈ inorder t' -> y ∈ inorder t) -> grown h t p (hput h q x) t'.
Proof.
  intros Hq H1 H2 Ht. unfold grown, hput. split; intros y Hy; destruct (Z.eqb_spec y q) as [->|]; auto; done || (split; [auto|lia]).
Qed.

(** Joined to the node below. *)
Lemma insert_left_plain q k1 k2 :
  inorder t = k1 ++ q :: k2 -> ch_end (h q) = ch_addr c ->
  Forall (fun y => ch_end c < ch_addr (h y)) k2 ->
  inserted h t p c (hput h q (join (h q) c)) t.
Proof.
  intros Et He Hk. pose proof (in_mid _ _ _ Et) as Hq. pose proof (valid_in q Hq) as Hv.
  pose proof (numa_in q Hq) as Hm. pose proof Hspaced as Hs. pose proof Hnodup as Hn.
  split; [done|]. unfold view in Hs |- *. rewrite Et in Hs, Hn |- *. rewrite map_hput by done.
  rewrite map_app in Hs |- *. simpl in Hs |- *. split_and!.
  - apply (spaced_replace _ [h q]); [done|by apply valid_join| |].
    + left. by exists (h q), [].
    + right. unfold gap. rewrite join_end by done. by apply Forall_fmap.
  - intros x m. rewrite !own_middle, own_join, !own_cons, own_middle, own_cons; unfold ch_valid in *; try tauto;
      try done; lia.
  - rewrite !total_app. simpl. lia.
  - apply hput_grown; auto; unfold join, ch_valid, ch_end in *; simpl; lia.
Qed.

(** Joined to the nodes below and above, which closes a gap. *)
Lemma insert_left_close q r k1 k2 :
  inorder t = k1 ++ q :: r :: k2 -> ch_end (h q) = ch_addr c -> ch_end c = ch_addr (h r) ->
  inserted h t p c (hput h q (join (join (h q) c) (h r))) (rb_erase r t).
Proof.
  intros Et He Hr. pose proof (in_mid _ _ _ Et) as Hq.
  assert (r ∈ inorder t) as Hrt by (rewrite Et, elem_of_app, !elem_of_cons; auto).
  pose proof (valid_in q Hq) as Hv. pose proof (valid_in r Hrt) as Hvr.
  assert (inorder (rb_erase r t) = k1 ++ q :: k2) as Ee.
  { pose proof Hnodup as Hn. rewrite inorder_erase. rewrite Et in Hn |- *.
    change (k1 ++ q :: r :: k2) with (k1 ++ [q] ++ r :: k2) in *. rewrite app_assoc in Hn |- *.
    rewrite filter_NoDup_mid by done. by rewrite <- app_assoc. }
  assert (NoDup (k1 ++ q :: k2)) as Hn by (rewrite <- Ee, inorder_erase; by apply NoDup_filter).
  pose proof (numa_in q Hq) as Hmq. pose proof (numa_in r Hrt) as Hmr. pose proof Hspaced as Hs.
  split; [by rewrite Ee|]. unfold view in Hs |- *. rewrite Ee, map_hput by done.
  rewrite Et in Hs |- *. rewrite map_app in Hs |- *. simpl in Hs |- *.
  assert (ch_end (join (h q) c) = ch_addr (h r)) as Hj by (by rewrite join_end).
  split_and!.
  - apply (spaced_replace _ [h q; h r]); [done|apply valid_join; auto using valid_join| |].
    + left. by exists (h q), [h r].
    + left. exists (h r), [h q]. split; [done|]. by rewrite join_end.
  - intros x m. rewrite !own_middle, !own_join, !own_cons, !own_middle, !own_cons, own_middle, own_cons;
      unfold ch_valid, join in *; simpl in *; try tauto; try congruence; try lia.
  - rewrite !total_app. simpl. lia.
  - apply hput_grown; auto; try (unfold join, ch_valid, ch_end in *; simpl in *; lia).
    intros y. rewrite inorder_erase, list_elem_of_filter. tauto.
Qed.

(** Joined to the node above. *)
Lemma insert_right_plain q k1 k2 :
  inorder t = k1 ++ q :: k2 -> ch_end c = ch_addr (h q) ->
  Forall (fun y => ch_end (h y) < ch_addr c) k1 ->
  inserted h t p c (hput h q (join c (h q))) t.
Proof.
  intros Et He Hk. pose proof (in_mid _ _ _ Et) as Hq. pose proof (valid_in q Hq) as Hv.
  pose proof (numa_in q Hq) as Hm. pose proof Hspaced as Hs. pose proof Hnodup as Hn.
  split; [done|]. unfold view in Hs |- *. rewrite Et in Hs, Hn |- *. rewrite map_hput by done.
  rewrite map_app in Hs |- *. simpl in Hs |- *. split_and!.
  - apply (spaced_replace _ [h q]); [done|by apply valid_join| |].
    + right. unfold gap, join. simpl. by apply Forall_fmap.
    + left. exists (h q), []. split; [done|]. by rewrite join_end.
  - intros x m. rewrite !own_middle, own_join, !own_cons, own_middle, own_cons; unfold ch_valid in *; try tauto;
      try done; lia.
  - rewrite !total_app. simpl. lia.
  - apply hput_grown; auto; unfold join, ch_valid, ch_end in *; simpl; lia.
Qed.

(** Joined to the nodes above and below. *)
Lemma insert_right_close l q k1 k2 :
  inorder t = k1 ++ l :: q :: k2 -> ch_end c = ch_addr (h q) -> ch_end (h l) = ch_addr c ->
  inserted h t p c (hput h q (join (h l) (join c (h q)))) (rb_erase l t).
Proof.
  intros Et He Hl. assert (q ∈ inorder t) as Hq by (rewrite Et, elem_of_app, !elem_of_cons; auto).
  pose proof (in_mid _ _ _ Et) as Hlt. pose proof (valid_in q Hq) as Hv. pose proof (valid_in l Hlt) as Hvl.
  assert (inorder (rb_erase l t) = k1 ++ q :: k2) as Ee.
  { pose proof Hnodup as Hn. rewrite inorder_erase. rewrite Et in Hn |- *. by rewrite filter_NoDup_mid. }
  assert (NoDup (k1 ++ q :: k2)) as Hn by (rewrite <- Ee, inorder_erase; by apply NoDup_filter).
  pose proof (numa_in q Hq) as Hmq. pose proof (numa_in l Hlt) as Hml. pose proof Hspaced as Hs.
  split; [by rewrite Ee|]. unfold view in Hs |- *. rewrite Ee, map_hput by done.
  rewrite Et in Hs |- *. rewrite map_app in Hs |- *. simpl in Hs |- *.
  assert (ch_end (join c (h q)) = ch_end (h q)) as Hj by (by rewrite join_end).
  split_and!.
  - apply (spaced_replace _ [h l; h q]); [done|apply valid_join; auto using valid_join| |].
    + left. by exists (h l), [h q].
    + left. exists (h q), [h l]. split; [done|]. by rewrite join_end.
  - intros x m. rewrite own_middle, own_join, own_cons;
      [|unfold ch_valid, join in *; simpl in *; try congruence; lia..].
    rewrite own_join; [|unfold ch_valid, join in *; simpl in *; try congruence; lia..].
    rewrite !own_cons, !own_middle, !own_cons, own_middle, own_cons. tauto.
  - rewrite !total_app. simpl. lia.
  - apply hput_grown; auto; try (unfold join, ch_valid, ch_end in *; simpl in *; lia).
    intros y. rewrite inorder_erase, list_elem_of_filter. tauto.
Qed.

(** A new node. *)
Lemma insert_leaf :
  h p = c -> p ∉ inorder t ->
  Forall (fun q => ch_end (h q) <> ch_addr c /\ ch_end c <> ch_addr (h q)) (inorder t) ->
  inserted h t p c h (rb_insert_color p (link h p t)).
Proof.
  intros Hp Hn Hne. subst c. destruct (link_spec h p t Hspaced Hvalid Hapart) as (k1 & k2 & E1 & E2 & H1 & H2).
  pose proof Hspaced as Hs. pose proof Hnodup as Hd. unfold inserted, view in *.
  rewrite inorder_insert_color, E2. rewrite E1 in Hs, Hn, Hne, Hd |- *. rewrite map_app in Hs |- *. simpl.
  rewrite spaced_app in Hs. rewrite elem_of_app in Hn. rewrite Forall_app in Hne. split_and!.
  - rewrite <- Permutation_middle. constructor; [by rewrite elem_of_app|done].
  - apply spaced_middle; try tauto.
    + apply Forall_fmap. apply Forall_forall. intros q Hq. destruct Hne as [Hne _].
      rewrite Forall_forall in Hne, H1. specialize (Hne q Hq). specialize (H1 q Hq). unfold gap. simpl. lia.
    + apply Forall_fmap. apply Forall_forall. intros q Hq. destruct Hne as [_ Hne].
      rewrite Forall_forall in Hne, H2. specialize (Hne q Hq). specialize (H2 q Hq). unfold gap. simpl. lia.
  - intros x m. by rewrite map_app, own_middle.
  - rewrite !map_app, !total_app. simpl. lia.
  - split; [done|]. intros q. rewrite inorder_insert_color, E2, E1. rewrite !elem_of_app, !elem_of_cons. intros [?|[->|?]]; split; auto; lia.
Qed.

End insertion.

(** The headers as the code computes them. *)
Lemma join_eq c d : ch_valid c -> ch_valid d -> ch_end c = ch_addr d ->
  mk_chunk (ch_addr c) (u64 (ch_size c + ch_size d)) (ch_numa c) = join c d.
Proof.
  intros (? & ? & ? & _) (? & ? & ? & _) He. unfold join, ch_end in *. rewrite u64_small by lia. done.
Qed.

Lemma join_eq_r c d : ch_valid c -> ch_valid d -> ch_end c = ch_addr d -> ch_numa c = ch_numa d ->
  mk_chunk (u64 (ch_addr d - ch_size c)) (u64 (ch_size d + ch_size c)) (ch_numa d) = join c d.
Proof.
  intros (? & ? & ? & _) (? & ? & ? & _) He Hn. unfold join, ch_end in *. rewrite !u64_small by lia.
  rewrite Hn. f_equal; lia.
Qed.

(** With the first chunk above at a distance, all of them are. *)
Lemma strictly_above (h : Z -> chunk) r k c :
  spaced (map h (r :: k)) -> ch_end c < ch_addr (h r) ->
  Forall (fun y => ch_end c < ch_addr (h y)) (r :: k).
Proof.
  simpl. rewrite spaced_cons. intros (Hv & Hg & _) Hc. constructor; [done|].
  rewrite Forall_fmap in Hg. eapply Forall_impl; [exact Hg|]. unfold gap, ch_end, ch_valid in *. simpl. lia.
Qed.

Lemma strictly_below (h : Z -> chunk) k l c :
  spaced (map h (k ++ [l])) -> ch_end (h l) < ch_addr c ->
  Forall (fun y => ch_end (h y) < ch_addr c) (k ++ [l]).
Proof.
  rewrite map_app. simpl. rewrite spaced_app, spaced_cons. intros (_ & (Hv & _) & Hg) Hc.
  apply Forall_app. split; [|by constructor]. rewrite Forall_fmap in Hg. eapply Forall_impl; [exact Hg|].
  simpl. intros y Hy. rewrite Forall_singleton in Hy. unfold gap, ch_end, ch_valid in *. lia.
Qed.

Lemma spaced_mid (h : Z -> chunk) k1 q k2 : spaced (map h (k1 ++ q :: k2)) ->
  spaced (map h k1) /\ spaced (map h k2).
Proof. rewrite map_app. simpl. rewrite spaced_app, spaced_cons. tauto. Qed.

Lemma mem_chunk_insert_ok `{RbTreeOk} h t p n :
  NoDup (inorder t) -> p ∉ inorder t -> spaced (view h t) -> ch_valid (h p) ->
  Forall (apart (h p)) (view h t) -> Forall (fun d => ch_numa d = n) (h p :: view h t) ->
  inserted h t p (h p) (mem_chunk_insert h t p).1 (mem_chunk_insert h t p).2.
Proof.
  intros Hn Hp Hs Hv Ha Hm. unfold mem_chunk_insert. cbv zeta. set (c := h p) in *.
  pose proof (descend_spec h c t Hs Hv Ha) as Hd. destruct (descend h c t) as [q|q|].
  - destruct Hd as [Hq He]. pose proof (list_elem_of_split _ _ Hq) as (k1 & k2 & Et).
    pose proof (valid_in h t Hs q Hq) as Hvq. rewrite (join_eq (h q) c) by done.
    pose proof (above_left h k1 q k2 c) as Hab. rewrite <- Et in Hab. specialize (Hab Hs Hv Ha He).
    unfold rb_next. rewrite Et, next_in_spec by (by rewrite <- Et).
    destruct k2 as [|r k2].
    { by eapply (insert_left_plain h t c n); [..|constructor]. }
    change (head (r :: k2)) with (Some r). cbv iota.
    assert (r ∈ inorder t) as Hr by (rewrite Et, elem_of_app, !elem_of_cons; auto).
    pose proof (valid_in h t Hs r Hr) as Hvr.
    rewrite valid_end, join_end by auto using valid_join. destruct (Z.eqb_spec (ch_end c) (ch_addr (h r))).
    + rewrite join_eq by (auto using valid_join; by rewrite join_end). by eapply (insert_left_close h t c n).
    + eapply (insert_left_plain h t c n); eauto. apply strictly_above; [|inversion Hab; subst; lia].
      unfold view in Hs. rewrite Et in Hs. exact (proj2 (spaced_mid _ _ _ _ Hs)).
  - destruct Hd as [Hq He]. pose proof (list_elem_of_split _ _ Hq) as (k1 & k2 & Et).
    pose proof (valid_in h t Hs q Hq) as Hvq. pose proof (numa_in h t c n Hm q Hq) as Hmq.
    rewrite (join_eq_r c (h q)) by done.
    pose proof (below_right h k1 q k2 c) as Hbe. rewrite <- Et in Hbe. specialize (Hbe Hs Hv Ha He).
    unfold rb_prev. rewrite Et, prev_in_spec by (by rewrite <- Et).
    destruct k1 as [|l k1 _] using rev_ind; [|rewrite last_snoc].
    { by eapply (insert_right_plain h t c n); [..|constructor]. }
    rewrite <- app_assoc in Et. simpl in Et.
    assert (l ∈ inorder t) as Hl by (rewrite Et, elem_of_app, !elem_of_cons; auto).
    pose proof (valid_in h t Hs l Hl) as Hvl. pose proof (numa_in h t c n Hm l Hl) as Hml.
    rewrite valid_end by done. change (ch_addr (join c (h q))) with (ch_addr c).
    destruct (Z.eqb_spec (ch_end (h l)) (ch_addr c)).
    + change (ch_addr c) with (ch_addr (join c (h q))). rewrite join_eq_r by auto using valid_join.
      by eapply (insert_right_close h t c n).
    + assert (inorder t = (k1 ++ [l]) ++ q :: k2) as Et' by (by rewrite <- app_assoc).
      eapply (insert_right_plain h t c n); eauto.
      apply strictly_below; [|apply Forall_app in Hbe as [_ Hbe]; inversion Hbe; subst; lia].
      unfold view in Hs. rewrite Et' in Hs. exact (proj1 (spaced_mid _ _ _ _ Hs)).
  - simpl. by eapply (insert_leaf h t c).
Qed.

(** __mem_chunk_insert, on a tree of chunks of one
    NUMA node in ascending order with gaps between them, whatever the shape
    of the tree: the tree then holds the old memory and the new chunk, no more,
    again in ascending order with gaps, so that the chunk was joined with
    the neighbours it touches. *)
Theorem chunk_insert_correct `{RbTreeOk} h t p n :
  NoDup (inorder t) -> p ∉ inorder t -> spaced (view h t) -> ch_valid (h p) ->
  Forall (apart (h p)) (view h t) -> Forall (fun d => ch_numa d = n) (h p :: view h t) ->
  let '(h', t') := mem_chunk_insert h t p in
  NoDup (inorder t') /\ spaced (view h' t') /\
  (forall x m, own (view h' t') x m <-> own (h p :: view h t) x m) /\
  total (view h' t') = ch_size (h p) + total (view h t).
Proof.
  intros Hn Hp Hs Hv Ha Hm. pose proof (mem_chunk_insert_ok h t p n Hn Hp Hs Hv Ha Hm) as (H1 & H2 & H3 & H4 & _).
  by destruct (mem_chunk_insert h t p) as [h' t'].
Qed.

(** A tree that is never rebalanced. *)
Fixpoint erase_in (p : Z) (t : tree) : tree :=
  match t with
  | Leaf => Leaf
  | Node l q r =>
      if q =? p then
        (fix graft (l : tree) : tree := match l with Leaf => erase_in p r | Node a b c => Node a b (graft c) end)
          (erase_in p l)
      else Node (erase_in p l) q (erase_in p r)
  end.

#[local] Instance plain_rb : RbTree := {| rb_insert_color := fun _ t => t; rb_erase := erase_in |}.

Lemma erase_in_spec p t : inorder (erase_in p t) = filter (fun q => q <> p) (inorder t).
Proof.
  induction t as [|l IHl q r IHr]; simpl; [done|].
  rewrite filter_app, filter_cons, <- IHl, <- IHr. destruct (Z.eqb_spec q p) as [->|Hq].
  - rewrite decide_False by tauto. generalize (erase_in p l) as l'.
    induction l' as [|a _ b c IHc]; [done|]. simpl. by rewrite IHc, <- app_assoc.
  - by rewrite decide_True.
Qed.

#[local] Instance plain_rb_ok : RbTreeOk plain_rb.
Proof. split; [done|]. apply erase_in_spec. Qed.

Definition demo_hdr : Z -> chunk := fun p =>
  if p =? 0x1000 then mk_chunk 0x1000 0x1000 0 else
  if p =? 0x2000 then mk_chunk 0x2000 0x1000 0 else mk_chunk 0x3000 0x2000 0.

Lemma chunk_insert_correct_witness :
  let t := Node Leaf 0x1000 (Node Leaf 0x3000 Leaf) in
  let '(h', t') := mem_chunk_insert demo_hdr t 0x2000 in
  NoDup (inorder t') /\ spaced (view h' t') /\
  (forall x m, own (view h' t') x m <-> own (demo_hdr 0x2000 :: view demo_hdr t) x m) /\
  total (view h' t') = ch_size (demo_hdr 0x2000) + total (view demo_hdr t).
Proof.
  apply (chunk_insert_correct demo_hdr _ _ 0).
  - by apply (bool_decide_unpack _).
  - by apply (bool_decide_unpack _).
  - unfold view. simpl. rewrite !spaced_cons. unfold ch_valid, gap, ch_end. simpl.
    repeat split; try lia; try (by apply aligned_dec); repeat constructor.
  - unfold ch_valid, ch_end. simpl. repeat split; try lia; by apply aligned_dec.
  - unfold view, apart, ch_end. simpl. repeat constructor; simpl; lia.
  - by repeat constructor.
Defined.
