(* ===== verification/SmpReserve.v ===== *)
(** * Reserving memory from Linux and giving a part of it back
      (src/linux/driver/smp/smp-driver.c)

    The end of __ihk_smp_reserve_mem, which moves the largest chunks it has
    collected to the free list and returns the rest to Linux, and
    __ihk_smp_release_mem_partially, which trims the free memory of a node.
    SmpGrab.v has the loop that asks the page allocator of Linux for them. *)

From stdpp Require Import base tactics numbers list gmap sorting.
From S2P Require Import Prelude SmpData SmpMem SmpRb.

Open Scope ihk_scope.

Definition page_of (x : Z) : Z := x - x mod PAGE_SIZE.

Section env.
  Context `{SmpEnv} `{RbTree}.

(** __smp_ihk_free_mem_from_rbtree: the pages given back *)
Fixpoint free_mem_from_rbtree (fuel : nat) (h : Z -> chunk) (t : tree) : outcome (list (Z * Z)) :=
  match inorder t with
  | [] => Ret []
  | p :: _ =>
      match fuel with
      | O => Undef
      | S fuel' =>
          l ← ihk_smp_release_chunk (h p);
          l' ← free_mem_from_rbtree fuel' h (rb_erase p t);
          Ret (l ++ l')
      end
  end.

(** The first node of the largest size. *)
Definition find_max (h : Z -> chunk) (l : list Z) : option Z * Z :=
  foldl (fun '(p, max) q => if max <? ch_size (h q) then (Some q, ch_size (h q)) else (p, max)) (None, 0) l.

(** The part of a chunk that is more than what is wanted goes back to the
    tree, from the next compound page on. *)
Definition cut_leftover (s : memst) (t : tree) (p : Z) (want allocated : Z) : memst * tree * Z :=
  let c := hdr s p in
  let max := ch_size c in
  if want <? u64 (allocated + max) then
    let lo := u64 (ch_addr c + u64 (want - allocated)) in
    let lo := match page_tail lo with
      | Some (head, order) => u64 (head + u64 (Z.shiftl PAGE_SIZE order))
      | None => lo
      end in
    if lo <? u64 (ch_addr c + max) then
      let s := put_hdr s lo (mk_chunk lo (u64 (ch_addr c + max - lo)) (ch_numa c)) in
      let '(h, t) := mem_chunk_insert (hdr s) t lo in
      let max := u64 (lo - ch_addr c) in
      let s := mk_mem h (free_chunks s) (used_chunks s) in
      (put_hdr s p (mk_chunk (ch_addr c) max (ch_numa c)), t, max)
    else (s, t, max)
  else (s, t, max).

(** The loop that moves the largest chunks to ihk_mem_free_chunks; [fuel] is
    one more than the number of nodes. *)
Fixpoint move_largest (fuel : nat) (want allocated : Z) (s : memst) (t : tree) :
    outcome (Z * memst * tree) :=
  if negb (allocated <? want) then Ret (allocated, s, t) else
  match find_max (hdr s) (inorder t) with
  | (None, _) => Ret (allocated, s, t)
  | (Some p, _) =>
      match fuel with
      | O => Undef
      | S fuel' =>
          let t := rb_erase p t in
          let c := hdr s p in
          let '(s, p) := if page_of p =? ch_addr c then (s, p) else (put_hdr s (ch_addr c) c, ch_addr c) in
          let '(s, t, max) := cut_leftover s t p want allocated in
          move_largest fuel' want (u64 (allocated + max)) (add_free_mem_chunk p s) t
      end
  end.

(** The end of __ihk_smp_reserve_mem: from the collected chunks to the free
    list, and the pages given back. *)
Definition reserve_finish (want : Z) (s : memst) (t : tree) : outcome (Z * memst * list (Z * Z)) :=
  ' (allocated, s, t) ← move_largest (S (length (inorder t))) want 0 s t;
  l ← free_mem_from_rbtree (length (inorder t)) (hdr s) t;
  Ret (allocated, s, l).

(** ** Trimming a node *)

(** The smallest chunk of the node. *)
Definition find_min (h : Z -> chunk) (numa_id : Z) (l : list Z) : option Z * Z :=
  foldl (fun '(p, min) q =>
    if negb (ch_numa (h q) =? numa_id) then (p, min) else
    if ch_size (h q) <? min then (Some q, ch_size (h q)) else (p, min)) (None, 2 ^ 64 - 1) l.

(** The inner loop: blocks freed from the beginning of a chunk, and their
    total size.  A chunk has more than [left] bytes; [fuel] is one more than
    the number of its pages. *)
Fixpoint shrink (fuel : nat) (va left taken : Z) : outcome (list (Z * Z) * Z) :=
  match fuel with
  | O => Undef
  | S fuel' =>
      let again l va left taken :=
        if left =? 0 then Ret (l, taken) else
        ' (l', taken) ← shrink fuel' va left taken; Ret (l ++ l', taken) in
      match page_order va with
      | Some order =>
          let order_size := u64 (Z.shiftl PAGE_SIZE order) in
          if left <? order_size then Ret ([], taken) else
          if (left <? IHK_RESERVE_MEM_GRANULE) && (va mod IHK_RESERVE_MEM_GRANULE =? 0) then Ret ([], taken) else
          again [(va, order)] (u64 (va + order_size)) (u64 (left - order_size)) (u64 (taken + order_size))
      | None =>
          match page_tail va with
          | Some _ => Ret ([], taken)
          | None => again [(va, 0)] (u64 (va + PAGE_SIZE)) (u64 (left - PAGE_SIZE)) (u64 (taken + PAGE_SIZE))
          end
      end
  end.

(** move_chunk_header: the header is copied, and chained by its address. *)
Definition move_chunk_header (old new : Z) (s : memst) : memst :=
  add_free_mem_chunk new (list_del (put_hdr s new (hdr s old)) old).

(** One chunk of __ihk_smp_release_mem_partially that is larger than what is
    left to release. *)
Definition shrink_chunk (s : memst) (p left : Z) : outcome (list (Z * Z) * memst) :=
  let c := hdr s p in
  ' (l, taken) ← shrink (S (Z.to_nat (ch_size c / PAGE_SIZE))) (ch_addr c) left 0;
  let '(s, p) := if 0 <? taken then (move_chunk_header p (u64 (p + taken)) s, u64 (p + taken)) else (s, p) in
  let c := hdr s p in
  Ret (l, put_hdr s p (mk_chunk (u64 (ch_addr c + taken)) (u64 (ch_size c - taken)) (ch_numa c))).

(** The outer loop; [fuel] is one more than the number of nodes. *)
Fixpoint trim (fuel : nat) (numa_id left : Z) (s : memst) (t : tree) : outcome (Z * list (Z * Z) * memst) :=
  match find_min (hdr s) numa_id (inorder t) with
  | (None, _) => Ret (-1, [], s)
  | (Some p, _) =>
      match fuel with
      | O => Undef
      | S fuel' =>
          let t := rb_erase p t in
          let c := hdr s p in
          if ch_size c <=? left then
            l ← ihk_smp_release_chunk c;
            let left := u64 (left - ch_size c) in
            let s := list_del s p in
            if left =? 0 then Ret (0, l, s) else
            ' (ret, l', s) ← trim fuel' numa_id left s t; Ret (ret, l ++ l', s)
          else
            ' (l, s) ← shrink_chunk s p left; Ret (0, l, s)
      end
  end.

(** __ihk_smp_release_mem_partially: the headers of the free list are put in
    a tree, which joins the ones that touch. *)
Definition ihk_smp_release_mem_partially (ihk_mem numa_id : Z) (s : memst) : outcome (Z * list (Z * Z) * memst) :=
  let '(h, t) := foldl (fun '(h, t) p => mem_chunk_insert h t p) (hdr s, Leaf) (free_chunks s) in
  trim (S (length (free_chunks s))) numa_id ihk_mem (mk_mem h (free_chunks s) (used_chunks s)) t.

Fixpoint partially_all (reqs : list (Z * Z)) (s : memst) : outcome (Z * list (Z * Z) * memst) :=
  match reqs with
  | [] => Ret (0, [], s)
  | (sz, numa) :: r =>
      if 0 <? sz then
        ' (ret, l, s) ← ihk_smp_release_mem_partially sz numa s;
        if negb (ret =? 0) then Ret (- EINVAL, l, s) else
        ' (ret, l', s) ← partially_all r s; Ret (ret, l ++ l', s)
      else partially_all r s
  end.

(** smp_ihk_release_mem_partially *)
Definition smp_ihk_release_mem_partially (km : nat -> bool) (arg : uptr ihk_mem_req) (s : memst) :
    outcome (Z * list (Z * Z) * memst) :=
  let req := up_val arg in
  if negb (up_read arg) then Ret (- EFAULT, [], s) else
  if negb (validate_mem_req req =? 0) then Ret (- EINVAL, [], s) else
  if negb (km 0%nat) then Ret (- ENOMEM, [], s) else
  if negb (km 1%nat) then Ret (- ENOMEM, [], s) else
  match copy_from_user (mr_sizes req) (mr_num req), copy_from_user (mr_numa_ids req) (mr_num req) with
  | Some sizes, Some numas => partially_all (zip sizes numas) s
  | _, _ => Ret (- EFAULT, [], s)
  end.
End env.

(** ** Blocks of pages

    Linux hands out blocks of 2^order pages: compound pages, or single pages. *)

Definition bsize (o : Z) : Z := PAGE_SIZE * 2 ^ o.

Record block_ok `{SmpEnv} (a o : Z) : Prop := {
  bk_order : 0 <= o < 52;
  bk_aligned : aligned a;
  bk_range : 0 < a /\ a + bsize o < 2 ^ 64;
  bk_head : page_order a = (if o =? 0 then None else Some o) /\ page_tail a = None;
  bk_tail : forall x, aligned x -> a < x < a + bsize o -> page_order x = None /\ page_tail x = Some (a, o)
}.

Definition in_block (x : Z) (f : Z * Z) : Prop := f.1 <= x < f.1 + bsize f.2.

(** The memory of node [n] in [l] consists of whole blocks. *)
Definition whole `{SmpEnv} (n : Z) (l : list chunk) : Prop := forall x, aligned x -> own l x n ->
  exists a o, block_ok a o /\ a <= x < a + bsize o /\ forall y, a <= y < a + bsize o -> own l y n.

Lemma whole_own `{SmpEnv} n l l' : (forall x, own l x n <-> own l' x n) -> whole n l -> whole n l'.
Proof.
  intros He Hw x Hx Ho. destruct (Hw x Hx) as (a & o & Hb & Hi & Ha); [by apply He|].
  exists a, o. split_and!; try done; try lia. intros y Hy. by apply He, Ha.
Qed.

#[global] Instance whole_proper `{SmpEnv} n : Proper (Permutation ==> iff) (whole n).
Proof. intros l l' Hl. split; apply whole_own; intros x; by rewrite Hl. Qed.

(** No block reaches over [x]. *)
Definition border `{SmpEnv} (x : Z) : Prop := forall a o, block_ok a o -> ~ a < x < a + bsize o.

Lemma bsize_pos o : 0 <= o -> PAGE_SIZE <= bsize o /\ aligned (bsize o).
Proof.
  intros Ho. split; [|by exists (2 ^ o); unfold bsize; lia].
  pose proof (Z.pow_pos_nonneg 2 o ltac:(lia) Ho). unfold bsize, PAGE_SIZE. lia.
Qed.

Lemma bsize_pos' o : 0 <= o -> 0 < bsize o.
Proof. intros Ho. destruct (bsize_pos o Ho). unfold PAGE_SIZE in *. lia. Qed.

Lemma block_unique `{SmpEnv} a o a' o' y :
  block_ok a o -> block_ok a' o' -> aligned y -> a <= y < a + bsize o -> a' <= y < a' + bsize o' -> a = a' /\ o = o'.
Proof.
  intros [_ _ _ [Ho Ht] Hi] [_ _ _ [Ho' Ht'] Hi'] Hy H1 H2.
  assert (forall b q, b <= y < b + bsize q ->
    (forall x, aligned x -> b < x < b + bsize q -> page_order x = None /\ page_tail x = Some (b, q)) ->
    y = b \/ page_tail y = Some (b, q)) as Hc.
  { intros b q Hb Hq. destruct (decide (y = b)); [by left|right]. apply Hq; [done|lia]. }
  destruct (Hc a o H1 Hi) as [->|E]; destruct (Hc a' o' H2 Hi') as [E'|E']; try (split; congruence).
  split; [done|]. rewrite E', Ho' in Ho. destruct (Z.eqb_spec o 0), (Z.eqb_spec o' 0); congruence.
Qed.

(** A range that is owned lies in one chunk when there are gaps. *)
Lemma range_in_chunk l c a b x n :
  0 < ch_size c -> Forall (fun d => d = c \/ gap c d \/ gap d c) l -> (forall y, a <= y < b -> own l y n) ->
  a <= x < b -> within x c -> ch_addr c <= a /\ b <= ch_end c.
Proof.
  intros Hs Hg Ho Hx Hw. rewrite Forall_forall in Hg. split.
  - destruct (Z.le_gt_cases (ch_addr c) a) as [|Hl]; [done|]. destruct (proj1 (Exists_exists _ _) (Ho (ch_addr c - 1) ltac:(unfold within in Hw; lia))) as (d & Hd & Hwd & _). destruct (Hg _ Hd) as [-> | [Hc|Hc]]; unfold within, gap, ch_end in *; lia.
  - destruct (Z.le_gt_cases b (ch_end c)) as [|Hl]; [done|]. destruct (proj1 (Exists_exists _ _) (Ho (ch_end c) ltac:(unfold within in Hw; lia))) as (d & Hd & Hwd & _). destruct (Hg _ Hd) as [-> | [Hc|Hc]]; unfold within, gap, ch_end in *; lia.
Qed.

Lemma block_in_chunk `{SmpEnv} n c l a o x :
  0 < ch_size c -> Forall (fun d => gap c d \/ gap d c) l -> (forall y, a <= y < a + bsize o -> own (c :: l) y n) ->
  a <= x < a + bsize o -> within x c -> ch_addr c <= a /\ a + bsize o <= ch_end c.
Proof.
  intros Hs Hg Ho Hx Hw. apply (range_in_chunk (c :: l) c a (a + bsize o) x n); auto.
  constructor; [by left|]. eapply Forall_impl; [exact Hg|]. auto.
Qed.

Lemma gap_not_within c l x n : 0 < ch_size c -> Forall (fun d => gap c d \/ gap d c) l -> within x c -> ~ own l x n.
Proof.
  intros Hs Hg Hw (d & Hd & Hwd & _)%Exists_exists. rewrite Forall_forall in Hg.
  destruct (Hg d Hd); unfold gap, within, ch_end in *; lia.
Qed.

(** A chunk leaves. *)
Lemma whole_drop `{SmpEnv} n c l :
  0 < ch_size c -> Forall (fun d => gap c d \/ gap d c) l -> whole n (c :: l) -> whole n l.
Proof.
  intros Hs Hg Hw x Hx Ho. destruct (Hw x Hx) as (a & o & Hb & Hin & Hall); [rewrite own_cons; auto|].
  exists a, o. split_and!; auto; try lia. intros y Hy. destruct (proj1 (own_cons _ _ _ _) (Hall y Hy)) as [[Hwy _]|]; [|done].
  destruct (block_in_chunk n c l a o y Hs Hg Hall Hy Hwy) as [H1 H2].
  destruct (gap_not_within c l x n Hs Hg); [unfold within; lia|done].
Qed.

(** The end of a chunk from a border on stays. *)
Lemma whole_cut `{SmpEnv} n c l lo :
  0 < ch_size c -> Forall (fun d => gap c d \/ gap d c) l -> ch_addr c < lo < ch_end c -> border lo ->
  whole n (c :: l) -> whole n (tail_of c lo :: l).
Proof.
  intros Hs Hg Hlo Hbd Hw x Hx Ho. pose proof (own_cons (tail_of c lo) l) as Hot. pose proof (own_cons c l) as Hoc.
  assert (forall y, within y (tail_of c lo) <-> lo <= y < ch_end c) as Ht.
  { intros y. unfold within, tail_of, ch_end. simpl. lia. }
  assert (forall y m, own (tail_of c lo :: l) y m <-> (lo <= y < ch_end c /\ ch_numa c = m) \/ own l y m) as Hot'.
  { intros y m. rewrite Hot, Ht. done. }
  rewrite Hot' in Ho. destruct (Hw x Hx) as (a & o & Hb & Hin & Hall).
  { rewrite Hoc. destruct Ho as [[Hxl E]|]; [left|by right]. unfold within. split; [lia|done]. }
  exists a, o. split_and!; auto; try lia. intros y Hy. rewrite Hot'.
  destruct (proj1 (Hoc _ _) (Hall y Hy)) as [[Hwy E]|]; [|by right]. left.
  destruct (block_in_chunk n c l a o y Hs Hg Hall Hy Hwy) as [H1 H2].
  destruct Ho as [[Hxl _]|Hox]; [|destruct (gap_not_within c l x n Hs Hg); [unfold within; lia|done]].
  specialize (Hbd a o Hb). split; [lia|done].
Qed.

(** The end of the block that holds [x] is a border. *)
Lemma next_border `{SmpEnv} a o x :
  block_ok a o -> aligned x -> a <= x < a + bsize o ->
  border (match page_tail x with Some (h, q) => u64 (h + u64 (Z.shiftl PAGE_SIZE q)) | None => x end).
Proof.
  intros Hb Hx Hin b q Hb' Hlt. pose proof Hb as [Ho Ha Hr [_ Hh] Ht].
  destruct (decide (x = a)) as [->|Hne].
  - rewrite Hh in Hlt. destruct (block_unique a o b q a Hb Hb') as [-> ->]; auto; lia.
  - destruct (Ht x Hx ltac:(lia)) as [_ E]. rewrite E in Hlt. pose proof (order_bounds o Ho) as Hob.
    rewrite Z.shiftl_mul_pow2 in Hlt by lia. unfold bsize in Hr. rewrite (u64_small (PAGE_SIZE * _)), u64_small in Hlt by lia.
    fold (bsize o) in Hlt, Hr. destruct (bsize_pos o ltac:(lia)) as [Hp Hal]. pose proof Hb' as [_ Ha' _ _ _].
    assert (b <= a + bsize o - PAGE_SIZE) as Hle.
    { pose proof (aligned_pos (a + bsize o - b) ltac:(by apply aligned_sub; [apply aligned_add|]) ltac:(lia)). lia. }
    destruct (block_unique a o b q (a + bsize o - PAGE_SIZE) Hb Hb') as [-> ->]; try lia.
    apply aligned_sub; [by apply aligned_add|]. by exists 1.
Qed.

Lemma good_disjoint l1 l2 x m m' : good (l1 ++ l2) -> own l1 x m -> own l2 x m' -> False.
Proof.
  intros [Hg _] (c & Hc & Hxc & _)%Exists_exists (d & Hd & Hxd & _)%Exists_exists.
  apply elem_of_Permutation in Hc as [v Hc]. rewrite Hc in Hg. cbn [app pairwise] in Hg. destruct Hg as [Hg _].
  rewrite Forall_app, !Forall_forall in Hg. destruct Hg as [_ Hg]. specialize (Hg d Hd). unfold apart, within, ch_end in *. lia.
Qed.

(** ** Moving chunks to the free list *)

(** The chunks collected so far: a tree of one node's chunks, apart from the
    memory already managed, with page-aligned headers inside their chunks. *)
Record collected (n : Z) (s : memst) (t : tree) : Prop := {
  cl_mem : mem_ok s;
  cl_nodup : NoDup (inorder t);
  cl_spaced : spaced (view (hdr s) t);
  cl_numa : Forall (fun d => ch_numa d = n) (view (hdr s) t);
  cl_hdr : Forall (fun p => within p (hdr s p) /\ aligned p) (inorder t);
  cl_good : good (view (hdr s) t ++ all_mem s)
}.

Lemma find_max_spec (h : Z -> chunk) l p0 m0 :
  match foldl (fun '(p, max) q => if max <? ch_size (h q) then (Some q, ch_size (h q)) else (p, max)) (p0, m0) l with
  | (Some p, m) => (p ∈ l /\ ch_size (h p) = m) \/ p0 = Some p /\ m = m0
  | (None, m) => p0 = None /\ m = m0 /\ Forall (fun q => ch_size (h q) <= m0) l
  end.
Proof.
  revert p0 m0. induction l as [|q l IH]; intros p0 m0; simpl.
  { destruct p0; auto. }
  destruct (Z.ltb_spec m0 (ch_size (h q))).
  - specialize (IH (Some q) (ch_size (h q))).
    destruct (foldl _ _ l) as [[p|] m]; [|by destruct IH]. rewrite elem_of_cons. naive_solver.
  - specialize (IH p0 m0). destruct (foldl _ _ l) as [[p|] m].
    + rewrite elem_of_cons. naive_solver.
    + rewrite Forall_cons. naive_solver.
Qed.

Lemma view_erase `{RbTreeOk} h t p :
  NoDup (inorder t) -> p ∈ inorder t -> view h t ≡ₚ h p :: view h (rb_erase p t).
Proof.
  intros Hn Hp. unfold view. rewrite inorder_erase. rewrite (filter_ne_perm p (inorder t)) at 1 by done. done.
Qed.

Lemma spaced_filter (P : Z -> Prop) `{!forall x, Decision (P x)} (h : Z -> chunk) l :
  spaced (map h l) -> spaced (map h (filter P l)).
Proof.
  induction l as [|q l IH]; [done|]. simpl. rewrite filter_cons, spaced_cons. intros (Hv & Hg & Hs).
  case_decide; [|auto]. simpl. rewrite spaced_cons. split; [done|]. split; [|auto].
  rewrite Forall_fmap in Hg |- *. by apply Forall_filter_1.
Qed.

Lemma length_erase `{RbTreeOk} t p :
  NoDup (inorder t) -> p ∈ inorder t -> S (length (inorder (rb_erase p t))) = length (inorder t).
Proof.
  intros Hn Hp. rewrite inorder_erase. symmetry.
  by rewrite (Permutation_length (filter_ne_perm p (inorder t) Hn Hp)).
Qed.

Lemma spaced_total (h : Z -> chunk) l b :
  spaced (map h l) -> Forall (fun p => b <= ch_addr (h p)) l -> b < 2 ^ 64 -> b + total (map h l) < 2 ^ 64.
Proof.
  revert b. induction l as [|p l IH]; intros b Hs Hb H64; simpl; [lia|].
  simpl in Hs. rewrite spaced_cons in Hs. destruct Hs as (Hv & Hg & Hs). rewrite Forall_cons in Hb.
  assert (ch_end (h p) + total (map h l) < 2 ^ 64) as Hi.
  { apply IH; [done| |unfold ch_valid in Hv; lia]. rewrite Forall_fmap in Hg.
    eapply Forall_impl; [exact Hg|]. unfold gap. simpl. lia. }
  unfold ch_end in *. lia.
Qed.

Lemma collected_total n s t : collected n s t -> 0 <= total (view (hdr s) t) /\ 1 + total (view (hdr s) t) < 2 ^ 64.
Proof.
  intros [_ _ Hsp _ _ _]. split; [apply total_nonneg, Hsp|]. apply spaced_total; [done| |lia].
  apply Forall_forall. intros p Hp. destruct (spaced_in (hdr s) (inorder t) p Hsp Hp) as (? & _). lia.
Qed.

(** Chunks next to each other in the tree do not touch any part of [p]'s. *)
Lemma spaced_gaps h t p c :
  spaced (view h t) -> NoDup (inorder t) -> p ∈ inorder t -> part c (h p) ->
  Forall (fun q => gap (h q) c \/ gap c (h q)) (filter (fun q => q <> p) (inorder t)).
Proof.
  intros Hs Hn Hp Hc. destruct (list_elem_of_split _ _ Hp) as (k1 & k2 & Et). unfold view in Hs.
  rewrite Et in Hs, Hn |- *. rewrite filter_NoDup_mid by done. rewrite map_app in Hs. simpl in Hs.
  rewrite spaced_app, spaced_cons in Hs. destruct Hs as (_ & (_ & H2 & _) & H1).
  rewrite Forall_app. split.
  - rewrite Forall_fmap in H1. eapply Forall_impl; [exact H1|]. simpl. intros q Hq. left.
    rewrite Forall_cons in Hq. unfold gap, part, ch_end in *. lia.
  - rewrite Forall_fmap in H2. eapply Forall_impl; [exact H2|]. simpl. intros q Hq. right.
    unfold gap, part, ch_end in *. lia.
Qed.

(** A chunk that touches no node becomes a node. *)
Lemma insert_gap `{RbTreeOk} h t p n :
  NoDup (inorder t) -> p ∉ inorder t -> spaced (view h t) -> ch_valid (h p) ->
  Forall (fun d => ch_numa d = n) (h p :: view h t) ->
  Forall (fun q => gap (h q) (h p) \/ gap (h p) (h q)) (inorder t) ->
  exists t', mem_chunk_insert h t p = (h, t') /\ inorder t' ≡ₚ p :: inorder t /\
    NoDup (inorder t') /\ spaced (view h t').
Proof.
  intros Hn Hp Hs Hv Hm Hg.
  assert (Forall (apart (h p)) (view h t)) as Ha.
  { apply Forall_fmap. eapply Forall_impl; [exact Hg|]. unfold gap, apart. simpl. lia. }
  pose proof (mem_chunk_insert_ok h t p n Hn Hp Hs Hv Ha Hm) as (H1 & H2 & _).
  pose proof (descend_spec h (h p) t Hs Hv Ha) as Hd. unfold mem_chunk_insert in *.
  rewrite Forall_forall in Hg. destruct (descend h (h p) t) as [q|q|].
  - destruct Hd as [Hq He]. specialize (Hg q Hq). pose proof (valid_in h t Hs q Hq).
    unfold gap, ch_valid, ch_end in *. lia.
  - destruct Hd as [Hq He]. specialize (Hg q Hq). pose proof (valid_in h t Hs q Hq).
    unfold gap, ch_valid, ch_end in *. lia.
  - eexists. split; [reflexivity|]. simpl in *. split; [|done].
    destruct (link_spec h p t Hs Hv Ha) as (k1 & k2 & E1 & E2 & _).
    rewrite inorder_insert_color, E2, E1. by rewrite <- Permutation_middle.
Qed.

Lemma view_ext h h' t : (forall q, q ∈ inorder t -> h' q = h q) -> view h' t = view h t.
Proof.
  intros He. unfold view. apply map_ext_in. intros q Hq. apply He. by rewrite list_elem_of_In.
Qed.

Section moving.
  Context `{SmpEnv} `{RbTreeOk} (Htails : tails_ok) (n : Z).

(** What one round does to the managed memory [s] and the tree: [max] bytes
    of node [n] move from the tree to the free list. *)
Record moved (s : memst) (t : tree) (s' : memst) (t' : tree) (max : Z) : Prop := {
  mv_coll : collected n s' t';
  mv_used : used_chunks s' = used_chunks s;
  mv_own : forall x m, own (view (hdr s') t' ++ all_mem s') x m <-> own (view (hdr s) t ++ all_mem s) x m;
  mv_sub : forall x m, own (view (hdr s') t') x m -> own (view (hdr s) t) x m;
  mv_tree : total (view (hdr s') t') + max = total (view (hdr s) t);
  mv_free : total (chunks s') = total (chunks s) + max;
  mv_whole : whole n (view (hdr s) t) -> whole n (view (hdr s') t');
  mv_frame : forall q, (forall m, ~ own (view (hdr s) t) q m) -> hdr s' q = hdr s q
}.

(** Chaining the header of a chunk [c] that is neither in the tree nor
    managed yet. *)
Lemma move_whole s t c :
  hdrs_ok s -> NoDup (inorder t) -> spaced (view (hdr s) t) ->
  Forall (fun d => ch_numa d = n) (c :: view (hdr s) t) ->
  Forall (fun p => within p (hdr s p) /\ aligned p) (inorder t) ->
  good (c :: view (hdr s) t ++ all_mem s) -> hdr s (ch_addr c) = c ->
  let s' := add_free_mem_chunk (ch_addr c) s in
  collected n s' t /\ used_chunks s' = used_chunks s /\
  chunks s' ≡ₚ c :: chunks s /\ hdr s' = hdr s.
Proof.
  intros Hs Hn Hsp Hm Hh Hg Ec s'.
  assert (good (c :: chunks s)) as Hgc.
  { apply (good_app_l _ (view (hdr s) t ++ map as_chunk (used_chunks s))). revert Hg. apply good_proper.
    unfold all_mem. simpl. solve_Permutation. }
  pose proof (start_fresh s c Hs Hgc) as Hfr. pose proof Hs as [Hok Hsort].
  assert (chunks s' ≡ₚ c :: chunks s) as Hp.
  { unfold chunks, s'. simpl. rewrite insert_hdr_perm. simpl. by rewrite Ec. }
  assert (all_mem s' ≡ₚ c :: all_mem s) as Ha by (unfold all_mem; by rewrite Hp).
  assert (ch_addr (hdr s (ch_addr c)) = ch_addr c) as Eca by (by rewrite Ec).
  split; [|done]. constructor; auto.
  - split; [split; simpl; [rewrite insert_hdr_perm; by constructor|by apply insert_hdr_sorted]|].
    rewrite Ha. apply (good_app_r (view (hdr s) t)). revert Hg. apply good_proper. solve_Permutation.
  - by inversion Hm.
  - rewrite Ha. revert Hg. apply good_proper. solve_Permutation.
Qed.

(** [c] has left the tree; its memory may be written. *)
Record pending (s : memst) (t : tree) (c : chunk) : Prop := {
  pd_hdrs : hdrs_ok s;
  pd_nodup : NoDup (inorder t);
  pd_spaced : spaced (view (hdr s) t);
  pd_numa : Forall (fun d => ch_numa d = n) (c :: view (hdr s) t);
  pd_hdr : Forall (fun p => within p (hdr s p) /\ aligned p) (inorder t);
  pd_good : good (c :: view (hdr s) t ++ all_mem s)
}.

Lemma erase_pending s t p :
  collected n s t -> p ∈ inorder t ->
  pending s (rb_erase p t) (hdr s p) /\
  Forall (fun q => gap (hdr s q) (hdr s p) \/ gap (hdr s p) (hdr s q)) (inorder (rb_erase p t)).
Proof.
  intros [[Hs _] Hn Hsp Hm Hh Hg] Hp. pose proof (view_erase (hdr s) t p Hn Hp) as Hv.
  pose proof (valid_in (hdr s) t Hsp p Hp) as Hvp.
  split; [constructor|].
  - done.
  - rewrite inorder_erase. by apply NoDup_filter.
  - unfold view. rewrite inorder_erase. by apply spaced_filter.
  - by rewrite <- Hv.
  - rewrite inorder_erase. by apply Forall_filter_1.
  - by rewrite Hv in Hg.
  - rewrite inorder_erase. apply spaced_gaps; auto. unfold part, ch_valid in *. intuition lia.
Qed.

(** No other header lies in [c]. *)
Lemma pending_fresh s t c x :
  pending s t c -> within x c ->
  (x ∉ inorder t) /\ (x ∉ free_chunks s).
Proof.
  intros [Hs Hn Hsp Hm Hh Hg] Hx. rewrite good_cons, Forall_app in Hg. destruct Hg as (Hv & (Ha & Hb) & Hg').
  split; intros Hin.
  - rewrite Forall_forall in Ha. rewrite Forall_forall in Hh.
    specialize (Ha _ (list_elem_of_fmap_2 (hdr s) _ _ Hin)).
    destruct (Hh _ Hin) as [Hw _]. unfold apart, within, ch_end in *. lia.
  - unfold all_mem in Hb, Hg'. rewrite Forall_app in Hb. destruct Hb as [Hb _]. rewrite Forall_forall in Hb.
    specialize (Hb _ (list_elem_of_fmap_2 (hdr s) _ _ Hin)). destruct Hs as [Hs _].
    rewrite Forall_forall in Hs. specialize (Hs _ Hin).
    pose proof (free_valid s x _ (good_app_r _ _ Hg') Hin) as Hvx.
    unfold apart, within, ch_end, ch_valid in *. lia.
Qed.

Lemma put_pending s t c x d :
  pending s t c -> within x c ->
  pending (put_hdr s x d) t c /\ view (hdr (put_hdr s x d)) t = view (hdr s) t /\
  all_mem (put_hdr s x d) = all_mem s /\ chunks (put_hdr s x d) = chunks s.
Proof.
  intros Hp Hx. destruct (pending_fresh s t c x Hp Hx) as [Hf1 Hf2].
  assert (forall q, q <> x -> hdr (put_hdr s x d) q = hdr s q) as Hq.
  { intros q Hq. simpl. by rewrite (proj2 (Z.eqb_neq q x)). }
  assert (view (hdr (put_hdr s x d)) t = view (hdr s) t) as Hv.
  { apply view_ext. intros q Hin. apply Hq. by intros ->. }
  assert (chunks (put_hdr s x d) = chunks s) as Hc by (by apply map_put_hdr).
  assert (all_mem (put_hdr s x d) = all_mem s) as Ha by (unfold all_mem; by rewrite Hc).
  split; [|done]. destruct Hp as [[Hs1 Hs2] Hn Hsp Hm Hh Hg]. constructor; rewrite ?Hv, ?Ha; auto.
  - split; [|done]. rewrite Forall_forall in Hs1 |- *. intros q Hin. rewrite Hq; [auto|]. by intros ->.
  - rewrite Forall_forall in Hh |- *. intros q Hin. rewrite Hq; [auto|]. by intros ->.
Qed.

(** The rest of [c] from [lo] on goes back to the tree. *)
Lemma cut_pending s t c lo :
  pending s t c -> Forall (fun q => gap (hdr s q) c \/ gap c (hdr s q)) (inorder t) ->
  ch_addr c < lo < ch_end c -> aligned lo -> hdr s lo = tail_of c lo ->
  exists t', mem_chunk_insert (hdr s) t lo = (hdr s, t') /\
    view (hdr s) t' ≡ₚ tail_of c lo :: view (hdr s) t /\
    pending s t' (mk_chunk (ch_addr c) (lo - ch_addr c) (ch_numa c)).
Proof.
  intros Hp Hg Hlo Hal El. pose proof Hp as [Hs Hn Hsp Hm Hh Hgd].
  pose proof Hgd as Hgc. rewrite good_cons in Hgc. destruct Hgc as ((Ha0 & Hs0 & He & Haa & Has) & _).
  assert (aligned (ch_end c - lo) /\ aligned (lo - ch_addr c)) as [Ha1 Ha2].
  { split; apply aligned_sub; auto. by apply aligned_add. }
  assert (part (tail_of c lo) c) as Hpd by (unfold part, tail_of, ch_end in *; simpl; intuition lia).
  set (c' := mk_chunk (ch_addr c) (lo - ch_addr c) (ch_numa c)).
  assert (part c' c) as Hpc by (unfold part, c', ch_end in *; simpl; intuition lia).
  rewrite Forall_cons in Hm. destruct Hm as [Hmc Hm].
  destruct (insert_gap (hdr s) t lo n) as (t' & E & Hperm & Hn' & Hsp'); auto.
  - apply (pending_fresh s t c lo Hp). unfold within. lia.
  - rewrite El. eapply part_valid; [exact Hpd|]. done.
  - rewrite El. by constructor.
  - rewrite El. eapply Forall_impl; [exact Hg|]. intros q. unfold gap, tail_of, ch_end. simpl. lia.
  - assert (view (hdr s) t' ≡ₚ tail_of c lo :: view (hdr s) t) as Hv.
    { unfold view. rewrite Hperm. simpl. by rewrite El. }
    exists t'. split; [done|]. split; [done|]. constructor; auto.
    + rewrite Hv. by repeat constructor.
    + rewrite Hperm. constructor; [|done]. rewrite El. unfold within, tail_of, ch_end in *. simpl. split; [lia|done].
    + rewrite Hv. simpl. eapply good_split; [| | |exact Hgd]; auto.
      unfold apart, ch_end, c', tail_of. simpl. lia.
Qed.

(** Result of cutting [c] at [lo]: what moves and what stays. *)
Record cut_result (s : memst) (t : tree) (c : chunk) (s' : memst) (t' : tree) (max : Z) : Prop := {
  cr_pending : pending s' t' (mk_chunk (ch_addr c) max (ch_numa c));
  cr_hdr : hdr s' (ch_addr c) = mk_chunk (ch_addr c) max (ch_numa c);
  cr_used : used_chunks s' = used_chunks s;
  cr_chunks : chunks s' = chunks s;
  cr_max : 0 < max;
  cr_own : forall x m, own (mk_chunk (ch_addr c) max (ch_numa c) :: view (hdr s') t') x m
                       <-> own (c :: view (hdr s) t) x m;
  cr_total : total (view (hdr s') t') + max = total (view (hdr s) t) + ch_size c;
  cr_whole : whole n (c :: view (hdr s) t) -> whole n (view (hdr s') t');
  cr_frame : forall q, ~ within q c -> hdr s' q = hdr s q
}.

Lemma gaps_view s t c :
  Forall (fun q => gap (hdr s q) c \/ gap c (hdr s q)) (inorder t) -> Forall (fun d => gap c d \/ gap d c) (view (hdr s) t).
Proof. intros Hg. apply Forall_fmap. eapply Forall_impl; [exact Hg|]. simpl. tauto. Qed.

Lemma cut_none s t c :
  pending s t c -> Forall (fun q => gap (hdr s q) c \/ gap c (hdr s q)) (inorder t) -> hdr s (ch_addr c) = c ->
  cut_result s t c s t (ch_size c).
Proof.
  intros Hp Hgap Eh. assert (mk_chunk (ch_addr c) (ch_size c) (ch_numa c) = c) as Ec by (by destruct c).
  pose proof (pd_good _ _ _ Hp) as Hg. rewrite good_cons in Hg. destruct Hg as ((_ & Hs & _) & _).
  constructor; rewrite ?Ec; auto. apply whole_drop; [done|by apply gaps_view].
Qed.

Lemma cut_at s t c lo :
  pending s t c -> Forall (fun q => gap (hdr s q) c \/ gap c (hdr s q)) (inorder t) ->
  ch_addr c < lo < ch_end c -> aligned lo -> (whole n (c :: view (hdr s) t) -> border lo) ->
  let s1 := put_hdr s lo (tail_of c lo) in
  exists t', mem_chunk_insert (hdr s1) t lo = (hdr s1, t') /\
    cut_result s t c (put_hdr s1 (ch_addr c) (mk_chunk (ch_addr c) (lo - ch_addr c) (ch_numa c))) t' (lo - ch_addr c).
Proof.
  intros Hp Hg Hlo Hal Hbd s1. assert (within lo c) as Hw by (unfold within; lia).
  destruct (put_pending s t c lo (tail_of c lo) Hp Hw) as (Hp1 & Hv1 & Ha1 & Hc1). fold s1 in Hp1, Hv1, Ha1, Hc1.
  destruct (pending_fresh s t c lo Hp Hw) as [Hf _].
  destruct (cut_pending s1 t c lo) as (t' & E & Hv & Hp2); auto.
  { rewrite Forall_forall in Hg |- *. intros q Hq. simpl. destruct (Z.eqb_spec q lo) as [->|]; auto. done. }
  { simpl. by rewrite Z.eqb_refl. }
  set (c' := mk_chunk (ch_addr c) (lo - ch_addr c) (ch_numa c)) in *.
  assert (within (ch_addr c) c') as Hw' by (unfold within, c', ch_end; simpl; lia).
  destruct (put_pending s1 t' c' (ch_addr c) c' Hp2 Hw') as (Hp3 & Hv3 & Ha3 & Hc3).
  exists t'. split; [done|]. constructor; auto.
  - simpl. by rewrite Z.eqb_refl.
  - by rewrite Hc3.
  - lia.
  - intros x m. rewrite Hv3, Hv, Hv1, !own_cons. unfold within, tail_of, ch_end in *. simpl.
    destruct (Z.lt_ge_cases x lo); intuition lia.
  - rewrite Hv3, Hv, Hv1. simpl. unfold ch_end. lia.
  - intros Hw2. rewrite Hv3. rewrite Hv, Hv1. apply whole_cut; auto using gaps_view. unfold ch_end in Hlo. lia.
  - intros q Hq. simpl. unfold within in Hq, Hw. rewrite !(proj2 (Z.eqb_neq _ _)) by lia. done.
Qed.

Lemma cut_leftover_ok s t c want allocated :
  pending s t c -> Forall (fun q => gap (hdr s q) c \/ gap c (hdr s q)) (inorder t) ->
  hdr s (ch_addr c) = c -> 0 <= allocated < want -> want < 2 ^ 64 -> allocated + ch_size c < 2 ^ 64 ->
  aligned (want - allocated) \/ allocated + ch_size c <= want ->
  exists s' t' max, cut_leftover s t (ch_addr c) want allocated = (s', t', max) /\
    cut_result s t c s' t' max /\ (want <= allocated + max \/ t' = t /\ max = ch_size c).
Proof.
  intros Hp Hg Eh Hw H64 Hover Hor. unfold cut_leftover. rewrite Eh.
  pose proof (pd_good _ _ _ Hp) as Hgd. rewrite good_cons in Hgd. destruct Hgd as ((Ha0 & Hs0 & He & Haa & Has) & _).
  unfold ch_end in He. rewrite u64_small by lia. destruct (Z.ltb_spec want (allocated + ch_size c)) as [Hlt|Hge].
  2:{ eexists _, _, _. split; [reflexivity|]. split; [by apply cut_none|]. by right. }
  assert (aligned (want - allocated)) as Hal by (destruct Hor; [done|lia]).
  rewrite (u64_small (want - _)), (u64_small (ch_addr c + (want - _))), (u64_small (ch_addr c + ch_size c)) by lia.
  set (x := ch_addr c + (want - allocated)).
  set (lo := match page_tail x with Some (head, order) => u64 (head + u64 (Z.shiftl PAGE_SIZE order)) | None => x end).
  assert (x <= lo /\ aligned lo) as [Hx Hlo].
  { unfold lo. assert (aligned x) as Hax by (by apply aligned_add).
    destruct (page_tail x) as [[h o]|] eqn:Et; [|done].
    destruct (Htails _ _ _ Et) as (Ho & Hh & Hh1 & Hh2 & Hh3). rewrite aligned_mod in Hh1, Hh2 by done.
    rewrite Z.shiftl_mul_pow2 by done. rewrite (u64_small (PAGE_SIZE * _)) by lia. rewrite u64_small by lia.
    split; [lia|]. apply aligned_add; [done|apply aligned_mul]. }
  fold lo. destruct (Z.ltb_spec lo (ch_addr c + ch_size c)) as [Hin|Hout].
  2:{ eexists _, _, _. split; [reflexivity|]. split; [by apply cut_none|]. left. unfold x in Hx. lia. }
  destruct (cut_at s t c lo) as (t' & E & Hc); auto; [unfold x, ch_end in *; lia| |].
  { intros Hwh. pose proof (pd_numa _ _ _ Hp) as Hn. rewrite Forall_cons in Hn.
    destruct (Hwh x) as (a & o & Hb & Hi & _); [by apply aligned_add| |by apply (next_border a o x Hb); [apply aligned_add|]].
    rewrite own_cons. left. unfold within, x, ch_end. split; [lia|tauto]. }
  rewrite !u64_small by (unfold x in *; lia).
  change (mk_chunk lo (ch_addr c + ch_size c - lo) (ch_numa c)) with (tail_of c lo). rewrite E.
  eexists _, _, _. split; [reflexivity|]. split; [|unfold x in *; left; lia]. exact Hc.
Qed.

(** The header moved to the front of its chunk. *)
Lemma front_pending s t c p :
  pending s t c -> Forall (fun q => gap (hdr s q) c \/ gap c (hdr s q)) (inorder t) ->
  hdr s p = c -> within p c -> aligned p ->
  exists s1, (if page_of p =? ch_addr c then (s, p) else (put_hdr s (ch_addr c) c, ch_addr c)) = (s1, ch_addr c) /\
    pending s1 t c /\ Forall (fun q => gap (hdr s1 q) c \/ gap c (hdr s1 q)) (inorder t) /\
    hdr s1 (ch_addr c) = c /\ view (hdr s1) t = view (hdr s) t /\ chunks s1 = chunks s /\
    used_chunks s1 = used_chunks s /\ (forall q, ~ within q c -> hdr s1 q = hdr s q).
Proof.
  intros Hp Hg Eh Hw Hal. unfold page_of. rewrite aligned_mod, Z.sub_0_r by done.
  destruct (Z.eqb_spec p (ch_addr c)) as [E|E].
  { exists s. rewrite <- E. by repeat (split; [done|]). }
  assert (within (ch_addr c) c) as Hw' by (unfold within in *; lia).
  destruct (put_pending s t c (ch_addr c) c Hp Hw') as (Hp1 & Hv1 & Ha1 & Hc1).
  destruct (pending_fresh s t c _ Hp Hw') as [Hf _].
  exists (put_hdr s (ch_addr c) c). split; [done|]. split; [done|]. split.
  { rewrite Forall_forall in Hg |- *. intros q Hq. simpl. destruct (Z.eqb_spec q (ch_addr c)) as [->|]; [done|auto]. }
  split; [simpl; by rewrite Z.eqb_refl|]. repeat (split; [done|]). intros q Hq. simpl.
  rewrite (proj2 (Z.eqb_neq q _)); [done|]. by intros ->.
Qed.

(** One round of the loop. *)
Lemma move_round s t p want allocated :
  collected n s t -> p ∈ inorder t -> 0 <= allocated < want -> want < 2 ^ 64 ->
  allocated + total (view (hdr s) t) < 2 ^ 64 ->
  aligned (want - allocated) \/ allocated + total (view (hdr s) t) <= want ->
  let c := hdr s p in
  exists s1 s2 t2 max,
    (if page_of p =? ch_addr c then (s, p) else (put_hdr s (ch_addr c) c, ch_addr c)) = (s1, ch_addr c) /\
    cut_leftover s1 (rb_erase p t) (ch_addr c) want allocated = (s2, t2, max) /\
    moved s t (add_free_mem_chunk (ch_addr c) s2) t2 max /\ 0 < max /\
    (want <= allocated + max \/ t2 = rb_erase p t /\ max = ch_size c).
Proof.
  intros Hcl Hp Hw H64 Hover Hor c. destruct (erase_pending s t p Hcl Hp) as [Hpd Hgap]. fold c in Hpd, Hgap.
  pose proof (view_erase (hdr s) t p (cl_nodup _ _ _ Hcl) Hp) as Hv. fold c in Hv.
  assert (0 <= total (view (hdr s) (rb_erase p t))) as Hnn.
  { apply total_nonneg. apply (proj2 (pd_spaced _ _ _ Hpd)). }
  rewrite Hv in Hover, Hor. simpl in Hover, Hor.
  pose proof (cl_hdr _ _ _ Hcl) as Hh. rewrite Forall_forall in Hh. destruct (Hh p Hp) as [Hwp Hap].
  destruct (front_pending s (rb_erase p t) c p Hpd Hgap eq_refl Hwp Hap)
    as (s1 & E1 & Hpd1 & Hgap1 & Eh1 & Hv1 & Hc1 & Hu1 & Hfr1).
  destruct (cut_leftover_ok s1 (rb_erase p t) c want allocated) as (s2 & t2 & max & E2 & [H1 H2 H3 H4 H5 H6 H7 H8 H9] & Hcase);
    auto; [lia|destruct Hor; [by left|right; lia]|].
  exists s1, s2, t2, max. split; [done|]. split; [done|]. split; [|done].
  destruct H1 as [P1 P2 P3 P4 P5 P6].
  destruct (move_whole s2 t2 (mk_chunk (ch_addr c) max (ch_numa c))) as (M1 & M2 & M3 & M4); auto.
  cbn [ch_addr] in M1, M2, M3, M4.
  set (s3 := add_free_mem_chunk (ch_addr c) s2) in *.
  constructor; auto.
  - congruence.
  - intros x m. rewrite Hv. unfold all_mem. rewrite M2, M3, M4, H3, H4, Hc1, Hu1.
    specialize (H6 x m). rewrite Hv1, !own_cons in H6. simpl. rewrite !own_app, !own_cons. rewrite !own_app. tauto.
  - intros x m Hx. specialize (H6 x m). rewrite Hv1, M4 in *. rewrite Hv. apply H6. rewrite own_cons. by right.
  - rewrite M4, H7, Hv1, Hv. simpl. lia.
  - rewrite M3, H4, Hc1. simpl. lia.
  - rewrite Hv, M4, Hv1 in *. done.
  - intros q Hq. assert (~ within q c) as Hqc by (intros Hqc; apply (Hq (ch_numa c)); rewrite Hv, own_cons; auto).
    by rewrite M4, H9, Hfr1.
Qed.

Lemma moved_refl s t : collected n s t -> moved s t s t 0.
Proof. intros Hc. constructor; auto; lia. Qed.

Lemma moved_trans s1 t1 s2 t2 s3 t3 a b :
  moved s1 t1 s2 t2 a -> moved s2 t2 s3 t3 b -> moved s1 t1 s3 t3 (a + b).
Proof.
  intros [? ? Ho Hsub ? ? ? Hf] [? ? Ho' ? ? ? ? Hf']. constructor; auto; try congruence; try lia.
  - intros x m. by rewrite Ho', Ho.
  - intros q Hq. rewrite Hf', Hf; [done..|]. intros m Hm. by apply (Hq m), Hsub.
Qed.

Lemma move_largest_ok fuel : forall want allocated s t,
  collected n s t -> 0 <= allocated -> 0 <= want < 2 ^ 64 -> allocated + total (view (hdr s) t) < 2 ^ 64 ->
  aligned (want - allocated) \/ allocated + total (view (hdr s) t) <= want ->
  (length (inorder t) < fuel)%nat ->
  exists a' s' t', move_largest fuel want allocated s t = Ret (a', s', t') /\
    moved s t s' t' (a' - allocated) /\ Z.min want (allocated + total (view (hdr s) t)) <= a'.
Proof.
  induction fuel as [|fuel IH]; intros want allocated s t Hcl Ha Hw Hover Hor Hf; [lia|].
  simpl. destruct (Z.ltb_spec allocated want) as [Hlt|Hge]; cbn [negb].
  2:{ eexists _, _, _. split; [reflexivity|]. rewrite Z.sub_diag. split; [by apply moved_refl|lia]. }
  pose proof (find_max_spec (hdr s) (inorder t) None 0) as Hm. unfold find_max.
  destruct (foldl _ (None, 0) (inorder t)) as [[p|] m].
  2:{ eexists _, _, _. split; [reflexivity|]. rewrite Z.sub_diag. split; [by apply moved_refl|].
      destruct Hm as (_ & _ & Hm). assert (inorder t = []) as Et.
      { destruct (inorder t) as [|q l] eqn:E; [done|]. rewrite Forall_cons in Hm. destruct Hm as [Hm _].
        assert (q ∈ inorder t) as Hq by (rewrite E; left).
        destruct (valid_in (hdr s) t (cl_spaced _ _ _ Hcl) q Hq) as (_ & ? & _). lia. }
      unfold view. rewrite Et. simpl. lia. }
  destruct Hm as [[Hp _]|[? _]]; [|done].
  destruct (move_round s t p want allocated) as (s1 & s2 & t2 & max & E1 & E2 & Hmv & Hmax & Hcase); auto; [lia|].
  rewrite E1, E2. pose proof (mv_tree _ _ _ _ _ Hmv) as Htot.
  assert (0 <= total (view (hdr (add_free_mem_chunk (ch_addr (hdr s p)) s2)) t2)) as Hnn.
  { apply total_nonneg. apply (proj2 (cl_spaced _ _ _ (mv_coll _ _ _ _ _ Hmv))). }
  rewrite u64_small by lia.
  destruct (Z.lt_ge_cases (allocated + max) want) as [Hagain|Hdone].
  - destruct Hcase as [?|[-> Hmx]]; [lia|].
    destruct (IH want (allocated + max) (add_free_mem_chunk (ch_addr (hdr s p)) s2) (rb_erase p t))
      as (a' & s' & t' & E & Hmv' & Hmin); try lia.
    + apply Hmv.
    + destruct Hor as [Hor|Hor]; [left|right; lia]. replace (want - (allocated + max)) with (want - allocated - max) by lia.
      apply aligned_sub; [done|]. rewrite Hmx.
      apply (valid_in (hdr s) t (cl_spaced _ _ _ Hcl) p Hp).
    + pose proof (length_erase t p (cl_nodup _ _ _ Hcl) Hp). lia.
    + rewrite E. eexists _, _, _. split; [reflexivity|]. split; [|lia].
      replace (a' - allocated) with (max + (a' - (allocated + max))) by lia. by eapply moved_trans.
  - exists (allocated + max), (add_free_mem_chunk (ch_addr (hdr s p)) s2), t2. split.
    { destruct fuel; simpl; rewrite (proj2 (Z.ltb_ge _ _)) by lia; done. }
    replace (allocated + max - allocated) with max by lia. split; [done|lia].
Qed.
End moving.

(** ** Whole chunks are given back block by block *)

(** [l] is the blocks from [a] to [b], one after the other. *)
Inductive tiled `{SmpEnv} : Z -> Z -> list (Z * Z) -> Prop :=
| tiled_nil a : tiled a a []
| tiled_cons a o b l : block_ok a o -> tiled (a + bsize o) b l -> tiled a b ((a, o) :: l).

Lemma release_tiled `{SmpEnv} fuel : forall va left,
  aligned va -> aligned left -> 0 <= left -> 0 <= va -> va + left < 2 ^ 64 -> left < PAGE_SIZE * Z.of_nat fuel ->
  (forall x, aligned x -> va <= x < va + left ->
     exists a o, block_ok a o /\ a <= x < a + bsize o /\ va <= a /\ a + bsize o <= va + left) ->
  exists l, release_pages fuel va left = Ret l /\ tiled va (va + left) l.
Proof.
  induction fuel as [|fuel IH]; intros va left Hva Hal H0 Hv Hend Hf Hw; [unfold PAGE_SIZE in Hf; lia|].
  cbn [release_pages]. destruct (Z.eqb_spec left 0) as [->|Hl].
  { eexists. split; [reflexivity|]. rewrite Z.add_0_r. constructor. }
  destruct (Hw va Hva ltac:(lia)) as (a & o & Hb & Hin & Hge & Hle). assert (a = va) as -> by lia.
  pose proof Hb as [Ho _ _ [Eo Et] _]. destruct (bsize_pos o ltac:(lia)) as [Hp Hpa].
  destruct (IH (va + bsize o) (left - bsize o)) as (l & E & Hl'); try lia.
  - by apply aligned_add.
  - by apply aligned_sub.
  - intros x Hx Hxr. destruct (Hw x Hx ltac:(lia)) as (b & q & Hb' & Hi' & Hge' & Hle'). exists b, q. split_and!; try done; try lia.
    destruct (Z.le_gt_cases (va + bsize o) b) as [|Hlt]; [done|].
    pose proof Hb' as [_ Hab _ _ _]. destruct (block_unique va o b q b Hb Hb' Hab) as [-> ->]; lia.
  - replace (va + bsize o + (left - bsize o)) with (va + left) in Hl' by lia. rewrite Eo.
    destruct (Z.eqb_spec o 0) as [->|Hne].
    + change (bsize 0) with PAGE_SIZE in *. rewrite !u64_small, E, Et by lia. eexists. split; [reflexivity|]. by constructor.
    + pose proof (order_bounds o Ho). rewrite Z.shiftl_mul_pow2 by lia. rewrite (u64_small (PAGE_SIZE * _)) by lia.
      fold (bsize o). rewrite (proj2 (Z.leb_le _ _)), !u64_small, E by lia. eexists. split; [reflexivity|]. by constructor.
Qed.

Lemma release_chunk_tiled `{SmpEnv} n c l :
  ch_valid c -> ch_numa c = n -> Forall (fun d => gap c d \/ gap d c) l -> whole n (c :: l) ->
  exists f, ihk_smp_release_chunk c = Ret f /\ tiled (ch_addr c) (ch_end c) f.
Proof.
  intros (Ha & Hs & He & Hal & Hsl) Hn Hg Hw. unfold ihk_smp_release_chunk, ch_end in *. apply release_tiled; auto; try lia.
  - rewrite Nat2Z.inj_succ, Z2Nat.id by (apply Z.div_pos; [lia|done]). rewrite <- Z.add_1_r. by apply Z.mul_succ_div_gt.
  - intros x Hx Hxr. assert (within x c) as Hwx by (unfold within, ch_end; lia).
    destruct (Hw x Hx) as (a & o & Hb & Hi & Hall); [rewrite own_cons; auto|].
    destruct (block_in_chunk n c l a o x Hs Hg Hall Hi Hwx) as [H1 H2]. unfold ch_end in H2. eauto 10.
Qed.

(** The blocks of each chunk, in the order of the chunks. *)
Inductive tiles `{SmpEnv} : list chunk -> list (Z * Z) -> Prop :=
| tiles_nil : tiles [] []
| tiles_cons c cs l ls : tiled (ch_addr c) (ch_end c) l -> tiles cs ls -> tiles (c :: cs) (l ++ ls).

Lemma tiled_range `{SmpEnv} a b l : tiled a b l -> a <= b /\ Forall (fun f => a <= f.1 /\ f.1 + bsize f.2 <= b) l.
Proof.
  induction 1 as [|a o b l Hb _ [IH1 IH2]]; [split; [lia|constructor]|].
  destruct (bsize_pos o ltac:(destruct Hb; lia)) as [Hp _]. unfold PAGE_SIZE in Hp. split; [lia|]. constructor; [simpl; lia|].
  eapply Forall_impl; [exact IH2|]. simpl. lia.
Qed.

(** A block as a chunk. *)
Definition as_block (n : Z) (f : Z * Z) : chunk := mk_chunk f.1 (bsize f.2) n.

Lemma tiled_spec `{SmpEnv} n a b l : tiled a b l ->
  (forall x, Exists (in_block x) l <-> a <= x < b) /\ pairwise apart (as_block n <$> l) /\ Forall (fun f => block_ok f.1 f.2) l.
Proof.
  induction 1 as [a|a o b l Hb Ht (IH1 & IH2 & IH3)].
  { split; [|by split; [|constructor]]. intros x. rewrite Exists_nil. lia. }
  destruct (tiled_range _ _ _ Ht) as [Hr Hf]. destruct (bsize_pos o ltac:(destruct Hb; lia)) as [Hp _]. unfold PAGE_SIZE in Hp.
  split_and!; [|cbn [fmap list_fmap pairwise]; split; [|done]|by constructor].
  - intros x. rewrite Exists_cons, IH1. unfold in_block. simpl. lia.
  - apply Forall_fmap. eapply Forall_impl; [exact Hf|]. unfold apart, ch_end, as_block. simpl. lia.
Qed.

Lemma pairwise_app {A} (R : A -> A -> Prop) l1 l2 :
  pairwise R l1 -> pairwise R l2 -> Forall (fun x => Forall (R x) l2) l1 -> pairwise R (l1 ++ l2).
Proof.
  induction l1 as [|x l1 IH]; intros H1 H2 H3; [done|]. rewrite Forall_cons in H3. cbn [app pairwise] in *.
  split; [apply Forall_app; tauto|]. tauto.
Qed.

Lemma apart_bytes c d : 0 < ch_size c -> 0 < ch_size d -> (forall x, within x c -> within x d -> False) -> apart c d.
Proof.
  intros Hc Hd Hx. specialize (Hx (Z.max (ch_addr c) (ch_addr d))). unfold within, apart, ch_end in *. lia.
Qed.

Lemma tiles_spec `{SmpEnv} n cs l : tiles cs l -> pairwise apart cs -> Forall (fun c => ch_numa c = n) cs ->
  (forall x, Exists (in_block x) l <-> own cs x n) /\ pairwise apart (as_block n <$> l) /\ Forall (fun f => block_ok f.1 f.2) l.
Proof.
  induction 1 as [|c cs l ls Ht Hts IH]; intros Ha Hn.
  { split; [|by split; [|constructor]]. intros x. unfold own. by rewrite !Exists_nil. }
  cbn [pairwise] in Ha. rewrite Forall_cons in Hn. destruct Ha as [Hac Ha], Hn as [Hnc Hn].
  destruct (IH Ha Hn) as (I1 & I2 & I3). destruct (tiled_spec n _ _ _ Ht) as (T1 & T2 & T3).
  destruct (tiled_range _ _ _ Ht) as [_ Tr]. split_and!; [| |by apply Forall_app].
  - intros x. rewrite Exists_app, T1, I1, own_cons. unfold within. tauto.
  - rewrite fmap_app. apply pairwise_app; [done..|]. apply Forall_fmap. apply Forall_forall. intros f Hf.
    rewrite Forall_forall in Tr. apply Forall_fmap, Forall_forall. intros g Hg. simpl.
    rewrite Forall_forall in T3, I3. destruct (bk_order _ _ (T3 f Hf)), (bk_order _ _ (I3 g Hg)).
    apply apart_bytes; [apply bsize_pos'; lia..|]. intros x Hx Hx'. specialize (Tr f Hf).
    assert (own cs x n) as (d & Hd & Hwd & _)%Exists_exists.
    { apply I1, Exists_exists. exists g. done. }
    rewrite Forall_forall in Hac. specialize (Hac d Hd). unfold apart, within, ch_end, as_block in *. simpl in *. lia.
Qed.

Lemma free_rbtree_ok `{SmpEnv} `{RbTreeOk} (Ho : orders_ok) h fuel : forall t,
  NoDup (inorder t) -> spaced (view h t) -> (length (inorder t) <= fuel)%nat ->
  exists l, free_mem_from_rbtree fuel h t = Ret l /\
    Forall (fun f => exists p, p ∈ inorder t /\ within f.1 (h p)) l.
Proof.
  induction fuel as [|fuel IH]; intros t Hn Hs Hf; simpl; destruct (inorder t) as [|p k] eqn:E;
    [by eexists|simpl in Hf; lia|by eexists|].
  assert (p ∈ inorder t) as Hp by (rewrite E; left).
  destruct (release_chunk_ok Ho (h p) (valid_in h t Hs p Hp)) as (l & -> & Hl). cbn [mbind outcome_bind].
  rewrite <- E in Hn, Hf. pose proof (length_erase t p Hn Hp) as Hlen.
  destruct (IH (rb_erase p t)) as (l' & -> & Hl').
  - rewrite inorder_erase. by apply NoDup_filter.
  - unfold view. rewrite inorder_erase. by apply spaced_filter.
  - lia.
  - cbn [mbind outcome_bind]. eexists. split; [reflexivity|]. rewrite <- E. apply Forall_app. split.
    + eapply Forall_impl; [exact Hl|]. eauto.
    + eapply Forall_impl; [exact Hl'|]. intros f (q & Hq & Hw). exists q. split; [|done].
      rewrite inorder_erase, list_elem_of_filter in Hq. tauto.
Qed.

(** With whole blocks, the blocks of all chunks of the tree are given back. *)
Lemma free_rbtree_tiles `{SmpEnv} `{RbTreeOk} n h fuel : forall t,
  NoDup (inorder t) -> spaced (view h t) -> Forall (fun d => ch_numa d = n) (view h t) -> whole n (view h t) ->
  (length (inorder t) <= fuel)%nat ->
  exists l, free_mem_from_rbtree fuel h t = Ret l /\ tiles (view h t) l.
Proof.
  induction fuel as [|fuel IH]; intros t Hn Hs Hm Hw Hf; cbn [free_mem_from_rbtree]; unfold view in *;
    destruct (inorder t) as [|p k] eqn:E; try (eexists; split; [reflexivity|constructor]); [simpl in Hf; lia|].
  simpl in Hs, Hm, Hw, Hf. pose proof Hs as Hsc. rewrite spaced_cons in Hsc. destruct Hsc as (Hv & Hg & Hs').
  assert (Forall (fun d => gap (h p) d \/ gap d (h p)) (map h k)) as Hg2 by (eapply Forall_impl; [exact Hg|]; auto).
  assert (inorder (rb_erase p t) = k) as Ek.
  { rewrite inorder_erase, E. by apply (filter_NoDup_mid p [] k). }
  rewrite Forall_cons in Hm. destruct Hm as [Hmp Hm].
  destruct (release_chunk_tiled n (h p) (map h k)) as (l & -> & Hl); auto. cbn [mbind outcome_bind].
  destruct (IH (rb_erase p t)) as (l' & -> & Hl'); rewrite ?Ek; auto; try lia.
  - rewrite NoDup_cons in Hn. tauto.
  - eapply whole_drop; [|exact Hg2|done]. apply Hv.
  - cbn [mbind outcome_bind]. eexists. split; [reflexivity|]. rewrite Ek in Hl'. simpl. by constructor.
Qed.

(** The end of a reservation: what was moved, and the tree that is freed. *)
Lemma reserve_finish_ok `{SmpEnv} `{RbTreeOk} n want s t :
  tails_ok -> orders_ok -> collected n s t -> size_ok want ->
  exists allocated s' t' freed, reserve_finish want s t = Ret (allocated, s', freed) /\
    moved n s t s' t' allocated /\ Z.min want (total (view (hdr s) t)) <= allocated /\
    Forall (fun f => exists p, p ∈ inorder t' /\ within f.1 (hdr s' p)) freed /\
    (whole n (view (hdr s) t) -> tiles (view (hdr s') t') freed).
Proof.
  intros Ht Ho Hcl [Hw Hal]. unfold reserve_finish. pose proof Hcl as [_ Hn Hsp _ _ _].
  destruct (collected_total n s t Hcl) as [_ Htot].
  destruct (move_largest_ok Ht n (S (length (inorder t))) want 0 s t) as (a & s' & t' & -> & Hm & Hmin); auto; try lia.
  { rewrite Z.sub_0_r. destruct Hal as [?| ->]; [by left|right; unfold IHK_SMP_MEM_ALL; lia]. }
  cbn [mbind outcome_bind]. rewrite Z.sub_0_r in Hm. pose proof Hm as [[_ Hn' Hsp' Hnu _ _] _ _ _ _ _ Hwh _].
  destruct (free_rbtree_ok Ho (hdr s') (length (inorder t')) t') as (l & E & Hl); auto.
  rewrite E. cbn [mbind outcome_bind]. exists a, s', t', l. split_and!; auto; try lia.
  intros Hwt. destruct (free_rbtree_tiles n (hdr s') (length (inorder t')) t') as (l' & E' & Hl'); auto. congruence.
Qed.

(** The end of __ihk_smp_reserve_mem, with the
    chunks of one node collected in the tree: it completes, moves at least
    what was wanted to the free list (or everything, when there is less),
    reports the amount moved, keeps the managed memory in order, and gives
    back to Linux pages that were collected and are not kept. *)
Theorem reserve_finish_correct `{SmpEnv} `{RbTreeOk} n want s t :
  tails_ok -> orders_ok -> collected n s t -> size_ok want ->
  exists allocated s' freed, reserve_finish want s t = Ret (allocated, s', freed) /\
    mem_ok s' /\ used_chunks s' = used_chunks s /\
    total (chunks s') = total (chunks s) + allocated /\
    Z.min want (total (view (hdr s) t)) <= allocated <= total (view (hdr s) t) /\
    (forall x m, own (all_mem s') x m -> own (view (hdr s) t ++ all_mem s) x m) /\
    Forall (fun f => (exists m, own (view (hdr s) t ++ all_mem s) f.1 m) /\
                     forall m, ~ own (all_mem s') f.1 m) freed.
Proof.
  intros Ht Ho Hcl Hw.
  destruct (reserve_finish_ok n want s t Ht Ho Hcl Hw) as (a & s' & t' & l & -> & [Hcl' Hu Hown _ Htr Hfr _ _] & Hmin & Hl & _).
  pose proof Hcl' as [Hok _ Hsp' _ _ Hg']. exists a, s', l. split; [done|]. split; [done|]. split; [done|]. split; [lia|].
  pose proof (total_nonneg _ (proj2 Hsp')). split; [lia|]. split.
  { intros x m Hx. rewrite <- Hown, own_app. by right. }
  eapply Forall_impl; [exact Hl|]. intros f (p & Hp & Hwf).
  assert (hdr s' p ∈ view (hdr s') t') as Hin by (by apply list_elem_of_fmap_2). split.
  - exists (ch_numa (hdr s' p)). rewrite <- Hown, own_app. left. apply Exists_exists. eauto.
  - intros m Hx. eapply good_disjoint; [exact Hg'| |exact Hx]. apply Exists_exists. eauto.
Qed.

(** ** Examples *)

Definition demo_tmem : memst := put_hdr demo_mem 0x200000 (mk_chunk 0x200000 0x3000 0).
Definition demo_tree : tree := Node Leaf 0x200000 Leaf.

Lemma demo_collected : collected 0 demo_tmem demo_tree.
Proof.
  constructor.
  - split; [split; [by repeat constructor|repeat constructor]|exact (proj2 demo_mem_ok)].
  - by apply (bool_decide_unpack _).
  - unfold view. simpl. rewrite !spaced_cons. unfold ch_valid, ch_end. simpl.
    repeat split; try lia; try (by apply aligned_dec); constructor.
  - by repeat constructor.
  - simpl. rewrite Forall_singleton. unfold within, ch_end. simpl. split; [lia|by apply aligned_dec].
  - change (view (hdr demo_tmem) demo_tree ++ all_mem demo_tmem)
      with (mk_chunk 0x200000 0x3000 0 :: all_mem demo_mem).
    rewrite good_cons. split; [|split; [|exact (proj2 demo_mem_ok)]].
    + unfold ch_valid, ch_end. simpl. repeat split; try lia; by apply aligned_dec.
    + change (all_mem demo_mem) with [mk_chunk 0x100000 0x3000 0; mk_chunk 0x400000 0x4000 0].
      unfold apart, ch_end. repeat constructor; simpl; lia.
Qed.

Lemma reserve_finish_correct_witness :
  exists allocated s' freed, @reserve_finish demo_smp plain_rb 0x2000 demo_tmem demo_tree = Ret (allocated, s', freed) /\
    mem_ok s' /\ used_chunks s' = used_chunks demo_tmem /\
    total (chunks s') = total (chunks demo_tmem) + allocated /\
    Z.min 0x2000 (total (view (hdr demo_tmem) demo_tree)) <= allocated <= total (view (hdr demo_tmem) demo_tree) /\
    (forall x m, own (all_mem s') x m -> own (view (hdr demo_tmem) demo_tree ++ all_mem demo_tmem) x m) /\
    Forall (fun f => (exists m, own (view (hdr demo_tmem) demo_tree ++ all_mem demo_tmem) f.1 m) /\
                     forall m, ~ own (all_mem s') f.1 m) freed.
Proof.
  apply (@reserve_finish_correct demo_smp plain_rb plain_rb_ok 0);
    auto using demo_tails, demo_orders, demo_collected.
  by apply demo_size_ok.
Defined.

(** A machine without compound pages, and one chunk of two pages. *)
Definition plain_smp : SmpEnv := {|
  arch := X86_64;
  nr_cpu_ids := 8;
  cpu_present := fun c => (0 <=? c) && (c <? 8);
  cpu_to_node := fun c => c / 4;
  x86_cpu_to_apicid := fun c => 2 * c;
  filp_open := fun c => negb (c =? 0);
  kernel_write := fun c v on => Some (if v then {[c]} ∪ on else on ∖ {[c]});
  page_tail := fun _ => None;
  page_order := fun _ => None
|}.
Definition two_pages : memst := mk_mem (fun _ => mk_chunk 0x100000 0x2000 0) [0x100000] [].

(** A kernel gets one of two pages and returns it,
    so that the free list holds two chunks that touch; then the partial
    release of both pages succeeds and gives both to Linux, but the second
    chunk stays in the free list, because the tree has joined the two headers
    and only the first one is taken off the list. *)
Theorem partial_release_dangling :
  match
    s ← @mem_runs plain_smp demo_head
      [MAssign (fun _ => true) (fun _ _ => true) 1 (demo_req [0x1000] [0]) demo_osd;
       MRelease (fun _ => true) 0 1 (demo_req [0x1000] [0]) demo_osd] two_pages;
    @smp_ihk_release_mem_partially plain_smp plain_rb (fun _ => true) (demo_req [0x2000] [0]) s
  with
  | Ret (ret, freed, s') =>
      ret = 0 /\ freed = [(0x100000, 0); (0x101000, 0)] /\ free_chunks s' = [0x101000]
  | Undef => False
  end.
Proof. vm_compute. auto. Qed.
