(* ===== verification/SmpGrab.v ===== *)
(** * Asking Linux for memory (src/linux/driver/smp/smp-driver.c)

    __ihk_smp_reserve_mem collects blocks of pages from the page allocator of
    Linux in a tree, starting with the largest blocks and going on with smaller
    ones when there are no more, until one chunk of the tree or the sum of all
    is large enough; SmpReserve.v has what follows.  smp_ihk_reserve_mem is the
    request that uses it. *)

From stdpp Require Import base tactics numbers list gmap sorting.
From S2P Require Import Prelude SmpData SmpMem SmpRb SmpReserve.

Open Scope ihk_scope.

Definition IHK_SMP_CHUNK_BASE_SIZE : Z := 4 * 2 ^ 20.
(** MAX_ORDER is that of Linux. *)
Definition MAX_ORDER : Z := 11.
Definition RESERVE_MEM_FAILED_ATTEMPTS : Z := 1.
Definition USE_TRY_TO_FREE_PAGES_TIME_LIMIT : Z := 2.

(** What Linux answers in round [i] of the loop: the block of an order that
    one of the calls of __alloc_pages_nodemask returns, the result of
    try_to_free_pages and the seconds it takes, and the seconds since the
    reservation began; the state of the node at the beginning; and get_order,
    the order of the smallest block of a size. *)
Record linux_pages : Type := mk_linux {
  lx_page : nat -> Z -> option Z;
  lx_freed : nat -> Z;
  lx_secs : nat -> Z;
  lx_elapsed : nat -> Z;
  lx_free_pages : Z;
  lx_node_online : Z -> bool;
  lx_online_nodes : Z;
  lx_can_free : bool;
  lx_get_order : Z -> Z
}.

(** The variables of the loop, with the blocks that were allocated *)
Record grab : Type := mk_grab {
  g_order : Z;
  g_allocated : Z;
  g_failed : Z;
  g_secs : Z;
  g_mem : memst;
  g_tree : tree;
  g_taken : list (Z * Z)
}.

Section reserve.
Context `{SmpEnv} `{RbTree} (lx : linux_pages) (want numa_id order_limit max_size_ratio_all timeout : Z).

Definition node_available : Z := u64 (Z.shiftl (lx_free_pages lx) 12).

(** The share of the node that may be taken is exceeded. *)
Definition share_taken (allocated : Z) : bool :=
  ((numa_id =? 0) && (u64 (node_available * 95) / 100 <? allocated)) ||
  ((want =? IHK_SMP_MEM_ALL) && (u64 (node_available * u64 max_size_ratio_all) / 100 <? allocated)).

(** pre_out: whether the pieces are enough *)
Definition pre_out (g : grab) : Z * grab :=
  if (want <=? g_allocated g) || (want =? IHK_SMP_MEM_ALL) then (0, g) else (- ENOMEM, g).

(** Whether Linux is asked to free pages. *)
Definition may_free (g : grab) : bool :=
  (1 <? lx_online_nodes lx) && (0 <? numa_id) && lx_can_free lx && (g_failed g <? RESERVE_MEM_FAILED_ATTEMPTS) &&
  (g_secs g <? USE_TRY_TO_FREE_PAGES_TIME_LIMIT) && (0 <? g_order g).

(** The block at [p] becomes a chunk of the tree. *)
Definition grab_block (p : Z) (g : grab) : grab :=
  let size := u64 (Z.shiftl PAGE_SIZE (g_order g)) in
  let s := put_hdr (g_mem g) p (mk_chunk p size numa_id) in
  let '(h, t) := mem_chunk_insert (hdr s) (g_tree g) p in
  mk_grab (g_order g) (u64 (g_allocated g + size)) 0 (g_secs g) (mk_mem h (free_chunks s) (used_chunks s)) t
    (g_taken g ++ [(p, g_order g)]).

(** The loop; [fuel] bounds the number of rounds. *)
Fixpoint grab_loop (fuel i : nat) (g : grab) : outcome (Z * grab) :=
  match fuel with
  | O => Undef
  | S fuel' =>
      if negb (max_size_mem_chunk (hdr (g_mem g)) (g_tree g) <? want) then Ret (0, g) else
      if share_taken (g_allocated g) then Ret (pre_out g) else
      match lx_page lx i (g_order g) with
      | Some p => grab_loop fuel' (S i) (grab_block p g)
      | None =>
          if may_free g then
            let failed := if lx_freed lx i <=? 1 then g_failed g + 1 else g_failed g in
            grab_loop fuel' (S i) (mk_grab (g_order g) (g_allocated g) failed (s32 (g_secs g + lx_secs lx i)) (g_mem g) (g_tree g) (g_taken g))
          else if order_limit <? g_order g then
            let g := mk_grab (g_order g - 1) (g_allocated g) 0 (g_secs g) (g_mem g) (g_tree g) (g_taken g) in
            if u64 (lx_elapsed lx i) <? u64 timeout then grab_loop fuel' (S i) g else Ret (pre_out g)
          else Ret (pre_out g)
      end
  end.
End reserve.

Section request.
Context `{SmpEnv} `{RbTree}.

(** want: the size rounded up to blocks of the first order *)
Definition round_want (order ihk_mem : Z) : Z :=
  if ihk_mem =? IHK_SMP_MEM_ALL then ihk_mem else
  let base := u64 (Z.shiftl PAGE_SIZE order) in Z.land (u64 (ihk_mem + (base - 1))) (- base).

(** __ihk_smp_reserve_mem: the result, the blocks that were allocated and
    those that were given back *)
Definition ihk_smp_reserve_mem (fuel : nat) (lx : linux_pages) (ihk_mem numa_id min_chunk_size max_size_ratio_all timeout : Z) (s : memst) :
    outcome (Z * memst * list (Z * Z) * list (Z * Z)) :=
  let order := lx_get_order lx IHK_SMP_CHUNK_BASE_SIZE in
  let order_limit := lx_get_order lx (u64 min_chunk_size) in
  if (order_limit <? 0) || (MAX_ORDER <? order_limit) then Ret (- EINVAL, s, [], []) else
  if negb (lx_node_online lx numa_id) then Ret (- EINVAL, s, [], []) else
  let want := round_want order ihk_mem in
  ' (ret, g) ← grab_loop lx want numa_id order_limit max_size_ratio_all timeout fuel 0
                 (mk_grab order 0 0 0 s Leaf []);
  if negb (ret =? 0) then
    freed ← free_mem_from_rbtree (length (inorder (g_tree g))) (hdr (g_mem g)) (g_tree g);
    Ret (ret, g_mem g, g_taken g, freed)
  else
    ' (_, s, freed) ← reserve_finish want (g_mem g) (g_tree g);
    Ret (0, s, g_taken g, freed).

(** The requests one after the other; [linux k s] is Linux during request [k]
    when the driver holds the memory of [s]. *)
Fixpoint reserve_all (fuel : nat) (linux : nat -> memst -> linux_pages) (min_chunk_size max_size_ratio_all timeout : Z)
    (k : nat) (reqs : list (Z * Z)) (s : memst) : outcome (Z * memst) :=
  match reqs with
  | [] => Ret (0, s)
  | (mem_size, numa_id) :: r =>
      ' (ret, s, _, _) ← ihk_smp_reserve_mem fuel (linux k s) mem_size numa_id min_chunk_size max_size_ratio_all timeout s;
      if negb (ret =? 0) then Ret (ret, s) else
      reserve_all fuel linux min_chunk_size max_size_ratio_all timeout (S k) r s
  end.

(** smp_ihk_reserve_mem *)
Definition smp_ihk_reserve_mem (fuel : nat) (linux : nat -> memst -> linux_pages) (km : nat -> bool)
    (arg : uptr ihk_mem_req) (s : memst) : outcome (Z * memst) :=
  let req := up_val arg in
  if negb (up_read arg) then Ret (- EFAULT, s) else
  if negb (validate_mem_req req =? 0) then Ret (- EINVAL, s) else
  if mr_num req =? 0 then Ret (0, s) else
  if negb (km 0%nat) then Ret (- ENOMEM, s) else
  if negb (km 1%nat) then Ret (- ENOMEM, s) else
  match copy_from_user (mr_sizes req) (mr_num req), copy_from_user (mr_numa_ids req) (mr_num req) with
  | Some sizes, Some numas =>
      if negb (forallb (fun sz => (sz =? IHK_SMP_MEM_ALL) || (sz mod IHK_RESERVE_MEM_GRANULE =? 0)) sizes) then Ret (- EINVAL, s) else
      reserve_all fuel linux (mr_min_chunk_size req) (mr_max_size_ratio_all req) (mr_timeout req) 0 (zip sizes numas) s
  | _, _ => Ret (- EFAULT, s)
  end.
End request.

(** ** What Linux promises *)

Definition CHUNK_BASE_ORDER : Z := 10.

(** During a reservation for node [n] that begins with the memory [s]: the
    allocator returns blocks of the order it was asked for, which the driver
    does not hold already, and no block twice; asking for pages to be freed
    takes less than 2^30 seconds; get_order computes what it says. *)
Record linux_ok `{SmpEnv} (n : Z) (s : memst) (lx : linux_pages) : Prop := {
  lo_block : forall i o p, 0 <= o <= CHUNK_BASE_ORDER -> lx_page lx i o = Some p ->
    block_ok p o /\ Forall (apart (as_block n (p, o))) (all_mem s);
  lo_apart : forall i j o o' p p', i <> j -> lx_page lx i o = Some p -> lx_page lx j o' = Some p' ->
    apart (as_block n (p, o)) (as_block n (p', o'));
  lo_secs : forall i, 0 <= lx_secs lx i < 2 ^ 30;
  lo_order : forall size, 0 < size -> let o := lx_get_order lx size in
    0 <= o /\ size <= bsize o /\ forall o', 0 <= o' -> size <= bsize o' -> o <= o'
}.

(** A round is quick when Linux, asked for it, frees more than a page in less
    than a second: the loop of the driver counts such a round neither as a
    failure nor as time. *)
Definition quick (lx : linux_pages) (i : nat) : bool := (lx_secs lx i =? 0) && (1 <? lx_freed lx i).

(** The number of quick rounds among the [k] rounds from [i] on. *)
Fixpoint quick_rounds (lx : linux_pages) (i k : nat) : Z :=
  match k with
  | O => 0
  | S k' => (if quick lx i then 1 else 0) + quick_rounds lx (S i) k'
  end.

(** Rounds that are always enough: besides the quick ones, one for each byte
    of the address space and some more. *)
Definition enough (lx : linux_pages) (fuel : nat) : Prop := 2 ^ 64 + 40 + quick_rounds lx 0 fuel <= Z.of_nat fuel.

(** ** Collecting blocks *)

(** A list with gaps of the same memory as a part of a good list. *)
Lemma good_cover v v' m :
  spaced v' -> (forall x k, own v' x k -> own v x k) -> good (v ++ m) -> good (v' ++ m).
Proof.
  intros [Hs Hv] Ho Hg. assert (pairwise apart v') as Hp.
  { clear -Hs. induction Hs as [|c l Hs IH Hc]; cbn [pairwise]; [done|]. split; [|done].
    eapply Forall_impl; [exact Hc|]. unfold gap, apart. lia. }
  pose proof (good_app_r _ _ Hg) as [Hpm Hvm]. split; [|by apply Forall_app]. apply pairwise_app; [done..|].
  rewrite Forall_forall in Hv, Hvm. apply Forall_forall. intros c Hc. apply Forall_forall. intros d Hd.
  destruct (Hv c Hc) as (_ & Hcs & _), (Hvm d Hd) as (_ & Hds & _). apply apart_bytes; [done..|]. intros x Hxc Hxd.
  eapply (good_disjoint v m x (ch_numa c) (ch_numa d)); [done|apply Ho|]; apply Exists_exists; eauto.
Qed.

Lemma max_size_total (h : Z -> chunk) l : Forall ch_valid (map h l) -> forall m,
  foldl (fun m p => if m <? ch_size (h p) then ch_size (h p) else m) m l <= Z.max m (total (map h l)).
Proof.
  induction l as [|p l IH]; intros Hv m; simpl; [lia|]. simpl in Hv. rewrite Forall_cons in Hv. destruct Hv as [(_ & Hs & _) Hv].
  pose proof (total_nonneg _ Hv). etrans; [by apply IH|]. destruct (Z.ltb_spec m (ch_size (h p))); lia.
Qed.

Section grab_loop.
Context `{SmpEnv} `{HR : RbTreeOk} (lx : linux_pages) (want n order_limit ratio timeout : Z) (s0 : memst).
Hypothesis Hs0 : mem_ok s0.
Hypothesis Hlx : linux_ok n s0 lx.

(** The state at the beginning of round [i]. *)
Record gathered (i : nat) (g : grab) : Prop := {
  gd_coll : collected n (g_mem g) (g_tree g);
  gd_same : free_chunks (g_mem g) = free_chunks s0 /\ used_chunks (g_mem g) = used_chunks s0 /\ chunks (g_mem g) = chunks s0;
  gd_total : g_allocated g = total (view (hdr (g_mem g)) (g_tree g));
  gd_order : 0 <= g_order g <= CHUNK_BASE_ORDER;
  gd_own : forall x m, own (view (hdr (g_mem g)) (g_tree g)) x m <-> m = n /\ Exists (in_block x) (g_taken g);
  gd_from : Forall (fun f => block_ok f.1 f.2 /\ exists j, (j < i)%nat /\ lx_page lx j f.2 = Some f.1) (g_taken g);
  gd_failed : 0 <= g_failed g <= 1;
  gd_secs : 0 <= g_secs g;
  gd_frame : forall q, ~ Exists (in_block q) (g_taken g) -> hdr (g_mem g) q = hdr s0 q
}.

Lemma gathered_all_mem i g : gathered i g -> all_mem (g_mem g) = all_mem s0.
Proof using. intros [_ (_ & Hu & Hc) _ _ _ _ _ _ _]. unfold all_mem. by rewrite Hu, Hc. Qed.

(** A new block lies apart from everything. *)
Lemma block_fresh i g p :
  gathered i g -> lx_page lx i (g_order g) = Some p ->
  let b := as_block n (p, g_order g) in
  ch_valid b /\ Forall (apart b) (view (hdr (g_mem g)) (g_tree g)) /\ Forall (apart b) (all_mem (g_mem g)).
Proof using Hlx.
  intros Hg Hp b. destruct (lo_block _ _ _ Hlx i _ _ (gd_order _ _ Hg) Hp) as [Hb Ha].
  pose proof Hb as [Ho Hal Hr _ _]. destruct (bsize_pos (g_order g) ltac:(lia)) as [Hs Hsa].
  pose proof (bsize_pos' (g_order g) ltac:(lia)).
  split_and!; [unfold ch_valid, b, as_block, ch_end; simpl; intuition lia| |by rewrite (gathered_all_mem i)].
  pose proof (proj2 (cl_spaced _ _ _ (gd_coll _ _ Hg))) as Hv. rewrite Forall_forall in Hv.
  apply Forall_forall. intros d Hd. destruct (Hv d Hd) as (_ & Hds & _). apply apart_bytes; [done..|]. intros x Hx Hxd.
  assert (own (view (hdr (g_mem g)) (g_tree g)) x (ch_numa d)) as Hod by (apply Exists_exists; eauto).
  apply (gd_own _ _ Hg) in Hod as [_ (f & Hf & Hxf)%Exists_exists].
  pose proof (gd_from _ _ Hg) as Hfr. rewrite Forall_forall in Hfr. destruct (Hfr f Hf) as [_ (j & Hj & Hpj)].
  pose proof (lo_apart _ _ _ Hlx i j _ _ _ _ ltac:(lia) Hp Hpj) as Hap. destruct f as [fa fo].
  unfold apart, within, in_block, b, as_block, ch_end in *. simpl in *. lia.
Qed.

(** The headers of the free list are not nodes of the tree. *)
Lemma free_not_node i g q : gathered i g -> q ∈ free_chunks (g_mem g) -> q ∉ inorder (g_tree g).
Proof using.
  intros Hg Hq Ht. destruct (gd_coll _ _ Hg) as [_ _ Hsp _ _ [Hp _]]. set (c := hdr (g_mem g) q).
  assert (c ∈ view (hdr (g_mem g)) (g_tree g)) as Hc by (by apply list_elem_of_fmap_2).
  assert (c ∈ all_mem (g_mem g)) as Hm.
  { unfold all_mem. apply elem_of_app. left. by apply list_elem_of_fmap_2. }
  pose proof (proj2 Hsp) as Hv. rewrite Forall_forall in Hv. destruct (Hv c Hc) as (_ & Hcs & _).
  apply elem_of_Permutation in Hc as [v2 Hc]. rewrite Hc in Hp. cbn [app pairwise] in Hp. destruct Hp as [Hp _].
  rewrite Forall_app, !Forall_forall in Hp. destruct Hp as [_ Hp]. specialize (Hp c Hm). unfold apart, ch_end in Hp. lia.
Qed.

(** No header lies at the beginning of a new block. *)
Lemma fresh_not_header i g p : gathered i g -> lx_page lx i (g_order g) = Some p ->
  (p ∉ inorder (g_tree g)) /\ (p ∉ free_chunks (g_mem g)).
Proof using Hlx.
  intros Hg Hp. destruct (block_fresh i g p Hg Hp) as ((_ & Hbs & _) & Hv & Hm). destruct (gd_coll _ _ Hg) as [[[Hf _] _] _ _ _ Hh _].
  rewrite Forall_forall in Hv, Hm. rewrite Forall_forall in Hf, Hh. split; intros Hin.
  - destruct (Hh p Hin) as [Hw _]. specialize (Hv _ (list_elem_of_fmap_2 (hdr (g_mem g)) _ _ Hin)).
    unfold apart, within, as_block, ch_end in *. simpl in *. lia.
  - specialize (Hf p Hin). assert (hdr (g_mem g) p ∈ all_mem (g_mem g)) as Hc.
    { unfold all_mem. apply elem_of_app. left. by apply list_elem_of_fmap_2. }
    pose proof (Hm _ Hc). pose proof (cl_good _ _ _ (gd_coll _ _ Hg)) as [_ Hgv]. rewrite Forall_app, !Forall_forall in Hgv.
    destruct (proj2 Hgv _ Hc) as (_ & Hs & _). unfold apart, as_block, ch_end in *. simpl in *. lia.
Qed.

(** The tree with the header of the new block written. *)
Lemma put_view i g p c : gathered i g -> lx_page lx i (g_order g) = Some p ->
  let s := put_hdr (g_mem g) p c in
  hdr s p = c /\ view (hdr s) (g_tree g) = view (hdr (g_mem g)) (g_tree g) /\
  (forall q, q ∈ inorder (g_tree g) -> hdr s q = hdr (g_mem g) q) /\
  (forall q, q ∈ free_chunks (g_mem g) -> hdr s q = hdr (g_mem g) q).
Proof using Hlx.
  intros Hg Hp s. destruct (fresh_not_header i g p Hg Hp) as [H1 H2].
  assert (forall q, q <> p -> hdr s q = hdr (g_mem g) q) as Hq by (intros q Hq; simpl; by rewrite (proj2 (Z.eqb_neq q p))).
  split_and!; [simpl; by rewrite Z.eqb_refl|apply view_ext|..]; intros q Hin; apply Hq; congruence.
Qed.

Lemma same_chunks (s s' : memst) :
  free_chunks s' = free_chunks s -> (forall q, q ∈ free_chunks s -> hdr s' q = hdr s q) -> chunks s' = chunks s.
Proof using. intros Ef Eh. unfold chunks. rewrite Ef. apply map_ext_in. intros q Hq. by apply Eh, list_elem_of_In. Qed.

(** The block becomes part of the tree. *)
Lemma grab_collected i g p : gathered i g -> lx_page lx i (g_order g) = Some p ->
  let g' := grab_block n p g in
  collected n (g_mem g') (g_tree g') /\ free_chunks (g_mem g') = free_chunks (g_mem g) /\
  used_chunks (g_mem g') = used_chunks (g_mem g) /\ chunks (g_mem g') = chunks (g_mem g) /\
  (forall x m, own (view (hdr (g_mem g')) (g_tree g')) x m <-> own (as_block n (p, g_order g) :: view (hdr (g_mem g)) (g_tree g)) x m) /\
  total (view (hdr (g_mem g')) (g_tree g')) = bsize (g_order g) + total (view (hdr (g_mem g)) (g_tree g)) /\
  (forall q, q <> p -> (q ∉ inorder (g_tree g)) -> hdr (g_mem g') q = hdr (g_mem g) q).
Proof using HR Hlx.
  intros Hg Hp g'. destruct (block_fresh i g p Hg Hp) as (Hbv & Hbt & Hbm). destruct (fresh_not_header i g p Hg Hp) as [Hn1 Hn2].
  pose proof (gd_coll _ _ Hg) as [[[Hh1 Hh2] _] Hnd Hsp Hnu Hhd Hgd].
  unfold g', grab_block. rewrite Z.shiftl_mul_pow2 by (destruct (gd_order _ _ Hg); lia).
  assert (u64 (PAGE_SIZE * 2 ^ g_order g) = bsize (g_order g)) as ->.
  { apply u64_small. destruct (gd_order _ _ Hg), Hbv as (? & ? & ? & _). unfold ch_end, as_block, bsize in *. simpl in *. lia. }
  change (mk_chunk p (bsize (g_order g)) n) with (as_block n (p, g_order g)). set (b := as_block n (p, g_order g)) in *.
  destruct (put_view i g p b Hg Hp) as (Eb & Ev & Et & Ef). set (s := put_hdr (g_mem g) p b) in *.
  pose proof (mem_chunk_insert_ok (hdr s) (g_tree g) p n) as Hi. rewrite Eb in Hi. unfold inserted in Hi. rewrite Ev in Hi.
  destruct Hi as (I1 & I2 & I3 & I4 & I5 & I6); auto.
  destruct (mem_chunk_insert (hdr s) (g_tree g) p) as [h t] eqn:E. cbn [fst snd g_mem g_tree hdr free_chunks used_chunks] in *.
  assert (forall q, q ∈ free_chunks (g_mem g) -> h q = hdr (g_mem g) q) as Hfr.
  { intros q Hq. rewrite <- Ef by done. apply I5. by apply (free_not_node i). }
  assert (chunks (mk_mem h (free_chunks s) (used_chunks s)) = chunks (g_mem g)) as Hc by (by apply same_chunks).
  split_and!; auto.
  2:{ intros q Hqp Hq. rewrite I5 by done. simpl. by rewrite (proj2 (Z.eqb_neq q p)). }
  assert (good (b :: view (hdr (g_mem g)) (g_tree g) ++ all_mem (g_mem g))) as Hgb.
  { rewrite good_cons, Forall_app. auto. }
  constructor; auto.
  - split; [split; [|done]|]; cbn [hdr free_chunks].
    + rewrite Forall_forall in Hh1 |- *. intros q Hq. rewrite Hfr by done. by apply Hh1.
    + unfold all_mem. rewrite Hc. by apply (good_app_r (b :: view (hdr (g_mem g)) (g_tree g))).
  - rewrite Forall_forall. intros d Hd. assert (own (view h t) (ch_addr d) (ch_numa d)) as Ho.
    { apply Exists_exists. exists d. split; [done|]. pose proof (proj2 I2) as Hv. rewrite Forall_forall in Hv.
      destruct (Hv d Hd) as (_ & ? & _). unfold within, ch_end. split; [lia|done]. }
    apply I3, own_cons in Ho as [[_ Hm]|(e & He & _ & Hm)%Exists_exists].
    + by rewrite <- Hm.
    + rewrite Forall_forall in Hnu. rewrite <- Hm. by apply Hnu.
  - rewrite Forall_forall in Hhd |- *. intros q Hq. destruct (I6 q Hq) as ([Hin| ->] & Ha & He).
    + rewrite Et in Ha, He by done. destruct (Hhd q Hin) as [Hw Hal]. unfold within in *. simpl. split; [lia|done].
    + rewrite Eb in Ha, He. destruct Hbv as (? & ? & ? & ? & _). unfold within, b, as_block, ch_end in *. simpl in *. split; [lia|done].
  - cbn [hdr]. unfold all_mem. rewrite Hc. change (used_chunks (mk_mem h (free_chunks s) (used_chunks s))) with (used_chunks (g_mem g)).
    apply (good_cover (b :: view (hdr (g_mem g)) (g_tree g))); auto. intros x k. apply I3.
Qed.

(** The headers of the tree lie in the blocks that were taken. *)
Lemma node_taken i g q : gathered i g -> q ∈ inorder (g_tree g) -> Exists (in_block q) (g_taken g).
Proof using.
  intros Hg Hq. pose proof (cl_hdr _ _ _ (gd_coll _ _ Hg)) as Hh. rewrite Forall_forall in Hh.
  apply (gd_own _ _ Hg q (ch_numa (hdr (g_mem g) q))), Exists_exists. exists (hdr (g_mem g) q).
  split; [by apply list_elem_of_fmap_2|]. split; [by apply Hh|done].
Qed.

Lemma gathered_grab i g p : gathered i g -> lx_page lx i (g_order g) = Some p -> gathered (S i) (grab_block n p g).
Proof using HR Hlx.
  intros Hg Hp. destruct (grab_collected i g p Hg Hp) as (Hc & Ef & Eu & Ec & Ho & Ht & Hfr).
  destruct (block_fresh i g p Hg Hp) as ((_ & Hbs & _) & _).
  pose proof (gd_same _ _ Hg) as (S1 & S2 & S3). pose proof (lo_block _ _ _ Hlx i _ _ (gd_order _ _ Hg) Hp) as [Hb _].
  assert (g_order (grab_block n p g) = g_order g /\ g_secs (grab_block n p g) = g_secs g /\
    g_failed (grab_block n p g) = 0 /\ g_taken (grab_block n p g) = g_taken g ++ [(p, g_order g)] /\
    g_allocated (grab_block n p g) = u64 (g_allocated g + u64 (Z.shiftl PAGE_SIZE (g_order g)))) as (E1 & E2 & E3 & E4 & E5).
  { unfold grab_block. by destruct (mem_chunk_insert _ _ _). }
  pose proof (gd_order _ _ Hg) as Hor. pose proof (collected_total _ _ _ Hc) as Hct.
  pose proof (collected_total _ _ _ (gd_coll _ _ Hg)) as Hct'.
  constructor; rewrite ?E1, ?E2, ?E3, ?E4, ?E5; try lia; try done.
  - split_and!; congruence.
  - rewrite (gd_total _ _ Hg), Z.shiftl_mul_pow2 by lia. fold (bsize (g_order g)).
    pose proof (bsize_pos' (g_order g) ltac:(lia)). rewrite (u64_small (bsize _)), u64_small by lia. lia.
  - intros x m. rewrite Ho, own_cons, (gd_own _ _ Hg), Exists_app, Exists_cons, Exists_nil.
    unfold within, in_block, as_block, ch_end. simpl. intuition auto.
  - apply Forall_app. split; [|apply Forall_singleton; split; [done|]; exists i; split; [lia|done]].
    eapply Forall_impl; [apply (gd_from _ _ Hg)|]. intros f (Hf & j & Hj & Ej). split; [done|]. exists j. split; [lia|done].
  - by apply (gd_secs i).
  - intros q Hq. rewrite Exists_app, Exists_cons, Exists_nil in Hq. rewrite Hfr; [apply (gd_frame _ _ Hg); tauto|..].
    + intros ->. apply Hq. right. left. unfold in_block. simpl. pose proof (bsize_pos' (g_order g) ltac:(lia)). lia.
    + intros Hin. by apply Hq; left; eapply node_taken.
Qed.

(** Every round that is not quick lowers the rest of this number: a block
    takes memory, a failure lowers the order, and freeing pages fails once or
    takes time. *)
Definition rounds (i fuel : nat) (g : grab) : Z :=
  2 ^ 64 - total (view (hdr (g_mem g)) (g_tree g)) +
  3 * (g_order g + Z.max 0 (2 - g_secs g)) + (1 - g_failed g) + quick_rounds lx i fuel.

Lemma rounds_pos i g : gathered i g -> 0 < rounds i 0 g.
Proof using.
  intros [Hc _ _ Ho _ _ Hf Hs _]. pose proof (collected_total _ _ _ Hc). unfold rounds. cbn [quick_rounds]. lia.
Qed.

Lemma rounds_grab i fuel g p : gathered i g -> lx_page lx i (g_order g) = Some p ->
  rounds (S i) fuel (grab_block n p g) < rounds i (S fuel) g.
Proof using HR Hlx.
  intros Hg Hp. destruct (grab_collected i g p Hg Hp) as (_ & _ & _ & _ & _ & Ht & _).
  pose proof (gd_order _ _ Hg). destruct (bsize_pos (g_order g) ltac:(lia)) as [Hb _]. pose proof (gd_failed _ _ Hg).
  unfold rounds. rewrite Ht. unfold grab_block. destruct (mem_chunk_insert _ _ _). cbn [g_order g_secs g_failed quick_rounds].
  unfold PAGE_SIZE in Hb. destruct (quick lx i); lia.
Qed.

(** How the loop ends. *)
Definition gather_end (ret : Z) (g : grab) : Prop :=
  (ret = 0 /\ (want = IHK_SMP_MEM_ALL \/ want <= g_allocated g)) \/
  (ret = - ENOMEM /\ want <> IHK_SMP_MEM_ALL /\ g_allocated g < want).

Lemma pre_out_end g : exists ret, pre_out want g = (ret, g) /\ gather_end ret g.
Proof using.
  unfold pre_out, gather_end. destruct (Z.leb_spec want (g_allocated g)), (Z.eqb_spec want IHK_SMP_MEM_ALL); eauto 10.
Qed.

(** The variables of a round that did not get a block. *)
Lemma gathered_step i g o f s : gathered i g -> 0 <= o <= CHUNK_BASE_ORDER -> 0 <= f <= 1 -> 0 <= s ->
  gathered (S i) (mk_grab o (g_allocated g) f s (g_mem g) (g_tree g) (g_taken g)).
Proof using.
  intros [H1 H2 H3 _ H5 H6 _ _ H9] Ho Hf Hs. constructor; auto. eapply Forall_impl; [exact H6|].
  intros q (Hq & j & Hj & Ej). split; [done|]. exists j. split; [lia|done].
Qed.

(** The loop ends within its rounds, or more of them were quick than the
    bound allows. *)
Definition gathers (o : outcome (Z * grab)) (fuel : nat) (bound : Z) : Prop :=
  (exists ret g i, o = Ret (ret, g) /\ gathered i g /\ gather_end ret g) \/ (o = Undef /\ Z.of_nat fuel < bound).

Lemma gathers_next o fuel bound bound' : gathers o fuel bound -> bound < bound' -> gathers o (S fuel) bound'.
Proof using. intros [?|[-> Hf]] Hb; [by left|right]. split; [done|lia]. Qed.

Lemma gathers_end g ret i fuel bound : pre_out want g = (ret, g) -> gather_end ret g -> gathered i g ->
  gathers (Ret (pre_out want g)) fuel bound.
Proof using. intros -> He Hg. left. eauto 10. Qed.

Lemma grab_loop_ok fuel : forall i g, 0 <= order_limit -> gathered i g ->
  gathers (grab_loop lx want n order_limit ratio timeout fuel i g) fuel (rounds i fuel g).
Proof using HR Hlx.
  induction fuel as [|fuel IH]; intros i g Hl Hg; [right; split; [done|by apply rounds_pos]|]. cbn [grab_loop].
  pose proof (gd_coll _ _ Hg) as Hc. destruct (Z.ltb_spec (max_size_mem_chunk (hdr (g_mem g)) (g_tree g)) want) as [Hlt|Hge]; cbn [negb].
  2:{ left. exists 0, g, i. split_and!; [done..|]. left. split; [done|]. right. rewrite (gd_total _ _ Hg). etrans; [exact Hge|].
      pose proof (max_size_total (hdr (g_mem g)) (inorder (g_tree g)) (proj2 (cl_spaced _ _ _ Hc)) 0).
      destruct (collected_total _ _ _ Hc). unfold max_size_mem_chunk, view in *. lia. }
  destruct (pre_out_end g) as (r & Er & Hr). destruct (share_taken _ _ _ _ _); [by eapply gathers_end|].
  destruct (lx_page lx i (g_order g)) as [p|] eqn:Ep.
  { eapply gathers_next; [by apply IH, gathered_grab|by apply rounds_grab]. }
  pose proof (gd_order _ _ Hg) as Ho. pose proof (gd_failed _ _ Hg) as Hfa. pose proof (gd_secs _ _ Hg) as Hs.
  destruct (may_free _ _ g) eqn:Em.
  - unfold may_free in Em. rewrite !andb_true_iff, !Z.ltb_lt in Em. destruct Em as (((((_ & _) & _) & Ef) & Es) & _).
    unfold RESERVE_MEM_FAILED_ATTEMPTS, USE_TRY_TO_FREE_PAGES_TIME_LIMIT in *.
    pose proof (lo_secs _ _ _ Hlx i) as Hls. rewrite s32_small by lia.
    eapply gathers_next; [apply IH; [done|apply gathered_step; auto; destruct (lx_freed lx i <=? 1); lia]|].
    unfold rounds. cbn [g_order g_secs g_failed g_mem g_tree quick_rounds]. unfold quick.
    destruct (Z.leb_spec (lx_freed lx i) 1), (Z.eqb_spec (lx_secs lx i) 0), (Z.ltb_spec 1 (lx_freed lx i)); cbn [andb]; lia.
  - destruct (Z.ltb_spec order_limit (g_order g)) as [Hol|_]; [|by eapply gathers_end].
    set (g1 := mk_grab _ _ _ _ _ _ _). assert (gathered (S i) g1) as Hg1 by (apply gathered_step; auto; lia).
    destruct (pre_out_end g1) as (r1 & Er1 & Hr1). destruct (u64 _ <? _); [|by eapply gathers_end].
    eapply gathers_next; [by apply IH|]. unfold rounds. cbn [g1 g_order g_secs g_failed g_mem g_tree quick_rounds].
    destruct (quick lx i); lia.
Qed.
End grab_loop.

(** ** A reservation *)

Section reservation.
Context `{SmpEnv} `{HR : RbTreeOk} (lx : linux_pages) (n : Z) (s : memst).
Hypothesis Htails : tails_ok.
Hypothesis Horders : orders_ok.
Hypothesis Hs : mem_ok s.
Hypothesis Hlx : linux_ok n s lx.

Lemma gathered_start : gathered lx n s 0 (mk_grab CHUNK_BASE_ORDER 0 0 0 s Leaf []).
Proof using Hs.
  constructor; cbn [g_mem g_tree g_allocated g_order g_taken g_failed g_secs]; try done; try lia.
  - constructor; unfold view; simpl; [done|by apply NoDup_nil|split; constructor|constructor|constructor|exact (proj2 Hs)].
  - intros x m. unfold own. rewrite Exists_nil. unfold view. simpl. rewrite Exists_nil. tauto.
Qed.

Lemma gathered_whole i g : gathered lx n s i g -> whole n (view (hdr (g_mem g)) (g_tree g)).
Proof using.
  intros Hg x _ Hx. apply (gd_own _ _ _ _ _ Hg) in Hx as [_ (f & Hf & Hxf)%Exists_exists].
  pose proof (gd_from _ _ _ _ _ Hg) as Hfr. rewrite Forall_forall in Hfr. destruct (Hfr f Hf) as [Hb _].
  exists f.1, f.2. split_and!; [done|apply Hxf..|]. intros y Hy. apply (gd_own _ _ _ _ _ Hg). split; [done|].
  apply Exists_exists. eauto.
Qed.

(** The blocks that go back are some of those that were taken. *)
Lemma freed_taken i g cs freed :
  gathered lx n s i g -> tiles cs freed -> pairwise apart cs -> Forall (fun c => ch_numa c = n) cs ->
  (forall x m, own cs x m -> own (view (hdr (g_mem g)) (g_tree g)) x m) ->
  NoDup freed /\ freed ⊆ g_taken g /\ (forall x, Exists (in_block x) freed <-> own cs x n).
Proof using.
  intros Hg Ht Ha Hn Hsub. destruct (tiles_spec n cs freed Ht Ha Hn) as (H1 & H2 & H3). split_and!; [| |done].
  - clear -H2 H3. induction freed as [|f l IH]; [constructor|]. cbn [fmap list_fmap pairwise] in H2. rewrite Forall_cons in H3.
    destruct H2 as [H2 H2'], H3 as [H3 H3']. constructor; [|by apply IH]. intros Hin. rewrite Forall_fmap, Forall_forall in H2.
    specialize (H2 f Hin). pose proof (bsize_pos' f.2 ltac:(destruct H3; lia)). unfold apart, as_block, ch_end in H2. simpl in H2. lia.
  - intros f Hf. rewrite Forall_forall in H3. pose proof (H3 f Hf) as Hb. pose proof Hb as [Ho Hal _ _ _].
    pose proof (bsize_pos' f.2 ltac:(lia)) as Hp.
    assert (own cs f.1 n) as Hown by (apply H1, Exists_exists; exists f; split; [done|]; unfold in_block; lia).
    apply Hsub, (gd_own _ _ _ _ _ Hg) in Hown as [_ (g0 & Hg0 & Hx)%Exists_exists].
    pose proof (gd_from _ _ _ _ _ Hg) as Hfr. rewrite Forall_forall in Hfr. destruct (Hfr g0 Hg0) as [Hb0 _].
    destruct (block_unique f.1 f.2 g0.1 g0.2 f.1 Hb Hb0 Hal ltac:(lia) Hx) as [E1 E2].
    destruct f, g0. simpl in E1, E2. by subst.
Qed.

(** The least size that satisfies a request. *)
Definition exact_size (want : Z) : Z := if want =? IHK_SMP_MEM_ALL then 0 else want.

(** The result of a reservation of [want] bytes: the blocks that go back are
    some of those that Linux handed out, once each; the driver then holds
    exactly what it held before and the blocks that did not go back. *)
Record reserved (want ret : Z) (s' : memst) (taken freed : list (Z * Z)) : Prop := {
  rs_mem : mem_ok s' /\ used_chunks s' = used_chunks s;
  rs_taken : Forall (fun f => exists i, lx_page lx i f.2 = Some f.1) taken;
  rs_freed : NoDup freed /\ freed ⊆ taken;
  rs_own : forall x m, own (all_mem s') x m <->
    own (all_mem s) x m \/ m = n /\ Exists (in_block x) taken /\ ~ Exists (in_block x) freed;
  rs_frame : forall q, ~ Exists (in_block q) taken -> hdr s' q = hdr s q;
  rs_ret : ret = 0 /\ total (chunks s) + exact_size want <= total (chunks s') /\ (want = IHK_SMP_MEM_ALL -> freed = []) \/
           ret = - ENOMEM /\ chunks s' = chunks s
}.

Lemma taken_from i g : gathered lx n s i g -> Forall (fun f => exists j, lx_page lx j f.2 = Some f.1) (g_taken g).
Proof using. intros Hg. eapply Forall_impl; [apply (gd_from _ _ _ _ _ Hg)|]. intros f (_ & j & _ & E). eauto. Qed.

Lemma spaced_apart l : spaced l -> pairwise apart l.
Proof using.
  intros [Hs1 _]. induction Hs1 as [|c l _ IH Hc]; cbn [pairwise]; [done|]. split; [|done].
  eapply Forall_impl; [exact Hc|]. unfold gap, apart. lia.
Qed.

(** A reservation that did not get enough gives everything back. *)
Lemma reserve_failed want i g :
  gathered lx n s i g -> exists freed, free_mem_from_rbtree (length (inorder (g_tree g))) (hdr (g_mem g)) (g_tree g) = Ret freed /\
    reserved want (- ENOMEM) (g_mem g) (g_taken g) freed.
Proof using HR.
  intros Hg. pose proof (gd_coll _ _ _ _ _ Hg) as [Hok Hn Hsp Hnu _ _]. pose proof (gd_same _ _ _ _ _ Hg) as (_ & Hu & Hc).
  destruct (free_rbtree_tiles n (hdr (g_mem g)) (length (inorder (g_tree g))) (g_tree g)) as (freed & -> & Ht); auto.
  { by eapply gathered_whole. }
  destruct (freed_taken i g _ freed Hg Ht (spaced_apart _ Hsp) Hnu) as (F1 & F2 & F3); [auto|].
  exists freed. split; [done|]. constructor; auto; [by eapply taken_from| |by apply (gd_frame _ _ _ _ _ Hg)].
  intros x m. rewrite (gathered_all_mem _ _ _ i g Hg). pose proof (gd_own _ _ _ _ _ Hg x n) as Ho. rewrite F3. tauto.
Qed.

Lemma reserve_done want i g :
  gathered lx n s i g -> size_ok want -> want = IHK_SMP_MEM_ALL \/ want <= g_allocated g ->
  exists allocated s' freed, reserve_finish want (g_mem g) (g_tree g) = Ret (allocated, s', freed) /\
    reserved want 0 s' (g_taken g) freed.
Proof using HR Htails Horders.
  intros Hg Hw Hen. pose proof (gd_coll _ _ _ _ _ Hg) as Hcl. pose proof (gd_same _ _ _ _ _ Hg) as (_ & Hu & Hc).
  destruct (reserve_finish_ok n want _ _ Htails Horders Hcl Hw) as (a & s' & t' & freed & -> & [Hcl' Hu' Hown Hsub Htr Hfr _ Hfm] & Hmin & _ & Ht).
  specialize (Ht (gathered_whole i g Hg)). pose proof Hcl' as [Hok _ Hsp' Hnu' _ Hgd].
  destruct (freed_taken i g _ freed Hg Ht (spaced_apart _ Hsp') Hnu' Hsub) as (F1 & F2 & F3).
  exists a, s', freed. split; [done|].
  constructor; auto; [split; [done|congruence]|by eapply taken_from| | |].
  - intros x m. specialize (Hown x m). rewrite !own_app, (gathered_all_mem _ _ _ i g Hg) in Hown.
    pose proof (gd_own _ _ _ _ _ Hg x m) as Ho. rewrite F3. split.
    + intros Hx. destruct (proj1 Hown (or_intror Hx)) as [Hv|Hm]; [right|by left]. apply Ho in Hv as [-> Hv]. split_and!; [done..|].
      intros Hx'. by eapply good_disjoint; [exact Hgd| |].
    + intros [Hm|(-> & Htk & Hnf)].
      * destruct (proj2 Hown (or_intror Hm)) as [Hv|]; [|done]. apply Hsub in Hv. exfalso.
        pose proof (cl_good _ _ _ Hcl) as Hgd'. rewrite (gathered_all_mem _ _ _ i g Hg) in Hgd'. by eapply good_disjoint.
      * destruct (proj2 Hown) as [Hv|]; [left; apply Ho; done|done|done].
  - intros q Hq. rewrite Hfm; [by apply (gd_frame _ _ _ _ _ Hg)|]. intros m Hm. by apply Hq, (gd_own _ _ _ _ _ Hg q m).
  - left. destruct (collected_total _ _ _ Hcl) as [Hnn Htot]. pose proof (gd_total _ _ _ _ _ Hg) as Ea. split_and!; [done|..].
    + rewrite Hfr, Hc. unfold exact_size. destruct Hw as [Hw _]. destruct (Z.eqb_spec want IHK_SMP_MEM_ALL); [|destruct Hen; [done|]]; lia.
    + unfold IHK_SMP_MEM_ALL. intros Hall. destruct (view (hdr s') t') as [|c v]; [by inversion Ht|].
      pose proof (proj2 Hsp') as Hv. rewrite Forall_cons in Hv. destruct Hv as [(_ & Hcs & _) Hv].
      pose proof (total_nonneg _ Hv). simpl in Htr. lia.
Qed.
End reservation.

(** Sizes that smp_ihk_reserve_mem lets pass. *)
Definition granule_ok (sz : Z) : Prop := 0 <= sz < 2 ^ 64 /\ (sz = IHK_SMP_MEM_ALL \/ (IHK_RESERVE_MEM_GRANULE | sz)).

Lemma granule_size sz : granule_ok sz -> size_ok sz /\ round_want CHUNK_BASE_ORDER sz = sz.
Proof.
  intros [Hsz Hor]. split.
  - split; [done|]. destruct Hor as [->|[k ->]]; [by right|left]. exists (k * 1024). unfold IHK_RESERVE_MEM_GRANULE, PAGE_SIZE. lia.
  - unfold round_want. destruct (Z.eqb_spec sz IHK_SMP_MEM_ALL) as [|Hne]; [done|]. destruct Hor as [|[k ->]]; [done|].
    unfold IHK_RESERVE_MEM_GRANULE, PAGE_SIZE, CHUNK_BASE_ORDER in *. change (u64 (Z.shiftl 4096 10)) with (2 ^ 22) in *.
    change (4194304) with (2 ^ 22) in *. assert (k * 2 ^ 22 + (2 ^ 22 - 1) < 2 ^ 64) as Hb by lia.
    rewrite u64_small by lia. change (- 2 ^ 22) with (Z.lnot (Z.ones 22)). rewrite <- Z.ldiff_land, Z.ldiff_ones_r by lia.
    rewrite Z.shiftr_div_pow2, Z.shiftl_mul_pow2 by lia. rewrite Z.add_comm, Z.div_add by lia. done.
Qed.

Lemma base_order `{SmpEnv} n s lx : linux_ok n s lx -> lx_get_order lx IHK_SMP_CHUNK_BASE_SIZE = CHUNK_BASE_ORDER.
Proof.
  intros Hlx. destruct (lo_order _ _ _ Hlx IHK_SMP_CHUNK_BASE_SIZE) as (H1 & H2 & H3); [unfold IHK_SMP_CHUNK_BASE_SIZE; lia|].
  unfold CHUNK_BASE_ORDER. apply Z.le_antisymm; [by apply H3; [lia|vm_compute]|]. destruct (Z.le_gt_cases 10 (lx_get_order lx IHK_SMP_CHUNK_BASE_SIZE)) as [|Hlt]; [done|].
  pose proof (Z.pow_le_mono_r 2 (lx_get_order lx IHK_SMP_CHUNK_BASE_SIZE) 9 ltac:(lia) ltac:(lia)) as Hp.
  unfold bsize, PAGE_SIZE, IHK_SMP_CHUNK_BASE_SIZE in *. lia.
Qed.

(** The elements of an array of size_t. *)
Definition uarr_u64 (u : uarr Z) : Prop := match u with UArr _ _ l => Forall (fun x => 0 <= x < 2 ^ 64) l | UNull => True end.

Lemma copied_u64 u k l x : uarr_u64 u -> copy_from_user u k = Some l -> x ∈ l -> 0 <= x < 2 ^ 64.
Proof.
  unfold copy_from_user. intros Hu E Hx. destruct (k =? 0); [injection E as <-; by apply not_elem_of_nil in Hx|].
  destruct u as [|[] w v]; try done. destruct (_ <=? _); [|done]. injection E as <-. cbn [uarr_u64] in Hu.
  rewrite Forall_forall in Hu. apply Hu. by eapply subseteq_take.
Qed.

Lemma copy_from_user_length {A} (u : uarr A) k l : copy_from_user u k = Some l -> Z.of_nat (length l) = Z.max 0 k.
Proof.
  unfold copy_from_user. destruct (Z.eqb_spec k 0) as [->|]; [by intros [= <-]|]. destruct u as [|[] w v]; try done.
  destruct (Z.leb_spec k (Z.of_nat (length v))); [|done]. intros [= <-]. rewrite length_take. lia.
Qed.

(** The requests that are not refused: the smallest block is not too large,
    and the node is online. *)
Definition accepted (lx : linux_pages) (min_size n : Z) : bool :=
  let o := lx_get_order lx (u64 min_size) in (0 <=? o) && (o <=? MAX_ORDER) && lx_node_online lx n.

Section requests.
Context `{SmpEnv} `{HR : RbTreeOk}.
Hypothesis Htails : tails_ok.
Hypothesis Horders : orders_ok.

Lemma reserve_mem_ok lx n s fuel sz min_size ratio timeout :
  mem_ok s -> linux_ok n s lx -> granule_ok sz ->
  if accepted lx min_size n then
    (exists ret s' taken freed, ihk_smp_reserve_mem fuel lx sz n min_size ratio timeout s = Ret (ret, s', taken, freed) /\
      reserved lx n s sz ret s' taken freed) \/
    (ihk_smp_reserve_mem fuel lx sz n min_size ratio timeout s = Undef /\ ~ enough lx fuel)
  else ihk_smp_reserve_mem fuel lx sz n min_size ratio timeout s = Ret (- EINVAL, s, [], []).
Proof using HR Htails Horders.
  intros Hs Hlx Hsz. destruct (granule_size sz Hsz) as [Hso Hrw]. unfold ihk_smp_reserve_mem.
  unfold accepted. set (limit := lx_get_order lx (u64 min_size)). rewrite (base_order n s lx Hlx).
  destruct (Z.leb_spec 0 limit) as [Hgo|Hneg]; cbn [andb]; [rewrite (proj2 (Z.ltb_ge _ _)) by done|by rewrite (proj2 (Z.ltb_lt _ _))].
  destruct (Z.leb_spec limit MAX_ORDER) as [Hle|Hgt]; cbn [andb orb]; [rewrite (proj2 (Z.ltb_ge _ _)) by done|by rewrite (proj2 (Z.ltb_lt _ _))].
  destruct (lx_node_online lx n); cbn [negb]; [|done]. rewrite Hrw. pose proof (gathered_start lx n s Hs) as Hg0.
  destruct (grab_loop_ok lx sz n limit ratio timeout s Hlx fuel 0 _ Hgo Hg0) as [(ret & g & i & -> & Hg & He)|[-> Hf]].
  2:{ right. split; [done|]. unfold rounds, enough, CHUNK_BASE_ORDER in *. cbn [g_mem g_tree g_order g_secs g_failed] in Hf.
      change (total (view (hdr s) Leaf)) with 0 in Hf. lia. }
  left. cbn [mbind outcome_bind]. destruct He as [[-> Hen]|(-> & Hna & Hlt)].
  - destruct (reserve_done lx n s Htails Horders sz i g Hg Hso Hen) as (a & s' & freed & E & Hr). rewrite E. cbn. eauto 10.
  - destruct (reserve_failed lx n s sz i g Hg) as (freed & E & Hr). cbn -[free_mem_from_rbtree]. rewrite E. cbn. eauto 10.
Qed.

(** C18: __ihk_smp_reserve_mem, whatever blocks Linux hands
    out and whatever it answers when it is asked to free pages.  A reservation
    for a node that is online, with a smallest block that is not too large,
    either succeeds with at least the requested memory (with all that was
    collected when all was requested), or fails with -ENOMEM; in both cases
    the driver ends up with the memory it had and the blocks that did not go
    back, every other block goes back exactly once, whole, and the lists are
    in order.  The only other outcome is that the loop is still running after
    [fuel] rounds, and then all of them but less than 2^64 + 40 were rounds in
    which Linux frees more than a page in less than a second; such a Linux can
    keep the loop running for ever (reserve_livelock).  Other requests are
    refused with -EINVAL and change nothing. *)
Theorem reserve_mem_correct lx n s fuel sz min_size ratio timeout :
  mem_ok s -> linux_ok n s lx -> granule_ok sz ->
  if accepted lx min_size n then
    (exists ret s' taken freed, ihk_smp_reserve_mem fuel lx sz n min_size ratio timeout s = Ret (ret, s', taken, freed) /\
      reserved lx n s sz ret s' taken freed) \/
    (ihk_smp_reserve_mem fuel lx sz n min_size ratio timeout s = Undef /\ ~ enough lx fuel)
  else ihk_smp_reserve_mem fuel lx sz n min_size ratio timeout s = Ret (- EINVAL, s, [], []).
Proof using HR Htails Horders. apply reserve_mem_ok. Qed.

Context (linux : nat -> memst -> linux_pages) (fuel : nat).

(** The bytes of the blocks that Linux may hand out. *)
Definition handed (x : Z) : Prop := exists k s i o p, lx_page (linux k s) i o = Some p /\ in_block x (p, o).

(** What every request leaves: more memory, in order, none of it from
    elsewhere than Linux; nothing else is written. *)
Record more_mem (s s' : memst) : Prop := {
  mm_ok : mem_ok s';
  mm_used : used_chunks s' = used_chunks s;
  mm_keep : forall x m, own (all_mem s) x m -> own (all_mem s') x m;
  mm_from : forall x m, own (all_mem s') x m -> own (all_mem s) x m \/ handed x;
  mm_frame : forall q, ~ handed q -> hdr s' q = hdr s q
}.

Lemma more_mem_refl s : mem_ok s -> more_mem s s.
Proof using. by constructor; auto. Qed.

Lemma more_mem_trans s1 s2 s3 : more_mem s1 s2 -> more_mem s2 s3 -> more_mem s1 s3.
Proof using.
  intros [_ H2 H3 H4 H5] [K1 K2 K3 K4 K5]. constructor; [done|congruence|auto|..].
  - intros x m Hx. apply K4 in Hx as [Hx|]; auto.
  - intros q Hq. by rewrite K5, H5.
Qed.

Lemma reserved_more n k s want ret s' taken freed :
  reserved (linux k s) n s want ret s' taken freed -> more_mem s s'.
Proof using.
  intros [[Hs1 Hu] Ht _ Ho Hf _]. rewrite Forall_forall in Ht.
  assert (forall x, Exists (in_block x) taken -> handed x) as Hh.
  { intros x (f & Hin & Hx)%Exists_exists. destruct (Ht f Hin) as [i E]. exists k, s, i, f.2, f.1. by destruct f. }
  constructor; auto.
  - intros x m Hx. apply Ho. by left.
  - intros x m [|(_ & Hx & _)]%Ho; auto.
Qed.

Hypothesis Hlinux : forall k s n, mem_ok s -> linux_ok n s (linux k s).

(** A reservation that is still running after [fuel] rounds. *)
Definition stuck : Prop := exists k s, mem_ok s /\ ~ enough (linux k s) fuel.

Definition exact_sizes (l : list Z) : Z := foldr (fun sz a => exact_size sz + a) 0 l.

Lemma reserve_all_ok min_size ratio timeout reqs : forall k s, mem_ok s -> Forall granule_ok (map fst reqs) ->
  (exists ret s', reserve_all fuel linux min_size ratio timeout k reqs s = Ret (ret, s') /\ more_mem s s' /\ ret <= 0 /\
    (ret = 0 -> total (chunks s) + exact_sizes (map fst reqs) <= total (chunks s'))) \/
  (reserve_all fuel linux min_size ratio timeout k reqs s = Undef /\ stuck).
Proof using HR Htails Horders Hlinux.
  induction reqs as [|[sz n] reqs IH]; intros k s Hs Hr; cbn [reserve_all].
  { left. exists 0, s. split_and!; [done|by apply more_mem_refl|done|]. cbn. lia. }
  cbn [map fst] in Hr. rewrite Forall_cons in Hr. destruct Hr as [Hsz Hr].
  pose proof (reserve_mem_ok (linux k s) n s fuel sz min_size ratio timeout Hs (Hlinux k s n Hs) Hsz) as Hm.
  destruct (accepted _ _ _).
  - destruct Hm as [(ret & s1 & taken & freed & -> & Hm)|[-> Hb]]; cbn [mbind outcome_bind].
    2:{ right. split; [done|]. by exists k, s. }
    pose proof (reserved_more _ _ _ _ _ _ _ _ Hm) as Hmm. destruct (rs_ret _ _ _ _ _ _ _ _ Hm) as [(-> & Ht & _)|[-> Hc]]; cbn [Z.eqb negb].
    + destruct (IH (S k) s1 (mm_ok _ _ Hmm) Hr) as [(ret & s' & -> & Hm' & Hle & Ht')|[-> Hst]]; [left|by right]. exists ret, s'.
      split_and!; [done|by eapply more_mem_trans|done|]. intros Hret. specialize (Ht' Hret). cbn. unfold exact_sizes in Ht'. lia.
    + left. by exists (- ENOMEM), s1.
  - left. rewrite Hm. exists (- EINVAL), s. split_and!; [done|by apply more_mem_refl|done..].
Qed.

(** A request to reserve memory, whatever it holds and whatever Linux
    answers, completes, or one of its reservations is still running; the
    driver never loses memory, the chunks stay in order, and a request that
    reports success has added at least the sum of the sizes it names. *)
Theorem reserve_request_correct km arg s :
  mem_ok s -> uarr_u64 (mr_sizes (up_val arg)) ->
  (exists ret s', smp_ihk_reserve_mem fuel linux km arg s = Ret (ret, s') /\ more_mem s s' /\ ret <= 0 /\
    (ret = 0 -> exists sizes, copy_from_user (mr_sizes (up_val arg)) (mr_num (up_val arg)) = Some sizes /\
       total (chunks s) + exact_sizes sizes <= total (chunks s'))) \/
  (smp_ihk_reserve_mem fuel linux km arg s = Undef /\ stuck).
Proof using HR Htails Horders Hlinux.
  intros Hs Hu. pose proof (more_mem_refl s Hs) as Hr. unfold smp_ihk_reserve_mem. set (req := up_val arg) in *.
  assert (forall ret, ret < 0 -> (exists r s', @Ret (Z * memst) (ret, s) = Ret (r, s') /\ more_mem s s' /\ r <= 0 /\
    (r = 0 -> exists sizes, copy_from_user (mr_sizes req) (mr_num req) = Some sizes /\
       total (chunks s) + exact_sizes sizes <= total (chunks s'))) \/ (@Ret (Z * memst) (ret, s) = Undef /\ stuck)) as Hno.
  { intros ret Hret. left. exists ret, s. split_and!; [done..|lia|lia]. }
  destruct (up_read arg); cbn [negb]; [|by apply Hno]. destruct (_ =? 0); cbn [negb]; [|by apply Hno].
  destruct (Z.eqb_spec (mr_num req) 0) as [E0|_].
  { left. exists 0, s. split_and!; [done..|]. intros _. exists []. unfold copy_from_user. rewrite E0. split; [done|cbn; lia]. }
  destruct (km 0%nat); cbn [negb]; [|by apply Hno]. destruct (km 1%nat); cbn [negb]; [|by apply Hno].
  destruct (copy_from_user (mr_sizes req) (mr_num req)) as [sizes|] eqn:E1; [|by apply Hno].
  destruct (copy_from_user (mr_numa_ids req) (mr_num req)) as [numas|] eqn:E2; [|by apply Hno].
  destruct (forallb _ sizes) eqn:Ef; cbn [negb]; [|by apply Hno].
  assert (map fst (zip sizes numas) = sizes) as Ez.
  { apply fst_zip. apply copy_from_user_length in E1, E2. lia. }
  destruct (reserve_all_ok (mr_min_chunk_size req) (mr_max_size_ratio_all req) (mr_timeout req) (zip sizes numas) 0 s Hs)
    as [(ret & s' & -> & Hm & Hle & Ht)|[-> Hst]]; [| |by right].
  - rewrite Ez. rewrite forallb_forall in Ef. apply Forall_forall. intros sz Hin.
    split; [by eapply copied_u64|]. apply list_elem_of_In, Ef in Hin. rewrite orb_true_iff, !Z.eqb_eq in Hin.
    destruct Hin as [|Hin]; [by left|right]. by apply Z.mod_divide.
  - left. exists ret, s'. split_and!; [done..|]. intros Hret. rewrite Ez in Ht. exists sizes. auto.
Qed.
End requests.

(** ** Examples *)

(** get_order: the order of the smallest block with [size] bytes *)
Definition get_order (size : Z) : Z :=
  if size =? 0 then 52 else
  let n := Z.shiftr (size - 1) 12 in if n =? 0 then 0 else Z.log2 n + 1.

(** A machine with compound pages of 4 MiB from 1 GiB on, and a Linux that
    has four of them. *)
Definition huge_page (x : Z) : bool := (2 ^ 30 <=? x) && (x <? 2 ^ 40).
Definition huge_smp : SmpEnv := {|
  arch := X86_64;
  nr_cpu_ids := 8;
  cpu_present := fun c => (0 <=? c) && (c <? 8);
  cpu_to_node := fun c => c / 4;
  x86_cpu_to_apicid := fun c => 2 * c;
  filp_open := fun c => negb (c =? 0);
  kernel_write := fun c v on => Some (if v then {[c]} ∪ on else on ∖ {[c]});
  page_tail := fun x => let y := page_of x in
    if huge_page y && negb (y mod 2 ^ 22 =? 0) then Some (y - y mod 2 ^ 22, 10) else None;
  page_order := fun x => let y := page_of x in if huge_page y && (y mod 2 ^ 22 =? 0) then Some 10 else None
|}.

Definition apartb (c d : chunk) : bool := (ch_end c <=? ch_addr d) || (ch_end d <=? ch_addr c).
Definition four_blocks (s : memst) : linux_pages := {|
  lx_page := fun i o =>
    let p := 2 ^ 30 + Z.of_nat i * 2 ^ 22 in
    if (o =? 10) && (i <? 4)%nat && forallb (apartb (mk_chunk p (2 ^ 22) 0)) (all_mem s) then Some p else None;
  lx_freed := fun _ => 0;
  lx_secs := fun _ => 1;
  lx_elapsed := fun i => Z.of_nat i;
  lx_free_pages := 2 ^ 14;
  lx_node_online := fun n => (0 <=? n) && (n <? 2);
  lx_online_nodes := 2;
  lx_can_free := true;
  lx_get_order := get_order
|}.

Lemma huge_page_of x : aligned x -> page_of x = x.
Proof. intros Hx. unfold page_of. rewrite aligned_mod by done. lia. Qed.

Lemma huge_block i : (i < 4)%nat -> @block_ok huge_smp (2 ^ 30 + Z.of_nat i * 2 ^ 22) 10.
Proof.
  intros Hi. set (a := 2 ^ 30 + Z.of_nat i * 2 ^ 22). assert (a mod 2 ^ 22 = 0) as Em.
  { unfold a. rewrite Z.mod_add by lia. done. }
  assert (aligned a) as Ha by (exists (2 ^ 18 + Z.of_nat i * 2 ^ 10); unfold a, PAGE_SIZE; lia).
  change (bsize 10) with (2 ^ 22). constructor; [lia|done|change (bsize 10) with (2 ^ 22); unfold a; lia| |change (bsize 10) with (2 ^ 22)].
  - cbn -[Z.modulo Z.pow]. rewrite huge_page_of by done. rewrite Em. unfold huge_page, a.
    rewrite (proj2 (Z.leb_le _ _)), (proj2 (Z.ltb_lt _ _)) by lia. done.
  - intros x Hx Hr. cbn -[Z.modulo Z.pow]. rewrite huge_page_of by done.
    assert (x mod 2 ^ 22 = x - a) as -> by (symmetry; apply (Z.mod_unique _ _ (a / 2 ^ 22)); [lia|]; pose proof (Z.div_mod a (2 ^ 22) ltac:(lia)); lia).
    unfold huge_page. rewrite (proj2 (Z.leb_le _ _)), (proj2 (Z.ltb_lt _ _)) by (unfold a in *; lia).
    rewrite (proj2 (Z.eqb_neq (x - a) 0)) by lia. cbn. split; [done|]. do 2 f_equal. lia.
Qed.

Lemma get_order_ok size : 0 < size ->
  0 <= get_order size /\ size <= bsize (get_order size) /\ forall o', 0 <= o' -> size <= bsize o' -> get_order size <= o'.
Proof.
  intros Hs. unfold get_order, bsize, PAGE_SIZE. destruct (Z.eqb_spec size 0); [lia|].
  rewrite Z.shiftr_div_pow2 by lia. change (2 ^ 12) with 4096. pose proof (Z.div_mod (size - 1) 4096 ltac:(lia)) as Hd.
  pose proof (Z.mod_pos_bound (size - 1) 4096 ltac:(lia)) as Hm. set (q := (size - 1) / 4096) in *.
  destruct (Z.eqb_spec q 0) as [Eq|Hq]; [split_and!; lia|]. assert (0 < q) as Hq0 by lia.
  pose proof (Z.log2_spec q Hq0) as [Hl Hu]. pose proof (Z.log2_nonneg q). rewrite Z.add_1_r. split_and!; [lia|lia|].
  intros o' Ho' Hle. destruct (Z.le_gt_cases (Z.succ (Z.log2 q)) o') as [|Hlt]; [done|].
  pose proof (Z.pow_le_mono_r 2 o' (Z.log2 q) ltac:(lia) ltac:(lia)). lia.
Qed.

Lemma four_blocks_ok n s : @linux_ok huge_smp n s (four_blocks s).
Proof.
  constructor; cbn [four_blocks lx_page lx_secs lx_get_order]; try (intros; lia); [| |exact get_order_ok].
  - intros i o p Ho. destruct (Z.eqb_spec o 10) as [->|]; [|done]. destruct (Nat.ltb_spec i 4) as [Hi|]; [|done].
    destruct (forallb _ _) eqn:Ef; [|done]. cbn [andb]. intros [= <-]. split; [by apply huge_block|].
    rewrite forallb_forall in Ef. apply Forall_forall. intros c Hc. apply list_elem_of_In, Ef in Hc.
    unfold apartb in Hc. rewrite orb_true_iff, !Z.leb_le in Hc. exact Hc.
  - intros i j o o' p p' Hij. destruct (Z.eqb_spec o 10) as [->|]; [|done]. destruct (Z.eqb_spec o' 10) as [->|]; [|done].
    do 2 (destruct (_ && _); [|done]). intros [= <-] [= <-]. unfold apart, as_block, ch_end. simpl. change (bsize 10) with (2 ^ 22). lia.
Qed.

Lemma huge_tails : @tails_ok huge_smp.
Proof.
  intros x h o. cbn -[Z.modulo Z.pow]. unfold huge_page. destruct (Z.leb_spec (2 ^ 30) (page_of x)) as [H1|]; [|done].
  destruct (Z.ltb_spec (page_of x) (2 ^ 40)) as [H2|]; [|done]. destruct (Z.eqb_spec (page_of x mod 2 ^ 22) 0) as [|Hne]; [done|].
  cbn [andb negb]. intros [= <- <-]. pose proof (Z.mod_pos_bound (page_of x) (2 ^ 22) ltac:(lia)). fold (page_of x).
  change (PAGE_SIZE * 2 ^ 10) with (2 ^ 22). split_and!; try lia. exists (page_of x / 2 ^ 22 * 2 ^ 10).
  pose proof (Z.div_mod (page_of x) (2 ^ 22) ltac:(lia)). unfold PAGE_SIZE. lia.
Qed.

Lemma huge_orders : @orders_ok huge_smp.
Proof. intros x o. cbn -[Z.modulo Z.pow]. destruct (_ && _); [|done]. intros [= <-]. lia. Qed.

(** This Linux has no quick rounds. *)
Lemma four_blocks_quick s k : forall i, quick_rounds (four_blocks s) i k = 0.
Proof. induction k as [|k IH]; intros i; [done|]. exact (IH (S i)). Qed.

Lemma much_fuel s : enough (four_blocks s) (Z.to_nat (2 ^ 64 + 40)).
Proof. unfold enough. rewrite four_blocks_quick, Z2Nat.id; lia. Qed.

Lemma reserve_mem_correct_witness :
  exists ret s' taken freed,
    @ihk_smp_reserve_mem huge_smp plain_rb (Z.to_nat (2 ^ 64 + 40)) (four_blocks demo_mem) (2 ^ 23) 1 32768 90 30 demo_mem = Ret (ret, s', taken, freed) /\
    @reserved (four_blocks demo_mem) 1 demo_mem (2 ^ 23) ret s' taken freed.
Proof.
  pose proof (@reserve_mem_correct huge_smp plain_rb plain_rb_ok huge_tails huge_orders (four_blocks demo_mem) 1 demo_mem
    (Z.to_nat (2 ^ 64 + 40)) (2 ^ 23) 32768 90 30 demo_mem_ok (four_blocks_ok 1 demo_mem)) as Hr.
  assert (accepted (four_blocks demo_mem) 32768 1 = true) as E by reflexivity.
  rewrite E in Hr. destruct Hr as [Hr|[_ Hb]]; [split; [lia|right]; by exists 2|exact Hr|].
  by destruct (Hb (much_fuel demo_mem)).
Defined.

(** A Linux that has no block left and frees two pages at once whenever it is
    asked to. *)
Definition eager_linux : linux_pages := {|
  lx_page := fun _ _ => None;
  lx_freed := fun _ => 2;
  lx_secs := fun _ => 0;
  lx_elapsed := fun i => Z.of_nat i;
  lx_free_pages := 2 ^ 14;
  lx_node_online := fun n => (0 <=? n) && (n <? 2);
  lx_online_nodes := 2;
  lx_can_free := true;
  lx_get_order := get_order
|}.

(** With this Linux a reservation of 4 MiB on node 1 never ends, whatever the
    time limit of the request: the limit is tested only when the order is
    lowered. *)
Theorem reserve_livelock s fuel timeout :
  @linux_ok huge_smp 1 s eager_linux /\
  @ihk_smp_reserve_mem huge_smp plain_rb fuel eager_linux (2 ^ 22) 1 4096 90 timeout s = Undef.
Proof.
  split; [constructor; cbn [eager_linux lx_page lx_secs lx_get_order]; try done; exact get_order_ok|].
  unfold ihk_smp_reserve_mem. cbn -[grab_loop]. change (round_want (get_order IHK_SMP_CHUNK_BASE_SIZE) (2 ^ 22)) with (2 ^ 22).
  generalize 0%nat. induction fuel as [|fuel IH]; intros i; [done|]. exact (IH (S i)).
Qed.

(** Two reservations on this machine: the first takes two blocks, which touch
    and become one chunk; the second wants more than there is, goes down to
    single pages, and gives the four blocks back. *)
Definition shown (r : outcome (Z * memst * list (Z * Z) * list (Z * Z))) : option (Z * list chunk * list (Z * Z) * list (Z * Z)) :=
  match r with Ret (ret, s, taken, freed) => Some (ret, chunks s, taken, freed) | Undef => None end.

Theorem reserve_runs :
  let run sz := shown (@ihk_smp_reserve_mem huge_smp plain_rb 50 (four_blocks demo_mem) sz 1 4096 90 30 demo_mem) in
  run (2 ^ 23) = Some (0, chunks demo_mem ++ [mk_chunk 0x40000000 0x800000 1], [(0x40000000, 10); (0x40400000, 10)], []) /\
  run (5 * 2 ^ 22) = Some (- ENOMEM, chunks demo_mem, [(0x40000000, 10); (0x40400000, 10); (0x40800000, 10); (0x40c00000, 10)],
                           [(0x40000000, 10); (0x40400000, 10); (0x40800000, 10); (0x40c00000, 10)]).
Proof. vm_compute. split; reflexivity. Qed.
