(* ===== verification/LibMem.v ===== *)
(** * Memory in the user library (src/linux/user/ihklib.c)

    The functions that query, release and reserve memory through the device
    file.  A balanced reservation takes all memory that Linux gives, computes
    how much each NUMA node has to keep so that the nodes are about equal, and
    gives the rest back.  The device is an interface; the SMP driver
    implements it. *)

From stdpp Require Import base tactics numbers list gmap sorting.
From S2P Require Import Prelude SmpData SmpMem SmpRb SmpReserve SmpGrab.

Open Scope ihk_scope.

Definition IHK_MAX_NUM_NUMA_NODES : Z := 1024.
Definition IHK_MAX_NUM_MEM_CHUNKS : Z := 2048.
Definition IHKLIB_RESERVE_AMOUNT_ALIGN : Z := 2 ^ 20.

(** struct ihklib_reserve_mem_conf, and its default *)
Record ihklib_reserve_mem_conf : Type := mk_conf {
  balanced_enable : Z;
  balanced_best_effort : Z;
  balanced_variance_limit : Z;
  min_chunk_size : Z;
  max_size_ratio_all : Z;
  timeout : Z
}.
Definition reserve_mem_conf_default : ihklib_reserve_mem_conf := mk_conf 0 0 0 PAGE_SIZE 98 30.

(** enum ihk_reserve_mem_conf_keys, and numbers that are not one of them *)
Inductive conf_key : Type :=
| IHK_RESERVE_MEM_BALANCED_ENABLE
| IHK_RESERVE_MEM_BALANCED_BEST_EFFORT
| IHK_RESERVE_MEM_BALANCED_VARIANCE_LIMIT
| IHK_RESERVE_MEM_MIN_CHUNK_SIZE
| IHK_RESERVE_MEM_MAX_SIZE_RATIO_ALL
| IHK_RESERVE_MEM_TIMEOUT
| OtherKey.

(** ** The device

    [dv_access] and [dv_open] are the results of access and open on the device
    file, 0 or a descriptor, or -errno; [dv_errno] is errno before a call.  The
    others are ioctl requests, with what the driver returns. *)
Record mem_device (S : Type) : Type := mk_device {
  dv_access : Z;
  dv_open : Z;
  dv_errno : Z;
  dv_reserve : uptr ihk_mem_req -> S -> outcome (Z * S);
  dv_query : uptr ihk_mem_req -> S -> Z * mem_out;
  dv_release : uptr ihk_mem_req -> S -> outcome (Z * S);
  dv_release_partially : uptr ihk_mem_req -> S -> outcome (Z * S)
}.
Arguments dv_access {S} _.
Arguments dv_open {S} _.
Arguments dv_errno {S} _.
Arguments dv_reserve {S} _ _ _.
Arguments dv_query {S} _ _ _.
Arguments dv_release {S} _ _ _.
Arguments dv_release_partially {S} _ _ _.

(** A request in the memory of the library. *)
Definition request (sizes numas : uarr Z) (n : Z) : uptr ihk_mem_req := mk_uptr (mk_mem_req sizes numas n 0 0 0) true true.
Definition calloc (n : Z) : uarr Z := UArr true true (replicate (Z.to_nat n) 0).

Section library.
Context {S : Type} (D : mem_device S).

Definition ihklib_device_readable : Z := dv_access D.
Definition ihklib_device_open : Z := if negb (ihklib_device_readable =? 0) then ihklib_device_readable else dv_open D.

(** -errno after an ioctl whose result was not 0 *)
Definition neg_errno (ret : Z) : Z := if ret <? 0 then ret else - dv_errno D.

Definition ihk_reserve_mem_conf (key : conf_key) (value : option Z) (conf : ihklib_reserve_mem_conf) : Z * ihklib_reserve_mem_conf :=
  match value with
  | None => (- EFAULT, conf)
  | Some v =>
      if negb (ihklib_device_readable =? 0) then (ihklib_device_readable, conf) else
      let '(mk_conf en be va mi ra ti) := conf in
      match key with
      | IHK_RESERVE_MEM_BALANCED_ENABLE => (0, mk_conf v be va mi ra ti)
      | IHK_RESERVE_MEM_BALANCED_BEST_EFFORT => (0, mk_conf en v va mi ra ti)
      | IHK_RESERVE_MEM_BALANCED_VARIANCE_LIMIT => (0, mk_conf en be v mi ra ti)
      | IHK_RESERVE_MEM_MIN_CHUNK_SIZE => (0, mk_conf en be va v ra ti)
      | IHK_RESERVE_MEM_MAX_SIZE_RATIO_ALL =>
          if (v <=? 0) || (IHK_RESERVE_MEM_MAX_SIZE_RATIO_ALL_LIMIT <? v) then (- EINVAL, conf) else (0, mk_conf en be va mi v ti)
      | IHK_RESERVE_MEM_TIMEOUT => (0, mk_conf en be va mi ra v)
      | OtherKey => (- EINVAL, conf)
      end
  end.

Definition ihk_get_num_reserved_mem_chunks (s : S) : Z :=
  if ihklib_device_open <? 0 then ihklib_device_open else
  let '(ret, out) := dv_query D (request UNull UNull 0) s in
  if negb (ret =? 0) then neg_errno ret else default 0 (mo_num out).

(** ihk_query_mem: the result, and the chunks that are written when it is 0;
    [cal] tells which calls of calloc succeed. *)
Definition ihk_query_mem (cal : nat -> bool) (null : bool) (n : Z) (s : S) : Z * list (Z * Z) :=
  if negb (ihklib_device_readable =? 0) then (ihklib_device_readable, []) else
  if (n <? 0) || (IHK_MAX_NUM_MEM_CHUNKS <? n) then (- EINVAL, []) else
  if negb (n =? 0) && null then (- EFAULT, []) else
  let num := ihk_get_num_reserved_mem_chunks s in
  if num <? 0 then (num, []) else
  if negb (n =? num) then (- EINVAL, []) else
  if num =? 0 then (0, []) else
  if negb (cal 0%nat) then (- ENOMEM, []) else
  if negb (cal 1%nat) then (- ENOMEM, []) else
  if ihklib_device_open <? 0 then (ihklib_device_open, []) else
  let '(ret, out) := dv_query D (request (calloc num) (calloc num) num) s in
  if negb (ret =? 0) then (neg_errno ret, []) else
  let zeros := replicate (Z.to_nat num) 0 in
  (0, take (Z.to_nat num) (zip (default zeros (mo_sizes out)) (default zeros (mo_numas out)))).

(** ihk_release_mem; [chunks] is mem_chunks, [None] a null pointer. *)
Definition ihk_release_mem (cal : nat -> bool) (chunks : option (list (Z * Z))) (n : Z) (s : S) : outcome (Z * S) :=
  if negb (ihklib_device_readable =? 0) then Ret (ihklib_device_readable, s) else
  if (n <? 0) || (IHK_MAX_NUM_MEM_CHUNKS <? n) then Ret (- EINVAL, s) else
  if n =? 0 then Ret (0, s) else
  match chunks with
  | None => Ret (- EFAULT, s)
  | Some l =>
      first ← aget l 0;
      let rest (l : list (Z * Z)) (n : Z) : outcome (Z * S) :=
        if negb (cal 3%nat) then Ret (- ENOMEM, s) else
        if negb (cal 4%nat) then Ret (- ENOMEM, s) else
        if Z.of_nat (length l) <? n then Undef else
        if ihklib_device_open <? 0 then Ret (ihklib_device_open, s) else
        let l := take (Z.to_nat n) l in
        ' (ret, s) ← dv_release D (request (UArr true true (map fst l)) (UArr true true (map snd l)) n) s;
        Ret (if negb (ret =? 0) then neg_errno ret else 0, s) in
      if fst first =? IHK_SMP_MEM_ALL then
        let num := ihk_get_num_reserved_mem_chunks s in
        (* a negative number asks calloc for too much *)
        if (num <? 0) || negb (cal 0%nat) then Ret (- ENOMEM, s) else
        let '(ret, q) := ihk_query_mem (fun i => cal (1 + i)%nat) false num s in
        if negb (ret =? 0) then Ret (ret, s) else rest q num
      else rest l n
  end.
End library.

(** ** Balancing *)

(** A division of size_t; by 0 it traps. *)
Definition udiv (a b : Z) : outcome Z := if b =? 0 then Undef else Ret (a / b).

(** Rounding up to IHKLIB_RESERVE_AMOUNT_ALIGN *)
Definition round_amount (x : Z) : Z :=
  u64 (u64 (x + IHKLIB_RESERVE_AMOUNT_ALIGN - 1) / IHKLIB_RESERVE_AMOUNT_ALIGN * IHKLIB_RESERVE_AMOUNT_ALIGN).

(** The memory of each node, from the chunks of a query. *)
Fixpoint add_reserved (chunks : list (Z * Z)) (reserved : list Z) : outcome (list Z) :=
  match chunks with
  | [] => Ret reserved
  | (size, node) :: r =>
      old ← aget reserved node;
      reserved ← aset reserved node (u64 (old + size));
      add_reserved r reserved
  end.

(** The number of nodes that have memory, and their memory. *)
Definition count_nodes (reserved : list Z) : Z := Z.of_nat (length (filter (fun r => r <> 0) reserved)).
Definition sum_avail (reserved : list Z) : Z := foldl (fun a r => u64 (a + r)) 0 reserved.

(** The total to distribute; [None] when there is too little. *)
Definition trim_total (best_effort : Z) (nodes avail requested : Z) : outcome (option Z) :=
  let unit := u64 (nodes * IHKLIB_RESERVE_AMOUNT_ALIGN) in
  let trim (total : Z) : outcome (option Z) :=
    if negb (best_effort =? 0) then q ← udiv total unit; Ret (Some (u64 (q * unit))) else Ret (Some total) in
  if avail <? requested then
    if negb (best_effort =? 0) then trim avail else Ret None
  else trim requested.

(** Nodes above the average and their excess, and what the others miss *)
Definition first_pass (ave : Z) (reserved : list Z) : Z * Z * Z :=
  foldl (fun '(n, excess, missing) r =>
    if r =? 0 then (n, excess, missing) else
    if ave <? r then (n + 1, u64 (excess + u64 (r - ave)), missing) else (n, excess, u64 (missing + u64 (ave - r))))
    (0, 0, 0) reserved.

(** The same for the nodes that compensate *)
Definition second_pass (ave comp : Z) (reserved : list Z) : Z * Z :=
  foldl (fun '(n, missing) r =>
    if r <=? ave then (n, missing) else
    if u64 (ave + comp) <? r then (n + 1, missing) else (n, u64 (missing + u64 (u64 (ave + comp) - r))))
    (0, 0) reserved.

(** What each node releases down to [keep] *)
Definition release_size (keep r : Z) : Z := if keep <? r then u64 (r - keep) else 0.

(** The least and the largest memory of a node afterwards *)
Definition min_max (keep : Z) (reserved : list Z) : Z * Z :=
  foldl (fun '(mn, mx) r =>
    let left := u64 (r - release_size keep r) in
    (if (0 <? r) && (left <? mn) then left else mn, if (0 <? r) && (mx <? left) then left else mx))
    (2 ^ 64 - 1, 0) reserved.

(** The average, and what is kept above it: by every node above the average,
    and by every node above that.  [alloc]: whether the new request can be
    allocated. *)
Definition levels (alloc : bool) (best_effort requested : Z) (reserved : list Z) : outcome (option (Z * Z * Z)) :=
  let nodes := count_nodes reserved in
  total ← trim_total best_effort nodes (sum_avail reserved) requested;
  match total with
  | None => Ret None
  | Some total =>
      q ← udiv total nodes;
      let ave := round_amount q in
      let '(ncomp, excess, missing) := first_pass ave reserved in
      if excess <? missing then Ret None else
      if negb alloc then Ret None else
      q ← udiv missing ncomp;
      let comp := round_amount q in
      let '(nrel, missing2) := second_pass ave comp reserved in
      q ← udiv missing2 nrel;
      Ret (Some (ave, comp, round_amount q))
  end.

(** The middle of ihk_reserve_mem: the result, and the sizes to release *)
Definition balance (alloc : bool) (best_effort variance_limit requested : Z) (reserved : list Z) : outcome (Z * list Z) :=
  l ← levels alloc best_effort requested reserved;
  match l with
  | None => Ret (- ENOMEM, [])
  | Some (ave, comp, comp2) =>
      let keep := u64 (u64 (ave + comp) + comp2) in
      let '(mn, mx) := min_max keep reserved in
      let limit := u64 (ave * u64 variance_limit) / 100 in
      if (limit <? u64 (mx - ave)) || (limit <? u64 (ave - mn)) then Ret (- ENOMEM, [])
      else Ret (0, release_size keep <$> reserved)
  end.

Section reserving.
Context {S : Type} (D : mem_device S).

(** The part of ihk_reserve_mem after a balanced reservation: the result, and
    whether everything is to be released *)
Definition reserve_balanced (cal : nat -> bool) (conf : ihklib_reserve_mem_conf) (requested : Z) (s : S) : outcome (Z * bool * S) :=
  let num := ihk_get_num_reserved_mem_chunks D s in
  if (num <? 0) || negb (cal 2%nat) then Ret (- ENOMEM, true, s) else
  let '(ret, chunks) := ihk_query_mem D (fun i => cal (10 + i)%nat) false num s in
  if negb (ret =? 0) then Ret (- EINVAL, true, s) else
  if negb (cal 3%nat) then Ret (- ENOMEM, true, s) else
  reserved ← add_reserved chunks (replicate (Z.to_nat IHK_MAX_NUM_NUMA_NODES) 0);
  ' (ret, sizes) ← balance (cal 4%nat && cal 5%nat) (balanced_best_effort conf) (balanced_variance_limit conf) requested reserved;
  if negb (ret =? 0) then Ret (ret, true, s) else
  if ihklib_device_open D <? 0 then Ret (ihklib_device_open D, true, s) else
  ' (ret, s) ← dv_release_partially D
    (mk_uptr (mk_mem_req (UArr true true sizes) (UArr true true (seqZ 0 IHK_MAX_NUM_NUMA_NODES)) IHK_MAX_NUM_NUMA_NODES
       (min_chunk_size conf) (max_size_ratio_all conf) (timeout conf)) true true) s;
  if negb (ret =? 0) then Ret (neg_errno D ret, true, s) else Ret (0, false, s).

(** The body up to the label out, as built without WITH_KRM, which adds a test
    of the nodes against the cpuset of the calling process *)
Definition reserve_body (cal : nat -> bool) (conf : ihklib_reserve_mem_conf) (chunks : option (list (Z * Z))) (n : Z) (s : S) :
    outcome (Z * bool * S) :=
  if negb (ihklib_device_readable D =? 0) then Ret (ihklib_device_readable D, false, s) else
  if (n <? 0) || (IHK_MAX_NUM_MEM_CHUNKS <? n) then Ret (- EINVAL, false, s) else
  if n =? 0 then Ret (0, false, s) else
  match chunks with
  | None => Ret (- EFAULT, false, s)
  | Some l =>
      if negb (cal 0%nat) then Ret (- ENOMEM, false, s) else
      if negb (cal 1%nat) then Ret (- ENOMEM, false, s) else
      if Z.of_nat (length l) <? n then Undef else
      let l := take (Z.to_nat n) l in
      let balanced := negb (balanced_enable conf =? 0) in
      let sizes := if balanced then replicate (length l) IHK_SMP_MEM_ALL else map fst l in
      let requested := foldl (fun a c => u64 (a + fst c)) 0 l in
      if ihklib_device_open D <? 0 then Ret (ihklib_device_open D, false, s) else
      ' (ret, s) ← dv_reserve D
        (mk_uptr (mk_mem_req (UArr true true sizes) (UArr true true (map snd l)) n
           (min_chunk_size conf) (max_size_ratio_all conf) (timeout conf)) true true) s;
      if negb (ret =? 0) then Ret (neg_errno D ret, false, s) else
      if balanced then reserve_balanced cal conf requested s else Ret (0, false, s)
  end.

(** ihk_reserve_mem: the result, reserve_mem_conf afterwards, and the device *)
Definition ihk_reserve_mem (cal : nat -> bool) (conf : ihklib_reserve_mem_conf) (chunks : option (list (Z * Z))) (n : Z) (s : S) :
    outcome (Z * ihklib_reserve_mem_conf * S) :=
  ' (ret, release, s) ← reserve_body cal conf chunks n s;
  if (release : bool) then
    ' (_, s) ← ihk_release_mem D (fun i => cal (20 + i)%nat) (Some [(IHK_SMP_MEM_ALL, 0)]) 1 s;
    Ret (ret, reserve_mem_conf_default, s)
  else Ret (ret, reserve_mem_conf_default, s).
End reserving.

(** ** What a balanced reservation keeps *)

Definition sumf (f : Z -> Z) (l : list Z) : Z := foldr (fun r a => f r + a) 0 l.

(** Less than 2^50 bytes in whole pages, on at most 1024 nodes. *)
Record reserved_ok (l : list Z) : Prop := {
  ro_pages : Forall (fun r => 0 <= r /\ (PAGE_SIZE | r)) l;
  ro_sum : sumf id l < 2 ^ 50;
  ro_len : Z.of_nat (length l) <= IHK_MAX_NUM_NUMA_NODES
}.

Definition above (x r : Z) : Z := if x <? r then 1 else 0.
Definition over (x r : Z) : Z := if x <? r then r - x else 0.
Definition lack (x r : Z) : Z := if r =? 0 then 0 else if x <? r then 0 else x - r.
Definition lack2 (ave x r : Z) : Z := if r <=? ave then 0 else if x <? r then 0 else x - r.

Lemma sumf_cons f r l : sumf f (r :: l) = f r + sumf f l.
Proof. done. Qed.

Lemma sumf_ext f g l : Forall (fun r => f r = g r) l -> sumf f l = sumf g l.
Proof. induction 1 as [|r l E _ IH]; simpl; [done|]. by rewrite E, IH. Qed.

Lemma sumf_nonneg f l : Forall (fun r => 0 <= f r) l -> 0 <= sumf f l.
Proof. induction 1; simpl; lia. Qed.

Lemma sumf_le f g l : Forall (fun r => f r <= g r) l -> sumf f l <= sumf g l.
Proof. induction 1; simpl; lia. Qed.

Lemma sumf_add f g l : sumf (fun r => f r + g r) l = sumf f l + sumf g l.
Proof. induction l as [|r l IH]; simpl; lia. Qed.

Lemma sumf_const k l : sumf (fun _ => k) l = k * Z.of_nat (length l).
Proof. induction l as [|r l IH]; cbn [sumf foldr length] in *; [lia|]. unfold sumf in IH. lia. Qed.

(** Sums of terms that a loop adds up without wrapping. *)
Lemma foldl_sum {A} (f : A -> Z) (l : list A) a :
  Forall (fun r => 0 <= f r) l -> 0 <= a -> a + foldr (fun r x => f r + x) 0 l < 2 ^ 64 ->
  foldl (fun x r => u64 (x + f r)) a l = a + foldr (fun r x => f r + x) 0 l.
Proof.
  intros Hf. revert a. induction Hf as [|r l Hr Hf IH]; intros a Ha Hs; simpl in *; [lia|].
  assert (0 <= foldr (fun r x => f r + x) 0 l) as Hn by (clear -Hf; induction Hf; simpl; lia).
  rewrite u64_small by lia. rewrite IH; lia.
Qed.

Lemma passes_nonneg ave x l : 0 <= ave -> Forall (fun r => 0 <= r) l ->
  0 <= sumf (above x) l /\ 0 <= sumf (over x) l /\ 0 <= sumf (lack x) l /\ 0 <= sumf (lack2 ave x) l.
Proof.
  intros Ha Hl. split_and!; apply sumf_nonneg; (eapply Forall_impl; [exact Hl|]); intros r Hr;
    unfold above, over, lack, lack2; repeat case_match; lia.
Qed.

Lemma first_pass_spec ave l : 0 <= ave -> Forall (fun r => 0 <= r) l ->
  sumf (over ave) l < 2 ^ 64 -> sumf (lack ave) l < 2 ^ 64 ->
  first_pass ave l = (sumf (above ave) l, sumf (over ave) l, sumf (lack ave) l).
Proof.
  intros Ha Hl Ho Hm. unfold first_pass.
  assert (forall n e m, 0 <= e -> 0 <= m -> e + sumf (over ave) l < 2 ^ 64 -> m + sumf (lack ave) l < 2 ^ 64 ->
    foldl (fun '(n, excess, missing) r => if r =? 0 then (n, excess, missing) else
      if ave <? r then (n + 1, u64 (excess + u64 (r - ave)), missing) else (n, excess, u64 (missing + u64 (ave - r)))) (n, e, m) l =
    (n + sumf (above ave) l, e + sumf (over ave) l, m + sumf (lack ave) l)) as Hg; [|by rewrite Hg by lia].
  clear Ho Hm. induction Hl as [|r l Hr Hl IH]; intros n e m He Hm Ho Hmi; cbn [foldl sumf foldr] in *; [f_equal; [f_equal|]; lia|].
  fold (sumf (above ave) l) (sumf (over ave) l) (sumf (lack ave) l) in *. pose proof (passes_nonneg ave ave l Ha Hl) as (_ & H2 & H3 & _).
  unfold above at 1, over at 1, lack at 1. unfold over at 1 in Ho. unfold lack at 1 in Hmi.
  destruct (Z.eqb_spec r 0) as [->|Hr0].
  - rewrite (proj2 (Z.ltb_ge ave 0)) in * by lia. rewrite IH by lia. done.
  - destruct (Z.ltb_spec ave r); [rewrite (u64_small (r - ave)), u64_small by lia|rewrite (u64_small (ave - r)), u64_small by lia];
      rewrite IH by lia; f_equal; [f_equal|]; lia.
Qed.

Lemma second_pass_spec ave comp l : 0 <= ave -> 0 <= comp -> ave + comp < 2 ^ 64 -> Forall (fun r => 0 <= r) l ->
  sumf (lack2 ave (ave + comp)) l < 2 ^ 64 ->
  second_pass ave comp l = (sumf (above (ave + comp)) l, sumf (lack2 ave (ave + comp)) l).
Proof.
  intros Ha Hc Hac Hl Hm. unfold second_pass. rewrite (u64_small (ave + comp)) by lia. set (x := ave + comp) in *.
  assert (forall n m, 0 <= m -> m + sumf (lack2 ave x) l < 2 ^ 64 ->
    foldl (fun '(n, missing) r => if r <=? ave then (n, missing) else
      if x <? r then (n + 1, missing) else (n, u64 (missing + u64 (x - r)))) (n, m) l =
    (n + sumf (above x) l, m + sumf (lack2 ave x) l)) as Hg; [|by rewrite Hg by lia].
  clear Hm. induction Hl as [|r l Hr Hl IH]; intros n m Hm Hmi; cbn [foldl sumf foldr] in *; [f_equal; lia|].
  fold (sumf (above x) l) (sumf (lack2 ave x) l) in *. pose proof (passes_nonneg ave x l Ha Hl) as (_ & _ & _ & H3).
  unfold above at 1, lack2 at 1. unfold lack2 at 1 in Hmi.
  destruct (Z.leb_spec r ave).
  - rewrite (proj2 (Z.ltb_ge x r)) by lia. rewrite IH by lia. f_equal; lia.
  - destruct (Z.ltb_spec x r); [|rewrite (u64_small (x - r)), u64_small by lia]; rewrite IH by lia; f_equal; lia.
Qed.

(** Rounding up a quotient of pages loses nothing. *)
Lemma round_amount_spec x : 0 <= x < 2 ^ 62 -> x <= round_amount x < x + 2 ^ 20 /\ (2 ^ 20 | round_amount x).
Proof.
  intros Hx. unfold round_amount, IHKLIB_RESERVE_AMOUNT_ALIGN. rewrite (u64_small (x + 2 ^ 20 - 1)) by lia.
  pose proof (Z.div_mod (x + 2 ^ 20 - 1) (2 ^ 20) ltac:(lia)). pose proof (Z.mod_pos_bound (x + 2 ^ 20 - 1) (2 ^ 20) ltac:(lia)).
  rewrite u64_small by lia. split; [lia|]. by exists ((x + 2 ^ 20 - 1) / 2 ^ 20).
Qed.

Lemma round_quotient a n : 0 <= a < 2 ^ 62 -> 0 < n <= 2 ^ 12 -> (PAGE_SIZE | a) -> a <= round_amount (a / n) * n.
Proof.
  intros Ha Hn [k Hk]. destruct (round_amount_spec (a / n)) as [[H1 _] [m Hm]].
  { split; [apply Z.div_pos; lia|]. apply Z.div_lt_upper_bound; nia. }
  pose proof (Z.div_mod a n ltac:(lia)) as Hd. pose proof (Z.mod_pos_bound a n ltac:(lia)) as Hmo.
  unfold PAGE_SIZE in *. set (q := a / n) in *. set (R := round_amount q) in *.
  destruct (Z.eq_dec R q) as [E|]; [|nia]. rewrite E in Hm.
  (* q is whole mebibytes, so the remainder is whole pages below n *)
  assert (a mod n = 4096 * (k - m * 256 * n)) by nia. nia.
Qed.

(** An equal share of [a] for each of [n] nodes, rounded up. *)
Lemma share_spec a n : 0 <= a < 2 ^ 62 -> 0 < n <= 2 ^ 10 -> (PAGE_SIZE | a) ->
  0 <= round_amount (a / n) < a + 2 ^ 20 /\ a <= round_amount (a / n) * n /\ (2 ^ 20 | round_amount (a / n)).
Proof.
  intros Ha Hn Hp. pose proof (Z.div_pos a n ltac:(lia) ltac:(lia)). assert (a / n <= a) by (apply Z.div_le_upper_bound; nia).
  destruct (round_amount_spec (a / n)) as [H1 H2]; [lia|]. split_and!; [lia|lia| |done]. apply round_quotient; done || lia.
Qed.

Lemma sumf_divide k f l : Forall (fun r => (k | f r)) l -> (k | sumf f l).
Proof. induction 1; simpl; [apply Z.divide_0_r|by apply Z.divide_add_r]. Qed.

Lemma count_nodes_sum l : count_nodes l = sumf (fun r => if r =? 0 then 0 else 1) l.
Proof.
  unfold count_nodes. induction l as [|r l IH]; [done|]. cbn [sumf foldr]. fold (sumf (fun r => if r =? 0 then 0 else 1) l).
  rewrite filter_cons. destruct (Z.eqb_spec r 0) as [->|]; [rewrite decide_False by tauto|rewrite decide_True by done; cbn [length]]; lia.
Qed.

Section levels.
Context (l : list Z).
Hypothesis Hl : reserved_ok l.

Lemma reserved_nonneg : Forall (fun r => 0 <= r) l.
Proof using Hl. eapply Forall_impl; [apply (ro_pages _ Hl)|]. by intros r [Hr _]. Qed.

Lemma reserved_le r : r ∈ l -> 0 <= r <= sumf id l.
Proof using Hl.
  intros Hr. pose proof reserved_nonneg as Hn. clear Hl. induction Hn as [|x k Hx Hk IH]; [by apply not_elem_of_nil in Hr|].
  cbn [sumf foldr]. unfold id at 1. fold (sumf id k). pose proof (sumf_nonneg id k Hk).
  apply elem_of_cons in Hr as [->|Hr]; [lia|]. specialize (IH Hr). lia.
Qed.

Lemma nodes_bounds : 0 <= count_nodes l <= 2 ^ 10.
Proof using Hl.
  unfold count_nodes. pose proof (length_filter (fun r => r <> 0) l). pose proof (ro_len _ Hl). unfold IHK_MAX_NUM_NUMA_NODES in *. lia.
Qed.

Lemma sum_avail_eq : sum_avail l = sumf id l.
Proof using Hl.
  unfold sum_avail. pose proof (ro_sum _ Hl) as Hs. pose proof (sumf_nonneg id l reserved_nonneg).
  change (foldl (fun a r => u64 (a + r)) 0 l) with (foldl (fun a r => u64 (a + id r)) 0 l).
  rewrite foldl_sum; [done|exact reserved_nonneg|done|]. change (0 + sumf id l < 2 ^ 64). lia.
Qed.

(** What the passes add up stays small. *)
Lemma pass_bounds ave comp : 0 <= ave < 2 ^ 52 -> 0 <= comp < 2 ^ 51 ->
  sumf (over ave) l < 2 ^ 50 /\ sumf (lack ave) l < 2 ^ 62 /\ sumf (lack2 ave (ave + comp)) l <= 2 ^ 10 * comp /\
  0 <= sumf (above ave) l <= 2 ^ 10.
Proof using Hl.
  intros Ha Hc. pose proof (ro_len _ Hl) as Hlen. unfold IHK_MAX_NUM_NUMA_NODES in Hlen. pose proof reserved_nonneg as Hn.
  pose proof (ro_sum _ Hl) as Hs.
  assert (forall f k, 0 <= k -> (forall r, 0 <= r -> f r <= k) -> sumf f l <= 2 ^ 10 * k) as Hb.
  { intros f k Hk Hf. etrans; [apply (sumf_le f (fun _ => k)); eapply Forall_impl; [exact Hn|exact Hf]|]. rewrite sumf_const. nia. }
  split_and!.
  - eapply Z.le_lt_trans; [apply (sumf_le _ id)|exact Hs]. eapply Forall_impl; [exact Hn|]. intros r Hr. unfold over, id. cbv beta in Hr. destruct (Z.ltb_spec ave r); lia.
  - eapply Z.le_lt_trans; [apply (Hb _ ave); [lia|]|lia]. intros r Hr. unfold lack. repeat case_match; lia.
  - apply Hb; [lia|]. intros r Hr. unfold lack2. destruct (Z.leb_spec r ave); [lia|]. case_match; lia.
  - exact (proj1 (passes_nonneg 0 ave l ltac:(lia) Hn)).
  - etrans; [apply (Hb _ 1); [lia|]|lia]. intros r Hr. unfold above. case_match; lia.
Qed.

Lemma trim_total_spec be req total : 0 <= req ->
  trim_total be (count_nodes l) (sumf id l) req = Ret (Some total) ->
  0 <= total <= sumf id l /\ total <= req /\
  (be = 0 -> total = req) /\
  (be <> 0 -> 0 < count_nodes l /\ (count_nodes l * 2 ^ 20 | total) /\ Z.min req (sumf id l) < total + count_nodes l * 2 ^ 20).
Proof using Hl.
  intros Hreq. unfold trim_total, IHKLIB_RESERVE_AMOUNT_ALIGN. pose proof nodes_bounds as Hn. pose proof (ro_sum _ Hl) as Hs.
  pose proof (sumf_nonneg id l reserved_nonneg) as H0. rewrite (u64_small (count_nodes l * 2 ^ 20)) by lia.
  assert (forall x, 0 <= x <= sumf id l -> x <= req -> x = req \/ be <> 0 -> Z.min req (sumf id l) <= x ->
    (if negb (be =? 0) then q ← udiv x (count_nodes l * 2 ^ 20); Ret (Some (u64 (q * (count_nodes l * 2 ^ 20)))) else Ret (Some x)) = Ret (Some total) ->
    0 <= total <= sumf id l /\ total <= req /\ (be = 0 -> total = req) /\
    (be <> 0 -> 0 < count_nodes l /\ (count_nodes l * 2 ^ 20 | total) /\ Z.min req (sumf id l) < total + count_nodes l * 2 ^ 20)) as Ht.
  { intros x Hx Hxr Hor Hm. destruct (Z.eqb_spec be 0) as [E|E]; cbn [negb].
    - intros [= <-]. destruct Hor; [|done]. split_and!; done || lia.
    - unfold udiv. destruct (Z.eqb_spec (count_nodes l * 2 ^ 20) 0) as [|Hne]; [done|]. cbn [mbind outcome_bind].
      pose proof (Z.div_mod x (count_nodes l * 2 ^ 20) Hne). pose proof (Z.mod_pos_bound x (count_nodes l * 2 ^ 20) ltac:(lia)).
      pose proof (Z.div_pos x (count_nodes l * 2 ^ 20) ltac:(lia) ltac:(lia)).
      set (q := x / (count_nodes l * 2 ^ 20)) in *. assert (q * (count_nodes l * 2 ^ 20) = x - x mod (count_nodes l * 2 ^ 20)) as Eq by lia.
      rewrite Eq, u64_small by lia. intros [= <-]. split_and!; try lia. intros _. split_and!; try lia.
      exists q. lia. }
  destruct (Z.ltb_spec (sumf id l) req) as [Hlt|Hge].
  - destruct (be =? 0) eqn:Eb; cbn [negb]; [done|]. intros Hr. apply (Ht (sumf id l)); try lia.
    exact Hr.
  - apply Ht; lia || auto.
Qed.

(** The levels are high enough for what the nodes below them lack. *)
Record level_ok (be req ave comp comp2 : Z) : Prop := {
  lv_nodes : 0 < count_nodes l;
  lv_ave : 0 <= ave < 2 ^ 51;
  lv_comp : 0 <= comp < 2 ^ 51 /\ sumf (lack ave) l <= comp * sumf (above ave) l;
  lv_comp2 : 0 <= comp2 < 2 ^ 62 /\ sumf (lack2 ave (ave + comp)) l <= comp2 * sumf (above (ave + comp)) l;
  lv_total : Z.min req (sumf id l) < ave * count_nodes l + (if be =? 0 then 1 else count_nodes l * 2 ^ 20)
}.

Lemma total_page be req total : (PAGE_SIZE | req) -> 0 <= req ->
  trim_total be (count_nodes l) (sumf id l) req = Ret (Some total) -> (PAGE_SIZE | total).
Proof using Hl.
  intros Hp Hreq E. destruct (trim_total_spec be req total Hreq E) as (_ & _ & H1 & H2). destruct (Z.eq_dec be 0) as [E0|E0].
  - by rewrite H1.
  - destruct (H2 E0) as (_ & [k ->] & _). exists (k * count_nodes l * 256). unfold PAGE_SIZE. lia.
Qed.

Lemma sums_pages ave x : (2 ^ 20 | ave) -> (2 ^ 20 | x) -> (PAGE_SIZE | sumf (lack ave) l) /\ (PAGE_SIZE | sumf (lack2 ave x) l).
Proof using Hl.
  intros [a ->] [b ->]. split; apply sumf_divide; (eapply Forall_impl; [apply (ro_pages _ Hl)|]); intros r [_ [k ->]]; unfold lack, lack2;
    repeat case_match; try apply Z.divide_0_r; [exists (a * 256 - k)|exists (b * 256 - k)]; unfold PAGE_SIZE; lia.
Qed.

Lemma levels_ok alloc be req ave comp comp2 : 0 <= req -> (PAGE_SIZE | req) ->
  levels alloc be req l = Ret (Some (ave, comp, comp2)) -> level_ok be req ave comp comp2.
Proof using Hl.
  intros Hreq Hpage. unfold levels. rewrite sum_avail_eq. pose proof nodes_bounds as Hn. pose proof (ro_sum _ Hl) as Hs.
  pose proof reserved_nonneg as Hnn. destruct (trim_total _ _ _ _) as [[total|]|] eqn:Et; [|done..]. cbn [mbind outcome_bind].
  destruct (trim_total_spec be req total Hreq Et) as (Ht1 & Ht2 & Ht3 & Ht4).
  unfold udiv. destruct (Z.eqb_spec (count_nodes l) 0) as [|Hn0]; [done|]. cbn [mbind outcome_bind].
  destruct (share_spec total (count_nodes l)) as (Ha1 & Ha2 & Ha3); [lia|lia|by eapply total_page|].
  set (a := round_amount (total / count_nodes l)) in *.
  destruct (pass_bounds a 0) as (B1 & B2 & _ & B4); [lia|lia|]. rewrite first_pass_spec by (done || lia).
  destruct (Z.ltb_spec (sumf (over a) l) (sumf (lack a) l)) as [|Hme]; [done|]. destruct alloc; cbn [negb]; [|done].
  destruct (Z.eqb_spec (sumf (above a) l) 0) as [|Hnc]; [done|]. cbn [mbind outcome_bind].
  pose proof (passes_nonneg a a l ltac:(lia) Hnn) as (_ & _ & Hm0 & _).
  destruct (share_spec (sumf (lack a) l) (sumf (above a) l)) as (Hc1 & Hc2 & Hc3); [lia|lia|by apply (sums_pages a a)|].
  set (c := round_amount (sumf (lack a) l / sumf (above a) l)) in *.
  destruct (pass_bounds a c) as (_ & _ & B3 & _); [lia|lia|]. destruct (pass_bounds (a + c) 0) as (_ & _ & _ & B5); [lia|lia|].
  rewrite second_pass_spec by (done || lia).
  destruct (Z.eqb_spec (sumf (above (a + c)) l) 0) as [|Hnr]; [done|]. cbn [mbind outcome_bind].
  pose proof (passes_nonneg a (a + c) l ltac:(lia) Hnn) as (_ & _ & _ & Hm2).
  destruct (share_spec (sumf (lack2 a (a + c)) l) (sumf (above (a + c)) l)) as (Hd1 & Hd2 & _);
    [lia|lia|by apply (sums_pages a (a + c)); [|apply Z.divide_add_r]|].
  intros [= <- <- <-]. constructor; try lia; [split; lia..|]. destruct (Z.eqb_spec be 0) as [E|E]; [rewrite (Ht3 E) in *; lia|].
  destruct (Ht4 E) as (_ & _ & Ht5). lia.
Qed.
End levels.

Lemma release_size_over keep r : 0 <= keep -> 0 <= r < 2 ^ 64 -> release_size keep r = over keep r /\ r - over keep r = Z.min r keep.
Proof. intros Hk Hr. unfold release_size, over. destruct (Z.ltb_spec keep r); [rewrite u64_small by lia|]; lia. Qed.

Lemma min_max_spec keep l : 0 <= keep -> Forall (fun r => 0 <= r < 2 ^ 64) l ->
  let '(mn, mx) := min_max keep l in
  0 <= mn < 2 ^ 64 /\ 0 <= mx < 2 ^ 64 /\ Forall (fun r => 0 < r -> mn <= Z.min r keep <= mx) l.
Proof.
  intros Hk Hl. unfold min_max. set (f := fun '(mn, mx) r => _).
  assert (forall mn mx, 0 <= mn < 2 ^ 64 -> 0 <= mx < 2 ^ 64 -> exists mn' mx', foldl f (mn, mx) l = (mn', mx') /\
    0 <= mn' <= mn /\ mx <= mx' < 2 ^ 64 /\ Forall (fun r => 0 < r -> mn' <= Z.min r keep <= mx') l) as Hg.
  2:{ destruct (Hg (2 ^ 64 - 1) 0) as (mn & mx & -> & H1 & H2 & H3); [lia|lia|]. split_and!; done || lia. }
  induction Hl as [|r l Hr Hl IH]; intros mn mx Hmn Hmx; cbn [foldl]; [exists mn, mx; split_and!; [done|lia..|constructor]|].
  destruct (release_size_over keep r Hk Hr) as [E1 E2].
  assert (exists mn' mx', f (mn, mx) r = (mn', mx') /\ 0 <= mn' <= mn /\ mx <= mx' < 2 ^ 64 /\ (0 < r -> mn' <= Z.min r keep <= mx')) as (mn' & mx' & -> & H1 & H2 & H3).
  { unfold f. rewrite E1, E2, u64_small by lia. eexists _, _. split; [reflexivity|].
    destruct (Z.ltb_spec 0 r), (Z.ltb_spec (Z.min r keep) mn), (Z.ltb_spec mx (Z.min r keep)); cbn [andb]; lia. }
  destruct (IH mn' mx') as (mn2 & mx2 & -> & I1 & I2 & I3); [lia|lia|]. exists mn2, mx2. split_and!; [done|lia..|]. constructor; [lia|done].
Qed.

(** What is lost when a node lies between the two upper levels. *)
Definition loss (low keep r : Z) : Z := if (low <? r) && (r <? keep) then keep - r else 0.

(** The memory of a node afterwards, by its level. *)
Lemma kept_level ave comp comp2 r : 0 <= ave -> 0 <= comp -> 0 <= comp2 -> 0 <= r ->
  let keep := ave + comp + comp2 in
  (if r =? 0 then 0 else ave) + comp * above ave r + comp2 * above (ave + comp) r =
  Z.min r keep + lack ave r + lack2 ave (ave + comp) r + loss (ave + comp) keep r.
Proof.
  intros Ha Hc Hd Hr keep. unfold above, lack, lack2, loss, keep.
  destruct (Z.eqb_spec r 0), (Z.ltb_spec ave r), (Z.ltb_spec (ave + comp) r), (Z.leb_spec r ave), (Z.ltb_spec r (ave + comp + comp2)); cbn [andb]; lia.
Qed.

Lemma kept_sum l ave comp comp2 : Forall (fun r => 0 <= r) l -> 0 <= ave -> 0 <= comp -> 0 <= comp2 ->
  let keep := ave + comp + comp2 in
  ave * count_nodes l + comp * sumf (above ave) l + comp2 * sumf (above (ave + comp)) l =
  sumf (fun r => Z.min r keep) l + sumf (lack ave) l + sumf (lack2 ave (ave + comp)) l + sumf (loss (ave + comp) keep) l.
Proof.
  intros Hl Ha Hc Hd keep. rewrite count_nodes_sum. induction Hl as [|r l Hr Hl IH]; [cbn; lia|].
  pose proof (kept_level ave comp comp2 r Ha Hc Hd Hr) as Hk. cbv zeta in Hk. fold keep in Hk. rewrite !sumf_cons.
  destruct (r =? 0); lia.
Qed.

Lemma sumf_sizes keep l : 0 <= keep -> Forall (fun r => 0 <= r < 2 ^ 64) l ->
  sumf id l - sumf id (release_size keep <$> l) = sumf (fun r => Z.min r keep) l.
Proof.
  intros Hk. induction 1 as [|r l Hr Hl IH]; [done|]. rewrite fmap_cons, !sumf_cons.
  destruct (release_size_over keep r Hk Hr). unfold id at 1 3. lia.
Qed.

(** The unsigned comparisons with the limit fail for amounts on the wrong side
    of the average. *)
Lemma within_limit ave var mn mx : 0 <= ave < 2 ^ 51 -> 0 <= var <= 100 -> 0 <= mn < 2 ^ 64 -> 0 <= mx < 2 ^ 64 ->
  u64 (mx - ave) <= ave * var / 100 -> u64 (ave - mn) <= ave * var / 100 ->
  ave <= mx <= ave + ave * var / 100 /\ ave - ave * var / 100 <= mn <= ave.
Proof.
  intros Ha Hv Hmn Hmx H1 H2. assert (ave * var / 100 <= ave) as Hl by (apply Z.div_le_upper_bound; nia).
  assert (forall x, - 2 ^ 64 < x < 2 ^ 64 -> x = u64 x \/ u64 x = x + 2 ^ 64 /\ x < 0) as Hu.
  { intros x Hx. destruct (Z.lt_ge_cases x 0); [right|left; by rewrite u64_small by lia]. split; [|done].
    unfold u64. symmetry. apply (Z.mod_unique _ _ (-1)); lia. }
  pose proof (u64_range (mx - ave)). pose proof (u64_range (ave - mn)). destruct (Hu (mx - ave)) as [E|[E _]], (Hu (ave - mn)) as [E'|[E' _]]; lia.
Qed.

(** C21: a balanced reservation that succeeds has an average of
    at least the requested memory over the nodes; each node keeps an amount that
    differs from it by at most the variance limit, a node at or below the level
    of the nodes that compensate releases nothing, and no node releases more
    than it has.  Altogether the nodes keep what was requested (what there is,
    rounded down to a mebibyte for each node, for a best effort) except for
    what nodes between the two upper levels are short of. *)
Theorem balance_correct alloc be var req l sizes :
  reserved_ok l -> 0 <= req -> (PAGE_SIZE | req) -> 0 <= var <= 100 ->
  balance alloc be var req l = Ret (0, sizes) ->
  exists ave comp comp2, levels alloc be req l = Ret (Some (ave, comp, comp2)) /\ length sizes = length l /\
    (forall i r z, l !! i = Some r -> sizes !! i = Some z ->
       0 <= z <= r /\ (r <= ave + comp -> z = 0) /\ (0 < r -> Z.abs (r - z - ave) <= ave * var / 100)) /\
    Z.min req (sumf id l) <= (sumf id l - sumf id sizes) + sumf (loss (ave + comp) (ave + comp + comp2)) l +
                             (if be =? 0 then 0 else count_nodes l * 2 ^ 20).
Proof.
  intros Hl Hreq Hp Hvar. unfold balance. destruct (levels alloc be req l) as [[[[ave comp] comp2]|]|] eqn:E; [|done..].
  pose proof (levels_ok l Hl _ _ _ _ _ _ Hreq Hp E) as [Hn Ha [Hc Hc1] [Hd Hd1] Ht]. cbn [mbind outcome_bind].
  rewrite (u64_small (ave + comp)), (u64_small (ave + comp + comp2)) by lia. set (keep := ave + comp + comp2).
  rewrite (u64_small var), (u64_small (ave * var)) by nia.
  assert (Forall (fun r => 0 <= r < 2 ^ 64) l) as Hr.
  { apply Forall_forall. intros r Hin. pose proof (reserved_le l Hl r Hin). pose proof (ro_sum _ Hl). lia. }
  pose proof (min_max_spec keep l ltac:(lia) Hr) as Hmm. pose proof (kept_sum l ave comp comp2 (reserved_nonneg l Hl) ltac:(lia) ltac:(lia) ltac:(lia)) as Hk.
  cbv zeta in Hk. fold keep in Hk. destruct (min_max keep l) as [mn mx]. destruct Hmm as (Hmn0 & Hmx0 & Hmm).
  destruct (Z.ltb_spec (ave * var / 100) (u64 (mx - ave))) as [|Hmx]; [done|].
  destruct (Z.ltb_spec (ave * var / 100) (u64 (ave - mn))) as [|Hmn]; [done|]. intros [= <-].
  exists ave, comp, comp2. split; [done|]. split; [by rewrite length_fmap|]. fold keep. split.
  - intros i r z Hi Hz. rewrite list_lookup_fmap, Hi in Hz. injection Hz as <-.
    apply list_elem_of_lookup_2 in Hi. rewrite Forall_forall in Hr, Hmm. specialize (Hr r Hi). specialize (Hmm r Hi).
    destruct (release_size_over keep r ltac:(lia) Hr) as [-> Emin]. pose proof (within_limit ave var mn mx ltac:(lia) Hvar Hmn0 Hmx0 Hmx Hmn) as Hlim.
    unfold over in *. split_and!; [destruct (Z.ltb_spec keep r); lia..|].
    intros Hr0. specialize (Hmm Hr0). destruct (Z.ltb_spec keep r); lia.
  - rewrite (sumf_sizes keep l) by (lia || done). destruct (be =? 0); lia.
Qed.

(** Five nodes, one of them without memory. *)
Definition mib (n : Z) : Z := n * 2 ^ 20.
Definition demo_nodes : list Z := [mib 110; mib 120; 0; mib 90; mib 200].
Definition demo_sizes : list Z := [mib 6; mib 16; 0; 0; mib 96].

Lemma demo_nodes_ok : reserved_ok demo_nodes.
Proof.
  constructor; [|by vm_compute|done]. unfold demo_nodes, mib.
  repeat constructor; try lia; [exists (110 * 256)|exists (120 * 256)|exists 0|exists (90 * 256)|exists (200 * 256)]; done.
Qed.

Lemma balance_correct_witness :
  exists ave comp comp2, levels true 0 (mib 400) demo_nodes = Ret (Some (ave, comp, comp2)) /\ length demo_sizes = length demo_nodes /\
    (forall i r z, demo_nodes !! i = Some r -> demo_sizes !! i = Some z ->
       0 <= z <= r /\ (r <= ave + comp -> z = 0) /\ (0 < r -> Z.abs (r - z - ave) <= ave * 20 / 100)) /\
    Z.min (mib 400) (sumf id demo_nodes) <=
      (sumf id demo_nodes - sumf id demo_sizes) + sumf (loss (ave + comp) (ave + comp + comp2)) demo_nodes + 0.
Proof.
  apply (balance_correct true 0 20 (mib 400) demo_nodes demo_sizes demo_nodes_ok); [by vm_compute|exists (400 * 256); done|lia|by vm_compute].
Defined.

(** Nodes between the two upper levels are not made up for: the reservation
    succeeds with 496 MiB where 500 MiB were requested and 581 MiB available. *)
Theorem balance_keeps_less :
  let l := [mib 70; mib 101; mib 101; mib 109; mib 200] in
  exists sizes, balance true 0 30 (mib 500) l = Ret (0, sizes) /\
    sumf id l = mib 581 /\ sumf id l - sumf id sizes = mib 496.
Proof. exists [0; 0; 0; 0; mib 85]. by vm_compute. Qed.

(** C40: when all nodes that have memory have the same whole
    number of mebibytes, and as much is requested as they have together (or
    more, with best effort), no node is above the average, and the library
    divides by the number of such nodes. *)
Theorem balance_even_traps be var req v l :
  reserved_ok l -> 0 < v -> (2 ^ 20 | v) -> 0 < count_nodes l -> Forall (fun r => r = 0 \/ r = v) l ->
  req = v * count_nodes l \/ be <> 0 /\ v * count_nodes l <= req ->
  balance true be var req l = Undef.
Proof.
  intros Hl Hv [k Hk] Hn Hall Hreq. unfold balance, levels. rewrite (sum_avail_eq l Hl). pose proof (nodes_bounds l Hl) as Hnb.
  pose proof (ro_sum _ Hl) as Hs. assert (sumf id l = v * count_nodes l) as Es.
  { rewrite count_nodes_sum. clear -Hall Hv. induction Hall as [|r l Hr _ IH]; [cbn; lia|]. rewrite !sumf_cons.
    unfold id at 1. destruct Hr as [-> | ->]; [|rewrite (proj2 (Z.eqb_neq v 0)) by lia]; cbn [Z.eqb]; lia. }
  assert (trim_total be (count_nodes l) (sumf id l) req = Ret (Some (v * count_nodes l))) as ->.
  { unfold trim_total, udiv, IHKLIB_RESERVE_AMOUNT_ALIGN. rewrite Es, (u64_small (count_nodes l * 2 ^ 20)) by lia.
    rewrite (proj2 (Z.eqb_neq (count_nodes l * 2 ^ 20) 0)) by lia.
    assert (v * count_nodes l / (count_nodes l * 2 ^ 20) = k) as Eq by (symmetry; rewrite Hk; apply Z.div_unique_exact; lia).
    destruct Hreq as [->|[Hbe Hge]].
    - rewrite Z.ltb_irrefl. destruct (be =? 0); cbn [negb]; [done|]. cbn [mbind outcome_bind]. rewrite Eq, u64_small by lia. do 2 f_equal. lia.
    - rewrite (proj2 (Z.eqb_neq be 0)) by done. cbn [negb mbind outcome_bind]. destruct (Z.ltb_spec (v * count_nodes l) req).
      + rewrite Eq, u64_small by lia. do 2 f_equal. lia.
      + replace req with (v * count_nodes l) by lia. rewrite Eq, u64_small by lia. do 2 f_equal. lia. }
  assert (udiv (v * count_nodes l) (count_nodes l) = Ret v) as E1.
  { unfold udiv. by rewrite (proj2 (Z.eqb_neq (count_nodes l) 0)), Z.div_mul by lia. }
  cbn [mbind outcome_bind]. rewrite E1. cbn [mbind outcome_bind].
  assert (round_amount v = v) as ->.
  { unfold round_amount, IHKLIB_RESERVE_AMOUNT_ALIGN. rewrite (u64_small (v + 2 ^ 20 - 1)) by nia.
    replace ((v + 2 ^ 20 - 1) / 2 ^ 20) with k by (apply (Z.div_unique _ _ _ (2 ^ 20 - 1)); lia). rewrite <- Hk. apply u64_small. nia. }
  assert (first_pass v l = (0, 0, 0)) as ->; [|done].
  unfold first_pass. clear -Hall Hv. induction Hall as [|r l Hr _ IH]; [done|]. cbn [foldl].
  destruct Hr as [-> | ->]; [done|]. rewrite (proj2 (Z.eqb_neq v 0)), Z.ltb_irrefl, Z.sub_diag by lia. exact IH.
Qed.

Lemma balance_even_traps_witness : balance true 1 20 (mib 9000) [mib 4096; 0; mib 4096] = Undef.
Proof.
  apply (balance_even_traps 1 20 (mib 9000) (mib 4096)); [|by vm_compute|exists 4096; done|by vm_compute| |].
  - constructor; [|by vm_compute|done]. unfold mib. repeat constructor; try lia; [exists (4096 * 256)|exists 0|exists (4096 * 256)]; done.
  - constructor; [by right|]. constructor; [by left|]. constructor; [by right|constructor].
  - right. by vm_compute.
Defined.

(** One node that makes up for the others exactly: then no node is above the
    upper level, which is divided by as well. *)
Theorem balance_exact_traps : balance true 0 30 (mib 200) [mib 110; mib 90] = Undef.
Proof. by vm_compute. Qed.

(** ** The SMP driver as the device *)

Definition smp_device `{SmpEnv} `{RbTree} (access open errno : Z) (fuel : nat) (linux : nat -> memst -> linux_pages) (km : nat -> bool) :
    mem_device memst := {|
  dv_access := access;
  dv_open := open;
  dv_errno := errno;
  dv_reserve := smp_ihk_reserve_mem fuel linux km;
  dv_query := smp_ihk_query_mem km;
  dv_release := fun arg s => ' (ret, _, s) ← smp_ihk_release_mem km arg s; Ret (ret, s);
  dv_release_partially := fun arg s => ' (ret, _, s) ← smp_ihk_release_mem_partially km arg s; Ret (ret, s)
|}.

(** What a query reports. *)
Definition reported (s : memst) : list (Z * Z) := map (fun c => (ch_size c, ch_numa c)) (chunks s).

Lemma find_free_some h sz n l : (exists p, p ∈ l /\ ch_size (h p) = sz /\ ch_numa (h p) = n) ->
  exists p, find_free h sz n l = Some p /\ p ∈ l /\ ch_size (h p) = sz /\ ch_numa (h p) = n.
Proof.
  induction l as [|q l IH]; intros (p & Hp & H1 & H2); [by apply not_elem_of_nil in Hp|]. cbn [find_free].
  destruct (Z.eqb_spec (ch_size (h q)) sz), (Z.eqb_spec (ch_numa (h q)) n); cbn [andb]; [exists q; split_and!; [done|left|done..]|..].
  all: destruct IH as (p' & E & Hp' & Hs' & Hn'); [exists p; split_and!; [|done..]; apply elem_of_cons in Hp as [->|]; [congruence|done]|].
  all: exists p'; split_and!; [done|by right|done..].
Qed.

Section smp.
Context `{SmpEnv} `{HR : RbTreeOk}.
Hypothesis Horders : orders_ok.

Lemma release_dev_all reqs : forall s, mem_ok s -> reqs ≡ₚ reported s ->
  exists l s', release_dev reqs s = Ret (0, l, s') /\ mem_ok s' /\ free_chunks s' = [] /\ used_chunks s' = used_chunks s.
Proof using Horders.
  induction reqs as [|[sz n] reqs IH]; intros s Hs Hp; cbn [release_dev].
  { exists [], s. split_and!; try done. apply Permutation_nil_l in Hp. unfold reported, chunks in Hp.
    destruct (free_chunks s); [done|]. done. }
  assert (exists p, p ∈ free_chunks s /\ ch_size (hdr s p) = sz /\ ch_numa (hdr s p) = n) as He.
  { assert ((sz, n) ∈ reported s) as Hin by (rewrite <- Hp; left). unfold reported, chunks in Hin.
    apply list_elem_of_fmap in Hin as (c & Ec & Hc). apply list_elem_of_fmap in Hc as (p & -> & Hin). exists p. by injection Ec as -> ->. }
  destruct (find_free_some (hdr s) sz n (free_chunks s) He) as (p & E & Hin & E1 & E2). unfold ihk_smp_release_mem. rewrite E.
  pose proof Hs as [Hh Hg]. assert (ch_valid (hdr s p)) as Hv by (by apply (free_valid s p _ Hg)).
  destruct (release_chunk_ok Horders (hdr s p) Hv) as (l & -> & _). cbn [mbind outcome_bind].
  pose proof (list_del_chunks s p Hh Hin) as Hd.
  destruct (IH (list_del s p)) as (l' & s' & -> & Hs' & Hf & Hu).
  - split; [by apply list_del_ok|]. unfold all_mem in *. rewrite Hd in Hg. by apply (good_app_r [hdr s p]).
  - unfold reported in Hp. rewrite Hd in Hp. cbn [map] in Hp. rewrite E1, E2 in Hp. by apply Permutation_cons_inv in Hp.
  - cbn. eauto 10.
Qed.

(** A device that can be used, and allocations that succeed. *)
Context (access open errno : Z) (fuel : nat) (linux : nat -> memst -> linux_pages) (km : nat -> bool).
Hypothesis Haccess : access = 0.
Hypothesis Hopen : 0 <= open.
Hypothesis Hkm : forall i, km i = true.
Abbreviation dev := (smp_device access open errno fuel linux km).

Lemma dev_open : (ihklib_device_open dev <? 0) = false.
Proof using Haccess Hopen. apply Z.ltb_ge. unfold ihklib_device_open, ihklib_device_readable. cbn. by rewrite Haccess. Qed.

Lemma smp_num_chunks s : ihk_get_num_reserved_mem_chunks dev s = Z.of_nat (length (free_chunks s)).
Proof using Haccess Hopen.
  unfold ihk_get_num_reserved_mem_chunks. rewrite dev_open. cbn -[Z.of_nat]. by rewrite length_map.
Qed.

Lemma copy_calloc k n : (k <= n)%nat -> copy_to_user (calloc (Z.of_nat n)) (Z.of_nat k) = true.
Proof.
  intros Hk. unfold copy_to_user, calloc. destruct (_ =? 0); [done|]. rewrite Nat2Z.id, length_replicate. apply Z.leb_le. lia.
Qed.

Lemma zip_reported s : zip (map ch_size (map (hdr s) (free_chunks s))) (map ch_numa (map (hdr s) (free_chunks s))) = reported s.
Proof. unfold reported, chunks. induction (free_chunks s) as [|p l IH]; [done|]. cbn. f_equal. exact IH. Qed.

Lemma smp_query cal s : (forall i, cal i = true) -> Z.of_nat (length (free_chunks s)) <= IHK_MAX_NUM_MEM_CHUNKS ->
  forall n, 0 <= n <= IHK_MAX_NUM_MEM_CHUNKS ->
  ihk_query_mem dev cal false n s =
    if n =? Z.of_nat (length (free_chunks s)) then (0, reported s) else (- EINVAL, []).
Proof using Haccess Hopen Hkm.
  intros Hcal Hlen n Hn. unfold ihk_query_mem. rewrite smp_num_chunks, dev_open, !Hcal. unfold ihklib_device_readable.
  cbn [dv_access smp_device]. rewrite Haccess. cbn [Z.eqb negb andb]. rewrite andb_false_r.
  rewrite (proj2 (Z.ltb_ge n 0)), (proj2 (Z.ltb_ge _ n)), (proj2 (Z.ltb_ge (Z.of_nat _) 0)) by lia. cbn [orb].
  destruct (Z.eqb_spec n (Z.of_nat (length (free_chunks s)))) as [->|]; cbn [negb]; [|done].
  destruct (free_chunks s) as [|p l] eqn:El; [cbn; unfold reported, chunks; by rewrite El|].
  set (k := length (p :: l)). rewrite (proj2 (Z.eqb_neq (Z.of_nat k) 0)) by (unfold k; cbn [length]; lia).
  cbn [dv_query smp_device]. unfold smp_ihk_query_mem, copy_out. cbn [request up_read up_val up_write negb mr_num mr_sizes mr_numa_ids].
  rewrite !Hkm. cbn [negb]. rewrite El. rewrite !length_map. fold k.
  rewrite (proj2 (Z.eqb_neq (Z.of_nat k) 0)) by (unfold k; cbn [length]; lia).
  rewrite !copy_calloc by lia. unfold validate_mem_req. cbn -[k Z.of_nat].
  rewrite (proj2 (Z.ltb_ge (Z.of_nat k) 0)) by lia. cbn -[k Z.of_nat]. rewrite andb_false_r. cbn -[k Z.of_nat].
  pose proof (zip_reported s) as Hz. rewrite El in Hz. cbn [map] in Hz. cbn [zip zip_with] in Hz |- *. f_equal. rewrite Hz.
  apply take_ge. unfold reported, chunks. rewrite !length_map, El. fold k. lia.
Qed.

Lemma smp_release_all cal s : mem_ok s -> (forall i, cal i = true) ->
  exists ret s', ihk_release_mem dev cal (Some [(IHK_SMP_MEM_ALL, 0)]) 1 s = Ret (ret, s') /\
    if Z.of_nat (length (free_chunks s)) <=? IHK_MAX_NUM_MEM_CHUNKS
    then ret = 0 /\ mem_ok s' /\ free_chunks s' = [] /\ used_chunks s' = used_chunks s
    else ret = - EINVAL /\ s' = s.
Proof using Horders Haccess Hopen Hkm.
  intros Hs Hcal. unfold ihk_release_mem. rewrite dev_open, smp_num_chunks, !Hcal.
  change (ihklib_device_readable dev) with access. rewrite (proj2 (Z.eqb_eq access 0) Haccess).
  cbn [Z.eqb negb]. change ((1 <? 0) || (IHK_MAX_NUM_MEM_CHUNKS <? 1)) with false. cbn [Z.eqb negb].
  change (aget [(IHK_SMP_MEM_ALL, 0)] 0) with (Ret (IHK_SMP_MEM_ALL, 0)). cbn [mbind outcome_bind fst]. rewrite Z.eqb_refl.
  set (k := Z.of_nat (length (free_chunks s))). rewrite (proj2 (Z.ltb_ge k 0)) by (unfold k; lia). cbn [orb].
  destruct (Z.leb_spec k IHK_MAX_NUM_MEM_CHUNKS) as [Hle|Hgt].
  - rewrite (smp_query _ s (fun i => Hcal (1 + i)%nat) Hle k) by (unfold k in *; lia). fold k. rewrite Z.eqb_refl. cbn [Z.eqb negb].
    assert (length (reported s) = Z.to_nat k) as El by (unfold reported, chunks, k; rewrite !length_map; lia).
    rewrite El, (Z2Nat.id k), Z.ltb_irrefl by (unfold k; lia). rewrite take_ge by lia.
    destruct (Z.eq_dec k 0) as [E0|E0].
    { rewrite E0. exists 0, s. split; [done|]. split_and!; try done. apply nil_length_inv. unfold k in E0. lia. }
    destruct (release_dev_all (reported s) s Hs) as (l & s' & E & Hs' & Hf & Hu); [done|].
    cbn [dv_release smp_device]. unfold smp_ihk_release_mem. cbn [request up_read up_val negb mr_num mr_sizes mr_numa_ids].
    rewrite !Hkm. unfold validate_mem_req. cbn [mr_num mr_sizes mr_numa_ids is_null mr_min_chunk_size mr_max_size_ratio_all].
    rewrite (proj2 (Z.ltb_ge k 0)), andb_false_r, (proj2 (Z.eqb_neq k 0)) by (unfold k; lia). cbn [Z.ltb Z.eqb Z.compare orb negb].
    unfold copy_from_user. rewrite !length_map, El, (Z2Nat.id k), Z.leb_refl, (proj2 (Z.eqb_neq k 0)) by (unfold k; lia).
    rewrite !take_ge by (rewrite length_map; lia).
    replace (zip (map fst (reported s)) (map snd (reported s))) with (reported s).
    2: { clear. induction (reported s) as [|[a b] r IH]; [done|]. cbn. f_equal. exact IH. }
    cbn [orb negb]. rewrite (proj2 (Z.ltb_ge _ 0)) by (unfold IHK_RESERVE_MEM_MAX_SIZE_RATIO_ALL_LIMIT; lia).
    cbn [Z.eqb negb]. rewrite E. cbn. eauto 10.
  - exists (- EINVAL), s. split; [|done]. unfold ihk_query_mem, ihklib_device_readable. cbn [dv_access smp_device]. rewrite Haccess.
    rewrite (proj2 (Z.ltb_ge k 0)), (proj2 (Z.ltb_lt _ k)) by (unfold k in *; lia). done.
Qed.

(** C20: on the SMP driver, asking for the right number of chunks
    reports exactly the free chunks of the driver, with any other number the
    query is refused; releasing everything leaves the driver no free chunk and
    what the co-kernels use untouched.  With more than 2048 free chunks
    releasing everything is refused, and nothing is released. *)
Theorem lib_release_all cal s : mem_ok s -> (forall i, cal i = true) ->
  exists ret s', ihk_release_mem dev cal (Some [(IHK_SMP_MEM_ALL, 0)]) 1 s = Ret (ret, s') /\
    if Z.of_nat (length (free_chunks s)) <=? IHK_MAX_NUM_MEM_CHUNKS
    then (ret = 0 /\ mem_ok s' /\ free_chunks s' = [] /\ used_chunks s' = used_chunks s) /\
      forall n, 0 <= n <= IHK_MAX_NUM_MEM_CHUNKS ->
        ihk_query_mem dev cal false n s = if n =? Z.of_nat (length (free_chunks s)) then (0, reported s) else (- EINVAL, [])
    else ret = - EINVAL /\ s' = s.
Proof using Horders Haccess Hopen Hkm.
  intros Hs Hcal. destruct (smp_release_all cal s Hs Hcal) as (ret & s' & E & Hr). exists ret, s'. split; [done|].
  destruct (Z.leb_spec (Z.of_nat (length (free_chunks s))) IHK_MAX_NUM_MEM_CHUNKS) as [Hle|]; [|done].
  split; [done|]. by apply smp_query.
Qed.
End smp.

Lemma lib_release_all_witness :
  exists ret s', ihk_release_mem (@smp_device huge_smp plain_rb 0 3 0 50 (fun _ => four_blocks) (fun _ => true)) (fun _ => true)
      (Some [(IHK_SMP_MEM_ALL, 0)]) 1 demo_mem = Ret (ret, s') /\
    if Z.of_nat (length (free_chunks demo_mem)) <=? IHK_MAX_NUM_MEM_CHUNKS
    then (ret = 0 /\ mem_ok s' /\ free_chunks s' = [] /\ used_chunks s' = used_chunks demo_mem) /\
      forall n, 0 <= n <= IHK_MAX_NUM_MEM_CHUNKS ->
        ihk_query_mem (@smp_device huge_smp plain_rb 0 3 0 50 (fun _ => four_blocks) (fun _ => true)) (fun _ => true) false n demo_mem =
        if n =? Z.of_nat (length (free_chunks demo_mem)) then (0, reported demo_mem) else (- EINVAL, [])
    else ret = - EINVAL /\ s' = demo_mem.
Proof.
  apply (@lib_release_all huge_smp plain_rb huge_orders 0 3 0 50%nat (fun _ => four_blocks) (fun _ => true)); [done|lia|done|apply demo_mem_ok|done].
Defined.

(** ** Reserving through the library *)

Section reserving_smp.
Context `{SmpEnv} `{HR : RbTreeOk}.
Hypothesis Htails : tails_ok.
Hypothesis Horders : orders_ok.
Context (linux : nat -> memst -> linux_pages) (fuel : nat).
Hypothesis Hlinux : forall k s n, mem_ok s -> linux_ok n s (linux k s).
Context (access open errno : Z) (km : nat -> bool).
Hypothesis Haccess : access <= 0.

(** What a reservation through the library leaves: the default settings, no
    memory lost, and at least what [l] asks for more when it succeeds. *)
Definition reserve_result (l : list (Z * Z)) (n : Z) (s : memst) (ret : Z) (s' : memst) : Prop :=
  more_mem linux s s' /\
  (ret = 0 -> total (chunks s) + exact_sizes (map fst (take (Z.to_nat n) l)) <= total (chunks s')).

Lemma reserve_body_ok cal conf l n s :
  mem_ok s -> balanced_enable conf = 0 -> n <= Z.of_nat (length l) -> Forall (fun c => 0 <= fst c < 2 ^ 64) l ->
  let r := reserve_body (smp_device access open errno fuel linux km) cal conf (Some l) n s in
  (exists ret s', r = Ret (ret, false, s') /\ reserve_result l n s ret s') \/ (r = Undef /\ stuck linux fuel).
Proof using HR Htails Horders Hlinux Haccess.
  intros Hs Hb Hn Hl. set (D := smp_device _ _ _ _ _ _). pose proof (more_mem_refl linux s Hs) as Hr.
  assert (forall ret, ret < 0 -> (exists r s', @Ret (Z * bool * memst) (ret, false, s) = Ret (r, false, s') /\ reserve_result l n s r s') \/
    (@Ret (Z * bool * memst) (ret, false, s) = Undef /\ stuck linux fuel)) as Hno.
  { intros ret Hret. left. exists ret, s. split; [done|]. split; [done|lia]. }
  cbv zeta. unfold reserve_body. change (ihklib_device_readable D) with access.
  destruct (Z.eqb_spec access 0); cbn [negb]; [|apply Hno; lia].
  destruct (_ || _) eqn:Eb; [by apply Hno|]. apply orb_false_iff in Eb as [Eb1 Eb2]. apply Z.ltb_ge in Eb1, Eb2.
  destruct (Z.eqb_spec n 0) as [->|Hn0].
  { left. exists 0, s. split; [done|]. split; [done|]. intros _. change (total (chunks s) + 0 <= total (chunks s)). lia. }
  destruct (cal 0%nat); cbn [negb]; [|by apply Hno]. destruct (cal 1%nat); cbn [negb]; [|by apply Hno].
  rewrite (proj2 (Z.ltb_ge _ n)) by done. rewrite Hb. cbn [Z.eqb negb].
  destruct (Z.ltb_spec (ihklib_device_open D) 0) as [Hneg|_]; [by apply Hno|].
  set (l' := take (Z.to_nat n) l). cbn [dv_reserve D smp_device].
  destruct (reserve_request_correct Htails Horders linux fuel Hlinux km
    (mk_uptr (mk_mem_req (UArr true true (map fst l')) (UArr true true (map snd l')) n
       (min_chunk_size conf) (max_size_ratio_all conf) (timeout conf)) true true) s Hs) as [(ret & s' & -> & Hm & Hle & Ht)|[-> Hst]].
  { cbn. apply Forall_fmap. unfold compose. by apply Forall_take. }
  2:{ right. done. }
  left. cbn [mbind outcome_bind]. destruct (Z.eqb_spec ret 0) as [->|Hne]; cbn [negb].
  - exists 0, s'. split; [done|]. split; [done|]. intros _. destruct (Ht eq_refl) as (sizes & Es & Hsum). cbn [up_val mr_sizes mr_num] in Es.
    unfold copy_from_user in Es. rewrite (proj2 (Z.eqb_neq n 0)), length_map in Es by done.
    rewrite (proj2 (Z.leb_le n _)) in Es by (unfold l'; rewrite length_take; lia). injection Es as <-.
    rewrite take_ge in Hsum; [done|]. unfold l'. rewrite length_map, length_take. lia.
  - unfold neg_errno. rewrite (proj2 (Z.ltb_lt ret 0)) by lia. exists ret, s'. split; [done|]. split; [done|lia].
Qed.

(** C19: a reservation without balancing, on the SMP driver,
    for all arguments, settings and answers of Linux.  It completes:
    afterwards the settings are the defaults again, the driver has lost no
    memory and has no memory but that and blocks of Linux, its lists are in
    order, and when the library reports success there is at least the sum of
    the requested sizes more free memory than before.  The only other outcome
    is that a reservation of the driver is still running after [fuel] rounds,
    of which all but less than 2^64 + 40 are then rounds in which Linux frees
    more than a page in less than a second (SmpGrab.reserve_livelock). *)
Theorem lib_reserve_correct cal conf l n s :
  mem_ok s -> balanced_enable conf = 0 -> n <= Z.of_nat (length l) -> Forall (fun c => 0 <= fst c < 2 ^ 64) l ->
  let r := ihk_reserve_mem (smp_device access open errno fuel linux km) cal conf (Some l) n s in
  (exists ret s', r = Ret (ret, reserve_mem_conf_default, s') /\ reserve_result l n s ret s') \/ (r = Undef /\ stuck linux fuel).
Proof using HR Htails Horders Hlinux Haccess.
  intros Hs Hb Hn Hl. cbv zeta. unfold ihk_reserve_mem.
  destruct (reserve_body_ok cal conf l n s Hs Hb Hn Hl) as [(ret & s' & -> & Hr)|[-> Hst]]; [left; by exists ret, s'|by right].
Qed.
End reserving_smp.

Definition huge_dev (fuel : nat) : mem_device memst :=
  @smp_device huge_smp plain_rb 0 3 0 fuel (fun _ => four_blocks) (fun _ => true).

Lemma lib_reserve_correct_witness :
  exists ret s', ihk_reserve_mem (huge_dev (Z.to_nat (2 ^ 64 + 40))) (fun _ => true) (mk_conf 0 0 0 4096 90 30) (Some [(mib 8, 1)]) 1 demo_mem =
      Ret (ret, reserve_mem_conf_default, s') /\ reserve_result (fun _ => four_blocks) [(mib 8, 1)] 1 demo_mem ret s'.
Proof.
  destruct (@lib_reserve_correct huge_smp plain_rb plain_rb_ok huge_tails huge_orders (fun _ => four_blocks) (Z.to_nat (2 ^ 64 + 40))
    (fun _ s n _ => four_blocks_ok n s) 0 3 0 (fun _ => true) ltac:(lia) (fun _ => true) (mk_conf 0 0 0 4096 90 30) [(mib 8, 1)] 1 demo_mem)
    as [Hr|[_ (k & s & _ & Hb)]]; [exact demo_mem_ok|done|cbn; lia| |exact Hr|by destruct (Hb (much_fuel s))].
  constructor; [by vm_compute|constructor].
Defined.

(** The library on the small machine: a plain reservation takes two blocks; a
    balanced one that asks for more than there is fails, and releases also the
    memory that was reserved before it. *)
Definition lib_shown (r : outcome (Z * ihklib_reserve_mem_conf * memst)) : option (Z * list chunk) :=
  match r with Ret (ret, _, s) => Some (ret, chunks s) | Undef => None end.

Theorem lib_reserve_runs :
  let run en sz := lib_shown (ihk_reserve_mem (huge_dev 60) (fun _ => true) (mk_conf en 0 20 4096 90 30) (Some [(sz, 1)]) 1 demo_mem) in
  run 0 (mib 8) = Some (0, chunks demo_mem ++ [mk_chunk 0x40000000 0x800000 1]) /\
  run 1 (mib 64) = Some (- ENOMEM, []).
Proof. vm_compute. split; reflexivity. Qed.
