(* ===== verification/SmpCpu.v ===== *)
(** * CPUs of the SMP host driver (src/linux/driver/smp/smp-driver.c)

    The driver takes CPUs offline to reserve them, assigns reserved CPUs to
    kernels, and records for every CPU of a kernel the Linux CPU that serves
    its messages.  The file models these operations on the table
    ihk_smp_cpus, and shows that each of them keeps the table and the mappings
    of the kernels in agreement, what a failed request leaves behind, and where the table or a buffer is used
    wrongly. *)

From stdpp Require Import base tactics numbers list gmap.
From S2P Require Import Prelude SmpData.

Open Scope ihk_scope.

(** ** State

    [cpus] is the table ihk_smp_cpus, [online] the CPUs that Linux uses. *)
Record cpust : Type := mk_cpust { cpus : list ihk_smp_cpu; online : gset Z }.

Definition cpu_set_status (c : ihk_smp_cpu) v := mk_cpu (cpu_id c) (cpu_hw_id c) v (cpu_os c) (cpu_ikc_map c).
Definition cpu_set_os (c : ihk_smp_cpu) v os := mk_cpu (cpu_id c) (cpu_hw_id c) v os (cpu_ikc_map c).
Definition cpu_set_ikc (c : ihk_smp_cpu) v := mk_cpu (cpu_id c) (cpu_hw_id c) (cpu_status c) (cpu_os c) v.

Definition put_cpu (s : cpust) (i : Z) (c : ihk_smp_cpu) : outcome cpust :=
  l ← aset (cpus s) i c; Ret (mk_cpust l (online s)).

(** A loop over the whole table that rewrites the entries with a status. *)
Definition sweep (from : Z) (f : ihk_smp_cpu -> ihk_smp_cpu) (s : cpust) : cpust :=
  mk_cpust (map (fun c => if cpu_status c =? from then f c else c) (cpus s)) (online s).

Section env.
  Context `{SmpEnv}.

(** ihk_smp_get_hw_id of each architecture *)
Definition ihk_smp_get_hw_id (cpu : Z) : Z :=
  match arch with X86_64 => x86_cpu_to_apicid cpu | ARM64 _ => cpu end.

(** _smp_ihk_write_cpu_sys_file; [None]: -1 is returned. *)
Definition smp_ihk_write_cpu_sys_file (cpu : Z) (v : bool) (on : gset Z) : option (gset Z) :=
  if negb (filp_open cpu) then None else kernel_write cpu v on.

Definition smp_ihk_offline_cpu (cpu : Z) (on : gset Z) : option (gset Z) := smp_ihk_write_cpu_sys_file cpu false on.
Definition smp_ihk_online_cpu (cpu : Z) (on : gset Z) : option (gset Z) := smp_ihk_write_cpu_sys_file cpu true on.

(** The cpumask of a request, in the order for_each_cpu visits it. *)
Definition mask_of (l : list Z) : list Z := filter (fun c => c ∈ l) (seqZ 0 nr_cpu_ids).

(** The range check of every handler. *)
Definition in_range (l : list Z) : bool := forallb (fun c => (0 <=? c) && (c <? nr_cpu_ids)) l.

(** ** Initialisation *)

(** The loop of smp_ihk_init over the CPUs that Linux uses. *)
Fixpoint mark_initial (l : list Z) (s : cpust) : outcome cpust :=
  match l with
  | [] => Ret s
  | cpu :: r =>
      c ← aget (cpus s) cpu;
      s ← put_cpu s cpu (cpu_set_status c IHK_SMP_CPU_ONLINE);
      mark_initial r s
  end.

(** The table after smp_ihk_init. *)
Definition init_cpus (on : gset Z) : outcome cpust :=
  mark_initial (filter (fun c => c ∈ on) (seqZ 0 nr_cpu_ids))
    (mk_cpust (replicate (Z.to_nat SMP_MAX_CPUS) (mk_cpu 0 0 0 0 0)) on).

(** smp_ihk_create_os: the structure comes from kzalloc. *)
Definition zero_osd : smp_os_data :=
  let zeros := replicate (Z.to_nat SMP_MAX_CPUS) 0 in mk_osd BUILTIN_OS_STATUS_INITIAL 0 0 ∅ ∅ zeros zeros 0 0.

Definition smp_ihk_create_os (km : bool) : Z * option smp_os_data :=
  if negb km then (- ENOMEM, None) else (0, Some zero_osd).

(** ** Assignment *)

(** CORE_SET and CORE_CLR reach SMP_MAX_CPUS bits, set_bit on numa_mask one
    word. *)
Definition core_ok (hw : Z) : bool := (0 <=? hw) && (hw <? SMP_MAX_CPUS).
Definition node_ok (n : Z) : bool := (0 <=? n) && (n <? 64).

(** __assign_cpus *)
Fixpoint assign_cpus (os : Z) (l : list Z) (s : cpust) (o : smp_os_data) : outcome (cpust * smp_os_data) :=
  match l with
  | [] => Ret (s, o)
  | cpu :: r =>
      c ← aget (cpus s) cpu;
      if negb (core_ok (cpu_hw_id c) && node_ok (cpu_to_node cpu)) then Undef else
      s ← put_cpu s cpu (cpu_set_ikc (cpu_set_os c IHK_SMP_CPU_ASSIGNED os) 0);
      m ← aset (os_cpu_mapping o) (os_nr_cpus o) cpu;
      h ← aset (os_cpu_hw_ids o) (os_nr_cpus o) (cpu_hw_id c);
      assign_cpus os r s
        (osd_set_cpus o ({[cpu_to_node cpu]} ∪ os_numa_mask o) ({[cpu_hw_id c]} ∪ os_hw_ids_map o) m h (os_nr_cpus o + 1))
  end.

(** The check of a mask against the table. *)
Fixpoint check_mask (ok : ihk_smp_cpu -> bool) (l : list Z) (s : cpust) : outcome bool :=
  match l with
  | [] => Ret true
  | cpu :: r => c ← aget (cpus s) cpu; if ok c then check_mask ok r s else Ret false
  end.

(** smp_ihk_os_assign_cpu; [km] tells whether kmalloc succeeds. *)
Definition smp_ihk_os_assign_cpu (km : bool) (os : Z) (arg : uptr ihk_cpu_req) (s : cpust) (o : smp_os_data) :
    outcome (Z * cpust * smp_os_data) :=
  let req := up_val arg in
  if negb (os_status o =? BUILTIN_OS_STATUS_INITIAL) then Ret (- EBUSY, s, o) else
  if negb (up_read arg) then Ret (- EFAULT, s, o) else
  if negb (validate_cpu_req req =? 0) then Ret (- EINVAL, s, o) else
  if cr_num req =? 0 then Ret (0, s, o) else
  if negb km then Ret (- EINVAL, s, o) else
  match copy_from_user (cr_cpus req) (cr_num req) with
  | None => Ret (- EFAULT, s, o)
  | Some l =>
      if negb (in_range l) then Ret (- EINVAL, s, o) else
      ok ← check_mask (fun c => cpu_status c =? IHK_SMP_CPU_AVAILABLE) (mask_of l) s;
      if negb ok then Ret (- EINVAL, s, o) else
      ' (s, o) ← assign_cpus os l s o; Ret (0, s, o)
  end.

(** The entries behind index [i] move down by one, up to [nr]. *)
Definition shift_down (i nr : nat) (l : list Z) : list Z :=
  take i l ++ take (nr - 1 - i) (drop (S i) l) ++ drop (nr - 1) l.

(** The update of the mapping when [cpu] leaves the kernel. *)
Definition unmap_cpu (cpu : Z) (o : smp_os_data) : smp_os_data :=
  let nr := Z.to_nat (os_nr_cpus o) in
  match list_find (fun c => c = cpu) (take nr (os_cpu_mapping o)) with
  | None => o
  | Some (i, _) =>
      osd_set_cpus o (os_numa_mask o) (os_hw_ids_map o) (shift_down i nr (os_cpu_mapping o))
        (shift_down i nr (os_cpu_hw_ids o)) (os_nr_cpus o - 1)
  end.

(** The release loop of smp_ihk_os_release_cpu. *)
Fixpoint release_cpus (l : list Z) (s : cpust) (o : smp_os_data) : outcome (cpust * smp_os_data) :=
  match l with
  | [] => Ret (s, o)
  | cpu :: r =>
      c ← aget (cpus s) cpu;
      if negb (core_ok (cpu_hw_id c)) then Undef else
      let o := osd_set_cpus o (os_numa_mask o) (os_hw_ids_map o ∖ {[cpu_hw_id c]})
                 (os_cpu_mapping o) (os_cpu_hw_ids o) (os_nr_cpus o) in
      s ← put_cpu s cpu (cpu_set_os c IHK_SMP_CPU_AVAILABLE 0);
      release_cpus r s (unmap_cpu cpu o)
  end.

(** smp_ihk_os_release_cpu *)
Definition smp_ihk_os_release_cpu (km : bool) (os : Z) (arg : uptr ihk_cpu_req) (s : cpust) (o : smp_os_data) :
    outcome (Z * cpust * smp_os_data) :=
  let req := up_val arg in
  if negb (os_status o =? BUILTIN_OS_STATUS_INITIAL) then Ret (- EBUSY, s, o) else
  if negb (up_read arg) then Ret (- EFAULT, s, o) else
  if negb (validate_cpu_req req =? 0) then Ret (- EINVAL, s, o) else
  if cr_num req =? 0 then Ret (0, s, o) else
  if negb km then Ret (- EINVAL, s, o) else
  match copy_from_user (cr_cpus req) (cr_num req) with
  | None => Ret (- EFAULT, s, o)
  | Some l =>
      if negb (in_range l) then Ret (- EINVAL, s, o) else
      ok ← check_mask (fun c => (cpu_status c =? IHK_SMP_CPU_ASSIGNED) && (cpu_os c =? os)) (mask_of l) s;
      if negb ok then Ret (- EINVAL, s, o) else
      ' (s, o) ← release_cpus (mask_of l) s o; Ret (0, s, o)
  end.

(** What a query writes to the caller: the array and the count. *)
Record cpu_out : Type := mk_cpu_out { co_cpus : option (list Z); co_num : option Z }.

Definition copy_out_cpus (arg : uptr ihk_cpu_req) (l : list Z) : Z * cpu_out :=
  let req := up_val arg in
  if negb (copy_to_user (cr_cpus req) (cr_num req)) then (- EFAULT, mk_cpu_out None None) else
  let wr := if cr_num req =? 0 then None else Some l in
  if negb (up_write arg) then (- EFAULT, mk_cpu_out wr None) else (0, mk_cpu_out wr (Some (cr_num req))).

(** smp_ihk_os_query_cpu *)
Definition smp_ihk_os_query_cpu (km : bool) (arg : uptr ihk_cpu_req) (o : smp_os_data) : Z * cpu_out :=
  let req := up_val arg in
  if negb (up_read arg) then (- EFAULT, mk_cpu_out None None) else
  if negb (validate_cpu_req req =? 0) then (- EINVAL, mk_cpu_out None None) else
  if negb (cr_num req =? os_nr_cpus o) then (- EINVAL, mk_cpu_out None None) else
  if negb km then (- ENOMEM, mk_cpu_out None None) else
  copy_out_cpus arg (take (Z.to_nat (os_nr_cpus o)) (os_cpu_mapping o)).

(** smp_ihk_os_get_num_cpus *)
Definition smp_ihk_os_get_num_cpus (o : smp_os_data) : Z := os_nr_cpus o.

(** lwk_cpu_2_linux_cpu *)
Definition lwk_cpu_2_linux_cpu (o : smp_os_data) (cpu : Z) : outcome Z :=
  if cpu <? os_nr_cpus o then aget (os_cpu_mapping o) cpu else Ret (-1).

(** linux_cpu_2_lwk_cpu *)
Definition linux_cpu_2_lwk_cpu (o : smp_os_data) (cpu : Z) : Z :=
  match list_find (fun c => c = cpu) (take (Z.to_nat (os_nr_cpus o)) (os_cpu_mapping o)) with
  | Some (i, _) => Z.of_nat i
  | None => -1
  end.

(** ** Routing of messages *)

(** The loop of smp_ihk_os_set_ikc_map over the pairs of a request. *)
Fixpoint set_pairs (l : list (Z * Z)) (s : cpust) : outcome (Z * cpust) :=
  match l with
  | [] => Ret (0, s)
  | (src, dst) :: r =>
      if (src <? 0) || (SMP_MAX_CPUS <=? src) then Ret (- EINVAL, s) else
      c ← aget (cpus s) src;
      if negb (cpu_status c =? IHK_SMP_CPU_ASSIGNED) then Ret (- EINVAL, s) else
      if (dst <? 0) || (SMP_MAX_CPUS <=? dst) then Ret (- EINVAL, s) else
      d ← aget (cpus s) dst;
      if cpu_status d =? IHK_SMP_CPU_ASSIGNED then Ret (- EINVAL, s) else
      if negb (cpu_present dst) then Ret (- EINVAL, s) else
      if negb (bool_decide (dst ∈ online s)) then Ret (- EINVAL, s) else
      s ← put_cpu s src (cpu_set_ikc c dst);
      set_pairs r s
  end.

(** The label out: without a mapping the kernel's CPUs get the default. *)
Definition restore_default (os : Z) (o : smp_os_data) (s : cpust) : cpust :=
  if os_ikc_mapped o =? 1 then s else
  mk_cpust (map (fun c => if (cpu_status c =? IHK_SMP_CPU_ASSIGNED) && (cpu_os c =? os) then cpu_set_ikc c 0 else c)
    (cpus s)) (online s).

Definition my_cpu (os : Z) (c : ihk_smp_cpu) : bool := (cpu_status c =? IHK_SMP_CPU_ASSIGNED) && (cpu_os c =? os).

(** The loop of smp_ihk_os_check_ikc_map (arm64) over the CPUs [l] of the
    table [t], from index [i] on: cpu_count and min; [checkers] holds the
    entries whose target was counted. *)
Fixpoint count_targets (os : Z) (t : list ihk_smp_cpu) (i : nat) (l : list ihk_smp_cpu) (checkers : list bool)
    (cpu_count min : Z) : Z * Z :=
  match l with
  | [] => (cpu_count, min)
  | c :: r =>
      if negb (my_cpu os c) || default false (checkers !! i)
      then count_targets os t (S i) r checkers cpu_count min else
      let checkers := zip_with (fun d b => if my_cpu os d && (cpu_ikc_map c =? cpu_ikc_map d) then true else b) t checkers in
      count_targets os t (S i) r checkers (cpu_count + 1) (if cpu_ikc_map c <? min then cpu_ikc_map c else min)
  end.

(** smp_ihk_os_check_ikc_map of each architecture *)
Definition smp_ihk_os_check_ikc_map (os : Z) (t : list ihk_smp_cpu) : Z :=
  match arch with
  | X86_64 | ARM64 None => 0
  | ARM64 (Some ihk_nr_irq) =>
      let '(cpu_count, min) := count_targets os t 0 t (replicate (length t) false) 0 (2 ^ 31 - 1) in
      let cpu_count := if negb (min =? 0) then cpu_count + 1 else cpu_count in
      if ihk_nr_irq <? cpu_count then 1 else 0
  end.

(** smp_ihk_os_set_ikc_map *)
Definition smp_ihk_os_set_ikc_map (km : nat -> bool) (os : Z) (arg : uptr ihk_ikc_req) (s : cpust) (o : smp_os_data) :
    outcome (Z * cpust * smp_os_data) :=
  let req := up_val arg in
  let out ret s o := Ret (ret, restore_default os o s, o) in
  if negb (up_read arg) then out (- EFAULT) s o else
  if negb (validate_ikc_req req =? 0) then out (- EINVAL) s o else
  if negb (os_status o =? BUILTIN_OS_STATUS_INITIAL) then out (- EBUSY) s o else
  if negb (km 0%nat) then out (- ENOMEM) s o else
  match copy_from_user (ir_src req) (ir_num req) with
  | None => out (- EFAULT) s o
  | Some srcs =>
      if negb (km 1%nat) then out (- ENOMEM) s o else
      match copy_from_user (ir_dst req) (ir_num req) with
      | None => out (- EFAULT) s o
      | Some dsts =>
          ' (ret, s) ← set_pairs (zip srcs dsts) s;
          if negb (ret =? 0) then out ret s o else
          out 0 s (if smp_ihk_os_check_ikc_map os (cpus s) =? 0 then osd_set_ikc_mapped o 1 else o)
      end
  end.

(** The loop of smp_ihk_os_get_ikc_map: the entry is stored before the size
    of the buffer is looked at. *)
Fixpoint collect_pairs (os num : Z) (i : Z) (l : list ihk_smp_cpu) (idx : Z) (srcs dsts : list Z) :
    outcome (Z * Z * list Z * list Z) :=
  match l with
  | [] => Ret (0, idx, srcs, dsts)
  | c :: r =>
      if negb (cpu_status c =? IHK_SMP_CPU_ASSIGNED) || negb (cpu_os c =? os)
      then collect_pairs os num (i + 1) r idx srcs dsts else
      srcs ← aset srcs idx i;
      dsts ← aset dsts idx (cpu_ikc_map c);
      if num <? idx + 1 then Ret (- EINVAL, idx + 1, srcs, dsts) else
      collect_pairs os num (i + 1) r (idx + 1) srcs dsts
  end.

(** What smp_ihk_os_get_ikc_map writes to the caller. *)
Record ikc_out : Type := mk_ikc_out { io_src : option (list Z); io_dst : option (list Z); io_num : option Z }.
Definition no_ikc : ikc_out := mk_ikc_out None None None.

(** smp_ihk_os_get_ikc_map *)
Definition smp_ihk_os_get_ikc_map (km : nat -> bool) (os : Z) (arg : uptr ihk_ikc_req) (s : cpust) :
    outcome (Z * ikc_out) :=
  let req := up_val arg in
  if negb (up_read arg) then Ret (- EFAULT, no_ikc) else
  if negb (validate_ikc_req req =? 0) then Ret (- EINVAL, no_ikc) else
  if negb (km 0%nat) then Ret (- ENOMEM, no_ikc) else
  if negb (km 1%nat) then Ret (- ENOMEM, no_ikc) else
  match copy_from_user (ir_src req) (ir_num req), copy_from_user (ir_dst req) (ir_num req) with
  | Some srcs, Some dsts =>
      ' (ret, idx, srcs, dsts) ← collect_pairs os (ir_num req) 0 (cpus s) 0 srcs dsts;
      if negb (ret =? 0) then Ret (ret, no_ikc) else
      let n := Z.to_nat idx in
      let wr l := if idx =? 0 then None else Some (take n l) in
      if negb (copy_to_user (ir_src req) idx) then Ret (- EFAULT, no_ikc) else
      if negb (copy_to_user (ir_dst req) idx) then Ret (- EFAULT, mk_ikc_out (wr srcs) None None) else
      if negb (up_write arg) then Ret (- EFAULT, mk_ikc_out (wr srcs) (wr dsts) None) else
      Ret (0, mk_ikc_out (wr srcs) (wr dsts) (Some idx))
  | _, _ => Ret (- EFAULT, no_ikc)
  end.

(** ** Reservation *)

(** Collecting the CPUs to take offline; [false]: goto err_before_offline. *)
Fixpoint mark_offline (l : list Z) (s : cpust) : outcome (bool * cpust) :=
  match l with
  | [] => Ret (true, s)
  | cpu :: r =>
      if SMP_MAX_CPUS <? cpu then Ret (false, s) else
      if negb (cpu_present cpu) then Ret (false, s) else
      if negb (bool_decide (cpu ∈ online s)) then (_ ← aget (cpus s) cpu; Ret (false, s)) else
      c ← aget (cpus s) cpu;
      if negb (cpu_status c =? IHK_SMP_CPU_ONLINE) then Ret (false, s) else
      s ← put_cpu s cpu (mk_cpu cpu (ihk_smp_get_hw_id cpu) IHK_SMP_CPU_TO_OFFLINE 0 (cpu_ikc_map c));
      mark_offline r s
  end.

(** The offline loop over the table, from index [i] on; [false]: goto
    err_during_offline. *)
Fixpoint offline_loop (i : Z) (l : list ihk_smp_cpu) (on : gset Z) : bool * list ihk_smp_cpu * gset Z :=
  match l with
  | [] => (true, [], on)
  | c :: r =>
      if negb (cpu_status c =? IHK_SMP_CPU_TO_OFFLINE) then
        let '(ok, r, on) := offline_loop (i + 1) r on in (ok, c :: r, on)
      else
      match smp_ihk_offline_cpu i on with
      | None => (false, c :: r, on)
      | Some on =>
          let c := mk_cpu (cpu_id c) (ihk_smp_get_hw_id i) IHK_SMP_CPU_OFFLINED 0 (cpu_ikc_map c) in
          let '(ok, r, on) := offline_loop (i + 1) r on in (ok, c :: r, on)
      end
  end.

(** err_during_offline: the CPUs taken offline are started again. *)
Fixpoint online_again (i : Z) (l : list ihk_smp_cpu) (on : gset Z) : list ihk_smp_cpu * gset Z :=
  match l with
  | [] => ([], on)
  | c :: r =>
      if negb (cpu_status c =? IHK_SMP_CPU_OFFLINED) then
        let '(r, on) := online_again (i + 1) r on in (c :: r, on)
      else
        let on := default on (smp_ihk_online_cpu i on) in
        let '(r, on) := online_again (i + 1) r on in (cpu_set_status c IHK_SMP_CPU_ONLINE :: r, on)
  end.

Definition err_before_offline (s : cpust) : cpust :=
  sweep IHK_SMP_CPU_TO_OFFLINE (fun c => cpu_set_status c IHK_SMP_CPU_ONLINE) s.

(** smp_ihk_reserve_cpu, from the mask of the requested CPUs on *)
Definition reserve_mask (m : list Z) (s : cpust) : outcome (Z * cpust) :=
  ' (ok, s) ← mark_offline m s;
  if negb ok then Ret (- EINVAL, err_before_offline s) else
  let '(ok, t, on) := offline_loop 0 (cpus s) (online s) in
  if negb ok then
    let '(t, on) := online_again 0 t on in Ret (-1, err_before_offline (mk_cpust t on))
  else Ret (0, sweep IHK_SMP_CPU_OFFLINED (fun c => cpu_set_status c IHK_SMP_CPU_AVAILABLE) (mk_cpust t on)).

(** smp_ihk_reserve_cpu *)
Definition smp_ihk_reserve_cpu (km : bool) (arg : uptr ihk_cpu_req) (s : cpust) : outcome (Z * cpust) :=
  let req := up_val arg in
  if negb (up_read arg) then Ret (- EFAULT, s) else
  if negb (validate_cpu_req req =? 0) then Ret (- EINVAL, s) else
  if cr_num req =? 0 then Ret (0, s) else
  if negb km then Ret (- EINVAL, s) else
  match copy_from_user (cr_cpus req) (cr_num req) with
  | None => Ret (- EFAULT, s)
  | Some l =>
      if negb (in_range l) then Ret (- EINVAL, s) else reserve_mask (mask_of l) s
  end.

(** Collecting the CPUs to give back; [false]: goto err. *)
Fixpoint mark_online (l : list Z) (s : cpust) : outcome (bool * cpust) :=
  match l with
  | [] => Ret (true, s)
  | cpu :: r =>
      if SMP_MAX_CPUS <? cpu then Ret (false, s) else
      if negb (cpu_present cpu) then Ret (false, s) else
      if bool_decide (cpu ∈ online s) then Ret (false, s) else
      c ← aget (cpus s) cpu;
      if negb (cpu_status c =? IHK_SMP_CPU_AVAILABLE) then Ret (false, s) else
      s ← put_cpu s cpu (mk_cpu cpu (ihk_smp_get_hw_id cpu) IHK_SMP_CPU_TO_ONLINE 0 (cpu_ikc_map c));
      mark_online r s
  end.

(** The online loop. *)
Fixpoint online_loop (i : Z) (l : list ihk_smp_cpu) (on : gset Z) : bool * list ihk_smp_cpu * gset Z :=
  match l with
  | [] => (true, [], on)
  | c :: r =>
      if negb (cpu_status c =? IHK_SMP_CPU_TO_ONLINE) then
        let '(ok, r, on) := online_loop (i + 1) r on in (ok, c :: r, on)
      else
      match smp_ihk_online_cpu i on with
      | None => (false, c :: r, on)
      | Some on =>
          let '(ok, r, on) := online_loop (i + 1) r on in (ok, cpu_set_os c IHK_SMP_CPU_ONLINE 0 :: r, on)
      end
  end.

(** smp_ihk_release_cpu, from the mask of the requested CPUs on *)
Definition release_mask (m : list Z) (s : cpust) : outcome (Z * cpust) :=
  let err := sweep IHK_SMP_CPU_TO_ONLINE (fun c => cpu_set_status c IHK_SMP_CPU_AVAILABLE) in
  ' (ok, s) ← mark_online m s;
  if negb ok then Ret (- EINVAL, err s) else
  let '(ok, t, on) := online_loop 0 (cpus s) (online s) in
  if negb ok then Ret (-1, err (mk_cpust t on)) else Ret (0, mk_cpust t on).

(** smp_ihk_release_cpu *)
Definition smp_ihk_release_cpu (km : bool) (arg : uptr ihk_cpu_req) (s : cpust) : outcome (Z * cpust) :=
  let req := up_val arg in
  if negb (up_read arg) then Ret (- EFAULT, s) else
  if negb (validate_cpu_req req =? 0) then Ret (- EINVAL, s) else
  if cr_num req =? 0 then Ret (0, s) else
  if negb km then Ret (- EINVAL, s) else
  match copy_from_user (cr_cpus req) (cr_num req) with
  | None => Ret (- EFAULT, s)
  | Some l =>
      if negb (in_range l) then Ret (- EINVAL, s) else release_mask (mask_of l) s
  end.

(** The CPUs that are reserved and not assigned, in ascending order. *)
Definition available (s : cpust) : list Z :=
  map (fun p => Z.of_nat p.1) (filter (fun p => cpu_status p.2 = IHK_SMP_CPU_AVAILABLE) (imap pair (cpus s))).

(** smp_ihk_get_num_cpus *)
Definition smp_ihk_get_num_cpus (s : cpust) : Z := Z.of_nat (length (available s)).

(** smp_ihk_query_cpu *)
Definition smp_ihk_query_cpu (km : bool) (arg : uptr ihk_cpu_req) (s : cpust) : Z * cpu_out :=
  let req := up_val arg in
  if negb (up_read arg) then (- EFAULT, mk_cpu_out None None) else
  if negb (validate_cpu_req req =? 0) then (- EINVAL, mk_cpu_out None None) else
  if negb (Z.of_nat (length (available s)) =? cr_num req) then (- EINVAL, mk_cpu_out None None) else
  if negb km then (- ENOMEM, mk_cpu_out None None) else
  copy_out_cpus arg (available s).
End env.

(** ** Tables *)

(** [tbl s x] is the entry of CPU [x]. *)
Definition tbl (s : cpust) (x : Z) : option ihk_smp_cpu := if 0 <=? x then cpus s !! Z.to_nat x else None.

Definition full (s : cpust) : Prop := length (cpus s) = Z.to_nat SMP_MAX_CPUS.

Lemma tbl_nat s i : tbl s (Z.of_nat i) = cpus s !! i.
Proof. unfold tbl. rewrite (proj2 (Z.leb_le 0 _)) by lia. by rewrite Nat2Z.id. Qed.

Lemma tbl_full s x : full s -> 0 <= x < SMP_MAX_CPUS -> exists c, tbl s x = Some c.
Proof.
  intros Hf Hx. unfold tbl. rewrite (proj2 (Z.leb_le 0 x)) by lia.
  destruct (cpus s !! Z.to_nat x) eqn:E; [eauto|]. apply lookup_ge_None in E. rewrite Hf in E. lia.
Qed.

Lemma tbl_range s x c : full s -> tbl s x = Some c -> 0 <= x < SMP_MAX_CPUS.
Proof.
  unfold tbl, full. intros Hf. destruct (Z.leb_spec 0 x); [|done]. intros E.
  apply lookup_lt_Some in E. rewrite Hf in E. lia.
Qed.

Lemma aget_tbl s x c : tbl s x = Some c -> aget (cpus s) x = Ret c.
Proof. unfold tbl, aget. destruct (0 <=? x); [|done]. by intros ->. Qed.

Lemma put_cpu_ok s x c : full s -> 0 <= x < SMP_MAX_CPUS ->
  exists s', put_cpu s x c = Ret s' /\ full s' /\ online s' = online s /\
    forall y, tbl s' y = if y =? x then Some c else tbl s y.
Proof.
  intros Hf Hx. unfold put_cpu. rewrite aset_in by (rewrite Hf; lia). cbn [mbind outcome_bind].
  eexists. split; [reflexivity|]. split; [|split; [done|]].
  - unfold full in *. simpl. by rewrite length_insert.
  - intros y. unfold tbl. simpl. destruct (Z.eqb_spec y x) as [->|Hy].
    + rewrite (proj2 (Z.leb_le 0 x)) by lia. apply list_lookup_insert_eq. rewrite Hf. lia.
    + destruct (Z.leb_spec 0 y); [|done]. apply list_lookup_insert_ne. lia.
Qed.

Lemma tbl_ext s s' : (forall x, tbl s' x = tbl s x) -> cpus s' = cpus s.
Proof. intros He. apply list_eq. intros i. by rewrite <- !tbl_nat. Qed.

Lemma distinct_length (l : list Z) n :
  NoDup l -> Forall (fun x => 0 <= x < n) l -> Z.of_nat (length l) <= Z.max 0 n.
Proof.
  intros Hn Hf. assert (l ⊆ seqZ 0 n) as Hs.
  { intros x Hx. rewrite Forall_forall in Hf. apply elem_of_seqZ. specialize (Hf x Hx). lia. }
  pose proof (submseteq_length _ _ (NoDup_submseteq _ _ Hn Hs)) as Hl. rewrite length_seqZ in Hl. lia.
Qed.

(** ** Masks *)

Lemma elem_of_mask `{SmpEnv} x l : x ∈ mask_of l <-> x ∈ l /\ 0 <= x < nr_cpu_ids.
Proof. unfold mask_of. rewrite list_elem_of_filter, elem_of_seqZ. split; intros [? ?]; (split; [done|lia]). Qed.

Lemma in_range_spec `{SmpEnv} l : in_range l = true <-> Forall (fun x => 0 <= x < nr_cpu_ids) l.
Proof.
  unfold in_range. rewrite forallb_forall, Forall_forall. setoid_rewrite <- list_elem_of_In.
  by setoid_rewrite andb_true_iff; setoid_rewrite Z.leb_le; setoid_rewrite Z.ltb_lt.
Qed.

Lemma mask_NoDup `{SmpEnv} l : NoDup (mask_of l).
Proof. apply NoDup_filter, NoDup_seqZ. Qed.

Lemma check_mask_ok ok l s :
  full s -> Forall (fun x => 0 <= x < SMP_MAX_CPUS) l ->
  exists b, check_mask ok l s = Ret b /\
    (b = true <-> Forall (fun x => exists c, tbl s x = Some c /\ ok c = true) l).
Proof.
  intros Hf. induction 1 as [|x l Hx Hl IH]; simpl; [by eexists|].
  destruct (tbl_full s x Hf Hx) as [c Hc]. rewrite (aget_tbl _ _ _ Hc). cbn [mbind outcome_bind].
  destruct IH as (b & Eb & Hb). destruct (ok c) eqn:Ek.
  - exists b. split; [done|]. rewrite Forall_cons, Hb. naive_solver.
  - eexists. split; [reflexivity|]. split; [done|]. rewrite Forall_cons. intros [(c' & Hc' & Hk) _]. congruence.
Qed.

(** ** The CPUs of a kernel *)

Definition os_cpus (o : smp_os_data) : list Z := take (Z.to_nat (os_nr_cpus o)) (os_cpu_mapping o).

Definition osd_ok (o : smp_os_data) : Prop :=
  length (os_cpu_mapping o) = Z.to_nat SMP_MAX_CPUS /\ length (os_cpu_hw_ids o) = Z.to_nat SMP_MAX_CPUS /\
  0 <= os_nr_cpus o <= SMP_MAX_CPUS.

Lemma length_os_cpus o : osd_ok o -> Z.of_nat (length (os_cpus o)) = os_nr_cpus o.
Proof. intros (Hm & _ & Hn). unfold os_cpus. rewrite length_take, Hm. lia. Qed.

Section lists.
  Context `{SmpEnv}.

Lemma assign_cpus_ok os l : forall s o,
  full s -> osd_ok o -> NoDup (os_cpus o ++ l) -> Forall (fun x => 0 <= x < SMP_MAX_CPUS) (os_cpus o ++ l) ->
  Forall (fun x => (exists c, tbl s x = Some c /\ core_ok (cpu_hw_id c) = true) /\ node_ok (cpu_to_node x) = true) l ->
  exists s' o', assign_cpus os l s o = Ret (s', o') /\ full s' /\ online s' = online s /\
    osd_ok o' /\ os_cpus o' = os_cpus o ++ l /\ os_status o' = os_status o /\
    forall y, tbl s' y = if bool_decide (y ∈ l)
      then (fun c => cpu_set_ikc (cpu_set_os c IHK_SMP_CPU_ASSIGNED os) 0) <$> tbl s y else tbl s y.
Proof.
  induction l as [|x l IH]; intros s o Hf Ho Hn Hr Hl; simpl.
  { exists s, o. rewrite app_nil_r. by repeat (split; [done|]). }
  rewrite Forall_cons in Hl. destruct Hl as [[(c & Hc & Hcore) Hnode] Hl].
  pose proof (distinct_length _ _ Hn Hr) as Hlen. rewrite length_app in Hlen. simpl in Hlen.
  pose proof (length_os_cpus o Ho) as Hlo. pose proof Ho as (Hm & Hh & Hnr).
  rewrite Forall_app, Forall_cons in Hr. destruct Hr as (Hr1 & Hx & Hr2).
  rewrite (aget_tbl _ _ _ Hc). cbn [mbind outcome_bind]. rewrite Hcore, Hnode. cbn [andb negb].
  destruct (put_cpu_ok s x (cpu_set_ikc (cpu_set_os c IHK_SMP_CPU_ASSIGNED os) 0) Hf Hx) as (s1 & -> & Hf1 & Hon1 & Ht1).
  cbn [mbind outcome_bind]. rewrite !aset_in by lia. cbn [mbind outcome_bind].
  match goal with |- context [assign_cpus os l s1 ?o'] => set (o1 := o') end.
  assert (os_cpus o1 = os_cpus o ++ [x]) as Eo1.
  { unfold os_cpus, o1. simpl. replace (Z.to_nat (os_nr_cpus o + 1)) with (S (Z.to_nat (os_nr_cpus o))) by lia.
    apply take_insert_snoc. lia. }
  destruct (IH s1 o1) as (s' & o' & -> & Hf' & Hon' & Ho' & Eo' & Hst & Ht').
  - done.
  - unfold osd_ok, o1. simpl. rewrite !length_insert. lia.
  - rewrite Eo1, <- app_assoc. done.
  - rewrite Eo1, <- app_assoc, !Forall_app, Forall_cons. auto.
  - rewrite Forall_forall in Hl |- *. intros y Hy. destruct (Hl y Hy) as [(d & Hd & Hdc) Hdn]. split; [|done].
    rewrite Ht1. destruct (Z.eqb_spec y x) as [->|]; [|eauto]. eexists. split; [done|]. done.
  - exists s', o'. split; [done|]. split; [done|]. split; [congruence|]. split; [done|].
    split; [by rewrite Eo', Eo1, <- app_assoc|]. split; [done|]. intros y. rewrite Ht', Ht1.
    destruct (Z.eqb_spec y x) as [->|Hy].
    + rewrite (bool_decide_eq_true_2 (x ∈ x :: l)) by left. rewrite Hc.
      apply NoDup_app in Hn as (_ & _ & Hn). rewrite NoDup_cons in Hn.
      by rewrite bool_decide_eq_false_2 by tauto.
    + assert (bool_decide (y ∈ x :: l) = bool_decide (y ∈ l)) as ->; [|done].
      apply bool_decide_ext. rewrite elem_of_cons. tauto.
Qed.

(** The entries in front of the last one of a kernel after a shift. *)
Lemma shift_down_take i nr (l : list Z) :
  (i < nr)%nat -> (nr <= length l)%nat ->
  take (nr - 1) (shift_down i nr l) = take i (take nr l) ++ drop (S i) (take nr l) /\
  length (shift_down i nr l) = length l.
Proof.
  intros Hi Hn. unfold shift_down. split.
  - rewrite app_assoc, take_app_length'; [|rewrite length_app, !length_take, length_drop; lia].
    rewrite take_take, skipn_firstn_comm. f_equal; [f_equal; lia|]. f_equal. lia.
  - rewrite !length_app, !length_take, !length_drop. lia.
Qed.

Lemma unmap_cpu_ok x o :
  osd_ok o -> NoDup (os_cpus o) -> x ∈ os_cpus o ->
  osd_ok (unmap_cpu x o) /\ os_cpus (unmap_cpu x o) = filter (fun y => y <> x) (os_cpus o) /\
  os_status (unmap_cpu x o) = os_status o.
Proof.
  intros Ho Hn Hx. pose proof (length_os_cpus o Ho) as Hlo. pose proof Ho as (Hm & Hh & Hnr).
  unfold unmap_cpu. fold (os_cpus o). destruct (list_find (fun c => c = x) (os_cpus o)) as [[i y]|] eqn:E.
  2:{ apply list_find_None in E. rewrite Forall_forall in E. by specialize (E x Hx). }
  apply list_find_Some in E as (Hi & -> & _). pose proof (lookup_lt_Some _ _ _ Hi) as Hlt.
  unfold osd_ok. simpl. rewrite !(fun l H1 H2 => proj2 (shift_down_take i (Z.to_nat (os_nr_cpus o)) l H1 H2)) by lia.
  split; [lia|]. split; [|done]. unfold os_cpus at 1. simpl.
  replace (Z.to_nat (os_nr_cpus o - 1)) with (Z.to_nat (os_nr_cpus o) - 1)%nat by lia.
  rewrite (proj1 (shift_down_take i (Z.to_nat (os_nr_cpus o)) (os_cpu_mapping o) ltac:(lia) ltac:(lia))).
  fold (os_cpus o). pose proof (take_drop_middle _ _ _ Hi) as E. rewrite <- E in Hn.
  rewrite <- E at 3. by rewrite filter_NoDup_mid.
Qed.

Lemma release_cpus_ok l : forall s o,
  full s -> osd_ok o -> NoDup l -> NoDup (os_cpus o) -> l ⊆ os_cpus o ->
  Forall (fun x => exists c, tbl s x = Some c /\ core_ok (cpu_hw_id c) = true) l ->
  exists s' o', release_cpus l s o = Ret (s', o') /\ full s' /\ online s' = online s /\
    osd_ok o' /\ os_cpus o' = filter (fun y => y ∉ l) (os_cpus o) /\ os_status o' = os_status o /\
    forall y, tbl s' y = if bool_decide (y ∈ l)
      then (fun c => cpu_set_os c IHK_SMP_CPU_AVAILABLE 0) <$> tbl s y else tbl s y.
Proof.
  induction l as [|x l IH]; intros s o Hf Ho Hnl Hn Hsub Hl; simpl.
  { exists s, o. rewrite filter_all; [by repeat (split; [done|])|]. intros y _ Hy. by apply elem_of_nil in Hy. }
  rewrite Forall_cons in Hl. destruct Hl as [(c & Hc & Hcore) Hl]. rewrite NoDup_cons in Hnl.
  rewrite (aget_tbl _ _ _ Hc). cbn [mbind outcome_bind]. rewrite Hcore. cbn [negb].
  pose proof (tbl_range s x c Hf Hc) as Hx.
  destruct (put_cpu_ok s x (cpu_set_os c IHK_SMP_CPU_AVAILABLE 0) Hf Hx) as (s1 & -> & Hf1 & Hon1 & Ht1).
  cbn [mbind outcome_bind].
  match goal with |- context [unmap_cpu x ?o'] => set (o0 := o') end.
  destruct (unmap_cpu_ok x o0) as (Ho1 & Eo1 & Hst1); [done|done|apply Hsub; left|].
  change (os_cpus o0) with (os_cpus o) in Eo1. change (os_status o0) with (os_status o) in Hst1.
  destruct (IH s1 (unmap_cpu x o0)) as (s' & o' & -> & Hf' & Hon' & Ho' & Eo' & Hst & Ht'); auto.
  - apply Hnl.
  - rewrite Eo1. by apply NoDup_filter.
  - intros y Hy. rewrite Eo1, list_elem_of_filter. split; [by intros ->; apply Hnl|]. apply Hsub. by right.
  - rewrite Forall_forall in Hl |- *. intros y Hy. destruct (Hl y Hy) as (d & Hd & Hdc).
    rewrite Ht1. destruct (Z.eqb_spec y x) as [->|]; [by apply Hnl in Hy|eauto].
  - exists s', o'. split; [done|]. split; [done|]. split; [congruence|]. split; [done|].
    split; [|split; [congruence|]].
    + rewrite Eo', Eo1, list_filter_filter. apply list_filter_iff. intros y. rewrite not_elem_of_cons. tauto.
    + intros y. rewrite Ht', Ht1. destruct (Z.eqb_spec y x) as [->|Hy].
      * rewrite (bool_decide_eq_true_2 (x ∈ x :: l)) by left. rewrite Hc.
        by rewrite bool_decide_eq_false_2 by apply Hnl.
      * assert (bool_decide (y ∈ x :: l) = bool_decide (y ∈ l)) as ->; [|done].
        apply bool_decide_ext. rewrite elem_of_cons. tauto.
Qed.
End lists.

(** ** All kernels *)

(** The table and the data of every kernel, by its ihk_os_t. *)
Record world : Type := mk_world { w_cpu : cpust; w_os : gmap Z smp_os_data }.

Definition stable (v : Z) : Prop :=
  v = IHK_SMP_CPU_NONE \/ v = IHK_SMP_CPU_ONLINE \/ v = IHK_SMP_CPU_AVAILABLE \/ v = IHK_SMP_CPU_ASSIGNED.

(** Between two requests: no entry is in a transient state, reserved CPUs are
    not used by Linux, and the CPUs assigned to a kernel are exactly those of
    its mapping, each listed once. *)
Record cpu_inv (w : world) : Prop := {
  ci_full : full (w_cpu w);
  ci_entry : forall x c, tbl (w_cpu w) x = Some c -> stable (cpu_status c) /\
    (cpu_status c = IHK_SMP_CPU_AVAILABLE \/ cpu_status c = IHK_SMP_CPU_ASSIGNED ->
     (x ∉ online (w_cpu w)) /\ core_ok (cpu_hw_id c) = true);
  ci_owner : forall x c, tbl (w_cpu w) x = Some c -> cpu_status c = IHK_SMP_CPU_ASSIGNED ->
    exists o, w_os w !! cpu_os c = Some o /\ x ∈ os_cpus o;
  ci_osd : forall k o, w_os w !! k = Some o -> osd_ok o /\ NoDup (os_cpus o);
  ci_map : forall k o x, w_os w !! k = Some o -> x ∈ os_cpus o ->
    exists c, tbl (w_cpu w) x = Some c /\ cpu_status c = IHK_SMP_CPU_ASSIGNED /\ cpu_os c = k;
  ci_free : forall x c, tbl (w_cpu w) x = Some c -> cpu_status c <> IHK_SMP_CPU_ASSIGNED -> cpu_os c = 0
}.

(** The machine: as many CPUs as the table has room for, hardware ids and
    nodes that fit in the bit sets, and a sysfs file that does what it is
    told when the write succeeds. *)
Record machine_ok `{SmpEnv} : Prop := {
  mo_nr : nr_cpu_ids <= SMP_MAX_CPUS;
  mo_hw : forall x, 0 <= x < nr_cpu_ids -> core_ok (ihk_smp_get_hw_id x) = true;
  mo_node : forall x, 0 <= x < nr_cpu_ids -> node_ok (cpu_to_node x) = true;
  mo_online : forall x v on on', kernel_write x v on = Some on' ->
    on' = if v then {[x]} ∪ on else on ∖ {[x]}
}.

(** A request that names no CPU twice. *)
Definition distinct_req (u : uarr Z) : Prop := match u with UArr _ _ l => NoDup l | UNull => True end.

Lemma distinct_copy u n l : distinct_req u -> copy_from_user u n = Some l -> NoDup l.
Proof.
  intros Hd Hc. unfold copy_from_user in Hc. destruct (n =? 0); [injection Hc as <-; constructor|].
  destruct u as [|[] w l0]; try done. case_match; [|done]. injection Hc as <-. simpl in Hd.
  eapply sublist_NoDup; [done|]. apply sublist_take.
Qed.

Lemma write_ok `{SmpEnv} x v on on' :
  machine_ok -> smp_ihk_write_cpu_sys_file x v on = Some on' -> on' = if v then {[x]} ∪ on else on ∖ {[x]}.
Proof. intros Hm. unfold smp_ihk_write_cpu_sys_file. case_match; [done|]. apply (mo_online Hm). Qed.

Section world.
  Context `{SmpEnv} (Hm : machine_ok).

Lemma range_max l : in_range l = true -> Forall (fun x => 0 <= x < SMP_MAX_CPUS) l.
Proof.
  rewrite in_range_spec. intros Hl. eapply Forall_impl; [exact Hl|]. pose proof (mo_nr Hm). simpl. lia.
Qed.

Lemma mask_max l : Forall (fun x => 0 <= x < SMP_MAX_CPUS) (mask_of l).
Proof.
  apply Forall_forall. intros x Hx. apply elem_of_mask in Hx. pose proof (mo_nr Hm). lia.
Qed.

(** New CPUs for a kernel. *)
Lemma assign_inv w k o l :
  cpu_inv w -> w_os w !! k = Some o -> NoDup l -> in_range l = true ->
  Forall (fun x => exists c, tbl (w_cpu w) x = Some c /\ cpu_status c = IHK_SMP_CPU_AVAILABLE) l ->
  exists s' o', assign_cpus k l (w_cpu w) o = Ret (s', o') /\ os_cpus o' = os_cpus o ++ l /\
    os_status o' = os_status o /\ cpu_inv (mk_world s' (<[k := o']> (w_os w))).
Proof.
  intros [I1 I2 I3 I4 I5 I6] Ho Hnd Hr Hav. destruct (I4 k o Ho) as [Hok Hn].
  rewrite Forall_forall in Hav.
  assert (forall x, x ∈ os_cpus o -> x ∈ l -> False) as Hdisj.
  { intros x H1 H2. destruct (I5 k o x Ho H1) as (c & Hc & Hs & _).
    destruct (Hav x H2) as (c' & Hc' & Hs'). rewrite Hc in Hc'. injection Hc' as <-. by rewrite Hs in Hs'. }
  destruct (assign_cpus_ok k l (w_cpu w) o) as (s' & o' & E & Hf' & Hon & Ho' & Eo & Hst & Ht); auto.
  - apply NoDup_app. split; [done|]. split; [|done]. intros x H1 H2. eauto.
  - apply Forall_app. split; [|by apply range_max]. apply Forall_forall. intros x Hx.
    destruct (I5 k o x Ho Hx) as (c & Hc & _). by eapply tbl_range.
  - apply Forall_forall. intros x Hx. destruct (Hav x Hx) as (c & Hc & Hs). split.
    + exists c. split; [done|]. apply (I2 x c Hc). by left.
    + apply (mo_node Hm). rewrite in_range_spec, Forall_forall in Hr. auto.
  - exists s', o'. split; [done|]. split; [done|]. split; [done|]. constructor; simpl.
    + done.
    + intros x c. rewrite Ht, Hon. case_bool_decide as Hx; [|apply I2].
      destruct (Hav x Hx) as (c0 & Hc0 & Hs). rewrite Hc0. simpl. intros [= <-]. simpl.
      split; [unfold stable; auto|]. intros _. apply (I2 x c0 Hc0). by left.
    + intros x c. rewrite Ht. case_bool_decide as Hx.
      * destruct (Hav x Hx) as (c0 & Hc0 & _). rewrite Hc0. simpl. intros [= <-] _. simpl.
        exists o'. rewrite lookup_insert_eq, Eo, elem_of_app. auto.
      * intros Hc Hs. destruct (I3 x c Hc Hs) as (o0 & Ho0 & Hin).
        destruct (decide (cpu_os c = k)) as [Ek|Ek]; [|exists o0; by rewrite lookup_insert_ne].
        exists o'. rewrite Ek, lookup_insert_eq, Eo, elem_of_app. split; [done|]. left. congruence.
    + intros k' o0. destruct (decide (k = k')) as [<-|Ek]; [|rewrite lookup_insert_ne by done; apply I4].
      rewrite lookup_insert_eq. intros [= <-]. split; [done|]. rewrite Eo. apply NoDup_app. split; [done|].
      split; [|done]. intros x H1 H2. eauto.
    + intros k' o0 x. destruct (decide (k = k')) as [<-|Ek].
      * rewrite lookup_insert_eq. intros [= <-]. rewrite Eo, elem_of_app, Ht. intros Hx.
        case_bool_decide as Hxl.
        -- destruct (Hav x Hxl) as (c0 & Hc0 & _). rewrite Hc0. by eexists.
        -- destruct Hx as [Hx|]; [|done]. by apply (I5 k o x Ho).
      * rewrite lookup_insert_ne by done. intros Ho0 Hx. rewrite Ht. rewrite bool_decide_eq_false_2; [by eapply I5|].
        intros Hxl. destruct (I5 k' o0 x Ho0 Hx) as (c & Hc & Hs & _).
        destruct (Hav x Hxl) as (c' & Hc' & Hs'). rewrite Hc in Hc'. injection Hc' as <-. by rewrite Hs in Hs'.
    + intros x c. rewrite Ht. case_bool_decide as Hx; [|apply I6].
      destruct (Hav x Hx) as (c0 & Hc0 & _). rewrite Hc0. simpl. by intros [= <-].
Qed.

(** CPUs taken from a kernel. *)
Lemma release_inv w k o l :
  cpu_inv w -> w_os w !! k = Some o -> NoDup l ->
  Forall (fun x => exists c, tbl (w_cpu w) x = Some c /\ cpu_status c = IHK_SMP_CPU_ASSIGNED /\ cpu_os c = k) l ->
  exists s' o', release_cpus l (w_cpu w) o = Ret (s', o') /\
    os_cpus o' = filter (fun y => y ∉ l) (os_cpus o) /\
    os_status o' = os_status o /\ cpu_inv (mk_world s' (<[k := o']> (w_os w))).
Proof.
  intros [I1 I2 I3 I4 I5 I6] Ho Hnd Hav. destruct (I4 k o Ho) as [Hok Hn]. rewrite Forall_forall in Hav.
  destruct (release_cpus_ok l (w_cpu w) o) as (s' & o' & E & Hf' & Hon & Ho' & Eo & Hst & Ht); auto.
  - intros x Hx. destruct (Hav x Hx) as (c & Hc & Hs & Hk). destruct (I3 x c Hc Hs) as (o0 & Ho0 & Hin). congruence.
  - apply Forall_forall. intros x Hx. destruct (Hav x Hx) as (c & Hc & Hs & _). exists c. split; [done|].
    apply (I2 x c Hc). by right.
  - exists s', o'. split; [done|]. split; [done|]. split; [done|]. constructor; simpl.
    + done.
    + intros x c. rewrite Ht, Hon. case_bool_decide as Hx; [|apply I2].
      destruct (Hav x Hx) as (c0 & Hc0 & Hs & _). rewrite Hc0. simpl. intros [= <-]. simpl.
      split; [unfold stable; auto|]. intros _. apply (I2 x c0 Hc0). by right.
    + intros x c. rewrite Ht. case_bool_decide as Hx.
      * destruct (Hav x Hx) as (c0 & Hc0 & _). rewrite Hc0. simpl. by intros [= <-].
      * intros Hc Hs. destruct (I3 x c Hc Hs) as (o0 & Ho0 & Hin).
        destruct (decide (cpu_os c = k)) as [Ek|Ek]; [|exists o0; by rewrite lookup_insert_ne].
        exists o'. rewrite Ek, lookup_insert_eq, Eo, list_elem_of_filter. split; [done|]. split; [done|]. congruence.
    + intros k' o0. destruct (decide (k = k')) as [<-|Ek]; [|rewrite lookup_insert_ne by done; apply I4].
      rewrite lookup_insert_eq. intros [= <-]. split; [done|]. rewrite Eo. by apply NoDup_filter.
    + intros k' o0 x. destruct (decide (k = k')) as [<-|Ek].
      * rewrite lookup_insert_eq. intros [= <-]. rewrite Eo, list_elem_of_filter, Ht. intros [Hx Hin].
        rewrite bool_decide_eq_false_2 by done. by apply (I5 k o x Ho).
      * rewrite lookup_insert_ne by done. intros Ho0 Hx. rewrite Ht. rewrite bool_decide_eq_false_2; [by eapply I5|].
        intros Hxl. destruct (I5 k' o0 x Ho0 Hx) as (c & Hc & _ & Hk).
        destruct (Hav x Hxl) as (c' & Hc' & _ & Hk'). congruence.
    + intros x c. rewrite Ht. case_bool_decide as Hx; [|apply I6].
      destruct (Hav x Hx) as (c0 & Hc0 & _). rewrite Hc0. simpl. by intros [= <-].
Qed.

(** Only the routing of messages has changed. *)
Definition same_but_ikc (s s' : cpust) : Prop :=
  full s' /\ online s' = online s /\ forall x, exists v, tbl s' x = (fun c => cpu_set_ikc c v) <$> tbl s x.

Lemma set_ikc_same c : cpu_set_ikc c (cpu_ikc_map c) = c.
Proof. by destruct c. Qed.

Lemma same_refl s : full s -> same_but_ikc s s.
Proof.
  intros Hf. split; [done|]. split; [done|]. intros x. destruct (tbl s x) as [c|]; [|by exists 0].
  exists (cpu_ikc_map c). simpl. by rewrite set_ikc_same.
Qed.

Lemma same_trans s1 s2 s3 : same_but_ikc s1 s2 -> same_but_ikc s2 s3 -> same_but_ikc s1 s3.
Proof.
  intros (_ & E & H2) (Hf & E' & H3). split; [done|]. split; [congruence|]. intros x.
  destruct (H2 x) as [v Hv], (H3 x) as [v' Hv']. exists v'. rewrite Hv', Hv. by destruct (tbl s1 x).
Qed.

Lemma same_inv w s' : cpu_inv w -> same_but_ikc (w_cpu w) s' -> cpu_inv (mk_world s' (w_os w)).
Proof.
  intros [I1 I2 I3 I4 I5 I6] (Hf & Eon & Ht).
  assert (forall x c', tbl s' x = Some c' -> exists c v, tbl (w_cpu w) x = Some c /\ c' = cpu_set_ikc c v) as Hb.
  { intros x c'. destruct (Ht x) as [v ->]. destruct (tbl (w_cpu w) x) as [c|]; [|done]. simpl. intros [= <-]. eauto. }
  constructor; simpl; auto.
  - intros x c' Hc'. destruct (Hb x c' Hc') as (c & v & Hc & ->). rewrite Eon. exact (I2 x c Hc).
  - intros x c' Hc'. destruct (Hb x c' Hc') as (c & v & Hc & ->). exact (I3 x c Hc).
  - intros k o x Ho Hx. destruct (I5 k o x Ho Hx) as (c & Hc & Hs & Hk). destruct (Ht x) as [v Hv].
    rewrite Hv, Hc. by eexists.
  - intros x c' Hc'. destruct (Hb x c' Hc') as (c & v & Hc & ->). exact (I6 x c Hc).
Qed.

Lemma restore_default_ok os o s : full s -> same_but_ikc s (restore_default os o s).
Proof.
  intros Hf. unfold restore_default. destruct (_ =? 1); [by apply same_refl|].
  split; [unfold full; simpl; by rewrite length_map|]. split; [done|]. intros x.
  unfold tbl. simpl. destruct (0 <=? x); [|by exists 0]. rewrite list_lookup_fmap.
  destruct (cpus s !! Z.to_nat x) as [c|]; [|by exists 0]. simpl.
  case_match; [by exists 0|]. exists (cpu_ikc_map c). by rewrite set_ikc_same.
Qed.

Lemma set_pairs_ok l : forall s, full s -> exists ret s', set_pairs l s = Ret (ret, s') /\ same_but_ikc s s'.
Proof.
  induction l as [|[src dst] l IH]; intros s Hf; simpl; [eauto using same_refl|].
  destruct (Z.ltb_spec src 0), (Z.leb_spec SMP_MAX_CPUS src); cbn [orb]; eauto using same_refl.
  destruct (tbl_full s src Hf) as [c Hc]; [lia|]. rewrite (aget_tbl _ _ _ Hc). cbn [mbind outcome_bind].
  destruct (negb (cpu_status c =? _)); [eauto using same_refl|].
  destruct (Z.ltb_spec dst 0), (Z.leb_spec SMP_MAX_CPUS dst); cbn [orb]; eauto using same_refl.
  destruct (tbl_full s dst Hf) as [d Hd]; [lia|]. rewrite (aget_tbl _ _ _ Hd). cbn [mbind outcome_bind].
  do 3 (case_match; [eauto using same_refl|]).
  destruct (put_cpu_ok s src (cpu_set_ikc c dst) Hf) as (s1 & -> & Hf1 & Hon1 & Ht1); [lia|].
  cbn [mbind outcome_bind]. destruct (IH s1 Hf1) as (ret & s' & E & Hs). exists ret, s'. split; [done|].
  eapply same_trans; [|exact Hs]. split; [done|]. split; [done|]. intros x. rewrite Ht1.
  destruct (Z.eqb_spec x src) as [->|].
  - exists dst. by rewrite Hc.
  - apply (same_refl s Hf).
Qed.

Lemma sweep_tbl from f s x :
  tbl (sweep from f s) x = (fun c => if cpu_status c =? from then f c else c) <$> tbl s x.
Proof. unfold tbl. simpl. destruct (0 <=? x); [|done]. by rewrite list_lookup_fmap. Qed.

Lemma sweep_full from f s : full s -> full (sweep from f s).
Proof. unfold full. simpl. by rewrite length_map. Qed.

(** ** Reservation *)

(** Some CPUs ([l1]) of a mask [l] were taken from one state to another. *)
Record marked (from to : Z) (l : list Z) (s s' : cpust) (l1 : list Z) : Prop := {
  mk_full : full s';
  mk_on : online s' = online s;
  mk_sub : l1 ⊆ l;
  mk_from : Forall (fun x => exists c, tbl s x = Some c /\ cpu_status c = from) l1;
  mk_tbl : forall y, tbl s' y = if bool_decide (y ∈ l1)
    then (fun c => mk_cpu y (ihk_smp_get_hw_id y) to 0 (cpu_ikc_map c)) <$> tbl s y else tbl s y
}.

Lemma marked_nil from to l s : full s -> marked from to l s s [].
Proof. intros Hf. constructor; auto using list_subseteq_nil. Qed.

(** The request is refused at this CPU. *)
Lemma stopped from to l s :
  full s -> exists ok s' l1, Ret (false, s) = Ret (ok, s') /\ (ok = true -> l1 = l) /\ marked from to l s s' l1.
Proof. intros Hf. exists false, s, []. split; [done|]. split; [done|]. by apply marked_nil. Qed.

Lemma marked_cons from to x l s c s1 s' l1 :
  tbl s x = Some c -> cpu_status c = from -> x ∉ l ->
  online s1 = online s ->
  (forall y, tbl s1 y = if y =? x then Some (mk_cpu x (ihk_smp_get_hw_id x) to 0 (cpu_ikc_map c)) else tbl s y) ->
  marked from to l s1 s' l1 -> marked from to (x :: l) s s' (x :: l1).
Proof.
  intros Hc Hs Hx Hon1 Ht1 [Hf' Hon' Hsub Hl1 Ht'].
  assert (x ∉ l1) as Hxl by (intros Hin; by apply Hsub in Hin).
  constructor.
  - done.
  - congruence.
  - intros y. rewrite !elem_of_cons. naive_solver.
  - constructor; [eauto|]. rewrite Forall_forall in Hl1 |- *. intros y Hy. destruct (Hl1 y Hy) as (d & Hd & Hds).
    rewrite Ht1 in Hd. destruct (Z.eqb_spec y x) as [->|]; [done|eauto].
  - intros y. rewrite Ht', Ht1. destruct (Z.eqb_spec y x) as [->|Hy].
    + rewrite bool_decide_eq_false_2 by done. rewrite bool_decide_eq_true_2 by left. by rewrite Hc.
    + assert (bool_decide (y ∈ x :: l1) = bool_decide (y ∈ l1)) as ->; [|done].
      apply bool_decide_ext. rewrite elem_of_cons. tauto.
Qed.

Lemma mark_offline_ok l : forall s,
  full s -> NoDup l -> Forall (fun x => 0 <= x < SMP_MAX_CPUS) l ->
  exists ok s' l1, mark_offline l s = Ret (ok, s') /\ (ok = true -> l1 = l) /\
    marked IHK_SMP_CPU_ONLINE IHK_SMP_CPU_TO_OFFLINE l s s' l1.
Proof.
  induction l as [|x l IH]; intros s Hf Hn Hr; simpl.
  { exists true, s, []. split; [done|]. split; [done|]. by apply marked_nil. }
  rewrite Forall_cons in Hr. destruct Hr as [Hx Hr]. rewrite NoDup_cons in Hn.
  destruct (tbl_full s x Hf Hx) as [c Hc]. rewrite (aget_tbl _ _ _ Hc). cbn [mbind outcome_bind].
  do 3 (case_match; [by apply stopped|]).
  destruct (Z.eqb_spec (cpu_status c) IHK_SMP_CPU_ONLINE) as [Hs|]; cbn [negb];
    [|by apply stopped].
  destruct (put_cpu_ok s x (mk_cpu x (ihk_smp_get_hw_id x) IHK_SMP_CPU_TO_OFFLINE 0 (cpu_ikc_map c)) Hf Hx)
    as (s1 & -> & Hf1 & Hon1 & Ht1). cbn [mbind outcome_bind].
  destruct (IH s1 Hf1) as (ok & s' & l1 & -> & Hok & Hmk); [tauto|done|].
  exists ok, s', (x :: l1). split; [done|]. split; [intros Ho; by rewrite (Hok Ho)|].
  eapply (marked_cons _ _ x l s c s1); [done|done|apply Hn|done|exact Ht1|done].
Qed.

Lemma mark_online_ok l : forall s,
  full s -> NoDup l -> Forall (fun x => 0 <= x < SMP_MAX_CPUS) l ->
  exists ok s' l1, mark_online l s = Ret (ok, s') /\ (ok = true -> l1 = l) /\
    marked IHK_SMP_CPU_AVAILABLE IHK_SMP_CPU_TO_ONLINE l s s' l1.
Proof.
  induction l as [|x l IH]; intros s Hf Hn Hr; simpl.
  { exists true, s, []. split; [done|]. split; [done|]. by apply marked_nil. }
  rewrite Forall_cons in Hr. destruct Hr as [Hx Hr]. rewrite NoDup_cons in Hn.
  do 3 (case_match; [by apply stopped|]).
  destruct (tbl_full s x Hf Hx) as [c Hc]. rewrite (aget_tbl _ _ _ Hc). cbn [mbind outcome_bind].
  destruct (Z.eqb_spec (cpu_status c) IHK_SMP_CPU_AVAILABLE) as [Hs|]; cbn [negb];
    [|by apply stopped].
  destruct (put_cpu_ok s x (mk_cpu x (ihk_smp_get_hw_id x) IHK_SMP_CPU_TO_ONLINE 0 (cpu_ikc_map c)) Hf Hx)
    as (s1 & -> & Hf1 & Hon1 & Ht1). cbn [mbind outcome_bind].
  destruct (IH s1 Hf1) as (ok & s' & l1 & -> & Hok & Hmk); [tauto|done|].
  exists ok, s', (x :: l1). split; [done|]. split; [intros Ho; by rewrite (Hok Ho)|].
  eapply (marked_cons _ _ x l s c s1); [done|done|apply Hn|done|exact Ht1|done].
Qed.

(** A loop that switches the CPUs whose state is [from] on or off ([v]), from
    index [i] on, and updates their entries with [f]. *)
Record looped (v : bool) (from : Z) (f : Z -> ihk_smp_cpu -> ihk_smp_cpu) (i : Z)
    (l : list ihk_smp_cpu) (on : gset Z) (ok : bool) (l' : list ihk_smp_cpu) (on' : gset Z) : Prop := {
  lp_len : length l' = length l;
  lp_keep : forall j c, l !! j = Some c -> cpu_status c <> from -> l' !! j = Some c;
  lp_done : forall j c, l !! j = Some c -> cpu_status c = from ->
    (l' !! j = Some c /\ ok = false) \/
    (l' !! j = Some (f (i + Z.of_nat j) c) /\ (i + Z.of_nat j ∈ on' <-> v = true));
  lp_on : forall x, (x ∈ on' <-> x ∈ on) \/
    (exists j c, x = i + Z.of_nat j /\ l !! j = Some c /\ cpu_status c = from /\
       l' !! j = Some (f x c) /\ (x ∈ on' <-> v = true))
}.

Section loop.
  Context (v : bool) (from : Z) (f : Z -> ihk_smp_cpu -> ihk_smp_cpu).

Lemma looped_nil i on : looped v from f i [] on true [] on.
Proof. constructor; try done. intros x. by left. Qed.

Lemma looped_stop i l on : looped v from f i l on false l on.
Proof. constructor; auto. Qed.

Lemma looped_cons i c c' l on on1 ok l' on' :
  (cpu_status c <> from -> c' = c /\ on1 = on) ->
  (cpu_status c = from -> c' = f i c /\ on1 = if v then {[i]} ∪ on else on ∖ {[i]}) ->
  looped v from f (i + 1) l on1 ok l' on' -> looped v from f i (c :: l) on ok (c' :: l') on'.
Proof.
  intros Hne Heq [L1 L2 L3 L4].
  assert (i ∈ on' <-> i ∈ on1) as Hi by (destruct (L4 i) as [|(j & d & ? & _)]; [done|lia]).
  assert (cpu_status c = from -> (i ∈ on' <-> v = true)) as Hv.
  { intros Hs. destruct (Heq Hs) as [_ ->]. rewrite Hi. destruct v; set_solver. }
  constructor.
  - simpl. by rewrite L1.
  - intros [|j] d Hd Hs; simpl in *; [|by apply L2]. injection Hd as <-. by destruct (Hne Hs) as [-> _].
  - intros [|j] d Hd Hs; simpl in *.
    + injection Hd as <-. right. rewrite Z.add_0_r. destruct (Heq Hs) as [-> _]. by split; [|apply Hv].
    + replace (i + Z.of_nat (S j)) with (i + 1 + Z.of_nat j) by lia. by apply L3.
  - intros x. destruct (L4 x) as [Hx|(j & d & -> & Hd)].
    2:{ right. exists (S j), d. split; [lia|]. exact Hd. }
    destruct (decide (cpu_status c = from)) as [Hs|Hs]; [|destruct (Hne Hs) as [_ ->]; by left].
    destruct (decide (x = i)) as [->|Hxi].
    + right. exists O, c. rewrite Z.add_0_r. destruct (Heq Hs) as [-> _]. by repeat (split; [done|]); apply Hv.
    + left. rewrite Hx. destruct (Heq Hs) as [_ ->]. destruct v; set_solver.
Qed.

(** The effect on the table. *)
Lemma looped_tbl s ok t on :
  looped v from f 0 (cpus s) (online s) ok t on ->
  forall x, (tbl (mk_cpust t on) x = tbl s x /\
      forall c, tbl s x = Some c -> cpu_status c = from -> ok = false) \/
    exists c, tbl s x = Some c /\ cpu_status c = from /\ tbl (mk_cpust t on) x = Some (f x c) /\ (x ∈ on <-> v = true).
Proof.
  intros [L1 L2 L3 L4] x. destruct (tbl s x) as [c|] eqn:Hc; unfold tbl in *; simpl in *.
  - destruct (Z.leb_spec 0 x) as [Hx|]; [|done]. destruct (decide (cpu_status c = from)) as [Hs|Hs].
    + specialize (L3 _ _ Hc Hs). rewrite Z2Nat.id, Z.add_0_l in L3 by lia. destruct L3 as [[? ?]|]; [by left|].
      right. exists c. tauto.
    + left. split; [by apply L2|]. by intros d [= <-].
  - left. split; [|done]. destruct (0 <=? x); [|done]. apply lookup_ge_None. rewrite L1. by apply lookup_ge_None.
Qed.
End loop.

Lemma looped_full v from f s ok t on :
  full s -> looped v from f 0 (cpus s) (online s) ok t on -> full (mk_cpust t on).
Proof. intros Hf [L _ _ _]. unfold full. simpl. by rewrite L. Qed.

Lemma offline_loop_ok l : forall i on,
  exists ok l' on', offline_loop i l on = (ok, l', on') /\
    looped false IHK_SMP_CPU_TO_OFFLINE
      (fun x c => mk_cpu (cpu_id c) (ihk_smp_get_hw_id x) IHK_SMP_CPU_OFFLINED 0 (cpu_ikc_map c)) i l on ok l' on'.
Proof.
  induction l as [|c l IH]; intros i on; simpl; [eauto using looped_nil|].
  destruct (Z.eqb_spec (cpu_status c) IHK_SMP_CPU_TO_OFFLINE) as [Hs|Hs]; cbn [negb].
  - destruct (smp_ihk_offline_cpu i on) as [on1|] eqn:Eon; [|eauto using looped_stop].
    destruct (IH (i + 1) on1) as (ok & l' & on' & -> & Hl). eexists _, _, _. split; [done|].
    eapply looped_cons; [done| |exact Hl]. intros _. split; [done|]. by apply (write_ok _ _ _ _ Hm) in Eon.
  - destruct (IH (i + 1) on) as (ok & l' & on' & -> & Hl). eexists _, _, _. split; [done|].
    by eapply looped_cons; [..|exact Hl].
Qed.

Lemma online_loop_ok l : forall i on,
  exists ok l' on', online_loop i l on = (ok, l', on') /\
    looped true IHK_SMP_CPU_TO_ONLINE (fun _ c => cpu_set_os c IHK_SMP_CPU_ONLINE 0) i l on ok l' on'.
Proof.
  induction l as [|c l IH]; intros i on; simpl; [eauto using looped_nil|].
  destruct (Z.eqb_spec (cpu_status c) IHK_SMP_CPU_TO_ONLINE) as [Hs|Hs]; cbn [negb].
  - destruct (smp_ihk_online_cpu i on) as [on1|] eqn:Eon; [|eauto using looped_stop].
    destruct (IH (i + 1) on1) as (ok & l' & on' & -> & Hl). eexists _, _, _. split; [done|].
    eapply looped_cons; [done| |exact Hl]. intros _. split; [done|]. by apply (write_ok _ _ _ _ Hm) in Eon.
  - destruct (IH (i + 1) on) as (ok & l' & on' & -> & Hl). eexists _, _, _. split; [done|].
    by eapply looped_cons; [..|exact Hl].
Qed.

Lemma online_again_ok l : forall i on,
  exists on', online_again i l on =
    (map (fun c => if cpu_status c =? IHK_SMP_CPU_OFFLINED then cpu_set_status c IHK_SMP_CPU_ONLINE else c) l, on') /\
    forall x, x ∈ on' -> x ∈ on \/
      exists j c, x = i + Z.of_nat j /\ l !! j = Some c /\ cpu_status c = IHK_SMP_CPU_OFFLINED.
Proof.
  induction l as [|c l IH]; intros i on; simpl; [eauto|].
  destruct (Z.eqb_spec (cpu_status c) IHK_SMP_CPU_OFFLINED) as [Hs|Hs]; cbn [negb].
  - destruct (IH (i + 1) (default on (smp_ihk_online_cpu i on))) as (on' & -> & Hon). exists on'. split; [done|].
    intros x Hx. destruct (Hon x Hx) as [Hx'|(j & d & -> & Hd)].
    + destruct (decide (x = i)) as [->|Hxi].
      * right. exists O, c. split; [lia|done].
      * left. destruct (smp_ihk_online_cpu i on) as [on1|] eqn:Eon; [|done].
        apply (write_ok _ _ _ _ Hm) in Eon. simpl in *. set_solver.
    + right. exists (S j), d. split; [lia|done].
  - destruct (IH (i + 1) on) as (on' & -> & Hon). exists on'. split; [done|].
    intros x Hx. destruct (Hon x Hx) as [|(j & d & -> & Hd)]; [by left|]. right. exists (S j), d. split; [lia|done].
Qed.
(** ** Reserving and giving back CPUs *)

Definition settled (s : cpust) : Prop := forall x c, tbl s x = Some c -> stable (cpu_status c).

Lemma marked_tbl from to l s s' l1 :
  marked from to l s s' l1 -> forall x,
  (x ∈ l1 /\ exists c, tbl s x = Some c /\ cpu_status c = from /\
     tbl s' x = Some (mk_cpu x (ihk_smp_get_hw_id x) to 0 (cpu_ikc_map c))) \/
  ((x ∉ l1) /\ tbl s' x = tbl s x).
Proof.
  intros [_ _ _ Hl1 Ht] x. rewrite Ht. case_bool_decide as Hx; [left|by right]. split; [done|].
  rewrite Forall_forall in Hl1. destruct (Hl1 x Hx) as (c & Hc & Hs). exists c. by rewrite Hc.
Qed.

Lemma settled_not s x c v : settled s -> tbl s x = Some c -> cpu_status c = v -> stable v.
Proof. intros Hs Hc <-. by eapply Hs. Qed.

Lemma stable_transient v :
  stable v -> v <> IHK_SMP_CPU_TO_OFFLINE /\ v <> IHK_SMP_CPU_OFFLINED /\ v <> IHK_SMP_CPU_TO_ONLINE.
Proof. by intros [->|[->|[->| ->]]]. Qed.

(** A sweep over the entries in a transient state leaves a settled entry. *)
Lemma swept_settled s x from f :
  settled s -> ~ stable from ->
  ((fun c => if cpu_status c =? from then f c else c) <$> tbl s x) = tbl s x.
Proof.
  intros Hs Hf. destruct (tbl s x) as [c|] eqn:Hc; [|done]. simpl.
  destruct (Z.eqb_spec (cpu_status c) from) as [E|]; [|done]. exfalso. apply Hf. rewrite <- E. by eapply Hs.
Qed.

(** What a failed reservation leaves: the same states; the entries it touched
    are those of CPUs used by Linux. *)
Definition reserve_undone (s s' : cpust) : Prop :=
  (forall x, tbl s' x = tbl s x \/ exists c, tbl s x = Some c /\ cpu_status c = IHK_SMP_CPU_ONLINE /\
     tbl s' x = Some (mk_cpu x (ihk_smp_get_hw_id x) IHK_SMP_CPU_ONLINE 0 (cpu_ikc_map c))) /\
  (forall x, x ∈ online s' -> x ∈ online s \/ exists c, tbl s x = Some c /\ cpu_status c = IHK_SMP_CPU_ONLINE).

(** What a reservation of the CPUs [m] gives. *)
Definition reserve_done (m : list Z) (s s' : cpust) : Prop :=
  (forall x, x ∈ m -> (x ∉ online s') /\ exists c, tbl s x = Some c /\ cpu_status c = IHK_SMP_CPU_ONLINE /\
     tbl s' x = Some (mk_cpu x (ihk_smp_get_hw_id x) IHK_SMP_CPU_AVAILABLE 0 (cpu_ikc_map c))) /\
  (forall x, x ∉ m -> tbl s' x = tbl s x /\ (x ∈ online s' <-> x ∈ online s)).

Lemma unstable_to_offline : ~ stable IHK_SMP_CPU_TO_OFFLINE.
Proof. by intros [|[|[|]]]. Qed.
Lemma unstable_offlined : ~ stable IHK_SMP_CPU_OFFLINED.
Proof. by intros [|[|[|]]]. Qed.
Lemma unstable_to_online : ~ stable IHK_SMP_CPU_TO_ONLINE.
Proof. by intros [|[|[|]]]. Qed.
Hint Resolve unstable_to_offline unstable_offlined unstable_to_online : core.

Lemma mark_undone m s s1 l1 :
  settled s -> marked IHK_SMP_CPU_ONLINE IHK_SMP_CPU_TO_OFFLINE m s s1 l1 ->
  reserve_undone s (err_before_offline s1).
Proof.
  intros Hst Hmk. split; intros x; unfold err_before_offline.
  - rewrite sweep_tbl. destruct (marked_tbl _ _ _ _ _ _ Hmk x) as [(_ & c & Hc & Hs & ->)|[_ ->]]; simpl.
    + right. by exists c.
    + left. by apply swept_settled.
  - simpl. rewrite (mk_on _ _ _ _ _ _ Hmk). auto.
Qed.

(** The entries after the offline loop. *)
Lemma offlined_tbl m s s1 l1 ok t on :
  settled s -> marked IHK_SMP_CPU_ONLINE IHK_SMP_CPU_TO_OFFLINE m s s1 l1 ->
  looped false IHK_SMP_CPU_TO_OFFLINE
    (fun x c => mk_cpu (cpu_id c) (ihk_smp_get_hw_id x) IHK_SMP_CPU_OFFLINED 0 (cpu_ikc_map c))
    0 (cpus s1) (online s1) ok t on ->
  forall x, ((x ∉ l1) /\ tbl (mk_cpust t on) x = tbl s x) \/
  (x ∈ l1 /\ exists c, tbl s x = Some c /\ cpu_status c = IHK_SMP_CPU_ONLINE /\
     exists v, tbl (mk_cpust t on) x = Some (mk_cpu x (ihk_smp_get_hw_id x) v 0 (cpu_ikc_map c)) /\
       ((v = IHK_SMP_CPU_TO_OFFLINE /\ ok = false) \/ (v = IHK_SMP_CPU_OFFLINED /\ x ∉ on))).
Proof.
  intros Hst Hmk Hlp x. pose proof (looped_tbl _ _ _ _ _ _ _ Hlp x) as Hx.
  destruct (marked_tbl _ _ _ _ _ _ Hmk x) as [(Hl & c & Hc & Hs & Hc1)|[Hl Hc1]].
  - right. split; [done|]. exists c. split; [done|]. split; [done|]. rewrite Hc1 in Hx.
    destruct Hx as [[E Hok]|(d & [= <-] & _ & E & Hon)]; rewrite E; eexists.
    + split; [done|]. left. split; [done|]. by eapply Hok.
    + split; [done|]. right. split; [done|]. by rewrite Hon.
  - left. split; [done|]. rewrite Hc1 in Hx. destruct Hx as [[? _]|(c & Hc & Hs & _)]; [done|].
    by destruct (unstable_to_offline (settled_not _ _ _ _ Hst Hc Hs)).
Qed.

Lemma tbl_map g t on on' x : tbl (mk_cpust (map g t) on') x = g <$> tbl (mk_cpust t on) x.
Proof. unfold tbl. simpl. destruct (0 <=? x); [|done]. by rewrite list_lookup_fmap. Qed.

Lemma offline_undone m s s1 l1 t on :
  settled s -> marked IHK_SMP_CPU_ONLINE IHK_SMP_CPU_TO_OFFLINE m s s1 l1 ->
  looped false IHK_SMP_CPU_TO_OFFLINE
    (fun x c => mk_cpu (cpu_id c) (ihk_smp_get_hw_id x) IHK_SMP_CPU_OFFLINED 0 (cpu_ikc_map c))
    0 (cpus s1) (online s1) false t on ->
  let '(t', on') := online_again 0 t on in
  length t' = length t /\ reserve_undone s (err_before_offline (mk_cpust t' on')).
Proof.
  intros Hst Hmk Hlp. pose proof (offlined_tbl _ _ _ _ _ _ _ Hst Hmk Hlp) as Ht.
  destruct (online_again_ok t 0 on) as (on' & -> & Hon). split; [by rewrite length_map|].
  unfold err_before_offline. split; intros x.
  - rewrite sweep_tbl, (tbl_map _ _ on). destruct (Ht x) as [[_ ->]|(_ & c & Hc & Hs & v & -> & Hv)].
    + left. by rewrite !swept_settled.
    + right. exists c. split; [done|]. split; [done|]. by destruct Hv as [[-> _]|[-> _]].
  - simpl. intros Hx. destruct (Hon x Hx) as [Hx'|(j & d & -> & Hd & Hs)].
    + destruct (lp_on _ _ _ _ _ _ _ _ _ Hlp x) as [E|(_ & _ & _ & _ & _ & _ & E)].
      * left. rewrite <- (mk_on _ _ _ _ _ _ Hmk). by apply E.
      * by apply E in Hx'.
    + right. rewrite Z.add_0_l. rewrite <- (tbl_nat (mk_cpust t on)) in Hd.
      destruct (Ht (Z.of_nat j)) as [[_ E]|(_ & c & Hc & Hs' & _)]; [|eauto].
      rewrite E in Hd. by destruct (unstable_offlined (settled_not _ _ _ _ Hst Hd Hs)).
Qed.

Lemma offline_done m s s1 t on :
  settled s -> marked IHK_SMP_CPU_ONLINE IHK_SMP_CPU_TO_OFFLINE m s s1 m ->
  looped false IHK_SMP_CPU_TO_OFFLINE
    (fun x c => mk_cpu (cpu_id c) (ihk_smp_get_hw_id x) IHK_SMP_CPU_OFFLINED 0 (cpu_ikc_map c))
    0 (cpus s1) (online s1) true t on ->
  reserve_done m s (sweep IHK_SMP_CPU_OFFLINED (fun c => cpu_set_status c IHK_SMP_CPU_AVAILABLE) (mk_cpust t on)).
Proof.
  intros Hst Hmk Hlp. pose proof (offlined_tbl _ _ _ _ _ _ _ Hst Hmk Hlp) as Ht.
  split; intros x Hx; rewrite sweep_tbl.
  - destruct (Ht x) as [[? _]|(_ & c & Hc & Hs & v & -> & [[_ ?]|[-> Hon]])]; [done|done|].
    split; [done|]. by exists c.
  - destruct (Ht x) as [[_ ->]|[? _]]; [|done]. rewrite swept_settled by done. split; [done|].
    simpl. destruct (lp_on _ _ _ _ _ _ _ _ _ Hlp x) as [E|(j & c & Ej & Hj & Hs & _)].
    + by rewrite E, (mk_on _ _ _ _ _ _ Hmk).
    + rewrite <- tbl_nat in Hj. rewrite Z.add_0_l in Ej. rewrite <- Ej in Hj.
      destruct (marked_tbl _ _ _ _ _ _ Hmk x) as [[? _]|[_ E]]; [done|]. rewrite E in Hj.
      by destruct (unstable_to_offline (settled_not _ _ _ _ Hst Hj Hs)).
Qed.

Lemma full_sweep from f s : full s -> full (sweep from f s).
Proof. unfold full, sweep. simpl. by rewrite length_map. Qed.

(** Reserving either reserves all of the CPUs or undoes what it did. *)
Lemma reserve_mask_ok m s :
  full s -> settled s -> NoDup m -> Forall (fun x => 0 <= x < SMP_MAX_CPUS) m ->
  exists ret s', reserve_mask m s = Ret (ret, s') /\ full s' /\
    ((ret = 0 /\ reserve_done m s s') \/ (ret < 0 /\ reserve_undone s s')).
Proof.
  intros Hf Hst Hn Hr. unfold reserve_mask.
  destruct (mark_offline_ok m s Hf Hn Hr) as (ok & s1 & l1 & -> & Hok & Hmk). cbn [mbind outcome_bind].
  pose proof (mk_full _ _ _ _ _ _ Hmk) as Hf1.
  destruct ok; cbn [negb].
  2:{ eexists _, _. split; [done|]. split; [by apply full_sweep|]. right. split; [done|]. by eapply mark_undone. }
  rewrite (Hok eq_refl) in Hmk.
  destruct (offline_loop_ok (cpus s1) 0 (online s1)) as (ok & t & on & -> & Hlp).
  pose proof (looped_full _ _ _ _ _ _ _ Hf1 Hlp) as Hf2. destruct ok; cbn [negb].
  - eexists _, _. split; [done|]. split; [by apply full_sweep|]. left. split; [done|]. by eapply offline_done.
  - pose proof (offline_undone _ _ _ _ _ _ Hst Hmk Hlp) as Hu. destruct (online_again 0 t on) as [t' on'].
    destruct Hu as [Hl Hu]. eexists _, _. split; [done|]. split; [|by right].
    apply full_sweep. unfold full in *. simpl in *. by rewrite Hl.
Qed.
(** What giving back the CPUs [m] leaves; a failure ([ret < 0]) may come after
    some of them were started. *)
Definition release_left (m : list Z) (ret : Z) (s s' : cpust) : Prop := forall x,
  (tbl s' x = tbl s x /\ (x ∈ online s' <-> x ∈ online s) /\ (x ∈ m -> ret < 0)) \/
  (x ∈ m /\ exists c, tbl s x = Some c /\ cpu_status c = IHK_SMP_CPU_AVAILABLE /\
    exists v, tbl s' x = Some (mk_cpu x (ihk_smp_get_hw_id x) v 0 (cpu_ikc_map c)) /\
      ((ret < 0 /\ v = IHK_SMP_CPU_AVAILABLE /\ (x ∈ online s' <-> x ∈ online s)) \/
       (v = IHK_SMP_CPU_ONLINE /\ x ∈ online s'))).

Lemma mark_release_left m s s1 l1 :
  settled s -> marked IHK_SMP_CPU_AVAILABLE IHK_SMP_CPU_TO_ONLINE m s s1 l1 ->
  release_left m (- EINVAL) s
    (sweep IHK_SMP_CPU_TO_ONLINE (fun c => cpu_set_status c IHK_SMP_CPU_AVAILABLE) s1).
Proof.
  intros Hst Hmk x. rewrite sweep_tbl. simpl. rewrite (mk_on _ _ _ _ _ _ Hmk).
  destruct (marked_tbl _ _ _ _ _ _ Hmk x) as [(Hx & c & Hc & Hs & ->)|[_ ->]].
  - right. split; [by apply (mk_sub _ _ _ _ _ _ Hmk)|]. exists c. split; [done|]. split; [done|]. simpl. eexists.
    split; [done|]. by left.
  - left. by rewrite swept_settled.
Qed.

(** The entries after the online loop. *)
Lemma onlined_tbl m s s1 ok t on :
  settled s -> marked IHK_SMP_CPU_AVAILABLE IHK_SMP_CPU_TO_ONLINE m s s1 m ->
  looped true IHK_SMP_CPU_TO_ONLINE (fun _ c => cpu_set_os c IHK_SMP_CPU_ONLINE 0)
    0 (cpus s1) (online s1) ok t on ->
  forall x, ((x ∉ m) /\ tbl (mk_cpust t on) x = tbl s x /\ (x ∈ on <-> x ∈ online s)) \/
  (x ∈ m /\ exists c, tbl s x = Some c /\ cpu_status c = IHK_SMP_CPU_AVAILABLE /\
     exists v, tbl (mk_cpust t on) x = Some (mk_cpu x (ihk_smp_get_hw_id x) v 0 (cpu_ikc_map c)) /\
       ((v = IHK_SMP_CPU_TO_ONLINE /\ ok = false /\ (x ∈ on <-> x ∈ online s)) \/
        (v = IHK_SMP_CPU_ONLINE /\ x ∈ on))).
Proof.
  intros Hst Hmk Hlp x. pose proof (looped_tbl _ _ _ _ _ _ _ Hlp x) as Hx.
  pose proof (lp_on _ _ _ _ _ _ _ _ _ Hlp x) as Hon. rewrite (mk_on _ _ _ _ _ _ Hmk) in Hon.
  assert (tbl (mk_cpust t on) x = tbl s1 x -> (x ∈ on <-> x ∈ online s)) as Hsame.
  { intros E. destruct Hon as [|(j & c & Ej & Hj & Hs & Hj' & _)]; [done|]. exfalso.
    rewrite Z.add_0_l in Ej. rewrite <- tbl_nat, <- Ej in Hj. rewrite <- (tbl_nat (mk_cpust t on)), <- Ej in Hj'.
    rewrite E, Hj in Hj'. injection Hj' as E'. by rewrite E' in Hs. }
  destruct (marked_tbl _ _ _ _ _ _ Hmk x) as [(Hl & c & Hc & Hs & Hc1)|[Hl Hc1]].
  - right. split; [done|]. exists c. split; [done|]. split; [done|]. rewrite Hc1 in Hx, Hsame.
    destruct Hx as [[E Hok]|(d & [= <-] & _ & E & Hv)]; rewrite E; eexists; (split; [done|]).
    + left. split; [done|]. split; [by eapply Hok|]. by apply Hsame.
    + right. split; [done|]. by apply Hv.
  - left. split; [done|]. rewrite Hc1 in Hx, Hsame. destruct Hx as [[? _]|(c & Hc & Hs & _)]; [by auto|].
    by destruct (unstable_to_online (settled_not _ _ _ _ Hst Hc Hs)).
Qed.

Lemma release_mask_ok m s :
  full s -> settled s -> NoDup m -> Forall (fun x => 0 <= x < SMP_MAX_CPUS) m ->
  exists ret s', release_mask m s = Ret (ret, s') /\ full s' /\ ret <= 0 /\ release_left m ret s s'.
Proof.
  intros Hf Hst Hn Hr. unfold release_mask. cbv zeta.
  destruct (mark_online_ok m s Hf Hn Hr) as (ok & s1 & l1 & -> & Hok & Hmk). cbn [mbind outcome_bind].
  pose proof (mk_full _ _ _ _ _ _ Hmk) as Hf1. destruct ok; cbn [negb].
  2:{ eexists _, _. split; [done|]. split; [by apply full_sweep|]. split; [done|]. by eapply mark_release_left. }
  rewrite (Hok eq_refl) in Hmk.
  destruct (online_loop_ok (cpus s1) 0 (online s1)) as (ok & t & on & -> & Hlp).
  pose proof (looped_full _ _ _ _ _ _ _ Hf1 Hlp) as Hf2.
  pose proof (onlined_tbl _ _ _ _ _ _ Hst Hmk Hlp) as Ht.
  destruct ok; cbn [negb]; eexists _, _; (split; [done|]); (split; [by try apply full_sweep|]); (split; [done|]); intros x.
  - destruct (Ht x) as [(? & ? & ?)|(Hx & c & Hc & Hs & v & Hv & [(_ & ? & _)|?])]; [by left|done|].
    right. split; [done|]. exists c. split; [done|]. split; [done|]. exists v. auto.
  - rewrite sweep_tbl. simpl. destruct (Ht x) as [(Hx & -> & ?)|(Hx & c & Hc & Hs & v & -> & Hv)].
    + left. by rewrite swept_settled.
    + right. split; [done|]. exists c. split; [done|]. split; [done|].
      destruct Hv as [(-> & _ & ?)|[-> ?]]; simpl; eexists; (split; [done|]); [by left|by right].
Qed.

(** ** The invariant under changes of the table *)

(** No CPU of a kernel is touched. *)
Lemma retable_inv w s' :
  cpu_inv w -> full s' ->
  (forall x, (tbl s' x = tbl (w_cpu w) x /\ (x ∈ online s' -> x ∈ online (w_cpu w) \/
       exists c, tbl (w_cpu w) x = Some c /\ cpu_status c = IHK_SMP_CPU_ONLINE)) \/
     exists c c', tbl (w_cpu w) x = Some c /\ cpu_status c <> IHK_SMP_CPU_ASSIGNED /\ tbl s' x = Some c' /\
       cpu_os c' = 0 /\ (cpu_status c' = IHK_SMP_CPU_ONLINE \/
        (cpu_status c' = IHK_SMP_CPU_AVAILABLE /\ (x ∉ online s') /\ core_ok (cpu_hw_id c') = true))) ->
  cpu_inv (mk_world s' (w_os w)).
Proof.
  intros [I1 I2 I3 I4 I5 I6] Hf Hx. constructor; simpl; [done| | |done| |].
  - intros x c' Hc'. destruct (Hx x) as [[E Hon]|(c & d & _ & _ & E & _ & Hs)]; rewrite E in Hc'.
    + destruct (I2 x c' Hc') as [Hst Hr]. split; [done|]. intros Hs. destruct (Hr Hs) as [Hn Hk]. split; [|done].
      intros Hin. destruct (Hon Hin) as [|(d & Hd & Hd')]; [done|]. rewrite Hc' in Hd. injection Hd as <-.
      rewrite Hd' in Hs. by destruct Hs.
    + injection Hc' as <-. destruct Hs as [Hs|(Hs & ? & ?)]; rewrite Hs; (split; [unfold stable; auto|]); [|auto].
      by intros [|].
  - intros x c' Hc' Hs'. destruct (Hx x) as [[E _]|(c & d & _ & _ & E & _ & Hs)]; rewrite E in Hc'; [by eapply I3|].
    injection Hc' as <-. rewrite Hs' in Hs. by destruct Hs as [|[? _]].
  - intros k o x Ho Hin. destruct (I5 k o x Ho Hin) as (c & Hc & Hs & Hk).
    destruct (Hx x) as [[-> _]|(d & _ & Hd & Hd' & _)]; [eauto|]. congruence.
  - intros x c' Hc'. destruct (Hx x) as [[E _]|(c & d & _ & _ & E & H0 & _)]; rewrite E in Hc'; [exact (I6 x c' Hc')|].
    by injection Hc' as <-.
Qed.

Lemma cpu_inv_settled w : cpu_inv w -> settled (w_cpu w).
Proof. intros Hi x c Hc. by apply (ci_entry _ Hi x c). Qed.

Lemma reserve_mask_inv w m :
  cpu_inv w -> NoDup m -> Forall (fun x => 0 <= x < nr_cpu_ids) m ->
  exists ret s', reserve_mask m (w_cpu w) = Ret (ret, s') /\ ret <= 0 /\ cpu_inv (mk_world s' (w_os w)) /\
    (ret = 0 -> reserve_done m (w_cpu w) s') /\ (ret <> 0 -> reserve_undone (w_cpu w) s').
Proof.
  intros Hi Hn Hr. pose proof (mo_nr Hm) as Hnr. assert (Forall (fun x => 0 <= x < SMP_MAX_CPUS) m) as Hr'.
  { eapply Forall_impl; [exact Hr|]. simpl. lia. }
  destruct (reserve_mask_ok m (w_cpu w) (ci_full _ Hi) (cpu_inv_settled _ Hi) Hn Hr')
    as (ret & s' & -> & Hf & Hs). exists ret, s'. split; [done|].
  destruct Hs as [[-> Hd]|[Hlt Hu]]; (split; [lia|]); (split; [|split; [intros; by try lia|intros; by try lia]]);
    (apply retable_inv; [done|done|]); intros x.
  - destruct Hd as [H1 H2]. destruct (decide (x ∈ m)) as [Hx|Hx].
    + right. destruct (H1 x Hx) as (Hno & c & Hc & Hs & E). exists c. eexists. split; [done|].
      split; [by rewrite Hs|]. split; [done|]. split; [done|]. right. split; [done|]. split; [done|].
      apply (mo_hw Hm). rewrite Forall_forall in Hr. auto.
    + left. destruct (H2 x Hx) as [E Hon]. split; [done|]. rewrite Hon. auto.
  - destruct Hu as [H1 H2]. destruct (H1 x) as [E|(c & Hc & Hs & E)]; [left; auto|]. right. exists c. eexists.
    split; [done|]. split; [by rewrite Hs|]. split; [done|]. split; [done|]. by left.
Qed.

Lemma release_mask_inv w m :
  cpu_inv w -> NoDup m -> Forall (fun x => 0 <= x < nr_cpu_ids) m ->
  exists ret s', release_mask m (w_cpu w) = Ret (ret, s') /\ ret <= 0 /\ cpu_inv (mk_world s' (w_os w)) /\
    release_left m ret (w_cpu w) s'.
Proof.
  intros Hi Hn Hr. pose proof (mo_nr Hm) as Hnr. assert (Forall (fun x => 0 <= x < SMP_MAX_CPUS) m) as Hr'.
  { eapply Forall_impl; [exact Hr|]. simpl. lia. }
  destruct (release_mask_ok m (w_cpu w) (ci_full _ Hi) (cpu_inv_settled _ Hi) Hn Hr')
    as (ret & s' & -> & Hf & Hle & Hs). exists ret, s'. split; [done|]. split; [done|]. split; [|done].
  apply retable_inv; [done|done|]. intros x.
  destruct (Hs x) as [(E & Hon & _)|(Hx & c & Hc & Hst & v & E & Hv)]; [left; rewrite Hon; auto|].
  right. exists c. eexists. split; [done|]. split; [by rewrite Hst|]. split; [done|]. split; [done|]. simpl.
  destruct Hv as [(_ & -> & Hon)|[-> _]]; [right|by left]. split; [done|]. split.
  - rewrite Hon. apply (ci_entry _ Hi x c Hc). by left.
  - apply (mo_hw Hm). rewrite Forall_forall in Hr. auto.
Qed.
(** ** The operations on all kernels *)

Definition os_exec (k : Z) (f : smp_os_data -> outcome (Z * cpust * smp_os_data)) (w : world) : outcome (Z * world) :=
  match w_os w !! k with
  | None => Ret (- EINVAL, w)
  | Some o => ' (ret, s, o) ← f o; Ret (ret, mk_world s (<[k := o]> (w_os w)))
  end.

(** Requests to the driver; a request for a kernel that does not exist does
    not reach it, and a new kernel is not one that exists. *)
Inductive cpu_op : Type :=
| CCreate (km : bool) (os : Z)
| CReserve (km : bool) (arg : uptr ihk_cpu_req)
| CRelease (km : bool) (arg : uptr ihk_cpu_req)
| CAssign (km : bool) (os : Z) (arg : uptr ihk_cpu_req)
| CReleaseOs (km : bool) (os : Z) (arg : uptr ihk_cpu_req)
| CSetIkc (km : nat -> bool) (os : Z) (arg : uptr ihk_ikc_req).

Definition cpu_exec (op : cpu_op) (w : world) : outcome (Z * world) :=
  match op with
  | CCreate km os =>
      match w_os w !! os, smp_ihk_create_os km with
      | None, (ret, Some o) => Ret (ret, mk_world (w_cpu w) (<[os := o]> (w_os w)))
      | _, (ret, _) => Ret (ret, w)
      end
  | CReserve km arg => ' (ret, s) ← smp_ihk_reserve_cpu km arg (w_cpu w); Ret (ret, mk_world s (w_os w))
  | CRelease km arg => ' (ret, s) ← smp_ihk_release_cpu km arg (w_cpu w); Ret (ret, mk_world s (w_os w))
  | CAssign km os arg => os_exec os (smp_ihk_os_assign_cpu km os arg (w_cpu w)) w
  | CReleaseOs km os arg => os_exec os (smp_ihk_os_release_cpu km os arg (w_cpu w)) w
  | CSetIkc km os arg => os_exec os (smp_ihk_os_set_ikc_map km os arg (w_cpu w)) w
  end.

Fixpoint cpu_run (ops : list cpu_op) (w : world) : outcome (list Z * world) :=
  match ops with
  | [] => Ret ([], w)
  | op :: r => ' (ret, w) ← cpu_exec op w; ' (rets, w) ← cpu_run r w; Ret (ret :: rets, w)
  end.

(** Only assignment needs a request without repetitions. *)
Definition distinct_op (op : cpu_op) : Prop :=
  match op with CAssign _ _ arg => distinct_req (cr_cpus (up_val arg)) | _ => True end.

Lemma world_id w : mk_world (w_cpu w) (w_os w) = w.
Proof. by destruct w. Qed.

Lemma os_same w k o : w_os w !! k = Some o -> mk_world (w_cpu w) (<[k := o]> (w_os w)) = w.
Proof. intros Ho. rewrite insert_id by done. apply world_id. Qed.

(** A handler that leaves everything as it was. *)
Ltac refuse Hi Ho := by eexists _, _, _; split; [reflexivity|]; rewrite (os_same _ _ _ Ho); exact Hi.

Lemma avail_spec c : (cpu_status c =? IHK_SMP_CPU_AVAILABLE) = true <-> cpu_status c = IHK_SMP_CPU_AVAILABLE.
Proof. apply Z.eqb_eq. Qed.

(** An assigned CPU of a mask check is one of the request. *)
Lemma mask_in l x : in_range l = true -> x ∈ l -> x ∈ mask_of l.
Proof. rewrite in_range_spec, Forall_forall. intros Hr Hx. apply elem_of_mask. auto. Qed.

Lemma assign_handler w km k arg o :
  cpu_inv w -> w_os w !! k = Some o -> distinct_req (cr_cpus (up_val arg)) ->
  exists ret s' o', smp_ihk_os_assign_cpu km k arg (w_cpu w) o = Ret (ret, s', o') /\
    cpu_inv (mk_world s' (<[k := o']> (w_os w))).
Proof.
  intros Hi Ho Hd. unfold smp_ihk_os_assign_cpu. cbv zeta.
  do 5 (case_match; [refuse Hi Ho|]). case_match eqn:Ec; [|refuse Hi Ho].
  destruct (in_range l) eqn:Er; cbn [negb]; [|refuse Hi Ho].
  destruct (check_mask_ok (fun c => cpu_status c =? IHK_SMP_CPU_AVAILABLE) (mask_of l) (w_cpu w)
    (ci_full _ Hi) (mask_max l)) as (b & -> & Hb). cbn [mbind outcome_bind].
  destruct b; cbn [negb]; [|refuse Hi Ho].
  destruct (assign_inv w k o l) as (s' & o' & -> & _ & _ & Hi'); auto.
  - by eapply distinct_copy.
  - pose proof (proj1 Hb eq_refl) as Hall. rewrite Forall_forall in Hall |- *. intros x Hx.
    destruct (Hall x) as (c & Hc & Hs); [by apply mask_in|]. exists c. by rewrite <- avail_spec.
  - cbn [mbind outcome_bind]. eauto.
Qed.

Lemma release_handler w km k arg o :
  cpu_inv w -> w_os w !! k = Some o ->
  exists ret s' o', smp_ihk_os_release_cpu km k arg (w_cpu w) o = Ret (ret, s', o') /\
    cpu_inv (mk_world s' (<[k := o']> (w_os w))).
Proof.
  intros Hi Ho. unfold smp_ihk_os_release_cpu. cbv zeta.
  do 5 (case_match; [refuse Hi Ho|]). case_match eqn:Ec; [|refuse Hi Ho].
  destruct (in_range l) eqn:Er; cbn [negb]; [|refuse Hi Ho].
  destruct (check_mask_ok (fun c => (cpu_status c =? IHK_SMP_CPU_ASSIGNED) && (cpu_os c =? k)) (mask_of l) (w_cpu w)
    (ci_full _ Hi) (mask_max l)) as (b & -> & Hb). cbn [mbind outcome_bind].
  destruct b; cbn [negb]; [|refuse Hi Ho].
  destruct (release_inv w k o (mask_of l)) as (s' & o' & -> & _ & _ & Hi'); auto using mask_NoDup.
  - eapply Forall_impl; [exact (proj1 Hb eq_refl)|]. intros x (c & Hc & Hs). exists c.
    by rewrite andb_true_iff, !Z.eqb_eq in Hs.
  - cbn [mbind outcome_bind]. eauto.
Qed.

(** The data of a kernel may change as long as its CPUs do not. *)
Lemma reos_inv w k o o' :
  cpu_inv w -> w_os w !! k = Some o -> os_cpus o' = os_cpus o -> osd_ok o' ->
  cpu_inv (mk_world (w_cpu w) (<[k := o']> (w_os w))).
Proof.
  intros [J1 J2 J3 J4 J5 J6] Ho Eo Hok. constructor; simpl; auto.
  - intros x c Hc Hst. destruct (J3 x c Hc Hst) as (o1 & Ho1 & Hx).
    destruct (decide (k = cpu_os c)) as [Ek|Hk]; [|rewrite lookup_insert_ne by done; eauto].
    rewrite <- Ek in *. exists o'. rewrite lookup_insert_eq, Eo. split; [done|]. rewrite Ho in Ho1. by injection Ho1 as ->.
  - intros k' o1. destruct (decide (k = k')) as [<-|Hk]; [|rewrite lookup_insert_ne by done; apply J4].
    rewrite lookup_insert_eq. intros [= <-]. rewrite Eo. split; [done|]. by apply (J4 k o).
  - intros k' o1 x. destruct (decide (k = k')) as [<-|Hk]; [|rewrite lookup_insert_ne by done; apply J5].
    rewrite lookup_insert_eq. intros [= <-]. rewrite Eo. by apply J5.
Qed.

Lemma set_ikc_handler w km k arg o :
  cpu_inv w -> w_os w !! k = Some o ->
  exists ret s' o', smp_ihk_os_set_ikc_map km k arg (w_cpu w) o = Ret (ret, s', o') /\
    cpu_inv (mk_world s' (<[k := o']> (w_os w))).
Proof.
  intros Hi Ho. pose proof (ci_full _ Hi) as Hf. unfold smp_ihk_os_set_ikc_map. cbv zeta.
  assert (forall (ret : Z) s o', same_but_ikc (w_cpu w) s -> os_cpus o' = os_cpus o -> osd_ok o' ->
    exists ret' s' o1, Ret (ret, restore_default k o' s, o') = Ret (ret', s', o1) /\
      cpu_inv (mk_world s' (<[k := o1]> (w_os w)))) as Hout.
  { intros ret s o' Hs Eo Hok. eexists _, _, _. split; [done|].
    pose proof (restore_default_ok k o' s (proj1 Hs)) as Hr.
    exact (reos_inv _ k o o' (same_inv _ _ Hi (same_trans _ _ _ Hs Hr)) Ho Eo Hok). }
  destruct (ci_osd _ Hi k o Ho) as [Hok _]. pose proof (same_refl _ Hf) as Hs0.
  do 4 (case_match; [by apply Hout|]). case_match; [|by apply Hout].
  case_match; [by apply Hout|]. case_match; [|by apply Hout].
  match goal with |- context [set_pairs ?l ?s] => destruct (set_pairs_ok l s Hf) as (ret & s1 & -> & Hs1) end.
  cbn [mbind outcome_bind]. case_match; [by apply Hout|]. case_match; by apply Hout.
Qed.

Lemma reserve_handler w km arg :
  cpu_inv w -> exists ret s', smp_ihk_reserve_cpu km arg (w_cpu w) = Ret (ret, s') /\ cpu_inv (mk_world s' (w_os w)).
Proof.
  intros Hi. unfold smp_ihk_reserve_cpu. cbv zeta.
  do 4 (case_match; [by eexists _, _; split; [done|rewrite world_id]|]). case_match; [|by eexists _, _; split; [done|rewrite world_id]].
  case_match; [by eexists _, _; split; [done|rewrite world_id]|].
  destruct (reserve_mask_inv w (mask_of l) Hi (mask_NoDup l)) as (ret & s' & E & _ & Hi' & _); [|eauto].
  apply Forall_forall. intros x Hx. by apply elem_of_mask in Hx as [_ ?].
Qed.

Lemma give_back_handler w km arg :
  cpu_inv w -> exists ret s', smp_ihk_release_cpu km arg (w_cpu w) = Ret (ret, s') /\ cpu_inv (mk_world s' (w_os w)).
Proof.
  intros Hi. unfold smp_ihk_release_cpu. cbv zeta.
  do 4 (case_match; [by eexists _, _; split; [done|rewrite world_id]|]). case_match; [|by eexists _, _; split; [done|rewrite world_id]].
  case_match; [by eexists _, _; split; [done|rewrite world_id]|].
  destruct (release_mask_inv w (mask_of l) Hi (mask_NoDup l)) as (ret & s' & E & _ & Hi' & _); [|eauto].
  apply Forall_forall. intros x Hx. by apply elem_of_mask in Hx as [_ ?].
Qed.

Lemma create_inv w km k o ret :
  cpu_inv w -> w_os w !! k = None -> smp_ihk_create_os km = (ret, Some o) ->
  cpu_inv (mk_world (w_cpu w) (<[k := o]> (w_os w))).
Proof.
  intros [I1 I2 I3 I4 I5 I6] Hk E. destruct km; [|done]. injection E as <- <-. constructor; simpl; auto.
  - intros x c Hc Hs. destruct (I3 x c Hc Hs) as (o & Ho & Hx). exists o. rewrite lookup_insert_ne; [done|congruence].
  - intros k' o. destruct (decide (k = k')) as [<-|Hne]; [|rewrite lookup_insert_ne by done; apply I4].
    rewrite lookup_insert_eq. intros [= <-]. split; [|constructor]. unfold osd_ok, zero_osd. cbn [os_cpu_mapping os_cpu_hw_ids os_nr_cpus].
    by rewrite !length_replicate.
  - intros k' o x. destruct (decide (k = k')) as [<-|Hne]; [|rewrite lookup_insert_ne by done; apply I5].
    rewrite lookup_insert_eq. intros [= <-] Hx. by apply elem_of_nil in Hx.
Qed.

Lemma mark_initial_ok l : forall s,
  cpu_inv (mk_world s ∅) -> Forall (fun x => 0 <= x < SMP_MAX_CPUS) l ->
  (forall x c, tbl s x = Some c -> cpu_status c = IHK_SMP_CPU_NONE \/ cpu_status c = IHK_SMP_CPU_ONLINE) ->
  exists s', mark_initial l s = Ret s' /\ online s' = online s /\ cpu_inv (mk_world s' ∅).
Proof.
  induction l as [|x l IH]; intros s Hi Hr Hs; simpl; [eauto|]. rewrite Forall_cons in Hr. destruct Hr as [Hx Hr].
  pose proof (ci_full _ Hi) as Hf. simpl in Hf.
  destruct (tbl_full s x Hf Hx) as [c Hc]. rewrite (aget_tbl _ _ _ Hc). cbn [mbind outcome_bind].
  destruct (put_cpu_ok s x (cpu_set_status c IHK_SMP_CPU_ONLINE) Hf Hx) as (s1 & -> & Hf1 & Hon1 & Ht1).
  cbn [mbind outcome_bind]. rewrite <- Hon1. apply IH; [|done|].
  - apply (retable_inv (mk_world s ∅)); [done|done|]. intros y. simpl. rewrite Ht1, Hon1.
    destruct (Z.eqb_spec y x) as [->|]; [right|left; auto]. exists c. eexists. split; [done|].
    assert (cpu_status c <> IHK_SMP_CPU_ASSIGNED) as Hne by (by destruct (Hs x c Hc) as [->| ->]).
    split; [done|]. split; [done|]. split; [by apply (ci_free _ Hi x c)|]. by left.
  - intros y d. rewrite Ht1. destruct (y =? x); [intros [= <-]; by right|apply Hs].
Qed.

(** The driver starts with no kernel and no reserved CPU. *)
Lemma init_cpus_ok on : exists s, init_cpus on = Ret s /\ online s = on /\ cpu_inv (mk_world s ∅).
Proof.
  assert (forall x c, tbl (mk_cpust (replicate (Z.to_nat SMP_MAX_CPUS) (mk_cpu 0 0 0 0 0)) on) x = Some c ->
    c = mk_cpu 0 0 0 0 0) as Hz.
  { intros x c. unfold tbl. destruct (0 <=? x); [|done]. cbn [cpus]. by intros [-> _]%lookup_replicate. }
  apply mark_initial_ok.
  - constructor; cbn [w_cpu w_os online].
    + unfold full. cbn [cpus]. by rewrite length_replicate.
    + intros x c ->%Hz. split; [by left|]. by intros [|].
    + by intros x c ->%Hz.
    + intros k o Ho. by rewrite lookup_empty in Ho.
    + intros k o x Ho. by rewrite lookup_empty in Ho.
    + by intros x c ->%Hz.
  - apply Forall_forall. intros x [_ Hx]%list_elem_of_filter. apply elem_of_seqZ in Hx. pose proof (mo_nr Hm). lia.
  - intros x c ->%Hz. by left.
Qed.

Lemma cpu_exec_ok op w :
  cpu_inv w -> distinct_op op -> exists ret w', cpu_exec op w = Ret (ret, w') /\ cpu_inv w'.
Proof.
  intros Hi Hd. destruct op as [km k|km arg|km arg|km k arg|km k arg|km k arg]; simpl.
  - destruct (w_os w !! k) eqn:Hk, (smp_ihk_create_os km) as [ret [o|]] eqn:Ec; eauto using create_inv.
  - destruct (reserve_handler w km arg Hi) as (ret & s' & -> & Hi'). eauto.
  - destruct (give_back_handler w km arg Hi) as (ret & s' & -> & Hi'). eauto.
  - unfold os_exec. destruct (w_os w !! k) as [o|] eqn:Ho; [|eauto].
    destruct (assign_handler w km k arg o Hi Ho Hd) as (ret & s' & o' & -> & Hi'). eauto.
  - unfold os_exec. destruct (w_os w !! k) as [o|] eqn:Ho; [|eauto].
    destruct (release_handler w km k arg o Hi Ho) as (ret & s' & o' & -> & Hi'). eauto.
  - unfold os_exec. destruct (w_os w !! k) as [o|] eqn:Ho; [|eauto].
    destruct (set_ikc_handler w km k arg o Hi Ho) as (ret & s' & o' & -> & Hi'). eauto.
Qed.

Lemma cpu_run_ok ops on :
  Forall distinct_op ops -> exists s rets w', init_cpus on = Ret s /\ cpu_run ops (mk_world s ∅) = Ret (rets, w') /\ cpu_inv w'.
Proof.
  intros Hd. destruct (init_cpus_ok on) as (s & Es & _ & Hi). exists s. setoid_rewrite Es. revert Hi. generalize (mk_world s ∅).
  induction Hd as [|op ops Hop Hd IH]; intros w Hi; simpl; [eauto|].
  destruct (cpu_exec_ok op w Hi Hop) as (ret & w1 & -> & Hi1). cbn [mbind outcome_bind].
  destruct (IH w1 Hi1) as (rets & w2 & _ & -> & Hi2). eauto.
Qed.

End world.
(** ** Reservation is all or nothing *)

Section atomic.
  Context `{SmpEnv} (Hm : machine_ok).

Lemma done_mask l s s' : in_range l = true -> reserve_done (mask_of l) s s' -> reserve_done l s s'.
Proof.
  intros Hr [H1 H2]. split; intros x Hx.
  - apply H1. by apply mask_in.
  - apply H2. rewrite elem_of_mask. tauto.
Qed.

Lemma undone_status s s' :
  full s -> full s' -> reserve_undone s s' -> cpu_status <$> cpus s' = cpu_status <$> cpus s.
Proof.
  intros Hf Hf' [Hu _]. apply list_eq. intros i. rewrite !list_lookup_fmap, <- !tbl_nat.
  destruct (Hu (Z.of_nat i)) as [->|(c & -> & Hs & ->)]; [done|]. simpl. by rewrite Hs.
Qed.

(** C16 A request to reserve CPUs always returns.  Either it
    succeeds, and then exactly the CPUs it names went from online to
    available and are no longer used by Linux, with the table entries and
    the use of all other CPUs unchanged; or it fails, and then every CPU has
    the status it had before. *)
Theorem reserve_cpu_atomic km arg s :
  full s -> settled s ->
  exists ret s', smp_ihk_reserve_cpu km arg s = Ret (ret, s') /\ full s' /\
    ((ret = 0 /\ exists l, copy_from_user (cr_cpus (up_val arg)) (cr_num (up_val arg)) = Some l /\ reserve_done l s s') \/
     (ret < 0 /\ cpu_status <$> cpus s' = cpu_status <$> cpus s)).
Proof.
  intros Hf Hst. unfold smp_ihk_reserve_cpu. cbv zeta.
  do 2 (case_match; [by eexists _, _; split; [done|]; split; [done|]; right|]).
  destruct (Z.eqb_spec (cr_num (up_val arg)) 0) as [E0|_].
  { eexists _, _. split; [done|]. split; [done|]. left. split; [done|]. exists []. unfold copy_from_user. rewrite E0.
    split; [done|]. split; [|done]. intros x Hx. by apply elem_of_nil in Hx. }
  case_match; [by eexists _, _; split; [done|]; split; [done|]; right|].
  destruct (copy_from_user _ _) as [l|]; [|by eexists _, _; split; [done|]; split; [done|]; right].
  destruct (in_range l) eqn:Er; cbn [negb]; [|by eexists _, _; split; [done|]; split; [done|]; right].
  destruct (reserve_mask_ok Hm (mask_of l) s Hf Hst (mask_NoDup l) (mask_max Hm l))
    as (ret & s' & -> & Hf' & [[-> Hd]|[Hlt Hu]]); eexists _, _; (split; [done|]); (split; [done|]).
  - left. split; [done|]. exists l. split; [done|]. by apply done_mask.
  - right. split; [done|]. by apply undone_status.
Qed.

(** ** Assignment and queries *)

Lemma lwk_linux_inverse o i x :
  osd_ok o -> NoDup (os_cpus o) -> os_cpus o !! i = Some x ->
  lwk_cpu_2_linux_cpu o (Z.of_nat i) = Ret x /\ linux_cpu_2_lwk_cpu o x = Z.of_nat i.
Proof.
  intros Ho Hn Hx. pose proof (lookup_lt_Some _ _ _ Hx) as Hlt. pose proof (length_os_cpus o Ho) as Hlo. split.
  - unfold lwk_cpu_2_linux_cpu, aget. rewrite (proj2 (Z.ltb_lt _ _)) by lia. rewrite (proj2 (Z.leb_le 0 _)) by lia.
    rewrite Nat2Z.id. unfold os_cpus in Hx. by rewrite lookup_take_lt in Hx by lia; rewrite Hx.
  - unfold linux_cpu_2_lwk_cpu. fold (os_cpus o).
    assert (list_find (fun c => c = x) (os_cpus o) = Some (i, x)) as ->; [|done].
    apply list_find_Some. split; [done|]. split; [done|]. intros j y Hy Hj ->.
    pose proof (NoDup_lookup _ _ _ _ Hn Hx Hy). lia.
Qed.

(** C30 CPUs that are available can be assigned: the
    request returns 0, the kernel's CPUs are those it had followed by those
    of the request in the order of the request, each numbered by its position
    (the two conversions between the kernel's and Linux's numbers are inverse
    to each other), and a query with a large enough writable buffer reports
    exactly that list and its length. *)
Theorem assign_query_roundtrip w k o l rd wr :
  cpu_inv w -> w_os w !! k = Some o -> os_status o = BUILTIN_OS_STATUS_INITIAL ->
  NoDup l -> l <> [] -> in_range l = true ->
  Forall (fun x => exists c, tbl (w_cpu w) x = Some c /\ cpu_status c = IHK_SMP_CPU_AVAILABLE) l ->
  exists s' o', smp_ihk_os_assign_cpu true k
      (mk_uptr (mk_cpu_req (UArr true wr l) (Z.of_nat (length l))) true rd) (w_cpu w) o = Ret (0, s', o') /\
    (forall i x, (os_cpus o ++ l) !! i = Some x ->
       lwk_cpu_2_linux_cpu o' (Z.of_nat i) = Ret x /\ linux_cpu_2_lwk_cpu o' x = Z.of_nat i) /\
    forall buf, length buf = length (os_cpus o ++ l) ->
      smp_ihk_os_query_cpu true (mk_uptr (mk_cpu_req (UArr rd true buf) (Z.of_nat (length buf))) true true) o' =
        (0, mk_cpu_out (Some (os_cpus o ++ l)) (Some (smp_ihk_os_get_num_cpus o'))).
Proof.
  intros Hi Ho Hst Hn Hne Hr Hav.
  assert (0 < length l)%nat as Hpos by (destruct l; simpl; [done|lia]).
  destruct (assign_inv Hm w k o l Hi Ho Hn Hr Hav) as (s' & o' & E & Eo & _ & Hi').
  destruct (ci_osd _ Hi' k o') as [Hok Hnd]; [apply lookup_insert_eq|].
  pose proof (length_os_cpus o' Hok) as Hlen. pose proof (proj2 (proj2 Hok)) as Hmax.
  pose proof (distinct_length l SMP_MAX_CPUS Hn (range_max Hm l Hr)) as Hll. change (Z.max 0 SMP_MAX_CPUS) with SMP_MAX_CPUS in Hll.
  exists s', o'. split; [|split].
  - unfold smp_ihk_os_assign_cpu, validate_cpu_req, copy_from_user. simpl. rewrite Hst. simpl.
    rewrite (proj2 (Z.ltb_ge _ 0)), (proj2 (Z.ltb_ge SMP_MAX_CPUS _)) by lia. simpl. rewrite andb_false_r. simpl.
    rewrite (proj2 (Z.eqb_neq _ 0)) by lia. rewrite Z.leb_refl, Nat2Z.id, firstn_all, Hr. simpl.
    destruct (check_mask_ok (fun c => cpu_status c =? IHK_SMP_CPU_AVAILABLE) (mask_of l) (w_cpu w)
      (ci_full _ Hi) (mask_max Hm l)) as (b & -> & Hb). cbn [mbind outcome_bind].
    rewrite (proj2 Hb). { simpl. by rewrite E. }
    rewrite Forall_forall in Hav |- *. intros x Hx. apply elem_of_mask in Hx as [Hx _].
    destruct (Hav x Hx) as (c & Hc & Hs). exists c. by rewrite avail_spec.
  - intros i x Hx. rewrite <- Eo in Hx. by apply lwk_linux_inverse.
  - intros buf Hb. rewrite <- Eo in Hb |- *. rewrite Eo, length_app in Hlen.
    assert (Z.of_nat (length buf) = os_nr_cpus o') as En by (rewrite Hb, Eo, length_app; lia).
    unfold smp_ihk_os_query_cpu, copy_out_cpus, validate_cpu_req, copy_to_user. simpl. rewrite En.
    rewrite (proj2 (Z.ltb_ge _ 0)), (proj2 (Z.ltb_ge SMP_MAX_CPUS _)) by lia. simpl. rewrite andb_false_r. simpl.
    rewrite Z.eqb_refl. simpl. rewrite (proj2 (Z.eqb_neq _ 0)) by lia. by rewrite Z.leb_refl.
Qed.
End atomic.
(** ** Routing *)

(** The CPUs of a kernel in the table, from index [i] on, with the Linux CPUs
    that serve them. *)
Fixpoint routes (os i : Z) (l : list ihk_smp_cpu) : list (Z * Z) :=
  match l with
  | [] => []
  | c :: r => if my_cpu os c then (i, cpu_ikc_map c) :: routes os (i + 1) r else routes os (i + 1) r
  end.

(** The loop of the query stays inside its buffers exactly when all CPUs of
    the kernel fit. *)
Lemma collect_pairs_spec os num l : forall i idx srcs dsts,
  length srcs = Z.to_nat num -> length dsts = Z.to_nat num -> 0 <= idx <= num ->
  collect_pairs os num i l idx srcs dsts =
    let rs := routes os i l in
    if idx + Z.of_nat (length rs) <=? num
    then Ret (0, idx + Z.of_nat (length rs), patch (Z.to_nat idx) (map fst rs) srcs, patch (Z.to_nat idx) (map snd rs) dsts)
    else Undef.
Proof.
  induction l as [|c l IH]; intros i idx srcs dsts Hs Hd Hi; cbv zeta; simpl.
  { rewrite (proj2 (Z.leb_le _ _)) by lia. by rewrite Z.add_0_r, !patch_nil. }
  rewrite <- negb_andb. fold (my_cpu os c). destruct (my_cpu os c); cbn [negb]; [|by apply IH].
  simpl. destruct (decide (idx = num)) as [->|Hlt].
  - unfold aset. rewrite (proj2 (Z.ltb_ge _ (Z.of_nat (length srcs)))) by lia. rewrite andb_false_r.
    cbn [mbind outcome_bind]. by destruct (Z.leb_spec (num + Z.of_nat (S (length (routes os (i + 1) l)))) num); [lia|].
  - rewrite !aset_in by lia. cbn [mbind outcome_bind]. rewrite (proj2 (Z.ltb_ge _ _)) by lia.
    rewrite IH by (rewrite ?length_insert; lia). cbv zeta.
    replace (idx + Z.of_nat (S (length (routes os (i + 1) l))))
      with (idx + 1 + Z.of_nat (length (routes os (i + 1) l))) by lia.
    replace (Z.to_nat (idx + 1)) with (S (Z.to_nat idx)) by lia. by rewrite !patch_cons by lia.
Qed.

(** A query of the routing with buffers of [num]
    entries: when the kernel has at most [num] CPUs it returns 0 and reports
    them in ascending order with the CPUs that serve them, and their number;
    when the kernel has more CPUs the handler writes behind the end of its
    own buffers, because it stores an entry before it compares the index with
    the size. *)
Theorem get_ikc_map_bounds os s srcs dsts :
  0 < Z.of_nat (length srcs) <= SMP_MAX_CPUS -> length dsts = length srcs ->
  smp_ihk_os_get_ikc_map (fun _ => true) os
    (mk_uptr (mk_ikc_req (UArr true true srcs) (UArr true true dsts) (Z.of_nat (length srcs))) true true) s =
  let rs := routes os 0 (cpus s) in
  let wr l := if Z.of_nat (length rs) =? 0 then None else Some l in
  if Z.of_nat (length rs) <=? Z.of_nat (length srcs)
  then Ret (0, mk_ikc_out (wr (map fst rs)) (wr (map snd rs)) (Some (Z.of_nat (length rs)))) else Undef.
Proof.
  intros Hl Hd. unfold smp_ihk_os_get_ikc_map, validate_ikc_req, copy_from_user. simpl.
  rewrite (proj2 (Z.ltb_ge _ 0)), (proj2 (Z.ltb_ge SMP_MAX_CPUS _)) by lia. simpl. rewrite andb_false_r. simpl.
  rewrite (proj2 (Z.eqb_neq _ 0)), Hd, Z.leb_refl, Nat2Z.id, firstn_all by lia.
  rewrite <- Hd at 2. rewrite firstn_all.
  rewrite collect_pairs_spec by lia. cbv zeta. rewrite Z.add_0_l.
  destruct (Z.leb_spec (Z.of_nat (length (routes os 0 (cpus s)))) (Z.of_nat (length srcs))) as [Hle|]; [|done].
  cbn [mbind outcome_bind]. simpl. unfold copy_to_user. rewrite Hd, (proj2 (Z.leb_le _ _) Hle).
  destruct (Z.eqb_spec (Z.of_nat (length (routes os 0 (cpus s)))) 0) as [E|E]; [done|]. simpl.
  rewrite Nat2Z.id. unfold patch. simpl.
  by rewrite !take_app_length' by (by rewrite length_map).
Qed.

(** The Linux CPUs that serve a kernel. *)
Definition targets (os : Z) (l : list ihk_smp_cpu) : gset Z :=
  list_to_set (cpu_ikc_map <$> filter (fun c => my_cpu os c = true) l).

Lemma targets_cons os c l :
  targets os (c :: l) = (if my_cpu os c then {[cpu_ikc_map c]} else ∅) ∪ targets os l.
Proof.
  unfold targets. rewrite filter_cons. destruct (my_cpu os c); simpl; [done|].
  set_solver.
Qed.

(** min of smp_ihk_os_check_ikc_map. *)
Definition least (S : gset Z) (m : Z) : Prop :=
  (forall x, x ∈ S -> m <= x) /\ (m = 2 ^ 31 - 1 \/ m ∈ S).

Lemma least_add S m x : least S m -> least ({[x]} ∪ S) (if x <? m then x else m).
Proof.
  intros [H1 H2]. destruct (Z.ltb_spec x m); (split; [intros y Hy; apply elem_of_union in Hy|]).
  - destruct Hy as [->%elem_of_singleton|Hy]; [lia|]. specialize (H1 y Hy). lia.
  - right. set_solver.
  - destruct Hy as [->%elem_of_singleton|Hy]; [lia|]. auto.
  - set_solver.
Qed.

(** The entries that are ticked off after the targets [S]. *)
Definition ticked (os : Z) (S : gset Z) (d : ihk_smp_cpu) : bool := my_cpu os d && bool_decide (cpu_ikc_map d ∈ S).

Lemma checkers_add os v S t :
  zip_with (fun d b => if my_cpu os d && (v =? cpu_ikc_map d) then true else b) t (map (ticked os S) t) =
  map (ticked os ({[v]} ∪ S)) t.
Proof.
  induction t as [|d t IH]; simpl; [done|]. rewrite IH. f_equal. unfold ticked. destruct (my_cpu os d); [|done]. simpl.
  destruct (Z.eqb_spec v (cpu_ikc_map d)) as [->|Ed]; symmetry.
  - rewrite bool_decide_eq_true_2; [done|]. set_solver.
  - apply bool_decide_ext. set_solver.
Qed.

Lemma count_targets_ok os t l : forall pre S m,
  t = pre ++ l -> least S m ->
  exists m', count_targets os t (length pre) l
      (map (ticked os S) t) (Z.of_nat (size S)) m =
    (Z.of_nat (size (S ∪ targets os l)), m') /\ least (S ∪ targets os l) m'.
Proof.
  induction l as [|c l IH]; intros pre S m Ht Hl; simpl.
  { exists m. replace (S ∪ targets os []) with S by (unfold targets; set_solver). done. }
  assert (t = (pre ++ [c]) ++ l) as Ht' by (by rewrite <- app_assoc).
  assert (length (pre ++ [c]) = Datatypes.S (length pre)) as Hlen by (rewrite length_app; simpl; lia).
  assert (t !! length pre = Some c) as Hc by (rewrite Ht, lookup_app_r, Nat.sub_diag by lia; done).
  rewrite list_lookup_fmap, Hc. simpl. rewrite targets_cons.
  unfold ticked at 1. destruct (my_cpu os c) eqn:Ec; simpl.
  2:{ rewrite <- Hlen. destruct (IH (pre ++ [c]) S m Ht' Hl) as (m' & E & Hm). exists m'.
      replace (S ∪ (∅ ∪ targets os l)) with (S ∪ targets os l) by set_solver. done. }
  case_bool_decide as Hin.
  - rewrite <- Hlen. destruct (IH (pre ++ [c]) S m Ht' Hl) as (m' & E & Hm). exists m'.
    replace (S ∪ ({[cpu_ikc_map c]} ∪ targets os l)) with (S ∪ targets os l) by set_solver. done.
  - destruct (IH (pre ++ [c]) ({[cpu_ikc_map c]} ∪ S) _ Ht' (least_add S m (cpu_ikc_map c) Hl)) as (m' & E & Hm).
    replace ({[cpu_ikc_map c]} ∪ S ∪ targets os l) with (S ∪ ({[cpu_ikc_map c]} ∪ targets os l)) in E, Hm by set_solver.
    exists m'. split; [|done]. rewrite <- E, Hlen. f_equal.
    + apply checkers_add.
    + rewrite size_union by set_solver. rewrite size_singleton. lia.
Qed.

Lemma check_ikc_map_eq `{SmpEnv} os t n :
  arch = ARM64 (Some n) -> Forall (fun c => 0 <= cpu_ikc_map c < 2 ^ 31 - 1) t ->
  smp_ihk_os_check_ikc_map os t =
    if bool_decide (Z.of_nat (size ({[0]} ∪ targets os t)) <= n) then 0 else 1.
Proof.
  intros Ha Hr. unfold smp_ihk_os_check_ikc_map. rewrite Ha.
  destruct (count_targets_ok os t t [] ∅ (2 ^ 31 - 1) eq_refl) as (m & E & Hm); [split; [set_solver|by left]|].
  rewrite size_empty in E. change (Z.of_nat 0) with 0 in E. change (@length ihk_smp_cpu []) with O in E.
  replace (replicate (length t) false) with (map (ticked os ∅) t).
  2:{ clear. induction t as [|d t IH]; simpl; [done|]. unfold ticked at 1. by rewrite IH, andb_false_r. }
  rewrite E. replace (∅ ∪ targets os t) with (targets os t) in * by set_solver. clear E.
  assert (m = 0 <-> 0 ∈ targets os t) as H0.
  { destruct Hm as [H1 H2]. split; [intros ->; by destruct H2|]. intros H0. specialize (H1 0 H0).
    destruct H2 as [->|H2]; [lia|]. unfold targets in H2. apply elem_of_list_to_set, list_elem_of_fmap in H2 as (c & -> & Hc).
    apply list_elem_of_filter in Hc as [_ Hc]. rewrite Forall_forall in Hr. specialize (Hr c Hc). simpl in Hr. lia. }
  assert ((if negb (m =? 0) then Z.of_nat (size (targets os t)) + 1 else Z.of_nat (size (targets os t))) =
    Z.of_nat (size ({[0]} ∪ targets os t))) as ->.
  { destruct (Z.eqb_spec m 0) as [Em|Em]; simpl.
    - replace ({[0]} ∪ targets os t) with (targets os t) by (apply H0 in Em; set_solver). done.
    - rewrite size_union by set_solver. rewrite size_singleton. lia. }
  case_bool_decide; destruct (Z.ltb_spec n (Z.of_nat (size ({[0]} ∪ targets os t)))); done || lia.
Qed.

(** On arm64 with its own interrupts the driver accepts
    a routing exactly when the distinct Linux CPUs that serve the kernel,
    together with CPU 0, are at most as many as the interrupts it has; the
    other drivers accept every routing. *)
Theorem check_ikc_map_spec `{SmpEnv} os t :
  Forall (fun c => 0 <= cpu_ikc_map c < 2 ^ 31 - 1) t ->
  smp_ihk_os_check_ikc_map os t =
    match arch with
    | ARM64 (Some n) => if bool_decide (Z.of_nat (size ({[0]} ∪ targets os t)) <= n) then 0 else 1
    | _ => 0
    end.
Proof.
  intros Hr. destruct arch as [|[n|]] eqn:Ha; [|by apply check_ikc_map_eq|];
    unfold smp_ihk_os_check_ikc_map; by rewrite Ha.
Qed.

(** ** A machine with eight CPUs *)

Definition cpu_smp : SmpEnv := {|
  arch := X86_64;
  nr_cpu_ids := 8;
  cpu_present := fun c => (0 <=? c) && (c <? 8);
  cpu_to_node := fun c => c / 4;
  x86_cpu_to_apicid := fun c => 2 * c;
  filp_open := fun c => negb (c =? 0);
  kernel_write := fun c v on => Some (if v then {[c]} ∪ on else on ∖ {[c]});
  page_tail := fun _ => None;
  page_order := fun _ => None
|}.

Definition arm_smp : SmpEnv := {|
  arch := ARM64 (Some 2);
  nr_cpu_ids := 8;
  cpu_present := fun c => (0 <=? c) && (c <? 8);
  cpu_to_node := fun c => c / 4;
  x86_cpu_to_apicid := fun c => 2 * c;
  filp_open := fun c => negb (c =? 0);
  kernel_write := fun c v on => Some (if v then {[c]} ∪ on else on ∖ {[c]});
  page_tail := fun _ => None;
  page_order := fun _ => None
|}.

Definition all_cpus : gset Z := list_to_set (seqZ 0 8).

Definition cpu_arg (l : list Z) : uptr ihk_cpu_req :=
  mk_uptr (mk_cpu_req (UArr true true l) (Z.of_nat (length l))) true true.
Definition ikc_arg (l m : list Z) : uptr ihk_ikc_req :=
  mk_uptr (mk_ikc_req (UArr true true l) (UArr true true m) (Z.of_nat (length l))) true true.

Lemma cpu_smp_ok : @machine_ok cpu_smp.
Proof.
  constructor.
  - done.
  - intros x Hx. unfold core_ok, ihk_smp_get_hw_id. simpl in *. apply andb_true_iff.
    rewrite Z.leb_le, Z.ltb_lt. unfold SMP_MAX_CPUS. lia.
  - intros x Hx. unfold node_ok. simpl in *. apply andb_true_iff. rewrite Z.leb_le, Z.ltb_lt.
    split; [apply Z.div_pos; lia|apply Z.div_lt_upper_bound; lia].
  - simpl. by intros x [] on on' [= <-].
Qed.

Lemma arm_smp_ok : @machine_ok arm_smp.
Proof.
  constructor.
  - done.
  - intros x Hx. unfold core_ok, ihk_smp_get_hw_id. simpl in *. apply andb_true_iff.
    rewrite Z.leb_le, Z.ltb_lt. unfold SMP_MAX_CPUS. lia.
  - apply cpu_smp_ok.
  - apply cpu_smp_ok.
Qed.

(** Two kernels; three CPUs are reserved, two of them assigned and routed, and
    one is returned. *)
Definition demo_ops : list cpu_op :=
  [CCreate true 16; CCreate true 17; CReserve true (cpu_arg [1; 2; 3]); CAssign true 16 (cpu_arg [2; 1]);
   CSetIkc (fun _ => true) 16 (ikc_arg [2] [4]); CReleaseOs true 16 (cpu_arg [1]); CAssign true 17 (cpu_arg [1]);
   CRelease true (cpu_arg [3])].

Lemma demo_distinct : Forall distinct_op demo_ops.
Proof.
  assert (NoDup [2; 1] /\ NoDup [1]) as [? ?] by (split; repeat constructor; set_solver).
  repeat (constructor; [done|]). constructor.
Qed.

(** Linux uses every CPU. *)
Definition online_table : cpust :=
  mk_cpust (replicate (Z.to_nat SMP_MAX_CPUS) (mk_cpu 0 0 IHK_SMP_CPU_ONLINE 0 0)) all_cpus.

Lemma online_settled : settled online_table.
Proof.
  intros x c. unfold tbl, online_table. destruct (0 <=? x); [|done]. cbn [cpus].
  intros [-> _]%lookup_replicate. by right; left.
Qed.

Lemma reserve_cpu_atomic_witness :
  full online_table /\ settled online_table /\
  exists ret s', @smp_ihk_reserve_cpu cpu_smp true (cpu_arg [1; 2]) online_table = Ret (ret, s') /\ full s' /\
    ((ret = 0 /\ exists l, copy_from_user (cr_cpus (up_val (cpu_arg [1; 2]))) (cr_num (up_val (cpu_arg [1; 2]))) = Some l /\
        @reserve_done cpu_smp l online_table s') \/
     (ret < 0 /\ cpu_status <$> cpus s' = cpu_status <$> cpus online_table)).
Proof.
  assert (full online_table) as Hf by (unfold full, online_table; cbn [cpus]; by rewrite length_replicate).
  split; [exact Hf|]. split; [exact online_settled|].
  exact (@reserve_cpu_atomic cpu_smp cpu_smp_ok true (cpu_arg [1; 2]) online_table Hf online_settled).
Defined.

(** All CPUs but the first are reserved, and kernel 16 has none of them. *)
Definition available_world : world :=
  mk_world (mk_cpust (mk_cpu 0 0 IHK_SMP_CPU_ONLINE 0 0 ::
      replicate 511 (mk_cpu 0 0 IHK_SMP_CPU_AVAILABLE 0 0)) {[0]}) {[16 := zero_osd]}.

Lemma available_tbl x c :
  tbl (w_cpu available_world) x = Some c ->
  (x = 0 /\ c = mk_cpu 0 0 IHK_SMP_CPU_ONLINE 0 0) \/ (x <> 0 /\ c = mk_cpu 0 0 IHK_SMP_CPU_AVAILABLE 0 0).
Proof.
  unfold tbl. destruct (Z.leb_spec 0 x) as [Hx|]; [|done]. unfold available_world. cbn [w_cpu cpus].
  destruct (Z.to_nat x) as [|n] eqn:E; cbn [lookup list_lookup].
  - intros [= <-]. left. split; [lia|done].
  - intros [-> _]%lookup_replicate. right. split; [lia|done].
Qed.

Lemma available_inv : cpu_inv available_world.
Proof.
  assert (forall k o, w_os available_world !! k = Some o -> k = 16 /\ o = zero_osd) as Hz.
  { intros k o. unfold available_world. cbn [w_os]. by intros [<- <-]%lookup_singleton_Some. }
  constructor.
  - unfold full, available_world. cbn [w_cpu cpus length]. by rewrite length_replicate.
  - intros x c [[-> ->]|[Hx ->]]%available_tbl; (split; [unfold stable; simpl; auto|]).
    + by intros [|].
    + intros _. split; [|done]. unfold available_world. cbn [w_cpu online]. set_solver.
  - by intros x c [[-> ->]|[Hx ->]]%available_tbl.
  - intros k o [-> ->]%Hz. split; [|constructor]. unfold osd_ok, zero_osd. cbn [os_cpu_mapping os_cpu_hw_ids os_nr_cpus].
    by rewrite !length_replicate.
  - intros k o x [-> ->]%Hz Hx. by apply elem_of_nil in Hx.
  - by intros x c [[-> ->]|[Hx ->]]%available_tbl.
Qed.

Lemma assign_query_roundtrip_witness :
  exists s' o', @smp_ihk_os_assign_cpu cpu_smp true 16 (cpu_arg [5; 3]) (w_cpu available_world) zero_osd = Ret (0, s', o') /\
    (forall i x, (os_cpus zero_osd ++ [5; 3]) !! i = Some x ->
       lwk_cpu_2_linux_cpu o' (Z.of_nat i) = Ret x /\ linux_cpu_2_lwk_cpu o' x = Z.of_nat i) /\
    forall buf, length buf = length (os_cpus zero_osd ++ [5; 3]) ->
      smp_ihk_os_query_cpu true (mk_uptr (mk_cpu_req (UArr true true buf) (Z.of_nat (length buf))) true true) o' =
        (0, mk_cpu_out (Some (os_cpus zero_osd ++ [5; 3])) (Some (smp_ihk_os_get_num_cpus o'))).
Proof.
  apply (@assign_query_roundtrip cpu_smp cpu_smp_ok available_world 16 zero_osd [5; 3] true true available_inv).
  - reflexivity.
  - reflexivity.
  - repeat constructor; set_solver.
  - discriminate.
  - reflexivity.
  - repeat constructor; eexists; (split; [vm_compute; reflexivity|reflexivity]).
Defined.

(** Kernel 16 has the CPUs 1 and 2. *)
Definition two_routes : cpust :=
  mk_cpust [mk_cpu 0 0 IHK_SMP_CPU_ONLINE 0 0; mk_cpu 1 2 IHK_SMP_CPU_ASSIGNED 16 4;
            mk_cpu 2 4 IHK_SMP_CPU_ASSIGNED 16 5] {[0]}.

Lemma get_ikc_map_bounds_witness :
  smp_ihk_os_get_ikc_map (fun _ => true) 16 (ikc_arg [9; 9] [9; 9]) two_routes =
    Ret (0, mk_ikc_out (Some [1; 2]) (Some [4; 5]) (Some 2)) /\
  smp_ihk_os_get_ikc_map (fun _ => true) 16 (ikc_arg [9] [9]) two_routes = Undef.
Proof.
  unfold ikc_arg. split.
  - rewrite (get_ikc_map_bounds 16 two_routes [9; 9] [9; 9]); [reflexivity| |reflexivity].
    unfold SMP_MAX_CPUS. simpl. lia.
  - rewrite (get_ikc_map_bounds 16 two_routes [9] [9]); [reflexivity| |reflexivity].
    unfold SMP_MAX_CPUS. simpl. lia.
Defined.

Lemma check_ikc_map_spec_witness :
  @smp_ihk_os_check_ikc_map arm_smp 16 (cpus two_routes) =
    if bool_decide (Z.of_nat (size ({[0]} ∪ targets 16 (cpus two_routes))) <= 2) then 0 else 1.
Proof.
  apply (@check_ikc_map_spec arm_smp 16 (cpus two_routes)).
  repeat constructor; simpl; lia.
Defined.

(** ** Requests the checks let through *)

Definition demo_run (ops : list cpu_op) : outcome (list Z * world) :=
  s ← @init_cpus cpu_smp all_cpus; @cpu_run cpu_smp ops (mk_world s ∅).

(** A request that names a CPU twice passes the check
    of the mask and enters the CPU twice into the mapping.  When the kernel
    gives the CPU back one of the two entries stays, the CPU can be assigned
    to a second kernel, and is then in the mapping of both. *)
Theorem duplicate_shares_cpu :
  exists w o16 o17,
    demo_run [CCreate true 16; CCreate true 17; CReserve true (cpu_arg [1]); CAssign true 16 (cpu_arg [1; 1]);
      CReleaseOs true 16 (cpu_arg [1]); CAssign true 17 (cpu_arg [1])] = Ret ([0; 0; 0; 0; 0; 0], w) /\
    w_os w !! 16 = Some o16 /\ w_os w !! 17 = Some o17 /\ os_cpus o16 = [1] /\ os_cpus o17 = [1].
Proof. eexists _, _, _. split; [vm_compute; reflexivity|]. repeat split; vm_compute; reflexivity. Qed.

(** A kernel can route the messages of a CPU of another kernel. *)
Theorem set_ikc_map_foreign_cpu :
  exists w c, demo_run [CCreate true 16; CCreate true 17; CReserve true (cpu_arg [1]); CAssign true 17 (cpu_arg [1]);
      CSetIkc (fun _ => true) 16 (ikc_arg [1] [5])] = Ret ([0; 0; 0; 0; 0], w) /\
    tbl (w_cpu w) 1 = Some c /\ cpu_os c = 17 /\ cpu_ikc_map c = 5.
Proof. eexists _, _. split; [vm_compute; reflexivity|]. repeat split; vm_compute; reflexivity. Qed.
