(* ===== verification/SmpOs.v ===== *)
(** * Resources of a kernel as a whole (src/linux/driver/smp/smp-driver.c)

    The operations of the SMP driver that handle the CPUs and the memory of a
    kernel together: shutdown, which returns all of them, and the older
    allocation of both with one request. *)

From stdpp Require Import base tactics numbers list gmap sorting.
From S2P Require Import Prelude SmpData SmpMem SmpCpu.

Open Scope ihk_scope.

(** ** State

    The memory and the CPUs of the driver, and of one kernel its data and what
    it holds while it runs: page tables (boot_pt), numa_mapping, boot
    parameters (param), and the status of the device. *)
Record boot : Type := mk_boot { b_pt : bool; b_numa_mapping : bool; b_param : bool; b_dev_status : Z }.

Definition BUILTIN_DEV_STATUS_READY : Z := 0.

Record ost : Type := mk_ost { t_mem : memst; t_cpu : cpust; t_os : smp_os_data; t_boot : boot }.

(** ** Shutdown *)

(** The loop over the table. *)
Definition reset_cpus (os : Z) (s : cpust) : cpust :=
  mk_cpust (map (fun c => if negb (cpu_os c =? os) then c else cpu_set_os c IHK_SMP_CPU_AVAILABLE 0) (cpus s)) (online s).

(** The loop over ihk_mem_used_chunks: every chunk of the kernel is unlinked,
    gets a header, and goes to the free list. *)
Definition drop_chunk (s : memst) (oc : ihk_os_mem_chunk) : memst :=
  put_leftover s (oc_addr oc) (oc_size oc) (oc_numa oc).
Definition drop_mem (os : Z) (s : memst) : memst :=
  set_used (foldl drop_chunk s (filter (fun oc => oc_os oc = os) (used_chunks s)))
    (filter (fun oc => oc_os oc <> os) (used_chunks s)).

Definition osd_set_nr_cpus (o : smp_os_data) v := osd_set_cpus o (os_numa_mask o) (os_hw_ids_map o) (os_cpu_mapping o) (os_cpu_hw_ids o) v.

(** smp_ihk_os_shutdown; smp_ihk_os_unmap_lwk returns 0. *)
Definition smp_ihk_os_shutdown (os : Z) (t : ost) : Z * ost :=
  let st := os_status (t_os t) in
  if (st =? BUILTIN_OS_STATUS_INITIAL) || (st =? BUILTIN_OS_STATUS_SHUTDOWN) then (0, t) else
  let o := osd_set_status (t_os t) BUILTIN_OS_STATUS_SHUTDOWN in
  let cpu := reset_cpus os (t_cpu t) in
  let o := osd_set_nr_cpus o 0 in
  let mem := drop_mem os (t_mem t) in
  (0, mk_ost mem cpu (osd_set_status o BUILTIN_OS_STATUS_INITIAL) (mk_boot false false false BUILTIN_DEV_STATUS_READY)).

(** smp_ihk_os_notify_hungup *)
Definition smp_ihk_os_notify_hungup (o : smp_os_data) : smp_os_data := osd_set_status o BUILTIN_OS_STATUS_HUNGUP.

(** ** Allocation of CPUs and memory *)

(** The loop that assigns the first [n] available CPUs: the table and
    cpu_hw_ids_map. *)
Fixpoint take_cores (os : Z) (n : nat) (l : list ihk_smp_cpu) (ids : gset Z) : outcome (list ihk_smp_cpu * gset Z) :=
  match n, l with
  | O, _ | _, [] => Ret (l, ids)
  | S n', c :: r =>
      if negb (cpu_status c =? IHK_SMP_CPU_AVAILABLE) then
        ' (r, ids) ← take_cores os n r ids; Ret (c :: r, ids)
      else
      if negb (core_ok (cpu_hw_id c)) then Undef else
      ' (r, ids) ← take_cores os n' r ({[cpu_hw_id c]} ∪ ids);
      Ret (cpu_set_os c IHK_SMP_CPU_ASSIGNED os :: r, ids)
  end.

(** error_drop_cores *)
Definition drop_cores (os : Z) (s : cpust) : cpust :=
  mk_cpust (map (fun c => if my_cpu os c then cpu_set_os c IHK_SMP_CPU_AVAILABLE 0 else c) (cpus s)) (online s).

(** The first free chunk that is large enough. *)
Definition first_fit (size : Z) (s : memst) : option Z :=
  snd <$> list_find (fun p => size <= ch_size (hdr s p)) (free_chunks s).

(** The memory half of smp_ihk_os_alloc_resource; [None]: goto
    error_drop_cores, with the chunk at address 0, if it was that one,
    already unlinked. *)
Definition alloc_chunk (os size : Z) (s : memst) (o : smp_os_data) : option (memst * smp_os_data) * memst :=
  match first_fit size s with
  | None => (None, s)
  | Some p =>
      let c := hdr s p in
      let s := list_del s p in
      if ch_addr c =? 0 then (None, s) else
      let s := set_used s (mk_os_chunk (ch_addr c) size os (ch_numa c) :: used_chunks s) in
      let s := if size <? ch_size c
               then put_leftover s (u64 (ch_addr c + size)) (u64 (ch_size c - size)) (ch_numa c) else s in
      (Some (s, osd_set_mem o (ch_addr c) (u64 (ch_addr c + size)) (os_numa_mask o)), s)
  end.

(** smp_ihk_os_alloc_resource; [km] tells whether kmalloc succeeds. *)
Definition smp_ihk_os_alloc_resource (km : bool) (os cpu_cores mem_size : Z) (t : ost) : outcome (Z * ost) :=
  if negb (os_status (t_os t) =? BUILTIN_OS_STATUS_INITIAL) then Ret (- EBUSY, t) else
  let o := osd_set_status (t_os t) BUILTIN_OS_STATUS_LOADING in
  if smp_ihk_get_num_cpus (t_cpu t) <? cpu_cores then Ret (- EINVAL, mk_ost (t_mem t) (t_cpu t) o (t_boot t)) else
  ' (l, ids) ← take_cores os (Z.to_nat cpu_cores) (cpus (t_cpu t)) (os_hw_ids_map o);
  let cpu := mk_cpust l (online (t_cpu t)) in
  let o := osd_set_cpus o (os_numa_mask o) ids (os_cpu_mapping o) (os_cpu_hw_ids o) (os_nr_cpus o) in
  if mem_size =? 0 then Ret (0, mk_ost (t_mem t) cpu (osd_set_status o BUILTIN_OS_STATUS_INITIAL) (t_boot t)) else
  if negb km then Ret (- ENOMEM, mk_ost (t_mem t) cpu o (t_boot t)) else
  match alloc_chunk os mem_size (t_mem t) o with
  | (None, mem) => Ret (- ENOMEM, mk_ost mem (drop_cores os cpu) o (t_boot t))
  | (Some (mem, o), _) => Ret (0, mk_ost mem cpu (osd_set_status o BUILTIN_OS_STATUS_INITIAL) (t_boot t))
  end.

(** ** Memory *)

Lemma drop_chunks_ok l : forall s rest,
  hdrs_ok s -> good (map as_chunk l ++ chunks s ++ rest) ->
  let s' := foldl drop_chunk s l in
  hdrs_ok s' /\ chunks s' ≡ₚ map as_chunk l ++ chunks s /\ used_chunks s' = used_chunks s.
Proof.
  induction l as [|oc l IH]; intros s rest Hs Hg; simpl; [done|].
  destruct (put_leftover_ok s (oc_addr oc) (oc_size oc) (oc_numa oc) Hs) as (H1 & H2 & H3).
  { apply (start_fresh s (as_chunk oc) Hs). eapply (good_app_r (map as_chunk l)), (good_app_l _ rest).
    revert Hg. apply good_proper. simpl. solve_Permutation. }
  change (put_leftover s _ _ _) with (drop_chunk s oc) in *. change (mk_chunk _ _ _) with (as_chunk oc) in H2.
  destruct (IH (drop_chunk s oc) rest) as (J1 & J2 & J3); [done| |].
  - revert Hg. apply good_proper. rewrite H2. simpl. solve_Permutation.
  - split; [done|]. rewrite J2, J3, H2, H3. split; [solve_Permutation|done].
Qed.

(** The chunks of a kernel become free, and nothing else changes. *)
Lemma drop_mem_ok os s :
  mem_ok s ->
  mem_ok (drop_mem os s) /\ all_mem (drop_mem os s) ≡ₚ all_mem s /\
  chunks (drop_mem os s) ≡ₚ map as_chunk (filter (fun oc => oc_os oc = os) (used_chunks s)) ++ chunks s.
Proof.
  intros [Hs Hg]. set (mine := filter (fun oc => oc_os oc = os) (used_chunks s)).
  set (others := filter (fun oc => oc_os oc <> os) (used_chunks s)).
  assert (used_chunks s ≡ₚ mine ++ others) as Eu by (symmetry; apply filter_app_complement).
  assert (all_mem s ≡ₚ map as_chunk mine ++ chunks s ++ map as_chunk others) as Ea.
  { unfold all_mem. rewrite Eu, map_app. solve_Permutation. }
  destruct (drop_chunks_ok mine s (map as_chunk others) Hs) as (H1 & H2 & _); [by rewrite <- Ea|].
  assert (chunks (drop_mem os s) ≡ₚ map as_chunk mine ++ chunks s) as Hc by exact H2.
  assert (all_mem (drop_mem os s) ≡ₚ all_mem s) as Em.
  { unfold all_mem at 1. rewrite Hc. change (used_chunks (drop_mem os s)) with others. rewrite Ea. solve_Permutation. }
  split; [|done]. split; [exact H1|]. by rewrite Em.
Qed.

(** ** CPUs *)

Lemma reset_tbl k s x :
  tbl (reset_cpus k s) x = (fun c => if negb (cpu_os c =? k) then c else cpu_set_os c IHK_SMP_CPU_AVAILABLE 0) <$> tbl s x.
Proof. unfold tbl, reset_cpus. simpl. destruct (0 <=? x); [|done]. by rewrite list_lookup_fmap. Qed.

(** Under the invariant the loop of shutdown hits exactly the CPUs of the
    kernel. *)
Lemma reset_spec w k o x :
  cpu_inv w -> w_os w !! k = Some o -> k <> 0 ->
  (x ∈ os_cpus o /\ exists c, tbl (w_cpu w) x = Some c /\ cpu_status c = IHK_SMP_CPU_ASSIGNED /\
     tbl (reset_cpus k (w_cpu w)) x = Some (cpu_set_os c IHK_SMP_CPU_AVAILABLE 0)) \/
  ((x ∉ os_cpus o) /\ tbl (reset_cpus k (w_cpu w)) x = tbl (w_cpu w) x /\
   forall c, tbl (w_cpu w) x = Some c -> cpu_os c <> k).
Proof.
  intros Hi Ho Hk. rewrite reset_tbl. destruct (decide (x ∈ os_cpus o)) as [Hx|Hx].
  - left. split; [done|]. destruct (ci_map _ Hi k o x Ho Hx) as (c & Hc & Hs & Hkc). exists c.
    rewrite Hc. simpl. by rewrite Hkc, Z.eqb_refl.
  - right. split; [done|]. assert (forall c, tbl (w_cpu w) x = Some c -> cpu_os c <> k) as Hne.
    { intros c Hc Ec. destruct (decide (cpu_status c = IHK_SMP_CPU_ASSIGNED)) as [Hs|Hs].
      - destruct (ci_owner _ Hi x c Hc Hs) as (o' & Ho' & Hx'). rewrite Ec, Ho in Ho'. by injection Ho' as <-.
      - apply (ci_free _ Hi x c Hc) in Hs. congruence. }
    split; [|done]. destruct (tbl (w_cpu w) x) as [c|]; [|done]. simpl.
    by rewrite (proj2 (Z.eqb_neq _ _) (Hne c eq_refl)).
Qed.

Lemma reset_inv w k o o' :
  cpu_inv w -> w_os w !! k = Some o -> k <> 0 -> osd_ok o' -> os_cpus o' = [] ->
  cpu_inv (mk_world (reset_cpus k (w_cpu w)) (<[k := o']> (w_os w))).
Proof.
  intros Hi Ho Hk Hok He. pose proof (fun x => reset_spec w k o x Hi Ho Hk) as Hr. constructor; simpl.
  - unfold full. simpl. rewrite length_map. apply (ci_full _ Hi).
  - intros x c'. destruct (Hr x) as [(_ & c & Hc & Hs & ->)|(_ & -> & _)]; [|apply (ci_entry _ Hi)].
    intros [= <-]. simpl. split; [unfold stable; auto|]. intros _. apply (ci_entry _ Hi x c Hc). by right.
  - intros x c'. destruct (Hr x) as [(_ & c & Hc & Hs & ->)|(_ & -> & Hne)]; [by intros [= <-]|].
    intros Hc Hs. destruct (ci_owner _ Hi x c' Hc Hs) as (o1 & Ho1 & Hx). exists o1. split; [|done].
    rewrite lookup_insert_ne; [done|]. by apply not_eq_sym, Hne.
  - intros k' o1. destruct (decide (k = k')) as [<-|Hne]; [|rewrite lookup_insert_ne by done; apply (ci_osd _ Hi)].
    rewrite lookup_insert_eq. intros [= <-]. split; [done|]. rewrite He. constructor.
  - intros k' o1 x. destruct (decide (k = k')) as [<-|Hne].
    + rewrite lookup_insert_eq. intros [= <-]. rewrite He. by intros ?%elem_of_nil.
    + rewrite lookup_insert_ne by done. intros Ho1 Hx. destruct (ci_map _ Hi k' o1 x Ho1 Hx) as (c & Hc & Hs & Hkc).
      exists c. destruct (Hr x) as [(Hin & _)|(_ & -> & _)]; [|done].
      destruct (ci_map _ Hi k o x Ho Hin) as (d & Hd & _ & Hkd). congruence.
  - intros x c'. destruct (Hr x) as [(_ & c & Hc & Hs & ->)|(_ & -> & _)]; [by intros [= <-]|apply (ci_free _ Hi)].
Qed.

(** What the shutdown of a loaded kernel [k] leaves. *)
Record shut_down (w : world) (mem : memst) (k : Z) (o : smp_os_data) (t' : ost) : Prop := {
  sd_cpu_inv : cpu_inv (mk_world (t_cpu t') (<[k := t_os t']> (w_os w)));
  sd_mem_ok : mem_ok (t_mem t');
  sd_status : os_status (t_os t') = BUILTIN_OS_STATUS_INITIAL;
  sd_no_cpus : os_cpus (t_os t') = [];
  sd_boot : t_boot t' = mk_boot false false false BUILTIN_DEV_STATUS_READY;
  sd_mine : forall x, x ∈ os_cpus o -> exists c, tbl (t_cpu t') x = Some c /\ cpu_status c = IHK_SMP_CPU_AVAILABLE;
  sd_others : forall x, x ∉ os_cpus o -> tbl (t_cpu t') x = tbl (w_cpu w) x;
  sd_free : chunks (t_mem t') ≡ₚ map as_chunk (filter (fun oc => oc_os oc = k) (used_chunks mem)) ++ chunks mem;
  sd_used : used_chunks (t_mem t') = filter (fun oc => oc_os oc <> k) (used_chunks mem);
  sd_stale : os_hw_ids_map (t_os t') = os_hw_ids_map o /\ os_numa_mask (t_os t') = os_numa_mask o /\
    os_mem_start (t_os t') = os_mem_start o /\ os_mem_end (t_os t') = os_mem_end o
}.

(** C17 Shutting down a kernel that was loaded returns 0 and
    gives back everything it had: its CPUs are available again, its memory is
    free, it is in its initial state, and the CPUs and the memory of the other
    kernels are as before; the invariants of the two tables hold again.  The
    masks of hardware ids and NUMA nodes and the memory bounds of the kernel
    keep their old values.  A kernel in its initial state keeps the CPUs and
    the memory it was assigned. *)
Theorem shutdown_correct w mem k o b :
  cpu_inv w -> mem_ok mem -> w_os w !! k = Some o -> k <> 0 ->
  let t := mk_ost mem (w_cpu w) o b in
  let '(ret, t') := smp_ihk_os_shutdown k t in
  ret = 0 /\
  if (os_status o =? BUILTIN_OS_STATUS_INITIAL) || (os_status o =? BUILTIN_OS_STATUS_SHUTDOWN) then t' = t
  else shut_down w mem k o t'.
Proof.
  intros Hi Hm Ho Hk. cbv zeta. unfold smp_ihk_os_shutdown. cbn [t_os]. destruct (_ || _); [done|]. split; [done|].
  destruct (ci_osd _ Hi k o Ho) as [(H1 & H2 & H3) _]. destruct (drop_mem_ok k mem Hm) as (Hm' & _ & Hc).
  constructor; try done.
  - apply (reset_inv w k o); [done|done|done| |done]. by unfold osd_ok.
  - intros x Hx. destruct (reset_spec w k o x Hi Ho Hk) as [(_ & c & _ & _ & E)|[? _]]; [|done]. by eexists.
  - intros x Hx. by destruct (reset_spec w k o x Hi Ho Hk) as [[? _]|(_ & E & _)].
Qed.

(** Kernel 16 has two CPUs and a chunk, and is booting. *)
Definition used_mem : memst := set_used (list_del demo_mem 0x400000) [mk_os_chunk 0x400000 0x4000 16 0].

Lemma used_mem_ok : mem_ok used_mem.
Proof.
  destruct demo_mem_ok as [Hs Hg]. split; [by apply (list_del_ok demo_mem)|].
  by replace (all_mem used_mem) with (all_mem demo_mem) by (vm_compute; reflexivity).
Qed.

Lemma shutdown_correct_witness :
  exists w o, w_os w !! 16 = Some o /\ os_cpus o = [5; 3] /\ os_status o = BUILTIN_OS_STATUS_BOOTING /\
    shut_down w used_mem 16 o (smp_ihk_os_shutdown 16 (mk_ost used_mem (w_cpu w) o (mk_boot true true true 1))).2.
Proof.
  destruct (@assign_inv cpu_smp cpu_smp_ok available_world 16 zero_osd [5; 3] available_inv)
    as (s' & o' & _ & Eo & _ & Hi); [reflexivity|repeat constructor; set_solver|reflexivity| |].
  { repeat constructor; eexists; (split; [vm_compute; reflexivity|reflexivity]). }
  set (o := osd_set_status o' BUILTIN_OS_STATUS_BOOTING).
  set (w := mk_world s' (<[16 := o]> (w_os available_world))).
  assert (cpu_inv w) as Hw.
  { unfold w. rewrite <- (insert_insert_eq _ 16 o o'). apply (reos_inv _ 16 o' o Hi); [apply lookup_insert_eq|done|].
    destruct (ci_osd _ Hi 16 o') as [Hok _]; [apply lookup_insert_eq|done]. }
  assert (w_os w !! 16 = Some o) as Ho by apply lookup_insert_eq.
  exists w, o. split; [done|]. split; [done|]. split; [done|].
  exact (proj2 (shutdown_correct w used_mem 16 o (mk_boot true true true 1) Hw used_mem_ok Ho ltac:(done))).
Defined.

(** ** Allocation *)

Definition is_avail (c : ihk_smp_cpu) : bool := cpu_status c =? IHK_SMP_CPU_AVAILABLE.
Definition count (f : ihk_smp_cpu -> bool) (l : list ihk_smp_cpu) : nat := length (List.filter f l).

Lemma count_cons f c l : count f (c :: l) = ((if f c then 1 else 0) + count f l)%nat.
Proof. unfold count. simpl. by destruct (f c). Qed.

(** The first [n] available CPUs of the table are taken, no other entry
    changes. *)
Lemma take_cores_ok os l : forall n ids,
  os <> 0 -> Forall (fun c => is_avail c = true -> core_ok (cpu_hw_id c) = true) l -> (n <= count is_avail l)%nat ->
  exists l' ids', take_cores os n l ids = Ret (l', ids') /\ length l' = length l /\
    (count is_avail l' + n = count is_avail l)%nat /\ (count (my_cpu os) l' = count (my_cpu os) l + n)%nat /\
    forall j c, l !! j = Some c -> l' !! j = Some c \/
      (is_avail c = true /\ l' !! j = Some (cpu_set_os c IHK_SMP_CPU_ASSIGNED os)).
Proof.
  intros n ids Hos. revert n ids. induction l as [|c l IH]; intros n ids Hc Hn.
  { unfold count in Hn. simpl in Hn. destruct n; [|lia]. exists [], ids. by simpl. }
  destruct n as [|n].
  { exists (c :: l), ids. split; [done|]. split; [done|]. split; [lia|]. split; [lia|]. auto. }
  rewrite Forall_cons in Hc. destruct Hc as [Hc Hl]. simpl. fold (is_avail c).
  rewrite !count_cons in Hn |- *. destruct (is_avail c) eqn:Ea; cbn [negb].
  - rewrite Hc by done. destruct (IH n ({[cpu_hw_id c]} ∪ ids) Hl) as (l' & ids' & -> & Hlen & H1 & H2 & H3); [lia|].
    cbn [negb mbind outcome_bind]. eexists _, _. split; [done|]. split; [simpl; by rewrite Hlen|]. rewrite !count_cons.
    assert (my_cpu os c = false) as -> by (apply Z.eqb_eq in Ea; unfold my_cpu; by rewrite Ea).
    assert (my_cpu os (cpu_set_os c IHK_SMP_CPU_ASSIGNED os) = true) as -> by (apply Z.eqb_refl).
    change (is_avail (cpu_set_os c IHK_SMP_CPU_ASSIGNED os)) with false.
    split; [lia|]. split; [lia|]. intros [|j] d; simpl; [|apply H3]. intros [= <-]. by right.
  - destruct (IH (S n) ids Hl) as (l' & ids' & -> & Hlen & H1 & H2 & H3); [lia|]. cbn [mbind outcome_bind].
    eexists _, _. split; [done|]. split; [simpl; by rewrite Hlen|]. rewrite !count_cons, Ea. split; [lia|].
    split; [lia|]. intros [|j] d; simpl; [|apply H3]. intros [= <-]. by left.
Qed.

(** The memory half: the first chunk that is large enough is split. *)
Lemma alloc_chunk_ok os size s o :
  mem_ok s -> aligned size -> 0 < size < 2 ^ 64 ->
  match alloc_chunk os size s o with
  | (None, s') => s' = s /\ Forall (fun c => ch_size c < size) (chunks s)
  | (Some (s', o'), _) => mem_ok s' /\ (forall x n, own (all_mem s') x n <-> own (all_mem s) x n) /\
      exists a n, used_chunks s' = mk_os_chunk a size os n :: used_chunks s /\ os_mem_start o' = a /\ os_mem_end o' = a + size
  end.
Proof.
  intros [Hs Hg] Hal Hsz. unfold alloc_chunk, first_fit.
  destruct (list_find _ (free_chunks s)) as [[i p]|] eqn:E; cbn [fmap option_fmap option_map snd].
  2:{ apply list_find_None in E. split; [done|]. unfold chunks. apply Forall_fmap. eapply Forall_impl; [exact E|]. simpl. lia. }
  apply list_find_Some in E as (Hp & Hle & _). apply list_elem_of_lookup_2 in Hp.
  set (c := hdr s p) in *. pose proof (list_del_chunks s p Hs Hp) as Hperm. fold c in Hperm.
  assert (all_mem s ≡ₚ c :: chunks (list_del s p) ++ map as_chunk (used_chunks s)) as Ea.
  { unfold all_mem. by rewrite Hperm. }
  rewrite Ea in Hg. pose proof Hg as Hc. rewrite good_cons in Hc. destruct Hc as ((Ha0 & Hs0 & He & Haa & Has) & _).
  unfold ch_end in He. rewrite (proj2 (Z.eqb_neq _ _)) by lia.
  destruct (Z.ltb_spec size (ch_size c)) as [Hlt|Hge]; cbn [used_chunks os_mem_start os_mem_end osd_set_mem].
  - destruct (cut_ok (list_del s p) c size (ch_addr c + size) (map as_chunk (used_chunks s)))
      as (Hok & Hu & Hg' & Hown & Hown' & _); auto using list_del_ok, aligned_add; [lia|unfold ch_end; lia|].
    rewrite !u64_small by lia. replace (ch_end c - (ch_addr c + size)) with (ch_size c - size) in * by (unfold ch_end; lia).
    set (s1 := put_leftover (list_del s p) _ _ _) in *. set (oc := mk_os_chunk (ch_addr c) size os (ch_numa c)).
    match goal with |- mem_ok ?s' /\ _ => set (s2 := s') end.
    assert (chunks s2 = chunks s1) as Ec by done. assert (used_chunks s2 = oc :: used_chunks s) as Eu by done.
    assert (all_mem s2 ≡ₚ (as_chunk oc :: chunks s1) ++ map as_chunk (used_chunks s)) as E2.
    { unfold all_mem. rewrite Ec, Eu. simpl. solve_Permutation. }
    split; [split; [exact Hok|by rewrite E2]|]. split; [|by eexists _, _].
    intros x n. rewrite E2, Ea, own_app, app_comm_cons, own_app. specialize (Hown x n). specialize (Hown' eq_refl x n). tauto.
  - assert (ch_size c = size) as Es by lia. match goal with |- mem_ok ?s' /\ _ => set (s2 := s') end.
    assert (all_mem s2 ≡ₚ all_mem s) as E2.
    { rewrite Ea. unfold all_mem. change (chunks s2) with (chunks (list_del s p)).
      change (used_chunks s2) with (mk_os_chunk (ch_addr c) size os (ch_numa c) :: used_chunks s). simpl. unfold as_chunk at 1. simpl.
      replace (mk_chunk (ch_addr c) size (ch_numa c)) with c by (rewrite <- Es; by destruct c). solve_Permutation. }
    split; [split; [by apply (list_del_ok s)|by rewrite E2, Ea]|]. split; [intros x n; by rewrite E2|].
    rewrite u64_small by lia. by eexists _, _.
Qed.

Lemma alloc_chunk_osd os size s o :
  match alloc_chunk os size s o with (Some (_, o'), _) => os_cpus o' = os_cpus o | _ => True end.
Proof. unfold alloc_chunk. repeat case_match; simplify_eq; done. Qed.

(** The count of available CPUs. *)
Lemma num_cpus_count s : smp_ihk_get_num_cpus s = Z.of_nat (count is_avail (cpus s)).
Proof.
  unfold smp_ihk_get_num_cpus, available, count. f_equal. rewrite length_map.
  assert (forall l (k : nat -> nat), length (filter (fun p : nat * ihk_smp_cpu => cpu_status p.2 = IHK_SMP_CPU_AVAILABLE)
    (imap (fun i c => (k i, c)) l)) = length (List.filter is_avail l)) as Hl.
  { induction l as [|c l IH]; intros k; [done|]. rewrite imap_cons, filter_cons. simpl.
    unfold compose. specialize (IH (fun i => k (S i))). unfold is_avail at 1.
    destruct (Z.eqb_spec (cpu_status c) IHK_SMP_CPU_AVAILABLE), (decide (cpu_status c = IHK_SMP_CPU_AVAILABLE));
      try done; simpl; by rewrite IH. }
  exact (Hl (cpus s) (fun i => i)).
Qed.

(** smp_ihk_os_alloc_resource always returns.  When
    it returns 0 the kernel is back in its initial state, [cpu_cores] of the
    available CPUs are assigned to it (none of them enters its mapping), a
    chunk of [mem_size] bytes is its memory, and the memory of the driver is
    in order.  It refuses a kernel that is not in its initial state; any
    other error leaves the kernel in the state LOADING. *)
Theorem alloc_resource_outcome km os cores size t :
  mem_ok (t_mem t) -> os <> 0 -> aligned size -> 0 <= size < 2 ^ 64 -> 0 <= cores ->
  Forall (fun c => is_avail c = true -> core_ok (cpu_hw_id c) = true) (cpus (t_cpu t)) ->
  exists ret t', smp_ihk_os_alloc_resource km os cores size t = Ret (ret, t') /\ mem_ok (t_mem t') /\
    os_cpus (t_os t') = os_cpus (t_os t) /\
    ((ret = 0 /\ os_status (t_os t') = BUILTIN_OS_STATUS_INITIAL /\
      Z.of_nat (count (my_cpu os) (cpus (t_cpu t'))) = Z.of_nat (count (my_cpu os) (cpus (t_cpu t))) + cores /\
      (size = 0 \/ exists a n, used_chunks (t_mem t') = mk_os_chunk a size os n :: used_chunks (t_mem t))) \/
     (ret = - EBUSY /\ t' = t /\ os_status (t_os t) <> BUILTIN_OS_STATUS_INITIAL) \/
     (ret < 0 /\ os_status (t_os t') = BUILTIN_OS_STATUS_LOADING)).
Proof.
  intros Hm Hos Hal Hsz Hco Hhw. unfold smp_ihk_os_alloc_resource. cbv zeta.
  destruct (Z.eqb_spec (os_status (t_os t)) BUILTIN_OS_STATUS_INITIAL) as [Hst|Hst]; cbn [negb].
  2:{ eexists _, _. split; [done|]. split; [done|]. split; [done|]. right. by left. }
  destruct (Z.ltb_spec (smp_ihk_get_num_cpus (t_cpu t)) cores) as [Hlt|Hge].
  { eexists _, _. split; [done|]. split; [done|]. split; [done|]. by right; right. }
  destruct (take_cores_ok os (cpus (t_cpu t)) (Z.to_nat cores) (os_hw_ids_map (t_os t)) Hos Hhw)
    as (l & ids & E & Hlen & _ & Hmine & _).
  { revert Hge. rewrite num_cpus_count. lia. }
  change (os_hw_ids_map (osd_set_status (t_os t) BUILTIN_OS_STATUS_LOADING)) with (os_hw_ids_map (t_os t)).
  rewrite E. cbn [mbind outcome_bind].
  destruct (Z.eqb_spec size 0) as [->|Hne].
  { eexists _, _. split; [done|]. split; [done|]. split; [done|]. left. split; [done|]. split; [done|]. simpl. split; [lia|]. by left. }
  destruct km; cbn [negb].
  2:{ eexists _, _. split; [done|]. split; [done|]. split; [done|]. by right; right. }
  match goal with |- context [alloc_chunk os size (t_mem t) ?o'] =>
    pose proof (alloc_chunk_ok os size (t_mem t) o' Hm Hal ltac:(lia)) as Ha;
    pose proof (alloc_chunk_osd os size (t_mem t) o') as Hb; destruct (alloc_chunk os size (t_mem t) o') as [[[mem o]|] mem'] end.
  - destruct Ha as (Hm' & _ & a & n & Hu & _). eexists _, _. split; [done|]. split; [done|].
    split; [exact Hb|]. left. split; [done|]. split; [done|]. simpl. split; [lia|]. right. eauto.
  - destruct Ha as [-> _]. eexists _, _. split; [done|]. split; [done|]. split; [done|]. by right; right.
Qed.

Definition alloc_demo : ost := mk_ost demo_mem (w_cpu available_world) zero_osd (mk_boot false false false 0).

Lemma alloc_resource_outcome_witness :
  exists ret t', smp_ihk_os_alloc_resource true 16 2 0x2000 alloc_demo = Ret (ret, t') /\ mem_ok (t_mem t') /\
    os_cpus (t_os t') = os_cpus (t_os alloc_demo) /\
    ((ret = 0 /\ os_status (t_os t') = BUILTIN_OS_STATUS_INITIAL /\
      Z.of_nat (count (my_cpu 16) (cpus (t_cpu t'))) = Z.of_nat (count (my_cpu 16) (cpus (t_cpu alloc_demo))) + 2 /\
      (0x2000 = 0 \/ exists a n, used_chunks (t_mem t') = mk_os_chunk a 0x2000 16 n :: used_chunks (t_mem alloc_demo))) \/
     (ret = - EBUSY /\ t' = alloc_demo /\ os_status (t_os alloc_demo) <> BUILTIN_OS_STATUS_INITIAL) \/
     (ret < 0 /\ os_status (t_os t') = BUILTIN_OS_STATUS_LOADING)).
Proof.
  apply (alloc_resource_outcome true 16 2 0x2000 alloc_demo demo_mem_ok);
    [lia|by apply aligned_dec|lia|lia|].
  unfold alloc_demo, available_world. cbn [t_cpu w_cpu cpus]. constructor; [done|]. apply Forall_replicate. done.
Defined.

(** A request for memory that cannot be met takes all CPUs from the kernel,
    also those assigned before, but leaves them in its mapping. *)
Theorem failed_alloc_keeps_mapping :
  match @smp_ihk_os_assign_cpu cpu_smp true 16 (cpu_arg [5]) (w_cpu available_world) zero_osd with
  | Ret (ret, s, o) => ret = 0 /\
      match smp_ihk_os_alloc_resource true 16 0 0x100000 (mk_ost demo_mem s o (mk_boot false false false 0)) with
      | Ret (ret', t') => ret' = - ENOMEM /\ os_cpus (t_os t') = [5] /\
          cpu_status <$> tbl (t_cpu t') 5 = Some IHK_SMP_CPU_AVAILABLE
      | Undef => False
      end
  | Undef => False
  end.
Proof. vm_compute. done. Qed.
