(* ===== verification/SmpHist.v ===== *)
(** * Histories of requests to the SMP driver (src/linux/driver/smp/smp-driver.c)

    What stays true of the memory and of the CPUs of the driver whatever
    sequence of requests it serves: reservations, assignments, releases,
    allocations, shutdowns and destructions, of any number of kernels.  The
    conditions on the single requests are part of the statements, with the
    requests that break an invariant named. *)

From stdpp Require Import base tactics numbers list gmap sorting.
From S2P Require Import Prelude SmpData SmpMem SmpRb SmpReserve SmpGrab SmpCpu SmpOs.

Open Scope ihk_scope.

(** ** Memory *)

(** The requests that change the memory: the ioctls of SmpMem.v (assignment,
    release by a kernel, release to Linux), a reservation with what Linux
    answers to it and the rounds its loop gets, a shutdown of a kernel and an
    allocation of CPUs and memory, with the CPU table and the data of the
    kernel they find. *)
Inductive mem_request : Type :=
| RIoctl (op : mem_op)
| RReserve (fuel : nat) (linux : nat -> memst -> linux_pages) (km : nat -> bool) (arg : uptr ihk_mem_req)
| RShutdown (os : Z) (c : cpust) (o : smp_os_data) (b : boot)
| RAlloc (km : bool) (os cpu_cores mem_size : Z) (c : cpust) (o : smp_os_data) (b : boot).

Section memory.
Context `{SmpEnv} `{HR : RbTreeOk} (head : Z).

Definition mem_serve (r : mem_request) (s : memst) : outcome memst :=
  match r with
  | RIoctl op => mem_run head op s
  | RReserve fuel linux km arg => ' (_, s') ← smp_ihk_reserve_mem fuel linux km arg s; Ret s'
  | RShutdown os c o b => Ret (t_mem (smp_ihk_os_shutdown os (mk_ost s c o b)).2)
  | RAlloc km os cores size c o b =>
      ' (_, t) ← smp_ihk_os_alloc_resource km os cores size (mk_ost s c o b); Ret (t_mem t)
  end.

Fixpoint mem_history (rs : list mem_request) (s : memst) : outcome memst :=
  match rs with
  | [] => Ret s
  | r :: rs' => s' ← mem_serve r s; mem_history rs' s'
  end.

(** What a request needs when it finds the memory [s].  Assignments and
    allocations ask for whole pages (or for all).  During a reservation Linux
    keeps its promises, is not quick so often that the rounds do not suffice,
    and hands out neither the memory of the list head of the driver nor a
    block that ends where the bytes in front of that head, read as the address
    of a chunk, point.  The entries of available CPUs have hardware ids that
    fit in the bit set. *)
Definition mem_fits (r : mem_request) (s : memst) : Prop :=
  match r with
  | RIoctl op => op_ok op
  | RReserve fuel linux km arg =>
      uarr_u64 (mr_sizes (up_val arg)) /\ (forall k s n, mem_ok s -> linux_ok n s (linux k s)) /\
      (forall k s, mem_ok s -> enough (linux k s) fuel) /\
      (forall x, handed linux x -> x <> head /\ x + 1 <> ch_addr (hdr s head))
  | RShutdown _ _ _ _ => True
  | RAlloc _ os cores size c _ _ =>
      os <> 0 /\ aligned size /\ 0 <= size < 2 ^ 64 /\ 0 <= cores /\
      Forall (fun c => is_avail c = true -> core_ok (cpu_hw_id c) = true) (cpus c)
  end.

Fixpoint mem_all_fit (rs : list mem_request) (s : memst) : Prop :=
  match rs with
  | [] => True
  | r :: rs' => mem_fits r s /\ forall s', mem_serve r s = Ret s' -> mem_all_fit rs' s'
  end.

(** A byte of a block that Linux hands out to a reservation of the history. *)
Definition from_linux (rs : list mem_request) (x : Z) : Prop :=
  Exists (fun r => match r with RReserve _ linux _ _ => handed linux x | _ => False end) rs.

(** The invariant after a request, and where the managed bytes come from. *)
Definition mem_next (r : mem_request) (s s' : memst) : Prop :=
  mem_ok s' /\ head_safe head s' /\ forall x n, own (all_mem s') x n -> own (all_mem s) x n \/ from_linux [r] x.

Lemma sub_next r s s' : sub_mem head s s' -> mem_next r s s'.
Proof using. intros (H1 & H2 & H3). split_and!; auto. Qed.

Lemma same_next r s s' :
  head_safe head s -> mem_ok s' -> hdr s' head = hdr s head ->
  (forall x n, own (all_mem s') x n -> own (all_mem s) x n) -> mem_next r s s'.
Proof using. intros Hh Hm Eh Ho. apply sub_next. split_and!; [done|by eapply head_safe_mono|done]. Qed.

Lemma reserve_next fuel linux km arg s :
  tails_ok -> orders_ok -> mem_ok s -> head_safe head s -> mem_fits (RReserve fuel linux km arg) s ->
  exists s', mem_serve (RReserve fuel linux km arg) s = Ret s' /\ mem_next (RReserve fuel linux km arg) s s'.
Proof using HR.
  intros Ht Ho Hs Hh (Hu & Hl & Hf & Hd). cbn [mem_serve].
  destruct (reserve_request_correct Ht Ho linux fuel Hl km arg s Hs Hu) as [(ret & s' & -> & [M1 M2 M3 M4 M5] & _)|[_ (k & s1 & Hs1 & Hb)]].
  2:{ destruct (Hb (Hf k s1 Hs1)). }
  exists s'. split; [done|]. assert (hdr s' head = hdr s head) as Eh by (apply M5; by intros [? _]%Hd).
  split_and!; [done|..].
  - intros x n Hx. rewrite Eh. apply M4 in Hx as [Hx|Hx]; [by apply (Hh x n)|by apply Hd].
  - intros x n Hx. apply M4 in Hx as [|]; [by left|right]. by constructor.
Qed.

(** The headers a shutdown writes are at the beginning of used chunks. *)
Lemma drop_chunks_frame q l : forall s, Forall (fun oc => oc_addr oc <> q) l -> hdr (foldl drop_chunk s l) q = hdr s q.
Proof using.
  induction l as [|oc l IH]; intros s Hl; [done|]. rewrite Forall_cons in Hl. destruct Hl as [Hq Hl]. simpl.
  rewrite IH by done. unfold drop_chunk, put_leftover. simpl. by rewrite (proj2 (Z.eqb_neq q _)) by done.
Qed.

Lemma drop_next r os s : mem_ok s -> head_safe head s -> mem_next r s (drop_mem os s).
Proof using.
  intros Hs Hh. destruct (drop_mem_ok os s Hs) as (Hm & Ha & _).
  apply same_next; [done..| |by intros x n; rewrite Ha]. apply (drop_chunks_frame head).
  apply Forall_forall. intros oc [_ Hoc]%list_elem_of_filter Eq. destruct Hs as [_ [_ Hv]].
  assert (as_chunk oc ∈ all_mem s) as Hin by (unfold all_mem; apply elem_of_app; right; by apply list_elem_of_fmap_2).
  rewrite Forall_forall in Hv. destruct (Hv _ Hin) as (_ & Hsz & _).
  destruct (Hh (oc_addr oc) (oc_numa oc)) as [Hne _]; [|done]. apply Exists_exists. exists (as_chunk oc).
  split; [done|]. unfold within, ch_end, as_chunk in *. simpl in *. split; [lia|done].
Qed.

Lemma alloc_chunk_frame os size s o :
  mem_ok s -> head_safe head s -> 0 < size < 2 ^ 64 ->
  match alloc_chunk os size s o with (Some (s', _), _) => hdr s' head = hdr s head | _ => True end.
Proof using.
  intros [Hs [_ Hv]] Hh Hsz. unfold alloc_chunk, first_fit.
  destruct (list_find _ (free_chunks s)) as [[i p]|] eqn:E; cbn [fmap option_fmap option_map snd]; [|done].
  apply list_find_Some in E as (Hp & Hle & _). apply list_elem_of_lookup_2 in Hp. set (c := hdr s p) in *.
  assert (c ∈ all_mem s) as Hin by (unfold all_mem; apply elem_of_app; left; by apply list_elem_of_fmap_2).
  rewrite Forall_forall in Hv. destruct (Hv c Hin) as (Ha & Hs0 & He & _). unfold ch_end in He.
  destruct (ch_addr c =? 0); [done|]. destruct (Z.ltb_spec size (ch_size c)) as [Hlt|]; [|done].
  rewrite (u64_small (ch_addr c + size)) by lia. unfold put_leftover. simpl. rewrite (proj2 (Z.eqb_neq head _)); [done|].
  intros Eq. destruct (Hh head (ch_numa c)) as [Hne _]; [|done]. apply Exists_exists. exists c. split; [done|].
  unfold within, ch_end. split; [lia|done].
Qed.

Lemma alloc_next km os cores size c o b s :
  mem_ok s -> head_safe head s -> mem_fits (RAlloc km os cores size c o b) s ->
  exists s', mem_serve (RAlloc km os cores size c o b) s = Ret s' /\ mem_next (RAlloc km os cores size c o b) s s'.
Proof using.
  intros Hs Hh (Hos & Hal & Hsz & Hco & Hhw). assert (forall r, mem_next r s s) as Hsame by (intros r; by apply same_next).
  cbn [mem_serve]. unfold smp_ihk_os_alloc_resource. cbn [t_mem t_cpu t_os t_boot].
  destruct (os_status o =? _); cbn [negb]; [|by exists s].
  destruct (Z.ltb_spec (smp_ihk_get_num_cpus c) cores) as [Hlt|Hge]; [by exists s|].
  match goal with |- context [take_cores os ?n _ ?ids] => destruct (take_cores_ok os (cpus c) n ids Hos Hhw) as (l & ids' & -> & _) end.
  { revert Hge. rewrite num_cpus_count. lia. }
  cbn [mbind outcome_bind]. destruct (Z.eqb_spec size 0) as [|Hne]; [by exists s|]. destruct km; cbn [negb]; [|by exists s].
  match goal with |- context [alloc_chunk os size s ?o'] =>
    pose proof (alloc_chunk_ok os size s o' Hs Hal ltac:(lia)) as Ha; pose proof (alloc_chunk_frame os size s o' Hs Hh ltac:(lia)) as Hf;
    destruct (alloc_chunk os size s o') as [[[mem o1]|] mem'] end.
  - destruct Ha as (Hm & Hown & _). exists mem. split; [done|]. apply same_next; [done..|]. intros x n. apply Hown.
  - destruct Ha as [-> _]. by exists s.
Qed.

Lemma mem_serve_ok r s :
  tails_ok -> orders_ok -> mem_ok s -> head_safe head s -> mem_fits r s -> exists s', mem_serve r s = Ret s' /\ mem_next r s s'.
Proof using HR.
  intros Ht Ho Hs Hh Hf. destruct r as [op|fuel linux km arg|os c o b|km os cores size c o b].
  - destruct (mem_run_ok Ht Ho head op s Hs Hh Hf) as (s' & E & Hsub). exists s'. split; [done|by apply sub_next].
  - by apply reserve_next.
  - eexists. split; [reflexivity|]. unfold smp_ihk_os_shutdown. cbn [t_os]. destruct (_ || _); [by apply same_next|by apply drop_next].
  - by apply alloc_next.
Qed.

(** C5 Any history of requests that change the memory of the
    driver (reservations, assignments, releases by kernels and to Linux,
    shutdowns and allocations, of any kernels, with kmalloc failing at any
    place) runs to its end and leaves the free and the assigned chunks
    non-empty, page-aligned, in the address space and pairwise disjoint, with
    the free list sorted and every free header at the start of its memory.
    Every managed byte was managed before, on the same NUMA node, or is in a
    block that Linux handed out to one of the reservations.  The requests are
    for whole pages or for all, Linux keeps its promises, and no reservation
    is one that Linux keeps running with quick rounds (mem_fits).  The partial
    release is not among the requests: it breaks the invariant
    (SmpReserve.partial_release_dangling). *)
Theorem mem_partition rs s :
  tails_ok -> orders_ok -> mem_ok s -> head_safe head s -> mem_all_fit rs s ->
  exists s', mem_history rs s = Ret s' /\ hdrs_ok s' /\ good (all_mem s') /\
    forall x n, own (all_mem s') x n -> own (all_mem s) x n \/ from_linux rs x.
Proof using HR.
  intros Ht Ho. revert s. induction rs as [|r rs IH]; intros s Hs Hh Hf; cbn [mem_history].
  { exists s. destruct Hs. auto. }
  destruct Hf as [Hf Hr]. destruct (mem_serve_ok r s Ht Ho Hs Hh Hf) as (s1 & E & H1 & H2 & H3).
  destruct (IH s1 H1 H2 (Hr s1 E)) as (s' & E' & K1 & K2 & K3). rewrite E. cbn [mbind outcome_bind].
  exists s'. split_and!; [done..|]. intros x n [Hx|Hx]%K3; [|by right; right].
  apply H3 in Hx as [|Hx]; [by left|right; left]. by inversion Hx as [? ? ?|? ? Hn]; [|inversion Hn].
Qed.
End memory.

(** Node 1 gets two blocks of Linux; kernel 1 gets a chunk of node 0 and is
    shut down; kernel 2 is allocated a chunk; a chunk goes back to Linux. *)
Definition demo_requests : list mem_request :=
  [RReserve (Z.to_nat (2 ^ 64 + 40)) (fun _ => four_blocks) (fun _ => true) (demo_req [2 ^ 23] [1]);
   RIoctl (MAssign (fun _ => true) (fun _ _ => true) 1 (demo_req [0x5000] [0]) demo_osd);
   RShutdown 1 (mk_cpust [] ∅) (osd_set_status demo_osd BUILTIN_OS_STATUS_BOOTING) (mk_boot true true true 1);
   RAlloc true 2 0 0x2000 (mk_cpust [] ∅) demo_osd (mk_boot false false false 0);
   RIoctl (MFree (fun _ => true) (demo_req [0x4000] [0]))].

(** The blocks of [four_blocks]. *)
Lemma four_blocks_handed x : handed (fun _ => four_blocks) x -> 2 ^ 30 <= x < 2 ^ 30 + 2 ^ 24.
Proof.
  intros (k & s & i & o & p & E & Hx). cbn [four_blocks lx_page] in E.
  destruct (Z.eqb_spec o 10) as [->|]; [|done]. destruct (Nat.ltb_spec i 4) as [Hi|]; [|done].
  destruct (forallb _ _); [|done]. cbn [andb] in E. injection E as <-.
  unfold in_block in Hx. cbn [fst snd] in Hx. change (bsize 10) with (2 ^ 22) in Hx. lia.
Qed.

Lemma demo_requests_fit : @mem_all_fit huge_smp plain_rb demo_head demo_requests demo_mem.
Proof.
  split.
  { split_and!.
    - cbn. repeat constructor; lia.
    - intros k s n _. apply four_blocks_ok.
    - intros k s _. apply much_fuel.
    - intros x Hx%four_blocks_handed. change (ch_addr (hdr demo_mem demo_head)) with 0. unfold demo_head. lia. }
  intros s1 _. split; [|intros s2 _; split; [done|intros s3 _; split; [|intros s4 _; split; done]]].
  - cbn. apply Forall_singleton. by apply demo_size_ok.
  - split_and!; [done|by apply aligned_dec|lia|lia|lia|constructor].
Qed.

Lemma mem_partition_witness :
  exists s', @mem_history huge_smp plain_rb demo_head demo_requests demo_mem = Ret s' /\ hdrs_ok s' /\ good (all_mem s') /\
    forall x n, own (all_mem s') x n -> own (all_mem demo_mem) x n \/ from_linux demo_requests x.
Proof.
  exact (@mem_partition huge_smp plain_rb plain_rb_ok demo_head demo_requests demo_mem huge_tails huge_orders
    demo_mem_ok demo_head_safe demo_requests_fit).
Defined.

(** ** CPUs *)

(** smp_ihk_destroy_os: the data of the kernel is freed. *)
Definition smp_ihk_destroy_os (os : Z) (kernels : gmap Z smp_os_data) : Z * gmap Z smp_os_data := (0, delete os kernels).

(** The requests that change the CPU table or the mapping of a kernel: the
    ioctls of SmpCpu.v (creation, reservation, release, assignment, routing),
    a shutdown and a destruction, with the memory the shutdown finds and what
    the kernel holds while it runs, and the change of the status of a kernel
    by loading, booting and a hang. *)
Inductive cpu_request : Type :=
| QIoctl (op : cpu_op)
| QStatus (os st : Z)
| QShutdown (os : Z) (mem : memst) (b : boot)
| QDestroy (os : Z) (mem : memst) (b : boot).

Section cpu_history.
Context `{SmpEnv} (Hmach : machine_ok).

Definition shutdown_os (os : Z) (mem : memst) (b : boot) (w : world) : Z * world :=
  match w_os w !! os with
  | None => (- EINVAL, w)
  | Some o =>
      let '(ret, t) := smp_ihk_os_shutdown os (mk_ost mem (w_cpu w) o b) in
      (ret, mk_world (t_cpu t) (<[os := t_os t]> (w_os w)))
  end.

(** A destruction shuts the kernel down first. *)
Definition cpu_serve (r : cpu_request) (w : world) : outcome (Z * world) :=
  match r with
  | QIoctl op => cpu_exec op w
  | QStatus os st => os_exec os (fun o => Ret (0, w_cpu w, osd_set_status o st)) w
  | QShutdown os mem b => Ret (shutdown_os os mem b w)
  | QDestroy os mem b =>
      let '(ret, w) := shutdown_os os mem b w in
      if negb (ret =? 0) then Ret (ret, w) else
      let '(ret, kernels) := smp_ihk_destroy_os os (w_os w) in Ret (ret, mk_world (w_cpu w) kernels)
  end.

Fixpoint cpu_history (rs : list cpu_request) (w : world) : outcome (list Z * world) :=
  match rs with
  | [] => Ret ([], w)
  | r :: rs' => ' (ret, w) ← cpu_serve r w; ' (rets, w) ← cpu_history rs' w; Ret (ret :: rets, w)
  end.

(** A shutdown returns the CPUs of a kernel with this status. *)
Definition is_loaded (o : smp_os_data) : bool :=
  negb ((os_status o =? BUILTIN_OS_STATUS_INITIAL) || (os_status o =? BUILTIN_OS_STATUS_SHUTDOWN)).

(** What a request needs: an assignment names no CPU twice, a kernel is not
    the null pointer, and a kernel that is destroyed was loaded or has no
    CPUs. *)
Definition cpu_fits (r : cpu_request) (w : world) : Prop :=
  match r with
  | QIoctl op => distinct_op op
  | QStatus _ _ => True
  | QShutdown os _ _ => os <> 0
  | QDestroy os _ _ => os <> 0 /\ forall o, w_os w !! os = Some o -> is_loaded o = true \/ os_cpus o = []
  end.

Fixpoint cpu_all_fit (rs : list cpu_request) (w : world) : Prop :=
  match rs with
  | [] => True
  | r :: rs' => cpu_fits r w /\ forall ret w', cpu_serve r w = Ret (ret, w') -> cpu_all_fit rs' w'
  end.

Lemma shutdown_os_ok os mem b w :
  cpu_inv w -> os <> 0 -> let '(ret, w') := shutdown_os os mem b w in
  cpu_inv w' /\ forall o, w_os w !! os = Some o ->
    ret = 0 /\ exists o', w_os w' !! os = Some o' /\ (is_loaded o = true \/ os_cpus o = [] -> os_cpus o' = []).
Proof using.
  intros Hi Hk. unfold shutdown_os. destruct (w_os w !! os) as [o|] eqn:Eo; [|by split].
  unfold smp_ihk_os_shutdown, is_loaded. cbn [t_os].
  destruct (_ || _) eqn:Est; cbn [t_cpu t_os negb].
  - rewrite insert_id by done. rewrite world_id. split; [done|]. intros o1 [= <-]. split; [done|]. exists o. rewrite Est.
    split; [done|]. by intros [|].
  - destruct (ci_osd _ Hi os o Eo) as [(H1 & H2 & H3) _]. split.
    + apply (reset_inv w os o); [done..| |done]. by unfold osd_ok.
    + intros o1 [= <-]. split; [done|]. eexists. split; [apply lookup_insert_eq|done].
Qed.

(** A kernel without CPUs can be forgotten. *)
Lemma delete_inv w k o : cpu_inv w -> w_os w !! k = Some o -> os_cpus o = [] -> cpu_inv (mk_world (w_cpu w) (delete k (w_os w))).
Proof using.
  intros [J1 J2 J3 J4 J5 J6] Ho He.
  assert (forall k' o', delete k (w_os w) !! k' = Some o' -> w_os w !! k' = Some o') as Hd by (intros k' o' [_ E]%lookup_delete_Some; done).
  constructor; simpl; eauto. intros x c Hc Hs. destruct (J3 x c Hc Hs) as (o1 & Ho1 & Hx). exists o1. split; [|done].
  apply lookup_delete_Some. split; [|done]. intros ->. rewrite Ho in Ho1. injection Ho1 as ->. rewrite He in Hx. by apply elem_of_nil in Hx.
Qed.

Lemma cpu_serve_ok r w : cpu_inv w -> cpu_fits r w -> exists ret w', cpu_serve r w = Ret (ret, w') /\ cpu_inv w'.
Proof using Hmach.
  intros Hi Hf. destruct r as [op|os st|os mem b|os mem b]; cbn [cpu_serve].
  - by apply cpu_exec_ok.
  - unfold os_exec. destruct (w_os w !! os) as [o|] eqn:Eo; [|by eauto]. eexists _, _. split; [reflexivity|].
    apply (reos_inv w os o); [done..|]. by destruct (ci_osd _ Hi os o Eo).
  - pose proof (shutdown_os_ok os mem b w Hi Hf) as Hs. destruct (shutdown_os os mem b w) as [ret w']. destruct Hs. eauto.
  - destruct Hf as [Hk Hl]. pose proof (shutdown_os_ok os mem b w Hi Hk) as Hs.
    destruct (w_os w !! os) as [o|] eqn:Eo.
    + destruct (shutdown_os os mem b w) as [ret w']. destruct Hs as [Hi' Hs].
      destruct (Hs o eq_refl) as (-> & o' & Eo' & Hc). cbn. eexists _, _. split; [reflexivity|]. eapply delete_inv; eauto.
    + unfold shutdown_os in *. rewrite Eo in *. cbn. eexists _, _. split; [reflexivity|done].
Qed.

(** C6 Whatever history of requests reaches the driver after its
    initialisation (creations, reservations, releases, assignments, routings,
    loads, boots, hangs, shutdowns and destructions, of any kernels), every
    request returns, and afterwards a CPU is in the mapping of at most one
    kernel, once, and no CPU of a kernel is used by Linux; the table agrees
    with the mappings.  The conditions (cpu_fits): no assignment names a CPU
    twice (SmpCpu.duplicate_shares_cpu is what happens otherwise), and a
    kernel that is destroyed was loaded or has no CPUs (destroy_keeps_cpus).
    smp_ihk_os_alloc_resource is not among the requests: it changes the table
    but not the mapping (SmpOs.failed_alloc_keeps_mapping). *)
Theorem cpu_partition rs on :
  exists s, init_cpus on = Ret s /\ (cpu_all_fit rs (mk_world s ∅) ->
  exists rets w', cpu_history rs (mk_world s ∅) = Ret (rets, w') /\ cpu_inv w' /\
    forall k o x, w_os w' !! k = Some o -> x ∈ os_cpus o ->
      NoDup (os_cpus o) /\ (x ∉ online (w_cpu w')) /\
      forall k' o', w_os w' !! k' = Some o' -> x ∈ os_cpus o' -> k' = k).
Proof using Hmach.
  destruct (init_cpus_ok Hmach on) as (s & Es & _ & Hi). exists s. split; [done|]. revert Hi. generalize (mk_world s ∅).
  induction rs as [|r rs IH]; intros w Hi Hf; cbn [cpu_history].
  - exists [], w. split_and!; [done..|]. intros k o x Ho Hx.
    destruct (ci_map _ Hi k o x Ho Hx) as (c & Hc & Hs & Hk). split; [by apply (ci_osd _ Hi k)|].
    split; [apply (ci_entry _ Hi x c Hc); by right|]. intros k' o' Ho' Hx'.
    destruct (ci_map _ Hi k' o' x Ho' Hx') as (c' & Hc' & _ & Hk'). congruence.
  - destruct Hf as [Hf Hr]. destruct (cpu_serve_ok r w Hi Hf) as (ret & w1 & E & Hi1).
    destruct (IH w1 Hi1 (Hr _ _ E)) as (rets & w' & E' & Hrest). rewrite E. cbn [mbind outcome_bind]. rewrite E'. eauto.
Qed.
End cpu_history.

(** Two kernels share three CPUs; the first is booted, shut down and
    destroyed. *)
Definition demo_history : list cpu_request :=
  map QIoctl demo_ops ++ [QStatus 16 BUILTIN_OS_STATUS_BOOTING; QShutdown 16 demo_mem (mk_boot true true true 1);
    QIoctl (CAssign true 17 (cpu_arg [2])); QDestroy 16 demo_mem (mk_boot false false false 0)].

(** The conditions on single requests, and those on the state they find. *)
Definition fits_any (r : cpu_request) : Prop :=
  match r with QIoctl op => distinct_op op | QStatus _ _ => True | QShutdown os _ _ | QDestroy os _ _ => os <> 0 end.

Fixpoint fits_found `{SmpEnv} (rs : list cpu_request) (w : world) : bool :=
  match rs with
  | [] => true
  | r :: rs' =>
      match r with
      | QDestroy os _ _ => match w_os w !! os with Some o => is_loaded o || bool_decide (os_cpus o = []) | None => true end
      | _ => true
      end && match cpu_serve r w with Ret (_, w') => fits_found rs' w' | Undef => true end
  end.

Lemma all_fit_found `{SmpEnv} rs : forall w, Forall fits_any rs -> fits_found rs w = true -> cpu_all_fit rs w.
Proof.
  induction rs as [|r rs IH]; intros w Hs Hd; [done|]. rewrite Forall_cons in Hs. destruct Hs as [Hr Hs].
  cbn [fits_found] in Hd. apply andb_true_iff in Hd as [Hd Hn]. split.
  - destruct r as [op|os st|os mem b|os mem b]; try done. split; [done|]. intros o Eo. rewrite Eo in Hd.
    apply orb_true_iff in Hd as [|Hd]; [by left|right]. by apply bool_decide_eq_true in Hd.
  - intros ret w' E. rewrite E in Hn. by apply IH.
Qed.

Lemma demo_history_fits : exists s, @init_cpus cpu_smp all_cpus = Ret s /\ @cpu_all_fit cpu_smp demo_history (mk_world s ∅).
Proof.
  destruct (@init_cpus cpu_smp all_cpus) as [s|] eqn:Es; [|by vm_compute in Es]. exists s. split; [done|].
  apply all_fit_found.
  - apply Forall_app. split.
    + apply Forall_fmap. exact demo_distinct.
    + assert (NoDup [2]) by (repeat constructor; set_solver). repeat (constructor; [done|]). constructor.
  - assert (match @init_cpus cpu_smp all_cpus with Ret s => @fits_found cpu_smp demo_history (mk_world s ∅) | Undef => false end = true) as Hf
      by (vm_compute; reflexivity).
    by rewrite Es in Hf.
Qed.

Lemma cpu_partition_witness :
  exists s rets w', @init_cpus cpu_smp all_cpus = Ret s /\ @cpu_history cpu_smp demo_history (mk_world s ∅) = Ret (rets, w') /\
    cpu_inv w' /\
    forall k o x, w_os w' !! k = Some o -> x ∈ os_cpus o ->
      NoDup (os_cpus o) /\ (x ∉ online (w_cpu w')) /\
      forall k' o', w_os w' !! k' = Some o' -> x ∈ os_cpus o' -> k' = k.
Proof.
  destruct (@cpu_partition cpu_smp cpu_smp_ok demo_history all_cpus) as (s & Es & Hw).
  destruct demo_history_fits as (s1 & Es1 & Hf). rewrite Es in Es1. injection Es1 as <-.
  destruct (Hw Hf) as (rets & w' & E & Hi & Hp). exists s, rets, w'. exact (conj Es (conj E (conj Hi Hp))).
Defined.

(** A kernel that was never loaded is destroyed with its CPU: the kernel is
    gone, the CPU stays assigned to it, and no request gives it back. *)
Theorem destroy_keeps_cpus :
  match (s ← @init_cpus cpu_smp all_cpus; @cpu_history cpu_smp
    [QIoctl (CCreate true 16); QIoctl (CReserve true (cpu_arg [1])); QIoctl (CAssign true 16 (cpu_arg [1]));
     QDestroy 16 demo_mem (mk_boot false false false 0); QIoctl (CReleaseOs true 16 (cpu_arg [1]));
     QIoctl (CRelease true (cpu_arg [1]))] (mk_world s ∅)) with
  | Ret (rets, w) => rets = [0; 0; 0; 0; - EINVAL; - EINVAL] /\ w_os w !! 16 = None /\
      (cpu_status <$> tbl (w_cpu w) 1) = Some IHK_SMP_CPU_ASSIGNED /\ (cpu_os <$> tbl (w_cpu w) 1) = Some 16
  | Undef => False
  end.
Proof. vm_compute. done. Qed.
