(* ===== verification/IhkLib.v ===== *)
(** * Requests as text (src/linux/user/ihklib.c)

    The library turns lists of CPUs and of memory chunks into text and back:
    0-3,7 for CPUs, 2G@0,512M@1 for memory, and 1,2:0+3:4 for the routing of
    messages.  The file models the parsers and the printers and shows what
    printing followed by parsing gives. *)

From Stdlib Require Import Ascii String.
From stdpp Require Import base tactics numbers list.
From S2P Require Import Prelude SmpData.

Open Scope ihk_scope.

(** ** Characters and C library functions

    A string is the list of its characters without the terminating zero. *)
Abbreviation chars := (list Z).
Definition chr (s : string) : chars := map (fun a => Z.of_N (N_of_ascii a)) (list_ascii_of_string s).

Definition COMMA : Z := 44.
Definition MINUS : Z := 45.
Definition PLUS : Z := 43.
Definition COLON : Z := 58.
Definition AT : Z := 64.

Definition isspace (c : Z) : bool := (c =? 32) || ((9 <=? c) && (c <=? 13)).
Definition isdigit (c : Z) : bool := (48 <=? c) && (c <=? 57).

Definition INT_MAX : Z := 2 ^ 31 - 1.
Definition LONG_MAX : Z := 2 ^ 63 - 1.
Definition LONG_MIN : Z := - 2 ^ 63.

Fixpoint skip_space (s : chars) : chars :=
  match s with c :: r => if isspace c then skip_space r else s | [] => [] end.

(** The value of the leading digits, and what follows them. *)
Fixpoint digits (s : chars) (acc : Z) : Z * chars :=
  match s with
  | c :: r => if isdigit c then digits r (10 * acc + (c - 48)) else (acc, s)
  | [] => (acc, [])
  end.

(** strtol in base 10: the value and endp. *)
Definition strtol (s : chars) : Z * chars :=
  let s1 := skip_space s in
  let '(neg, s2) := match s1 with
    | c :: r => if c =? MINUS then (true, r) else if c =? PLUS then (false, r) else (false, s1)
    | [] => (false, s1)
    end in
  match s2 with
  | c :: _ => if isdigit c then
                let '(v, r) := digits s2 0 in
                (Z.max LONG_MIN (Z.min LONG_MAX (if (neg : bool) then - v else v)), r)
              else (0, s)
  | [] => (0, s)
  end.

(** The tokens that strsep gives for a delimiter. *)
Fixpoint split (d : Z) (s : chars) : list chars :=
  match s with
  | [] => [[]]
  | c :: r => if c =? d then [] :: split d r else
              match split d r with t :: ts => (c :: t) :: ts | [] => [[c]] end
  end.

(** strchr: the text in front of the first delimiter and behind it. *)
Fixpoint strchr (d : Z) (s : chars) : option (chars * chars) :=
  match s with
  | [] => None
  | c :: r => if c =? d then Some ([], r) else
              match strchr d r with Some (a, b) => Some (c :: a, b) | None => None end
  end.

(** printf of a number; 20 digits hold every 64-bit number. *)
Fixpoint dec_go (fuel : nat) (n : Z) (acc : chars) : chars :=
  match fuel with
  | O => acc
  | S fuel' => if n <? 10 then (48 + n) :: acc else dec_go fuel' (n / 10) ((48 + n mod 10) :: acc)
  end.
Definition dec (n : Z) : chars := dec_go 20 n [].
Definition fmt_d (n : Z) : chars := if n <? 0 then MINUS :: dec (- n) else dec n.

(** ** Growing buffers

    Text and size of the buffer; [rok] tells whether realloc to a size
    succeeds. *)
Record sbuf : Type := mk_sbuf { sb_text : chars; sb_size : Z }.

(** The inner loop of snprintf_realloc. *)
Fixpoint grow (fuel : nat) (size offset needed : Z) : Z :=
  match fuel with
  | O => size
  | S fuel' => if size - offset <? needed then grow fuel' (size * 2) offset needed else size
  end.

(** snprintf_realloc at the end of the text; [None] is the null pointer it
    leaves behind when realloc fails. *)
Definition snprintf_realloc (rok : Z -> bool) (b : option sbuf) (txt : chars) : outcome (option sbuf) :=
  match b with
  | None => Undef
  | Some b =>
      let offset := Z.of_nat (length (sb_text b)) in
      let needed := Z.of_nat (length txt) + 1 in
      if sb_size b - offset <? needed then
        let size := grow 64 (sb_size b) offset needed in
        if rok size then Ret (Some (mk_sbuf (sb_text b ++ txt) size)) else Ret None
      else Ret (Some (mk_sbuf (sb_text b ++ txt) (sb_size b)))
  end.

(** malloc of the first 64 bytes *)
Definition new_sbuf : sbuf := mk_sbuf [] 64.

(** ** Lists of CPUs *)

(** The store of the parser: only inside [num_cpus]. *)
Definition put_rank (num_cpus : Z) (cpus : option (list Z)) (rank v : Z) : outcome (option (list Z)) :=
  match cpus with
  | Some l => if rank <? num_cpus then l ← aset l rank v; Ret (Some l) else Ret (Some l)
  | None => Ret None
  end.

(** cpu_rank++ *)
Definition next_rank (rank : Z) : outcome Z := if rank =? INT_MAX then Undef else Ret (rank + 1).

(** The loop over the CPUs of a range. *)
Fixpoint fill_range (num_cpus : Z) (l : list Z) (cpus : option (list Z)) (rank : Z) :
    outcome (option (list Z) * Z) :=
  match l with
  | [] => Ret (cpus, rank)
  | v :: r => cpus ← put_rank num_cpus cpus rank v; rank ← next_rank rank; fill_range num_cpus r cpus rank
  end.

(** The loop of cpu_str2array over the tokens. *)
Fixpoint cpu_tokens (num_cpus : Z) (toks : list chars) (cpus : option (list Z)) (rank : Z) :
    outcome (Z * option (list Z)) :=
  match toks with
  | [] => Ret (rank, cpus)
  | [] :: _ => Ret (- EINVAL, cpus)
  | token :: r =>
      match strchr MINUS token with
      | Some (_, []) => Ret (- EINVAL, cpus)
      | Some (a, b) =>
          let '(start, endp) := strtol a in
          if negb (bool_decide (endp = [])) then Ret (- EINVAL, cpus) else
          let '(en, endp) := strtol b in
          if negb (bool_decide (endp = [])) then Ret (- EINVAL, cpus) else
          let start := s32 start in let en := s32 en in
          ' (cpus, rank) ← fill_range num_cpus (seqZ start (en - start + 1)) cpus rank;
          if (en =? INT_MAX) && (start <=? en) then Undef else
          cpu_tokens num_cpus r cpus rank
      | None =>
          match cpus with
          | Some _ =>
              if rank <? num_cpus then
                let '(v, endp) := strtol token in
                cpus ← put_rank num_cpus cpus rank (s32 v);
                if negb (bool_decide (endp = [])) then Ret (- EINVAL, cpus) else
                rank ← next_rank rank; cpu_tokens num_cpus r cpus rank
              else rank ← next_rank rank; cpu_tokens num_cpus r cpus rank
          | None => rank ← next_rank rank; cpu_tokens num_cpus r cpus rank
          end
      end
  end.

(** cpu_str2array; [dup] tells whether strdup succeeds. *)
Definition cpu_str2array (dup : bool) (cpu_list : option chars) (num_cpus : Z) (cpus : option (list Z)) :
    outcome (Z * option (list Z)) :=
  match cpu_list with
  | None => Ret (0, cpus)
  | Some s => if negb dup then Ret (- ENOMEM, cpus) else cpu_tokens num_cpus (split COMMA s) cpus 0
  end.

(** cpu_str2count *)
Definition cpu_str2count (dup : bool) (cpu_list : option chars) : outcome Z :=
  ' (ret, _) ← cpu_str2array dup cpu_list 0 None; Ret ret.

(** The store loop of ikc_str2array: [n] entries of cpu_buf from index [i]
    on. *)
Fixpoint store_maps (num_maps : Z) (n : nat) (i : Z) (buf : list Z) (dst_cpu : Z)
    (maps : option (list Z * list Z)) (total_cnt : Z) : outcome (option (list Z * list Z) * Z) :=
  match n with
  | O => Ret (maps, total_cnt)
  | S n' =>
      maps ← (match maps with
        | Some (src_cpus, dst_cpus) =>
            if total_cnt <? num_maps then
              v ← aget buf i;
              src_cpus ← aset src_cpus total_cnt v;
              dst_cpus ← aset dst_cpus total_cnt dst_cpu;
              Ret (Some (src_cpus, dst_cpus))
            else Ret maps
        | None => Ret None
        end);
      total_cnt ← next_rank total_cnt;
      store_maps num_maps n' (i + 1) buf dst_cpu maps total_cnt
  end.

Definition IHK_MAX_NUM_CPUS : Z := 1024.

(** The loop of ikc_str2array over the tokens. *)
Fixpoint ikc_tokens (dup : bool) (num_maps : Z) (toks : list chars) (buf : list Z)
    (maps : option (list Z * list Z)) (total_cnt : Z) : outcome (Z * option (list Z * list Z)) :=
  match toks with
  | [] => Ret (total_cnt, maps)
  | [] :: _ => Ret (- EINVAL, maps)
  | token :: r =>
      match strchr COLON token with
      | None | Some ([], _) => Ret (- EINVAL, maps)
      | Some (cpu_list, ikc_cpu) =>
          ' (token_cnt, buf') ← cpu_str2array dup (Some cpu_list) IHK_MAX_NUM_CPUS (Some buf);
          if token_cnt <=? 0 then Ret (- EINVAL, maps) else
          match ikc_cpu with
          | [] => Ret (- EINVAL, maps)
          | _ =>
              let '(v, endp) := strtol ikc_cpu in
              if negb (bool_decide (endp = [])) then Ret (- EINVAL, maps) else
              let buf := default buf buf' in
              ' (maps, total_cnt) ← store_maps num_maps (Z.to_nat token_cnt) 0 buf (s32 v) maps total_cnt;
              ikc_tokens dup num_maps r buf maps total_cnt
          end
      end
  end.

(** ikc_str2array; [dup] and [dup'] tell whether the strdup of the list and
    those of its CPU lists succeed. *)
Definition ikc_str2array (dup dup' : bool) (ikc_list : option chars) (num_maps : Z) (maps : option (list Z * list Z)) :
    outcome (Z * option (list Z * list Z)) :=
  match ikc_list with
  | None => Ret (0, maps)
  | Some s => if negb dup then Ret (- ENOMEM, maps) else
      ikc_tokens dup' num_maps (split PLUS s) (replicate (Z.to_nat IHK_MAX_NUM_CPUS) 0) maps 0
  end.

(** The loop of cpu_array2str. *)
Fixpoint print_cpus (rok : Z -> bool) (l : list Z) (prev_cpu : Z) (in_seq : bool) (b : option sbuf) :
    outcome (option sbuf) :=
  match l with
  | [] => if 0 <=? prev_cpu then snprintf_realloc rok b (fmt_d prev_cpu) else Ret b
  | cpu :: r =>
      if negb (prev_cpu =? cpu - 1) then
        b ← (if 0 <? prev_cpu then snprintf_realloc rok b (fmt_d prev_cpu ++ [COMMA]) else Ret b);
        print_cpus rok r cpu false b
      else
        b ← (if negb in_seq then snprintf_realloc rok b (fmt_d prev_cpu ++ [MINUS]) else Ret b);
        print_cpus rok r cpu true b
  end.

(** cpu_array2str; [mok] tells whether malloc succeeds. *)
Definition cpu_array2str (mok : bool) (rok : Z -> bool) (cpus : list Z) : outcome (option sbuf) :=
  if negb mok then Ret None else print_cpus rok cpus (-10) false (Some new_sbuf).

(** ** Lists of memory chunks *)

(** The shifts behind the label of a suffix; [None]: no suffix. *)
Definition suffix_shift (c : Z) : option Z :=
  if (c =? 101) || (c =? 69) then Some 60 else
  if (c =? 112) || (c =? 80) then Some 50 else
  if (c =? 116) || (c =? 84) then Some 40 else
  if (c =? 103) || (c =? 71) then Some 30 else
  if (c =? 109) || (c =? 77) then Some 20 else
  if (c =? 107) || (c =? 75) then Some 10 else None.

(** ihk_memparse *)
Definition ihk_memparse (token : chars) : Z :=
  if bool_decide (token = chr "all" \/ token = chr "ALL") then s64 IHK_SMP_MEM_ALL else
  let '(ret, endp) := strtol token in
  match endp with
  | [] => ret
  | c :: _ => match suffix_shift c with Some k => s64 (Z.shiftl ret k) | None => - EINVAL end
  end.

(** The loop of mem_str2array over the tokens; [sizes] and [numas] are the
    arrays, [None] for a null pointer. *)
Fixpoint mem_tokens (toks : list chars) (sizes numas : option (list Z)) (mem_count : Z) :
    outcome (Z * option (list Z) * option (list Z)) :=
  match toks with
  | [] => Ret (mem_count, sizes, numas)
  | [] :: _ => Ret (- EINVAL, sizes, numas)
  | token :: r =>
      let '(token, cdr) := match strchr AT token with Some (a, b) => (a, Some b) | None => (token, None) end in
      match token, cdr with
      | [], Some _ | _, Some [] => Ret (- EINVAL, sizes, numas)
      | _, _ =>
          match sizes with
          | None => n ← next_rank mem_count; mem_tokens r sizes numas n
          | Some sz =>
              let ret := ihk_memparse token in
              if (ret <? 0) && negb (ret =? -1) then Ret (s32 ret, sizes, numas) else
              sz ← aset sz mem_count (u64 ret);
              match numas, cdr with
              | Some nm, Some c =>
                  let '(v, endp) := strtol c in
                  if negb (bool_decide (endp = [])) then Ret (- EINVAL, Some sz, numas) else
                  nm ← aset nm mem_count (s32 v);
                  n ← next_rank mem_count; mem_tokens r (Some sz) (Some nm) n
              | _, _ => n ← next_rank mem_count; mem_tokens r (Some sz) numas n
              end
          end
      end
  end.

(** mem_str2array *)
Definition mem_str2array (dup : bool) (mem_list : option chars) (sizes numas : option (list Z)) :
    outcome (Z * option (list Z) * option (list Z)) :=
  match mem_list with
  | None => Ret (0, sizes, numas)
  | Some s => if negb dup then Ret (- ENOMEM, sizes, numas) else mem_tokens (split COMMA s) sizes numas 0
  end.

(** mem_str2count *)
Definition mem_str2count (dup : bool) (mem_list : option chars) : outcome Z :=
  ' (ret, _, _) ← mem_str2array dup mem_list None None; Ret ret.

(** mem_str2req: the result, num_chunks when it is written, and the arrays. *)
Definition mem_str2req (dup : nat -> bool) (mem_list : option chars) (sizes numas : list Z) :
    outcome (Z * option Z * list Z * list Z) :=
  n ← mem_str2count (dup 0%nat) mem_list;
  if n =? 0 then Ret (0, None, sizes, numas) else
  if n <? 0 then Ret (n, None, sizes, numas) else
  ' (ret, sz, nm) ← mem_str2array (dup 1%nat) mem_list (Some sizes) (Some numas);
  Ret (if ret <? 0 then ret else 0, Some n, default sizes sz, default numas nm).

(** The loop of mem_array2str. *)
Fixpoint print_chunks (rok : Z -> bool) (l : list (Z * Z)) (b : option sbuf) : outcome (option sbuf) :=
  match l with
  | [] => Ret b
  | (size, numa) :: r =>
      b ← snprintf_realloc rok b (dec size ++ [AT] ++ fmt_d numa);
      b ← (match r with [] => Ret b | _ => snprintf_realloc rok b [COMMA] end);
      print_chunks rok r b
  end.

(** mem_array2str *)
Definition mem_array2str (mok : bool) (rok : Z -> bool) (l : list (Z * Z)) : outcome (option sbuf) :=
  if negb mok then Ret None else print_chunks rok l (Some new_sbuf).

(** ** Numbers *)

Definition no_digit (r : chars) : Prop := match r with c :: _ => isdigit c = false | [] => True end.

Lemma isdigit_code n : 0 <= n < 10 -> isdigit (48 + n) = true.
Proof. intros Hn. unfold isdigit. apply andb_true_iff. rewrite !Z.leb_le. lia. Qed.

Lemma digits_stop r a : no_digit r -> digits r a = (a, r).
Proof. destruct r as [|c r]; [done|]. simpl. by intros ->. Qed.

Lemma dec_go_digits fuel : forall n acc r,
  0 <= n < 10 ^ Z.of_nat fuel -> digits (dec_go fuel n acc ++ r) 0 = digits (acc ++ r) n.
Proof.
  induction fuel as [|fuel IH]; intros n acc r Hn; [simpl in Hn; by replace n with 0 by lia|].
  cbn [dec_go]. rewrite Nat2Z.inj_succ, Z.pow_succ_r in Hn by lia.
  destruct (Z.ltb_spec n 10) as [Hlt|Hge].
  - change ((48 + n :: acc) ++ r) with ((48 + n) :: (acc ++ r)). cbn [digits]. rewrite isdigit_code by lia. f_equal. lia.
  - pose proof (Z.mod_pos_bound n 10 ltac:(lia)). pose proof (Z.div_mod n 10 ltac:(lia)).
    rewrite IH by (split; [apply Z.div_pos; lia|apply Z.div_lt_upper_bound; lia]).
    change ((48 + n mod 10 :: acc) ++ r) with ((48 + n mod 10) :: (acc ++ r)). cbn [digits].
    rewrite isdigit_code by lia. f_equal. lia.
Qed.

Lemma dec_go_chars fuel : forall n acc,
  (0 < fuel)%nat -> 0 <= n -> Forall (fun c => isdigit c = true) acc ->
  Forall (fun c => isdigit c = true) (dec_go fuel n acc) /\ dec_go fuel n acc <> [] /\
  (length (dec_go fuel n acc) <= fuel + length acc)%nat.
Proof.
  induction fuel as [|fuel IH]; intros n acc Hf Hn Ha; [lia|]. cbn [dec_go].
  destruct (Z.ltb_spec n 10) as [Hlt|Hge].
  { split; [constructor; [by apply isdigit_code; lia|done]|]. split; [done|simpl; lia]. }
  pose proof (Z.mod_pos_bound n 10 ltac:(lia)). destruct fuel as [|fuel].
  { split; [constructor; [apply isdigit_code; lia|done]|]. split; [done|simpl; lia]. }
  destruct (IH (n / 10) ((48 + n mod 10) :: acc)) as (H1 & H2 & H3); [lia|apply Z.div_pos; lia| |].
  - constructor; [apply isdigit_code; lia|done].
  - split; [done|]. split; [done|]. cbn [length] in H3. lia.
Qed.

Lemma dec_chars n : 0 <= n ->
  Forall (fun c => isdigit c = true) (dec n) /\ dec n <> [] /\ (length (dec n) <= 20)%nat.
Proof.
  intros Hn. destruct (dec_go_chars 20 n []) as (H1 & H2 & H3); [lia|done|done|].
  split; [done|]. split; [done|]. unfold dec. cbn [length] in H3. lia.
Qed.

Lemma dec_free d n : 0 <= n -> isdigit d = false -> d ∉ dec n.
Proof.
  intros Hn Hd Hin. destruct (dec_chars n Hn) as [H1 _]. rewrite Forall_forall in H1. by rewrite H1 in Hd.
Qed.

(** A number that was printed is read back. *)
Lemma strtol_dec n r : 0 <= n <= LONG_MAX -> no_digit r -> strtol (dec n ++ r) = (n, r).
Proof.
  intros Hn Hr. destruct (dec_chars n) as (H1 & H2 & _); [lia|].
  assert (digits (dec n ++ r) 0 = (n, r)) as Hd.
  { unfold dec. rewrite dec_go_digits by (unfold LONG_MAX in Hn; simpl; lia). by apply digits_stop. }
  destruct (dec n) as [|c t] eqn:E; [done|]. rewrite Forall_cons in H1. destruct H1 as [Hc _].
  unfold strtol. simpl app in Hd |- *. cbn [skip_space].
  unfold isdigit in Hc. apply andb_true_iff in Hc as [Hc1 Hc2]. rewrite Z.leb_le in Hc1, Hc2.
  assert (isspace c = false) as ->.
  { unfold isspace. rewrite (proj2 (Z.eqb_neq _ _)), (proj2 (Z.leb_gt c 13)) by lia. by rewrite andb_false_r. }
  rewrite (proj2 (Z.eqb_neq c MINUS)), (proj2 (Z.eqb_neq c PLUS)) by (unfold MINUS, PLUS; lia).
  assert (isdigit c = true) as -> by (unfold isdigit; rewrite (proj2 (Z.leb_le _ _) Hc1); by apply Z.leb_le).
  rewrite Hd. f_equal. unfold LONG_MIN, LONG_MAX in *. lia.
Qed.

Lemma s32_id n : 0 <= n <= INT_MAX -> s32 n = n.
Proof. intros Hn. unfold s32, INT_MAX in *. rewrite Z.mod_small by lia. lia. Qed.

(** ** Tokens *)

Lemma split_one d t : d ∉ t -> split d t = [t].
Proof.
  induction t as [|c t IH]; [done|]. rewrite not_elem_of_cons. intros [Hc Ht]. simpl.
  rewrite (proj2 (Z.eqb_neq _ _)) by congruence. by rewrite IH.
Qed.

Lemma split_app d t r : d ∉ t -> split d (t ++ d :: r) = t :: split d r.
Proof.
  induction t as [|c t IH]; simpl; [by rewrite Z.eqb_refl|]. rewrite not_elem_of_cons. intros [Hc Ht].
  rewrite (proj2 (Z.eqb_neq _ _)) by congruence. by rewrite IH.
Qed.

Lemma strchr_none d t : d ∉ t -> strchr d t = None.
Proof.
  induction t as [|c t IH]; [done|]. rewrite not_elem_of_cons. intros [Hc Ht]. simpl.
  rewrite (proj2 (Z.eqb_neq _ _)) by congruence. by rewrite IH.
Qed.

Lemma strchr_app d t r : d ∉ t -> strchr d (t ++ d :: r) = Some (t, r).
Proof.
  induction t as [|c t IH]; simpl; [by rewrite Z.eqb_refl|]. rewrite not_elem_of_cons. intros [Hc Ht].
  rewrite (proj2 (Z.eqb_neq _ _)) by congruence. by rewrite IH.
Qed.

(** ** Buffers *)

Definition sb_ok (b : sbuf) : Prop := Z.of_nat (length (sb_text b)) < sb_size b /\ 64 <= sb_size b.

(** With memory the text is appended and fits with its terminating zero. *)
Lemma snprintf_ok b txt :
  sb_ok b -> (length txt < 64)%nat ->
  exists b', snprintf_realloc (fun _ => true) (Some b) txt = Ret (Some b') /\ sb_ok b' /\ sb_text b' = sb_text b ++ txt.
Proof.
  intros [Hl Hs] Ht. unfold snprintf_realloc. destruct (Z.ltb_spec (sb_size b - Z.of_nat (length (sb_text b))) (Z.of_nat (length txt) + 1)).
  - eexists. split; [reflexivity|]. split; [|done].
    change 64%nat with (S (S 62)). cbn [grow]. rewrite (proj2 (Z.ltb_lt _ _)) by lia.
    rewrite (proj2 (Z.ltb_ge _ _)) by lia. unfold sb_ok. simpl. rewrite length_app. lia.
  - eexists. split; [reflexivity|]. split; [|done]. unfold sb_ok. simpl. rewrite length_app. lia.
Qed.

Lemma fmt_nonneg n : 0 <= n -> fmt_d n = dec n.
Proof. intros Hn. unfold fmt_d. by rewrite (proj2 (Z.ltb_ge _ _)) by lia. Qed.

(** ** Round trip of CPU lists *)

Lemma patch_app {A} (a b : list A) : forall n l, (n + length a <= length l)%nat ->
  patch n (a ++ b) l = patch (n + length a) b (patch n a l) /\ length (patch n a l) = length l.
Proof.
  induction a as [|x a IH]; intros n l Hn; simpl in Hn; simpl app; simpl length.
  { by rewrite patch_nil, Nat.add_0_r. }
  rewrite <- !patch_cons by lia. destruct (IH (S n) (<[n := x]> l)) as [-> ->]; [rewrite length_insert; lia|].
  rewrite length_insert. by replace (n + S (length a))%nat with (S n + length a)%nat by lia.
Qed.

Section parse.
  Context (num : Z).

(** There is room for [n] more entries. *)
Definition fits (cpus : option (list Z)) (rank : Z) (n : nat) : Prop :=
  0 <= rank /\ rank + Z.of_nat n <= INT_MAX /\
  match cpus with Some buf => Z.of_nat (length buf) = num /\ rank + Z.of_nat n <= num | None => True end.

Definition patched (rank : Z) (l : list Z) (cpus : option (list Z)) : option (list Z) :=
  patch (Z.to_nat rank) l <$> cpus.

Lemma patched_app rank a b cpus :
  fits cpus rank (length (a ++ b)) ->
  patched rank (a ++ b) cpus = patched (rank + Z.of_nat (length a)) b (patched rank a cpus) /\
  fits (patched rank a cpus) (rank + Z.of_nat (length a)) (length b).
Proof.
  intros (H0 & H1 & H2). rewrite length_app in *. destruct cpus as [buf|]; [|by repeat split; lia].
  destruct H2 as [Hb Hn]. destruct (patch_app a b (Z.to_nat rank) buf) as [E El]; [lia|].
  unfold patched, fits. simpl. rewrite E, El. replace (Z.to_nat (rank + Z.of_nat (length a))) with (Z.to_nat rank + length a)%nat by lia.
  repeat split; lia.
Qed.

Lemma put_rank_ok cpus rank v n :
  fits cpus rank (S n) -> put_rank num cpus rank v = Ret (patched rank [v] cpus) /\ next_rank rank = Ret (rank + 1).
Proof.
  intros (H0 & H1 & H2). unfold next_rank. rewrite (proj2 (Z.eqb_neq _ _)) by lia. split; [|done].
  destruct cpus as [buf|]; [|done]. unfold put_rank. destruct H2 as [Hb Hn]. rewrite (proj2 (Z.ltb_lt _ _)) by lia.
  rewrite aset_in by lia. cbn [mbind outcome_bind]. unfold patched. simpl. by rewrite <- patch_cons, patch_nil by lia.
Qed.

Lemma fill_range_ok l : forall cpus rank,
  fits cpus rank (length l) -> fill_range num l cpus rank = Ret (patched rank l cpus, rank + Z.of_nat (length l)).
Proof.
  induction l as [|v l IH]; intros cpus rank Hf; simpl.
  { rewrite Z.add_0_r. destruct cpus as [buf|]; [|done]. unfold patched. simpl. by rewrite patch_nil. }
  destruct (put_rank_ok cpus rank v (length l) Hf) as [-> ->]. cbn [mbind outcome_bind].
  destruct (patched_app rank [v] l cpus Hf) as [E Hf']. simpl app in E. rewrite E. simpl length in *.
  rewrite IH by done. f_equal. f_equal; lia.
Qed.

Lemma token_range s e r cpus rank :
  0 <= s <= e -> e < INT_MAX -> fits cpus rank (length (seqZ s (e - s + 1))) ->
  cpu_tokens num ((dec s ++ MINUS :: dec e) :: r) cpus rank =
  cpu_tokens num r (patched rank (seqZ s (e - s + 1)) cpus) (rank + (e - s + 1)).
Proof.
  intros Hs He Hf. destruct (dec_chars s) as (_ & Hs1 & _); [lia|]. destruct (dec_chars e) as (_ & He1 & _); [lia|].
  assert (INT_MAX < LONG_MAX) by done.
  assert (strtol (dec s) = (s, [])) as Es by (rewrite <- (app_nil_r (dec s)); apply strtol_dec; [lia|done]).
  assert (strtol (dec e) = (e, [])) as Ee by (rewrite <- (app_nil_r (dec e)); apply strtol_dec; [lia|done]).
  assert (MINUS ∉ dec s) as Hm by (apply dec_free; [lia|done]).
  cbn [cpu_tokens]. destruct (dec s ++ MINUS :: dec e) eqn:E; [by destruct (dec s)|]. rewrite <- E, strchr_app by done.
  destruct (dec e) eqn:E2; [done|]. rewrite Es, Ee. cbv zeta beta iota. cbn [negb bool_decide].
  rewrite !bool_decide_eq_true_2 by done. cbn [negb]. rewrite !s32_id by lia.
  rewrite fill_range_ok by done. cbn [mbind outcome_bind]. rewrite (proj2 (Z.eqb_neq e INT_MAX)) by lia. cbn [andb].
  f_equal. rewrite length_seqZ. lia.
Qed.

Lemma token_one n r cpus rank :
  0 <= n < INT_MAX -> fits cpus rank 1 ->
  cpu_tokens num (dec n :: r) cpus rank = cpu_tokens num r (patched rank [n] cpus) (rank + 1).
Proof.
  intros Hn Hf. destruct (dec_chars n) as (_ & Hn1 & _); [lia|]. assert (INT_MAX < LONG_MAX) by done.
  assert (strtol (dec n) = (n, [])) as En by (rewrite <- (app_nil_r (dec n)); apply strtol_dec; [lia|done]).
  assert (MINUS ∉ dec n) as Hm by (apply dec_free; [lia|done]).
  destruct (put_rank_ok cpus rank n 0 Hf) as [Ep Ex].
  cbn [cpu_tokens]. destruct (dec n) eqn:E; [done|]. rewrite <- E in *. rewrite strchr_none by done.
  destruct cpus as [buf|]; [|by rewrite Ex]. destruct Hf as (_ & _ & _ & Hf). rewrite (proj2 (Z.ltb_lt _ _)) by lia.
  rewrite En, s32_id by lia. rewrite Ep. cbn [mbind outcome_bind]. rewrite bool_decide_eq_true_2 by done. cbn [negb].
  by rewrite Ex.
Qed.

(** The text of cpu_array2str behind the CPU [prev]. *)
Fixpoint cpu_text (l : list Z) (prev : Z) (in_seq : bool) : chars :=
  match l with
  | [] => dec prev
  | x :: r => if prev =? x - 1 then (if in_seq then [] else dec prev ++ [MINUS]) ++ cpu_text r x true
              else (if 0 <? prev then dec prev ++ [COMMA] else []) ++ cpu_text r x false
  end.

(** The CPUs that survive: CPU 0 is lost when another one than 1 follows. *)
Fixpoint kept (prev : Z) (l : list Z) : list Z :=
  match l with
  | [] => [prev]
  | x :: r => if (prev =? 0) && negb (x =? 1) then kept x r else prev :: kept x r
  end.

Lemma seqZ_snoc s e : s <= e -> seqZ s (e - s + 1) = seqZ s (e - s) ++ [e].
Proof.
  intros Hs. replace (e - s + 1) with ((e - s) + 1) by lia. rewrite seqZ_app by lia. f_equal.
  rewrite seqZ_cons by lia. f_equal; lia.
Qed.

Lemma seqZ_cons_run s e (k : list Z) : s <= e -> seqZ s (e - s) ++ e :: k = seqZ s (e - s + 1) ++ k.
Proof. intros Hs. by rewrite seqZ_snoc, <- app_assoc by done. Qed.

(** What is printed of the current run before its last CPU. *)
Definition run_text (s : Z) (in_seq : bool) : chars := if in_seq then dec s ++ [MINUS] else [].

(** The token of a run is complete. *)
Lemma run_done s prev (in_seq : bool) r cpus rank :
  0 <= s <= prev -> prev < INT_MAX -> (in_seq = false -> s = prev) ->
  fits cpus rank (length (seqZ s (prev - s + 1))) ->
  (COMMA ∉ run_text s in_seq ++ dec prev) /\
  cpu_tokens num ((run_text s in_seq ++ dec prev) :: r) cpus rank =
  cpu_tokens num r (patched rank (seqZ s (prev - s + 1)) cpus) (rank + (prev - s + 1)).
Proof.
  intros Hs Hp Hi Hf. assert (forall n, 0 <= n -> COMMA ∉ dec n) as Hc by (intros; by apply dec_free). destruct in_seq.
  - unfold run_text. rewrite <- app_assoc. split; [|by apply token_range].
    simpl. rewrite not_elem_of_app, not_elem_of_cons. split; [apply Hc; lia|]. split; [done|apply Hc; lia].
  - rewrite (Hi eq_refl) in *. rewrite Z.sub_diag in *. split; [apply Hc; lia|].
    assert (seqZ prev (0 + 1) = [prev]) as E1 by (change (0 + 1) with (Z.succ 0); rewrite seqZ_cons by lia; done).
    rewrite E1 in *. apply token_one; [lia|done].
Qed.

Lemma parse_text l : forall s prev in_seq cpus rank,
  0 <= s <= prev -> (in_seq = false -> s = prev) -> (in_seq = true -> 0 < prev) ->
  Forall (fun x => 0 <= x < INT_MAX) (prev :: l) ->
  let out := seqZ s (prev - s) ++ kept prev l in
  fits cpus rank (length out) ->
  cpu_tokens num (split COMMA (run_text s in_seq ++ cpu_text l prev in_seq)) cpus rank =
    Ret (rank + Z.of_nat (length out), patched rank out cpus).
Proof.
  induction l as [|x l IH]; intros s prev in_seq cpus rank Hs Hi Hi' Hl out Hf;
    rewrite Forall_cons in Hl; destruct Hl as [Hp Hl]; subst out; cbn [kept cpu_text] in *.
  { rewrite <- seqZ_snoc in Hf |- * by lia. destruct (run_done s prev in_seq [] cpus rank) as [Hc E]; auto; [lia|].
    rewrite split_one, E by done. simpl. f_equal. f_equal. rewrite length_seqZ. lia. }
  pose proof Hl as Hl'. rewrite Forall_cons in Hl'. destruct Hl' as [Hx _].
  destruct (Z.eqb_spec prev (x - 1)) as [Hseq|Hseq].
  - assert (((prev =? 0) && negb (x =? 1)) = false) as E0.
    { destruct (Z.eqb_spec prev 0), (Z.eqb_spec x 1); try done; lia. }
    rewrite E0, seqZ_cons_run in Hf |- * by lia. replace (prev - s + 1) with (x - s) in Hf |- * by lia.
    replace (run_text s in_seq ++ (if in_seq then [] else dec prev ++ [MINUS]) ++ cpu_text l x true)
      with (run_text s true ++ cpu_text l x true).
    2:{ destruct in_seq; [done|]. by rewrite (Hi eq_refl). }
    apply IH; try done; lia.
  - destruct (Z.ltb_spec 0 prev) as [Hpos|Hzero].
    + rewrite (proj2 (Z.eqb_neq prev 0)) in Hf |- * by lia. cbn [andb] in Hf |- *.
      rewrite seqZ_cons_run in Hf |- * by lia.
      destruct (patched_app rank _ _ _ Hf) as [Ep Hf']. rewrite Ep.
      replace (run_text s in_seq ++ (dec prev ++ [COMMA]) ++ cpu_text l x false)
        with ((run_text s in_seq ++ dec prev) ++ COMMA :: cpu_text l x false) by (by rewrite <- !app_assoc).
      destruct (run_done s prev in_seq (split COMMA (cpu_text l x false)) cpus rank) as [Hc E]; auto; [lia| |].
      { destruct Hf as (? & ? & ?). rewrite length_app in *. unfold fits. destruct cpus; repeat split; lia. }
      rewrite split_app, E by done. rewrite length_seqZ in *. replace (Z.of_nat (Z.to_nat (prev - s + 1))) with (prev - s + 1) in * by lia.
      specialize (IH x x false (patched rank (seqZ s (prev - s + 1)) cpus) (rank + (prev - s + 1))).
      rewrite Z.sub_diag in IH. simpl in IH. unfold run_text in IH. simpl in IH. rewrite IH; try done; try lia.
      f_equal. f_equal. rewrite length_app, length_seqZ. lia.
    + assert (prev = 0) as -> by lia. assert (in_seq = false) as -> by (destruct in_seq; [specialize (Hi' eq_refl); lia|done]).
      rewrite (Hi eq_refl) in *. rewrite (proj2 (Z.eqb_neq x 1)) in * by lia. cbn [andb negb] in *.
      change (0 =? 0) with true in *. cbn [andb] in *. rewrite Z.sub_diag in *. simpl app in *.
      specialize (IH x x false cpus rank). rewrite Z.sub_diag in IH. simpl in IH. apply IH; try done; lia.
Qed.
End parse.

(** The printer gives this text. *)
Lemma print_cpus_ok l : forall prev in_seq b,
  sb_ok b -> 0 <= prev -> Forall (fun x => 0 <= x < INT_MAX) l ->
  exists b', print_cpus (fun _ => true) l prev in_seq (Some b) = Ret (Some b') /\ sb_ok b' /\
    sb_text b' = sb_text b ++ cpu_text l prev in_seq.
Proof.
  induction l as [|x l IH]; intros prev in_seq b Hb Hp Hl; cbn [print_cpus cpu_text];
    destruct (dec_chars prev Hp) as (_ & _ & Hlen); rewrite fmt_nonneg by done.
  { rewrite (proj2 (Z.leb_le _ _)) by lia. apply snprintf_ok; [done|lia]. }
  rewrite Forall_cons in Hl. destruct Hl as [Hx Hl].
  destruct (prev =? x - 1); cbn [negb].
  - destruct in_seq; cbn [negb mbind outcome_bind app]; [apply IH; [done|lia|done]|].
    destruct (snprintf_ok b (dec prev ++ [MINUS]) Hb) as (b1 & -> & Hb1 & E1); [rewrite length_app; simpl; lia|].
    cbn [mbind outcome_bind]. destruct (IH x true b1 Hb1) as (b2 & -> & Hb2 & E2); [lia|done|].
    exists b2. split; [done|]. split; [done|]. by rewrite E2, E1, <- !app_assoc.
  - destruct (0 <? prev); cbn [mbind outcome_bind app]; [|apply IH; [done|lia|done]].
    destruct (snprintf_ok b (dec prev ++ [COMMA]) Hb) as (b1 & -> & Hb1 & E1); [rewrite length_app; simpl; lia|].
    cbn [mbind outcome_bind]. destruct (IH x false b1 Hb1) as (b2 & -> & Hb2 & E2); [lia|done|].
    exists b2. split; [done|]. split; [done|]. by rewrite E2, E1, <- !app_assoc.
Qed.

(** C39 A list of CPUs that cpu_array2str prints and
    cpu_str2array reads, with a buffer that has room for it, gives the same
    CPUs in the same order, except that CPU 0 is lost wherever a CPU other
    than 1 follows it; cpu_str2count gives their number, and the text fits in
    the buffer that was grown for it. *)
Theorem cpu_list_roundtrip x l buf :
  Forall (fun c => 0 <= c < INT_MAX) (x :: l) ->
  length buf = length (kept x l) -> Z.of_nat (length buf) <= INT_MAX ->
  exists b, cpu_array2str true (fun _ => true) (x :: l) = Ret (Some b) /\
    Z.of_nat (length (sb_text b)) < sb_size b /\
    cpu_str2array true (Some (sb_text b)) (Z.of_nat (length buf)) (Some buf) =
      Ret (Z.of_nat (length (kept x l)), Some (kept x l)) /\
    cpu_str2count true (Some (sb_text b)) = Ret (Z.of_nat (length (kept x l))).
Proof.
  intros Hl Hb Hi. pose proof Hl as Hl'. rewrite Forall_cons in Hl'. destruct Hl' as [Hx Hl'].
  unfold cpu_array2str. cbn [negb print_cpus]. rewrite (proj2 (Z.eqb_neq (-10) (x - 1))) by lia.
  cbn [negb mbind outcome_bind]. change (0 <? -10) with false. cbn [mbind outcome_bind].
  destruct (print_cpus_ok l x false new_sbuf) as (b & -> & [Hs _] & Et); [done|lia|done|].
  exists b. split; [done|]. split; [done|]. simpl in Et. rewrite Et.
  assert (seqZ x (x - x) ++ kept x l = kept x l) as Ek by (by rewrite Z.sub_diag).
  assert (forall num cpus, fits num cpus 0 (length (kept x l)) ->
    cpu_tokens num (split COMMA (cpu_text l x false)) cpus 0 = Ret (Z.of_nat (length (kept x l)), patched 0 (kept x l) cpus)) as Hp.
  { intros num cpus Hf. pose proof (parse_text num l x x false cpus 0) as Hpt. cbv zeta in Hpt. rewrite Ek in Hpt.
    apply Hpt; try done; lia. }
  unfold cpu_str2count, cpu_str2array. cbn [negb]. rewrite !Hp by (unfold fits; simpl; lia). cbn [mbind outcome_bind].
  split; [|done]. f_equal. f_equal. unfold patched. simpl. f_equal. unfold patch. simpl. rewrite <- Hb, drop_all. apply app_nil_r.
Qed.

(** ** Round trip of memory lists *)

Definition chunk_text (c : Z * Z) : chars := dec c.1 ++ AT :: dec c.2.

Fixpoint mem_text (l : list (Z * Z)) : chars :=
  match l with
  | [] => []
  | [c] => chunk_text c
  | c :: r => chunk_text c ++ COMMA :: mem_text r
  end.

Definition chunk_ok (c : Z * Z) : Prop := 0 <= c.1 <= LONG_MAX /\ 0 <= c.2 <= INT_MAX.

Lemma memparse_dec n : 0 <= n <= LONG_MAX -> ihk_memparse (dec n) = n.
Proof.
  intros Hn. unfold ihk_memparse. destruct (dec_chars n) as (Hd & _ & _); [lia|].
  rewrite bool_decide_eq_false_2; [|by intros [E|E]; rewrite E in Hd; inversion Hd].
  rewrite <- (app_nil_r (dec n)), strtol_dec by (lia || done). done.
Qed.

Lemma chunk_comma c : chunk_ok c -> COMMA ∉ chunk_text c.
Proof.
  intros [H1 H2]. unfold chunk_text. rewrite not_elem_of_app, not_elem_of_cons.
  split; [apply dec_free; [lia|done]|]. split; [done|]. apply dec_free; [lia|done].
Qed.

(** One token: counted without arrays, stored with them. *)
Lemma mem_token c r cnt :
  chunk_ok c -> 0 <= cnt < INT_MAX ->
  mem_tokens (chunk_text c :: r) None None cnt = mem_tokens r None None (cnt + 1) /\
  forall sz nm, (Z.to_nat cnt < length sz)%nat -> length nm = length sz ->
  mem_tokens (chunk_text c :: r) (Some sz) (Some nm) cnt =
    mem_tokens r (Some (<[Z.to_nat cnt := c.1]> sz)) (Some (<[Z.to_nat cnt := c.2]> nm)) (cnt + 1).
Proof.
  intros [H1 H2] Hc. destruct (dec_chars c.1) as (_ & Hn1 & _); [lia|]. destruct (dec_chars c.2) as (_ & Hn2 & _); [lia|].
  assert (next_rank cnt = Ret (cnt + 1)) as En by (unfold next_rank; by rewrite (proj2 (Z.eqb_neq _ _)) by lia).
  assert (INT_MAX < LONG_MAX) by done.
  assert (strtol (dec c.2) = (c.2, [])) as Es by (rewrite <- (app_nil_r (dec c.2)); apply strtol_dec; [lia|done]).
  assert (strchr AT (chunk_text c) = Some (dec c.1, dec c.2)) as Ecut by (apply strchr_app, dec_free; [lia|done]).
  assert (chunk_text c <> []) as Hne by (unfold chunk_text; by destruct (dec c.1)).
  assert (u64 c.1 = c.1) as Eu by (apply u64_small; unfold LONG_MAX in *; lia).
  cbn [mem_tokens]. destruct (chunk_text c) as [|d t]; [done|]. rewrite Ecut. cbv beta iota zeta.
  pose proof (memparse_dec c.1 H1) as Em. destruct (dec c.1) as [|d1 t1] eqn:E1; [done|].
  destruct (dec c.2) as [|d2 t2] eqn:E2; [done|]. split; [by rewrite En|]. intros sz nm Hsz Hnm.
  rewrite Em, (proj2 (Z.ltb_ge _ _)) by lia. cbn [andb]. rewrite aset_in by lia. cbn [mbind outcome_bind].
  rewrite Es, bool_decide_eq_true_2 by done. cbn [negb]. rewrite aset_in by lia. cbn [mbind outcome_bind].
  rewrite En, Eu, s32_id by lia. done.
Qed.

Lemma mem_text_split c l : Forall chunk_ok (c :: l) -> split COMMA (mem_text (c :: l)) = map chunk_text (c :: l).
Proof.
  revert c. induction l as [|d l IH]; intros c Hl; rewrite Forall_cons in Hl; destruct Hl as [Hc Hl].
  - by apply split_one, chunk_comma.
  - change (mem_text (c :: d :: l)) with (chunk_text c ++ COMMA :: mem_text (d :: l)).
    rewrite split_app by (by apply chunk_comma). by rewrite IH.
Qed.

Lemma mem_tokens_ok l : forall cnt,
  Forall chunk_ok l -> 0 <= cnt -> cnt + Z.of_nat (length l) <= INT_MAX ->
  mem_tokens (map chunk_text l) None None cnt = Ret (cnt + Z.of_nat (length l), None, None) /\
  forall sz nm, (Z.to_nat cnt + length l <= length sz)%nat -> length nm = length sz ->
  mem_tokens (map chunk_text l) (Some sz) (Some nm) cnt =
    Ret (cnt + Z.of_nat (length l), Some (patch (Z.to_nat cnt) (map fst l) sz), Some (patch (Z.to_nat cnt) (map snd l) nm)).
Proof.
  induction l as [|c l IH]; intros cnt Hl H0 Hc; cbn [map length] in *.
  { simpl. rewrite Z.add_0_r. split; [done|]. intros sz nm _ _. by rewrite !patch_nil. }
  rewrite Forall_cons in Hl. destruct Hl as [Hok Hl].
  destruct (mem_token c (map chunk_text l) cnt Hok) as [E1 E2]; [lia|].
  destruct (IH (cnt + 1) Hl) as [J1 J2]; [lia|lia|]. rewrite E1, J1.
  replace (cnt + 1 + Z.of_nat (length l)) with (cnt + Z.of_nat (S (length l))) in * by lia. split; [done|].
  intros sz nm Hsz Hnm. rewrite E2 by lia. rewrite J2 by (rewrite ?length_insert; lia).
  replace (Z.to_nat (cnt + 1)) with (S (Z.to_nat cnt)) by lia. by rewrite !patch_cons by lia.
Qed.

Lemma print_chunks_ok l : forall b,
  sb_ok b -> Forall chunk_ok l ->
  exists b', print_chunks (fun _ => true) l (Some b) = Ret (Some b') /\ sb_ok b' /\ sb_text b' = sb_text b ++ mem_text l.
Proof.
  induction l as [|c l IH]; intros b Hb Hl; [by exists b; rewrite app_nil_r|].
  rewrite Forall_cons in Hl. destruct Hl as [[H1 H2] Hl]. destruct c as [size numa]. cbn [print_chunks fst snd] in *.
  rewrite fmt_nonneg by lia. change ([AT] ++ dec numa) with (AT :: dec numa).
  change (dec size ++ AT :: dec numa) with (chunk_text (size, numa)).
  destruct (snprintf_ok b (chunk_text (size, numa)) Hb) as (b1 & -> & Hb1 & E1).
  { unfold chunk_text. rewrite length_app. cbn [length fst snd].
    destruct (dec_chars size) as (_ & _ & ?), (dec_chars numa) as (_ & _ & ?); lia. }
  cbn [mbind outcome_bind]. destruct l as [|d l].
  { cbn [mbind outcome_bind print_chunks]. by exists b1. }
  destruct (snprintf_ok b1 [COMMA] Hb1) as (b2 & -> & Hb2 & E2); [simpl; lia|]. cbn [mbind outcome_bind].
  destruct (IH b2 Hb2 Hl) as (b3 & -> & Hb3 & E3). exists b3. split; [done|]. split; [done|].
  rewrite E3, E2, E1, <- !app_assoc. done.
Qed.

(** A list of memory chunks that mem_array2str prints
    and mem_str2req reads gives the same sizes and NUMA nodes, for every size
    up to LONG_MAX, and the number of chunks. *)
Theorem mem_list_roundtrip c l sizes numas :
  Forall chunk_ok (c :: l) -> Z.of_nat (length (c :: l)) <= INT_MAX ->
  length sizes = length (c :: l) -> length numas = length (c :: l) ->
  exists b, mem_array2str true (fun _ => true) (c :: l) = Ret (Some b) /\
    Z.of_nat (length (sb_text b)) < sb_size b /\
    mem_str2req (fun _ => true) (Some (sb_text b)) sizes numas =
      Ret (0, Some (Z.of_nat (length (c :: l))), map fst (c :: l), map snd (c :: l)).
Proof.
  intros Hok Hlen Hs Hn. destruct (print_chunks_ok (c :: l) new_sbuf) as (b & E & [Hb _] & Et); [done|done|].
  exists b. split; [exact E|]. split; [done|]. change (sb_text new_sbuf) with (@nil Z) in Et. rewrite Et, app_nil_l.
  destruct (mem_tokens_ok (c :: l) 0 Hok) as [E1 E2]; [lia|lia|].
  unfold mem_str2req, mem_str2count, mem_str2array. cbn [negb]. rewrite mem_text_split, E1 by done.
  cbn [mbind outcome_bind]. rewrite Z.add_0_l. rewrite (proj2 (Z.eqb_neq _ _)), (proj2 (Z.ltb_ge _ _)) by (simpl; lia).
  rewrite E2 by (change (Z.to_nat 0) with O; lia). cbn [mbind outcome_bind]. rewrite Z.add_0_l, (proj2 (Z.ltb_ge _ _)) by lia.
  unfold patch. change (Z.to_nat 0) with O. cbn [take default]. rewrite !app_nil_l, !Nat.add_0_l, !length_map.
  rewrite <- Hs at 2. rewrite drop_all. rewrite <- Hn at 2. rewrite drop_all. by rewrite !app_nil_r.
Qed.

(** ** Inputs that go wrong *)

(** "all", printed as a number, is read back as LONG_MAX. *)
Theorem mem_all_not_kept :
  match mem_array2str true (fun _ => true) [(IHK_SMP_MEM_ALL, 0)] with
  | Ret (Some b) => mem_str2req (fun _ => true) (Some (sb_text b)) [0] [0] = Ret (0, Some 1, [LONG_MAX], [0])
  | _ => False
  end.
Proof. vm_compute. done. Qed.

(** A negative size can be taken for an empty list: the long is returned as
    an int. *)
Theorem mem_negative_accepted :
  mem_str2array true (Some (chr "-4G@0")) (Some [0]) (Some [0]) = Ret (0, Some [0], Some [0]).
Proof. vm_compute. done. Qed.

(** A range without a start is read as one from 0. *)
Theorem cpu_range_without_start :
  cpu_str2array true (Some (chr "-3")) 4 (Some [9; 9; 9; 9]) = Ret (4, Some [0; 1; 2; 3]).
Proof. vm_compute. done. Qed.

(** The list 0-1024:7 of a routing names 1025 CPUs;
    when the caller has room for them ikc_str2array reads behind the end of
    its own buffer, while 0-1023:7 is read as it should be. *)
Theorem ikc_str2array_overrun :
  ikc_str2array true true (Some (chr "0-1024:7")) 1025 (Some (replicate 1025 0, replicate 1025 0)) = Undef /\
  ikc_str2array true true (Some (chr "0-1023:7")) 1025 (Some (replicate 1025 0, replicate 1025 0)) =
    Ret (1024, Some (seqZ 0 1024 ++ [0], replicate 1024 7 ++ [0])).
Proof. split; vm_compute; reflexivity. Qed.

(** ** Witnesses *)

Lemma cpu_list_roundtrip_witness :
  exists b, cpu_array2str true (fun _ => true) [0; 2; 3; 4; 9] = Ret (Some b) /\
    Z.of_nat (length (sb_text b)) < sb_size b /\
    cpu_str2array true (Some (sb_text b)) 4 (Some [0; 0; 0; 0]) = Ret (4, Some [2; 3; 4; 9]) /\
    cpu_str2count true (Some (sb_text b)) = Ret 4.
Proof.
  exact (cpu_list_roundtrip 0 [2; 3; 4; 9] [0; 0; 0; 0]
    ltac:(repeat constructor; unfold INT_MAX; lia) eq_refl ltac:(unfold INT_MAX; simpl; lia)).
Defined.

Lemma mem_list_roundtrip_witness :
  exists b, mem_array2str true (fun _ => true) [(2 ^ 31, 0); (512, 1)] = Ret (Some b) /\
    Z.of_nat (length (sb_text b)) < sb_size b /\
    mem_str2req (fun _ => true) (Some (sb_text b)) [0; 0] [0; 0] = Ret (0, Some 2, [2 ^ 31; 512], [0; 1]).
Proof.
  exact (mem_list_roundtrip (2 ^ 31, 0) [(512, 1)] [0; 0] [0; 0]
    ltac:(repeat constructor; unfold LONG_MAX, INT_MAX; simpl; lia) ltac:(unfold INT_MAX; simpl; lia) eq_refl eq_refl).
Defined.
