(* ===== verification/Kmsg.v ===== *)
(** * Kernel messages (src/linux/core/host_driver.c)

    A kernel writes its messages to a ring in memory that the host allocates
    with the OS instance (struct ihk_kmsg_buf, src/linux/include/ihk/ihk_debug.h).
    The host keeps the rings in a list of counted containers, which live
    longer than the instances: an instance refers to its container from boot
    to shutdown, and the monitor daemon holds handles. *)

From stdpp Require Import base tactics numbers list gmap.
From S2P Require Import Prelude.

Open Scope ihk_scope.

(** ** Data *)

Definition IHK_KMSG_SIZE : Z := 4 * 2 ^ 20 - 4096.
Definition IHK_MAX_NUM_KMSG_BUFS : Z := 4.

(** struct ihk_kmsg_buf; [kb_str] is the array str, by index. *)
Record ihk_kmsg_buf : Type := mk_kmsg {
  kb_lock : Z;
  kb_tail : Z;
  kb_len : Z;
  kb_head : Z;
  kb_str : Z -> Z;
}.
Definition sizeof_kmsg_buf : Z := 4096 + IHK_KMSG_SIZE.

(** struct ihk_kmsg_buf_container; the list is [pool]'s. *)
Record ihk_kmsg_buf_container : Type := mk_cont {
  ct_os_index : Z;
  ct_count : Z;
  ct_kmsg_buf : option ihk_kmsg_buf;
  ct_order : Z;
}.

(** ihk_kmsg_bufs, and the containers that kmalloc has given and kfree not
    taken back, by address. *)
Record pool : Type := mk_pool {
  kmsg_bufs : list Z;
  conts : gmap Z ihk_kmsg_buf_container;
}.

Definition kb_set_lock (b : ihk_kmsg_buf) v := mk_kmsg v (kb_tail b) (kb_len b) (kb_head b) (kb_str b).
Definition kb_set_head (b : ihk_kmsg_buf) v := mk_kmsg (kb_lock b) (kb_tail b) (kb_len b) v (kb_str b).
Definition ct_set_count (c : ihk_kmsg_buf_container) v := mk_cont (ct_os_index c) v (ct_kmsg_buf c) (ct_order c).
Definition ct_set_buf (c : ihk_kmsg_buf_container) v := mk_cont (ct_os_index c) (ct_count c) v (ct_order c).

(** ** The ring *)

(** The spin on the lock that both kernels use; it ends only if the lock is
    free or the other kernel frees it. *)
Definition lock_kmsg (b : ihk_kmsg_buf) : outcome ihk_kmsg_buf :=
  if kb_lock b =? 0 then Ret (kb_set_lock b 1) else Undef.
Definition unlock_kmsg (b : ihk_kmsg_buf) : ihk_kmsg_buf := kb_set_lock b 0.

(** Bytes [i] .. [i+n-1] of the array str. *)
Fixpoint bytes (s : Z -> Z) (i : Z) (n : nat) : list Z :=
  match n with O => [] | S n' => s i :: bytes s (i + 1) n' end.
Definition kmsg_bytes (b : ihk_kmsg_buf) (i n : Z) : outcome (list Z) :=
  if (0 <=? i) && (0 <=? n) && (i + n <=? IHK_KMSG_SIZE) then Ret (bytes (kb_str b) i (Z.to_nat n)) else Undef.

(** strnlen over str from index [i]: it stops at a zero, at the limit, or runs
    off the array. *)
Fixpoint scan (s : Z -> Z) (i : Z) (n : nat) : nat :=
  match n with O => O | S n' => if s i =? 0 then O else S (scan s (i + 1) n') end.
Definition strnlen (b : ihk_kmsg_buf) (i limit : Z) : outcome Z :=
  let room := IHK_KMSG_SIZE - i in
  if (i <? 0) || (room <? 0) then Undef else
  let n := Z.of_nat (scan (kb_str b) i (Z.to_nat (Z.min limit room))) in
  if (n =? room) && (room <? limit) then Undef else Ret n.

(** read_kmsg: the result, the bytes copied to [buf] (IHK_KMSG_SIZE bytes) and
    the ring. *)
Definition read_kmsg (kmsg_buf : option ihk_kmsg_buf) (shift : Z) : outcome (Z * list Z * option ihk_kmsg_buf) :=
  match kmsg_buf with
  | None => Ret (- EINVAL, [], None)
  | Some b =>
      b ← lock_kmsg b;
      ' (len_bottom, len_top) ←
        (if kb_tail b <? kb_head b then
           n ← strnlen b (kb_head b) (u64 (kb_len b - kb_head b)); Ret (n, kb_tail b)
         else Ret (kb_tail b - kb_head b, 0));
      bottom ← (if 0 <? len_bottom then kmsg_bytes b (kb_head b) len_bottom else Ret []);
      top ← (if 0 <? len_top then kmsg_bytes b 0 len_top else Ret []);
      if IHK_KMSG_SIZE <? Z.of_nat (length (bottom ++ top)) then Undef else
      let b := if shift =? 0 then b else kb_set_head b (kb_tail b) in
      Ret (len_bottom + len_top, bottom ++ top, Some (unlock_kmsg b))
  end.

(** The critical section of __ihk_os_clear_kmsg. *)
Definition clear_kmsg (b : ihk_kmsg_buf) : outcome ihk_kmsg_buf :=
  b ← lock_kmsg b;
  if (kb_len b <? 0) || (IHK_KMSG_SIZE <? kb_len b) then Undef else
  let str i := if (0 <=? i) && (i <? kb_len b) then 0 else kb_str b i in
  Ret (unlock_kmsg (mk_kmsg (kb_lock b) 0 (kb_len b) 0 str)).

(** The ring as __ihk_device_create_os sets it up. *)
Definition init_kmsg : ihk_kmsg_buf := mk_kmsg 0 0 IHK_KMSG_SIZE 0 (fun _ => 0).

(** The loop that finds the order of the pages of a ring; [fuel] rounds. *)
Fixpoint kmsg_order (fuel : nat) (size order : Z) : outcome Z :=
  match fuel with
  | O => Undef
  | S fuel =>
      p ← shl_ulong PAGE_SIZE order;
      if p <? size then kmsg_order fuel size (order + 1) else Ret order
  end.
Definition kmsg_buf_size : Z := Z.land (sizeof_kmsg_buf + PAGE_SIZE - 1) (Z.lnot (PAGE_SIZE - 1)).

(** ** The list of containers *)

Definition get_cont (p : Z) : io pool ihk_kmsg_buf_container := s <- io_gets id ;; io_some (conts s !! p).
Definition put_cont (p : Z) (c : ihk_kmsg_buf_container) : io pool unit :=
  io_modify (fun s => mk_pool (kmsg_bufs s) (<[p := c]> (conts s))).

(** delete_kmsg_buf *)
Definition delete_kmsg_buf (p : Z) : io pool unit :=
  if p =? 0 then io_ret tt else
  get_cont p ;;;
  io_modify (fun s => mk_pool (filter (fun q => q <> p) (kmsg_bufs s)) (delete p (conts s))).

(** release_kmsg_buf *)
Definition release_kmsg_buf (p : Z) : io pool Z :=
  c <- get_cont p ;;
  if ct_count c =? 0 then io_ret (- EINVAL) else
  let n := s32 (ct_count c - 1) in
  put_cont p (ct_set_count c n) ;;;
  (if n =? 0 then delete_kmsg_buf p else io_ret tt) ;;;
  io_ret 0.

(** The backward search for the latest container of an instance, whose count
    goes up: __ihk_os_boot and __ihk_device_get_kmsg_buf. *)
Fixpoint find_kmsg_buf (idx : Z) (l : list Z) : io pool (option Z) :=
  match l with
  | [] => io_ret None
  | p :: l' =>
      c <- get_cont p ;;
      if ct_os_index c =? idx then
        put_cont p (ct_set_count c (s32 (ct_count c + 1))) ;;; io_ret (Some p)
      else find_kmsg_buf idx l'
  end.
Definition latest_kmsg_buf (idx : Z) : io pool (option Z) :=
  l <- io_gets kmsg_bufs ;; find_kmsg_buf idx (reverse l).

(** __ihk_device_create_os: containers beyond IHK_MAX_NUM_KMSG_BUFS - 1 go,
    the oldest first, whoever refers to them. *)
Fixpoint reclaim (n : nat) : io pool unit :=
  match n with
  | O => io_ret tt
  | S n' =>
      l <- io_gets kmsg_bufs ;;
      match l with
      | [] => io_undef
      | p :: _ => delete_kmsg_buf p ;;; reclaim n'
      end
  end.
Definition release_stray : io pool unit :=
  l <- io_gets kmsg_bufs ;;
  reclaim (Z.to_nat (Z.of_nat (length l) - (IHK_MAX_NUM_KMSG_BUFS - 1))).

(** ... and the new container goes to the end of the list. *)
Definition add_kmsg_buf (p minor order : Z) : io pool unit :=
  io_modify (fun s => mk_pool (kmsg_bufs s ++ [p]) (<[p := mk_cont minor 0 (Some init_kmsg) order]> (conts s))).

(** ihk_unregister_device: all containers go. *)
Definition release_all : io pool unit :=
  l <- io_gets kmsg_bufs ;; reclaim (length l).

(** ** Reading the ring *)

Record ring_ok (b : ihk_kmsg_buf) : Prop := {
  ro_lock : kb_lock b = 0;
  ro_head : 0 <= kb_head b <= kb_len b;
  ro_tail : 0 <= kb_tail b <= kb_len b;
  ro_len : kb_len b <= IHK_KMSG_SIZE;
}.

(** What a reader gets: the bytes from head to tail; where the ring wraps, the
    part up to the end stops at a zero byte. *)
Definition ring_text (b : ihk_kmsg_buf) : list Z :=
  if kb_tail b <? kb_head b then
    bytes (kb_str b) (kb_head b) (scan (kb_str b) (kb_head b) (Z.to_nat (kb_len b - kb_head b))) ++
    bytes (kb_str b) 0 (Z.to_nat (kb_tail b))
  else bytes (kb_str b) (kb_head b) (Z.to_nat (kb_tail b - kb_head b)).

Lemma length_bytes s i n : length (bytes s i n) = n.
Proof. revert i. induction n as [|n IH]; intros i; simpl; [done|]. by rewrite IH. Qed.

Lemma lookup_bytes s i n k : (k < n)%nat -> bytes s i n !! k = Some (s (i + Z.of_nat k)).
Proof.
  revert i k. induction n as [|n IH]; intros i k Hk; [lia|].
  destruct k as [|k]; simpl; [by rewrite Z.add_0_r|]. rewrite IH by lia. do 2 f_equal. lia.
Qed.

Lemma scan_le s i n : (scan s i n <= n)%nat.
Proof. revert i. induction n as [|n IH]; intros i; simpl; [lia|]. case_match; [lia|]. specialize (IH (i + 1)). lia. Qed.

Lemma scan_full s i n : (forall k, i <= k < i + Z.of_nat n -> s k <> 0) -> scan s i n = n.
Proof.
  revert i. induction n as [|n IH]; intros i H; simpl; [done|].
  rewrite (proj2 (Z.eqb_neq _ _)) by (apply H; lia). f_equal. apply IH. intros k Hk. apply H. lia.
Qed.

Lemma kmsg_bytes_in b i n : 0 <= i -> 0 <= n -> i + n <= IHK_KMSG_SIZE -> kmsg_bytes b i n = Ret (bytes (kb_str b) i (Z.to_nat n)).
Proof. intros. unfold kmsg_bytes. by rewrite !(proj2 (Z.leb_le _ _)) by lia. Qed.

(** A copy that is skipped when it is empty. *)
Lemma kmsg_bytes_pos b i n :
  0 <= i -> 0 <= n -> i + n <= IHK_KMSG_SIZE ->
  (if 0 <? n then kmsg_bytes b i n else Ret []) = Ret (bytes (kb_str b) i (Z.to_nat n)).
Proof. intros. zcases; [by apply kmsg_bytes_in|]. by replace n with 0 by lia. Qed.

Lemma strnlen_in b i n :
  0 <= i -> 0 <= n -> i + n <= IHK_KMSG_SIZE -> strnlen b i (u64 n) = Ret (Z.of_nat (scan (kb_str b) i (Z.to_nat n))).
Proof.
  intros Hi Hn Hin. assert (IHK_KMSG_SIZE < 2 ^ 64) by done. unfold strnlen. rewrite u64_small by lia.
  rewrite (proj2 (Z.ltb_ge i 0)), (proj2 (Z.ltb_ge _ 0)) by lia. cbn [orb].
  rewrite Z.min_l by lia. by rewrite (proj2 (Z.ltb_ge _ n)), andb_false_r by lia.
Qed.

Lemma length_ring_text b : ring_ok b -> Z.of_nat (length (ring_text b)) <= kb_len b.
Proof.
  intros [H1 H2 H3 H4]. unfold ring_text. zcases; rewrite ?length_app, !length_bytes; [|lia].
  pose proof (scan_le (kb_str b) (kb_head b) (Z.to_nat (kb_len b - kb_head b))). lia.
Qed.

(** The bytes of a ring without zeros are its circular contents. *)
Lemma ring_text_circular b :
  ring_ok b -> kb_head b < kb_len b -> kb_tail b < kb_len b ->
  (forall k, kb_head b <= k < kb_len b -> kb_str b k <> 0) ->
  Z.of_nat (length (ring_text b)) = (kb_tail b - kb_head b) mod kb_len b /\
  forall k, (k < length (ring_text b))%nat ->
  ring_text b !! k = Some (kb_str b ((kb_head b + Z.of_nat k) mod kb_len b)).
Proof.
  intros [H1 H2 H3 H4] Hh Ht Hz. unfold ring_text. destruct (Z.ltb_spec (kb_tail b) (kb_head b)).
  - rewrite scan_full by (intros k Hk; apply Hz; lia). rewrite length_app, !length_bytes.
    split.
    { rewrite <- (Z.mod_add _ 1) by lia. rewrite Z.mod_small by lia. lia. }
    intros k Hk. destruct (decide (k < Z.to_nat (kb_len b - kb_head b))%nat).
    + rewrite lookup_app_l by (rewrite length_bytes; lia). rewrite lookup_bytes by lia. by rewrite Z.mod_small by lia.
    + rewrite lookup_app_r by (rewrite length_bytes; lia). rewrite length_bytes, lookup_bytes by lia.
      do 2 f_equal. rewrite <- (Z.mod_add _ (-1)) by lia. rewrite Z.mod_small by lia. lia.
  - rewrite length_bytes. split; [rewrite Z.mod_small by lia; lia|].
    intros k Hk. rewrite lookup_bytes by lia. by rewrite Z.mod_small by lia.
Qed.

(** read_kmsg on a ring whose indices are in range. *)
Lemma read_kmsg_ret b shift :
  ring_ok b ->
  read_kmsg (Some b) shift =
  Ret (Z.of_nat (length (ring_text b)), ring_text b, Some (if shift =? 0 then b else kb_set_head b (kb_tail b))).
Proof.
  intros Hok. pose proof (length_ring_text b Hok) as Hl. destruct Hok as [H1 H2 H3 H4]. revert Hl. unfold ring_text, read_kmsg, lock_kmsg.
  rewrite H1. cbn [Z.eqb mbind outcome_bind kb_set_lock kb_tail kb_head kb_len kb_str].
  assert (forall v, unlock_kmsg (if shift =? 0 then kb_set_lock b v else kb_set_head (kb_set_lock b v) (kb_tail b)) =
                    if shift =? 0 then b else kb_set_head b (kb_tail b)) as Hu.
  { intros v. destruct b; simpl in *. subst. by destruct (shift =? 0). }
  destruct (Z.ltb_spec (kb_tail b) (kb_head b)); intros Hl.
  - rewrite strnlen_in by (cbn; lia). cbn [mbind outcome_bind kb_str kb_set_lock].
    set (n := scan _ _ _) in *. assert (Z.of_nat n <= kb_len b - kb_head b).
    { unfold n. pose proof (scan_le (kb_str b) (kb_head b) (Z.to_nat (kb_len b - kb_head b))). lia. }
    rewrite !kmsg_bytes_pos by lia. cbn [mbind outcome_bind kb_str kb_set_lock]. rewrite Nat2Z.id.
    rewrite (proj2 (Z.ltb_ge _ _)) by lia. rewrite length_app, !length_bytes, Nat2Z.inj_add, Z2Nat.id by lia.
    by rewrite <- Hu with (v := 1).
  - cbn [mbind outcome_bind]. rewrite !kmsg_bytes_pos by lia. cbn [mbind outcome_bind kb_str kb_set_lock bytes Z.to_nat]. rewrite app_nil_r.
    rewrite (proj2 (Z.ltb_ge _ _)) by lia. rewrite length_bytes, Z2Nat.id, Z.add_0_r by lia. by rewrite <- Hu with (v := 1).
Qed.

(** C38: on a ring that is not locked and has its indices in
    range, read_kmsg returns; it copies the text between head and tail, which
    fits the buffer, and returns its length; a ring without zero bytes is read
    as a circular buffer; the ring stays as it is without shift, and with shift
    it is empty for the next reader. *)
Theorem read_kmsg_correct b shift :
  ring_ok b ->
  exists b', read_kmsg (Some b) shift = Ret (Z.of_nat (length (ring_text b)), ring_text b, Some b') /\
  Z.of_nat (length (ring_text b)) <= IHK_KMSG_SIZE /\ ring_ok b' /\
  (kb_head b < kb_len b -> kb_tail b < kb_len b -> (forall k, kb_head b <= k < kb_len b -> kb_str b k <> 0) ->
   Z.of_nat (length (ring_text b)) = (kb_tail b - kb_head b) mod kb_len b /\
   forall k, (k < length (ring_text b))%nat -> ring_text b !! k = Some (kb_str b ((kb_head b + Z.of_nat k) mod kb_len b))) /\
  (shift = 0 -> b' = b) /\ (shift <> 0 -> read_kmsg (Some b') shift = Ret (0, [], Some b')).
Proof.
  intros Hok. eexists. split; [by apply read_kmsg_ret|]. pose proof (length_ring_text b Hok). destruct Hok as [H1 H2 H3 H4].
  assert (ring_ok (if shift =? 0 then b else kb_set_head b (kb_tail b))) as Hok'.
  { case_match; split; simpl; try lia; done. }
  split; [lia|]. split; [done|]. split; [by apply ring_text_circular|].
  split; [by intros ->|]. intros Hs. rewrite read_kmsg_ret by done. rewrite (proj2 (Z.eqb_neq _ _) Hs).
  unfold ring_text. cbn [kb_set_head kb_head kb_tail]. rewrite Z.ltb_irrefl, Z.sub_diag. done.
Qed.

(** A ring of eight bytes that has wrapped. *)
Definition demo_ring : ihk_kmsg_buf := mk_kmsg 0 2 8 6 (fun i => 65 + i).

Lemma read_kmsg_correct_witness :
  read_kmsg (Some demo_ring) 1 = Ret (4, [71; 72; 65; 66], Some (kb_set_head demo_ring 2)) /\
  exists b', read_kmsg (Some demo_ring) 1 = Ret (4, ring_text demo_ring, Some b') /\ ring_ok b'.
Proof.
  split; [vm_compute; reflexivity|].
  destruct (read_kmsg_correct demo_ring 1) as (b' & H1 & _ & H2 & _);
    [split; vm_compute; try split; discriminate || reflexivity|].
  exists b'. split; [exact H1|exact H2].
Defined.

(** ** References to containers

    [refs]: the addresses that instances and handles hold.  A container is
    counted at least as often as it is referred to, and is in the list as long
    as it exists. *)
Record pool_inv (refs : list Z) (s : pool) : Prop := {
  pi_nodup : NoDup (kmsg_bufs s);
  pi_dom : forall p, p ∈ kmsg_bufs s <-> is_Some (conts s !! p);
  pi_null : conts s !! 0 = None;
  pi_count : forall p c, conts s !! p = Some c -> occ p refs <= ct_count c < 2 ^ 31;
  pi_refs : forall p, p ∈ refs -> p <> 0 -> is_Some (conts s !! p);
}.

(** Room for one more reference to any container. *)
Definition counts_low (s : pool) : Prop := forall p c, conts s !! p = Some c -> ct_count c < 2 ^ 31 - 1.

#[global] Instance pool_inv_proper : Proper ((≡ₚ) ==> (=) ==> iff) pool_inv.
Proof.
  assert (forall l l' s, l ≡ₚ l' -> pool_inv l s -> pool_inv l' s) as H.
  { intros l l' s E [H1 H2 H3 H4 H5]. split; try done; intros p; [|by rewrite <- E; apply H5].
    intros c Hc. rewrite <- E. eauto. }
  intros l l' E s ? <-. split; apply H; [done|by symmetry].
Qed.

(** NULL is not a reference. *)
Lemma pool_inv_null refs s : pool_inv (0 :: refs) s <-> pool_inv refs s.
Proof.
  split; intros [H1 H2 H3 H4 H5]; split; try done.
  - intros p c Hc. specialize (H4 p c Hc). cbn [occ] in H4. destruct (Z.eqb_spec 0 p); lia.
  - intros p Hp. apply H5. by right.
  - intros p c Hc. cbn [occ]. destruct (Z.eqb_spec 0 p) as [<-|]; [congruence|]. eauto.
  - intros p [->|Hp]%elem_of_cons; [done|]. by apply H5.
Qed.

Lemma pool_inv_drop p refs s : pool_inv (p :: refs) s -> pool_inv refs s.
Proof.
  intros [H1 H2 H3 H4 H5]. split; try done; [|intros q Hq; apply H5; by right].
  intros q c Hc. specialize (H4 q c Hc). simpl in H4. destruct (p =? q); lia.
Qed.

Lemma get_cont_ret s p c : conts s !! p = Some c -> get_cont p s = Ret (c, s).
Proof. intros H. unfold get_cont, io_bind, io_gets, io_some. simpl. by rewrite H. Qed.

(** Changing a container without changing the count below its references. *)
Lemma pool_inv_put refs s p c c' :
  pool_inv refs s -> conts s !! p = Some c -> occ p refs <= ct_count c' < 2 ^ 31 ->
  pool_inv refs (mk_pool (kmsg_bufs s) (<[p := c']> (conts s))).
Proof.
  intros [H1 H2 H3 H4 H5] Hp Hc. split; simpl; try done.
  - intros q. rewrite H2. destruct (decide (q = p)) as [->|]; [rewrite lookup_insert_eq, Hp; by split; eauto|].
    by rewrite lookup_insert_ne.
  - rewrite lookup_insert_ne; congruence.
  - intros q d. destruct (decide (q = p)) as [->|]; [rewrite lookup_insert_eq; by intros [= <-]|].
    rewrite lookup_insert_ne by done. eauto.
  - intros q Hq Hn. destruct (decide (q = p)) as [->|]; [rewrite lookup_insert_eq; eauto|].
    rewrite lookup_insert_ne by done. eauto.
Qed.

Definition drop_cont (p : Z) (s : pool) : pool := mk_pool (filter (fun q => q <> p) (kmsg_bufs s)) (delete p (conts s)).

Lemma pool_inv_delete refs s p : pool_inv refs s -> p ∉ refs -> pool_inv refs (drop_cont p s).
Proof.
  intros [H1 H2 H3 H4 H5] Hp. split; simpl.
  - by apply NoDup_filter.
  - intros q. rewrite list_elem_of_filter, H2. destruct (decide (q = p)) as [->|].
    + rewrite lookup_delete_eq. split; [by intros [? _]|by intros [? ?]].
    + rewrite lookup_delete_ne by done. naive_solver.
  - apply lookup_delete_None. auto.
  - intros q c [Hn Hq]%lookup_delete_Some. eauto.
  - intros q Hq Hn. rewrite lookup_delete_ne by congruence. eauto.
Qed.

Lemma delete_kmsg_buf_ret s p c : conts s !! p = Some c -> p <> 0 -> delete_kmsg_buf p s = Ret (tt, drop_cont p s).
Proof.
  intros H Hp. unfold delete_kmsg_buf. rewrite (proj2 (Z.eqb_neq _ _) Hp). by rewrite (io_bind_ret _ _ _ _ _ (get_cont_ret _ _ _ H)).
Qed.

(** Dropping a reference: the container goes with the last count. *)
Lemma release_kmsg_buf_ok refs s p :
  pool_inv (p :: refs) s -> p <> 0 ->
  exists c, conts s !! p = Some c /\ 0 < ct_count c /\
  exists s', release_kmsg_buf p s = Ret (0, s') /\ pool_inv refs s' /\
  s' = (if ct_count c =? 1 then drop_cont p s else mk_pool (kmsg_bufs s) (<[p := ct_set_count c (ct_count c - 1)]> (conts s))).
Proof.
  intros Hi Hp. destruct (pi_refs _ _ Hi p) as [c Hc]; [by left|done|]. exists c. split; [done|].
  pose proof (pi_count _ _ Hi p c Hc) as Hn. simpl in Hn. rewrite Z.eqb_refl in Hn. pose proof (occ_nonneg p refs).
  split; [lia|]. unfold release_kmsg_buf. rewrite (io_bind_ret _ _ _ _ _ (get_cont_ret _ _ _ Hc)).
  rewrite (proj2 (Z.eqb_neq (ct_count c) 0)) by lia. rewrite s32_small by lia.
  unfold put_cont. erewrite io_bind_ret by done. cbv beta.
  pose proof (pool_inv_put refs s p c (ct_set_count c (ct_count c - 1)) (pool_inv_drop _ _ _ Hi) Hc) as Hi'. simpl in Hi'.
  destruct (Z.eqb_spec (ct_count c) 1) as [E|E]; eexists.
  - rewrite (proj2 (Z.eqb_eq _ 0)) by lia. erewrite io_bind_ret.
    2: { eapply delete_kmsg_buf_ret; [apply lookup_insert_eq|done]. }
    split; [reflexivity|]. unfold drop_cont. cbn [kmsg_bufs conts]. rewrite delete_insert_eq. split; [|done].
    apply (pool_inv_delete refs s p (pool_inv_drop _ _ _ Hi)). apply occ_zero. lia.
  - rewrite (proj2 (Z.eqb_neq _ 0)) by lia. erewrite io_bind_ret by done. split; [reflexivity|]. split; [apply Hi'; lia|done].
Qed.

(** The backward search gives the last container of the instance, counted once
    more. *)
Definition of_os (idx : Z) (s : pool) (p : Z) : bool :=
  match conts s !! p with Some c => ct_os_index c =? idx | None => false end.
Definition count_up (p : Z) (s : pool) : pool :=
  mk_pool (kmsg_bufs s) (alter (fun c => ct_set_count c (ct_count c + 1)) p (conts s)).

Lemma count_up_insert p s c :
  conts s !! p = Some c -> count_up p s = mk_pool (kmsg_bufs s) (<[p := ct_set_count c (ct_count c + 1)]> (conts s)).
Proof.
  intros Hc. unfold count_up. f_equal. apply map_eq. intros q. destruct (decide (q = p)) as [->|];
    [by rewrite lookup_insert_eq, lookup_alter_eq, Hc|by rewrite lookup_insert_ne, lookup_alter_ne].
Qed.

Lemma find_kmsg_buf_ok idx s l :
  counts_low s -> (forall p, p ∈ l -> exists c, conts s !! p = Some c /\ 0 <= ct_count c) ->
  match list_find (fun p => of_os idx s p = true) l with
  | Some (_, p) => find_kmsg_buf idx l s = Ret (Some p, count_up p s)
  | None => find_kmsg_buf idx l s = Ret (None, s)
  end.
Proof.
  intros Hlow. induction l as [|p l IH]; intros Hl; simpl; [done|].
  destruct (Hl p) as (c & Hc & H0); [by left|]. specialize (Hlow p c Hc).
  rewrite (io_bind_ret _ _ _ _ _ (get_cont_ret _ _ _ Hc)).
  case_decide as E; unfold of_os in E; rewrite Hc in E; [rewrite E|apply not_true_is_false in E; rewrite E].
  - rewrite (count_up_insert p s c Hc). unfold put_cont. erewrite io_bind_ret by done. by rewrite s32_small by lia.
  - specialize (IH ltac:(intros q Hq; apply Hl; by right)). by destruct (list_find _ l) as [[]|].
Qed.

Lemma pool_inv_count_up refs s p c :
  pool_inv refs s -> counts_low s -> conts s !! p = Some c -> pool_inv (p :: refs) (count_up p s).
Proof.
  intros Hi Hlow Hc. pose proof (pi_count _ _ Hi p c Hc) as Hn. specialize (Hlow p c Hc).
  rewrite (count_up_insert p s c Hc).
  pose proof (pool_inv_put refs s p c (ct_set_count c (ct_count c + 1)) Hi Hc ltac:(simpl; lia)) as [H1 H2 H3 H4 H5].
  split; try done.
  - intros q d Hq. specialize (H4 q d Hq). cbn [occ]. destruct (Z.eqb_spec p q) as [<-|]; [|lia].
    cbn [conts] in Hq. rewrite lookup_insert_eq in Hq. injection Hq as <-. simpl. lia.
  - intros q [->|Hq]%elem_of_cons Hn0; [|by apply H5]. cbn [conts]. rewrite lookup_insert_eq. eauto.
Qed.

(** latest_kmsg_buf: a new reference, or nothing. *)
Lemma latest_kmsg_buf_ok idx refs s :
  pool_inv refs s -> counts_low s ->
  match list_find (fun p => of_os idx s p = true) (reverse (kmsg_bufs s)) with
  | Some (_, p) => latest_kmsg_buf idx s = Ret (Some p, count_up p s) /\ p <> 0 /\ p ∈ kmsg_bufs s /\ pool_inv (p :: refs) (count_up p s)
  | None => latest_kmsg_buf idx s = Ret (None, s)
  end.
Proof.
  intros Hi Hlow. pose proof (find_kmsg_buf_ok idx s (reverse (kmsg_bufs s)) Hlow) as Hf.
  assert (forall p, p ∈ reverse (kmsg_bufs s) -> exists c, conts s !! p = Some c /\ 0 <= ct_count c) as Hd.
  { intros p Hp. rewrite elem_of_reverse in Hp. apply (pi_dom _ _ Hi) in Hp as [c Hc]. exists c. split; [done|].
    pose proof (pi_count _ _ Hi p c Hc). pose proof (occ_nonneg p refs). lia. }
  specialize (Hf Hd). unfold latest_kmsg_buf. erewrite io_bind_ret by done.
  destruct (list_find _ _) as [[i p]|] eqn:E; [|done]. split; [done|].
  apply list_find_Some in E as (E1 & E2 & _). apply list_elem_of_lookup_2 in E1. rewrite elem_of_reverse in E1.
  destruct (proj1 (pi_dom _ _ Hi p) E1) as [c Hc]. split; [|split; [done|by apply (pool_inv_count_up refs s p c)]].
  intros ->. rewrite (pi_null _ _ Hi) in Hc. done.
Qed.

(** Deleting the oldest containers, none of which is referred to. *)
Lemma reclaim_ok refs n : forall s,
  pool_inv refs s -> (n <= length (kmsg_bufs s))%nat -> (forall p, p ∈ take n (kmsg_bufs s) -> p ∉ refs) ->
  exists s', reclaim n s = Ret (tt, s') /\ pool_inv refs s' /\ kmsg_bufs s' = drop n (kmsg_bufs s) /\
  forall p, p ∈ kmsg_bufs s' -> conts s' !! p = conts s !! p.
Proof.
  induction n as [|n IH]; intros s Hi Hn Hr; [exists s; by rewrite drop_0|].
  destruct (kmsg_bufs s) as [|p l] eqn:El; [simpl in Hn; lia|].
  destruct (proj1 (pi_dom _ _ Hi p)) as [c Hc]; [rewrite El; by left|].
  assert (p <> 0) as Hp0 by (intros ->; by rewrite (pi_null _ _ Hi) in Hc).
  assert (p ∉ l) as Hpl by (pose proof (pi_nodup _ _ Hi) as Hnd; rewrite El in Hnd; by apply NoDup_cons in Hnd as [? _]).
  assert (kmsg_bufs (drop_cont p s) = l) as El'.
  { simpl. rewrite El, filter_cons_False by naive_solver. by apply filter_ne_id. }
  destruct (IH (drop_cont p s)) as (s' & H1 & H2 & H3 & H4).
  - apply pool_inv_delete; [done|]. apply Hr. by left.
  - rewrite El'. simpl in Hn. lia.
  - rewrite El'. intros q Hq. apply Hr. by right.
  - exists s'. rewrite El' in H3. split; [|split; [done|split; [done|]]].
    + cbn [reclaim]. erewrite io_bind_ret by done. rewrite El. erewrite io_bind_ret by by eapply delete_kmsg_buf_ret. done.
    + intros q Hq. rewrite (H4 q Hq). apply lookup_delete_ne. intros <-. apply Hpl. rewrite H3 in Hq.
      by apply (subseteq_drop n l).
Qed.

Lemma add_kmsg_buf_ok refs s p minor order :
  pool_inv refs s -> conts s !! p = None -> p <> 0 ->
  pool_inv refs (mk_pool (kmsg_bufs s ++ [p]) (<[p := mk_cont minor 0 (Some init_kmsg) order]> (conts s))).
Proof.
  intros Hi Hp Hp0. assert (p ∉ refs) as Hr by (intros Hr; destruct (pi_refs _ _ Hi p Hr Hp0); congruence).
  destruct Hi as [H1 H2 H3 H4 H5]. split; simpl.
  - apply NoDup_app. split; [done|]. split; [|apply NoDup_singleton].
    intros q Hq ->%list_elem_of_singleton. apply H2 in Hq as [c Hc]. congruence.
  - intros q. rewrite elem_of_app, list_elem_of_singleton, H2. destruct (decide (q = p)) as [->|];
      [rewrite lookup_insert_eq; split; [by eauto|by right]|rewrite lookup_insert_ne by done; naive_solver].
  - by rewrite lookup_insert_ne.
  - intros q c. destruct (decide (q = p)) as [->|]; [rewrite lookup_insert_eq; intros [= <-]|rewrite lookup_insert_ne by done; by apply H4].
    simpl. apply occ_zero in Hr. lia.
  - intros q Hq Hn. destruct (decide (q = p)) as [->|]; [rewrite lookup_insert_eq; eauto|]. rewrite lookup_insert_ne by done. eauto.
Qed.
