(* ===== verification/HostData.v ===== *)
(** * State of the host driver core

    The data of src/linux/core/host_driver.c, host_linux.h and
    src/linux/include/ihk/ihk_host_driver.h: instances (/dev/mcosN), devices
    (/dev/mcdN), their open files, the notifiers, and the operation tables
    through which the core calls a device driver.  Pointers are addresses;
    what kzalloc gave and kfree did not take back is in a map, so that using a
    freed or invalid pointer is [Undef].

    The drivers and the kernels themselves are a state [D] that only the
    operations of the tables change. *)

From stdpp Require Import base tactics numbers list gmap.
From S2P Require Import Prelude Kmsg.

Open Scope ihk_scope.

Definition DEV_MAX_MINOR : Z := 64.
Definition OS_MAX_MINOR : Z := 64.
Definition OS_DATA_INVALID : Z := 2 ^ 64 - 1.
Definition DEV_DATA_INVALID : Z := 2 ^ 64 - 1.
Definition IHK_OS_FLAG_SHARABLE : Z := 1.
Definition IHK_DEVICE_FLAG_SHARABLE : Z := 1.
Definition FLAG_IHK_OS_SHUTDOWN_FORCE : Z := 0x40000000.
Definition ERESTARTSYS : Z := 512.
Definition E2BIG : Z := 7.
Definition EAGAIN : Z := 11.

(** enum ihk_os_status *)
Definition IHK_OS_STATUS_NOT_BOOTED : Z := 0.
Definition IHK_OS_STATUS_LOADING : Z := 1.
Definition IHK_OS_STATUS_BOOTING : Z := 2.
Definition IHK_OS_STATUS_BOOTED : Z := 3.
Definition IHK_OS_STATUS_READY : Z := 4.
Definition IHK_OS_STATUS_RUNNING : Z := 5.
Definition IHK_OS_STATUS_FREEZING : Z := 6.
Definition IHK_OS_STATUS_FROZEN : Z := 7.
Definition IHK_OS_STATUS_SHUTDOWN : Z := 8.
Definition IHK_OS_STATUS_FAILED : Z := 9.
Definition IHK_OS_STATUS_HUNGUP : Z := 10.

(** struct ihk_resource *)
Record ihk_resource : Type := mk_res {
  res_flags : Z; res_cpu_cores : Z; res_mem_size : Z; res_mem_start : Z; res_cores : list Z;
}.

Section data.
Context {D : Type}.

(** ** Operation tables

    A missing operation is a null pointer.  The first two arguments are the
    instance (or device) and its private pointer. *)
Definition op (F : Type) : Type := option (Z -> Z -> F).

Record ihk_os_ops : Type := mk_os_ops {
  op_open : op (Z -> io D Z);
  op_close : op (Z -> io D Z);
  op_load_file : op (list Z -> io D Z);
  op_load_mem : op (list Z -> Z -> io D Z);
  op_boot : op (Z -> io D Z);
  op_shutdown : op (Z -> io D Z);
  op_alloc_resource : op (ihk_resource -> io D Z);
  op_query_status : op (io D Z);
  op_notify_hungup : op (io D Z);
  op_get_num_numa_nodes : op (io D Z);
  op_query_free_mem : op (io D Z);
  op_wait_for_status : op (Z -> Z -> Z -> io D Z);
  op_issue_interrupt : op (Z -> Z -> io D Z);
  op_send_nmi : op (Z -> io D Z);
  op_set_kargs : op (list Z -> io D Z);
  op_map_memory : op (Z -> Z -> io D Z);
  op_unmap_memory : op (Z -> Z -> io D Z);
  op_get_cpu_info : op (io D Z);
  op_get_special_addr : op (Z -> io D (Z * Z * Z));
  op_debug_request : op (Z -> Z -> io D Z);
  op_assign_cpu : op (Z -> io D Z);
  op_release_cpu : op (Z -> io D Z);
  op_set_ikc_map : op (Z -> io D Z);
  op_get_ikc_map : op (Z -> io D Z);
  op_get_buildid : op (Z -> io D Z);
  op_get_num_cpus : op (io D Z);
  op_query_cpu : op (Z -> io D Z);
  op_assign_mem : op (Z -> io D Z);
  op_release_mem : op (Z -> io D Z);
  op_query_mem : op (Z -> io D Z);
  op_freeze : op (io D Z);
  op_thaw : op (io D Z);
  op_panic_notifier : op (io D Z);
  op_dump : op (list Z -> io D (Z * list Z));
  op_vtop : op (Z -> io D (Z * Z));
}.

(** struct ihk_register_os_data: what create_os fills in. *)
Record ihk_register_os_data : Type := mk_reg_os { ro_ops : option ihk_os_ops; ro_priv : Z }.

Record ihk_device_ops : Type := mk_dev_ops {
  dv_init : op (io D Z);
  dv_exit : op (io D Z);
  dv_open : op (Z -> io D Z);
  dv_close : op (Z -> io D Z);
  dv_create_os : op (Z -> Z -> io D (Z * ihk_register_os_data));
  dv_destroy_os : op (Z -> Z -> io D Z);
  dv_reserve_cpu : option (Z -> Z -> io D Z);
  dv_release_cpu : option (Z -> Z -> io D Z);
  dv_reserve_mem : option (Z -> Z -> io D Z);
  dv_release_mem : option (Z -> Z -> io D Z);
  dv_release_mem_partially : option (Z -> Z -> io D Z);
  dv_get_num_cpus : option (Z -> io D Z);
  dv_query_cpu : option (Z -> Z -> io D Z);
  dv_query_mem : option (Z -> Z -> io D Z);
  dv_map_memory : op (Z -> Z -> io D Z);
  dv_unmap_memory : op (Z -> Z -> io D Z);
  dv_map_virtual : op (Z -> Z -> Z -> Z -> io D Z);
  dv_unmap_virtual : op (Z -> Z -> io D Z);
  dv_debug_request : op (Z -> Z -> io D Z);
}.

(** ** Structures *)

(** struct ihk_os_user_call_handler *)
Record ihk_os_user_call_handler : Type := mk_uch {
  uc_request : Z;
  uc_priv : Z;
  uc_func : Z -> Z -> Z -> Z -> Z -> io D Z;
}.

(** struct ihk_os_kernel_call_handler *)
Record ihk_os_kernel_call_handler : Type := mk_kch {
  kc_get_request_cpu : option (Z -> io D (Z * Z));
  kc_read_cpu_register : option (Z -> Z -> Z -> io D Z);
  kc_write_cpu_register : option (Z -> Z -> Z -> io D Z);
}.

(** struct ihk_host_linux_os_data; the fields of IKC are in Master.v.  A
    monitor is an address here, what it holds is in SmpStatus.v. *)
Record ihk_host_linux_os_data : Type := mk_os {
  o_dev_data : Z;
  o_flag : Z;
  o_minor : Z;
  o_refcount : Z;
  o_ops : option ihk_os_ops;
  o_priv : Z;
  o_kmsg : Z;
  o_aux : list (Z * list ihk_os_user_call_handler);
  o_usrdata : Z;
  o_events : list (Z * Z);
  o_kernel_handlers : option ihk_os_kernel_call_handler;
  o_monitor : Z;
  o_rusage : Z;
}.

(** struct ihk_host_linux_device_data *)
Record ihk_host_linux_device_data : Type := mk_dev {
  d_flag : Z;
  d_minor : Z;
  d_refcount : Z;
  d_ops : ihk_device_ops;
  d_priv : Z;
}.

(** struct ihk_file *)
Record ihk_file : Type := mk_file {
  f_osdata : Z;
  f_release : option (Z -> Z -> io D unit);
  f_param : Z;
  f_mcos_data : Z;
}.

(** struct ihk_os_notifier *)
Record ihk_os_notifier : Type := mk_notifier {
  n_addr : Z;
  n_boot : option (Z -> io D Z);
  n_shutdown : option (Z -> io D Z);
}.

(** The variables of host_driver.c.  [h_files]: the open files of instances,
    by struct file; [h_dev_files]: those of devices. *)
Record host : Type := mk_host {
  h_os_data : list Z;
  h_os_max_minor : Z;
  h_oses : gmap Z ihk_host_linux_os_data;
  h_dev_data : list Z;
  h_dev_max_minor : Z;
  h_devs : gmap Z ihk_host_linux_device_data;
  h_files : gmap Z ihk_file;
  h_dev_files : gmap Z Z;
  h_pool : pool;
  h_notifiers : list ihk_os_notifier;
  h_drv : D;
}.

(** ** Updates *)

Definition set_os_data (h : host) v := mk_host v (h_os_max_minor h) (h_oses h) (h_dev_data h) (h_dev_max_minor h) (h_devs h) (h_files h) (h_dev_files h) (h_pool h) (h_notifiers h) (h_drv h).
Definition set_os_max (h : host) v := mk_host (h_os_data h) v (h_oses h) (h_dev_data h) (h_dev_max_minor h) (h_devs h) (h_files h) (h_dev_files h) (h_pool h) (h_notifiers h) (h_drv h).
Definition set_oses (h : host) v := mk_host (h_os_data h) (h_os_max_minor h) v (h_dev_data h) (h_dev_max_minor h) (h_devs h) (h_files h) (h_dev_files h) (h_pool h) (h_notifiers h) (h_drv h).
Definition set_dev_data (h : host) v := mk_host (h_os_data h) (h_os_max_minor h) (h_oses h) v (h_dev_max_minor h) (h_devs h) (h_files h) (h_dev_files h) (h_pool h) (h_notifiers h) (h_drv h).
Definition set_dev_max (h : host) v := mk_host (h_os_data h) (h_os_max_minor h) (h_oses h) (h_dev_data h) v (h_devs h) (h_files h) (h_dev_files h) (h_pool h) (h_notifiers h) (h_drv h).
Definition set_devs (h : host) v := mk_host (h_os_data h) (h_os_max_minor h) (h_oses h) (h_dev_data h) (h_dev_max_minor h) v (h_files h) (h_dev_files h) (h_pool h) (h_notifiers h) (h_drv h).
Definition set_files (h : host) v := mk_host (h_os_data h) (h_os_max_minor h) (h_oses h) (h_dev_data h) (h_dev_max_minor h) (h_devs h) v (h_dev_files h) (h_pool h) (h_notifiers h) (h_drv h).
Definition set_dev_files (h : host) v := mk_host (h_os_data h) (h_os_max_minor h) (h_oses h) (h_dev_data h) (h_dev_max_minor h) (h_devs h) (h_files h) v (h_pool h) (h_notifiers h) (h_drv h).
Definition set_pool (h : host) v := mk_host (h_os_data h) (h_os_max_minor h) (h_oses h) (h_dev_data h) (h_dev_max_minor h) (h_devs h) (h_files h) (h_dev_files h) v (h_notifiers h) (h_drv h).
Definition set_notifiers (h : host) v := mk_host (h_os_data h) (h_os_max_minor h) (h_oses h) (h_dev_data h) (h_dev_max_minor h) (h_devs h) (h_files h) (h_dev_files h) (h_pool h) v (h_drv h).
Definition set_drv (h : host) v := mk_host (h_os_data h) (h_os_max_minor h) (h_oses h) (h_dev_data h) (h_dev_max_minor h) (h_devs h) (h_files h) (h_dev_files h) (h_pool h) (h_notifiers h) v.

Definition o_set_minor (o : ihk_host_linux_os_data) v := mk_os (o_dev_data o) (o_flag o) v (o_refcount o) (o_ops o) (o_priv o) (o_kmsg o) (o_aux o) (o_usrdata o) (o_events o) (o_kernel_handlers o) (o_monitor o) (o_rusage o).
Definition o_set_refcount (o : ihk_host_linux_os_data) v := mk_os (o_dev_data o) (o_flag o) (o_minor o) v (o_ops o) (o_priv o) (o_kmsg o) (o_aux o) (o_usrdata o) (o_events o) (o_kernel_handlers o) (o_monitor o) (o_rusage o).
Definition o_set_kmsg (o : ihk_host_linux_os_data) v := mk_os (o_dev_data o) (o_flag o) (o_minor o) (o_refcount o) (o_ops o) (o_priv o) v (o_aux o) (o_usrdata o) (o_events o) (o_kernel_handlers o) (o_monitor o) (o_rusage o).
Definition o_set_aux (o : ihk_host_linux_os_data) v := mk_os (o_dev_data o) (o_flag o) (o_minor o) (o_refcount o) (o_ops o) (o_priv o) (o_kmsg o) v (o_usrdata o) (o_events o) (o_kernel_handlers o) (o_monitor o) (o_rusage o).
Definition o_set_usrdata (o : ihk_host_linux_os_data) v := mk_os (o_dev_data o) (o_flag o) (o_minor o) (o_refcount o) (o_ops o) (o_priv o) (o_kmsg o) (o_aux o) v (o_events o) (o_kernel_handlers o) (o_monitor o) (o_rusage o).
Definition o_set_events (o : ihk_host_linux_os_data) v := mk_os (o_dev_data o) (o_flag o) (o_minor o) (o_refcount o) (o_ops o) (o_priv o) (o_kmsg o) (o_aux o) (o_usrdata o) v (o_kernel_handlers o) (o_monitor o) (o_rusage o).
Definition o_set_handlers (o : ihk_host_linux_os_data) v := mk_os (o_dev_data o) (o_flag o) (o_minor o) (o_refcount o) (o_ops o) (o_priv o) (o_kmsg o) (o_aux o) (o_usrdata o) (o_events o) v (o_monitor o) (o_rusage o).
Definition o_set_monitor (o : ihk_host_linux_os_data) v := mk_os (o_dev_data o) (o_flag o) (o_minor o) (o_refcount o) (o_ops o) (o_priv o) (o_kmsg o) (o_aux o) (o_usrdata o) (o_events o) (o_kernel_handlers o) v (o_rusage o).
Definition o_set_rusage (o : ihk_host_linux_os_data) v := mk_os (o_dev_data o) (o_flag o) (o_minor o) (o_refcount o) (o_ops o) (o_priv o) (o_kmsg o) (o_aux o) (o_usrdata o) (o_events o) (o_kernel_handlers o) (o_monitor o) v.
Definition d_set_refcount (d : ihk_host_linux_device_data) v := mk_dev (d_flag d) (d_minor d) v (d_ops d) (d_priv d).

(** ** Running a part of the state *)

Definition on_pool {A} (m : io pool A) : io host A := fun h =>
  match m (h_pool h) with Ret (a, s) => Ret (a, set_pool h s) | Undef => Undef end.
Definition on_drv {A} (m : io D A) : io host A := fun h =>
  match m (h_drv h) with Ret (a, d) => Ret (a, set_drv h d) | Undef => Undef end.

Definition get_os (p : Z) : io host ihk_host_linux_os_data := h <- io_gets id ;; io_some (h_oses h !! p).
Definition upd_os (p : Z) (f : ihk_host_linux_os_data -> ihk_host_linux_os_data) : io host unit :=
  o <- get_os p ;; io_modify (fun h => set_oses h (<[p := f o]> (h_oses h))).
Definition get_dev (p : Z) : io host ihk_host_linux_device_data := h <- io_gets id ;; io_some (h_devs h !! p).
Definition upd_dev (p : Z) (f : ihk_host_linux_device_data -> ihk_host_linux_device_data) : io host unit :=
  d <- get_dev p ;; io_modify (fun h => set_devs h (<[p := f d]> (h_devs h))).

(** os_data[i] *)
Definition get_slot (i : Z) : io host Z := h <- io_gets id ;; io_lift (aget (h_os_data h) i).
Definition set_slot (i v : Z) : io host unit :=
  h <- io_gets id ;; l <- io_lift (aset (h_os_data h) i v) ;; io_modify (fun h => set_os_data h l).
Definition get_dev_slot (i : Z) : io host Z := h <- io_gets id ;; io_lift (aget (h_dev_data h) i).
Definition set_dev_slot (i v : Z) : io host unit :=
  h <- io_gets id ;; l <- io_lift (aset (h_dev_data h) i v) ;; io_modify (fun h => set_dev_data h l).
End data.

Arguments ihk_os_ops D : clear implicits.
Arguments ihk_device_ops D : clear implicits.
Arguments ihk_register_os_data D : clear implicits.
Arguments ihk_host_linux_os_data D : clear implicits.
Arguments ihk_host_linux_device_data D : clear implicits.
Arguments ihk_os_user_call_handler D : clear implicits.
Arguments ihk_os_kernel_call_handler D : clear implicits.
Arguments ihk_os_notifier D : clear implicits.
Arguments ihk_file D : clear implicits.
Arguments host D : clear implicits.
