(* ===== verification/HostOs.v ===== *)
(** * Instances in the host driver core (src/linux/core/host_driver.c)

    Creating, booting, shutting down and destroying OS instances, opening and
    closing their files, and the kernel messages' users.  The operations have
    the names of the C functions; what Linux decides (memory, signals) is an
    argument.  The theorems are about the table of instances, the reference
    counts and the message buffers. *)

From stdpp Require Import base tactics numbers list gmap.
From S2P Require Import Prelude Kmsg HostData.

Open Scope ihk_scope.

(** What the core uses of IKC (src/linux/core/mikc.c): starting and stopping
    the master channel of an instance. *)
Class IkcMaster (D : Type) : Type := {
  im_init : Z -> io D Z;
  im_finalize : Z -> io D unit;
}.

Section ops.
Context {D : Type} `{!IkcMaster D}.
Abbreviation host := (host D).
Abbreviation ihk_os_ops := (ihk_os_ops D).

(** ** The table *)

(** ihk_host_os_get_index *)
Definition ihk_host_os_get_index (os : Z) : io host Z :=
  io_gets (fun h => match list_find (fun q => q = os) (h_os_data h) with Some (i, _) => Z.of_nat i | None => -1 end).

(** ihk_host_find_os: 0 is NULL. *)
Definition ihk_host_find_os (index dev : Z) : io host Z :=
  if (index <? 0) || (OS_MAX_MINOR <=? index) then io_ret 0 else
  os <- get_slot index ;;
  if (os =? 0) || (os =? DEV_DATA_INVALID) then io_ret 0 else
  if dev =? 0 then io_ret os else
  o <- get_os os ;;
  io_ret (if o_dev_data o =? dev then os else 0).

(** ihk_host_find_dev: the index is not checked. *)
Definition ihk_host_find_dev (index : Z) : io host Z :=
  dev <- get_dev_slot index ;;
  io_ret (if (dev =? 0) || (dev =? DEV_DATA_INVALID) then 0 else dev).

(** ihk_host_validate_os *)
Definition ihk_host_validate_os (os : Z) : io host Z :=
  io_gets (fun h =>
    if existsb (fun q => (os =? q) && negb (q =? 0) && negb (q =? OS_DATA_INVALID))
         (take (Z.to_nat (h_os_max_minor h)) (h_os_data h)) then 0 else - EINVAL).

(** ihk_os_to_dev *)
Definition ihk_os_to_dev (os : Z) : io host Z := o <- get_os os ;; io_ret (o_dev_data o).

(** ** Calls of the driver's operations *)

(** IHK_OPS_BODY, IHK_OPS_BODY_NOARG *)
Definition os_body {F} (sel : ihk_os_ops -> op F) (os : Z) (k : F -> io D Z) : io host Z :=
  o <- get_os os ;;
  ops <- io_some (o_ops o) ;;
  match sel ops with
  | Some f => on_drv (k (f os (o_priv o)))
  | None => io_ret (- EINVAL)
  end.

Definition __ihk_os_query_status (os : Z) : io host Z := os_body op_query_status os id.
Definition __ihk_os_status (os : Z) : io host Z := __ihk_os_query_status os.
Definition ihk_os_wait_for_status (os status sleepable timeout : Z) : io host Z :=
  os_body op_wait_for_status os (fun f => f status sleepable timeout).
Definition ihk_os_send_nmi (os mode : Z) : io host Z := os_body op_send_nmi os (fun f => f mode).

(** IHK_OPS_BODY_VOID_NOARG *)
Definition __ihk_os_notify_hungup (os : Z) : io host unit :=
  o <- get_os os ;;
  ops <- io_some (o_ops o) ;;
  match op_notify_hungup ops with
  | Some f => on_drv (f os (o_priv o)) ;;; io_ret tt
  | None => io_ret tt
  end.

(** ** Open and close *)

(** ihk_host_os_open: [idx] is the minor number of the inode, [km] whether
    kmalloc gives the ihk_file (the result is not checked). *)
Definition ihk_host_os_open (km : bool) (idx file : Z) : io host Z :=
  max <- io_gets h_os_max_minor ;;
  if (idx <? 0) || (max <? idx) then io_ret (- EINVAL) else
  data <- get_slot idx ;;
  if (data =? 0) || (data =? OS_DATA_INVALID) then io_ret (- ENOENT) else
  o <- get_os data ;;
  if (Z.land (o_flag o) IHK_OS_FLAG_SHARABLE =? 0) && negb (o_refcount o =? 0) then io_ret (- EBUSY) else
  upd_os data (fun o => o_set_refcount o (s32 (o_refcount o + 1))) ;;;
  if negb km then io_undef else
  ops <- io_some (o_ops o) ;;
  ret <- match op_open ops with Some f => on_drv (f data (o_priv o) file) | None => io_ret 0 end ;;
  if negb (ret =? 0) then
    upd_os data (fun o => o_set_refcount o (s32 (o_refcount o - 1))) ;;; io_ret ret
  else
  io_modify (fun h => set_files h (<[file := mk_file data None 0 0]> (h_files h))) ;;;
  io_ret 0.

(** file->private_data of an open file *)
Definition get_file (file : Z) : io host (ihk_file D) := h <- io_gets id ;; io_some (h_files h !! file).

(** ihk_host_os_release *)
Definition ihk_host_os_release (file : Z) : io host Z :=
  ifile <- get_file file ;;
  let data := f_osdata ifile in
  match f_release ifile with Some f => on_drv (f data (f_param ifile)) | None => io_ret tt end ;;;
  o <- get_os data ;;
  ops <- io_some (o_ops o) ;;
  match op_close ops with Some f => on_drv (f data (o_priv o) file) | None => io_ret 0 end ;;;
  upd_os data (fun o => o_set_refcount o (s32 (o_refcount o - 1))) ;;;
  io_modify (fun h => set_files h (delete file (h_files h))) ;;;
  io_ret 0.

(** ihk_os_register_release_handler, ihk_os_set_mcos_private_data,
    ihk_os_get_mcos_private_data *)
Definition ihk_os_register_release_handler (file : Z) handler (param : Z) : io host unit :=
  f <- get_file file ;;
  io_modify (fun h => set_files h (<[file := mk_file (f_osdata f) handler param (f_mcos_data f)]> (h_files h))).
Definition ihk_os_set_mcos_private_data (file data : Z) : io host unit :=
  f <- get_file file ;;
  io_modify (fun h => set_files h (<[file := mk_file (f_osdata f) (f_release f) (f_param f) data]> (h_files h))).
Definition ihk_os_get_mcos_private_data (file : Z) : io host Z := f <- get_file file ;; io_ret (f_mcos_data f).

(** ** Boot *)

(** The notifiers after a boot: the first that fails stops the kernel again. *)
Fixpoint notify_boot (os index flag : Z) (l : list (ihk_os_notifier D)) (ret : Z) : io host Z :=
  match l with
  | [] => io_ret ret
  | ion :: l' =>
      match n_boot ion with
      | None => notify_boot os index flag l' ret
      | Some f =>
          ret <- on_drv (f index) ;;
          if negb (ret =? 0) then
            on_drv (im_finalize os) ;;;
            o <- get_os os ;;
            ops <- io_some (o_ops o) ;;
            sh <- io_some (op_shutdown ops) ;;
            on_drv (sh os (o_priv o) flag) ;;;
            io_ret ret
          else notify_boot os index flag l' ret
      end
  end.

(** __ihk_os_boot; [sig]: the wait for the notifiers' semaphore is
    interrupted. *)
Definition __ihk_os_boot (sig : bool) (os flag : Z) : io host Z :=
  index <- ihk_host_os_get_index os ;;
  o <- get_os os ;;
  r <- on_pool (latest_kmsg_buf (o_minor o)) ;;
  match r with
  | None => io_ret (- EINVAL)
  | Some cont =>
      upd_os os (fun o => o_set_kmsg o cont) ;;;
      ret <- (if sig then io_ret (- ERESTARTSYS) else
              ops <- io_some (o_ops o) ;;
              match op_boot ops with
              | None => io_ret (- EINVAL)
              | Some f =>
                  ret <- on_drv (f os (o_priv o) flag) ;;
                  ret <- (if ret =? 0 then on_drv (im_init os) else io_ret ret) ;;
                  if ret =? 0 then
                    l <- io_gets h_notifiers ;; notify_boot os index flag l ret
                  else io_ret ret
              end) ;;
      (if negb (ret =? 0) then
         on_pool (c <- get_cont cont ;; put_cont cont (ct_set_count c (s32 (ct_count c - 1))))
       else io_ret tt) ;;;
      io_ret ret
  end.

(** ** Freeze, thaw, shutdown *)

(** __ihk_os_freeze *)
Definition __ihk_os_freeze (os : Z) : io host Z :=
  status <- __ihk_os_status os ;;
  if (status =? IHK_OS_STATUS_NOT_BOOTED) || (status =? IHK_OS_STATUS_BOOTING) || (status =? IHK_OS_STATUS_BOOTED) ||
     (status =? IHK_OS_STATUS_READY) || (status =? IHK_OS_STATUS_SHUTDOWN) || (status =? IHK_OS_STATUS_FAILED) ||
     (status =? IHK_OS_STATUS_HUNGUP) then io_ret (- EINVAL) else
  if (status =? IHK_OS_STATUS_FREEZING) || (status =? IHK_OS_STATUS_FROZEN) then io_ret (- EBUSY) else
  o <- get_os os ;;
  ops <- io_some (o_ops o) ;;
  match op_freeze ops with Some f => on_drv (f os (o_priv o)) | None => io_ret 0 end.

(** __ihk_os_thaw *)
Definition __ihk_os_thaw (os : Z) : io host Z :=
  status <- __ihk_os_status os ;;
  if (status =? IHK_OS_STATUS_NOT_BOOTED) || (status =? IHK_OS_STATUS_BOOTING) || (status =? IHK_OS_STATUS_BOOTED) ||
     (status =? IHK_OS_STATUS_READY) || (status =? IHK_OS_STATUS_RUNNING) || (status =? IHK_OS_STATUS_SHUTDOWN) ||
     (status =? IHK_OS_STATUS_FAILED) || (status =? IHK_OS_STATUS_HUNGUP) then io_ret (- EINVAL) else
  (if status =? IHK_OS_STATUS_FREEZING then ihk_os_wait_for_status os IHK_OS_STATUS_FROZEN 0 100 else io_ret 0) ;;;
  o <- get_os os ;;
  ops <- io_some (o_ops o) ;;
  match op_thaw ops with Some f => on_drv (f os (o_priv o)) | None => io_ret 0 end.

(** The cases of the switch of __ihk_os_shutdown, from the last to the first
    that falls through. *)
Definition await_running (os : Z) : io host unit :=
  r <- ihk_os_wait_for_status os IHK_OS_STATUS_RUNNING 0 200 ;;
  if negb (r =? 0) then ihk_os_send_nmi os 3 ;;; io_ret tt else io_ret tt.
Definition await_ready (os : Z) : io host unit :=
  ihk_os_wait_for_status os IHK_OS_STATUS_READY 0 200 ;;; await_running os.
Definition thaw_first (os : Z) : io host unit := __ihk_os_thaw os ;;; await_ready os.
Definition await_frozen (os : Z) : io host unit :=
  ihk_os_wait_for_status os IHK_OS_STATUS_FROZEN 0 100 ;;; thaw_first os.

Definition notify_shutdown (index : Z) (ion : ihk_os_notifier D) : io host unit :=
  match n_shutdown ion with Some f => on_drv (f index) ;;; io_ret tt | None => io_ret tt end.

(** The part after the switch. *)
Definition finish_shutdown (sig : bool) (os index flag : Z) : io host Z :=
  if sig then io_ret (- ERESTARTSYS) else
  (if negb (index =? -1) then l <- io_gets h_notifiers ;; io_iter (notify_shutdown index) l else io_ret tt) ;;;
  on_drv (im_finalize os) ;;;
  o <- get_os os ;;
  ops <- io_some (o_ops o) ;;
  ret <- match op_shutdown ops with Some f => on_drv (f os (o_priv o) flag) | None => io_ret 0 end ;;
  if negb (ret =? 0) then io_ret ret else
  let cont := o_kmsg o in
  if negb (cont =? 0) then
    upd_os os (fun o => o_set_kmsg o 0) ;;;
    on_pool (release_kmsg_buf cont)
  else io_ret 0.

(** __ihk_os_shutdown *)
Definition __ihk_os_shutdown (sig : bool) (os flag : Z) : io host Z :=
  index <- ihk_host_os_get_index os ;;
  status <- __ihk_os_status os ;;
  if status =? IHK_OS_STATUS_SHUTDOWN then io_ret (- EBUSY) else
  if status =? IHK_OS_STATUS_NOT_BOOTED then io_ret 0 else
  (if status =? IHK_OS_STATUS_FREEZING then await_frozen os else
   if status =? IHK_OS_STATUS_FROZEN then thaw_first os else
   if (status =? IHK_OS_STATUS_BOOTING) || (status =? IHK_OS_STATUS_BOOTED) then await_ready os else
   if status =? IHK_OS_STATUS_READY then await_running os else io_ret tt) ;;;
  finish_shutdown sig os index flag.

(** ** Destroy *)

(** __ihk_device_destroy_os; [msig], [sig]: the waits for os_lock and for the
    notifiers' semaphore are interrupted. *)
Definition __ihk_device_destroy_os (msig sig : bool) (dev os : Z) : io host Z :=
  if msig then io_ret (- ERESTARTSYS) else
  if (os =? 0) || (os =? OS_DATA_INVALID) || (dev =? 0) || (dev =? DEV_DATA_INVALID) then io_ret (- EINVAL) else
  o <- get_os os ;;
  if negb (o_dev_data o =? dev) then io_ret (- EINVAL) else
  if 0 <? o_refcount o then io_ret (- EBUSY) else
  ret <- __ihk_os_shutdown sig os FLAG_IHK_OS_SHUTDOWN_FORCE ;;
  if negb (ret =? 0) then io_ret ret else
  d <- get_dev dev ;;
  ret <- match dv_destroy_os (d_ops d) with Some f => on_drv (f dev (d_priv d) os (o_priv o)) | None => io_ret 0 end ;;
  if negb (ret =? 0) then io_ret (- EINVAL) else
  set_slot (o_minor o) 0 ;;;
  io_modify (fun h => set_oses h (delete os (h_oses h))) ;;;
  io_ret 0.

(** ** Create *)

(** What Linux gives during a creation: the instance and the container (0:
    kmalloc fails), whether the array of channels, the pages, the character
    device and the device file can be had, and which waits are interrupted. *)
Record create_env : Type := mk_ce {
  ce_os : Z; ce_channels : bool; ce_pages : bool; ce_cont : Z; ce_cdev : bool;
  ce_device : bool; ce_lock_sig : bool; ce_msig : bool; ce_sig : bool;
}.

(** __ihk_device_create_os_init: the instance, or the error. *)
Definition __ihk_device_create_os_init (e : create_env) (dev arg : Z) : io host Z :=
  d <- get_dev dev ;;
  if ce_os e =? 0 then io_ret (- ENOMEM) else
  if negb (ce_channels e) then io_ret (- ENOMEM) else
  ' (ret, drv) <- match dv_create_os (d_ops d) with
                  | Some f => on_drv (f dev (d_priv d) arg (ce_os e))
                  | None => io_ret (0, mk_reg_os None 0)
                  end ;;
  if negb (ret =? 0) then io_ret ret else
  io_modify (fun h => set_oses h (<[ce_os e := mk_os dev IHK_OS_FLAG_SHARABLE 0 0 (ro_ops drv) (ro_priv drv) 0 [] 0 [] None 0 0]> (h_oses h))) ;;;
  io_ret 0.

(** The search for a free slot, under os_data_lock: the minor number. *)
Definition take_slot : io host (option Z) :=
  h <- io_gets id ;;
  let max := h_os_max_minor h in
  match list_find (fun q => q = 0) (take (Z.to_nat max) (h_os_data h)) with
  | Some (i, _) => set_slot (Z.of_nat i) OS_DATA_INVALID ;;; io_ret (Some (Z.of_nat i))
  | None =>
      if OS_MAX_MINOR <=? max then io_ret None else
      io_modify (fun h => set_os_max h (max + 1)) ;;;
      set_slot max OS_DATA_INVALID ;;;
      io_ret (Some max)
  end.

(** From cdev_add on; [inr]: goto error. *)
Definition publish_os (e : create_env) (os minor : Z) : io host (Z + Z) :=
  if negb (ce_cdev e) then io_ret (inr (- ENOMEM)) else
  if ce_lock_sig e then io_ret (inl (- ERESTARTSYS)) else
  set_slot minor os ;;;
  upd_os os (fun o => o_set_minor o minor) ;;;
  if negb (ce_device e) then io_ret (inr (- ENOMEM)) else
  io_ret (inl minor).

(** __ihk_device_create_os *)
Definition __ihk_device_create_os (e : create_env) (dev arg : Z) : io host Z :=
  r <- take_slot ;;
  match r with
  | None => io_ret (- ENOMEM)
  | Some minor =>
      ret <- __ihk_device_create_os_init e dev arg ;;
      if negb (ret =? 0) then set_slot minor 0 ;;; io_ret ret else
      let os := ce_os e in
      let error cont ret := on_pool (delete_kmsg_buf cont) ;;; __ihk_device_destroy_os (ce_msig e) (ce_sig e) dev os ;;; io_ret ret in
      order <- io_lift (kmsg_order 64 kmsg_buf_size 0) ;;
      if negb (ce_pages e) then error 0 (- ENOMEM) else
      on_pool release_stray ;;;
      if ce_cont e =? 0 then error 0 (- ENOMEM) else
      on_pool (add_kmsg_buf (ce_cont e) minor order) ;;;
      r <- publish_os e os minor ;;
      match r with
      | inl ret => io_ret ret
      | inr ret => error (ce_cont e) ret
      end
  end.

(** ihk_device_create_os: the instance, or NULL. *)
Definition ihk_device_create_os (e : create_env) (dev arg : Z) : io host Z :=
  ret <- __ihk_device_create_os e dev arg ;;
  if 0 <=? ret then get_slot ret else io_ret 0.

(** ** Kernel messages *)

(** __ihk_os_read_kmsg: [km] whether kmalloc succeeds, [uok] whether the copy
    to user space does; the result and the text. *)
Definition __ihk_os_read_kmsg (km uok : bool) (os : Z) : io host (Z * list Z) :=
  o <- get_os os ;;
  if o_kmsg o =? 0 then io_ret (- EINVAL, []) else
  c <- on_pool (get_cont (o_kmsg o)) ;;
  if bool_decide (ct_kmsg_buf c = None) then io_ret (- EINVAL, []) else
  if negb km then io_ret (- ENOMEM, []) else
  ' (ret, text, b) <- io_lift (read_kmsg (ct_kmsg_buf c) 0) ;;
  on_pool (put_cont (o_kmsg o) (ct_set_buf c b)) ;;;
  if ret <? 0 then io_ret (ret, []) else
  if negb uok then io_ret (- EINVAL, []) else io_ret (ret, text).

(** __ihk_os_clear_kmsg *)
Definition __ihk_os_clear_kmsg (os : Z) : io host Z :=
  o <- get_os os ;;
  if o_kmsg o =? 0 then io_ret (- EINVAL) else
  c <- on_pool (get_cont (o_kmsg o)) ;;
  match ct_kmsg_buf c with
  | None => io_ret (- EINVAL)
  | Some b =>
      b <- io_lift (clear_kmsg b) ;;
      on_pool (put_cont (o_kmsg o) (ct_set_buf c (Some b))) ;;; io_ret 0
  end.

(** __ihk_device_get_kmsg_buf: [desc] is the field os_index if the descriptor
    can be read, [uok] whether it can be written; the result and the handle. *)
Definition __ihk_device_get_kmsg_buf (desc : option Z) (uok : bool) : io host (Z * Z) :=
  match desc with
  | None => io_ret (- EFAULT, 0)
  | Some os_index =>
      r <- on_pool (latest_kmsg_buf os_index) ;;
      match r with
      | None => io_ret (- ENOENT, 0)
      | Some cont => if uok then io_ret (0, cont) else io_ret (- EFAULT, 0)
      end
  end.

(** __ihk_device_read_kmsg_buf: [desc] is the handle and the field shift. *)
Definition __ihk_device_read_kmsg_buf (desc : option (Z * Z)) (km uok : bool) : io host (Z * list Z) :=
  match desc with
  | None => io_ret (- EFAULT, [])
  | Some (handle, shift) =>
      if negb km then io_ret (- ENOMEM, []) else
      c <- on_pool (get_cont handle) ;;
      ' (ret, text, b) <- io_lift (read_kmsg (ct_kmsg_buf c) shift) ;;
      on_pool (put_cont handle (ct_set_buf c b)) ;;;
      if ret <? 0 then io_ret (ret, []) else
      if negb uok then io_ret (- EINVAL, []) else io_ret (ret, text)
  end.

(** __ihk_device_release_kmsg_buf *)
Definition __ihk_device_release_kmsg_buf (handle : Z) : io host Z := on_pool (release_kmsg_buf handle).

(** The case IHK_DEVICE_DESTROY_OS of ihk_host_device_ioctl: the test lets one
    index too many through. *)
Definition ioctl_destroy_os (msig sig : bool) (dev arg : Z) : io host Z :=
  if OS_MAX_MINOR <? arg then io_ret (- EINVAL) else
  os <- get_slot arg ;;
  if os =? 0 then io_ret (- EINVAL) else
  __ihk_device_destroy_os msig sig dev os.

(** ** Devices *)

(** The device file: ihk_host_device_open, ihk_host_device_release. *)
Definition ihk_host_device_open (idx file : Z) : io host Z :=
  max <- io_gets h_dev_max_minor ;;
  if (idx <? 0) || (max <? idx) then io_ret (- EINVAL) else
  dev <- get_dev_slot idx ;;
  if (dev =? 0) || (dev =? DEV_DATA_INVALID) then io_ret (- EINVAL) else
  d <- get_dev dev ;;
  if (Z.land (d_flag d) IHK_DEVICE_FLAG_SHARABLE =? 0) && negb (d_refcount d =? 0) then io_ret (- EBUSY) else
  upd_dev dev (fun d => d_set_refcount d (s32 (d_refcount d + 1))) ;;;
  ret <- match dv_open (d_ops d) with Some f => on_drv (f dev (d_priv d) file) | None => io_ret 0 end ;;
  if negb (ret =? 0) then
    upd_dev dev (fun d => d_set_refcount d (s32 (d_refcount d - 1))) ;;; io_ret ret
  else
  io_modify (fun h => set_dev_files h (<[file := dev]> (h_dev_files h))) ;;;
  io_ret 0.

Definition ihk_host_device_release (file : Z) : io host Z :=
  h <- io_gets id ;;
  dev <- io_some (h_dev_files h !! file) ;;
  d <- get_dev dev ;;
  match dv_close (d_ops d) with Some f => on_drv (f dev (d_priv d) file) | None => io_ret 0 end ;;;
  upd_dev dev (fun d => d_set_refcount d (s32 (d_refcount d - 1))) ;;;
  io_modify (fun h => set_dev_files h (delete file (h_dev_files h))) ;;;
  io_ret 0.

(** What Linux gives a registration: the device (0: kzalloc fails), the
    character device and the device file. *)
Record reg_env : Type := mk_re { re_dev : Z; re_cdev : bool; re_device : bool }.

Definition take_dev_slot : io host (option Z) :=
  h <- io_gets id ;;
  let max := h_dev_max_minor h in
  match list_find (fun q => q = 0) (take (Z.to_nat max) (h_dev_data h)) with
  | Some (i, _) => set_dev_slot (Z.of_nat i) DEV_DATA_INVALID ;;; io_ret (Some (Z.of_nat i))
  | None =>
      if DEV_MAX_MINOR <=? max then io_ret None else
      io_modify (fun h => set_dev_max h (max + 1)) ;;;
      set_dev_slot max DEV_DATA_INVALID ;;;
      io_ret (Some max)
  end.

(** ihk_register_device (0 is NULL).  A failing init takes a minor number back,
    but from the table of instances. *)
Definition ihk_register_device (e : reg_env) (flag : Z) (ops : ihk_device_ops D) (priv : Z) : io host Z :=
  r <- take_dev_slot ;;
  match r with
  | None => io_ret 0
  | Some minor =>
      let dev := re_dev e in
      if dev =? 0 then set_dev_slot minor 0 ;;; io_ret 0 else
      io_modify (fun h => set_devs h (<[dev := mk_dev flag 0 0 ops priv]> (h_devs h))) ;;;
      ret <- match dv_init ops with Some f => on_drv (f dev priv) | None => io_ret 0 end ;;
      if negb (ret =? 0) then
        io_modify (fun h => if minor + 1 =? h_os_max_minor h then set_os_max h (h_os_max_minor h - 1) else h) ;;;
        io_modify (fun h => set_devs h (delete dev (h_devs h))) ;;;
        set_dev_slot minor 0 ;;; io_ret 0
      else
      if negb (re_cdev e) || negb (re_device e) then set_dev_slot minor 0 ;;; io_ret 0 else
      set_dev_slot minor dev ;;;
      upd_dev dev (fun d => mk_dev (d_flag d) minor (d_refcount d) (d_ops d) (d_priv d)) ;;;
      io_ret dev
  end.

(** __destroy_all_os: the slot is empty while its instance is destroyed, and is
    filled again when that fails. *)
Fixpoint destroy_from (sg : Z -> bool * bool) (dev i : Z) (n : nat) : io host Z :=
  match n with
  | O => io_ret 0
  | S n' =>
      os <- get_slot i ;;
      if (os =? 0) || (os =? OS_DATA_INVALID) then destroy_from sg dev (i + 1) n' else
      o <- get_os os ;;
      if negb (o_dev_data o =? dev) then destroy_from sg dev (i + 1) n' else
      set_slot i 0 ;;;
      r <- __ihk_device_destroy_os (sg i).1 (sg i).2 dev os ;;
      if negb (r =? 0) then set_slot i os ;;; io_ret r else
      destroy_from sg dev (i + 1) n'
  end.
Definition __destroy_all_os (sg : Z -> bool * bool) (dev : Z) : io host Z :=
  max <- io_gets h_os_max_minor ;; destroy_from sg dev 0 (Z.to_nat max).

(** ihk_unregister_device *)
Definition ihk_unregister_device (sg : Z -> bool * bool) (dev : Z) : io host Z :=
  d <- get_dev dev ;;
  if 0 <? d_refcount d then io_ret (- EBUSY) else
  r <- __destroy_all_os sg dev ;;
  if negb (r =? 0) then io_ret (- EBUSY) else
  on_pool release_all ;;;
  match dv_exit (d_ops d) with Some f => on_drv (f dev (d_priv d)) | None => io_ret 0 end ;;;
  set_dev_slot (d_minor d) 0 ;;;
  io_modify (fun h => set_devs h (delete dev (h_devs h))) ;;;
  io_ret 0.

(** ihk_panic: a claimed slot is followed like an instance. *)
Fixpoint panic_from (i : Z) (n : nat) : io host unit :=
  match n with
  | O => io_ret tt
  | S n' =>
      os <- get_slot i ;;
      (if os =? 0 then io_ret tt else
       o <- get_os os ;;
       ops <- io_some (o_ops o) ;;
       match op_panic_notifier ops with Some f => on_drv (f os (o_priv o)) ;;; io_ret tt | None => io_ret tt end) ;;;
      panic_from (i + 1) n'
  end.
Definition ihk_panic : io host unit := max <- io_gets h_os_max_minor ;; panic_from 0 (Z.to_nat max).

(** ** Notifiers *)

(** ihk_host_register_os_notifier, ihk_host_deregister_os_notifier; [sig]: the
    wait is interrupted. *)
Definition ihk_host_register_os_notifier (sig : bool) (ion : ihk_os_notifier D) : io host Z :=
  if sig then io_ret (- ERESTARTSYS) else
  io_modify (fun h =>
    if existsb (fun n => n_addr n =? n_addr ion) (h_notifiers h) then h
    else set_notifiers h (h_notifiers h ++ [ion])) ;;;
  io_ret 0.
Definition ihk_host_deregister_os_notifier (sig : bool) (ion : ihk_os_notifier D) : io host Z :=
  if sig then io_ret (- ERESTARTSYS) else
  io_modify (fun h => set_notifiers h (List.filter (fun n => negb (n_addr n =? n_addr ion)) (h_notifiers h))) ;;;
  io_ret 0.
End ops.

(** ** Contract of a driver

    Driver operations return, from every state of the driver that satisfies
    its invariant [I], to such a state. *)

Definition total {D A} (I : D -> Prop) (m : io D A) : Prop :=
  forall d, I d -> exists a d', m d = Ret (a, d') /\ I d'.

Section contract.
Context {D : Type} (I : D -> Prop).

Definition op_total {F} (o : op F) (ok : F -> Prop) : Prop := forall f p v, o = Some f -> ok (f p v).

(** The operations that the functions above call. *)
Record os_ops_ok (ops : ihk_os_ops D) : Prop := {
  ok_open : op_total (op_open ops) (fun f => forall file, total I (f file));
  ok_close : op_total (op_close ops) (fun f => forall file, total I (f file));
  ok_boot : op_total (op_boot ops) (fun f => forall flag, total I (f flag));
  ok_shutdown : op_total (op_shutdown ops) (fun f => forall flag, total I (f flag));
  ok_has_shutdown : is_Some (op_shutdown ops);
  ok_query_status : op_total (op_query_status ops) (total I);
  ok_wait : op_total (op_wait_for_status ops) (fun f => forall s b t, total I (f s b t));
  ok_nmi : op_total (op_send_nmi ops) (fun f => forall m, total I (f m));
  ok_freeze : op_total (op_freeze ops) (total I);
  ok_thaw : op_total (op_thaw ops) (total I);
}.

Record dev_ops_ok (ops : ihk_device_ops D) : Prop := {
  ok_create_os : op_total (dv_create_os ops) (fun f => forall arg os d, I d ->
    exists r reg d', f arg os d = Ret (r, reg, d') /\ I d' /\ (r = 0 -> exists oo, ro_ops reg = Some oo /\ os_ops_ok oo));
  ok_has_create_os : is_Some (dv_create_os ops);
  ok_destroy_os : op_total (dv_destroy_os ops) (fun f => forall os v, total I (f os v));
}.

Record notifier_ok (n : ihk_os_notifier D) : Prop := {
  nok_boot : forall f i, n_boot n = Some f -> total I (f i);
  nok_shutdown : forall f i, n_shutdown n = Some f -> total I (f i);
}.

Class MasterOk `{IkcMaster D} : Prop := {
  mok_init : forall os, total I (im_init os);
  mok_finalize : forall os, total I (im_finalize os);
}.

(** ** Runs that change the driver's state only *)

Definition runs {A} (h : host D) (m : io (host D) A) : Prop :=
  forall d, I d -> exists a d', m (set_drv h d) = Ret (a, set_drv h d') /\ I d'.

Lemma runs_ret {A} h (a : A) : runs h (io_ret a).
Proof. intros d Hd. by exists a, d. Qed.

Lemma runs_bind {A B} h (m : io (host D) A) (k : A -> io (host D) B) :
  runs h m -> (forall a, runs h (k a)) -> runs h (io_bind m k).
Proof.
  intros Hm Hk d Hd. destruct (Hm d Hd) as (a & d1 & E & H1). destruct (Hk a d1 H1) as (b & d2 & E2 & H2).
  exists b, d2. by rewrite (io_bind_ret _ _ _ _ _ E).
Qed.

Lemma runs_drv {A} h (m : io D A) : total I m -> runs h (on_drv m).
Proof. intros Hm d Hd. destruct (Hm d Hd) as (a & d' & E & H). exists a, d'. unfold on_drv. simpl. by rewrite E. Qed.

Lemma runs_gets {A B} h (f : host D -> A) (k : A -> io (host D) B) :
  (forall d, f (set_drv h d) = f h) -> runs h (k (f h)) -> runs h (io_bind (io_gets f) k).
Proof. intros Hf Hk d Hd. unfold io_bind, io_gets. rewrite Hf. by apply Hk. Qed.

Lemma runs_get_os {B} h p o (k : ihk_host_linux_os_data D -> io (host D) B) :
  h_oses h !! p = Some o -> runs h (k o) -> runs h (io_bind (get_os p) k).
Proof. intros Hp Hk d Hd. unfold io_bind, get_os, io_gets, io_some. simpl. unfold io_bind. simpl. rewrite Hp. by apply Hk. Qed.

Lemma runs_some {A B} h x (o : option A) (k : A -> io (host D) B) :
  o = Some x -> runs h (k x) -> runs h (io_bind (io_some o) k).
Proof. intros -> Hk. exact Hk. Qed.

Lemma runs_iter {A} h (f : A -> io (host D) unit) l : (forall x, x ∈ l -> runs h (f x)) -> runs h (io_iter f l).
Proof.
  induction l as [|x l IH]; intros Hf; simpl; [apply runs_ret|].
  apply runs_bind; [apply Hf; by left|]. intros []. apply IH. intros y Hy. apply Hf. by right.
Qed.

Lemma runs_eval {A} h (m : io (host D) A) :
  I (h_drv h) -> runs h m -> exists a d, m h = Ret (a, set_drv h d) /\ I d.
Proof. intros Hd Hm. destruct (Hm (h_drv h) Hd) as (a & d & E & H). exists a, d. by destruct h. Qed.
End contract.

(** An instance whose operations keep the contract. *)
Definition os_at {D} (I : D -> Prop) (h : host D) (p : Z) (o : ihk_host_linux_os_data D) : Prop :=
  h_oses h !! p = Some o /\ exists ops, o_ops o = Some ops /\ os_ops_ok I ops.

Ltac runs_if := match goal with |- runs _ _ (if ?b then _ else _) => destruct b end.

Section runs_os.
Context {D : Type} `{IM : !IkcMaster D} (I : D -> Prop) `{MO : !MasterOk I}.
Context (h : host D) (os : Z) (o : ihk_host_linux_os_data D) (Hos : os_at I h os o).

Lemma runs_body {F} (sel : ihk_os_ops D -> op F) (k : F -> io D Z) :
  (forall ops, os_ops_ok I ops -> op_total (sel ops) (fun f => total I (k f))) -> runs I h (os_body sel os k).
Proof.
  intros Hsel. destruct Hos as (H1 & ops & H2 & H3). eapply runs_get_os; [done|]. eapply runs_some; [done|].
  destruct (sel ops) as [f|] eqn:E; [|apply runs_ret]. apply runs_drv. by apply (Hsel ops H3 f).
Qed.

Lemma runs_status : runs I h (__ihk_os_status os).
Proof. apply runs_body. intros ops Hok f p v Hf. apply (ok_query_status _ _ Hok f p v Hf). Qed.
Lemma runs_wait s b t : runs I h (ihk_os_wait_for_status os s b t).
Proof. apply runs_body. intros ops Hok f p v Hf. apply (ok_wait _ _ Hok f p v Hf). Qed.
Lemma runs_nmi m : runs I h (ihk_os_send_nmi os m).
Proof. apply runs_body. intros ops Hok f p v Hf. apply (ok_nmi _ _ Hok f p v Hf). Qed.

(** An optional operation, skipped when missing. *)
Lemma runs_opt {F A} (sel : ihk_os_ops D -> op F) (k : F -> io D A) (z : A) ops :
  o_ops o = Some ops -> op_total (sel ops) (fun f => total I (k f)) ->
  runs I h (match sel ops with Some f => on_drv (k (f os (o_priv o))) | None => io_ret z end).
Proof. intros _ Ht. destruct (sel ops) as [f|] eqn:E; [|apply runs_ret]. apply runs_drv. by apply (Ht f). Qed.

Lemma runs_thaw : runs I h (__ihk_os_thaw os).
Proof.
  apply runs_bind; [apply runs_status|]. intros st. runs_if; [apply runs_ret|].
  apply runs_bind; [runs_if; [apply runs_wait|apply runs_ret]|]. intros _.
  destruct Hos as (H1 & ops & H2 & H3). eapply runs_get_os; [done|]. eapply runs_some; [done|].
  apply (runs_opt op_thaw (fun f => f)); [done|]. apply (ok_thaw _ _ H3).
Qed.

Lemma runs_await_running : runs I h (await_running os).
Proof.
  apply runs_bind; [apply runs_wait|]. intros r. runs_if; [|apply runs_ret].
  apply runs_bind; [apply runs_nmi|intros _; apply runs_ret].
Qed.
Lemma runs_await_ready : runs I h (await_ready os).
Proof. apply runs_bind; [apply runs_wait|intros _; apply runs_await_running]. Qed.
Lemma runs_thaw_first : runs I h (thaw_first os).
Proof. apply runs_bind; [apply runs_thaw|intros _; apply runs_await_ready]. Qed.
Lemma runs_await_frozen : runs I h (await_frozen os).
Proof. apply runs_bind; [apply runs_wait|intros _; apply runs_thaw_first]. Qed.

Lemma runs_notify_shutdown index : Forall (notifier_ok I) (h_notifiers h) ->
  runs I h (l <- io_gets h_notifiers ;; io_iter (notify_shutdown index) l).
Proof.
  intros Hn. apply runs_gets; [done|]. apply runs_iter. intros n Hin. rewrite Forall_forall in Hn.
  unfold notify_shutdown. destruct (n_shutdown n) as [f|] eqn:E; [|apply runs_ret].
  apply runs_bind; [|intros _; apply runs_ret]. apply runs_drv. by apply (nok_shutdown _ _ (Hn n Hin)).
Qed.

Lemma runs_notify_boot index flag l ret : Forall (notifier_ok I) l -> runs I h (notify_boot os index flag l ret).
Proof.
  revert ret. induction l as [|n l IH]; intros ret Hn; simpl; [apply runs_ret|].
  apply Forall_cons in Hn as [Hn Hl]. destruct (n_boot n) as [f|] eqn:E; [|by apply IH].
  apply runs_bind; [apply runs_drv; by apply (nok_boot _ _ Hn)|]. intros r. runs_if; [|by apply IH].
  apply runs_bind; [apply runs_drv; apply (mok_finalize I)|]. intros _.
  destruct Hos as (H1 & ops & H2 & H3). eapply runs_get_os; [done|]. eapply runs_some; [done|].
  destruct (ok_has_shutdown _ _ H3) as [f' Hf']. eapply runs_some; [done|].
  apply runs_bind; [apply runs_drv; by apply (ok_shutdown _ _ H3 f')|intros _; apply runs_ret].
Qed.
End runs_os.
