(* ===== verification/HostInv.v ===== *)
(** * Safety of the host driver core

    The invariant of the table of instances, the open files and the message
    buffers of host_driver.c, and that every request keeps it: no request
    reaches a freed or invalid pointer. *)

From stdpp Require Import base tactics numbers list gmap.
From S2P Require Import Prelude Kmsg HostData HostOs.

Open Scope ihk_scope.

(** ** Pointers stored in a map *)

Definition mrefs {A} (f : A -> Z) (m : gmap Z A) : list Z := (fun kv => f kv.2) <$> map_to_list m.

Lemma mrefs_empty {A} (f : A -> Z) : mrefs f ∅ = [].
Proof. unfold mrefs. by rewrite map_to_list_empty. Qed.

Lemma mrefs_new {A} (f : A -> Z) m k v : m !! k = None -> mrefs f (<[k := v]> m) ≡ₚ f v :: mrefs f m.
Proof. intros H. unfold mrefs. by rewrite map_to_list_insert. Qed.

Lemma mrefs_delete {A} (f : A -> Z) m k v : m !! k = Some v -> mrefs f m ≡ₚ f v :: mrefs f (delete k m).
Proof. intros H. unfold mrefs. by rewrite <- (map_to_list_delete m k v H). Qed.

Lemma mrefs_replace {A} (f : A -> Z) m k v v' : m !! k = Some v -> f v :: mrefs f (<[k := v']> m) ≡ₚ f v' :: mrefs f m.
Proof.
  intros H. rewrite <- insert_delete_eq, (mrefs_new f (delete k m)) by apply lookup_delete_eq.
  rewrite (mrefs_delete f m k v H). apply perm_swap.
Qed.

Lemma mrefs_same {A} (f : A -> Z) m k v v' : m !! k = Some v -> f v' = f v -> mrefs f (<[k := v']> m) ≡ₚ mrefs f m.
Proof. intros H E. apply (Permutation_cons_inv (a := f v)). rewrite (mrefs_replace f m k v v' H). by rewrite E. Qed.

Lemma mrefs_in {A} (f : A -> Z) m k v : m !! k = Some v -> f v ∈ mrefs f m.
Proof. intros H. rewrite (mrefs_delete f m k v H). by left. Qed.

(** ** The invariant

    [handles]: the containers whose handles the monitor daemon holds. *)
Section inv.
Context {D : Type} `{IM : !IkcMaster D} (I : D -> Prop).
Abbreviation host := (host D).

Definition file_refs (h : host) : list Z := mrefs f_osdata (h_files h).
Definition os_refs (h : host) : list Z := mrefs o_kmsg (h_oses h).

(** An instance: valid pointers, a minor number of the table, and as many
    references as open files. *)
Record os_ok (h : host) (p : Z) (o : ihk_host_linux_os_data D) : Prop := {
  ook_ptr : p <> 0 /\ p <> OS_DATA_INVALID;
  ook_minor : 0 <= o_minor o < OS_MAX_MINOR;
  ook_flag : o_flag o = IHK_OS_FLAG_SHARABLE;
  ook_ops : exists ops, o_ops o = Some ops /\ os_ops_ok I ops;
  ook_count : o_refcount o = occ p (file_refs h);
}.

Record hinv (handles : list Z) (h : host) : Prop := {
  hi_len : Z.of_nat (length (h_os_data h)) = OS_MAX_MINOR;
  hi_max : 0 <= h_os_max_minor h <= OS_MAX_MINOR;
  hi_above : forall i p, h_os_data h !! i = Some p -> h_os_max_minor h <= Z.of_nat i -> p = 0;
  hi_slot : forall i p, h_os_data h !! i = Some p -> p <> 0 -> p <> OS_DATA_INVALID ->
            exists o, h_oses h !! p = Some o /\ o_minor o = Z.of_nat i;
  hi_os : forall p o, h_oses h !! p = Some o -> os_ok h p o;
  hi_file : forall f x, h_files h !! f = Some x ->
            is_Some (h_oses h !! f_osdata x) /\ forall g v, f_release x = Some g -> total I (g (f_osdata x) v);
  hi_dev : forall p d, h_devs h !! p = Some d -> dev_ops_ok I (d_ops d);
  hi_notifiers : Forall (notifier_ok I) (h_notifiers h);
  hi_drv : I (h_drv h);
  hi_pool : pool_inv (os_refs h ++ handles) (h_pool h);
}.

(** ** How the invariant moves with the state *)

Lemma hinv_drv handles h d : hinv handles h -> I d -> hinv handles (set_drv h d).
Proof. intros [H1 H2 H3 H4 H5 H6 H7 H8 H9 H10] Hd. split; try done. intros p o Ho. destruct (H5 p o Ho). by split. Qed.

Lemma hinv_pool handles handles' h s :
  hinv handles h -> pool_inv (os_refs h ++ handles') s -> hinv handles' (set_pool h s).
Proof. intros [H1 H2 H3 H4 H5 H6 H7 H8 H9 H10] Hs. split; try done. intros p o Ho. destruct (H5 p o Ho). by split. Qed.

Lemma hinv_os_at handles h p o : hinv handles h -> h_oses h !! p = Some o -> os_at I h p o.
Proof. intros Hi Ho. split; [done|]. apply (ook_ops _ _ _ (hi_os _ _ Hi p o Ho)). Qed.

(** An instance whose container changes, and with it the references. *)
Lemma hinv_kmsg handles handles' h p o v s :
  hinv handles h -> h_oses h !! p = Some o ->
  (forall refs, os_refs h ≡ₚ o_kmsg o :: refs -> pool_inv (v :: refs ++ handles') s) ->
  hinv handles' (set_pool (set_oses h (<[p := o_set_kmsg o v]> (h_oses h))) s).
Proof.
  intros Hi Ho Hs. pose proof (mrefs_delete o_kmsg _ p o Ho) as Hr.
  destruct Hi as [H1 H2 H3 H4 H5 H6 H7 H8 H9 H10]. split; try done.
  - intros i q Hq Hn0 HnI. destruct (H4 i q Hq Hn0 HnI) as (o' & Ho' & Hm). simpl.
    destruct (decide (q = p)) as [->|]; [|by rewrite lookup_insert_ne; eauto].
    rewrite lookup_insert_eq. eexists. split; [done|]. simpl. congruence.
  - intros q o'. simpl. destruct (decide (q = p)) as [->|].
    + rewrite lookup_insert_eq. intros [= <-]. destruct (H5 p o Ho). by split.
    + rewrite lookup_insert_ne by done. intros Ho'. destruct (H5 q o' Ho'). by split.
  - intros f x Hx. destruct (H6 f x Hx) as [Hs' Hg]. split; [|done]. simpl.
    destruct (decide (f_osdata x = p)) as [E|]; [rewrite E, lookup_insert_eq; eauto|by rewrite lookup_insert_ne].
  - specialize (Hs _ Hr). revert Hs. apply pool_inv_proper; [|done]. unfold os_refs. simpl.
    rewrite <- insert_delete_eq, (mrefs_new o_kmsg) by apply lookup_delete_eq. done.
Qed.

(** A file is opened or closed, and its instance counted. *)
Lemma hinv_files handles h p o n fs :
  hinv handles h -> h_oses h !! p = Some o ->
  (forall q, q <> p -> occ q (mrefs f_osdata fs) = occ q (file_refs h)) -> occ p (mrefs f_osdata fs) = n ->
  (forall f x, fs !! f = Some x -> is_Some (h_oses h !! f_osdata x) /\ forall g v, f_release x = Some g -> total I (g (f_osdata x) v)) ->
  hinv handles (set_files (set_oses h (<[p := o_set_refcount o n]> (h_oses h))) fs).
Proof.
  intros Hi Ho Hq Hp Hf. destruct Hi as [H1 H2 H3 H4 H5 H6 H7 H8 H9 H10]. split; try done.
  - intros i q Hi Hn0 HnI. destruct (H4 i q Hi Hn0 HnI) as (o' & Ho' & Hm). simpl.
    destruct (decide (q = p)) as [->|]; [|by rewrite lookup_insert_ne; eauto].
    rewrite lookup_insert_eq. eexists. split; [done|]. simpl. congruence.
  - intros q o'. simpl. destruct (decide (q = p)) as [->|].
    + rewrite lookup_insert_eq. intros [= <-]. destruct (H5 p o Ho). by split.
    + rewrite lookup_insert_ne by done. intros Ho'. destruct (H5 q o' Ho') as [? ? ? ? E]. split; try done.
      rewrite E. symmetry. by apply Hq.
  - intros f x Hx. destruct (Hf f x Hx) as [Hs' Hg]. split; [|done]. simpl.
    destruct (decide (f_osdata x = p)) as [E|]; [rewrite E, lookup_insert_eq; eauto|by rewrite lookup_insert_ne].
  - revert H10. apply pool_inv_proper; [|done]. unfold os_refs. simpl. by rewrite (mrefs_same o_kmsg _ p o).
Qed.

(** ** Reading the state *)

Lemma get_slot_ret handles h i : hinv handles h -> 0 <= i < OS_MAX_MINOR ->
  exists p, h_os_data h !! Z.to_nat i = Some p /\ get_slot i h = Ret (p, h).
Proof.
  intros Hi Hr. destruct (lookup_lt_is_Some_2 (h_os_data h) (Z.to_nat i)) as [p Hp].
  { pose proof (hi_len _ _ Hi). lia. }
  exists p. split; [done|]. unfold get_slot, io_bind, io_gets, io_lift, aget. simpl.
  rewrite (proj2 (Z.leb_le 0 i)) by lia. unfold id. by rewrite Hp.
Qed.

Lemma get_os_ret (h : host) p o : h_oses h !! p = Some o -> get_os p h = Ret (o, h).
Proof. intros H. unfold get_os, io_bind, io_gets, io_some. simpl. unfold id. by rewrite H. Qed.

Lemma upd_os_ret (h : host) p o f : h_oses h !! p = Some o -> upd_os p f h = Ret (tt, set_oses h (<[p := f o]> (h_oses h))).
Proof. intros H. unfold upd_os. by rewrite (io_bind_ret _ _ _ _ _ (get_os_ret h p o H)). Qed.

Lemma get_file_ret (h : host) f x : h_files h !! f = Some x -> get_file f h = Ret (x, h).
Proof. intros H. unfold get_file, io_bind, io_gets, io_some. simpl. unfold id. by rewrite H. Qed.

(** A step of the driver in the middle of a request. *)
Lemma runs_step {A B} h (m : io host A) (k : A -> io host B) (Q : outcome (B * host) -> Prop) :
  I (h_drv h) -> runs I h m -> (forall a d, I d -> Q (k a (set_drv h d))) -> Q (io_bind m k h).
Proof.
  intros Hd Hm HQ. destruct (runs_eval I h m Hd Hm) as (a & d & E & H). rewrite (io_bind_ret _ _ _ _ _ E). by apply HQ.
Qed.
End inv.

(** A run that ends in a state with the invariant. *)
Definition safe {D A} (P : A -> host D -> Prop) (r : outcome (A * host D)) : Prop :=
  match r with Ret (a, h) => P a h | Undef => False end.

Ltac step H := rewrite (io_bind_ret _ _ _ _ _ H); cbv beta.

Section safety.
Context {D : Type} `{IM : !IkcMaster D} (I : D -> Prop) `{MO : !MasterOk I}.
Abbreviation host := (host D).
Abbreviation hinv := (hinv I).

(** ** Open and close *)

(** No instance is near the limit of its reference count. *)
Definition refcounts_low (h : host) : Prop := forall p o, h_oses h !! p = Some o -> o_refcount o < 2 ^ 31 - 1.

Lemma open_safe handles h idx file :
  hinv handles h -> refcounts_low h -> h_files h !! file = None -> idx < OS_MAX_MINOR ->
  safe (fun _ => hinv handles) (ihk_host_os_open true idx file h).
Proof.
  intros Hi Hlow Hf Hidx. unfold ihk_host_os_open. erewrite io_bind_ret by done. cbv beta.
  destruct (Z.ltb_spec idx 0); [exact Hi|]. destruct (Z.ltb_spec (h_os_max_minor h) idx); [exact Hi|]. cbn [orb].
  destruct (get_slot_ret I handles h idx Hi) as (p & Hp & E); [lia|]. step E.
  destruct (Z.eqb_spec p 0); [exact Hi|]. destruct (Z.eqb_spec p OS_DATA_INVALID); [exact Hi|]. cbn [orb].
  destruct (hi_slot _ _ _ Hi _ p Hp) as (o & Ho & Hm); [done..|]. step (get_os_ret h p o Ho).
  destruct (hi_os _ _ _ Hi p o Ho) as [_ _ Hfl (ops & Hops & Hok) Hc]. rewrite Hfl.
  change (Z.land IHK_OS_FLAG_SHARABLE IHK_OS_FLAG_SHARABLE =? 0) with false. cbn [andb].
  step (upd_os_ret h p o (fun o => o_set_refcount o (s32 (o_refcount o + 1))) Ho). cbn [negb]. rewrite Hops. cbn [io_some].
  erewrite io_bind_ret by done. cbv beta. specialize (Hlow p o Ho). pose proof (occ_nonneg p (file_refs h)) as Hnn.
  rewrite s32_small by lia. set (h1 := set_oses h _).
  apply (runs_step I h1); [exact (hi_drv _ _ _ Hi)| |].
  { apply (runs_opt I h1 p o op_open (fun f => f file)); [done|]. intros f a v Hfo. by apply (ok_open _ _ Hok f a v). }
  intros ret d Hd. destruct (Z.eqb_spec ret 0) as [->|]; cbn [negb].
  - change (hinv handles (set_drv (set_files h1 (<[file := mk_file p None 0 0]> (h_files h))) d)).
    apply hinv_drv; [|done]. apply hinv_files; [done..| | |].
    + intros q Hq. rewrite mrefs_new by done. simpl. by rewrite (proj2 (Z.eqb_neq p q)).
    + rewrite mrefs_new by done. simpl. rewrite Z.eqb_refl. unfold file_refs in Hc. lia.
    + intros g x. simpl. destruct (decide (g = file)) as [->|].
      * rewrite lookup_insert_eq. intros [= <-]. simpl. split; [eauto|done].
      * rewrite lookup_insert_ne by done. apply (hi_file _ _ _ Hi).
  - erewrite io_bind_ret by (apply upd_os_ret; simpl; apply lookup_insert_eq). unfold safe, io_ret. simpl.
    rewrite insert_insert_eq. cbn [o_set_refcount o_refcount]. rewrite s32_small, Z.add_simpl_r by lia.
    apply (hinv_drv I handles (set_files (set_oses h _) (h_files h))); [|done].
    apply (hinv_files I handles h p o _ (h_files h)); [done..|]. apply (hi_file _ _ _ Hi).
Qed.

Lemma release_safe handles h file x :
  hinv handles h -> h_files h !! file = Some x -> refcounts_low h ->
  safe (fun _ => hinv handles) (ihk_host_os_release file h).
Proof.
  intros Hi Hx Hlow. unfold ihk_host_os_release. step (get_file_ret h file x Hx). cbv zeta.
  destruct (hi_file _ _ _ Hi file x Hx) as [[o Ho] Hrel].
  destruct (hi_os _ _ _ Hi _ o Ho) as [_ _ _ (ops & Hops & Hok) Hc]. set (p := f_osdata x) in *.
  apply (runs_step I h); [exact (hi_drv _ _ _ Hi)| |].
  { destruct (f_release x) as [g|] eqn:Eg; [|apply runs_ret]. apply runs_drv. by apply Hrel. }
  intros [] d Hd. erewrite io_bind_ret by (by apply get_os_ret). cbv beta. rewrite Hops. cbn [io_some].
  erewrite io_bind_ret by done. cbv beta. apply (runs_step I (set_drv h d)); [done| |].
  { apply (runs_opt I (set_drv h d) p o op_close (fun f => f file)); [done|]. intros f a v Hfo. by apply (ok_close _ _ Hok f a v). }
  intros _ d2 Hd2. erewrite io_bind_ret by (by apply upd_os_ret). cbv beta.
  change (hinv handles (set_drv (set_files (set_oses h (<[p := o_set_refcount o (s32 (o_refcount o - 1))]> (h_oses h))) (delete file (h_files h))) d2)).
  specialize (Hlow p o Ho). pose proof (occ_nonneg p (file_refs h)) as Hnn.
  pose proof (mrefs_delete f_osdata (h_files h) file x Hx) as Hdel. fold p in Hdel.
  assert (occ p (file_refs h) = 1 + occ p (mrefs f_osdata (delete file (h_files h)))) as Hocc.
  { unfold file_refs. rewrite Hdel. simpl. by rewrite Z.eqb_refl. }
  pose proof (occ_nonneg p (mrefs f_osdata (delete file (h_files h)))).
  apply hinv_drv; [|done]. apply hinv_files; [done..| | |].
  - intros q Hq. unfold file_refs. rewrite Hdel. simpl. by rewrite (proj2 (Z.eqb_neq p q)).
  - rewrite s32_small by lia. simpl. lia.
  - intros g y [_ Hy]%lookup_delete_Some. by apply (hi_file _ _ _ Hi g).
Qed.

(** ** Shutdown *)

(** What a shutdown may change: the container of the instance, the containers
    and the driver. *)
Definition kmsg_moved (h : host) (os : Z) (o : ihk_host_linux_os_data D) (h' : host) : Prop :=
  exists v s d, h' = set_drv (set_pool (set_oses h (<[os := o_set_kmsg o v]> (h_oses h))) s) d.

Lemma kmsg_unmoved h os o d : h_oses h !! os = Some o -> kmsg_moved h os o (set_drv h d).
Proof. intros Ho. exists (o_kmsg o), (h_pool h), d. destruct h, o. unfold set_drv, set_pool, set_oses, o_set_kmsg. simpl in *. by rewrite insert_id. Qed.

Lemma finish_shutdown_safe handles h sig os index flag o :
  hinv handles h -> h_oses h !! os = Some o ->
  safe (fun _ h' => hinv handles h' /\ kmsg_moved h os o h') (finish_shutdown sig os index flag h).
Proof.
  intros Hi Ho. pose proof (hinv_os_at I handles h os o Hi Ho) as Hat. unfold finish_shutdown.
  assert (forall d, I d -> hinv handles (set_drv h d) /\ kmsg_moved h os o (set_drv h d)) as Hout.
  { intros d Hd. split; [by apply hinv_drv|by apply kmsg_unmoved]. }
  destruct sig; [destruct (Hout (h_drv h) (hi_drv _ _ _ Hi)); by destruct h|].
  apply (runs_step I h); [exact (hi_drv _ _ _ Hi)| |].
  { destruct (index =? -1); [apply runs_ret|]. by apply (runs_notify_shutdown I h), (hi_notifiers _ _ _ Hi). }
  intros [] d Hd. apply (runs_step I (set_drv h d)); [done|by apply runs_drv; apply (mok_finalize I)|].
  intros [] d2 Hd2. erewrite io_bind_ret by (by apply get_os_ret). cbv beta.
  destruct Hat as (_ & ops & Hops & Hok). rewrite Hops. cbn [io_some]. erewrite io_bind_ret by done. cbv beta.
  apply (runs_step I (set_drv h d2)); [done| |].
  { apply (runs_opt I (set_drv h d2) os o op_shutdown (fun f => f flag)); [done|]. intros f a v Hf. by apply (ok_shutdown _ _ Hok f a v). }
  intros ret d3 Hd3. destruct (ret =? 0); cbn [negb]; [|exact (Hout d3 Hd3)]. cbv zeta.
  destruct (Z.eqb_spec (o_kmsg o) 0) as [E|E]; cbn [negb]; [exact (Hout d3 Hd3)|].
  erewrite io_bind_ret by (by apply upd_os_ret). unfold on_pool. cbn [h_pool set_oses set_drv].
  pose proof (hi_pool _ _ _ Hi) as Hp. pose proof (mrefs_delete o_kmsg _ os o Ho) as Hr. unfold os_refs in Hp. rewrite Hr in Hp. simpl in Hp.
  destruct (release_kmsg_buf_ok _ _ _ Hp E) as (c & _ & _ & s' & -> & Hs' & _).
  split; [|by exists 0, s', d3]. change (hinv handles (set_drv (set_pool (set_oses h (<[os := o_set_kmsg o 0]> (h_oses h))) s') d3)).
  apply hinv_drv; [|done]. apply (hinv_kmsg I handles); [done..|]. intros refs Hrefs.
  apply pool_inv_null. unfold os_refs in Hrefs. rewrite Hr in Hrefs. apply Permutation_cons_inv in Hrefs. by rewrite <- Hrefs.
Qed.

Lemma shutdown_safe handles h sig os flag o :
  hinv handles h -> h_oses h !! os = Some o ->
  safe (fun _ h' => hinv handles h' /\ kmsg_moved h os o h') (__ihk_os_shutdown sig os flag h).
Proof.
  intros Hi Ho. pose proof (hinv_os_at I handles h os o Hi Ho) as Hat. unfold __ihk_os_shutdown.
  erewrite io_bind_ret by done. cbv beta. apply (runs_step I h); [exact (hi_drv _ _ _ Hi)|by apply (runs_status I h os o)|].
  intros st d Hd. assert (hinv handles (set_drv h d) /\ kmsg_moved h os o (set_drv h d)) as Hout.
  { split; [by apply hinv_drv|by apply kmsg_unmoved]. }
  destruct (st =? IHK_OS_STATUS_SHUTDOWN); [exact Hout|]. destruct (st =? IHK_OS_STATUS_NOT_BOOTED); [exact Hout|].
  apply (runs_step I (set_drv h d)); [done| |].
  { assert (os_at I (set_drv h d) os o) as Hat' by exact Hat.
    repeat (runs_if; [first [by apply (runs_await_frozen I _ os o)|by apply (runs_thaw_first I _ os o)|
                             by apply (runs_await_ready I _ os o)|by apply (runs_await_running I _ os o)]|]). apply runs_ret. }
  intros [] d2 Hd2. pose proof (finish_shutdown_safe handles (set_drv h d2) sig os
    match list_find (fun q => q = os) (h_os_data h) with Some (i, _) => Z.of_nat i | None => -1 end flag o) as Hf.
  specialize (Hf (hinv_drv I _ _ _ Hi Hd2) Ho). exact Hf.
Qed.

(** ** Destroy *)

Lemma set_slot_ret handles h i v : hinv handles h -> 0 <= i < OS_MAX_MINOR ->
  set_slot i v h = Ret (tt, set_os_data h (<[Z.to_nat i := v]> (h_os_data h))).
Proof.
  intros Hi Hr. pose proof (hi_len _ _ _ Hi). unfold set_slot, io_bind, io_gets, io_lift, aset, id. simpl.
  rewrite (proj2 (Z.leb_le 0 i)), (proj2 (Z.ltb_lt i _)) by lia. done.
Qed.

(** Clearing a slot. *)
Lemma hinv_clear handles h i : hinv handles h -> hinv handles (set_os_data h (<[i := 0]> (h_os_data h))).
Proof.
  intros [H1 H2 H3 H4 H5 H6 H7 H8 H9 H10]. split; try done; simpl.
  - by rewrite length_insert.
  - intros j p [(-> & <- & _)|[_ Hp]]%list_lookup_insert_Some Hj; [done|]. eauto.
  - intros j p [(-> & <- & _)|[_ Hp]]%list_lookup_insert_Some Hj; [done|]. eauto.
  - intros p o Ho. destruct (H5 p o Ho). by split.
Qed.

(** Freeing an instance that no file and no slot refers to. *)
Lemma hinv_free handles h p o :
  hinv handles h -> h_oses h !! p = Some o -> occ p (file_refs h) = 0 -> p ∉ h_os_data h ->
  hinv handles (set_oses h (delete p (h_oses h))).
Proof.
  intros Hi Ho Hocc Hp. pose proof (mrefs_delete o_kmsg _ p o Ho) as Hr.
  destruct Hi as [H1 H2 H3 H4 H5 H6 H7 H8 H9 H10]. split; try done; simpl.
  - intros i q Hq Hn0 HnI. rewrite lookup_delete_ne; [by apply H4|]. intros <-. apply Hp. by apply list_elem_of_lookup_2 in Hq.
  - intros q o' [_ Hq]%lookup_delete_Some. destruct (H5 q o' Hq). by split.
  - intros f x Hx. destruct (H6 f x Hx) as [Hs Hg]. split; [|done]. rewrite lookup_delete_ne; [done|].
    intros E. apply occ_zero in Hocc. apply Hocc. rewrite E. by apply (mrefs_in f_osdata _ f).
  - unfold os_refs in H10. rewrite Hr in H10. by apply pool_inv_drop in H10.
Qed.

Lemma slot_minor handles h p o i : hinv handles h -> h_oses h !! p = Some o -> h_os_data h !! i = Some p -> o_minor o = Z.of_nat i.
Proof.
  intros Hi Ho Hs. destruct (ook_ptr _ _ _ _ (hi_os _ _ _ Hi p o Ho)) as [Hn0 HnI].
  destruct (hi_slot _ _ _ Hi i p Hs Hn0 HnI) as (o' & Ho' & Hm). congruence.
Qed.

(** The end of a destruction. *)
Lemma hinv_unlink handles h p o :
  hinv handles h -> h_oses h !! p = Some o -> occ p (file_refs h) = 0 ->
  hinv handles (set_oses (set_os_data h (<[Z.to_nat (o_minor o) := 0]> (h_os_data h))) (delete p (h_oses h))).
Proof.
  intros Hi Ho Hocc. pose proof (hinv_clear handles h (Z.to_nat (o_minor o)) Hi) as Hc.
  apply (hinv_free handles _ p o Hc Ho Hocc). simpl. intros (j & Hj)%list_elem_of_lookup.
  apply list_lookup_insert_Some in Hj as [(_ & E & _)|[Hne Hj]].
  - destruct (ook_ptr _ _ _ _ (hi_os _ _ _ Hi p o Ho)). done.
  - pose proof (slot_minor handles h p o j Hi Ho Hj). lia.
Qed.

Lemma destroy_safe handles h msig sig dev os :
  hinv handles h -> is_Some (h_devs h !! dev) -> os = 0 \/ os = OS_DATA_INVALID \/ is_Some (h_oses h !! os) ->
  safe (fun _ => hinv handles) (__ihk_device_destroy_os msig sig dev os h).
Proof.
  intros Hi [dd Hd] Hos. unfold __ihk_device_destroy_os. destruct msig; [exact Hi|].
  destruct (Z.eqb_spec os 0); [exact Hi|]. destruct (Z.eqb_spec os OS_DATA_INVALID); [exact Hi|]. cbn [orb].
  destruct Hos as [?|[?|[o Ho]]]; [done..|]. destruct (_ || _); [exact Hi|]. step (get_os_ret h os o Ho).
  destruct (o_dev_data o =? dev); cbn [negb]; [|exact Hi]. destruct (Z.ltb_spec 0 (o_refcount o)) as [|Hrc]; [exact Hi|].
  pose proof (hi_os _ _ _ Hi os o Ho) as Hok. pose proof (occ_nonneg os (file_refs h)) as Hnn. pose proof (ook_count _ _ _ _ Hok) as Hcnt.
  pose proof (shutdown_safe handles h sig os FLAG_IHK_OS_SHUTDOWN_FORCE o Hi Ho) as Hs.
  unfold io_bind at 1. destruct (__ihk_os_shutdown sig os _ h) as [[ret h1]|]; [|done].
  destruct Hs as (Hi1 & v & s & d & ->). destruct (ret =? 0); cbn [negb]; [|exact Hi1].
  set (h1 := set_drv _ d) in *. assert (h_oses h1 !! os = Some (o_set_kmsg o v)) as Ho1 by apply lookup_insert_eq.
  unfold get_dev. erewrite io_bind_ret; [|unfold io_bind, io_gets, io_some, id; simpl; by rewrite Hd]. cbv beta.
  apply (runs_step I h1); [exact (hi_drv _ _ _ Hi1)| |].
  { destruct (dv_destroy_os (d_ops dd)) as [f|] eqn:E; [|apply runs_ret]. apply runs_drv.
    by apply (ok_destroy_os _ _ (hi_dev _ _ _ Hi dev dd Hd) f). }
  intros ret2 d2 Hd2. pose proof (hinv_drv I _ _ _ Hi1 Hd2) as Hi2.
  destruct (ret2 =? 0); cbn [negb]; [|exact Hi2].
  erewrite io_bind_ret by (apply (set_slot_ret handles); [done|apply (ook_minor _ _ _ _ Hok)]). cbv beta.
  pose proof (hinv_unlink handles (set_drv h1 d2) os _ Hi2 Ho1) as Hu. apply Hu. change (occ os (file_refs h) = 0). lia.
Qed.

(** ** Boot *)

(** The container before and after a count that is taken back. *)
Lemma count_back s p c :
  conts s !! p = Some c -> 0 <= ct_count c < 2 ^ 31 - 1 ->
  (c' <- get_cont p ;; put_cont p (ct_set_count c' (s32 (ct_count c' - 1)))) (count_up p s) = Ret (tt, s).
Proof.
  intros Hc Hn. rewrite (count_up_insert p s c Hc). erewrite io_bind_ret by (apply get_cont_ret, lookup_insert_eq).
  unfold put_cont, io_modify. simpl. rewrite insert_insert_eq, Z.add_simpl_r, s32_small, insert_id by (simpl; lia || by destruct c).
  by destruct s.
Qed.

(** The calls of the driver, of IKC and of the notifiers. *)
Lemma runs_boot h os o index flag (sig : bool) :
  os_at I h os o -> Forall (notifier_ok I) (h_notifiers h) ->
  runs I h (if sig then io_ret (- ERESTARTSYS) else
    ops <- io_some (o_ops o) ;;
    match op_boot ops with
    | None => io_ret (- EINVAL)
    | Some f =>
        ret <- on_drv (f os (o_priv o) flag) ;;
        ret <- (if ret =? 0 then on_drv (im_init os) else io_ret ret) ;;
        if ret =? 0 then l <- io_gets h_notifiers ;; notify_boot os index flag l ret else io_ret ret
    end).
Proof.
  intros Hat Hn. destruct sig; [apply runs_ret|]. pose proof Hat as (_ & ops & Hops & Hok). eapply runs_some; [done|].
  destruct (op_boot ops) as [f|] eqn:E; [|apply runs_ret].
  apply runs_bind; [apply runs_drv; by apply (ok_boot _ _ Hok f)|]. intros r.
  apply runs_bind; [runs_if; [apply runs_drv; apply (mok_init I)|apply runs_ret]|]. intros r2. runs_if; [|apply runs_ret].
  apply runs_gets; [done|]. by apply (runs_notify_boot I h os o Hat).
Qed.

(** The driver, the IKC master channel and the registered notifiers accept a
    boot, one after the other, from the driver's present state. *)
Fixpoint notifiers_accept (index : Z) (l : list (ihk_os_notifier D)) (d d' : D) : Prop :=
  match l with
  | [] => d' = d
  | ion :: l' =>
      match n_boot ion with
      | None => notifiers_accept index l' d d'
      | Some f => exists d1, f index d = Ret (0, d1) /\ notifiers_accept index l' d1 d'
      end
  end.
Definition boot_accepted (h : host) (os : Z) (o : ihk_host_linux_os_data D) (flag : Z) : Prop :=
  exists ops f d1 d2 d3, o_ops o = Some ops /\ op_boot ops = Some f /\
  f os (o_priv o) flag (h_drv h) = Ret (0, d1) /\ im_init os d1 = Ret (0, d2) /\
  notifiers_accept (match list_find (fun q => q = os) (h_os_data h) with Some (i, _) => Z.of_nat i | None => -1 end) (h_notifiers h) d2 d3.

(** The buffer that a boot takes: the youngest of the instance's number. *)
Definition next_kmsg (h : host) (o : ihk_host_linux_os_data D) : option Z :=
  snd <$> list_find (fun p => of_os (o_minor o) (h_pool h) p = true) (reverse (kmsg_bufs (h_pool h))).

(** A boot that takes a message buffer the instance does not have yet is
    neither interrupted nor refused. *)
Definition boot_ok (h : host) (sig : bool) (os : Z) (o : ihk_host_linux_os_data D) (flag : Z) : Prop :=
  match next_kmsg h o with
  | None => True
  | Some cont => cont = o_kmsg o \/ (sig = false /\ boot_accepted h os o flag)
  end.

Lemma notify_boot_accepted (h : host) os index flag l d d' :
  notifiers_accept index l d d' -> notify_boot os index flag l 0 (set_drv h d) = Ret (0, set_drv h d').
Proof.
  revert d. induction l as [|n l IH]; intros d Ha; simpl in *; [by subst|]. destruct (n_boot n) as [f|]; [|by apply IH].
  destruct Ha as (d1 & Ef & Ha). erewrite io_bind_ret by (unfold on_drv; cbn [h_drv set_drv]; by rewrite Ef). cbv beta.
  cbn [negb Z.eqb]. rewrite <- (IH d1 Ha). by destruct h.
Qed.

(** A failed boot puts the count back and leaves the rest. *)
Lemma boot_failed (h : host) os o cont c d :
  conts (h_pool h) !! cont = Some c -> 0 <= ct_count c < 2 ^ 31 - 1 ->
  on_pool (c <- get_cont cont ;; put_cont cont (ct_set_count c (s32 (ct_count c - 1))))
    (set_drv (set_oses (set_pool h (count_up cont (h_pool h))) (<[os := o]> (h_oses h))) d) =
  Ret (tt, set_drv (set_oses h (<[os := o]> (h_oses h))) d).
Proof. intros Hc Hn. unfold on_pool. cbn [h_pool set_drv set_oses set_pool]. rewrite (count_back _ _ c) by done. by destruct h. Qed.

Lemma boot_safe handles h sig os flag o :
  hinv handles h -> h_oses h !! os = Some o -> counts_low (h_pool h) -> boot_ok h sig os o flag ->
  safe (fun _ => hinv handles) (__ihk_os_boot sig os flag h).
Proof.
  intros Hi Ho Hlow Hkeep. unfold boot_ok, next_kmsg in Hkeep. unfold __ihk_os_boot. erewrite io_bind_ret by done. cbv beta.
  rewrite (io_bind_ret _ _ _ _ _ (get_os_ret h os o Ho)). cbv beta.
  set (index := match list_find (fun q => q = os) (h_os_data h) with Some (i, _) => Z.of_nat i | None => -1 end).
  pose proof (latest_kmsg_buf_ok (o_minor o) _ _ (hi_pool _ _ _ Hi) Hlow) as Hl.
  destruct (list_find (fun p => of_os _ _ p = true) _) as [[i cont]|] eqn:El.
  2: { erewrite io_bind_ret by (unfold on_pool; by rewrite Hl). destruct h; exact Hi. }
  cbn [fmap option_fmap option_map snd] in Hkeep.
  destruct Hl as (El1 & Hc0 & Hin & Hp). erewrite io_bind_ret by (unfold on_pool; by rewrite El1). cbv beta iota.
  erewrite io_bind_ret by (by apply upd_os_ret). cbv beta.
  set (h1 := set_oses _ _). assert (os_at I h1 os (o_set_kmsg o cont)) as Hat.
  { split; [apply lookup_insert_eq|]. apply (ook_ops _ _ _ _ (hi_os _ _ _ Hi os o Ho)). }
  pose proof (runs_boot h1 os _ index flag sig Hat (hi_notifiers _ _ _ Hi)) as Hr.
  destruct (runs_eval I h1 _ (hi_drv _ _ _ Hi) Hr) as (r & d & E & Hd). cbn [o_ops o_priv o_set_kmsg] in E.
  rewrite (io_bind_ret _ _ _ _ _ E). cbv beta. destruct (Z.eqb_spec r 0) as [->|Hr0]; cbn [negb].
  - change (hinv handles (set_drv (set_pool (set_oses h (<[os := o_set_kmsg o cont]> (h_oses h))) (count_up cont (h_pool h))) d)).
    apply hinv_drv; [|done]. apply (hinv_kmsg I handles); [done..|]. intros refs Hrefs. rewrite Hrefs in Hp.
    apply (pool_inv_drop (o_kmsg o)). revert Hp. apply pool_inv_proper; [|done]. apply perm_swap.
  - destruct Hkeep as [->|[-> (ops & f & d1 & d2 & d3 & Hops & Hf & E1 & E2 & Hn)]].
    2: { exfalso. apply Hr0. rewrite Hops in E. cbn [io_some] in E. erewrite io_bind_ret in E by done. cbv beta in E. rewrite Hf in E.
         erewrite io_bind_ret in E by (unfold on_drv; cbn [h_drv h1 set_oses set_pool]; by rewrite E1). cbv beta in E. cbn [Z.eqb] in E.
         erewrite io_bind_ret in E by (unfold on_drv; cbn [h_drv set_drv]; by rewrite E2). cbv beta in E. cbn [Z.eqb] in E.
         erewrite io_bind_ret in E by done. cbv beta in E. pose proof (notify_boot_accepted h1 os index flag _ d2 d3 Hn) as En.
         change (set_drv (set_drv h1 d1) d2) with (set_drv h1 d2) in E. cbn [h_notifiers set_drv h1 set_oses set_pool] in E. rewrite En in E. congruence. }
    destruct (proj1 (pi_dom _ _ (hi_pool _ _ _ Hi) (o_kmsg o)) Hin) as [c Hc]. pose proof (pi_count _ _ (hi_pool _ _ _ Hi) _ c Hc) as Hn.
    pose proof (occ_nonneg (o_kmsg o) (os_refs h ++ handles)). specialize (Hlow _ c Hc).
    assert (set_oses h (<[os := o_set_kmsg o (o_kmsg o)]> (h_oses h)) = h) as Eh.
    { rewrite insert_id by (by destruct o). by destruct h. }
    erewrite io_bind_ret by (exact (boot_failed h os _ (o_kmsg o) c d Hc ltac:(lia))). unfold safe, io_ret. rewrite Eh. by apply hinv_drv.
Qed.

(** ** Create *)

(** A slot is claimed: the lowest free one. *)
Definition claimed (h : host) (minor m : Z) : host :=
  set_os_data (set_os_max h m) (<[Z.to_nat minor := OS_DATA_INVALID]> (h_os_data h)).

Lemma take_slot_ok handles h :
  hinv handles h ->
  (exists minor m, take_slot h = Ret (Some minor, claimed h minor m) /\ 0 <= minor < m /\ h_os_max_minor h <= m <= OS_MAX_MINOR /\
     h_os_data h !! Z.to_nat minor = Some 0 /\ (forall j, (j < Z.to_nat minor)%nat -> h_os_data h !! j <> Some 0)) \/
  (take_slot h = Ret (None, h) /\ 0 ∉ h_os_data h).
Proof.
  intros Hi. pose proof (hi_len _ _ _ Hi) as Hlen. pose proof (hi_max _ _ _ Hi) as Hmax.
  unfold take_slot. erewrite io_bind_ret by done. unfold id. cbv beta zeta.
  destruct (list_find (fun q => q = 0) _) as [[i q]|] eqn:E.
  - left. apply list_find_Some in E as (E1 & -> & E2). pose proof (lookup_lt_Some _ _ _ E1) as Hl. rewrite length_take in Hl.
    rewrite lookup_take_lt in E1 by lia. exists (Z.of_nat i), (h_os_max_minor h).
    erewrite io_bind_ret by (eapply (set_slot_ret handles); [done|lia]). unfold claimed. rewrite Nat2Z.id.
    split; [by destruct h|]. split; [lia|]. split; [lia|]. split; [done|].
    intros j Hj Hz. apply (E2 j 0); [|lia|done]. rewrite lookup_take_lt by lia. done.
  - apply list_find_None in E. rewrite Forall_forall in E.
    assert (forall j, (j < Z.to_nat (h_os_max_minor h))%nat -> h_os_data h !! j <> Some 0) as Hnz.
    { intros j Hj Hz. apply (E 0); [|done]. apply list_elem_of_lookup. exists j. by rewrite lookup_take_lt by lia. }
    destruct (Z.leb_spec OS_MAX_MINOR (h_os_max_minor h)).
    + right. split; [done|]. intros (j & Hj)%list_elem_of_lookup. pose proof (lookup_lt_Some _ _ _ Hj). apply (Hnz j); [lia|done].
    + left. exists (h_os_max_minor h), (h_os_max_minor h + 1). erewrite io_bind_ret by done. cbv beta.
      unfold set_slot, io_bind, io_gets, io_modify, io_lift, aset, id. simpl.
      rewrite (proj2 (Z.leb_le 0 _)), (proj2 (Z.ltb_lt _ _)) by lia. cbn [andb].
      split; [done|]. split; [lia|]. split; [lia|]. split; [|done].
      destruct (lookup_lt_is_Some_2 (h_os_data h) (Z.to_nat (h_os_max_minor h))) as [p Hp]; [lia|].
      rewrite Hp. f_equal. apply (hi_above _ _ _ Hi _ p Hp). lia.
Qed.

Lemma hinv_claimed handles h minor m :
  hinv handles h -> 0 <= minor < m -> h_os_max_minor h <= m <= OS_MAX_MINOR -> hinv handles (claimed h minor m).
Proof.
  intros [H1 H2 H3 H4 H5 H6 H7 H8 H9 H10] Hm1 Hm2. split; try done; simpl.
  - by rewrite length_insert.
  - lia.
  - intros j p [(<- & _ & _)|[_ Hp]]%list_lookup_insert_Some Hj; [lia|]. apply (H3 j); [done|lia].
  - intros j p [(_ & <- & _)|[_ Hp]]%list_lookup_insert_Some Hn0 HnI; [done|]. eauto.
  - intros p o Ho. destruct (H5 p o Ho). by split.
Qed.

(** A new instance, not yet in the table. *)
Definition new_os (dev : Z) (reg : ihk_register_os_data D) : ihk_host_linux_os_data D :=
  mk_os dev IHK_OS_FLAG_SHARABLE 0 0 (ro_ops reg) (ro_priv reg) 0 [] 0 [] None 0 0.

Lemma hinv_new handles h p dev reg oo :
  hinv handles h -> h_oses h !! p = None -> p <> 0 -> p <> OS_DATA_INVALID -> ro_ops reg = Some oo -> os_ops_ok I oo ->
  hinv handles (set_oses h (<[p := new_os dev reg]> (h_oses h))) /\ (p ∉ h_os_data h) /\ occ p (file_refs h) = 0.
Proof.
  intros Hi Hp Hn0 HnI Hreg Hoo. assert (occ p (file_refs h) = 0) as Hocc.
  { apply occ_zero. intros Hin. apply list_elem_of_fmap in Hin as ([f x] & -> & Hin). apply elem_of_map_to_list in Hin.
    destruct (hi_file _ _ _ Hi f x Hin) as [[o Ho] _]. simpl in *. congruence. }
  assert (p ∉ h_os_data h) as Hslot.
  { intros (j & Hj)%list_elem_of_lookup. destruct (hi_slot _ _ _ Hi j p Hj) as (o & Ho & _); [done..|congruence]. }
  split; [|done]. destruct Hi as [H1 H2 H3 H4 H5 H6 H7 H8 H9 H10]. split; try done; simpl.
  - intros i q Hq Hq0 HqI. rewrite lookup_insert_ne; [by apply H4|]. intros <-. apply Hslot. by apply list_elem_of_lookup_2 in Hq.
  - intros q o. destruct (decide (q = p)) as [->|].
    + rewrite lookup_insert_eq. intros [= <-]. split; simpl; [done|by compute|done|by eauto|done].
    + rewrite lookup_insert_ne by done. intros Ho. destruct (H5 q o Ho). by split.
  - intros f x Hx. destruct (H6 f x Hx) as [[o Ho] Hg]. split; [|done]. rewrite lookup_insert_ne; [by eauto|congruence].
  - apply (pool_inv_null (os_refs h ++ handles)) in H10. revert H10. apply pool_inv_proper; [|done].
    unfold os_refs. simpl. by rewrite mrefs_new.
Qed.

(** ... and in the table. *)
Lemma hinv_publish handles h p o minor :
  hinv handles h -> h_oses h !! p = Some o -> p ∉ h_os_data h -> 0 <= minor < h_os_max_minor h ->
  hinv handles (set_oses (set_os_data h (<[Z.to_nat minor := p]> (h_os_data h))) (<[p := o_set_minor o minor]> (h_oses h))).
Proof.
  intros Hi Ho Hp Hm. pose proof (hi_os _ _ _ Hi p o Ho) as [Hptr _ Hfl Hops Hcnt].
  destruct Hi as [H1 H2 H3 H4 H5 H6 H7 H8 H9 H10]. split; try done; simpl.
  - by rewrite length_insert.
  - intros j q [(<- & _ & _)|[_ Hq]]%list_lookup_insert_Some Hj; [lia|]. by apply (H3 j).
  - intros j q [(<- & <- & _)|[Hne Hq]]%list_lookup_insert_Some Hn0 HnI.
    + rewrite lookup_insert_eq. eexists. split; [done|]. simpl. lia.
    + rewrite lookup_insert_ne; [by apply H4|]. intros <-. apply Hp. by apply list_elem_of_lookup_2 in Hq.
  - intros q o'. destruct (decide (q = p)) as [->|].
    + rewrite lookup_insert_eq. intros [= <-]. split; simpl; try done. lia.
    + rewrite lookup_insert_ne by done. intros Ho'. destruct (H5 q o' Ho'). by split.
  - intros f x Hx. destruct (H6 f x Hx) as [Hs Hg]. split; [|done].
    destruct (decide (f_osdata x = p)) as [E|]; [rewrite E, lookup_insert_eq; eauto|by rewrite lookup_insert_ne].
  - revert H10. apply pool_inv_proper; [|done]. unfold os_refs. simpl. by rewrite (mrefs_same o_kmsg _ p o).
Qed.

(** What Linux and the callers give a creation: fresh addresses, a registered
    device, and no reference to a container that is old enough to be deleted. *)
Record create_ok (handles : list Z) (h : host) (e : create_env) (dev : Z) : Prop := {
  co_dev : is_Some (h_devs h !! dev);
  co_os : ce_os e <> 0 -> h_oses h !! ce_os e = None /\ ce_os e <> OS_DATA_INVALID;
  co_cont : ce_cont e <> 0 -> conts (h_pool h) !! ce_cont e = None;
  co_stray : forall p, p ∈ take (Z.to_nat (Z.of_nat (length (kmsg_bufs (h_pool h))) - (IHK_MAX_NUM_KMSG_BUFS - 1))) (kmsg_bufs (h_pool h)) ->
             p ∉ os_refs h ++ handles;
}.

Lemma create_error_safe handles h e dev os cont (ret : Z) :
  hinv handles h -> is_Some (h_devs h !! dev) -> is_Some (h_oses h !! os) ->
  cont = 0 \/ (exists c, conts (h_pool h) !! cont = Some c /\ ct_count c = 0) ->
  safe (fun _ => hinv handles)
    ((on_pool (delete_kmsg_buf cont) ;;; __ihk_device_destroy_os (ce_msig e) (ce_sig e) dev os ;;; io_ret ret) h).
Proof.
  intros Hi Hd Ho Hc. assert (exists s, delete_kmsg_buf cont (h_pool h) = Ret (tt, s) /\ pool_inv (os_refs h ++ handles) s) as (s & Es & Hs).
  { pose proof (hi_pool _ _ _ Hi) as Hp. destruct (decide (cont = 0)) as [->|Hn0]; [by exists (h_pool h)|].
    destruct Hc as [?|(c & Hc & E0)]; [done|]. exists (drop_cont cont (h_pool h)). split; [by apply (delete_kmsg_buf_ret _ _ c)|].
    apply pool_inv_delete; [done|]. apply occ_zero. pose proof (pi_count _ _ Hp cont c Hc). pose proof (occ_nonneg cont (os_refs h ++ handles)). lia. }
  erewrite io_bind_ret by (unfold on_pool; by rewrite Es). cbv beta.
  pose proof (destroy_safe handles (set_pool h s) (ce_msig e) (ce_sig e) dev os) as Hds.
  specialize (Hds (hinv_pool I _ _ _ _ Hi Hs) Hd (or_intror (or_intror Ho))).
  unfold io_bind. destruct (__ihk_device_destroy_os _ _ _ _ _) as [[r h']|]; [exact Hds|done].
Qed.

(** The buffers during a creation. *)
Lemma release_stray_ok refs s :
  pool_inv refs s ->
  (forall p, p ∈ take (Z.to_nat (Z.of_nat (length (kmsg_bufs s)) - (IHK_MAX_NUM_KMSG_BUFS - 1))) (kmsg_bufs s) -> p ∉ refs) ->
  exists s', release_stray s = Ret (tt, s') /\ pool_inv refs s' /\ Z.of_nat (length (kmsg_bufs s')) <= IHK_MAX_NUM_KMSG_BUFS - 1 /\
  (forall p c, conts s' !! p = Some c -> conts s !! p = Some c).
Proof.
  intros Hs Hr. unfold release_stray. erewrite io_bind_ret by done. cbv beta.
  destruct (reclaim_ok refs (Z.to_nat (Z.of_nat (length (kmsg_bufs s)) - (IHK_MAX_NUM_KMSG_BUFS - 1))) s Hs) as (s' & E & Hs' & El & Hc);
    [unfold IHK_MAX_NUM_KMSG_BUFS; lia|done|]. exists s'. split; [done|]. split; [done|]. split.
  - rewrite El, length_drop. unfold IHK_MAX_NUM_KMSG_BUFS. lia.
  - intros p c Hp. rewrite <- Hc; [done|]. apply (pi_dom _ _ Hs'). eauto.
Qed.

Lemma kmsg_order_val : kmsg_order 64 kmsg_buf_size 0 = Ret 10.
Proof. vm_compute. reflexivity. Qed.

Lemma create_init_ok handles h e dev arg :
  hinv handles h -> is_Some (h_devs h !! dev) -> (ce_os e <> 0 -> h_oses h !! ce_os e = None /\ ce_os e <> OS_DATA_INVALID) ->
  (exists ret d, __ihk_device_create_os_init e dev arg h = Ret (ret, set_drv h d) /\ ret <> 0 /\ I d) \/
  (exists reg oo d, __ihk_device_create_os_init e dev arg h = Ret (0, set_drv (set_oses h (<[ce_os e := new_os dev reg]> (h_oses h))) d) /\
     I d /\ ro_ops reg = Some oo /\ os_ops_ok I oo /\ ce_os e <> 0).
Proof.
  intros Hi [dd Hd] Hos. unfold __ihk_device_create_os_init, get_dev.
  erewrite io_bind_ret; [|unfold io_bind, io_gets, io_some, id; simpl; by rewrite Hd]. cbv beta.
  assert (h = set_drv h (h_drv h)) as Eh by (by destruct h). pose proof (hi_drv _ _ _ Hi) as HI.
  destruct (Z.eqb_spec (ce_os e) 0); [left; eexists _, _; split; [unfold io_ret; by rewrite Eh at 1|done]|].
  destruct (ce_channels e); cbn [negb]; [|left; eexists _, _; split; [unfold io_ret; by rewrite Eh at 1|done]].
  pose proof (hi_dev _ _ _ Hi dev dd Hd) as [Hcr [f Ef] _]. rewrite Ef.
  destruct (Hcr f dev (d_priv dd) Ef arg (ce_os e) _ HI) as (r & reg & d & E & HI' & Hreg).
  erewrite io_bind_ret by (unfold on_drv; by rewrite E). cbv beta iota.
  destruct (Z.eqb_spec r 0) as [->|]; cbn [negb]; [|left; by eexists _, _].
  right. destruct (Hreg eq_refl) as (oo & Ho & Hoo). exists reg, oo, d. done.
Qed.

(** From the new container on. *)
Lemma publish_safe handles h e dev os minor order :
  hinv handles h -> is_Some (h_devs h !! dev) -> is_Some (h_oses h !! os) -> os ∉ h_os_data h -> 0 <= minor < h_os_max_minor h ->
  ce_cont e <> 0 -> conts (h_pool h) !! ce_cont e = None ->
  safe (fun _ => hinv handles)
    ((on_pool (add_kmsg_buf (ce_cont e) minor order) ;;;
      r <- publish_os e os minor ;;
      match r with
      | inl ret => io_ret ret
      | inr ret => on_pool (delete_kmsg_buf (ce_cont e)) ;;; __ihk_device_destroy_os (ce_msig e) (ce_sig e) dev os ;;; io_ret ret
      end) h).
Proof.
  intros Hi Hd [o Ho] Hslot Hm Hc0 Hc. erewrite io_bind_ret by done. cbv beta.
  pose proof (add_kmsg_buf_ok _ _ _ minor order (hi_pool _ _ _ Hi) Hc Hc0) as Hp. set (s := mk_pool _ _) in Hp.
  pose proof (hinv_pool I _ _ _ _ Hi Hp) as Hi1. set (h1 := set_pool h s) in *. change (set_pool h _) with h1.
  assert (exists c, conts s !! ce_cont e = Some c /\ ct_count c = 0) as Hcs by (eexists; split; [apply lookup_insert_eq|done]).
  unfold publish_os. destruct (ce_cdev e); cbn [negb].
  2: { erewrite io_bind_ret by done. cbv beta iota. apply (create_error_safe handles h1 e dev os); [done|done|by exists o|by right]. }
  destruct (ce_lock_sig e); [exact Hi1|].
  pose proof (hi_max _ _ _ Hi) as Hmax. pose proof (hinv_publish handles h1 os o minor Hi1 Ho Hslot Hm) as Hi2.
  set (h2 := set_oses _ _) in Hi2.
  assert (forall r : Z + Z, (set_slot minor os ;;; upd_os os (fun o => o_set_minor o minor) ;;; io_ret r) h1 = Ret (r, h2)) as E.
  { intros r. erewrite io_bind_ret by (apply (set_slot_ret handles); [done|lia]). by erewrite io_bind_ret by (by apply upd_os_ret). }
  destruct (ce_device e); cbn [negb]; rewrite (io_bind_ret _ _ _ _ _ (E _)); cbv beta iota; [exact Hi2|].
  apply (create_error_safe handles h2 e dev os); [done|done| |by right]. exists (o_set_minor o minor). apply lookup_insert_eq.
Qed.

Lemma create_safe handles h e dev arg :
  hinv handles h -> create_ok handles h e dev -> safe (fun _ => hinv handles) (__ihk_device_create_os e dev arg h).
Proof.
  intros Hi [Hdev Hos Hcont Hstray]. unfold __ihk_device_create_os.
  destruct (take_slot_ok handles h Hi) as [(minor & m & E & Hm1 & Hm2 & _)|[E _]]; rewrite (io_bind_ret _ _ _ _ _ E); cbv beta iota; [|exact Hi].
  pose proof (hinv_claimed handles h minor m Hi Hm1 Hm2) as Hi1. set (h1 := claimed h minor m) in *.
  destruct (create_init_ok handles h1 e dev arg Hi1 Hdev Hos) as [(ret & d & E1 & Hr & HI)|(reg & oo & d & E1 & HI & Hreg & Hoo & Hos0)];
    rewrite (io_bind_ret _ _ _ _ _ E1); cbv beta.
  { rewrite (proj2 (Z.eqb_neq _ _) Hr). cbn [negb].
    erewrite io_bind_ret by (apply (set_slot_ret handles); [by apply hinv_drv|lia]). by apply hinv_clear, hinv_drv. }
  cbn [negb Z.eqb]. cbv zeta. rewrite kmsg_order_val. cbn [io_lift]. erewrite io_bind_ret by done. cbv beta.
  destruct (Hos Hos0) as [Hnone HnI]. destruct (hinv_new handles h1 (ce_os e) dev reg oo Hi1 Hnone Hos0 HnI Hreg Hoo) as (Hi2 & Hslot & _).
  apply (fun H => hinv_drv I _ _ d H HI) in Hi2. set (h2 := set_drv _ d) in *.
  assert (is_Some (h_oses h2 !! ce_os e)) as Ho2 by (exists (new_os dev reg); apply lookup_insert_eq).
  destruct (ce_pages e); cbn [negb]; [|by apply (create_error_safe handles h2 e dev); [..|left]].
  destruct (release_stray_ok _ _ (hi_pool _ _ _ Hi2)) as (s & Es & Hs & _ & Hsub).
  { intros p Hp. specialize (Hstray p Hp). assert (p <> 0) as Hp0.
    { intros ->. apply subseteq_take, (pi_dom _ _ (hi_pool _ _ _ Hi)) in Hp. rewrite (pi_null _ _ (hi_pool _ _ _ Hi)) in Hp. by destruct Hp. }
    rewrite elem_of_app in *. intros [Hin|]; [|naive_solver]. unfold os_refs in Hin. simpl in Hin.
    rewrite mrefs_new in Hin by done. apply elem_of_cons in Hin as [->|]; [done|naive_solver]. }
  erewrite io_bind_ret by (unfold on_pool; by rewrite Es). cbv beta.
  pose proof (hinv_pool I _ _ _ _ Hi2 Hs) as Hi3. set (h3 := set_pool h2 s) in *.
  destruct (Z.eqb_spec (ce_cont e) 0) as [|Hc0]; [by apply (create_error_safe handles h3 e dev); [..|left]|].
  assert (conts s !! ce_cont e = None) as Hcn.
  { destruct (conts s !! ce_cont e) as [c|] eqn:Ec; [|done]. apply Hsub in Ec. specialize (Hcont Hc0). simpl in Ec. congruence. }
  by apply (publish_safe handles h3 e dev (ce_os e) minor 10); try done; lia.
Qed.

(** ** Kernel messages *)

Lemma get_kmsg_safe handles h desc uok :
  hinv handles h -> counts_low (h_pool h) ->
  safe (fun '(r, p) h' => hinv (if r =? 0 then p :: handles else handles) h') (__ihk_device_get_kmsg_buf desc uok h).
Proof.
  intros Hi Hlow. unfold __ihk_device_get_kmsg_buf. destruct desc as [idx|]; [|exact Hi].
  pose proof (latest_kmsg_buf_ok idx _ _ (hi_pool _ _ _ Hi) Hlow) as Hl.
  destruct (list_find _ _) as [[i cont]|].
  2: { erewrite io_bind_ret by (unfold on_pool; by rewrite Hl). destruct h; exact Hi. }
  destruct Hl as (El & Hc0 & _ & Hp). erewrite io_bind_ret by (unfold on_pool; by rewrite El). cbv beta iota.
  destruct uok; simpl; apply (hinv_pool I handles); try done; [|by apply pool_inv_drop in Hp].
  revert Hp. apply pool_inv_proper; [|done]. symmetry. apply Permutation_middle.
Qed.

Lemma release_kmsg_safe handles h p :
  hinv (p :: handles) h -> p <> 0 ->
  safe (fun r h' => r = 0 /\ hinv handles h') (__ihk_device_release_kmsg_buf p h).
Proof.
  intros Hi Hp0. pose proof (hi_pool _ _ _ Hi) as Hp. rewrite <- Permutation_middle in Hp.
  destruct (release_kmsg_buf_ok _ _ _ Hp Hp0) as (c & _ & _ & s' & E & Hs & _).
  unfold __ihk_device_release_kmsg_buf, on_pool. rewrite E. split; [done|]. by apply (hinv_pool I (p :: handles)).
Qed.

(** A ring that is read where it lies. *)
Lemma read_at_safe handles h p c b shift (k : Z -> list Z -> io host (Z * list Z)) :
  hinv handles h -> conts (h_pool h) !! p = Some c -> ct_kmsg_buf c = Some b -> ring_ok b ->
  (forall r t h', hinv handles h' -> safe (fun _ => hinv handles) (k r t h')) ->
  safe (fun _ => hinv handles)
    ((' (ret, text, b) <- io_lift (read_kmsg (ct_kmsg_buf c) shift) ;; on_pool (put_cont p (ct_set_buf c b)) ;;; k ret text) h).
Proof.
  intros Hi Hc Hb Hok Hk. rewrite Hb, (read_kmsg_ret b shift Hok). erewrite io_bind_ret by done. cbv beta iota.
  erewrite io_bind_ret by done. apply Hk. apply (hinv_pool I handles); [done|].
  apply (pool_inv_put _ _ p c); [exact (hi_pool _ _ _ Hi)|done|]. apply (pi_count _ _ (hi_pool _ _ _ Hi) p c Hc).
Qed.

(** The ring of a container is one that the other kernel keeps in order. *)
Definition ring_at (h : host) (p : Z) : Prop :=
  forall c, conts (h_pool h) !! p = Some c -> exists b, ct_kmsg_buf c = Some b /\ ring_ok b.

Lemma os_read_kmsg_safe handles h km uok os o :
  hinv handles h -> h_oses h !! os = Some o -> ring_at h (o_kmsg o) ->
  safe (fun _ => hinv handles) (__ihk_os_read_kmsg km uok os h).
Proof.
  intros Hi Ho Hring. unfold __ihk_os_read_kmsg. step (get_os_ret h os o Ho). destruct (Z.eqb_spec (o_kmsg o) 0) as [|Hn0]; [exact Hi|].
  destruct (pi_refs _ _ (hi_pool _ _ _ Hi) (o_kmsg o)) as [c Hc]; [apply elem_of_app; left; by apply (mrefs_in o_kmsg _ os)|done|].
  erewrite io_bind_ret by (unfold on_pool; by rewrite (get_cont_ret _ _ c Hc)). cbv beta.
  destruct (Hring c Hc) as (b & Hb & Hok). assert (set_pool h (h_pool h) = h) as -> by (by destruct h).
  rewrite bool_decide_false by congruence. destruct km; cbn [negb]; [|exact Hi].
  apply (read_at_safe handles h (o_kmsg o) c b); try done. intros r t h' Hi'. destruct (r <? 0); [exact Hi'|]. destruct uok; exact Hi'.
Qed.

Lemma os_clear_kmsg_safe handles h os o :
  hinv handles h -> h_oses h !! os = Some o -> ring_at h (o_kmsg o) ->
  safe (fun _ => hinv handles) (__ihk_os_clear_kmsg os h).
Proof.
  intros Hi Ho Hring. unfold __ihk_os_clear_kmsg. step (get_os_ret h os o Ho). destruct (Z.eqb_spec (o_kmsg o) 0) as [|Hn0]; [exact Hi|].
  destruct (pi_refs _ _ (hi_pool _ _ _ Hi) (o_kmsg o)) as [c Hc]; [apply elem_of_app; left; by apply (mrefs_in o_kmsg _ os)|done|].
  erewrite io_bind_ret by (unfold on_pool; by rewrite (get_cont_ret _ _ c Hc)). cbv beta.
  destruct (Hring c Hc) as (b & Hb & [Hl Hh Ht Hlen]). assert (set_pool h (h_pool h) = h) as -> by (by destruct h). rewrite Hb.
  unfold clear_kmsg, lock_kmsg. rewrite Hl. cbn [Z.eqb mbind outcome_bind kb_set_lock kb_len].
  rewrite (proj2 (Z.ltb_ge _ 0)), (proj2 (Z.ltb_ge _ _)) by lia. cbn [orb io_lift]. erewrite io_bind_ret by done. cbv beta.
  erewrite io_bind_ret by done. apply (hinv_pool I handles); [done|].
  apply (pool_inv_put _ _ _ c); [exact (hi_pool _ _ _ Hi)|done|]. apply (pi_count _ _ (hi_pool _ _ _ Hi) _ c Hc).
Qed.

Lemma dev_read_kmsg_safe handles h desc km uok :
  hinv handles h -> (forall p s, desc = Some (p, s) -> p ∈ handles /\ p <> 0 /\ ring_at h p) ->
  safe (fun _ => hinv handles) (__ihk_device_read_kmsg_buf desc km uok h).
Proof.
  intros Hi Hdesc. unfold __ihk_device_read_kmsg_buf. destruct desc as [[p shift]|]; [|exact Hi].
  destruct (Hdesc p shift eq_refl) as (Hin & Hn0 & Hring). destruct km; cbn [negb]; [|exact Hi].
  destruct (pi_refs _ _ (hi_pool _ _ _ Hi) p) as [c Hc]; [apply elem_of_app; by right|done|].
  erewrite io_bind_ret by (unfold on_pool; by rewrite (get_cont_ret _ _ c Hc)). cbv beta.
  destruct (Hring c Hc) as (b & Hb & Hok). assert (set_pool h (h_pool h) = h) as -> by (by destruct h).
  apply (read_at_safe handles h p c b); try done. intros r t h' Hi'. destruct (r <? 0); [exact Hi'|]. destruct uok; exact Hi'.
Qed.
End safety.

(** ** Requests

    What user processes and the monitor daemon ask of the core. *)
Inductive request : Type :=
| Create (e : create_env) (dev arg : Z)
| Destroy (msig sig : bool) (dev idx : Z)
| Open (idx file : Z)
| Close (file : Z)
| Boot (sig : bool) (file flag : Z)
| Shutdown (sig : bool) (file flag : Z)
| ReadKmsg (km uok : bool) (file : Z)
| ClearKmsg (file : Z)
| GetKmsgBuf (desc : option Z) (uok : bool)
| ReadKmsgBuf (desc : option (Z * Z)) (km uok : bool)
| ReleaseKmsgBuf (handle : Z).

Section requests.
Context {D : Type} `{IM : !IkcMaster D} (I : D -> Prop) `{MO : !MasterOk I}.
Abbreviation host := (host D).

(** The result, and a handle that is given out. *)
Definition serve (r : request) : io host (Z * Z) :=
  let code (m : io host Z) := x <- m ;; io_ret (x, 0) in
  let via file (m : Z -> io host Z) := code (f <- get_file file ;; m (f_osdata f)) in
  match r with
  | Create e dev arg => code (__ihk_device_create_os e dev arg)
  | Destroy msig sig dev idx => code (ioctl_destroy_os msig sig dev idx)
  | Open idx file => code (ihk_host_os_open true idx file)
  | Close file => code (ihk_host_os_release file)
  | Boot sig file flag => via file (fun os => __ihk_os_boot sig os flag)
  | Shutdown sig file flag => via file (fun os => __ihk_os_shutdown sig os flag)
  | ReadKmsg km uok file => via file (fun os => x <- __ihk_os_read_kmsg km uok os ;; io_ret x.1)
  | ClearKmsg file => via file __ihk_os_clear_kmsg
  | GetKmsgBuf desc uok => __ihk_device_get_kmsg_buf desc uok
  | ReadKmsgBuf desc km uok => code (x <- __ihk_device_read_kmsg_buf desc km uok ;; io_ret x.1)
  | ReleaseKmsgBuf p => code (__ihk_device_release_kmsg_buf p)
  end.

(** An open file of instance [os]. *)
Definition file_of (h : host) (file : Z) (P : Z -> ihk_host_linux_os_data D -> Prop) : Prop :=
  exists x, h_files h !! file = Some x /\ forall o, h_oses h !! f_osdata x = Some o -> P (f_osdata x) o.

(** The requests that a process can make, and what is asked of them. *)
Definition allowed (handles : list Z) (h : host) (r : request) : Prop :=
  match r with
  | Create e dev _ => create_ok handles h e dev
  | Destroy _ _ dev idx => is_Some (h_devs h !! dev) /\ 0 <= idx /\ idx <> OS_MAX_MINOR
  | Open idx file => h_files h !! file = None /\ idx < OS_MAX_MINOR /\ refcounts_low h
  | Close file => is_Some (h_files h !! file) /\ refcounts_low h
  | Boot sig file flag => counts_low (h_pool h) /\ file_of h file (fun os o => boot_ok h sig os o flag)
  | Shutdown _ file _ => is_Some (h_files h !! file)
  | ReadKmsg _ _ file | ClearKmsg file => file_of h file (fun _ o => ring_at h (o_kmsg o))
  | GetKmsgBuf _ _ => counts_low (h_pool h)
  | ReadKmsgBuf desc _ _ => forall p s, desc = Some (p, s) -> p ∈ handles /\ p <> 0 /\ ring_at h p
  | ReleaseKmsgBuf p => p ∈ handles /\ p <> 0
  end.

Definition handles_after (r : request) (res : Z * Z) (handles : list Z) : list Z :=
  match r with
  | GetKmsgBuf _ _ => if res.1 =? 0 then res.2 :: handles else handles
  | ReleaseKmsgBuf p => match list_find (fun q => q = p) handles with Some (i, _) => delete i handles | None => handles end
  | _ => handles
  end.

Lemma safe_code {A} (Q : host -> Prop) (m : io host A) (f : A -> Z * Z) h :
  safe (fun _ => Q) (m h) -> safe (fun _ => Q) ((x <- m ;; io_ret (f x)) h).
Proof. unfold safe, io_bind. by destruct (m h) as [[a h']|]. Qed.

Lemma safe_fst {A B} (Q : host -> Prop) (m : io host (A * B)) h :
  safe (fun _ => Q) (m h) -> safe (fun _ => Q) ((x <- m ;; io_ret x.1) h).
Proof. unfold safe, io_bind. by destruct (m h) as [[a h']|]. Qed.

Lemma safe_via handles h file P (m : Z -> io host Z) :
  hinv I handles h -> file_of h file P ->
  (forall os o, h_oses h !! os = Some o -> P os o -> safe (fun _ => hinv I handles) (m os h)) ->
  safe (fun _ => hinv I handles) ((x <- (f <- get_file file ;; m (f_osdata f)) ;; io_ret (x, 0)) h).
Proof.
  intros Hi (x & Hx & HP) Hm. apply (safe_code _ _ (fun x => (x, 0))). step (get_file_ret h file x Hx).
  destruct (hi_file _ _ _ Hi file x Hx) as [[o Ho] _]. apply (Hm _ o Ho). by apply HP.
Qed.

(** Every request that is made as it should be is served, and leaves the
    tables and counts in order. *)
Lemma serve_safe handles h r :
  hinv I handles h -> allowed handles h r ->
  safe (fun res h' => hinv I (handles_after r res handles) h') (serve r h).
Proof.
  intros Hi Ha. destruct r; simpl in Ha |- *.
  - by apply (safe_code (hinv I handles) _ (fun x => (x, 0))), create_safe.
  - apply (safe_code (hinv I handles) _ (fun x => (x, 0))). destruct Ha as (Hd & H0 & H1). unfold ioctl_destroy_os.
    destruct (Z.ltb_spec OS_MAX_MINOR idx); [exact Hi|].
    destruct (get_slot_ret I handles h idx Hi) as (p & Hp & E); [lia|]. step E. destruct (Z.eqb_spec p 0); [exact Hi|].
    apply destroy_safe; [done..|]. destruct (decide (p = OS_DATA_INVALID)); [by right; left|].
    destruct (hi_slot _ _ _ Hi _ p Hp) as (o & Ho & _); [done..|]. right; right. by exists o.
  - destruct Ha as (H1 & H2 & H3). by apply (safe_code (hinv I handles) _ (fun x => (x, 0))), open_safe.
  - destruct Ha as ([x Hx] & H2). by apply (safe_code (hinv I handles) _ (fun x => (x, 0))), (release_safe I handles h file x).
  - destruct Ha as (Hlow & Hf). apply (safe_via handles h file _ (fun os => __ihk_os_boot sig os flag) Hi Hf). intros os o Ho Hk. by apply (boot_safe I handles h sig os flag o).
  - destruct Ha as [x Hx]. apply (safe_via handles h file (fun _ _ => True) (fun os => __ihk_os_shutdown sig os flag) Hi); [by exists x|]. intros os o Ho _.
    pose proof (shutdown_safe I handles h sig os flag o Hi Ho) as Hs. unfold safe in *. destruct (__ihk_os_shutdown _ _ _ _) as [[]|]; naive_solver.
  - apply (safe_via handles h file _ (fun os => x <- __ihk_os_read_kmsg km uok os ;; io_ret x.1) Hi Ha).
    intros os o Ho Hr. by apply (safe_fst (hinv I handles)), (os_read_kmsg_safe I handles h km uok os o).
  - apply (safe_via handles h file _ _ Hi Ha). intros os o Ho Hr. by apply (os_clear_kmsg_safe I handles h os o).
  - pose proof (get_kmsg_safe I handles h desc uok Hi Ha) as Hs. unfold safe in *. destruct (__ihk_device_get_kmsg_buf _ _ _) as [[[]]|]; done.
  - by apply (safe_code (hinv I handles) _ (fun x => (x, 0))), (safe_fst (hinv I handles)), dev_read_kmsg_safe.
  - destruct Ha as [Hin Hn0]. assert (exists i, list_find (fun q => q = handle) handles = Some (i, handle)) as [i Ei].
    { destruct (list_find_elem_of (fun q => q = handle) handles handle) as [[i q] Ei]; [done..|].
      pose proof Ei as Ei'. apply list_find_Some in Ei' as (_ & -> & _). by exists i. }
    rewrite Ei. pose proof Ei as Hl. apply list_find_Some in Hl as (Hl & _ & _). apply delete_Permutation in Hl.
    assert (hinv I (handle :: delete i handles) h) as Hi'.
    { pose proof (hi_pool _ _ _ Hi) as Hp. rewrite Hl in Hp. pose proof (hinv_pool I _ _ _ _ Hi Hp) as Hh. by destruct h. }
    pose proof (release_kmsg_safe I _ h handle Hi' Hn0) as Hs. unfold safe, io_bind in *. destruct (__ihk_device_release_kmsg_buf _ _) as [[]|]; naive_solver.
Qed.

(** A history of requests from one state to another. *)
Inductive executes : list Z -> host -> list request -> list Z -> host -> Prop :=
| ex_nil handles h : executes handles h [] handles h
| ex_cons handles h r res h1 rs handles' h' :
    allowed handles h r -> serve r h = Ret (res, h1) ->
    executes (handles_after r res handles) h1 rs handles' h' -> executes handles h (r :: rs) handles' h'.

Lemma executes_inv handles h rs handles' h' : executes handles h rs handles' h' -> hinv I handles h -> hinv I handles' h'.
Proof.
  induction 1 as [|handles h r res h1 rs handles' h' Ha E _ IH]; [done|]. intros Hi. apply IH.
  pose proof (serve_safe handles h r Hi Ha) as Hs. unfold safe in Hs. by rewrite E in Hs.
Qed.

(** The core with its devices registered and no instance. *)
Definition start (devs : gmap Z (ihk_host_linux_device_data D)) (dslots : list Z) (dmax : Z) (d : D) : host :=
  mk_host (replicate 64 0) 0 ∅ dslots dmax devs ∅ ∅ (mk_pool [] ∅) [] d.

Lemma start_inv devs dslots dmax d :
  (forall p x, devs !! p = Some x -> dev_ops_ok I (d_ops x)) -> I d -> hinv I [] (start devs dslots dmax d).
Proof.
  intros Hd HI. split; try done.
  - intros i p [-> _]%lookup_replicate. done.
  - intros i p [-> _]%lookup_replicate. done.
  - split; try done; [apply NoDup_nil_2| |intros p []%elem_of_nil].
    intros p. cbn [start h_pool kmsg_bufs conts]. rewrite lookup_empty. split; [by intros ?%elem_of_nil|by intros [? ?]].
Qed.
End requests.

(** C4: over every history of creations, boots, shutdowns,
    destructions, opens, closes and uses of message buffers whose requests are
    [allowed], every open file refers to an existing instance whose count is the
    number of its open files, every slot of the table holds an instance with
    that minor number, the message buffers of instances and handles exist, and
    the next allowed request completes without touching freed or invalid memory.
    A request is allowed when the caller and the environment keep to this, as
    far as the request depends on it: an instance is destroyed by a number other
    than 64 and opened by one below 64; files are open and handles are those
    that were given out; devices are registered and Linux's allocations are
    fresh; counts stay below 2^31; the other kernel keeps its message ring in
    order; a creation that deletes old message buffers finds none of them in
    use; and a boot that takes a new message buffer is accepted by the driver,
    by IKC and by the notifiers. The conditions on the number 64, on creations
    and on boots are needed: [destroy_index_overrun], [stray_reclaim_dangles]
    and [failed_boot_dangles] are the runs without them. *)
Theorem host_core_safe {D : Type} `{IM : !IkcMaster D} (I : D -> Prop) `{MO : !MasterOk I} devs dslots dmax d rs handles h :
  (forall p x, devs !! p = Some x -> dev_ops_ok I (d_ops x)) -> I d ->
  executes [] (start devs dslots dmax d) rs handles h ->
  (forall f x, h_files h !! f = Some x -> exists o, h_oses h !! f_osdata x = Some o /\ o_refcount o = occ (f_osdata x) (file_refs h)) /\
  (forall i p, h_os_data h !! i = Some p -> p <> 0 -> p <> OS_DATA_INVALID -> exists o, h_oses h !! p = Some o /\ o_minor o = Z.of_nat i) /\
  (forall p o, h_oses h !! p = Some o -> o_kmsg o <> 0 -> is_Some (conts (h_pool h) !! o_kmsg o)) /\
  (forall p, p ∈ handles -> p <> 0 -> is_Some (conts (h_pool h) !! p)) /\
  (forall r, allowed handles h r -> exists res h', serve r h = Ret (res, h') /\ executes [] (start devs dslots dmax d) (rs ++ [r]) (handles_after r res handles) h').
Proof.
  intros Hd HI Hex. pose proof (executes_inv I _ _ _ _ _ Hex (start_inv I _ _ _ _ Hd HI)) as Hi.
  split; [|split; [|split; [|split]]].
  - intros f x Hx. destruct (hi_file _ _ _ Hi f x Hx) as [[o Ho] _]. exists o. split; [done|]. apply (ook_count _ _ _ _ (hi_os _ _ _ Hi _ o Ho)).
  - apply (hi_slot _ _ _ Hi).
  - intros p o Ho Hk. apply (pi_refs _ _ (hi_pool _ _ _ Hi)); [|done]. apply elem_of_app. left. by apply (mrefs_in o_kmsg _ p).
  - intros p Hp. apply (pi_refs _ _ (hi_pool _ _ _ Hi)). apply elem_of_app. by right.
  - intros r Ha. pose proof (serve_safe I handles h r Hi Ha) as Hs. unfold safe in Hs.
    destruct (serve r h) as [[res h']|] eqn:E; [|done]. exists res, h'. split; [done|].
    clear Hi Hs. induction Hex; simpl; [by apply (ex_cons _ _ _ res h'), ex_nil|eapply ex_cons; eauto].
Qed.

(** ** A small driver

    Its state is the status of one kernel; a boot with a flag fails. *)
Definition demo_os_ops : ihk_os_ops Z :=
  let none {A : Type} : option A := None in
  {| op_open := none; op_close := none; op_load_file := none;
     op_load_mem := Some (fun _ _ _ _ _ => Ret (0, IHK_OS_STATUS_LOADING));
     op_boot := Some (fun _ _ flag d => if flag =? 0 then Ret (0, IHK_OS_STATUS_RUNNING) else Ret (- EINVAL, d));
     op_shutdown := Some (fun _ _ _ d => Ret (0, IHK_OS_STATUS_NOT_BOOTED));
     op_alloc_resource := none;
     op_query_status := Some (fun _ _ d => Ret (d, d));
     op_notify_hungup := none; op_get_num_numa_nodes := none; op_query_free_mem := none; op_wait_for_status := none;
     op_issue_interrupt := none; op_send_nmi := none; op_set_kargs := none; op_map_memory := none; op_unmap_memory := none;
     op_get_cpu_info := none; op_get_special_addr := none; op_debug_request := none; op_assign_cpu := none; op_release_cpu := none;
     op_set_ikc_map := none; op_get_ikc_map := none; op_get_buildid := none; op_get_num_cpus := none; op_query_cpu := none;
     op_assign_mem := none; op_release_mem := none; op_query_mem := none; op_freeze := none; op_thaw := none; op_panic_notifier := none; op_dump := none; op_vtop := none |}.

Definition demo_dev_ops : ihk_device_ops Z :=
  let none {A : Type} : option A := None in
  {| dv_init := Some (fun _ _ d => Ret (-1, d)); dv_exit := none; dv_open := none; dv_close := none;
     dv_create_os := Some (fun _ _ _ _ d => Ret (0, mk_reg_os (Some demo_os_ops) 0, d));
     dv_destroy_os := none; dv_reserve_cpu := none; dv_release_cpu := none; dv_reserve_mem := none; dv_release_mem := none;
     dv_release_mem_partially := none; dv_get_num_cpus := none; dv_query_cpu := none; dv_query_mem := none;
     dv_map_memory := none; dv_unmap_memory := none; dv_map_virtual := none; dv_unmap_virtual := none; dv_debug_request := none |}.

#[export] Instance demo_master : IkcMaster Z := { im_init := fun _ d => Ret (0, d); im_finalize := fun _ d => Ret (tt, d) }.
#[export] Instance demo_master_ok : MasterOk (fun _ : Z => True).
Proof. split; intros os d _; by eexists _, _. Qed.

Lemma demo_os_ops_ok : os_ops_ok (fun _ : Z => True) demo_os_ops.
Proof. split; try done; intros f p v [= <-]; intros; intros d _; try case_match; by eexists _, _. Qed.

Lemma demo_dev_ops_ok : dev_ops_ok (fun _ : Z => True) demo_dev_ops.
Proof.
  split; try done. intros f p v [= <-] arg os d _. eexists _, _, _. split; [reflexivity|]. split; [done|].
  intros _. exists demo_os_ops. split; [done|]. apply demo_os_ops_ok.
Qed.

(** Device 500; instances get the addresses 1000, 1001, ..., their containers
    2000, 2001, ... *)
Definition demo_devs : gmap Z (ihk_host_linux_device_data Z) := {[ 500 := mk_dev 1 0 0 demo_dev_ops 0 ]}.
Definition demo_start : host Z := start demo_devs (500 :: replicate 63 0) 1 0.
Definition demo_env (n : Z) : create_env := mk_ce (1000 + n) true true (2000 + n) true true false false false.

Lemma demo_devs_ok p x : demo_devs !! p = Some x -> dev_ops_ok (fun _ : Z => True) (d_ops x).
Proof. unfold demo_devs. intros [_ <-]%lookup_singleton_Some. apply demo_dev_ops_ok. Qed.

Lemma refcounts_low_dec {D} (h : host D) :
  bool_decide (map_Forall (fun _ o => o_refcount o < 2 ^ 31 - 1) (h_oses h)) = true -> refcounts_low h.
Proof. intros H%bool_decide_eq_true. exact H. Qed.

Lemma counts_low_dec (s : pool) : bool_decide (map_Forall (fun _ c => ct_count c < 2 ^ 31 - 1) (conts s)) = true -> counts_low s.
Proof. intros H%bool_decide_eq_true. exact H. Qed.

(** The state after some requests. *)
Fixpoint serve_all (rs : list request) (h : host Z) : outcome (list Z * host Z) :=
  match rs with
  | [] => Ret ([], h)
  | r :: rs' => ' (res, h) ← serve r h; ' (l, h) ← serve_all rs' h; Ret (res.1 :: l, h)
  end.

Lemma host_core_safe_witness :
  serve_all [Create (demo_env 0) 500 0; Open 0 7; Boot false 7 0; Shutdown false 7 0; Close 7; Destroy false false 500 0] demo_start <> Undef /\
  exists handles h, executes [] demo_start [Create (demo_env 0) 500 0; Open 0 7] handles h /\
  exists res h', serve (Boot false 7 0) h = Ret (res, h').
Proof.
  split; [vm_compute; discriminate|].
  destruct (serve (Create (demo_env 0) 500 0) demo_start) as [[r1 h1]|] eqn:E1; [|vm_compute in E1; discriminate E1].
  destruct (serve (Open 0 7) h1) as [[r2 h2]|] eqn:E2; [|vm_compute in E1; injection E1 as <- <-; vm_compute in E2; discriminate E2].
  assert (executes [] demo_start [Create (demo_env 0) 500 0; Open 0 7] [] h2) as Hex.
  { eapply ex_cons; [|exact E1|]; [split; simpl; [by eexists|done|done|by intros p Hp%elem_of_nil]|].
    vm_compute in E1. injection E1 as <- <-. eapply ex_cons; [|exact E2|apply ex_nil]. split; [done|]. split; [done|].
    apply refcounts_low_dec. vm_compute. reflexivity. }
  exists [], h2. split; [exact Hex|].
  destruct (host_core_safe (fun _ : Z => True) demo_devs (500 :: replicate 63 0) 1 0 _ [] h2 demo_devs_ok Logic.I Hex) as (_ & _ & _ & _ & Hn).
  destruct (Hn (Boot false 7 0)) as (res & h' & Hs & _); [|by exists res, h'].
  vm_compute in E1. injection E1 as <- <-. vm_compute in E2. injection E2 as <- <-. split.
  - apply counts_low_dec. vm_compute. reflexivity.
  - eexists. split; [reflexivity|]. intros o Ho. vm_compute in Ho. injection Ho as <-. right. split; [done|].
    exists demo_os_ops. do 4 eexists. split_and!; reflexivity.
Defined.
