(* ===== verification/HostCases.v ===== *)
(** * Creating and destroying instances, case by case

    What __ihk_device_create_os and __ihk_device_destroy_os do when everything
    goes well, and the error paths of host_driver.c that leave the tables in a
    state they should not be in. *)

From stdpp Require Import base tactics numbers list gmap.
From S2P Require Import Prelude Kmsg HostData HostOs HostInv.

Open Scope ihk_scope.

Section cases.
Context {D : Type} `{IM : !IkcMaster D} (I : D -> Prop) `{MO : !MasterOk I}.
Abbreviation host := (host D).

(** ** Creation *)

(** The driver creates the instance: the data it registers and its state. *)
Definition creates (h : host) (e : create_env) (dev arg : Z) (reg : ihk_register_os_data D) (d' : D) : Prop :=
  exists dd f, h_devs h !! dev = Some dd /\ dv_create_os (d_ops dd) = Some f /\
  f dev (d_priv dd) arg (ce_os e) (h_drv h) = Ret (0, reg, d').

Lemma create_init_ret h e dev arg reg d' :
  creates h e dev arg reg d' -> ce_os e <> 0 -> ce_channels e = true ->
  __ihk_device_create_os_init e dev arg h = Ret (0, set_drv (set_oses h (<[ce_os e := new_os dev reg]> (h_oses h))) d').
Proof.
  intros (dd & f & Hd & Hf & E) Hn0 Hch. unfold __ihk_device_create_os_init, get_dev.
  erewrite io_bind_ret; [|unfold io_bind, io_gets, io_some, id; simpl; by rewrite Hd]. cbv beta.
  rewrite (proj2 (Z.eqb_neq _ _) Hn0), Hch, Hf. cbn [negb]. erewrite io_bind_ret by (unfold on_drv; by rewrite E). done.
Qed.

(** The slot that a creation takes is the lowest free one. *)
Lemma take_slot_find handles h minor :
  hinv I handles h -> list_find (fun q => q = 0) (h_os_data h) = Some (minor, 0) ->
  exists m, take_slot h = Ret (Some (Z.of_nat minor), claimed h (Z.of_nat minor) m) /\ Z.of_nat minor < m /\ h_os_max_minor h <= m <= OS_MAX_MINOR.
Proof.
  intros Hi Hf. apply list_find_Some in Hf as (H1 & _ & H2).
  destruct (take_slot_ok I handles h Hi) as [(mi & m & E & Hm1 & Hm2 & Hz & Hb)|[_ Hn]].
  - assert (Z.to_nat mi = minor) as <-.
    { destruct (Nat.lt_trichotomy (Z.to_nat mi) minor) as [Hlt|[?|Hlt]]; [|done|by apply Hb in Hlt].
      exfalso. by apply (H2 _ 0 Hz Hlt). }
    exists m. rewrite Z2Nat.id by lia. split; [done|lia].
  - exfalso. apply Hn. by apply list_elem_of_lookup_2 in H1.
Qed.

(** The state up to the allocation of the pages. *)
Definition half_created (h : host) (e : create_env) (dev : Z) (minor : nat) (m : Z) (reg : ihk_register_os_data D) (d' : D) : host :=
  set_drv (set_oses (claimed h (Z.of_nat minor) m) (<[ce_os e := new_os dev reg]> (h_oses h))) d'.

Lemma half_created_inv handles h e dev arg minor m reg d' :
  hinv I handles h -> create_ok handles h e dev -> creates h e dev arg reg d' -> ce_os e <> 0 ->
  Z.of_nat minor < m -> h_os_max_minor h <= m <= OS_MAX_MINOR ->
  hinv I handles (half_created h e dev minor m reg d') /\ ce_os e ∉ h_os_data (claimed h (Z.of_nat minor) m).
Proof.
  intros Hi [_ Hos _ _] (dd & f & Hd & Hf & E) Hn0 Hm1 Hm2. destruct (Hos Hn0) as [Hnone HnI].
  destruct (ok_create_os _ _ (hi_dev _ _ _ Hi dev dd Hd) f dev (d_priv dd) Hf arg (ce_os e) _ (hi_drv _ _ _ Hi)) as (r & rg & d2 & E2 & HI & Hreg).
  rewrite E in E2. injection E2 as <- <- <-. destruct (Hreg eq_refl) as (oo & Hoo & Hok).
  pose proof (hinv_claimed I handles h (Z.of_nat minor) m Hi ltac:(lia) Hm2) as Hi1.
  destruct (hinv_new I handles _ (ce_os e) dev reg oo Hi1 Hnone Hn0 HnI Hoo Hok) as (Hi2 & Hs & _). split; [|done]. by apply hinv_drv.
Qed.

(** Old containers stay out of the way of the new instance. *)
Lemma half_created_stray handles h e dev minor m reg d' :
  hinv I handles h -> create_ok handles h e dev -> ce_os e <> 0 ->
  forall p, p ∈ take (Z.to_nat (Z.of_nat (length (kmsg_bufs (h_pool h))) - (IHK_MAX_NUM_KMSG_BUFS - 1))) (kmsg_bufs (h_pool h)) ->
  p ∉ os_refs (half_created h e dev minor m reg d') ++ handles.
Proof.
  intros Hi [_ Hos _ Hstray] Hn0 p Hp. specialize (Hstray p Hp). destruct (Hos Hn0) as [Hnone _]. assert (p <> 0) as Hp0.
  { intros ->. apply subseteq_take, (pi_dom _ _ (hi_pool _ _ _ Hi)) in Hp. rewrite (pi_null _ _ (hi_pool _ _ _ Hi)) in Hp. by destruct Hp. }
  rewrite elem_of_app in *. intros [Hin|]; [|naive_solver]. unfold os_refs in Hin. cbn [half_created h_oses set_drv set_oses claimed set_os_data set_os_max] in Hin.
  rewrite mrefs_new in Hin by done. apply elem_of_cons in Hin as [->|]; [done|naive_solver].
Qed.

(** The state after a creation; [s] are the containers that were kept. *)
Definition created (h : host) (e : create_env) (dev : Z) (minor : nat) (m : Z) (reg : ihk_register_os_data D) (d' : D) (s : pool) : host :=
  mk_host (<[minor := ce_os e]> (h_os_data h)) m (<[ce_os e := o_set_minor (new_os dev reg) (Z.of_nat minor)]> (h_oses h))
    (h_dev_data h) (h_dev_max_minor h) (h_devs h) (h_files h) (h_dev_files h)
    (mk_pool (kmsg_bufs s ++ [ce_cont e]) (<[ce_cont e := mk_cont (Z.of_nat minor) 0 (Some init_kmsg) 10]> (conts s)))
    (h_notifiers h) d'.

Lemma set_slot_len (h : host) i v : Z.of_nat (length (h_os_data h)) = OS_MAX_MINOR -> 0 <= i < OS_MAX_MINOR ->
  set_slot i v h = Ret (tt, set_os_data h (<[Z.to_nat i := v]> (h_os_data h))).
Proof.
  intros Hl Hr. unfold set_slot, io_bind, io_gets, io_lift, aset, id. simpl.
  by rewrite (proj2 (Z.leb_le 0 i)), (proj2 (Z.ltb_lt i _)) by lia.
Qed.

Lemma get_slot_at (h : host) i p : h_os_data h !! Z.to_nat i = Some p -> 0 <= i -> get_slot i h = Ret (p, h).
Proof.
  intros Hp Hi. unfold get_slot, io_bind, io_gets, io_lift, aget, id. rewrite (proj2 (Z.leb_le 0 i)) by lia. by rewrite Hp.
Qed.

(** Up to the allocation of the pages. *)
Lemma create_start handles h e dev arg reg d' minor :
  hinv I handles h -> create_ok handles h e dev -> creates h e dev arg reg d' -> ce_os e <> 0 -> ce_channels e = true ->
  list_find (fun q => q = 0) (h_os_data h) = Some (minor, 0) ->
  exists m, let h2 := half_created h e dev minor m reg d' in
  hinv I handles h2 /\ Z.of_nat minor < m <= OS_MAX_MINOR /\
  __ihk_device_create_os e dev arg h =
    (let error cont ret := on_pool (delete_kmsg_buf cont) ;;; __ihk_device_destroy_os (ce_msig e) (ce_sig e) dev (ce_os e) ;;; io_ret ret in
     if negb (ce_pages e) then error 0 (- ENOMEM) else
     on_pool release_stray ;;;
     if ce_cont e =? 0 then error 0 (- ENOMEM) else
     on_pool (add_kmsg_buf (ce_cont e) (Z.of_nat minor) 10) ;;;
     r <- publish_os e (ce_os e) (Z.of_nat minor) ;;
     match r with inl ret => io_ret ret | inr ret => error (ce_cont e) ret end) h2.
Proof.
  intros Hi Hco Hcr Hn0 Hch Ef. destruct (take_slot_find handles h minor Hi Ef) as (m & E & Hm1 & Hm2). exists m. cbv zeta.
  destruct (half_created_inv handles h e dev arg minor m reg d' Hi Hco Hcr Hn0 Hm1 Hm2) as [Hi2 _].
  split; [done|]. split; [lia|]. unfold __ihk_device_create_os. rewrite (io_bind_ret _ _ _ _ _ E). cbv beta iota.
  rewrite (io_bind_ret _ _ _ _ _ (create_init_ret (claimed h (Z.of_nat minor) m) e dev arg reg d' Hcr Hn0 Hch)). cbv beta. cbn [negb Z.eqb]. cbv zeta.
  rewrite kmsg_order_val. cbn [io_lift]. by erewrite io_bind_ret by done.
Qed.

Lemma create_ret handles h e dev arg reg d' minor :
  hinv I handles h -> create_ok handles h e dev -> creates h e dev arg reg d' ->
  ce_os e <> 0 -> ce_cont e <> 0 -> ce_channels e = true -> ce_pages e = true -> ce_cdev e = true -> ce_device e = true -> ce_lock_sig e = false ->
  list_find (fun q => q = 0) (h_os_data h) = Some (minor, 0) ->
  exists m s, __ihk_device_create_os e dev arg h = Ret (Z.of_nat minor, created h e dev minor m reg d' s) /\
  Z.of_nat (length (kmsg_bufs s)) <= IHK_MAX_NUM_KMSG_BUFS - 1.
Proof.
  intros Hi Hco Hcr Hn0 Hc0 Hch Hpg Hcd Hdv Hls Ef. destruct (create_start handles h e dev arg reg d' minor) as (m & Hi2 & Hm & ->); [done..|].
  pose proof (half_created_stray handles h e dev minor m reg d' Hi Hco Hn0) as Hst. set (h2 := half_created h e dev minor m reg d') in *. cbv zeta.
  destruct (release_stray_ok _ _ (hi_pool _ _ _ Hi2) Hst) as (s & Es & Hs & Hlen & _). exists m, s. split; [|done].
  rewrite Hpg. cbn [negb]. erewrite io_bind_ret by (unfold on_pool; by rewrite Es). cbv beta. rewrite (proj2 (Z.eqb_neq _ _) Hc0).
  erewrite io_bind_ret by done. cbv beta. unfold publish_os. rewrite Hcd, Hls, Hdv. cbn [negb].
  erewrite io_bind_ret; [|erewrite io_bind_ret by (apply set_slot_len; [exact (hi_len _ _ _ Hi2)|lia]); by erewrite io_bind_ret by (apply upd_os_ret, lookup_insert_eq)].
  cbv beta iota. unfold io_ret, created. do 2 f_equal.
  cbn [h_os_data h_oses set_oses set_os_data set_pool h2 half_created set_drv claimed set_os_max].
  by rewrite Nat2Z.id, insert_insert_eq, list_insert_insert_eq.
Qed.

Lemma index_of_new (l : list Z) minor (p : Z) :
  (minor < length l)%nat -> p ∉ l -> list_find (fun q => q = p) (<[minor := p]> l) = Some (minor, p).
Proof.
  intros Hl Hp. apply list_find_Some. split; [by apply list_lookup_insert_eq|]. split; [done|].
  intros j q Hj Hlt ->. rewrite list_lookup_insert_ne in Hj by lia. apply Hp. by apply list_elem_of_lookup_2 in Hj.
Qed.

(** C24: when Linux gives what is asked for, creating an
    instance returns the lowest free minor number; the table then has the new
    instance there and is otherwise as it was, the instance is found by its
    number and its number by the instance, its message buffer is the last of at
    most four, empty and not yet counted; with no free slot the result is
    -ENOMEM and nothing changes. *)
Theorem create_os_correct handles h e dev arg reg d' :
  hinv I handles h -> create_ok handles h e dev -> creates h e dev arg reg d' ->
  ce_os e <> 0 -> ce_cont e <> 0 -> ce_channels e = true -> ce_pages e = true -> ce_cdev e = true -> ce_device e = true -> ce_lock_sig e = false ->
  match list_find (fun q => q = 0) (h_os_data h) with
  | Some (minor, _) =>
      exists h', __ihk_device_create_os e dev arg h = Ret (Z.of_nat minor, h') /\
      h_os_data h' = <[minor := ce_os e]> (h_os_data h) /\
      h_oses h' = <[ce_os e := o_set_minor (new_os dev reg) (Z.of_nat minor)]> (h_oses h) /\
      h_files h' = h_files h /\ h_drv h' = d' /\
      ihk_host_os_get_index (ce_os e) h' = Ret (Z.of_nat minor, h') /\ ihk_host_find_os (Z.of_nat minor) 0 h' = Ret (ce_os e, h') /\
      Z.of_nat (length (kmsg_bufs (h_pool h'))) <= IHK_MAX_NUM_KMSG_BUFS /\ last (kmsg_bufs (h_pool h')) = Some (ce_cont e) /\
      conts (h_pool h') !! ce_cont e = Some (mk_cont (Z.of_nat minor) 0 (Some init_kmsg) 10)
  | None => __ihk_device_create_os e dev arg h = Ret (- ENOMEM, h)
  end.
Proof.
  intros Hi Hco Hcr Hn0 Hc0 Hch Hpg Hcd Hdv Hls.
  destruct (list_find (fun q => q = 0) (h_os_data h)) as [[minor z]|] eqn:Ef.
  2: { destruct (take_slot_ok I handles h Hi) as [(mi & m & _ & _ & _ & Hz & _)|[E _]]; [|by unfold __ihk_device_create_os; rewrite (io_bind_ret _ _ _ _ _ E)].
       apply list_find_None in Ef. rewrite Forall_forall in Ef. exfalso. apply (Ef 0); [|done]. by apply list_elem_of_lookup_2 in Hz. }
  assert (z = 0) as -> by (by apply list_find_Some in Ef as (_ & ? & _)).
  destruct (create_ret handles h e dev arg reg d' minor) as (m & s & E & Hlen); [done..|].
  eexists. split; [exact E|]. apply list_find_Some in Ef as (Hz & _ & _). apply lookup_lt_Some in Hz as Hlt.
  destruct (co_os _ _ _ _ Hco Hn0) as [Hnone HnI]. pose proof (hi_len _ _ _ Hi) as Hl. assert (ce_os e ∉ h_os_data h) as Hsl.
  { intros (j & Hj)%list_elem_of_lookup. destruct (hi_slot _ _ _ Hi j _ Hj) as (o & Ho & _); [done..|congruence]. }
  do 4 (split; [done|]).
  split; [unfold ihk_host_os_get_index, io_gets; cbn [h_os_data created]; by rewrite (index_of_new (h_os_data h))|]. split.
  { unfold ihk_host_find_os. rewrite (proj2 (Z.ltb_ge _ 0)), (proj2 (Z.leb_gt OS_MAX_MINOR _)) by lia. cbn [orb].
    unfold get_slot, io_bind, io_gets, io_lift, aget, id. cbn [h_os_data created].
    rewrite (proj2 (Z.leb_le 0 _)), Nat2Z.id, list_lookup_insert_eq by (done || lia).
    change DEV_DATA_INVALID with OS_DATA_INVALID. by rewrite (proj2 (Z.eqb_neq _ _) Hn0), (proj2 (Z.eqb_neq _ _) HnI). }
  cbn [h_pool created kmsg_bufs conts]. rewrite length_app, last_snoc, lookup_insert_eq. simpl. split; [lia|done].
Qed.

(** ** Destruction *)

(** Destroying an instance that was never booted and that nobody uses. *)
Lemma destroy_unbooted handles h dev os o dd oo q d2 sig :
  hinv I handles h -> h_oses h !! os = Some o -> o_dev_data o = dev -> dev <> 0 -> dev <> DEV_DATA_INVALID -> o_refcount o = 0 ->
  o_ops o = Some oo -> op_query_status oo = Some q -> q os (o_priv o) (h_drv h) = Ret (IHK_OS_STATUS_NOT_BOOTED, h_drv h) ->
  h_devs h !! dev = Some dd ->
  match dv_destroy_os (d_ops dd) with
  | Some g => g dev (d_priv dd) os (o_priv o) (h_drv h) = Ret (0, d2) | None => d2 = h_drv h end ->
  __ihk_device_destroy_os false sig dev os h =
  Ret (0, set_drv (set_oses (set_os_data h (<[Z.to_nat (o_minor o) := 0]> (h_os_data h))) (delete os (h_oses h))) d2).
Proof.
  intros Hi Ho <- Hd0 HdI Hrc Hoo Hq Eq Hdd Hds. destruct (hi_os _ _ _ Hi os o Ho) as [[Hn0 HnI] Hmin _ _ _].
  unfold __ihk_device_destroy_os. rewrite (proj2 (Z.eqb_neq _ _) Hn0), (proj2 (Z.eqb_neq _ _) HnI), (proj2 (Z.eqb_neq _ _) Hd0), (proj2 (Z.eqb_neq _ _) HdI).
  cbn [orb]. rewrite (io_bind_ret _ _ _ _ _ (get_os_ret h os o Ho)). cbv beta. rewrite Z.eqb_refl, Hrc. cbn [negb Z.ltb Z.compare].
  assert (__ihk_os_status os h = Ret (IHK_OS_STATUS_NOT_BOOTED, h)) as Est.
  { unfold __ihk_os_status, __ihk_os_query_status, os_body. rewrite (io_bind_ret _ _ _ _ _ (get_os_ret h os o Ho)). cbv beta. rewrite Hoo. cbn [io_some].
    erewrite io_bind_ret by done. cbv beta. rewrite Hq. unfold on_drv, id. rewrite Eq. by destruct h. }
  erewrite io_bind_ret; [|unfold __ihk_os_shutdown; erewrite io_bind_ret by done; cbv beta; by rewrite (io_bind_ret _ _ _ _ _ Est)].
  cbv beta. cbn [negb Z.eqb]. unfold get_dev. erewrite io_bind_ret; [|unfold io_bind, io_gets, io_some, id; simpl; by rewrite Hdd]. cbv beta.
  assert (match dv_destroy_os (d_ops dd) with Some f => on_drv (f (o_dev_data o) (d_priv dd) os (o_priv o)) | None => io_ret 0 end h = Ret (0, set_drv h d2)) as Ed.
  { destruct (dv_destroy_os (d_ops dd)) as [g|]; [unfold on_drv; by rewrite Hds|]. subst. by destruct h. }
  rewrite (io_bind_ret _ _ _ _ _ Ed). cbv beta. cbn [negb Z.eqb].
  by erewrite io_bind_ret by (apply set_slot_len; [exact (hi_len _ _ _ Hi)|done]).
Qed.

(** A creation that fails for want of pages
    destroys the half-made instance by its minor number, which is not set yet:
    slot 0 is cleared, so that the instance it held cannot be opened or
    destroyed any more, and the claimed slot stays unusable. *)
Theorem create_failure_clobbers handles h e dev arg reg oo q d' d2 minor p0 o0 dd :
  hinv I handles h -> create_ok handles h e dev -> creates h e dev arg reg d' -> ce_os e <> 0 -> ce_channels e = true ->
  ce_pages e = false -> ce_msig e = false -> dev <> 0 -> dev <> DEV_DATA_INVALID ->
  list_find (fun q => q = 0) (h_os_data h) = Some (minor, 0) -> h_os_data h !! 0%nat = Some p0 -> h_oses h !! p0 = Some o0 ->
  ro_ops reg = Some oo -> op_query_status oo = Some q -> q (ce_os e) (ro_priv reg) d' = Ret (IHK_OS_STATUS_NOT_BOOTED, d') ->
  h_devs h !! dev = Some dd ->
  match dv_destroy_os (d_ops dd) with Some g => g dev (d_priv dd) (ce_os e) (ro_priv reg) d' = Ret (0, d2) | None => d2 = d' end ->
  exists h', __ihk_device_create_os e dev arg h = Ret (- ENOMEM, h') /\
  h_os_data h' !! 0%nat = Some 0 /\ h_os_data h' !! minor = Some OS_DATA_INVALID /\ h_oses h' !! p0 = Some o0 /\
  (forall km file, ihk_host_os_open km 0 file h' = Ret (- ENOENT, h')) /\ ioctl_destroy_os false false dev 0 h' = Ret (- EINVAL, h').
Proof.
  intros Hi Hco Hcr Hn0 Hch Hpg Hms Hd0 HdI Ef Hp0 Ho0 Hoo Hq Eq Hdd Hds.
  destruct (co_os _ _ _ _ Hco Hn0) as [Hnone HnI]. destruct (ook_ptr _ _ _ _ (hi_os _ _ _ Hi p0 o0 Ho0)) as [Hp00 _].
  destruct (create_start handles h e dev arg reg d' minor) as (m & Hi2 & Hm & ->); [done..|]. set (h2 := half_created h e dev minor m reg d') in *.
  cbv zeta. rewrite Hpg. cbn [negb]. erewrite io_bind_ret by done. cbv beta. rewrite Hms.
  assert (set_pool h2 (h_pool h2) = h2) as -> by done.
  erewrite io_bind_ret by (eapply (destroy_unbooted handles h2 dev (ce_os e) (new_os dev reg)); [done|apply lookup_insert_eq|done..]).
  cbv beta. set (h' := set_drv _ d2). exists h'. split; [reflexivity|].
  assert (minor <> 0%nat) as Hm0 by (intros ->; apply list_find_Some in Ef as (Hz & _); congruence).
  apply list_find_Some in Ef as (Hz & _). apply lookup_lt_Some in Hz. apply lookup_lt_Some in Hp0 as Hl0.
  assert (h_os_data h' = <[0%nat := 0]> (<[minor := OS_DATA_INVALID]> (h_os_data h))) as El.
  { cbn [h_os_data h' set_oses set_os_data set_drv h2 half_created claimed set_os_max o_minor new_os]. by rewrite Nat2Z.id. }
  assert (h_os_data h' !! 0%nat = Some 0) as Hs0 by (rewrite El; apply list_lookup_insert_eq; by rewrite length_insert).
  split; [done|]. split; [by rewrite El, list_lookup_insert_ne, list_lookup_insert_eq by done|].
  split; [cbn [h_oses h' h2 half_created set_oses set_os_data set_drv]; rewrite lookup_delete_ne, lookup_insert_ne by congruence; done|]. split.
  - intros km file. unfold ihk_host_os_open. erewrite io_bind_ret by done. cbv beta.
    change (h_os_max_minor h') with m. rewrite (proj2 (Z.ltb_ge m 0)) by lia. cbn [Z.ltb Z.compare orb].
    by rewrite (io_bind_ret _ _ _ _ _ (get_slot_at h' 0 0 Hs0 ltac:(done))).
  - unfold ioctl_destroy_os. cbn [Z.ltb Z.compare OS_MAX_MINOR]. by rewrite (io_bind_ret _ _ _ _ _ (get_slot_at h' 0 0 Hs0 ltac:(done))).
Qed.
End cases.

(** ** Runs of the small driver *)

Lemma demo_start_inv : hinv (fun _ : Z => True) [] demo_start.
Proof. by apply start_inv; [apply demo_devs_ok|]. Qed.

Lemma demo_create_ok e : ce_os e <> OS_DATA_INVALID -> create_ok [] demo_start e 500.
Proof.
  intros HI. split; [by eexists|intros _; split; [apply lookup_empty|done]|intros _; apply lookup_empty|by intros p Hp%elem_of_nil].
Qed.

Lemma demo_creates e d : creates (set_drv demo_start d) e 500 0 (mk_reg_os (Some demo_os_ops) 0) d.
Proof. by eexists _, _. Qed.

Lemma create_os_correct_witness :
  exists h', __ihk_device_create_os (demo_env 0) 500 0 demo_start = Ret (0, h') /\ h_os_data h' !! 0%nat = Some 1000.
Proof.
  pose proof (create_os_correct (fun _ : Z => True) [] demo_start (demo_env 0) 500 0 (mk_reg_os (Some demo_os_ops) 0) 0
    demo_start_inv (demo_create_ok (demo_env 0) ltac:(done)) (demo_creates (demo_env 0) 0) ltac:(done) ltac:(done) eq_refl eq_refl eq_refl eq_refl eq_refl) as H.
  simpl in H. destruct H as (h' & E & Hs & _). exists h'. split; [exact E|]. rewrite Hs. reflexivity.
Defined.

(** The state with instance 0, and a creation without pages. *)
Definition one_os : host Z :=
  match __ihk_device_create_os (demo_env 0) 500 0 demo_start with Ret (_, h) => h | Undef => demo_start end.
Definition no_pages : create_env := mk_ce 1001 true false 2001 true true false false false.

Lemma one_os_eq : __ihk_device_create_os (demo_env 0) 500 0 demo_start = Ret (0, one_os).
Proof. vm_compute. reflexivity. Qed.

Lemma one_os_inv : hinv (fun _ : Z => True) [] one_os.
Proof.
  pose proof (create_safe (fun _ : Z => True) [] demo_start (demo_env 0) 500 0 demo_start_inv (demo_create_ok (demo_env 0) ltac:(done))) as H.
  by rewrite one_os_eq in H.
Qed.

Lemma no_pages_ok : create_ok [] one_os no_pages 500.
Proof.
  split; [by eexists|intros _; split; [vm_compute; reflexivity|done]|intros _; vm_compute; reflexivity|vm_compute; by intros p Hp%elem_of_nil].
Qed.

Lemma create_failure_clobbers_witness :
  exists h', __ihk_device_create_os no_pages 500 0 one_os = Ret (- ENOMEM, h') /\ h_os_data h' !! 0%nat = Some 0 /\
  (exists o, h_oses h' !! 1000 = Some o).
Proof.
  destruct (create_failure_clobbers (fun _ : Z => True) [] one_os no_pages 500 0 (mk_reg_os (Some demo_os_ops) 0) demo_os_ops
    (fun _ _ d => Ret (d, d)) 0 0 1 1000 (o_set_minor (new_os 500 (mk_reg_os (Some demo_os_ops) 0)) 0) (mk_dev 1 0 0 demo_dev_ops 0)
    one_os_inv no_pages_ok) as (h' & E & H0 & _ & Ho & _);
    [by eexists _, _|discriminate|reflexivity|reflexivity|reflexivity|discriminate|discriminate|vm_compute; reflexivity..|].
  exists h'. split; [exact E|]. split; [exact H0|]. eexists. exact Ho.
Defined.

(** What can be seen after some requests to the small driver. *)
Definition after {A} (rs : list request) (see : list Z -> host Z -> A) : option A :=
  match serve_all rs demo_start with Ret (l, h) => Some (see l h) | Undef => None end.
Definition os_view (h : host Z) (p : Z) : option (Z * Z * Z) := (fun o => (o_minor o, o_refcount o, o_kmsg o)) <$> h_oses h !! p.
Definition has_cont (h : host Z) (p : Z) : bool := bool_decide (is_Some (conts (h_pool h) !! p)).

(** Ihk_register_device counts the table of
    instances down when the initialisation of a second device fails.  The next
    creation then takes the slot of a running instance: the old one stays
    allocated and open, but slot 1 has the new one. *)
Theorem register_failure_overwrites :
  after [Create (demo_env 0) 500 0; Create (demo_env 1) 500 0; Open 1 7; Boot false 7 0] (fun l h =>
    (l, match (ihk_register_device (mk_re 501 true true) 1 demo_dev_ops 0 ;;; __ihk_device_create_os (demo_env 2) 500 0) h with
        | Ret (minor, h') => Some (minor, h_os_data h !! 1%nat, h_os_data h' !! 1%nat, os_view h' 1001, os_view h' 1002)
        | Undef => None
        end)) =
  Some ([0; 1; 0; 0], Some (1, Some 1001, Some 1002, Some (1, 1, 2001), Some (1, 0, 0))).
Proof. vm_compute. reflexivity. Qed.

(** An instance whose boot fails keeps its pointer to
    the message buffer without counting it.  When the monitor daemon then takes
    and returns a handle, the buffer is freed, and reading the messages of the
    instance reads freed memory; without the daemon, a shutdown of the kernel
    that is partly up ends with an error. *)
Theorem failed_boot_dangles :
  after [Create (demo_env 0) 500 0; Open 0 7; Boot false 7 1; GetKmsgBuf (Some 0) true; ReleaseKmsgBuf 2000] (fun l h =>
    (l, os_view h 1000, has_cont h 2000, is_ret (serve (ReadKmsg true true 7) h))) =
  Some ([0; 0; - EINVAL; 0; 0], Some (0, 1, 2000), false, false) /\
  after [Create (demo_env 0) 500 0; Open 0 7; Boot false 7 1] (fun l h =>
    (l, fst <$> serve (Shutdown false 7 0) (set_drv h IHK_OS_STATUS_LOADING))) =
  Some ([0; 0; - EINVAL], Ret (- EINVAL, 0)).
Proof. split; vm_compute; reflexivity. Qed.

(** The fifth creation deletes the oldest message
    buffer although a running instance refers to it; shutting that instance
    down touches freed memory. *)
Theorem stray_reclaim_dangles :
  after ([Create (demo_env 0) 500 0; Open 0 7; Boot false 7 0] ++ map (fun n => Create (demo_env n) 500 0) [1; 2; 3; 4]) (fun l h =>
    (l, os_view h 1000, has_cont h 2000, is_ret (serve (Shutdown false 7 0) h))) =
  Some ([0; 0; 0; 1; 2; 3; 4], Some (0, 1, 2000), false, false).
Proof. vm_compute. reflexivity. Qed.

(** IHK_DEVICE_DESTROY_OS with the index one past the table reads behind it. *)
Theorem destroy_index_overrun {D} `{IkcMaster D} (I : D -> Prop) handles (h : host D) msig sig dev :
  hinv I handles h -> ioctl_destroy_os msig sig dev OS_MAX_MINOR h = Undef.
Proof.
  intros Hi. unfold ioctl_destroy_os. rewrite Z.ltb_irrefl. unfold get_slot, io_bind, io_gets, io_lift, aget, id. simpl.
  rewrite lookup_ge_None_2; [done|]. pose proof (hi_len _ _ _ Hi) as Hl. unfold OS_MAX_MINOR in *. lia.
Qed.
