(* ===== verification/SmpStatus.v ===== *)
(** * Status of a kernel and hang detection

    smp_ihk_os_query_status of the architecture layers
    (src/linux/driver/smp/arch/*/smp-arch-driver.c), the polling of the driver
    (smp_ihk_os_wait_for_status, smp-driver.c), and the check for hangs of the
    core (__ihk_device_detect_hungup, src/linux/core/host_driver.c), which all
    read the monitor area that a running kernel keeps for its CPUs. *)

From stdpp Require Import base tactics numbers list gmap.
From S2P Require Import Prelude Kmsg HostData SmpData.

Open Scope ihk_scope.

(** ** Data *)

(** struct ihk_os_cpu_monitor *)
Record ihk_os_cpu_monitor : Type := mk_mon { mo_status : Z; mo_counter : Z; mo_ocounter : Z }.

Definition IHK_OS_MONITOR_KERNEL : Z := 3.
Definition IHK_OS_MONITOR_KERNEL_FREEZING : Z := 8.
Definition IHK_OS_MONITOR_KERNEL_FROZEN : Z := 9.
Definition IHK_OS_MONITOR_PANIC : Z := 99.
Definition IHK_OS_EVENTFD_TYPE_STATUS : Z := 2.

(** What the functions see of a kernel: the status that the driver keeps, the
    field status of the boot parameters (if they exist), and the monitor area,
    whose length is num_processors; [None]: data->monitor is NULL after
    setup_monitor. *)
Record kernel : Type := mk_kernel {
  kn_status : Z;
  kn_param : option Z;
  kn_monitor : option (list ihk_os_cpu_monitor);
}.
Definition kn_set_status (k : kernel) v := mk_kernel v (kn_param k) (kn_monitor k).
Definition kn_set_monitor (k : kernel) v := mk_kernel (kn_status k) (kn_param k) v.

(** ** setup_monitor *)

(** [spaddr] is the answer of get_special_addr (address and size), [map] what
    mapping the rounded area gives. *)
Definition setup_monitor {M} (monitor : option M) (spaddr : option (Z * Z)) (map : Z -> Z -> option M) : option M :=
  match monitor with
  | Some _ => monitor
  | None =>
      match spaddr with
      | None => None
      | Some (rpa, size) =>
          let psize := u64 ((u64 (size + PAGE_SIZE - 1) / PAGE_SIZE) * PAGE_SIZE) in
          map rpa psize
      end
  end.

(** ** smp_ihk_os_query_status *)

(** The loop over the CPUs after the first; [freezing] is the status of CPU
    0.  [None]: the loop ends. *)
Fixpoint freeze_scan (freezing : Z) (l : list ihk_os_cpu_monitor) : option Z :=
  match l with
  | [] => None
  | m :: l' =>
      if mo_status m =? IHK_OS_MONITOR_KERNEL_FREEZING then Some IHK_OS_STATUS_FREEZING
      else if mo_status m =? IHK_OS_MONITOR_KERNEL_FROZEN then
        if negb (freezing =? IHK_OS_MONITOR_KERNEL_FROZEN) then Some IHK_OS_STATUS_FREEZING else freeze_scan freezing l'
      else if freezing =? IHK_OS_MONITOR_KERNEL_FROZEN then Some IHK_OS_STATUS_FREEZING
      else freeze_scan freezing l'
  end.

Definition monitor_status (ret : Z) (l : list ihk_os_cpu_monitor) : outcome Z :=
  if existsb (fun m => mo_status m =? IHK_OS_MONITOR_PANIC) l then Ret IHK_OS_STATUS_FAILED else
  match l with
  | [] => Undef
  | m :: l' =>
      let freezing := mo_status m in
      if freezing =? IHK_OS_MONITOR_KERNEL_FREEZING then Ret IHK_OS_STATUS_FREEZING else
      match freeze_scan freezing l' with
      | Some s => Ret s
      | None => if freezing =? IHK_OS_MONITOR_KERNEL_FROZEN then Ret IHK_OS_STATUS_FROZEN else Ret ret
      end
  end.

(** The switch; the boot parameters are read only while booting. *)
Definition boot_status (k : kernel) : outcome Z :=
  if kn_status k =? BUILTIN_OS_STATUS_INITIAL then Ret IHK_OS_STATUS_NOT_BOOTED else
  if kn_status k =? BUILTIN_OS_STATUS_LOADING then Ret IHK_OS_STATUS_LOADING else
  if kn_status k =? BUILTIN_OS_STATUS_BOOTING then
    match kn_param k with
    | None => Undef
    | Some s =>
        Ret (if s =? 1 then IHK_OS_STATUS_BOOTED else if s =? 2 then IHK_OS_STATUS_READY
             else if s =? 3 then IHK_OS_STATUS_RUNNING else IHK_OS_STATUS_BOOTING)
    end
  else if kn_status k =? BUILTIN_OS_STATUS_HUNGUP then Ret IHK_OS_STATUS_HUNGUP
  else if kn_status k =? BUILTIN_OS_STATUS_SHUTDOWN then Ret IHK_OS_STATUS_SHUTDOWN
  else Ret IHK_OS_STATUS_NOT_BOOTED.

Definition status_rest (k : kernel) : outcome Z :=
  ret ← boot_status k;
  if negb (ret =? IHK_OS_STATUS_READY) && negb (ret =? IHK_OS_STATUS_RUNNING) then Ret ret else
  match kn_monitor k with
  | None => Ret (- ENOSYS)
  | Some l => monitor_status ret l
  end.

(** On x86_64 the boot parameters are read for a message in every state.  What
    the query does to the trampoline page is [restore_trampoline]. *)
Definition smp_ihk_os_query_status (a : smp_arch) (k : kernel) : outcome Z :=
  match a, kn_param k with
  | X86_64, None => Undef
  | _, _ => status_rest k
  end.

(** The trampoline page of x86_64: whether it is the one of Linux
    (using_linux_trampoline), its bytes, and linux_trampoline_backup. *)
Record trampoline : Type := mk_trampoline { tr_linux : bool; tr_page : list Z; tr_backup : list Z }.

(** smp_ihk_setup_trampoline puts the code [data] there; a query of the status
    of a kernel that is ready puts Linux's code back. *)
Definition install_trampoline (data : list Z) (t : trampoline) : trampoline :=
  mk_trampoline (tr_linux t) data (if tr_linux t then tr_page t else tr_backup t).
Definition restore_trampoline (k : kernel) (t : trampoline) : trampoline :=
  if (kn_status k =? BUILTIN_OS_STATUS_BOOTING) && bool_decide (kn_param k = Some 2) && tr_linux t
  then mk_trampoline (tr_linux t) (tr_backup t) (tr_backup t) else t.

(** Linux gets its trampoline back when the status of the kernel that was
    booted is asked for while it is ready, and not in any other state: a kernel
    that is running by the first query keeps it. *)
Lemma trampoline_restored data t k :
  tr_linux t = true ->
  tr_page (restore_trampoline k (install_trampoline data t)) =
    (if (kn_status k =? BUILTIN_OS_STATUS_BOOTING) && bool_decide (kn_param k = Some 2) then tr_page t else data).
Proof. intros Ht. unfold restore_trampoline, install_trampoline. cbn [tr_linux]. rewrite Ht. rewrite andb_true_r. by destruct (_ && _). Qed.

(** ** smp_ihk_os_wait_for_status

    [st n] is the answer of the n-th poll; the comparison with SHUTDOWN is one
    of unsigned numbers. *)
Fixpoint poll (st : nat -> Z) (status : Z) (n timeout : nat) : Z :=
  let s := u32 (st n) in
  match timeout with
  | S timeout' => if negb (s =? status) && (s <? IHK_OS_STATUS_SHUTDOWN) then poll st status (S n) timeout'
                  else if s =? status then 0 else -1
  | O => if s =? status then 0 else -1
  end.
Definition smp_ihk_os_wait_for_status (st : nat -> Z) (status sleepable timeout : Z) : Z :=
  if negb (sleepable =? 0) then -1 else poll st status 0 (Z.to_nat timeout).

(** ** __ihk_device_detect_hungup *)

(** The loop over the CPUs: the monitor area, the result, and how often the
    hang was reported (the driver's status set, the event signalled). *)
Fixpoint hungup_scan (l : list ihk_os_cpu_monitor) (ret : Z) : list ihk_os_cpu_monitor * Z * nat :=
  match l with
  | [] => ([], ret, O)
  | m :: l' =>
      if mo_status m =? IHK_OS_MONITOR_PANIC then (l, IHK_OS_STATUS_FAILED, O) else
      let hung := (mo_status m =? IHK_OS_MONITOR_KERNEL) && (mo_counter m =? mo_ocounter m) in
      let ret := if hung then IHK_OS_STATUS_HUNGUP else ret in
      let '(l', r, n) := hungup_scan l' ret in
      (mk_mon (mo_status m) (mo_counter m) (mo_counter m) :: l', r, if hung then S n else n)
  end.

(** [sig]: the wait for os_lock is interrupted; [found]: the slot of the
    instance is not NULL.  The events that were signalled come with the
    result. *)
Definition __ihk_device_detect_hungup (sig found : bool) (a : smp_arch) (k : kernel) : outcome (Z * list Z * kernel) :=
  if sig then Ret (- ERESTARTSYS, [], k) else
  if negb found then Ret (- EINVAL, [], k) else
  ret ← smp_ihk_os_query_status a k;
  if ret =? IHK_OS_STATUS_HUNGUP then Ret (ret, [], k) else
  if negb (ret =? IHK_OS_STATUS_READY) && negb (ret =? IHK_OS_STATUS_RUNNING) then Ret (- EAGAIN, [], k) else
  match kn_monitor k with
  | None => Ret (- ENOSYS, [], k)
  | Some l =>
      let '(l, ret, n) := hungup_scan l ret in
      let k := kn_set_monitor k (Some l) in
      Ret (ret, replicate n IHK_OS_EVENTFD_TYPE_STATUS, if (0 <? n)%nat then kn_set_status k BUILTIN_OS_STATUS_HUNGUP else k)
  end.

(** ** What the monitor area means *)

Definition all_cpus (s : Z) (l : list ihk_os_cpu_monitor) : bool := forallb (fun m => mo_status m =? s) l.
Definition some_cpu (s : Z) (l : list ihk_os_cpu_monitor) : bool := existsb (fun m => mo_status m =? s) l.

(** The status of a kernel that reports [ret] and has the monitor area [l]. *)
Definition phase (ret : Z) (l : list ihk_os_cpu_monitor) : Z :=
  if some_cpu IHK_OS_MONITOR_PANIC l then IHK_OS_STATUS_FAILED
  else if all_cpus IHK_OS_MONITOR_KERNEL_FROZEN l then IHK_OS_STATUS_FROZEN
  else if some_cpu IHK_OS_MONITOR_KERNEL_FREEZING l || some_cpu IHK_OS_MONITOR_KERNEL_FROZEN l then IHK_OS_STATUS_FREEZING
  else ret.

Lemma freeze_scan_frozen l :
  freeze_scan IHK_OS_MONITOR_KERNEL_FROZEN l =
  if all_cpus IHK_OS_MONITOR_KERNEL_FROZEN l then None else Some IHK_OS_STATUS_FREEZING.
Proof.
  induction l as [|m l IH]; simpl; [done|]. destruct (Z.eqb_spec (mo_status m) IHK_OS_MONITOR_KERNEL_FREEZING) as [->|]; [done|].
  by destruct (mo_status m =? IHK_OS_MONITOR_KERNEL_FROZEN).
Qed.

Lemma freeze_scan_other f l :
  f <> IHK_OS_MONITOR_KERNEL_FROZEN ->
  freeze_scan f l =
  if some_cpu IHK_OS_MONITOR_KERNEL_FREEZING l || some_cpu IHK_OS_MONITOR_KERNEL_FROZEN l then Some IHK_OS_STATUS_FREEZING else None.
Proof.
  intros Hf%Z.eqb_neq. induction l as [|m l IH]; simpl; [done|]. rewrite Hf. simpl.
  destruct (mo_status m =? IHK_OS_MONITOR_KERNEL_FREEZING); [done|]. destruct (mo_status m =? IHK_OS_MONITOR_KERNEL_FROZEN); [|done].
  by rewrite orb_true_r.
Qed.

Lemma monitor_status_phase ret l : l <> [] -> monitor_status ret l = Ret (phase ret l).
Proof.
  intros Hl. unfold monitor_status, phase, some_cpu at 1. destruct (existsb _ l); [done|].
  destruct l as [|m l]; [done|]. simpl. destruct (Z.eqb_spec (mo_status m) IHK_OS_MONITOR_KERNEL_FREEZING) as [->|]; [done|].
  destruct (Z.eqb_spec (mo_status m) IHK_OS_MONITOR_KERNEL_FROZEN) as [->|Hf].
  - rewrite freeze_scan_frozen. simpl. destruct (all_cpus _ l); [done|]. by rewrite orb_true_r.
  - rewrite freeze_scan_other by done. simpl. by destruct (_ || _).
Qed.

(** The numbers the boot parameters and the driver's status stand for. *)
Definition running_status (s : Z) : Z := if s =? 2 then IHK_OS_STATUS_READY else IHK_OS_STATUS_RUNNING.

(** C36: a kernel that has announced itself ready or running
    is reported FAILED if a CPU has panicked, FROZEN if all CPUs are frozen,
    FREEZING if some are frozen or freezing, and otherwise READY or RUNNING as
    announced; before that the answer is the driver's own state; on x86_64 the
    query needs the boot parameters even when the kernel was never booted. *)
Theorem query_status_spec a k :
  (a = X86_64 -> kn_param k <> None) ->
  (forall s l, kn_status k = BUILTIN_OS_STATUS_BOOTING -> kn_param k = Some s -> s = 2 \/ s = 3 -> kn_monitor k = Some l -> l <> [] ->
     smp_ihk_os_query_status a k = Ret (phase (running_status s) l)) /\
  (forall s, kn_status k = BUILTIN_OS_STATUS_BOOTING -> kn_param k = Some s -> s <> 2 -> s <> 3 ->
     smp_ihk_os_query_status a k = Ret (if s =? 1 then IHK_OS_STATUS_BOOTED else IHK_OS_STATUS_BOOTING)) /\
  (kn_status k = BUILTIN_OS_STATUS_INITIAL -> smp_ihk_os_query_status a k = Ret IHK_OS_STATUS_NOT_BOOTED) /\
  (kn_status k = BUILTIN_OS_STATUS_HUNGUP -> smp_ihk_os_query_status a k = Ret IHK_OS_STATUS_HUNGUP) /\
  (kn_param k = None -> smp_ihk_os_query_status X86_64 k = Undef).
Proof.
  intros Ha. assert (smp_ihk_os_query_status a k = status_rest k) as E.
  { unfold smp_ihk_os_query_status. destruct a; [|done]. destruct (kn_param k); [done|by destruct (Ha eq_refl)]. }
  rewrite E. unfold status_rest, boot_status. split; [|split; [|split; [|split]]].
  - intros s l -> -> Hs -> Hl. unfold running_status. destruct Hs as [-> | ->]; simpl; by rewrite monitor_status_phase.
  - intros s -> -> H2%Z.eqb_neq H3%Z.eqb_neq. simpl. rewrite H2, H3. by destruct (s =? 1).
  - by intros ->.
  - by intros ->.
  - unfold smp_ihk_os_query_status. by intros ->.
Qed.

(** Two CPUs, one of them frozen. *)
Definition half_frozen : kernel := mk_kernel BUILTIN_OS_STATUS_BOOTING (Some 3) (Some [mk_mon 1 5 5; mk_mon IHK_OS_MONITOR_KERNEL_FROZEN 7 7]).

Lemma query_status_spec_witness : smp_ihk_os_query_status X86_64 half_frozen = Ret IHK_OS_STATUS_FREEZING.
Proof.
  destruct (query_status_spec X86_64 half_frozen) as (H & _); [discriminate|].
  apply (H 3 [mk_mon 1 5 5; mk_mon IHK_OS_MONITOR_KERNEL_FROZEN 7 7]); [reflexivity|reflexivity|by right|reflexivity|discriminate].
Defined.

(** ** Polling *)

Lemma poll_spec st status n timeout :
  status < IHK_OS_STATUS_SHUTDOWN ->
  poll st status n timeout = 0 <->
  exists j, (n <= j <= n + timeout)%nat /\ u32 (st j) = status /\ forall i, (n <= i < j)%nat -> u32 (st i) < IHK_OS_STATUS_SHUTDOWN.
Proof.
  intros Hst. revert n. induction timeout as [|t IH]; intros n; cbn [poll]; destruct (Z.eqb_spec (u32 (st n)) status) as [E|E]; cbn [negb andb].
  - split; [|done]. intros _. exists n. split; [lia|]. split; [done|lia].
  - split; [done|]. intros (j & Hj & Ej & _). assert (j = n) as -> by lia. done.
  - split; [|done]. intros _. exists n. split; [lia|]. split; [done|lia].
  - destruct (Z.ltb_spec (u32 (st n)) IHK_OS_STATUS_SHUTDOWN) as [Hlt|Hge].
    + rewrite IH. split; intros (j & Hj & Ej & Hb).
      * exists j. split; [lia|]. split; [done|]. intros i Hi. destruct (decide (i = n)) as [->|]; [done|]. apply Hb. lia.
      * exists j. assert (j <> n) by (intros ->; done). split; [lia|]. split; [done|]. intros i Hi. apply Hb. lia.
    + split; [done|]. intros (j & Hj & Ej & Hb). destruct (decide (j = n)) as [->|]; [done|]. specialize (Hb n). lia.
Qed.

(** A wait that may not sleep ends after at most
    timeout + 1 polls, and reports success exactly when one of them finds the
    wanted status and none before it finds the kernel shutting down, failed or
    hung; a wait that may sleep is not implemented and fails. *)
Theorem wait_for_status_spec st status sleepable timeout :
  status < IHK_OS_STATUS_SHUTDOWN ->
  smp_ihk_os_wait_for_status st status sleepable timeout = 0 <->
  sleepable = 0 /\ exists j, Z.of_nat j <= Z.max 0 timeout /\ u32 (st j) = status /\
  forall i, (i < j)%nat -> u32 (st i) < IHK_OS_STATUS_SHUTDOWN.
Proof.
  intros Hst. unfold smp_ihk_os_wait_for_status. destruct (Z.eqb_spec sleepable 0) as [->|]; cbn [negb]; [|split; [done|by intros [? _]]].
  rewrite poll_spec by done. split.
  - intros (j & Hj & Ej & Hb). split; [done|]. exists j. split; [lia|]. split; [done|]. intros i Hi. apply Hb. lia.
  - intros (_ & j & Hj & Ej & Hb). exists j. split; [lia|]. split; [done|]. intros i Hi. apply Hb. lia.
Qed.

Lemma wait_for_status_spec_witness :
  smp_ihk_os_wait_for_status (fun n => if (n <? 2)%nat then IHK_OS_STATUS_BOOTING else IHK_OS_STATUS_READY) IHK_OS_STATUS_READY 0 100 = 0.
Proof.
  apply wait_for_status_spec; [reflexivity|]. split; [reflexivity|]. exists 2%nat. split; [vm_compute; discriminate|].
  split; [reflexivity|]. intros i Hi. rewrite (proj2 (Nat.ltb_lt i 2) Hi). reflexivity.
Defined.

(** ** Hangs *)

(** A CPU that has stayed in the kernel since the last check. *)
Definition stuck (m : ihk_os_cpu_monitor) : bool := (mo_status m =? IHK_OS_MONITOR_KERNEL) && (mo_counter m =? mo_ocounter m).
Definition checked (m : ihk_os_cpu_monitor) : ihk_os_cpu_monitor := mk_mon (mo_status m) (mo_counter m) (mo_counter m).

Lemma hungup_scan_spec l ret :
  some_cpu IHK_OS_MONITOR_PANIC l = false ->
  hungup_scan l ret = (map checked l, if existsb stuck l then IHK_OS_STATUS_HUNGUP else ret, length (List.filter stuck l)).
Proof.
  revert ret. induction l as [|m l IH]; intros ret; simpl; [done|]. intros [Hm Hl]%orb_false_elim. rewrite Hm.
  rewrite IH by done. change ((mo_status m =? IHK_OS_MONITOR_KERNEL) && (mo_counter m =? mo_ocounter m)) with (stuck m).
  by destruct (stuck m), (existsb stuck l).
Qed.

Lemma stuck_filter l : existsb stuck l = false <-> List.filter stuck l = [].
Proof. induction l as [|m l IH]; simpl; [done|]. destruct (stuck m); simpl; [split; done|done]. Qed.

(** The kernel is up and none of its CPUs has panicked or is frozen. *)
Definition up (a : smp_arch) (k : kernel) (ret : Z) (l : list ihk_os_cpu_monitor) : Prop :=
  smp_ihk_os_query_status a k = Ret ret /\ (ret = IHK_OS_STATUS_READY \/ ret = IHK_OS_STATUS_RUNNING) /\ kn_monitor k = Some l.

Lemma up_no_panic a k ret l : up a k ret l -> some_cpu IHK_OS_MONITOR_PANIC l = false.
Proof.
  intros (E & Hret & Hl). unfold smp_ihk_os_query_status in E. assert (status_rest k = Ret ret) as Er by (destruct a; [by destruct (kn_param k)|done]).
  unfold status_rest in Er. destruct (boot_status k) as [r|]; [|done]. simpl in Er. rewrite Hl in Er.
  destruct (negb _ && negb _) eqn:En.
  - injection Er as ->. destruct Hret as [-> | ->]; done.
  - unfold monitor_status in Er. unfold some_cpu. destruct (existsb _ l); [|done]. injection Er as <-. by destruct Hret.
Qed.

(** C37: a check of a kernel that is up reports HUNGUP
    exactly when some CPU is in the kernel with the counter of the last check;
    it then signals the status event and the driver remembers the hang, so that
    every later query and check reports it; otherwise the answer is the status
    and no event is sent.  The counters are remembered, so that a CPU that
    stays in the kernel without progress is found by the next check. *)
Theorem detect_hungup_correct a k ret l :
  up a k ret l ->
  let k' := kn_set_monitor k (Some (map checked l)) in
  (existsb stuck l = false -> __ihk_device_detect_hungup false true a k = Ret (ret, [], k')) /\
  (existsb stuck l = true -> exists evs, evs <> [] /\ Forall (eq IHK_OS_EVENTFD_TYPE_STATUS) evs /\
     __ihk_device_detect_hungup false true a k = Ret (IHK_OS_STATUS_HUNGUP, evs, kn_set_status k' BUILTIN_OS_STATUS_HUNGUP)) /\
  (forall k2, kn_status k2 = BUILTIN_OS_STATUS_HUNGUP -> kn_param k2 <> None ->
     __ihk_device_detect_hungup false true a k2 = Ret (IHK_OS_STATUS_HUNGUP, [], k2)) /\
  (forall k2 ret2 l2 i m m2, up a k2 ret2 l2 -> map checked l !! i = Some m -> l2 !! i = Some m2 ->
     mo_status m2 = IHK_OS_MONITOR_KERNEL -> mo_counter m2 = mo_counter m -> mo_ocounter m2 = mo_ocounter m -> existsb stuck l2 = true).
Proof.
  intros Hup k'. pose proof (up_no_panic a k ret l Hup) as Hp. destruct Hup as (E & Hret & Hl).
  assert (__ihk_device_detect_hungup false true a k =
    Ret (if existsb stuck l then IHK_OS_STATUS_HUNGUP else ret, replicate (length (List.filter stuck l)) IHK_OS_EVENTFD_TYPE_STATUS,
         if (0 <? length (List.filter stuck l))%nat then kn_set_status k' BUILTIN_OS_STATUS_HUNGUP else k')) as Ed.
  { unfold __ihk_device_detect_hungup. cbn [negb]. rewrite E. cbn [mbind outcome_bind].
    destruct Hret as [-> | ->]; cbn [Z.eqb negb andb IHK_OS_STATUS_HUNGUP IHK_OS_STATUS_READY IHK_OS_STATUS_RUNNING]; rewrite Hl, hungup_scan_spec by done; done. }
  rewrite Ed. split; [|split; [|split]].
  - intros Hs. rewrite Hs. apply stuck_filter in Hs. by rewrite Hs.
  - intros Hs. rewrite Hs. destruct (List.filter stuck l) as [|m r] eqn:Ef; [apply stuck_filter in Ef; congruence|].
    eexists. split; [|split; [|reflexivity]]; [done|]. apply Forall_forall. intros x Hx. symmetry. by apply elem_of_replicate in Hx as [? _].
  - intros k2 H1 H2. unfold __ihk_device_detect_hungup, smp_ihk_os_query_status, status_rest, boot_status. rewrite H1.
    destruct a; [|done]. by destruct (kn_param k2).
  - intros k2 ret2 l2 i m m2 _ Hm Hm2 Hst Hc Ho. apply existsb_exists. exists m2. split; [by apply list_elem_of_In, (list_elem_of_lookup_2 _ i)|].
    apply list_lookup_fmap_Some in Hm as (m0 & -> & _). unfold stuck. rewrite Hst, Hc, Ho. simpl. by rewrite Z.eqb_refl.
Qed.

Definition busy : kernel := mk_kernel BUILTIN_OS_STATUS_BOOTING (Some 3) (Some [mk_mon 2 5 5; mk_mon IHK_OS_MONITOR_KERNEL 7 7]).

Lemma detect_hungup_correct_witness :
  __ihk_device_detect_hungup false true X86_64 busy =
    Ret (IHK_OS_STATUS_HUNGUP, [2], mk_kernel BUILTIN_OS_STATUS_HUNGUP (Some 3) (kn_monitor busy)) /\
  exists evs k', __ihk_device_detect_hungup false true X86_64 busy = Ret (IHK_OS_STATUS_HUNGUP, evs, k') /\ evs <> [].
Proof.
  split; [reflexivity|].
  destruct (detect_hungup_correct X86_64 busy IHK_OS_STATUS_RUNNING [mk_mon 2 5 5; mk_mon IHK_OS_MONITOR_KERNEL 7 7]) as (_ & H & _).
  { split; [reflexivity|]. split; [by right|reflexivity]. }
  destruct (H eq_refl) as (evs & He & _ & Ed). exists evs, (kn_set_status (kn_set_monitor busy (Some (map checked [mk_mon 2 5 5; mk_mon IHK_OS_MONITOR_KERNEL 7 7]))) BUILTIN_OS_STATUS_HUNGUP).
  split; [exact Ed|exact He].
Defined.
