(* ===== verification/HostReq.v ===== *)
(** * The requests of the host driver core (src/linux/core/host_driver.c)

    What ioctl and write on the files of instances and devices do: loading,
    kernel arguments, resources, events, the monitor of a kernel, memory of a
    kernel, handlers that other modules register, and the two functions that
    dispatch requests.  HostOs.v has the life cycle of instances; HostIoctl.v
    has the theorems. *)

From stdpp Require Import base tactics numbers list gmap.
From S2P Require Import Prelude Kmsg HostData HostOs SmpData SmpStatus.

Open Scope ihk_scope.

(** ** What the core uses of Linux *)

(** Memory at addresses of Linux, the monitor of a kernel as the list of its
    CPUs, and event descriptors. *)
Class HostLinux (D : Type) : Type := {
  kv_read : Z -> Z -> io D (list Z);
  mon_get : Z -> io D (list ihk_os_cpu_monitor);
  mon_put : Z -> list ihk_os_cpu_monitor -> io D unit;
  phys_to_virt : Z -> Z;
  eventfd_signal : Z -> io D unit;
}.

(** The memory of the calling process: copy_from_user, whether copy_to_user
    succeeds, strndup_user and strncpy_from_user ([None]: an error). *)
Record user : Type := mk_user {
  us_read : Z -> Z -> option (list Z);
  us_write : Z -> Z -> bool;
  us_string : Z -> Z -> option (list Z);
  us_prefix : Z -> Z -> option (list Z);
}.

(** An open file: its size, and kernel_read with a position and a length. *)
Record kfile : Type := mk_kfile { kf_size : Z; kf_read : Z -> Z -> Z * list Z }.

(** A call: the effective user, its memory, files (filp_open) and event
    descriptors (the context, or an error), whether allocations succeed and
    waits are interrupted, and what a creation gets. *)
Record call : Type := mk_call {
  c_euid : Z;
  c_user : user;
  c_open : list Z -> option kfile;
  c_event : Z -> Z;
  c_alloc : bool;
  c_sig : bool;
  c_msig : bool;
  c_create : create_env;
}.

(** The result, and what is copied to user space. *)
Definition reply : Type := Z * list (Z * list Z).

Definition IHK_RESOURCE_FLAG_CPU_SPECIFIED : Z := 1.
Definition IHK_RESOURCE_FLAG_MEM_SPECIFIED : Z := 2.
Definition IHK_OS_READ_KADDR_PHYS : Z := 1.
Definition IHK_SPADDR_MONITOR : Z := 4.
Definition IHK_SPADDR_RUSAGE : Z := 5.
(** sizeof(struct ihk_os_monitor), struct ihk_os_cpu_monitor, dumpargs_t *)
Definition sizeof_monitor : Z := 1032.
Definition sizeof_cpu_monitor : Z := 24.
Definition sizeof_dumpargs : Z := 64.
Definition IHK_OS_AUX_CALL_START : Z := 0x10000000.
Definition IHK_OS_AUX_CALL_END : Z := 0x7fffffff.

(** Fields of a structure. *)
Definition field (off len : nat) (b : list Z) : Z := le_value (take len (drop off b)).

Section req.
Context {D : Type} `{!IkcMaster D} `{!HostLinux D}.
Abbreviation host := (host D).

(** ** Loading *)

Definition __ihk_os_load_memory (os : Z) (buf : list Z) (offset : Z) : io host Z := os_body op_load_mem os (fun f => f buf offset).

(** The pieces of the file; each round but the last loads at least a byte. *)
Fixpoint load_pieces (fuel : nat) (kf : kfile) (os size done ret : Z) : io host Z :=
  if negb (ret =? 0) || (size <=? done) then io_ret ret else
  match fuel with
  | O => io_undef
  | S fuel' =>
      let '(r, bytes) := kf_read kf done PAGE_SIZE in
      if r <=? 0 then io_ret (s32 r) else
      ret <- __ihk_os_load_memory os bytes done ;;
      load_pieces fuel' kf os size (done + r) ret
  end.

Definition __ihk_os_load_file (c : call) (os : Z) (fn : list Z) : io host Z :=
  o <- get_os os ;;
  ops <- io_some (o_ops o) ;;
  match op_load_file ops, op_load_mem ops with
  | Some f, _ => on_drv (f os (o_priv o) fn)
  | None, Some _ =>
      match c_open c fn with
      | None => io_ret (- ENOENT)
      | Some kf =>
          if kf_size kf <=? 0 then io_ret (- EINVAL) else
          if negb (c_alloc c) then io_ret (- ENOMEM) else
          load_pieces (Z.to_nat (kf_size kf)) kf os (kf_size kf) 0 0
      end
  | None, None => io_ret (- EINVAL)
  end.

(** __ihk_os_ioctl_load: strndup_user reports errors as pointers, which are
    used as names. *)
Definition __ihk_os_ioctl_load (c : call) (os filename : Z) : io host Z :=
  match us_string (c_user c) filename 256 with
  | None => io_undef
  | Some fn => __ihk_os_load_file c os fn
  end.

(** ihk_host_os_write: the result and the new offset *)
Definition ihk_host_os_write (c : call) (file buf size off : Z) : io host (Z * Z) :=
  ifile <- get_file file ;;
  if PAGE_SIZE * 16 <? size then io_ret (- E2BIG, off) else
  if negb (c_alloc c) then io_ret (- ENOMEM, off) else
  match us_read (c_user c) buf size with
  | None => io_ret (- EFAULT, off)
  | Some b =>
      r <- __ihk_os_load_memory (f_osdata ifile) b off ;;
      io_ret (if r =? 0 then (size, off + size) else (r, off))
  end.

(** ** Resources and arguments *)

Definition __ihk_os_alloc_resource (os : Z) (r : ihk_resource) : io host Z := os_body op_alloc_resource os (fun f => f r).
Definition __ihk_os_allocate_mem (os arg : Z) : io host Z := __ihk_os_alloc_resource os (mk_res 0 0 arg 0 []).
Definition __ihk_os_allocate_cpu (os arg : Z) : io host Z := __ihk_os_alloc_resource os (mk_res 0 (s32 arg) 0 0 []).

Fixpoint read_ints (u : user) (p : Z) (n : nat) : option (list Z) :=
  match n with
  | O => Some []
  | S n' =>
      match us_read u p 4, read_ints u (p + 4) n' with
      | Some b, Some l => Some (s32 (le_value b) :: l)
      | _, _ => None
      end
  end.

Definition __ihk_os_reserve_cpu (c : call) (os ptr : Z) : io host Z :=
  match us_read (c_user c) ptr 4 with
  | None => io_ret (- EFAULT)
  | Some b =>
      let n := s32 (le_value b) in
      if (n <? 0) || (512 <? n) then io_ret (- EINVAL) else
      if negb (c_alloc c) then io_ret (- ENOMEM) else
      match read_ints (c_user c) (ptr + 4) (Z.to_nat n) with
      | None => io_ret (- EFAULT)
      | Some cores => __ihk_os_alloc_resource os (mk_res IHK_RESOURCE_FLAG_CPU_SPECIFIED n 0 0 cores)
      end
  end.

Definition __ihk_os_reserve_mem (c : call) (os ptr : Z) : io host Z :=
  match us_read (c_user c) ptr 16 with
  | None => io_ret (- EFAULT)
  | Some b => __ihk_os_alloc_resource os (mk_res IHK_RESOURCE_FLAG_MEM_SPECIFIED 0 (field 8 8 b) (field 0 8 b) [])
  end.

Definition __ihk_os_set_kargs (c : call) (os buf : Z) : io host Z :=
  if negb (c_alloc c) then io_ret (- ENOMEM) else
  match us_prefix (c_user c) buf 1024 with
  | None => io_ret (- EFAULT)
  | Some s => os_body op_set_kargs os (fun f => f (take 1023 s))
  end.

(** ** Areas that a kernel reports *)

(** setup_monitor and setup_rusage: the area is mapped when it is first used. *)
Definition setup_area (type : Z) (get : ihk_host_linux_os_data D -> Z)
    (set : ihk_host_linux_os_data D -> Z -> ihk_host_linux_os_data D) (os : Z) : io host unit :=
  o <- get_os os ;;
  if negb (get o =? 0) then io_ret tt else
  ops <- io_some (o_ops o) ;;
  match op_get_special_addr ops with
  | None => io_ret tt
  | Some f =>
      ' (ret, rpa, size) <- on_drv (f os (o_priv o) type) ;;
      if negb (ret =? 0) then io_ret tt else
      let psize := u64 (u64 (size + PAGE_SIZE - 1) / PAGE_SIZE * PAGE_SIZE) in
      pa <- os_body op_map_memory os (fun f => f rpa psize) ;;
      d <- get_dev (o_dev_data o) ;;
      v <- match dv_map_virtual (d_ops d) with Some f => on_drv (f (o_dev_data o) (d_priv d) (u64 pa) psize 0 0) | None => io_ret 0 end ;;
      upd_os os (fun o => set o v)
  end.
Definition host_setup_monitor (os : Z) : io host unit := setup_area IHK_SPADDR_MONITOR o_monitor o_set_monitor os.
Definition setup_rusage (os : Z) : io host unit := setup_area IHK_SPADDR_RUSAGE o_rusage o_set_rusage os.
Definition ihk_os_get_rusage (os : Z) : io host Z := setup_rusage os ;;; o <- get_os os ;; io_ret (o_rusage o).

(** copy_to_user *)
Definition to_user (c : call) (dst : Z) (b : list Z) (ret : Z) : reply :=
  if us_write (c_user c) dst (Z.of_nat (length b)) then (ret, [(dst, b)]) else (- EFAULT, []).

Definition __ihk_os_get_usage (c : call) (os arg : Z) : io host reply :=
  host_setup_monitor os ;;;
  o <- get_os os ;;
  if o_monitor o =? 0 then io_ret (- ENOSYS, []) else
  b <- on_drv (kv_read (o_monitor o) sizeof_monitor) ;;
  io_ret (to_user c arg b 0).

Definition __ihk_os_get_cpu_usage (c : call) (os arg : Z) : io host reply :=
  host_setup_monitor os ;;;
  o <- get_os os ;;
  if o_monitor o =? 0 then io_ret (- ENOSYS, []) else
  n <- on_drv (kv_read (o_monitor o) 8) ;;
  let size := u64 (s32 (u64 (sizeof_cpu_monitor * le_value n))) in
  b <- on_drv (kv_read (o_monitor o + sizeof_monitor) size) ;;
  io_ret (to_user c arg b 0).

(** ** Events *)

Definition ihk_os_eventfd (os type : Z) : io host unit :=
  o <- get_os os ;;
  io_iter (fun '(ctx, t) => if t =? type then on_drv (eventfd_signal ctx) else io_ret tt) (o_events o).

(** __ihk_os_register_event: the memory for the event is used unchecked. *)
Definition __ihk_os_register_event (c : call) (os desc : Z) : io host Z :=
  match us_read (c_user c) desc 8 with
  | None => io_ret (- EFAULT)
  | Some b =>
      let ctx := c_event c (s32 (field 0 4 b)) in
      if ctx <? 0 then io_ret ctx else
      if negb (c_alloc c) then io_undef else
      upd_os os (fun o => o_set_events o (o_events o ++ [(ctx, s32 (field 4 4 b))])) ;;; io_ret 0
  end.

(** __ihk_device_detect_hungup; the monitor is scanned by SmpStatus.hungup_scan,
    each hang is announced. *)
Definition host_detect_hungup (c : call) (arg : Z) : io host Z :=
  if c_msig c then io_ret (- ERESTARTSYS) else
  if OS_MAX_MINOR <? arg then io_ret (- EINVAL) else
  os <- get_slot arg ;;
  if os =? 0 then io_ret (- EINVAL) else
  ret <- __ihk_os_query_status os ;;
  if ret =? IHK_OS_STATUS_HUNGUP then io_ret ret else
  if negb (ret =? IHK_OS_STATUS_READY) && negb (ret =? IHK_OS_STATUS_RUNNING) then io_ret (- EAGAIN) else
  host_setup_monitor os ;;;
  o <- get_os os ;;
  if o_monitor o =? 0 then io_ret (- ENOSYS) else
  l <- on_drv (mon_get (o_monitor o)) ;;
  let '(l, ret, n) := hungup_scan l ret in
  io_iter (fun _ => __ihk_os_notify_hungup os ;;; ihk_os_eventfd os IHK_OS_EVENTFD_TYPE_STATUS) (seq 0 n) ;;;
  on_drv (mon_put (o_monitor o) l) ;;;
  io_ret ret.

(** ** Memory of a kernel *)

(** __ihk_os_dump *)
Definition __ihk_os_dump (c : call) (os uargsp : Z) : io host reply :=
  match us_read (c_user c) uargsp sizeof_dumpargs with
  | None => io_ret (- EFAULT, [])
  | Some args =>
      o <- get_os os ;;
      ops <- io_some (o_ops o) ;;
      ' (error, args) <- match op_dump ops with Some f => on_drv (f os (o_priv o) args) | None => io_ret (- EFAULT, args) end ;;
      io_ret (to_user c uargsp args error)
  end.

(** __ihk_os_read_kaddr *)
Definition __ihk_os_read_kaddr (c : call) (os arg : Z) : io host reply :=
  match us_read (c_user c) arg 32 with
  | None => io_ret (- EFAULT, [])
  | Some b =>
      let kaddr := field 0 8 b in
      ' (ret, phys) <- (if negb (Z.land (field 24 4 b) IHK_OS_READ_KADDR_PHYS =? 0) then io_ret (0, kaddr) else
                        o <- get_os os ;;
                        ops <- io_some (o_ops o) ;;
                        f <- io_some (op_vtop ops) ;;
                        on_drv (f os (o_priv o) kaddr)) ;;
      if negb (ret =? 0) then io_ret (- EFAULT, []) else
      bytes <- on_drv (kv_read (phys_to_virt phys) (field 8 8 b)) ;;
      io_ret (to_user c (field 16 8 b) bytes 0)
  end.

(** ** Handlers of other modules *)

Definition find_handler (aux : list (Z * list (ihk_os_user_call_handler D))) (request : Z) : option (ihk_os_user_call_handler D) :=
  List.find (fun h => uc_request h =? request) (concat (map snd aux)).

Definition __ihk_os_ioctl_call_aux (os request arg file : Z) : io host Z :=
  o <- get_os os ;;
  match find_handler (o_aux o) request with
  | Some h => on_drv (uc_func h os request (uc_priv h) arg file)
  | None => io_ret (- EINVAL)
  end.

(** ihk_os_register_user_call_handlers, with the handlers at [clist];
    ihk_os_unregister_user_call_handlers *)
Definition ihk_os_register_user_call_handlers (os clist : Z) (handlers : list (ihk_os_user_call_handler D)) : io host Z :=
  if existsb (fun h => (uc_request h <? IHK_OS_AUX_CALL_START) || (IHK_OS_AUX_CALL_END <? uc_request h)) handlers
  then io_ret (- EINVAL)
  else upd_os os (fun o => o_set_aux o (o_aux o ++ [(clist, handlers)])) ;;; io_ret 0.
Definition ihk_os_unregister_user_call_handlers (os clist : Z) : io host unit :=
  upd_os os (fun o => o_set_aux o (List.filter (fun x => negb (fst x =? clist)) (o_aux o))).

Definition ihk_host_os_set_usrdata (os data : Z) : io host unit := upd_os os (fun o => o_set_usrdata o data).
Definition ihk_host_os_get_usrdata (os : Z) : io host Z := o <- get_os os ;; io_ret (o_usrdata o).

Definition ihk_os_set_kernel_call_handlers (os : Z) (handlers : option (ihk_os_kernel_call_handler D)) : io host Z :=
  upd_os os (fun o => o_set_handlers o handlers) ;;; io_ret 0.
Definition ihk_os_clear_kernel_call_handlers (os : Z) : io host Z := upd_os os (fun o => o_set_handlers o None) ;;; io_ret 0.

(** ihk_os_read_cpu_register and ihk_os_write_cpu_register, which differ in the
    handler; get_cpu_info gives the number of CPUs. *)
Definition cpu_register (sel : ihk_os_kernel_call_handler D -> option (Z -> Z -> Z -> io D Z)) (os cpu desc : Z) : io host Z :=
  ret <- ihk_host_validate_os os ;;
  if negb (ret =? 0) then io_ret ret else
  if (os =? 0) || (desc =? 0) then io_ret (- EFAULT) else
  o <- get_os os ;;
  ops <- io_some (o_ops o) ;;
  if cpu <? 0 then io_ret (- EINVAL) else
  f <- io_some (op_get_cpu_info ops) ;;
  n_cpus <- on_drv (f os (o_priv o)) ;;
  if n_cpus <=? cpu then io_ret (- EINVAL) else
  match o_kernel_handlers o ≫= sel with
  | None => io_ret (- EINVAL)
  | Some f => on_drv (f os cpu desc)
  end.
Definition ihk_os_read_cpu_register : Z -> Z -> Z -> io host Z := cpu_register kc_read_cpu_register.
Definition ihk_os_write_cpu_register : Z -> Z -> Z -> io host Z := cpu_register kc_write_cpu_register.

(** ihk_get_request_os_cpu; [nulls]: one of the pointers is NULL.  The result,
    the instance and the CPU. *)
Definition ihk_get_request_os_cpu (nulls : bool) : io host (Z * Z * Z) :=
  if nulls then io_ret (- EFAULT, 0, 0) else
  os <- ihk_host_find_os 0 0 ;;
  if os =? 0 then io_ret (- EINVAL, 0, 0) else
  o <- get_os os ;;
  match o_kernel_handlers o ≫= kc_get_request_cpu with
  | None => io_ret (- EINVAL, 0, 0)
  | Some f => ' (ret, cpu) <- on_drv (f os) ;; io_ret (ret, os, cpu)
  end.
End req.

(** ** Mapping of memory *)

Section map.
Context {D : Type} `{!IkcMaster D} `{!HostLinux D}.
Abbreviation host := (host D).

Definition PAGE_MASK : Z := - PAGE_SIZE.
(** The pages of a range *)
Definition page_first (pa : Z) : Z := Z.land pa PAGE_MASK.
Definition page_last (pa size : Z) : Z := Z.land (u64 (pa + size + PAGE_SIZE - 1)) PAGE_MASK.

Definition dev_body {F} (sel : ihk_device_ops D -> op F) (dev none : Z) (k : F -> io D Z) : io host Z :=
  d <- get_dev dev ;;
  match sel (d_ops d) with
  | Some f => on_drv (k (f dev (d_priv d)))
  | None => io_ret none
  end.

(** The address in the mapped pages; what is not positive is an error. *)
Definition mapped (pa r : Z) : Z := if s64 r <=? 0 then r else u64 (r + Z.land pa (PAGE_SIZE - 1)).

Definition ihk_os_map_memory (os pa size : Z) : io host Z :=
  r <- os_body op_map_memory os (fun f => f (page_first pa) (u64 (page_last pa size - page_first pa))) ;;
  io_ret (mapped pa (u64 r)).
Definition ihk_os_unmap_memory (os pa size : Z) : io host Z :=
  os_body op_unmap_memory os (fun f => f (page_first pa) (u64 (page_last pa size - page_first pa))).
Definition ihk_device_map_memory (dev pa size : Z) : io host Z :=
  r <- dev_body dv_map_memory dev (- EINVAL) (fun f => f (page_first pa) (u64 (page_last pa size - page_first pa))) ;;
  io_ret (mapped pa (u64 r)).
Definition ihk_device_unmap_memory (dev pa size : Z) : io host Z :=
  dev_body dv_unmap_memory dev (- EINVAL) (fun f => f (page_first pa) (u64 (page_last pa size - page_first pa))).
Definition ihk_device_map_virtual (dev pa size virtual flag : Z) : io host Z :=
  dev_body dv_map_virtual dev 0 (fun f => f pa size virtual flag).
Definition ihk_device_unmap_virtual (dev virtual size : Z) : io host Z :=
  dev_body dv_unmap_virtual dev (- EINVAL) (fun f => f virtual (s32 size)).

(** ihk_host_device_read and ihk_host_device_write: [copy] moves bytes between
    the process and the mapped memory and returns how many it did not move.
    The mapping of the device's memory itself is kept. *)
Definition device_rw (copy : Z -> io D Z) (file size off : Z) : io host (Z * Z) :=
  h <- io_gets id ;;
  dev <- io_some (h_dev_files h !! file) ;;
  pa <- ihk_device_map_memory dev off size ;;
  if s64 pa <=? 0 then io_ret (- EINVAL, off) else
  va <- ihk_device_map_virtual dev pa size 0 0 ;;
  if va =? 0 then io_ret (- ENOMEM, off) else
  rest <- on_drv (copy va) ;;
  let s := if 0 <? rest then u64 (size - rest) else size in
  ihk_device_unmap_virtual dev va size ;;;
  io_ret (s, off + s).

(** struct ihk_host_map_data of a mapping by mmap: the number of its users and
    the address; ihk_host_device_mmap_open, ihk_host_device_mmap_close ([None]:
    the structure is freed). *)
Definition map_data : Type := Z * Z.
Definition ihk_host_device_mmap_open (md : map_data) : map_data := (s32 (fst md + 1), snd md).
Definition ihk_host_device_mmap_close (dev len : Z) (md : map_data) : io host (option map_data) :=
  let count := s32 (fst md - 1) in
  if 0 <? count then io_ret (Some (count, snd md)) else
  ihk_device_unmap_memory dev (snd md) len ;;; io_ret None.

(** ihk_host_device_mmap: [r] is the result of remap_pfn_range; the memory for
    the structure is used unchecked. *)
Definition ihk_host_device_mmap (alloc : bool) (r dev pgoff len : Z) : io host (Z * option map_data) :=
  pa <- ihk_device_map_memory dev (u64 (Z.shiftl pgoff 12)) len ;;
  if s64 pa <=? 0 then io_ret (- EINVAL, None) else
  if negb (r =? 0) then io_ret (r, None) else
  if negb alloc then io_undef else
  io_ret (r, Some (ihk_host_device_mmap_open (0, pa))).

(** The module's end: every slot is marked, and what was marked already is
    unregistered. *)
Fixpoint exit_from (sg : Z -> bool * bool) (i : Z) (n : nat) : io host unit :=
  match n with
  | O => io_ret tt
  | S n' =>
      dev <- get_dev_slot i ;;
      set_dev_slot i DEV_DATA_INVALID ;;;
      (if dev =? DEV_DATA_INVALID then ihk_unregister_device sg dev ;;; io_ret tt else io_ret tt) ;;;
      exit_from sg (i + 1) n'
  end.
Definition ihk_exit (sg : Z -> bool * bool) : io host unit := max <- io_gets h_dev_max_minor ;; exit_from sg 0 (Z.to_nat max).
End map.

(** ** Requests to an instance *)

Inductive os_request : Type :=
| OS_LOAD | OS_BOOT | OS_SHUTDOWN | OS_ALLOC_CPU | OS_ALLOC_MEM | OS_RESERVE_CPU | OS_RESERVE_MEM
| OS_ASSIGN_CPU | OS_RELEASE_CPU | OS_SET_IKC_MAP | OS_GET_IKC_MAP | OS_GET_BUILDID | OS_GET_NUM_CPUS
| OS_QUERY_CPU | OS_ASSIGN_MEM | OS_RELEASE_MEM | OS_QUERY_MEM | OS_QUERY_STATUS | OS_NOTIFY_HUNGUP
| OS_GET_NUM_NUMA_NODES | OS_QUERY_FREE_MEM | OS_SET_KARGS | OS_READ_KMSG | OS_STATUS | OS_CLEAR_KMSG
| OS_DUMP | OS_REGISTER_EVENT | OS_EVENTFD | OS_FREEZE | OS_THAW | OS_GET_USAGE | OS_GET_CPU_USAGE
| OS_READ_KADDR | OS_DEBUG | OS_AUX | OS_OTHER.

(** The numbers of the requests (src/linux/include/ihk/ihk_host_user.h) *)
Definition os_codes : list (Z * os_request) :=
  [(0x112a00, OS_LOAD); (0x112a01, OS_BOOT); (0x112a02, OS_SHUTDOWN); (0x112a03, OS_QUERY_STATUS); (0x112a04, OS_SET_KARGS);
   (0x112a05, OS_QUERY_FREE_MEM); (0x112a06, OS_DUMP); (0x112a10, OS_ALLOC_CPU); (0x112a11, OS_ALLOC_MEM); (0x112a12, OS_RESERVE_CPU);
   (0x112a13, OS_RESERVE_MEM); (0x112a14, OS_STATUS); (0x112a15, OS_REGISTER_EVENT); (0x112a16, OS_EVENTFD); (0x112a20, OS_READ_KMSG);
   (0x112a21, OS_CLEAR_KMSG); (0x112a22, OS_ASSIGN_CPU); (0x112a23, OS_RELEASE_CPU); (0x112a24, OS_ASSIGN_MEM); (0x112a25, OS_RELEASE_MEM);
   (0x112a26, OS_QUERY_CPU); (0x112a27, OS_QUERY_MEM); (0x112a28, OS_SET_IKC_MAP); (0x112a29, OS_GET_IKC_MAP); (0x112a30, OS_FREEZE);
   (0x112a31, OS_THAW); (0x112a32, OS_GET_USAGE); (0x112a33, OS_GET_CPU_USAGE); (0x112a34, OS_GET_NUM_NUMA_NODES);
   (0x112a35, OS_NOTIFY_HUNGUP); (0x112a37, OS_GET_BUILDID); (0x112a38, OS_GET_NUM_CPUS); (0x112a39, OS_READ_KADDR)].

Definition os_request_of (request : Z) : os_request :=
  match List.find (fun x => fst x =? request) os_codes with
  | Some x => snd x
  | None =>
      if (0x122a00 <=? request) && (request <=? 0x122aff) then OS_DEBUG else
      if (IHK_OS_AUX_CALL_START <=? request) && (request <=? IHK_OS_AUX_CALL_END) then OS_AUX else OS_OTHER
  end.

(** __ihk_os_ioctl_perm *)
Definition __ihk_os_ioctl_perm (euid : Z) (r : os_request) : Z :=
  match r with
  | OS_QUERY_STATUS | OS_GET_NUM_NUMA_NODES | OS_QUERY_FREE_MEM | OS_ALLOC_CPU | OS_ALLOC_MEM | OS_RESERVE_CPU | OS_RESERVE_MEM
  | OS_READ_KMSG | OS_CLEAR_KMSG | OS_QUERY_CPU | OS_QUERY_MEM | OS_GET_BUILDID | OS_STATUS | OS_GET_USAGE | OS_GET_CPU_USAGE
  | OS_GET_NUM_CPUS | OS_READ_KADDR | OS_DEBUG | OS_AUX => 0
  | _ => if negb (euid =? 0) then - EPERM else 0
  end.

Section ioctl.
Context {D : Type} `{!IkcMaster D} `{!HostLinux D}.
Abbreviation host := (host D).

(** A handler that copies nothing back itself *)
Definition code (m : io host Z) : io host reply := x <- m ;; io_ret (x, []).

(** IHK_OS_READ_KMSG *)
Definition ioctl_read_kmsg (c : call) (os arg : Z) : io host reply :=
  ' (ret, text) <- __ihk_os_read_kmsg (c_alloc c) true os ;;
  io_ret (if ret <? 0 then (ret, []) else if us_write (c_user c) arg ret then (ret, [(arg, text)]) else (- EINVAL, [])).

Definition __ihk_os_ioctl_debug_request (os request arg : Z) : io host Z :=
  x <- os_body op_debug_request os (fun f => f request arg) ;; io_ret (s32 x).

(** The switch of ihk_host_os_ioctl; results are ints. *)
Definition os_handler (c : call) (file request arg os : Z) : io host reply :=
  match os_request_of request with
  | OS_LOAD => code (__ihk_os_ioctl_load c os arg)
  | OS_BOOT => code (__ihk_os_boot (c_sig c) os (s32 arg))
  | OS_SHUTDOWN => code (__ihk_os_shutdown (c_sig c) os (s32 arg))
  | OS_ALLOC_CPU => code (__ihk_os_allocate_cpu os arg)
  | OS_ALLOC_MEM => code (__ihk_os_allocate_mem os arg)
  | OS_RESERVE_CPU => code (__ihk_os_reserve_cpu c os arg)
  | OS_RESERVE_MEM => code (__ihk_os_reserve_mem c os arg)
  | OS_ASSIGN_CPU => code (os_body op_assign_cpu os (fun f => f arg))
  | OS_RELEASE_CPU => code (os_body op_release_cpu os (fun f => f arg))
  | OS_SET_IKC_MAP => code (os_body op_set_ikc_map os (fun f => f arg))
  | OS_GET_IKC_MAP => code (os_body op_get_ikc_map os (fun f => f arg))
  | OS_GET_BUILDID => code (os_body op_get_buildid os (fun f => f arg))
  | OS_GET_NUM_CPUS => code (os_body op_get_num_cpus os id)
  | OS_QUERY_CPU => code (os_body op_query_cpu os (fun f => f arg))
  | OS_ASSIGN_MEM => code (os_body op_assign_mem os (fun f => f arg))
  | OS_RELEASE_MEM => code (os_body op_release_mem os (fun f => f arg))
  | OS_QUERY_MEM => code (os_body op_query_mem os (fun f => f arg))
  | OS_QUERY_STATUS => code (__ihk_os_query_status os)
  | OS_NOTIFY_HUNGUP => code (__ihk_os_notify_hungup os ;;; io_ret 0)
  | OS_GET_NUM_NUMA_NODES => code (os_body op_get_num_numa_nodes os id)
  | OS_QUERY_FREE_MEM => code (os_body op_query_free_mem os id)
  | OS_SET_KARGS => code (__ihk_os_set_kargs c os arg)
  | OS_READ_KMSG => ioctl_read_kmsg c os arg
  | OS_STATUS => code (__ihk_os_status os)
  | OS_CLEAR_KMSG => code (__ihk_os_clear_kmsg os)
  | OS_DUMP => __ihk_os_dump c os arg
  | OS_REGISTER_EVENT => code (__ihk_os_register_event c os arg)
  | OS_EVENTFD => code (ihk_os_eventfd os (s32 arg) ;;; io_ret 0)
  | OS_FREEZE => code (__ihk_os_freeze os)
  | OS_THAW => code (__ihk_os_thaw os)
  | OS_GET_USAGE => __ihk_os_get_usage c os arg
  | OS_GET_CPU_USAGE => __ihk_os_get_cpu_usage c os arg
  | OS_READ_KADDR => __ihk_os_read_kaddr c os arg
  | OS_DEBUG => code (__ihk_os_ioctl_debug_request os request arg)
  | OS_AUX => code (x <- __ihk_os_ioctl_call_aux os request arg file ;; io_ret (s32 x))
  | OS_OTHER => io_ret (0, [])
  end.

Definition ihk_host_os_ioctl (c : call) (file request arg : Z) : io host reply :=
  ifile <- get_file file ;;
  let ret := __ihk_os_ioctl_perm (c_euid c) (os_request_of request) in
  if negb (ret =? 0) then io_ret (ret, []) else os_handler c file request arg (f_osdata ifile).
End ioctl.

(** ** Requests to a device *)

Inductive dev_request : Type :=
| DEV_GET_BUILDID | DEV_CREATE_OS | DEV_DESTROY_OS | DEV_RESERVE_CPU | DEV_RELEASE_CPU | DEV_RESERVE_MEM | DEV_RELEASE_MEM
| DEV_RELEASE_MEM_PARTIALLY | DEV_GET_NUM_CPUS | DEV_QUERY_CPU | DEV_QUERY_MEM | DEV_GET_KMSG_BUF | DEV_READ_KMSG_BUF
| DEV_RELEASE_KMSG_BUF | DEV_DETECT_HUNGUP | DEV_DEBUG | DEV_OTHER.

Definition dev_codes : list (Z * dev_request) :=
  [(0x112900, DEV_CREATE_OS); (0x112901, DEV_DESTROY_OS); (0x112902, DEV_RESERVE_CPU); (0x112903, DEV_RELEASE_CPU);
   (0x112904, DEV_RESERVE_MEM); (0x112905, DEV_RELEASE_MEM); (0x112906, DEV_QUERY_CPU); (0x112907, DEV_QUERY_MEM);
   (0x112908, DEV_GET_KMSG_BUF); (0x112909, DEV_READ_KMSG_BUF); (0x11290a, DEV_RELEASE_KMSG_BUF); (0x11290b, DEV_GET_BUILDID);
   (0x11290c, DEV_GET_NUM_CPUS); (0x11290d, DEV_RELEASE_MEM_PARTIALLY); (0x11290f, DEV_DETECT_HUNGUP)].

Definition dev_request_of (request : Z) : dev_request :=
  match List.find (fun x => fst x =? request) dev_codes with
  | Some x => snd x
  | None => if (0x122900 <=? request) && (request <=? 0x1229ff) then DEV_DEBUG else DEV_OTHER
  end.

Section device.
Context {D : Type} `{!IkcMaster D} `{!HostLinux D} (BUILDID : list Z).
Abbreviation host := (host D).

(** __ihk_device_reserve_cpu and the others that only call the driver *)
Definition dev_call {F} (sel : ihk_device_ops D -> option (Z -> F)) (dev : Z) (k : F -> io D Z) : io host Z :=
  d <- get_dev dev ;;
  match sel (d_ops d) with Some f => on_drv (k (f dev)) | None => io_ret (-1) end.

Definition __ihk_device_reserve_cpu (dev arg : Z) : io host Z := dev_call dv_reserve_cpu dev (fun f => f arg).
Definition __ihk_device_release_cpu (dev arg : Z) : io host Z := dev_call dv_release_cpu dev (fun f => f arg).
Definition __ihk_device_reserve_mem (dev arg : Z) : io host Z := dev_call dv_reserve_mem dev (fun f => f arg).
Definition __ihk_device_release_mem (dev arg : Z) : io host Z := dev_call dv_release_mem dev (fun f => f arg).
Definition __ihk_device_release_mem_partially (dev arg : Z) : io host Z := dev_call dv_release_mem_partially dev (fun f => f arg).
Definition __ihk_device_get_num_cpus (dev : Z) : io host Z := dev_call dv_get_num_cpus dev id.
Definition __ihk_device_query_cpu (dev arg : Z) : io host Z := dev_call dv_query_cpu dev (fun f => f arg).
Definition __ihk_device_query_mem (dev arg : Z) : io host Z := dev_call dv_query_mem dev (fun f => f arg).
Definition __ihk_device_ioctl_debug_request (dev request arg : Z) : io host Z :=
  x <- dev_body dv_debug_request dev (- EINVAL) (fun f => f request arg) ;; io_ret (s32 x).
Definition __ihk_device_get_buildid (c : call) (arg : Z) : reply := to_user c arg BUILDID 0.

(** The descriptors that __ihk_device_get_kmsg_buf and
    __ihk_device_read_kmsg_buf copy *)
Definition ioctl_get_kmsg_buf (c : call) (arg : Z) : io host reply :=
  let desc := us_read (c_user c) arg 16 in
  ' (ret, handle) <- __ihk_device_get_kmsg_buf ((fun b => s32 (field 0 4 b)) <$> desc) (us_write (c_user c) arg 16) ;;
  io_ret (ret, if ret =? 0 then [(arg, take 8 (default [] desc) ++ le_bytes 8 handle)] else []).

Definition ioctl_read_kmsg_buf (c : call) (arg : Z) : io host reply :=
  let desc := us_read (c_user c) arg 24 in
  ' (ret, text) <- __ihk_device_read_kmsg_buf ((fun b => (field 0 8 b, s32 (field 8 4 b))) <$> desc) (c_alloc c) true ;;
  let buf := field 16 8 (default [] desc) in
  io_ret (if ret <? 0 then (ret, []) else if us_write (c_user c) buf ret then (ret, [(buf, text)]) else (- EINVAL, [])).

Definition ihk_host_device_ioctl (c : call) (file request arg : Z) : io host reply :=
  h <- io_gets id ;;
  dev <- io_some (h_dev_files h !! file) ;;
  match dev_request_of request with
  | DEV_GET_BUILDID => io_ret (__ihk_device_get_buildid c arg)
  | DEV_CREATE_OS => code (__ihk_device_create_os (c_create c) dev arg)
  | DEV_DESTROY_OS => code (ioctl_destroy_os (c_msig c) (c_sig c) dev arg)
  | DEV_RESERVE_CPU => code (__ihk_device_reserve_cpu dev arg)
  | DEV_RELEASE_CPU => code (__ihk_device_release_cpu dev arg)
  | DEV_RESERVE_MEM => code (__ihk_device_reserve_mem dev arg)
  | DEV_RELEASE_MEM => code (__ihk_device_release_mem dev arg)
  | DEV_RELEASE_MEM_PARTIALLY => code (__ihk_device_release_mem_partially dev arg)
  | DEV_GET_NUM_CPUS => code (__ihk_device_get_num_cpus dev)
  | DEV_QUERY_CPU => code (__ihk_device_query_cpu dev arg)
  | DEV_QUERY_MEM => code (__ihk_device_query_mem dev arg)
  | DEV_GET_KMSG_BUF => ioctl_get_kmsg_buf c arg
  | DEV_READ_KMSG_BUF => ioctl_read_kmsg_buf c arg
  | DEV_RELEASE_KMSG_BUF => code (__ihk_device_release_kmsg_buf arg)
  | DEV_DETECT_HUNGUP => code (host_detect_hungup c arg)
  | DEV_DEBUG => code (__ihk_device_ioctl_debug_request dev request arg)
  | DEV_OTHER => io_ret (- EINVAL, [])
  end.
End device.
