(* ===== verification/HostIoctl.v ===== *)
(** * Requests to the host driver core: theorems

    Which requests complete and keep the invariant of HostInv.v, what a
    process without privileges can change, how requests reach the handlers of
    other modules, and what loading a file and mapping memory do. *)

From stdpp Require Import base tactics numbers list gmap.
From S2P Require Import Prelude Kmsg HostData HostOs HostInv SmpData SmpStatus HostReq.

Open Scope ihk_scope.

(** ** The whole contract of a driver

    HostOs.v has the operations that the life cycle of an instance uses; these
    are the others. *)
Section contract.
Context {D : Type} (I : D -> Prop).

Record os_ops_full (ops : ihk_os_ops D) : Prop := {
  of_load_file : op_total (op_load_file ops) (fun f => forall fn, total I (f fn));
  of_load_mem : op_total (op_load_mem ops) (fun f => forall b off, total I (f b off));
  of_alloc : op_total (op_alloc_resource ops) (fun f => forall r, total I (f r));
  of_hungup : op_total (op_notify_hungup ops) (total I);
  of_num_nodes : op_total (op_get_num_numa_nodes ops) (total I);
  of_free_mem : op_total (op_query_free_mem ops) (total I);
  of_kargs : op_total (op_set_kargs ops) (fun f => forall s, total I (f s));
  of_map : op_total (op_map_memory ops) (fun f => forall a n, total I (f a n));
  of_special : op_total (op_get_special_addr ops) (fun f => forall t, total I (f t));
  of_debug : op_total (op_debug_request ops) (fun f => forall r a, total I (f r a));
  of_assign_cpu : op_total (op_assign_cpu ops) (fun f => forall a, total I (f a));
  of_release_cpu : op_total (op_release_cpu ops) (fun f => forall a, total I (f a));
  of_set_ikc : op_total (op_set_ikc_map ops) (fun f => forall a, total I (f a));
  of_get_ikc : op_total (op_get_ikc_map ops) (fun f => forall a, total I (f a));
  of_buildid : op_total (op_get_buildid ops) (fun f => forall a, total I (f a));
  of_num_cpus : op_total (op_get_num_cpus ops) (total I);
  of_query_cpu : op_total (op_query_cpu ops) (fun f => forall a, total I (f a));
  of_assign_mem : op_total (op_assign_mem ops) (fun f => forall a, total I (f a));
  of_release_mem : op_total (op_release_mem ops) (fun f => forall a, total I (f a));
  of_query_mem : op_total (op_query_mem ops) (fun f => forall a, total I (f a));
  of_dump : op_total (op_dump ops) (fun f => forall b, total I (f b));
  of_vtop : op_total (op_vtop ops) (fun f => forall a, total I (f a));
}.

(** Every instance has such operations, and a device that maps memory. *)
Definition driver_full (h : host D) : Prop := forall p o, h_oses h !! p = Some o ->
  (forall ops, o_ops o = Some ops -> os_ops_full ops) /\
  exists d, h_devs h !! o_dev_data o = Some d /\ op_total (dv_map_virtual (d_ops d)) (fun f => forall a n v x, total I (f a n v x)).

Class LinuxOk `{HostLinux D} : Prop := {
  lok_mon_get : forall a, total I (mon_get a);
  lok_mon_put : forall a l, total I (mon_put a l);
  lok_signal : forall x, total I (eventfd_signal x);
}.
End contract.

Section safe_ioctl.
Context {D : Type} `{IM : !IkcMaster D} `{HL : !HostLinux D} (I : D -> Prop) `{MO : !MasterOk I} `{LO : !LinuxOk I}.
Abbreviation host := (host D).
Abbreviation hinv := (hinv I).

(** An instance whose other fields change. *)
Lemma hinv_upd handles h p o o' :
  hinv handles h -> h_oses h !! p = Some o ->
  o_minor o' = o_minor o -> o_flag o' = o_flag o -> o_ops o' = o_ops o -> o_refcount o' = o_refcount o -> o_kmsg o' = o_kmsg o ->
  hinv handles (set_oses h (<[p := o']> (h_oses h))).
Proof using.
  intros [H1 H2 H3 H4 H5 H6 H7 H8 H9 H10] Ho E1 E2 E3 E4 E5. split; try done.
  - intros i q Hq Hn0 HnI. destruct (H4 i q Hq Hn0 HnI) as (o1 & Ho1 & Hm). simpl.
    destruct (decide (q = p)) as [->|]; [|by rewrite lookup_insert_ne; eauto]. rewrite lookup_insert_eq. exists o'. split; [done|congruence].
  - intros q o1. simpl. destruct (decide (q = p)) as [->|]; [|rewrite lookup_insert_ne by done; intros Ho1; destruct (H5 q o1 Ho1); by split].
    rewrite lookup_insert_eq. intros [= <-]. destruct (H5 p o Ho) as [? ? ? ? ?]. split; congruence || (by rewrite ?E1, ?E2, ?E3, ?E4).
  - intros f x Hx. destruct (H6 f x Hx) as [Hs Hg]. split; [|done]. simpl.
    destruct (decide (f_osdata x = p)) as [E|]; [rewrite E, lookup_insert_eq; eauto|by rewrite lookup_insert_ne].
  - revert H10. apply pool_inv_proper; [|done]. unfold os_refs. simpl. by rewrite (mrefs_same o_kmsg _ p o).
Qed.

Lemma set_drv_same (h : host) : set_drv h (h_drv h) = h.
Proof using. by destruct h. Qed.

(** A run that changes only the driver keeps the invariant. *)
Lemma runs_safe {A} handles h (m : io host A) : hinv handles h -> runs I h m -> safe (fun _ => hinv handles) (m h).
Proof using.
  intros Hi Hm. destruct (runs_eval I h m (hi_drv _ _ _ Hi) Hm) as (a & d & E & Hd). unfold safe. rewrite E. by apply hinv_drv.
Qed.

Lemma safe_reply handles h (m : io host Z) : safe (fun _ => hinv handles) (m h) -> safe (fun _ => hinv handles) (code m h).
Proof using. unfold safe, code, io_bind. by destruct (m h) as [[a h']|]. Qed.

Lemma safe_map {A B} (Q : host -> Prop) (m : io host A) (f : A -> B) h :
  safe (fun _ => Q) (m h) -> safe (fun _ => Q) ((x <- m ;; io_ret (f x)) h).
Proof using. unfold safe, io_bind. by destruct (m h) as [[a h']|]. Qed.

Lemma runs_map {A B} h (m : io host A) (f : A -> B) : runs I h m -> runs I h (x <- m ;; io_ret (f x)).
Proof using. intros Hm. apply runs_bind; [done|]. intros a. apply runs_ret. Qed.

(** ** Handlers of one instance *)

Section one.
Context (h : host) (os : Z) (o : ihk_host_linux_os_data D) (ops : ihk_os_ops D).
Hypothesis Ho : h_oses h !! os = Some o.
Hypothesis Hops : o_ops o = Some ops.
Hypothesis Hf : os_ops_full I ops.

Lemma runs_op {F} (sel : ihk_os_ops D -> op F) (k : F -> io D Z) :
  op_total (sel ops) (fun f => total I (k f)) -> runs I h (os_body sel os k).
Proof using Ho Hops.
  intros Ht. eapply runs_get_os; [done|]. eapply runs_some; [done|]. destruct (sel ops) as [f|] eqn:E; [|apply runs_ret].
  apply runs_drv. by apply (Ht f).
Qed.

Lemma runs_load_pieces kf size fuel : forall done ret, (Z.to_nat (size - done) <= fuel)%nat -> runs I h (load_pieces fuel kf os size done ret).
Proof using Ho Hops Hf.
  induction fuel as [|fuel IH]; intros done ret Hfu; cbn [load_pieces].
  - destruct (_ || _) eqn:E; [apply runs_ret|]. apply orb_false_iff in E as [_ E]. apply Z.leb_gt in E. lia.
  - destruct (_ || _) eqn:E; [apply runs_ret|]. destruct (kf_read kf done PAGE_SIZE) as [r b].
    destruct (Z.leb_spec r 0); [apply runs_ret|]. apply runs_bind; [|intros r'; apply IH; lia].
    apply runs_op. intros f p v Hl. by apply (of_load_mem _ _ Hf f p v Hl).
Qed.

Lemma runs_load c arg : is_Some (us_string (c_user c) arg 256) -> runs I h (__ihk_os_ioctl_load c os arg).
Proof using Ho Hops Hf.
  intros [fn Hfn]. unfold __ihk_os_ioctl_load. rewrite Hfn. eapply runs_get_os; [done|]. eapply runs_some; [done|].
  destruct (op_load_file ops) as [f|] eqn:E1; [apply runs_drv; by apply (of_load_file _ _ Hf f)|].
  destruct (op_load_mem ops) as [f|] eqn:E2; [|apply runs_ret]. destruct (c_open c fn) as [kf|]; [|apply runs_ret].
  destruct (Z.leb_spec (kf_size kf) 0); [apply runs_ret|]. destruct (c_alloc c); [|apply runs_ret].
  apply runs_load_pieces. lia.
Qed.

Lemma runs_alloc r : runs I h (__ihk_os_alloc_resource os r).
Proof using Ho Hops Hf. apply runs_op. intros f p v E. by apply (of_alloc _ _ Hf f p v E). Qed.

Lemma runs_reserve_cpu c ptr : runs I h (__ihk_os_reserve_cpu c os ptr).
Proof using Ho Hops Hf.
  unfold __ihk_os_reserve_cpu. destruct (us_read _ _ _); [|apply runs_ret]. destruct (_ || _); [apply runs_ret|].
  destruct (c_alloc c); [|apply runs_ret]. destruct (read_ints _ _ _); [apply runs_alloc|apply runs_ret].
Qed.

Lemma runs_hungup : runs I h (__ihk_os_notify_hungup os).
Proof using Ho Hops Hf.
  eapply runs_get_os; [done|]. eapply runs_some; [done|]. destruct (op_notify_hungup ops) as [f|] eqn:E; [|apply runs_ret].
  apply runs_bind; [|intros _; apply runs_ret]. apply runs_drv. by apply (of_hungup _ _ Hf f).
Qed.

Lemma runs_eventfd type : runs I h (ihk_os_eventfd os type).
Proof using Ho LO.
  eapply runs_get_os; [done|]. apply runs_iter. intros [x t] _. destruct (t =? type); [|apply runs_ret]. apply runs_drv, (lok_signal I).
Qed.

Lemma runs_dump c arg : runs I h (__ihk_os_dump c os arg).
Proof using Ho Hops Hf.
  unfold __ihk_os_dump. destruct (us_read _ _ _); [|apply runs_ret]. eapply runs_get_os; [done|]. eapply runs_some; [done|].
  apply runs_bind; [|intros []; apply runs_ret]. destruct (op_dump ops) as [f|] eqn:E; [|apply runs_ret].
  apply runs_drv. by apply (of_dump _ _ Hf f).
Qed.

(** The physical address that a descriptor of IHK_OS_READ_KADDR names: the
    address itself, or what the driver translates it to. *)
Definition named_phys (b : list Z) (phys : Z) : Prop :=
  if Z.land (field 24 4 b) IHK_OS_READ_KADDR_PHYS =? 0
  then exists f d d', op_vtop ops = Some f /\ I d /\ f os (o_priv o) (field 0 8 b) d = Ret (0, phys, d')
  else phys = field 0 8 b.

Lemma runs_read_kaddr c arg :
  (forall b, us_read (c_user c) arg 32 = Some b -> Z.land (field 24 4 b) IHK_OS_READ_KADDR_PHYS = 0 -> is_Some (op_vtop ops)) ->
  (forall b phys, us_read (c_user c) arg 32 = Some b -> named_phys b phys -> total I (kv_read (phys_to_virt phys) (field 8 8 b))) ->
  runs I h (__ihk_os_read_kaddr c os arg).
Proof using Ho Hops Hf.
  intros Hv Hr. unfold __ihk_os_read_kaddr. destruct (us_read _ _ _) as [b|]; [|apply runs_ret]. cbv zeta.
  specialize (Hv b eq_refl). specialize (Hr b). unfold named_phys in Hr.
  destruct (Z.eqb_spec (Z.land (field 24 4 b) IHK_OS_READ_KADDR_PHYS) 0) as [E|E]; cbn [negb].
  - destruct (Hv E) as [f Ef]. intros d Hd. destruct (of_vtop _ _ Hf f os (o_priv o) Ef (field 0 8 b) d Hd) as ([ret phys] & d' & Ev & Hd').
    erewrite io_bind_ret.
    2: { erewrite io_bind_ret by (by apply (get_os_ret (set_drv h d))). cbv beta. rewrite Hops. cbn [io_some]. erewrite io_bind_ret by done. cbv beta.
         rewrite Ef. cbn [io_some]. erewrite io_bind_ret by done. unfold on_drv. cbn [h_drv set_drv]. rewrite Ev. reflexivity. }
    cbv beta iota. change (set_drv (set_drv h d) d') with (set_drv h d').
    destruct (Z.eqb_spec ret 0) as [->|]; cbn [negb]; [|by apply runs_ret].
    apply (runs_map h); [|done]. apply runs_drv. apply Hr; [done|]. by exists f, d, d'.
  - intros d Hd. erewrite io_bind_ret by done. cbv beta iota. cbn [negb Z.eqb]. apply (runs_map h); [|done]. apply runs_drv. by apply Hr.
Qed.

Lemma runs_aux request arg file :
  (forall x, find_handler (o_aux o) request = Some x -> total I (uc_func x os request (uc_priv x) arg file)) ->
  runs I h (__ihk_os_ioctl_call_aux os request arg file).
Proof using Ho.
  intros Hx. eapply runs_get_os; [done|]. destruct (find_handler _ _) as [x|]; [|apply runs_ret]. apply runs_drv. by apply Hx.
Qed.

(** The address of an area of the instance: the one it has, or one at which
    the device's driver maps it. *)
Definition area_addr (have a : Z) : Prop :=
  if have =? 0
  then a <> 0 /\ exists dv f pa n d d', h_devs h !! o_dev_data o = Some dv /\ dv_map_virtual (d_ops dv) = Some f /\
       I d /\ f (o_dev_data o) (d_priv dv) pa n 0 0 d = Ret (a, d')
  else a = have.

(** Setting up an area changes at most its address in the instance. *)
Lemma setup_area_safe handles type get set :
  hinv handles h -> (forall v, get (set o v) = v) ->
  (forall v, o_minor (set o v) = o_minor o /\ o_flag (set o v) = o_flag o /\ o_ops (set o v) = o_ops o /\
     o_refcount (set o v) = o_refcount o /\ o_kmsg (set o v) = o_kmsg o) ->
  (exists d, h_devs h !! o_dev_data o = Some d /\ op_total (dv_map_virtual (d_ops d)) (fun f => forall a n v x, total I (f a n v x))) ->
  safe (fun _ h' => hinv handles h' /\ exists o', h_oses h' !! os = Some o' /\ o_ops o' = Some ops /\ (get o' <> 0 -> area_addr (get o) (get o')))
    (setup_area type get set os h).
Proof using Ho Hops Hf.
  intros Hi Hget Hset (dv & Hdv & Hmv). set (P := fun (_ : unit) (h' : host) => _).
  assert (forall d, I d -> P tt (set_drv h d)) as Hout by (intros d Hd; split; [by apply hinv_drv|exists o; split_and!; [done..|]; intros Hn; unfold area_addr; by rewrite (proj2 (Z.eqb_neq _ _) Hn)]).
  assert (P tt h) as Hh by (rewrite <- (set_drv_same h); apply Hout, (hi_drv _ _ _ Hi)). unfold setup_area. step (get_os_ret h os o Ho).
  destruct (Z.eqb_spec (get o) 0) as [Hg|]; cbn [negb]; [|exact Hh]. erewrite io_bind_ret by (by rewrite Hops). cbv beta.
  destruct (op_get_special_addr ops) as [f|] eqn:E; [|exact Hh].
  apply (runs_step I h); [exact (hi_drv _ _ _ Hi)|apply runs_drv; by apply (of_special _ _ Hf f)|]. intros [[ret rpa] size] d1 Hd1.
  destruct (negb _); [by apply Hout|]. cbv zeta.
  match goal with |- context [u64 (?x * PAGE_SIZE)] => set (psize := u64 (x * PAGE_SIZE)) end.
  assert (runs I h (os_body op_map_memory os (fun f => f rpa psize))) as Hrun.
  { apply runs_op. intros g p v Eg. by apply (of_map _ _ Hf g p v Eg). }
  destruct (Hrun d1 Hd1) as (pa & d2 & E2 & Hd2). step E2.
  erewrite io_bind_ret by (unfold get_dev, io_bind, io_gets, io_some; simpl; unfold id; simpl; by rewrite Hdv). cbv beta.
  assert (forall v d, I d -> (v <> 0 -> area_addr (get o) v) -> P tt (set_drv (set_oses h (<[os := set o v]> (h_oses h))) d)) as Hend.
  { intros v d Hd Hv. destruct (Hset v) as (E1 & E2' & E3 & E4 & E5).
    split; [|exists (set o v); split_and!; [apply lookup_insert_eq|congruence|by rewrite Hget]]. apply hinv_drv; [|done]. by apply (hinv_upd handles h os o). }
  destruct (dv_map_virtual (d_ops dv)) as [g|] eqn:Eg.
  - destruct (Hmv g (o_dev_data o) (d_priv dv) eq_refl (u64 pa) psize 0 0 d2 Hd2) as (v & d3 & E3 & Hd3).
    erewrite io_bind_ret by (unfold on_drv; simpl; by rewrite E3). cbv beta. unfold safe.
    rewrite (upd_os_ret _ os o (fun o => set o v)) by done. apply Hend; [done|].
    intros Hn. unfold area_addr. rewrite Hg. cbn [Z.eqb]. split; [done|]. by exists dv, g, (u64 pa), psize, d2, d3.
  - erewrite io_bind_ret by done. cbv beta. unfold safe. rewrite (upd_os_ret _ os o (fun o => set o 0)) by done. by apply Hend.
Qed.
End one.

Lemma safe_then {A B} (P : A -> host -> Prop) (Q : host -> Prop) (m : io host A) (k : A -> io host B) h :
  safe P (m h) -> (forall a h', P a h' -> safe (fun _ => Q) (k a h')) -> safe (fun _ => Q) ((x <- m ;; k x) h).
Proof using. unfold safe at 1, io_bind. destruct (m h) as [[a h']|]; [|done]. intros Hp Hk. by apply Hk. Qed.

(** Requests that end in a fault of the core: a file name that cannot be read,
    an event for which there is no memory, and an address to translate for a
    driver that translates none. *)
Definition os_faults (c : call) (o : ihk_host_linux_os_data D) (request arg : Z) : bool :=
  match os_request_of request with
  | OS_LOAD => (c_euid c =? 0) && bool_decide (us_string (c_user c) arg 256 = None)
  | OS_REGISTER_EVENT =>
      (c_euid c =? 0) && negb (c_alloc c) &&
      match us_read (c_user c) arg 8 with Some b => 0 <=? c_event c (s32 (field 0 4 b)) | None => false end
  | OS_READ_KADDR =>
      match us_read (c_user c) arg 32, o_ops o with
      | Some b, Some ops =>
          (Z.land (field 24 4 b) IHK_OS_READ_KADDR_PHYS =? 0) && match op_vtop ops with None => true | Some _ => false end
      | _, _ => false
      end
  | _ => false
  end.

(** What is asked of the environment for a request that goes further than
    calling the driver: of a boot what [boot_ok] says; rings that the other
    kernel keeps in order; memory that is mapped where the request reads it;
    handlers of other modules that return. *)
Definition handler_ok (c : call) (h : host) (os : Z) (o : ihk_host_linux_os_data D) (file request arg : Z) : Prop :=
  match os_request_of request with
  | OS_BOOT => c_euid c = 0 -> counts_low (h_pool h) /\ boot_ok h (c_sig c) os o (s32 arg)
  | OS_READ_KMSG | OS_CLEAR_KMSG => ring_at h (o_kmsg o)
  | OS_GET_USAGE => forall a, area_addr h o (o_monitor o) a -> total I (kv_read a sizeof_monitor)
  | OS_GET_CPU_USAGE => forall a, area_addr h o (o_monitor o) a -> total I (kv_read a 8) /\
      forall b d d', I d -> kv_read a 8 d = Ret (b, d') ->
      total I (kv_read (a + sizeof_monitor) (u64 (s32 (u64 (sizeof_cpu_monitor * le_value b)))))
  | OS_READ_KADDR => forall ops b phys, o_ops o = Some ops -> us_read (c_user c) arg 32 = Some b -> named_phys os o ops b phys ->
      total I (kv_read (phys_to_virt phys) (field 8 8 b))
  | OS_AUX => forall x, find_handler (o_aux o) request = Some x -> total I (uc_func x os request (uc_priv x) arg file)
  | _ => True
  end.

Section handler.
Context (handles : list Z) (h : host) (os : Z) (o : ihk_host_linux_os_data D) (ops : ihk_os_ops D).
Hypothesis Hi : hinv handles h.
Hypothesis Ho : h_oses h !! os = Some o.
Hypothesis Hops : o_ops o = Some ops.
Hypothesis Hf : os_ops_full I ops.
Hypothesis Hdev : exists d, h_devs h !! o_dev_data o = Some d /\ op_total (dv_map_virtual (d_ops d)) (fun f => forall a n v x, total I (f a n v x)).

Lemma setup_monitor_safe :
  safe (fun _ h' => hinv handles h' /\ exists o', h_oses h' !! os = Some o' /\ o_ops o' = Some ops /\ (o_monitor o' <> 0 -> area_addr h o (o_monitor o) (o_monitor o')))
    (host_setup_monitor os h).
Proof using Hi Ho Hops Hf Hdev. by apply (setup_area_safe h os o ops). Qed.

Lemma get_usage_safe c arg : (forall a, area_addr h o (o_monitor o) a -> total I (kv_read a sizeof_monitor)) ->
  safe (fun _ => hinv handles) (__ihk_os_get_usage c os arg h).
Proof using Hi Ho Hops Hf Hdev.
  intros Hr. eapply safe_then; [apply setup_monitor_safe|]. intros [] h1 (Hi1 & o1 & Ho1 & _ & Ha). step (get_os_ret h1 os o1 Ho1).
  destruct (Z.eqb_spec (o_monitor o1) 0); [exact Hi1|]. apply (runs_safe handles h1); [done|]. apply runs_map, runs_drv. by apply Hr, Ha.
Qed.

Lemma get_cpu_usage_safe c arg :
  (forall a, area_addr h o (o_monitor o) a -> total I (kv_read a 8) /\
     forall b d d', I d -> kv_read a 8 d = Ret (b, d') ->
     total I (kv_read (a + sizeof_monitor) (u64 (s32 (u64 (sizeof_cpu_monitor * le_value b)))))) ->
  safe (fun _ => hinv handles) (__ihk_os_get_cpu_usage c os arg h).
Proof using Hi Ho Hops Hf Hdev.
  intros Hr. eapply safe_then; [apply setup_monitor_safe|]. intros [] h1 (Hi1 & o1 & Ho1 & _ & Ha). step (get_os_ret h1 os o1 Ho1).
  destruct (Z.eqb_spec (o_monitor o1) 0) as [|Hn]; [exact Hi1|]. destruct (Hr _ (Ha Hn)) as [H1 H2].
  pose proof (hi_drv _ _ _ Hi1) as HI. destruct (H1 _ HI) as (b & d & E & Hd). erewrite io_bind_ret by (unfold on_drv; by rewrite E). cbv beta zeta.
  apply (runs_safe handles (set_drv h1 d)); [by apply hinv_drv|]. apply runs_map, runs_drv. by apply (H2 b _ d HI E).
Qed.

Lemma register_event_safe c arg :
  (forall b, us_read (c_user c) arg 8 = Some b -> 0 <= c_event c (s32 (field 0 4 b)) -> c_alloc c = true) ->
  safe (fun _ => hinv handles) (__ihk_os_register_event c os arg h).
Proof using Hi Ho.
  intros Hc. unfold __ihk_os_register_event. destruct (us_read _ _ _) as [b|]; [|exact Hi]. cbv zeta. destruct (Z.ltb_spec (c_event c (s32 (field 0 4 b))) 0); [exact Hi|].
  rewrite (Hc b) by done. cbn [negb]. erewrite io_bind_ret by (by apply upd_os_ret). by apply (hinv_upd handles h os o).
Qed.

Lemma shutdown_only_safe sig flag : safe (fun _ => hinv handles) (__ihk_os_shutdown sig os flag h).
Proof using Hi Ho MO.
  pose proof (shutdown_safe I handles h sig os flag o Hi Ho) as Hs. unfold safe in *. destruct (__ihk_os_shutdown _ _ _ _) as [[]|]; naive_solver.
Qed.

Lemma runs_freeze : runs I h (__ihk_os_freeze os).
Proof using Hi Ho.
  pose proof (hinv_os_at I handles h os o Hi Ho) as Hat. apply runs_bind; [by apply (runs_status I h os o)|]. intros st.
  runs_if; [apply runs_ret|]. runs_if; [apply runs_ret|]. destruct Hat as (H1 & ops' & H2 & H3).
  eapply runs_get_os; [done|]. eapply runs_some; [done|]. destruct (op_freeze ops') as [f|] eqn:E; [|apply runs_ret].
  apply runs_drv. by apply (ok_freeze _ _ H3 f).
Qed.

Lemma root_only euid r : __ihk_os_ioctl_perm euid r = 0 -> __ihk_os_ioctl_perm 1 r <> 0 -> euid = 0.
Proof using. unfold __ihk_os_ioctl_perm. destruct r; try done; by destruct (Z.eqb_spec euid 0). Qed.

(** The requests of [os_faults] do end in a fault. *)
Lemma handler_faults c file request arg :
  __ihk_os_ioctl_perm (c_euid c) (os_request_of request) = 0 -> os_faults c o request arg = true -> os_handler c file request arg os h = Undef.
Proof using Ho Hops.
  intros _ Hnf. unfold os_faults in Hnf. unfold os_handler. destruct (os_request_of request); try done.
  - apply andb_true_iff in Hnf as [_ Hs]. apply bool_decide_eq_true in Hs. unfold code, io_bind, __ihk_os_ioctl_load. by rewrite Hs.
  - apply andb_true_iff in Hnf as [[_ Ha]%andb_true_iff Hb]. unfold code, io_bind, __ihk_os_register_event. destruct (us_read _ _ _) as [b|]; [|done]. cbv zeta.
    apply Z.leb_le in Hb. rewrite (proj2 (Z.ltb_ge _ 0)) by lia. by rewrite Ha.
  - unfold __ihk_os_read_kaddr. destruct (us_read _ _ _) as [b|]; [|done]. rewrite Hops in Hnf. apply andb_true_iff in Hnf as [Hl Hv]. cbv zeta. rewrite Hl. cbn [negb].
    unfold io_bind. rewrite (get_os_ret h os o Ho), Hops. destruct (op_vtop ops) eqn:E; [discriminate Hv|]. cbn. rewrite E. reflexivity.
Qed.

Ltac by_op H := apply (runs_op h os o ops); try done; intros ? ? ? E; by apply (H _ _ Hf _ _ _ E).

Lemma handler_safe c file request arg :
  __ihk_os_ioctl_perm (c_euid c) (os_request_of request) = 0 -> os_faults c o request arg = false -> handler_ok c h os o file request arg ->
  safe (fun _ => hinv handles) (os_handler c file request arg os h).
Proof using Hi Ho Hops Hf Hdev MO LO.
  intros Hperm Hnf Hok. pose proof (hinv_os_at I handles h os o Hi Ho) as Hat.
  assert (forall m, runs I h m -> safe (fun _ => hinv handles) (code m h)) as Hcode by (intros m Hm; by apply safe_reply, (runs_safe handles h)).
  unfold handler_ok in Hok. unfold os_faults in Hnf. unfold os_handler. destruct (os_request_of request).
  - apply root_only in Hperm; [|done]. rewrite Hperm in Hnf. apply bool_decide_eq_false in Hnf.
    apply Hcode, (runs_load h os o ops); [done..|]. by apply not_eq_None_Some.
  - apply root_only in Hperm; [|done]. destruct (Hok Hperm) as [Hlow Hk]. by apply safe_reply, (boot_safe I handles h _ os _ o).
  - by apply safe_reply, shutdown_only_safe.
  - by apply Hcode, (runs_alloc h os o ops).
  - by apply Hcode, (runs_alloc h os o ops).
  - by apply Hcode, (runs_reserve_cpu h os o ops).
  - apply Hcode. unfold __ihk_os_reserve_mem. destruct (us_read _ _ _); [by apply (runs_alloc h os o ops)|apply runs_ret].
  - apply Hcode. by_op (@of_assign_cpu D).
  - apply Hcode. by_op (@of_release_cpu D).
  - apply Hcode. by_op (@of_set_ikc D).
  - apply Hcode. by_op (@of_get_ikc D).
  - apply Hcode. by_op (@of_buildid D).
  - apply Hcode. by_op (@of_num_cpus D).
  - apply Hcode. by_op (@of_query_cpu D).
  - apply Hcode. by_op (@of_assign_mem D).
  - apply Hcode. by_op (@of_release_mem D).
  - apply Hcode. by_op (@of_query_mem D).
  - by apply Hcode, (runs_status I h os o).
  - apply Hcode, runs_bind; [by apply (runs_hungup h os o ops)|intros _; apply runs_ret].
  - apply Hcode. by_op (@of_num_nodes D).
  - apply Hcode. by_op (@of_free_mem D).
  - apply Hcode. unfold __ihk_os_set_kargs. destruct (negb _); [apply runs_ret|]. destruct (us_prefix _ _ _); [by_op (@of_kargs D)|apply runs_ret].
  - eapply safe_then; [by apply (os_read_kmsg_safe I handles h _ _ os o)|]. by intros [].
  - by apply Hcode, (runs_status I h os o).
  - by apply safe_reply, (os_clear_kmsg_safe I handles h os o).
  - by apply (runs_safe handles h), (runs_dump h os o ops).
  - apply root_only in Hperm; [|done]. rewrite Hperm in Hnf. apply safe_reply, register_event_safe. intros b Hb Hc. rewrite Hb in Hnf.
    destruct (c_alloc c); [done|]. apply Z.leb_gt in Hnf. lia.
  - apply Hcode, runs_bind; [by apply (runs_eventfd h os o)|intros _; apply runs_ret].
  - by apply Hcode, runs_freeze.
  - by apply Hcode, (runs_thaw I h os o).
  - by apply get_usage_safe.
  - by apply get_cpu_usage_safe.
  - apply (runs_safe handles h), (runs_read_kaddr h os o ops); [done..| |by intros b phys; apply Hok].
    intros b Hb Hl. rewrite Hb, Hops, Hl in Hnf. destruct (op_vtop ops); [by eexists|done].
  - apply Hcode, runs_map. by_op (@of_debug D).
  - by apply Hcode, runs_map, (runs_aux h os o).
  - exact Hi.
Qed.
End handler.

(** C12: an ioctl on an open file of an instance, by any user and
    with any request number and argument, ends in a fault of the core exactly
    when root loads a file by a name that cannot be read, root registers an
    event for which there is no memory, or an address is to be translated and
    the driver translates none ([os_faults]); otherwise it completes and leaves
    the tables, counts and message buffers of the core in order.  This holds with
    any driver whose operations return, and is subject to [handler_ok]: a boot
    that takes a message buffer the instance does not have yet is accepted by
    driver, IKC and notifiers; the other kernel keeps its message ring in order;
    the memory that IHK_OS_GET_USAGE, IHK_OS_GET_CPU_USAGE and IHK_OS_READ_KADDR
    read is mapped, which the core does not check; handlers of other modules
    return. *)
Theorem os_ioctl_safe handles h c file x o request arg :
  hinv handles h -> driver_full I h -> h_files h !! file = Some x -> h_oses h !! f_osdata x = Some o ->
  handler_ok c h (f_osdata x) o file request arg ->
  if os_faults c o request arg then ihk_host_os_ioctl c file request arg h = Undef
  else exists rep h', ihk_host_os_ioctl c file request arg h = Ret (rep, h') /\ hinv handles h'.
Proof using MO LO.
  intros Hi Hfull Hx Ho Hok. destruct (hi_os _ _ _ Hi _ o Ho) as [_ _ _ (ops & Hops & _) _]. unfold ihk_host_os_ioctl.
  rewrite (io_bind_ret _ _ _ _ _ (get_file_ret h file x Hx)). cbv beta zeta.
  destruct (Z.eqb_spec (__ihk_os_ioctl_perm (c_euid c) (os_request_of request)) 0) as [Hp|Hp]; cbn [negb].
  - destruct (os_faults c o request arg) eqn:Ef; [by apply (handler_faults h _ o ops)|]. destruct (Hfull _ o Ho) as [Hf Hdev].
    pose proof (handler_safe handles h _ o ops Hi Ho Hops (Hf ops Hops) Hdev c file request arg Hp Ef Hok) as Hs.
    unfold safe in Hs. destruct (os_handler _ _ _ _ _ _) as [[rep h']|]; [|done]. eauto.
  - replace (os_faults c o request arg) with false; [by eexists _, _|]. symmetry. revert Hp. unfold os_faults, __ihk_os_ioctl_perm.
    by destruct (os_request_of request); try done; destruct (c_euid c =? 0).
Qed.
End safe_ioctl.

(** ** Requests to a device *)

Section safe_device.
Context {D : Type} `{IM : !IkcMaster D} `{HL : !HostLinux D} (I : D -> Prop) `{MO : !MasterOk I} `{LO : !LinuxOk I} (BUILDID : list Z).
Abbreviation host := (host D).
Abbreviation hinv := (hinv I).

(** The operations of a device that requests call *)
Record dev_ops_full (ops : ihk_device_ops D) : Prop := {
  df_reserve_cpu : forall f, dv_reserve_cpu ops = Some f -> forall d a, total I (f d a);
  df_release_cpu : forall f, dv_release_cpu ops = Some f -> forall d a, total I (f d a);
  df_reserve_mem : forall f, dv_reserve_mem ops = Some f -> forall d a, total I (f d a);
  df_release_mem : forall f, dv_release_mem ops = Some f -> forall d a, total I (f d a);
  df_release_part : forall f, dv_release_mem_partially ops = Some f -> forall d a, total I (f d a);
  df_num_cpus : forall f, dv_get_num_cpus ops = Some f -> forall d, total I (f d);
  df_query_cpu : forall f, dv_query_cpu ops = Some f -> forall d a, total I (f d a);
  df_query_mem : forall f, dv_query_mem ops = Some f -> forall d a, total I (f d a);
  df_debug : op_total (dv_debug_request ops) (fun f => forall r a, total I (f r a));
}.

(** Requests that end in a fault of the core: the index 64, one past the table,
    and a check for hangs of an instance whose creation is not complete. *)
Definition dev_faults (c : call) (h : host) (request arg : Z) : bool :=
  match dev_request_of request with
  | DEV_DESTROY_OS => arg =? OS_MAX_MINOR
  | DEV_DETECT_HUNGUP =>
      negb (c_msig c) && ((arg =? OS_MAX_MINOR) || bool_decide (h_os_data h !! Z.to_nat arg = Some OS_DATA_INVALID))
  | _ => false
  end.

(** What is asked of the environment and of callers: a creation gets fresh
    memory and deletes no message buffer in use, and message buffers are named
    by handles that were given out. *)
Definition dev_ok (c : call) (handles : list Z) (h : host) (dev request arg : Z) : Prop :=
  match dev_request_of request with
  | DEV_CREATE_OS => create_ok handles h (c_create c) dev
  | DEV_GET_KMSG_BUF => counts_low (h_pool h)
  | DEV_READ_KMSG_BUF => forall b, us_read (c_user c) arg 24 = Some b -> field 0 8 b ∈ handles /\ field 0 8 b <> 0 /\ ring_at h (field 0 8 b)
  | DEV_RELEASE_KMSG_BUF => arg ∈ handles /\ arg <> 0
  | _ => True
  end.

Lemma get_dev_ret (h : host) p d : h_devs h !! p = Some d -> get_dev p h = Ret (d, h).
Proof using. intros E. unfold get_dev, io_bind, io_gets, io_some. cbn. unfold id. by rewrite E. Qed.

Lemma dev_call_safe {F} handles h dev d (sel : ihk_device_ops D -> option (Z -> F)) k :
  hinv handles h -> h_devs h !! dev = Some d -> (forall f, sel (d_ops d) = Some f -> total I (k (f dev))) ->
  safe (fun _ => hinv handles) (code (dev_call sel dev k) h).
Proof using.
  intros Hi Hd Hs. apply safe_reply. unfold dev_call. step (get_dev_ret h dev d Hd). destruct (sel (d_ops d)) as [f|]; [|exact Hi].
  apply (runs_safe I handles h); [done|]. by apply runs_drv, Hs.
Qed.

Lemma detect_hungup_safe handles h c arg :
  hinv handles h -> driver_full I h -> 0 <= arg ->
  negb (c_msig c) && ((arg =? OS_MAX_MINOR) || bool_decide (h_os_data h !! Z.to_nat arg = Some OS_DATA_INVALID)) = false ->
  safe (fun _ => hinv handles) (host_detect_hungup c arg h).
Proof using MO LO.
  intros Hi Hfull H0 Hnf. unfold host_detect_hungup. destruct (c_msig c); [exact Hi|].
  cbn [negb andb] in Hnf. apply orb_false_iff in Hnf as [H1%Z.eqb_neq H2]. apply bool_decide_eq_false in H2. destruct (Z.ltb_spec OS_MAX_MINOR arg); [exact Hi|].
  destruct (get_slot_ret I handles h arg Hi) as (os & Hos & E); [lia|]. step E. destruct (Z.eqb_spec os 0) as [|Hn0]; [exact Hi|].
  destruct (hi_slot _ _ _ Hi _ os Hos) as (o & Ho & _); [done|congruence|]. pose proof (hinv_os_at I handles h os o Hi Ho) as Hat.
  destruct (hi_os _ _ _ Hi os o Ho) as [_ _ _ (ops & Hops & _) _]. destruct (Hfull os o Ho) as [Hf Hdev]. specialize (Hf ops Hops).
  apply (runs_step I h); [exact (hi_drv _ _ _ Hi)|by apply (runs_status I h os o)|]. intros ret d Hd. pose proof (hinv_drv I handles h d Hi Hd) as Hi1.
  destruct (ret =? _); [exact Hi1|]. destruct (_ && _); [exact Hi1|].
  eapply safe_then; [by apply (setup_monitor_safe I handles (set_drv h d) os o ops)|]. intros [] h1 (Hi2 & o1 & Ho1 & Hops1 & _). step (get_os_ret h1 os o1 Ho1).
  destruct (_ =? 0); [exact Hi2|]. apply (runs_safe I handles h1); [done|]. apply runs_bind; [apply runs_drv, (lok_mon_get I)|]. intros l.
  destruct (hungup_scan l ret) as [[l' ret'] n]. apply runs_bind; [|intros _; apply runs_bind; [apply runs_drv, (lok_mon_put I)|intros _; apply runs_ret]].
  apply runs_iter. intros i _. apply runs_bind; [by apply (runs_hungup I h1 os o1 ops)|]. intros _. by apply (runs_eventfd I h1 os o1).
Qed.

(** There is no slot 64, and no instance at the address that marks a slot. *)
Lemma get_slot_64 handles h : hinv handles h -> get_slot OS_MAX_MINOR h = Undef.
Proof using.
  intros Hi. unfold get_slot, io_bind, io_gets, io_lift, aget. cbn [Z.leb OS_MAX_MINOR Z.compare]. unfold id.
  by rewrite (proj2 (lookup_ge_None _ _)) by (pose proof (hi_len _ _ _ Hi); unfold OS_MAX_MINOR in *; lia).
Qed.

Lemma dev_faults_undef handles h c file dev request arg :
  hinv handles h -> h_dev_files h !! file = Some dev -> 0 <= arg -> dev_faults c h request arg = true ->
  ihk_host_device_ioctl BUILDID c file request arg h = Undef.
Proof using.
  intros Hi Hfile H0 Hf. unfold dev_faults in Hf. unfold ihk_host_device_ioctl. erewrite io_bind_ret by done. cbv beta. unfold id.
  rewrite Hfile. cbn [io_some]. erewrite io_bind_ret by done. cbv beta. destruct (dev_request_of request); try done; unfold code.
  - apply Z.eqb_eq in Hf as ->. unfold ioctl_destroy_os. rewrite Z.ltb_irrefl. unfold io_bind. by rewrite (get_slot_64 handles).
  - apply andb_true_iff in Hf as [Hm [E|E]%orb_true_iff]; apply negb_true_iff in Hm; unfold host_detect_hungup; rewrite Hm.
    + apply Z.eqb_eq in E as ->. rewrite Z.ltb_irrefl. unfold io_bind. by rewrite (get_slot_64 handles).
    + apply bool_decide_eq_true in E. pose proof (lookup_lt_Some _ _ _ E) as Hlt. pose proof (hi_len _ _ _ Hi) as Hlen.
      rewrite (proj2 (Z.ltb_ge _ _)) by lia. destruct (get_slot_ret I handles h arg Hi) as (os & Hos & Eg); [lia|]. rewrite E in Hos. injection Hos as <-.
      assert (get_os OS_DATA_INVALID h = Undef) as En.
      { unfold get_os, io_bind, io_gets, id. destruct (h_oses h !! OS_DATA_INVALID) as [o|] eqn:Eo; [|done]. by destruct (hi_os _ _ _ Hi _ o Eo) as [[_ Hn] _ _ _ _]. }
      unfold io_bind at 1 2. rewrite Eg. change (OS_DATA_INVALID =? 0) with false. cbv iota.
      unfold __ihk_os_query_status, os_body, io_bind. by rewrite En.
Qed.

(** C14: an ioctl on an open file of a device, with any request
    number, ends in a fault of the core exactly when it destroys or checks for
    hangs the instance with index 64, or checks one whose creation is not
    complete ([dev_faults]); otherwise it completes and leaves the core in
    order.  This holds with any driver whose operations return, and is subject
    to [dev_ok]: a creation gets fresh addresses and deletes no message buffer
    that is still in use, the counts of message buffers are below 2^31, and
    message buffers are read, while their ring is in order, and released by
    handles that were given out. *)
Theorem device_ioctl_safe handles h c file dev d request arg :
  hinv handles h -> driver_full I h -> h_dev_files h !! file = Some dev -> h_devs h !! dev = Some d -> dev_ops_full (d_ops d) ->
  0 <= arg -> dev_ok c handles h dev request arg ->
  if dev_faults c h request arg then ihk_host_device_ioctl BUILDID c file request arg h = Undef
  else exists rep h' handles', ihk_host_device_ioctl BUILDID c file request arg h = Ret (rep, h') /\ hinv handles' h'.
Proof using MO LO.
  intros Hi Hfull Hfile Hd Hops H0 Hok. destruct (dev_faults c h request arg) eqn:Hnf; [by apply (dev_faults_undef handles h c file dev)|]. assert (forall m, safe (fun _ => hinv handles) (m h) ->
    exists (rep : reply) h' handles', m h = Ret (rep, h') /\ hinv handles' h') as Hsafe.
  { intros m Hm. unfold safe in Hm. destruct (m h) as [[rep h']|]; [|done]. eauto 10. }
  unfold ihk_host_device_ioctl. erewrite io_bind_ret by done. cbv beta. unfold id. rewrite Hfile. cbn [io_some]. erewrite io_bind_ret by done. cbv beta.
  unfold dev_ok in Hok. unfold dev_faults in Hnf. destruct (dev_request_of request).
  - by apply Hsafe.
  - by apply Hsafe, safe_reply, create_safe.
  - apply Z.eqb_neq in Hnf. apply Hsafe, safe_reply. unfold ioctl_destroy_os. destruct (Z.ltb_spec OS_MAX_MINOR arg); [exact Hi|].
    destruct (get_slot_ret I handles h arg Hi) as (p & Hp & E); [lia|]. step E. destruct (Z.eqb_spec p 0); [exact Hi|].
    apply (destroy_safe I handles h); [exact Hi|by eexists|]. destruct (decide (p = OS_DATA_INVALID)); [by right; left|].
    destruct (hi_slot _ _ _ Hi _ p Hp) as (o & Ho & _); [done..|]. right; right. by exists o.
  - apply Hsafe, (dev_call_safe handles h dev d); [done..|]. intros f Ef. by apply (df_reserve_cpu _ Hops f Ef).
  - apply Hsafe, (dev_call_safe handles h dev d); [done..|]. intros f Ef. by apply (df_release_cpu _ Hops f Ef).
  - apply Hsafe, (dev_call_safe handles h dev d); [done..|]. intros f Ef. by apply (df_reserve_mem _ Hops f Ef).
  - apply Hsafe, (dev_call_safe handles h dev d); [done..|]. intros f Ef. by apply (df_release_mem _ Hops f Ef).
  - apply Hsafe, (dev_call_safe handles h dev d); [done..|]. intros f Ef. by apply (df_release_part _ Hops f Ef).
  - apply Hsafe, (dev_call_safe handles h dev d); [done..|]. intros f Ef. by apply (df_num_cpus _ Hops f Ef).
  - apply Hsafe, (dev_call_safe handles h dev d); [done..|]. intros f Ef. by apply (df_query_cpu _ Hops f Ef).
  - apply Hsafe, (dev_call_safe handles h dev d); [done..|]. intros f Ef. by apply (df_query_mem _ Hops f Ef).
  - pose proof (get_kmsg_safe I handles h ((fun b => s32 (field 0 4 b)) <$> us_read (c_user c) arg 16) (us_write (c_user c) arg 16) Hi Hok) as Hs.
    unfold ioctl_get_kmsg_buf. cbv zeta. unfold safe in Hs. unfold io_bind. destruct (__ihk_device_get_kmsg_buf _ _ _) as [[[r p] h']|]; [|done]. eauto 10.
  - apply Hsafe. unfold ioctl_read_kmsg_buf. cbv zeta. apply (safe_then (fun _ => hinv handles)); [|by intros []]. apply dev_read_kmsg_safe; [done|].
    intros p s Ep. destruct (us_read _ _ _) as [b|]; [|done]. cbn in Ep. injection Ep as <- <-. by apply Hok.
  - destruct Hok as [Hin Hn0]. pose proof (serve_safe I handles h (ReleaseKmsgBuf arg) Hi (conj Hin Hn0)) as Hs. unfold safe in Hs. cbn [serve] in Hs.
    unfold code, io_bind in Hs |- *. destruct (__ihk_device_release_kmsg_buf arg h) as [[r h']|]; [|done]. exists (r, []), h'. eexists. split; [done|exact Hs].
  - by apply Hsafe, safe_reply, detect_hungup_safe.
  - apply Hsafe, safe_reply, safe_map. unfold dev_body. step (get_dev_ret h dev d Hd).
    destruct (dv_debug_request (d_ops d)) as [f|] eqn:Ef; [|exact Hi]. apply (runs_safe I handles h); [done|]. by apply runs_drv, (df_debug _ Hops f).
  - by apply Hsafe.
Qed.
End safe_device.

(** ** What a process without privileges can change *)

(** A step that changes at most the address of the monitor in instances, the
    message buffers (if [kmsg]) and the driver (if [drv]). *)
Section looked.
Context {D : Type}.
Abbreviation host := (host D).
Definition forget_monitor (o : ihk_host_linux_os_data D) : ihk_host_linux_os_data D := o_set_monitor o 0.

Record looked (kmsg drv : Prop) (h h' : host) : Prop := {
  lk_slots : h_os_data h' = h_os_data h;
  lk_max : h_os_max_minor h' = h_os_max_minor h;
  lk_oses : forget_monitor <$> h_oses h' = forget_monitor <$> h_oses h;
  lk_dev_slots : h_dev_data h' = h_dev_data h;
  lk_dev_max : h_dev_max_minor h' = h_dev_max_minor h;
  lk_devs : h_devs h' = h_devs h;
  lk_files : h_files h' = h_files h;
  lk_dev_files : h_dev_files h' = h_dev_files h;
  lk_notifiers : h_notifiers h' = h_notifiers h;
  lk_pool : kmsg \/ h_pool h' = h_pool h;
  lk_drv : drv \/ h_drv h' = h_drv h;
}.

Lemma looked_refl k d (h : host) : looked k d h h.
Proof. split; auto. Qed.

Lemma looked_trans k d h1 h2 h3 : looked k d h1 h2 -> looked k d h2 h3 -> looked k d h1 h3.
Proof.
  intros [? ? ? ? ? ? ? ? ? P1 D1] [? ? ? ? ? ? ? ? ? P2 D2]. split; try congruence;
    [destruct P1, P2|destruct D1, D2]; auto; right; congruence.
Qed.

Lemma looked_weaken (k d k' d' : Prop) h h' : (k -> k') -> (d -> d') -> looked k d h h' -> looked k' d' h h'.
Proof. intros Hk Hd [? ? ? ? ? ? ? ? ? P1 D1]. split; try done; [destruct P1|destruct D1]; auto. Qed.

(** A driver operation that changes nothing. *)
Definition pure {A} (m : io D A) : Prop := forall d r d', m d = Ret (r, d') -> d' = d.

Lemma on_drv_any {A} k (m : io D A) h r h' : on_drv m h = Ret (r, h') -> looked k True h h'.
Proof. unfold on_drv. destruct (m (h_drv h)) as [[a d]|]; [|done]. intros [= <- <-]. split; auto. Qed.

Lemma on_drv_pure {A} k d (m : io D A) h r h' : pure m -> on_drv m h = Ret (r, h') -> looked k d h h'.
Proof.
  unfold on_drv. intros Hp. destruct (m (h_drv h)) as [[a d']|] eqn:E; [|done]. intros [= <- <-]. apply Hp in E. subst. split; auto.
Qed.

Lemma get_os_same p (h : host) o h' : get_os p h = Ret (o, h') -> h' = h /\ h_oses h !! p = Some o.
Proof. unfold get_os, io_bind, io_gets, io_some. cbn. unfold id. destruct (h_oses h !! p); [|done]. by intros [= <- <-]. Qed.

Lemma some_same {A} (x : option A) (h : host) a h' : io_some x h = Ret (a, h') -> h' = h /\ x = Some a.
Proof. destruct x; [|done]. by intros [= <- <-]. Qed.

Lemma ret_same {A} (x : A) (h : host) a h' : io_ret x h = Ret (a, h') -> h' = h /\ a = x.
Proof. by intros [= <- <-]. Qed.

Lemma body_looked {F} k d (sel : ihk_os_ops D -> op F) os (kf : F -> io D Z) (h : host) r h' :
  os_body sel os kf h = Ret (r, h') ->
  (d \/ forall o ops f, h_oses h !! os = Some o -> o_ops o = Some ops -> sel ops = Some f -> pure (kf (f os (o_priv o)))) ->
  looked k d h h'.
Proof.
  unfold os_body. intros E Hp. apply io_bind_inv in E as (o & h1 & [-> Ho]%get_os_same & E).
  apply io_bind_inv in E as (ops & h2 & [-> Hops]%some_same & E). destruct (sel ops) as [f|] eqn:Ef.
  - destruct Hp as [Hd|Hp]; [apply (looked_weaken k True); [done..|by eapply on_drv_any]|]. eapply on_drv_pure; [by eapply Hp|done].
  - apply ret_same in E as [-> _]. apply looked_refl.
Qed.

Lemma code_looked k d (m : io host Z) (h : host) rep h' :
  (forall r, m h = Ret (r, h') -> looked k d h h') -> code m h = Ret (rep, h') -> looked k d h h'.
Proof. intros Hm E. apply io_bind_inv in E as (r & h1 & E & [-> _]%ret_same). by eapply Hm. Qed.

Lemma on_pool_looked {A} d (m : io pool A) h r h' : on_pool m h = Ret (r, h') -> looked True d h h'.
Proof. unfold on_pool. destruct (m (h_pool h)) as [[a s]|]; [|done]. intros [= <- <-]. split; auto. Qed.

Lemma lift_same {A} (x : outcome A) (h : host) a h' : io_lift x h = Ret (a, h') -> h' = h.
Proof. unfold io_lift. destruct x; [|done]. by intros [= _ <-]. Qed.
End looked.

Section unprivileged.
Context {D : Type} `{IM : !IkcMaster D} `{HL : !HostLinux D}.
Abbreviation host := (host D).

(** The operations that only report. *)
Record asks_only (ops : ihk_os_ops D) : Prop := {
  ask_status : op_total (op_query_status ops) pure;
  ask_nodes : op_total (op_get_num_numa_nodes ops) pure;
  ask_free_mem : op_total (op_query_free_mem ops) pure;
  ask_num_cpus : op_total (op_get_num_cpus ops) pure;
  ask_cpu : op_total (op_query_cpu ops) (fun f => forall a, pure (f a));
  ask_mem : op_total (op_query_mem ops) (fun f => forall a, pure (f a));
  ask_buildid : op_total (op_get_buildid ops) (fun f => forall a, pure (f a));
  ask_map : op_total (op_map_memory ops) (fun f => forall a n, pure (f a n));
  ask_special : op_total (op_get_special_addr ops) (fun f => forall t, pure (f t));
  ask_vtop : op_total (op_vtop ops) (fun f => forall a, pure (f a));
}.

(** All instances and devices of [h], and reading memory. *)
Definition only_asks (h : host) : Prop :=
  (forall p o ops, h_oses h !! p = Some o -> o_ops o = Some ops -> asks_only ops) /\
  (forall p d, h_devs h !! p = Some d -> op_total (dv_map_virtual (d_ops d)) (fun f => forall a n v x, pure (f a n v x))) /\
  (forall a n, pure (kv_read (D := D) a n)).

Lemma read_kmsg_looked d km uok os (h : host) r h' : __ihk_os_read_kmsg km uok os h = Ret (r, h') -> looked True d h h'.
Proof.
  unfold __ihk_os_read_kmsg. intros E. apply io_bind_inv in E as (o & h1 & [-> Ho]%get_os_same & E).
  destruct (_ =? 0); [apply ret_same in E as [-> _]; apply looked_refl|]. apply io_bind_inv in E as (c & h1 & E1 & E).
  apply (on_pool_looked d) in E1. eapply looked_trans; [exact E1|]. clear E1 Ho.
  destruct (bool_decide _); [apply ret_same in E as [-> _]; apply looked_refl|].
  destruct (negb km); [apply ret_same in E as [-> _]; apply looked_refl|].
  apply io_bind_inv in E as ([[ret text] b] & h2 & E1%lift_same & E). subst h2. apply io_bind_inv in E as (u & h2 & E1 & E).
  apply (on_pool_looked d) in E1. eapply looked_trans; [exact E1|].
  destruct (ret <? 0); [apply ret_same in E as [-> _]; apply looked_refl|].
  destruct (negb uok); apply ret_same in E as [-> _]; apply looked_refl.
Qed.

Lemma clear_kmsg_looked d os (h : host) r h' : __ihk_os_clear_kmsg os h = Ret (r, h') -> looked True d h h'.
Proof.
  unfold __ihk_os_clear_kmsg. intros E. apply io_bind_inv in E as (o & h1 & [-> Ho]%get_os_same & E).
  destruct (_ =? 0); [apply ret_same in E as [-> _]; apply looked_refl|]. apply io_bind_inv in E as (c & h1 & E1 & E).
  apply (on_pool_looked d) in E1. eapply looked_trans; [exact E1|]. clear E1 Ho.
  destruct (ct_kmsg_buf c) as [b|]; [|apply ret_same in E as [-> _]; apply looked_refl].
  apply io_bind_inv in E as (b' & h2 & E1%lift_same & E). subst h2. apply io_bind_inv in E as (u & h2 & E1 & E).
  apply (on_pool_looked d) in E1. apply ret_same in E as [-> _]. done.
Qed.

(** The hypotheses survive. *)
Lemma only_asks_looked k h h' : looked k False h h' -> only_asks h -> only_asks h'.
Proof.
  intros Hl (H1 & H2 & H3). split_and!; [|by rewrite (lk_devs _ _ _ _ Hl)|done].
  intros p o ops Ho Hops. assert ((forget_monitor <$> h_oses h') !! p = Some (forget_monitor o)) as E by (by rewrite lookup_fmap, Ho).
  rewrite (lk_oses _ _ _ _ Hl), lookup_fmap in E. destruct (h_oses h !! p) as [o1|] eqn:Ho1; [|done]. apply (f_equal (fun x => x ≫= o_ops)) in E. cbn in E.
  eapply H1; [exact Ho1|]. by rewrite E.
Qed.

Lemma upd_monitor_looked k d os v (h : host) u h' : upd_os os (fun o => o_set_monitor o v) h = Ret (u, h') -> looked k d h h'.
Proof.
  unfold upd_os. intros E. apply io_bind_inv in E as (o & h1 & [-> Ho]%get_os_same & E). injection E as <- <-.
  split; cbn; auto. rewrite fmap_insert. change (forget_monitor (o_set_monitor o v)) with (forget_monitor o).
  rewrite <- fmap_insert, insert_id; done.
Qed.

Lemma monitor_looked k os (h : host) u h' : only_asks h -> host_setup_monitor os h = Ret (u, h') -> looked k False h h'.
Proof.
  intros Ha E. pose proof Ha as (H1 & H2 & _). unfold host_setup_monitor, setup_area in E. apply io_bind_inv in E as (o & h1 & [-> Ho]%get_os_same & E).
  destruct (negb _); [apply ret_same in E as [-> _]; apply looked_refl|]. apply io_bind_inv in E as (ops & h1 & [-> Hops]%some_same & E).
  specialize (H1 os o ops Ho Hops). destruct (op_get_special_addr ops) as [f|] eqn:Ef; [|apply ret_same in E as [-> _]; apply looked_refl].
  apply io_bind_inv in E as ([[ret rpa] size] & h1 & E1 & E).
  apply (on_drv_pure k False) in E1; [|by apply (ask_special _ H1 f)]. eapply looked_trans; [exact E1|].
  destruct (negb _); [apply ret_same in E as [-> _]; apply looked_refl|]. cbv zeta in E. apply io_bind_inv in E as (pa & h2 & E2 & E).
  pose proof (only_asks_looked k h h1 E1 Ha) as (H1' & H2' & _).
  apply (body_looked k False) in E2; [|right; intros o' ops' g Ho' Hops' Eg; by apply (ask_map _ (H1' os o' ops' Ho' Hops') g)].
  eapply looked_trans; [exact E2|]. apply io_bind_inv in E as (dv & h3 & E3 & E).
  unfold get_dev, io_bind, io_gets in E3. cbn in E3. apply some_same in E3 as [-> Hdv]. unfold id in Hdv. rewrite (lk_devs _ _ _ _ E2) in Hdv.
  apply io_bind_inv in E as (v & h3 & E3 & E). apply (upd_monitor_looked k False) in E. eapply looked_trans; [|exact E].
  destruct (dv_map_virtual (d_ops dv)) as [g|] eqn:Eg; [|apply ret_same in E3 as [-> _]; apply looked_refl].
  eapply on_drv_pure; [|exact E3]. by apply (H2' _ dv Hdv g).
Qed.

Lemma usage_looked k c os arg (h : host) r h' : only_asks h ->
  __ihk_os_get_usage c os arg h = Ret (r, h') \/ __ihk_os_get_cpu_usage c os arg h = Ret (r, h') -> looked k False h h'.
Proof.
  intros Ha E. pose proof Ha as (_ & _ & Hr). destruct E as [E|E]; apply io_bind_inv in E as (u & h1 & E1 & E);
    (apply (monitor_looked k) in E1; [|done]; eapply looked_trans; [exact E1|]); apply io_bind_inv in E as (o & h2 & [-> Ho]%get_os_same & E);
    (destruct (_ =? 0); [apply ret_same in E as [-> _]; apply looked_refl|]); apply io_bind_inv in E as (b & h2 & E2 & E);
    (apply (on_drv_pure k False) in E2; [|apply Hr]).
  - by apply ret_same in E as [-> _].
  - cbv zeta in E. eapply looked_trans; [exact E2|]. apply io_bind_inv in E as (b' & h3 & E3 & E). apply ret_same in E as [-> _].
    eapply on_drv_pure; [|exact E3]. apply Hr.
Qed.

Lemma kaddr_looked k c os arg (h : host) r h' : only_asks h -> __ihk_os_read_kaddr c os arg h = Ret (r, h') -> looked k False h h'.
Proof.
  intros (H1 & _ & Hr) E. unfold __ihk_os_read_kaddr in E. destruct (us_read _ _ _) as [b|]; [|apply ret_same in E as [-> _]; apply looked_refl].
  cbv zeta in E. apply io_bind_inv in E as ([ret phys] & h1 & E1 & E). eapply (looked_trans _ _ _ h1).
  - destruct (negb _); [apply ret_same in E1 as [-> _]; apply looked_refl|]. apply io_bind_inv in E1 as (o & h2 & [-> Ho]%get_os_same & E1).
    apply io_bind_inv in E1 as (ops & h2 & [-> Hops]%some_same & E1). apply io_bind_inv in E1 as (f & h2 & [-> Hv]%some_same & E1).
    eapply on_drv_pure; [|exact E1]. by apply (ask_vtop _ (H1 os o ops Ho Hops) f).
  - destruct (negb (ret =? 0)); [apply ret_same in E as [-> _]; apply looked_refl|].
    apply io_bind_inv in E as (b' & h2 & E2 & E). apply ret_same in E as [-> _]. eapply on_drv_pure; [|exact E2]. apply Hr.
Qed.

(** Requests that may change the driver, and those that use message buffers *)
Definition takes (r : os_request) : Prop := r ∈ [OS_ALLOC_CPU; OS_ALLOC_MEM; OS_RESERVE_CPU; OS_RESERVE_MEM; OS_DEBUG; OS_AUX].
Definition uses_kmsg (r : os_request) : Prop := r ∈ [OS_READ_KMSG; OS_CLEAR_KMSG].
(** Requests that change a kernel *)
Definition controls (r : os_request) : Prop :=
  r ∈ [OS_LOAD; OS_BOOT; OS_SHUTDOWN; OS_ASSIGN_CPU; OS_RELEASE_CPU; OS_SET_IKC_MAP; OS_ASSIGN_MEM; OS_RELEASE_MEM; OS_NOTIFY_HUNGUP;
       OS_SET_KARGS; OS_DUMP; OS_REGISTER_EVENT; OS_EVENTFD; OS_FREEZE; OS_THAW].

Lemma open_handler_looked k os (h : host) c file request arg rep h' :
  only_asks h -> os_handler c file request arg os h = Ret (rep, h') -> __ihk_os_ioctl_perm 1 (os_request_of request) = 0 ->
  (uses_kmsg (os_request_of request) -> k) ->
  looked k (takes (os_request_of request)) h h'.
Proof.
  intros Ha E Hperm Hk. pose proof Ha as (H1 & _ & _).
  assert (forall F (sel : ihk_os_ops D -> op F) kf rep, code (os_body sel os kf) h = Ret (rep, h') ->
    (forall ops, asks_only ops -> op_total (sel ops) (fun f => pure (kf f))) -> looked k False h h') as Hbody.
  { intros F sel kf rep' E' Hp. eapply code_looked; [|exact E']. intros r Er. eapply body_looked; [exact Er|right].
    intros o ops f Ho Hops Hf. by apply (Hp ops (H1 os o ops Ho Hops) f). }
  assert (forall F (sel : ihk_os_ops D -> op F) kf r, os_body sel os kf h = Ret (r, h') -> looked k True h h') as Hany.
  { intros F sel kf r E'. eapply body_looked; [exact E'|by left]. }
  assert (looked k False h h' -> looked k (takes (os_request_of request)) h h') as Hweak by (apply looked_weaken; [done|by intros []]).
  assert (takes (os_request_of request) -> looked k True h h' -> looked k (takes (os_request_of request)) h h') as Htake by (intros Ht; apply looked_weaken; done).
  unfold os_handler in E. destruct (os_request_of request) eqn:Er; try discriminate Hperm.
  - apply Htake; [repeat constructor|]. eapply code_looked; [|exact E]. intros r E'. by eapply Hany.
  - apply Htake; [repeat constructor|]. eapply code_looked; [|exact E]. intros r E'. by eapply Hany.
  - apply Htake; [repeat constructor|]. eapply code_looked; [|exact E]. intros r E'. unfold __ihk_os_reserve_cpu in E'.
    repeat (case_match; try (apply ret_same in E' as [-> _]; apply looked_refl)). by eapply Hany.
  - apply Htake; [repeat constructor|]. eapply code_looked; [|exact E]. intros r E'. unfold __ihk_os_reserve_mem in E'.
    case_match; [by eapply Hany|apply ret_same in E' as [-> _]; apply looked_refl].
  - apply Hweak. eapply Hbody; [exact E|]. intros ops [] f p v Ef. naive_solver.
  - apply Hweak. eapply Hbody; [exact E|]. intros ops [] f p v Ef. unfold id. naive_solver.
  - apply Hweak. eapply Hbody; [exact E|]. intros ops [] f p v Ef. naive_solver.
  - apply Hweak. eapply Hbody; [exact E|]. intros ops [] f p v Ef. naive_solver.
  - apply Hweak. eapply Hbody; [exact E|]. intros ops [] f p v Ef. unfold id. naive_solver.
  - apply Hweak. eapply Hbody; [exact E|]. intros ops [] f p v Ef. unfold id. naive_solver.
  - apply Hweak. eapply Hbody; [exact E|]. intros ops [] f p v Ef. unfold id. naive_solver.
  - apply (looked_weaken True False); [intros _; apply Hk; repeat constructor|by intros []|]. unfold ioctl_read_kmsg in E.
    apply io_bind_inv in E as ([ret text] & h1 & E1 & E). apply ret_same in E as [-> _]. by eapply read_kmsg_looked.
  - apply Hweak. eapply Hbody; [exact E|]. intros ops [] f p v Ef. unfold id. naive_solver.
  - apply (looked_weaken True False); [intros _; apply Hk; repeat constructor|by intros []|]. eapply code_looked; [|exact E]. intros r. apply clear_kmsg_looked.
  - apply Hweak. eapply usage_looked; eauto.
  - apply Hweak. eapply usage_looked; eauto.
  - apply Hweak. by eapply kaddr_looked.
  - apply Htake; [repeat constructor|]. eapply code_looked; [|exact E]. intros r E'. apply io_bind_inv in E' as (x & h1 & E1 & E'). apply ret_same in E' as [-> _]. by eapply Hany.
  - apply Htake; [repeat constructor|]. eapply code_looked; [|exact E]. intros r E'. apply io_bind_inv in E' as (x & h1 & E1 & E'). apply ret_same in E' as [-> _].
    unfold __ihk_os_ioctl_call_aux in E1. apply io_bind_inv in E1 as (o & h2 & [-> Ho]%get_os_same & E1).
    destruct (find_handler _ _); [by eapply on_drv_any|apply ret_same in E1 as [-> _]; apply looked_refl].
Qed.

(** C13: an ioctl by a process that is not root never changes
    the tables, instances, devices, files or notifiers of the core (but for
    the address at which a monitor is mapped), changes message buffers only when
    it reads or clears them, and changes the driver only through the four
    allocations and reservations of CPUs and memory, debug requests and the
    handlers of other modules; every request that loads, boots, stops or
    reconfigures a kernel, dumps it or uses its events is refused with -EPERM.
    What the driver does for a debug request is not restricted by the core: the
    SMP driver's sends an interrupt ([CoReport.debug_sends_interrupt]). Asked
    for are driver operations that report without changing the driver. *)
Theorem unprivileged_ioctl c file request arg (h : host) rep h' :
  c_euid c <> 0 -> only_asks h -> ihk_host_os_ioctl c file request arg h = Ret (rep, h') ->
  looked (uses_kmsg (os_request_of request)) (takes (os_request_of request)) h h' /\
  (controls (os_request_of request) -> rep = (- EPERM, []) /\ h' = h).
Proof.
  intros Hu Ha E. unfold ihk_host_os_ioctl in E. apply io_bind_inv in E as (x & h1 & E1 & E). cbv zeta in E.
  assert (h1 = h) as ->.
  { unfold get_file, io_bind, io_gets in E1. cbn in E1. by apply some_same in E1 as [-> _]. }
  clear E1. destruct (Z.eqb_spec (__ihk_os_ioctl_perm (c_euid c) (os_request_of request)) 0) as [Hp|Hp]; cbn [negb] in E.
  - assert (__ihk_os_ioctl_perm 1 (os_request_of request) = 0) as Hp1.
    { revert Hp. unfold __ihk_os_ioctl_perm. rewrite (proj2 (Z.eqb_neq (c_euid c) 0)) by done. by destruct (os_request_of request). }
    split; [by eapply open_handler_looked|]. intros Hc. exfalso. clear -Hp1 Hc. unfold controls in Hc.
    destruct (os_request_of request); try discriminate Hp1; set_solver.
  - apply ret_same in E as [-> ->]. split; [apply looked_refl|]. intros Hc. split; [|done]. f_equal.
    revert Hp. unfold __ihk_os_ioctl_perm. rewrite (proj2 (Z.eqb_neq (c_euid c) 0)) by done. by destruct (os_request_of request).
Qed.
End unprivileged.

(** ** Handlers of other modules *)

Lemma aux_request r : IHK_OS_AUX_CALL_START <= r <= IHK_OS_AUX_CALL_END -> os_request_of r = OS_AUX.
Proof.
  unfold IHK_OS_AUX_CALL_START, IHK_OS_AUX_CALL_END. intros Hr. unfold os_request_of.
  assert (List.find (fun x => fst x =? r) os_codes = None) as ->.
  { assert (Forall (fun x => fst x < 0x10000000) os_codes) as Hc by (by repeat constructor).
    induction Hc as [|[z q] l Hz _ IH]; [done|]. cbn [List.find fst] in *. by rewrite (proj2 (Z.eqb_neq z r)) by lia. }
  rewrite (proj2 (Z.leb_gt r 0x122aff)), andb_false_r by lia. unfold IHK_OS_AUX_CALL_START, IHK_OS_AUX_CALL_END.
  by rewrite (proj2 (Z.leb_le _ r)), (proj2 (Z.leb_le r _)) by lia.
Qed.

Section aux.
Context {D : Type} `{IM : !IkcMaster D} `{HL : !HostLinux D}.
Abbreviation host := (host D).
Abbreviation handler := (ihk_os_user_call_handler D).

Lemma find_app {A} (f : A -> bool) l1 l2 : List.find f (l1 ++ l2) = match List.find f l1 with Some x => Some x | None => List.find f l2 end.
Proof. induction l1 as [|x l1 IH]; [done|]. cbn. by destruct (f x). Qed.

Lemma filter_other (l : list (Z * list handler)) clist : clist ∉ l.*1 -> List.filter (fun x => negb (fst x =? clist)) l = l.
Proof.
  induction l as [|[p hs] l IH]; [done|]. cbn. intros [Hne Hni]%not_elem_of_cons. rewrite (proj2 (Z.eqb_neq p clist)) by done. cbn. by rewrite IH.
Qed.

(** C35: handlers with requests of the range for other
    modules can be registered; then every ioctl in the range, by any user,
    calls the first handler for it in the order of registration with the
    instance, the request, the handler's private value and the arguments, and
    is refused when there is none; unregistering restores the instance.  Handlers with a
    request outside the range are refused. *)
Theorem aux_handlers_roundtrip (h : host) os o clist (hs : list handler) :
  h_oses h !! os = Some o -> clist ∉ (o_aux o).*1 ->
  let h1 := set_oses h (<[os := o_set_aux o (o_aux o ++ [(clist, hs)])]> (h_oses h)) in
  if forallb (fun x => (IHK_OS_AUX_CALL_START <=? uc_request x) && (uc_request x <=? IHK_OS_AUX_CALL_END)) hs then
    ihk_os_register_user_call_handlers os clist hs h = Ret (0, h1) /\
    ihk_os_unregister_user_call_handlers os clist h1 = Ret (tt, h) /\
    forall c file x request arg, h_files h !! file = Some x -> f_osdata x = os -> IHK_OS_AUX_CALL_START <= request <= IHK_OS_AUX_CALL_END ->
      ihk_host_os_ioctl c file request arg h1 =
        match List.find (fun x => uc_request x =? request) (concat (map snd (o_aux o)) ++ hs) with
        | Some e => match uc_func e os request (uc_priv e) arg file (h_drv h) with Ret (r, d) => Ret ((s32 r, []), set_drv h1 d) | Undef => Undef end
        | None => Ret ((- EINVAL, []), h1)
        end
  else ihk_os_register_user_call_handlers os clist hs h = Ret (- EINVAL, h).
Proof.
  intros Ho Hni h1. unfold ihk_os_register_user_call_handlers.
  assert (existsb (fun h => (uc_request h <? IHK_OS_AUX_CALL_START) || (IHK_OS_AUX_CALL_END <? uc_request h)) hs =
    negb (forallb (fun x => (IHK_OS_AUX_CALL_START <=? uc_request x) && (uc_request x <=? IHK_OS_AUX_CALL_END)) hs)) as ->.
  { clear. induction hs as [|x hs IH]; [done|]. cbn [existsb forallb]. by rewrite IH, negb_andb, negb_andb, <- !Z.ltb_antisym. }
  destruct (forallb _ hs); cbn [negb]; [|done]. split_and!.
  - by rewrite (io_bind_ret _ _ _ _ _ (upd_os_ret h os o _ Ho)).
  - unfold ihk_os_unregister_user_call_handlers. rewrite (upd_os_ret h1 os _ _ (lookup_insert_eq _ _ _)). unfold h1. cbn -[List.filter].
    rewrite insert_insert_eq. rewrite List.filter_app, filter_other by done. cbn. rewrite Z.eqb_refl. cbn. rewrite app_nil_r.
    replace (o_set_aux (o_set_aux o (o_aux o ++ [(clist, hs)])) (o_aux o)) with o by (by destruct o). rewrite (insert_id (h_oses h) os o Ho). by destruct h.
  - intros c file x request arg Hx <- Hr. unfold ihk_host_os_ioctl, os_handler. rewrite (aux_request request Hr).
    rewrite (io_bind_ret _ _ _ _ _ (get_file_ret h1 file x Hx)). cbn [__ihk_os_ioctl_perm Z.eqb negb]. cbv zeta. cbn [negb Z.eqb].
    unfold code, __ihk_os_ioctl_call_aux. unfold io_bind at 1 2 3. rewrite (get_os_ret h1 _ _ (lookup_insert_eq _ _ _)).
    cbn [o_set_aux o_aux]. unfold find_handler. rewrite map_app, concat_app. cbn [map concat snd]. rewrite app_nil_r.
    destruct (List.find _ _) as [e|]; [|done]. unfold on_drv. unfold h1 at 1. cbn [set_oses h_drv]. by destruct (uc_func _ _ _ _ _ _ _) as [[r d]|].
Qed.
End aux.

(** ** Loading a file in pieces *)

Section load.
Context {D : Type} `{IM : !IkcMaster D} `{HL : !HostLinux D}.
Abbreviation host := (host D).

(** Loading pieces one after the other, up to the first error *)
Fixpoint load_seq (f : list Z -> Z -> io D Z) (off : Z) (pieces : list (list Z)) : io D Z :=
  match pieces with
  | [] => io_ret 0
  | b :: r => ret <- f b off ;; if negb (ret =? 0) then io_ret ret else load_seq f (off + Z.of_nat (length b)) r
  end.

(** A file with the bytes [l]: reading gives at least a byte and at most what
    was asked for. *)
Definition reads_file (kf : kfile) (l : list Z) : Prop :=
  kf_size kf = Z.of_nat (length l) /\
  forall pos, 0 <= pos < kf_size kf -> exists n, (0 < n)%nat /\ Z.of_nat n <= PAGE_SIZE /\ pos + Z.of_nat n <= kf_size kf /\
    kf_read kf pos PAGE_SIZE = (Z.of_nat n, take n (drop (Z.to_nat pos) l)).

Lemma load_pieces_seq (h : host) os o ops f kf l :
  h_oses h !! os = Some o -> o_ops o = Some ops -> op_load_mem ops = Some f -> reads_file kf l ->
  forall fuel done, 0 <= done <= kf_size kf -> (Z.to_nat (kf_size kf - done) <= fuel)%nat ->
  exists pieces, concat pieces = drop (Z.to_nat done) l /\
    Forall (fun b => (0 < length b)%nat /\ Z.of_nat (length b) <= PAGE_SIZE) pieces /\
    forall d, load_pieces fuel kf os (kf_size kf) done 0 (set_drv h d) = on_drv (load_seq (f os (o_priv o)) done pieces) (set_drv h d).
Proof.
  intros Ho Hops Hf [Hsz Hr]. induction fuel as [|fuel IH]; intros done Hd Hfu.
  - assert (done = kf_size kf) as -> by lia. exists []. split_and!; [rewrite drop_ge by lia; done|done|]. intros d. cbn. by rewrite Z.leb_refl.
  - destruct (decide (done = kf_size kf)) as [->|Hne].
    { exists []. split_and!; [rewrite drop_ge by lia; done|done|]. intros d. cbn. by rewrite Z.leb_refl. }
    destruct (Hr done) as (n & Hn & Hp & Hle & E); [lia|]. destruct (IH (done + Z.of_nat n)) as (pieces & Hc & Hall & Hl); [lia|lia|].
    set (b := take n (drop (Z.to_nat done) l)). assert (length b = n) as Hb by (unfold b; rewrite length_take, length_drop; lia).
    exists (b :: pieces). split_and!.
    + cbn. rewrite Hc, Z2Nat.inj_add, Nat2Z.id by lia. unfold b. by rewrite <- drop_drop, take_drop.
    + constructor; [|done]. by rewrite Hb.
    + intros d. cbn [load_pieces]. cbn [Z.eqb negb orb]. rewrite (proj2 (Z.leb_gt (kf_size kf) done)) by lia. rewrite E.
      rewrite (proj2 (Z.leb_gt (Z.of_nat n) 0)) by lia. fold b. unfold __ihk_os_load_memory, os_body. unfold io_bind at 1 2 3.
      rewrite (get_os_ret (set_drv h d) os o Ho), Hops. cbn [io_some io_ret]. rewrite Hf. unfold on_drv at 1 2. cbn [h_drv set_drv load_seq].
      unfold io_bind at 1. destruct (f os (o_priv o) b done d) as [[r d']|] eqn:Ef; [|done].
      destruct (Z.eqb_spec r 0) as [->|Hr0]; cbn [negb].
      * change (set_drv (set_drv h d) d') with (set_drv h d'). rewrite Hl, Hb. done.
      * destruct fuel; cbn [load_pieces]; rewrite (proj2 (Z.eqb_neq r 0)) by done; done.
Qed.

(** C34: when the driver has no operation for files, loading a
    file hands it the bytes of the file in order, in pieces of at most a page at
    their offsets, all of them or up to the first that the driver refuses,
    whatever amounts the file system returns for each read. *)
Theorem load_file_pieces c (h : host) os o ops f fn kf l :
  h_oses h !! os = Some o -> o_ops o = Some ops -> op_load_file ops = None -> op_load_mem ops = Some f ->
  c_open c fn = Some kf -> reads_file kf l -> l <> [] -> c_alloc c = true ->
  exists pieces, concat pieces = l /\ Forall (fun b => (0 < length b)%nat /\ Z.of_nat (length b) <= PAGE_SIZE) pieces /\
    __ihk_os_load_file c os fn h = on_drv (load_seq (f os (o_priv o)) 0 pieces) h.
Proof.
  intros Ho Hops Hnf Hf Hopen Hr Hl Hc. pose proof Hr as [Hsz _]. assert (0 < kf_size kf) as Hpos by (destruct l; [done|cbn in Hsz; lia]).
  destruct (load_pieces_seq h os o ops f kf l Ho Hops Hf Hr (Z.to_nat (kf_size kf)) 0) as (pieces & Hcat & Hall & E); [lia|lia|].
  exists pieces. split_and!; [done..|]. unfold __ihk_os_load_file. unfold io_bind at 1. rewrite (get_os_ret h os o Ho). unfold io_bind at 1.
  rewrite Hops. cbn [io_some io_ret]. rewrite Hnf, Hf, Hopen, Hc, (proj2 (Z.leb_gt _ 0)) by done. cbn [negb].
  specialize (E (h_drv h)). by rewrite set_drv_same in E.
Qed.

(** A read that ends early is reported as success, with the rest missing. *)
Theorem load_truncated c (h : host) os o ops f fn kf :
  h_oses h !! os = Some o -> o_ops o = Some ops -> op_load_file ops = None -> op_load_mem ops = Some f ->
  c_open c fn = Some kf -> 0 < kf_size kf -> c_alloc c = true -> kf_read kf 0 PAGE_SIZE = (0, []) ->
  __ihk_os_load_file c os fn h = Ret (0, h).
Proof.
  intros Ho Hops Hnf Hf Hopen Hsz Hc Hr. unfold __ihk_os_load_file. unfold io_bind at 1. rewrite (get_os_ret h os o Ho). unfold io_bind at 1.
  rewrite Hops. cbn [io_some io_ret]. rewrite Hnf, Hf, Hopen, Hc, (proj2 (Z.leb_gt _ 0)) by done. cbn [negb].
  destruct (Z.to_nat (kf_size kf)) as [|n] eqn:En; [lia|]. cbn [load_pieces]. rewrite (proj2 (Z.leb_gt _ 0)) by done. cbn. by rewrite Hr.
Qed.
End load.

(** ** Mapping memory *)

Lemma page_first_eq pa : 0 <= pa -> page_first pa = pa / PAGE_SIZE * PAGE_SIZE.
Proof.
  intros Hpa. unfold page_first, PAGE_MASK. change (- PAGE_SIZE) with (Z.lnot (Z.ones 12)). rewrite <- Z.ldiff_land, Z.ldiff_ones_r by lia.
  by rewrite Z.shiftr_div_pow2, Z.shiftl_mul_pow2 by lia.
Qed.

Lemma page_offset pa : 0 <= pa -> Z.land pa (PAGE_SIZE - 1) = pa - page_first pa.
Proof.
  intros Hpa. rewrite (page_first_eq pa Hpa). change (PAGE_SIZE - 1) with (Z.ones 12). rewrite Z.land_ones by lia.
  change (2 ^ 12) with PAGE_SIZE. pose proof (Z.div_mod pa PAGE_SIZE ltac:(by unfold PAGE_SIZE)). lia.
Qed.

Section mapping.
Context {D : Type} `{IM : !IkcMaster D} `{HL : !HostLinux D}.

(** Mapping memory of a kernel asks the driver for the whole pages around the
    range, and returns the address of its first byte in them. *)
Theorem map_memory_covers (h : host D) os o ops f pa size :
  h_oses h !! os = Some o -> o_ops o = Some ops -> op_map_memory ops = Some f ->
  0 <= pa -> 0 <= size -> pa + size + PAGE_SIZE < 2 ^ 64 ->
  exists st len, (PAGE_SIZE | st) /\ (PAGE_SIZE | len) /\ st <= pa < st + PAGE_SIZE /\ pa + size <= st + len < pa + size + PAGE_SIZE /\
    forall r d, f os (o_priv o) st len (h_drv h) = Ret (r, d) -> 0 < r < 2 ^ 63 - PAGE_SIZE ->
      ihk_os_map_memory os pa size h = Ret (r + (pa - st), set_drv h d).
Proof.
  intros Ho Hops Hf Hpa Hsz Hb. pose proof (page_first_eq pa Hpa) as E1. pose proof (page_offset pa Hpa) as Eo.
  assert (page_last pa size = (pa + size + PAGE_SIZE - 1) / PAGE_SIZE * PAGE_SIZE) as E2.
  { unfold page_last. rewrite u64_small by (unfold PAGE_SIZE in *; lia). apply page_first_eq. unfold PAGE_SIZE. lia. }
  pose proof (Z.div_mod pa PAGE_SIZE ltac:(by unfold PAGE_SIZE)). pose proof (Z.mod_pos_bound pa PAGE_SIZE ltac:(by unfold PAGE_SIZE)).
  pose proof (Z.div_mod (pa + size + PAGE_SIZE - 1) PAGE_SIZE ltac:(by unfold PAGE_SIZE)).
  pose proof (Z.mod_pos_bound (pa + size + PAGE_SIZE - 1) PAGE_SIZE ltac:(by unfold PAGE_SIZE)).
  assert (0 <= page_last pa size - page_first pa < 2 ^ 64) as Hl by (unfold PAGE_SIZE in *; lia).
  exists (page_first pa), (page_last pa size - page_first pa). split_and!; [by exists (pa / PAGE_SIZE)| |lia..|].
  - exists ((pa + size + PAGE_SIZE - 1) / PAGE_SIZE - pa / PAGE_SIZE). lia.
  - intros r d Er Hr. unfold ihk_os_map_memory, os_body. unfold io_bind at 1 2 3. rewrite (get_os_ret h os o Ho), Hops. cbn [io_some io_ret].
    rewrite Hf. unfold on_drv. rewrite (u64_small (page_last pa size - page_first pa)), Er by done. unfold mapped.
    assert (0 <= pa - page_first pa < PAGE_SIZE) as Hoff by lia. unfold PAGE_SIZE in Hr, Hoff.
    rewrite (u64_small r) by lia. replace (s64 r) with r by (unfold s64; rewrite Z.mod_small by lia; lia).
    rewrite (proj2 (Z.leb_gt r 0)), Eo, u64_small by lia. done.
Qed.
End mapping.

(** ** Requests that go wrong *)

Section wrong.
Context {D : Type} `{IM : !IkcMaster D} `{HL : !HostLinux D}.

(** A request of root that the core does not know is reported as success. *)
Theorem unknown_request_succeeds c (h : host D) file x request arg :
  h_files h !! file = Some x -> os_request_of request = OS_OTHER -> c_euid c = 0 ->
  ihk_host_os_ioctl c file request arg h = Ret ((0, []), h).
Proof.
  intros Hx Hr Hu. unfold ihk_host_os_ioctl, os_handler. rewrite (io_bind_ret _ _ _ _ _ (get_file_ret h file x Hx)), Hr. cbv zeta.
  cbn [__ihk_os_ioctl_perm]. by rewrite Hu.
Qed.

(** A file name that cannot be read, or is longer than 255 letters, makes the
    core follow an error code as a pointer. *)
Theorem load_name_fault c (h : host D) file x request arg :
  h_files h !! file = Some x -> os_request_of request = OS_LOAD -> c_euid c = 0 -> us_string (c_user c) arg 256 = None ->
  ihk_host_os_ioctl c file request arg h = Undef.
Proof.
  intros Hx Hr Hu Hs. unfold ihk_host_os_ioctl, os_handler. rewrite (io_bind_ret _ _ _ _ _ (get_file_ret h file x Hx)), Hr. cbv zeta.
  cbn [__ihk_os_ioctl_perm]. rewrite Hu. cbn. unfold code, io_bind, __ihk_os_ioctl_load. by rewrite Hs.
Qed.

(** Every process may read memory at every physical address: the bytes are
    copied to it, and memory that is not there is not looked for. *)
Theorem kaddr_reads_any c (h : host D) file x arg b :
  h_files h !! file = Some x -> us_read (c_user c) arg 32 = Some b -> Z.land (field 24 4 b) IHK_OS_READ_KADDR_PHYS <> 0 ->
  ihk_host_os_ioctl c file 0x112a39 arg h =
    match kv_read (phys_to_virt (D := D) (field 0 8 b)) (field 8 8 b) (h_drv h) with
    | Ret (bytes, d) => Ret (to_user c (field 16 8 b) bytes 0, set_drv h d)
    | Undef => Undef
    end.
Proof.
  intros Hx Hb Hl. unfold ihk_host_os_ioctl, os_handler. rewrite (io_bind_ret _ _ _ _ _ (get_file_ret h file x Hx)). cbv zeta.
  change (os_request_of 0x112a39) with OS_READ_KADDR. cbn [__ihk_os_ioctl_perm Z.eqb negb]. unfold __ihk_os_read_kaddr. rewrite Hb. cbv zeta.
  rewrite (proj2 (Z.eqb_neq _ _) Hl). cbn [negb]. erewrite io_bind_ret by done. cbv beta iota. cbn [Z.eqb negb].
  unfold io_bind, on_drv. by destruct (kv_read _ _ _) as [[]|].
Qed.

Lemma exit_from_ok sg n : forall i (h : host D), 0 <= i -> i + Z.of_nat n <= Z.of_nat (length (h_dev_data h)) ->
  (forall j, i <= j < i + Z.of_nat n -> h_dev_data h !! Z.to_nat j <> Some DEV_DATA_INVALID) ->
  exists l, exit_from sg i n h = Ret (tt, set_dev_data h l) /\ length l = length (h_dev_data h) /\
    forall j, 0 <= j -> l !! Z.to_nat j = if (i <=? j) && (j <? i + Z.of_nat n) then Some DEV_DATA_INVALID else h_dev_data h !! Z.to_nat j.
Proof.
  induction n as [|n IH]; intros i h Hi Hlen Hslots; cbn [exit_from].
  { exists (h_dev_data h). split_and!; [by destruct h|done|]. intros j Hj. by rewrite (proj2 (andb_false_iff _ _)) by (rewrite Z.leb_gt, Z.ltb_ge; lia). }
  destruct (lookup_lt_is_Some_2 (h_dev_data h) (Z.to_nat i)) as [p Hp]; [lia|].
  assert (get_dev_slot i h = Ret (p, h)) as E1.
  { unfold get_dev_slot, io_bind, io_gets, io_lift, aget. cbn. unfold id. by rewrite (proj2 (Z.leb_le 0 i)), Hp by done. }
  assert (set_dev_slot i DEV_DATA_INVALID h = Ret (tt, set_dev_data h (<[Z.to_nat i := DEV_DATA_INVALID]> (h_dev_data h)))) as E2.
  { unfold set_dev_slot, io_bind, io_gets, io_lift, aset, io_modify. cbn. unfold id.
    rewrite (proj2 (Z.leb_le 0 i)), (proj2 (Z.ltb_lt _ _)) by lia. done. }
  rewrite (io_bind_ret _ _ _ _ _ E1). rewrite (io_bind_ret _ _ _ _ _ E2).
  destruct (Z.eqb_spec p DEV_DATA_INVALID) as [->|Hne]; [exfalso; apply (Hslots i); [lia|done]|].
  erewrite io_bind_ret by done. set (h1 := set_dev_data h _).
  destruct (IH (i + 1) h1) as (l & -> & Hl & Hj); [lia|unfold h1; cbn; rewrite length_insert; lia| |].
  { intros j Hj. unfold h1. cbn. rewrite list_lookup_insert_ne by lia. apply Hslots. lia. }
  exists l. split_and!; [done|rewrite Hl; unfold h1; cbn; by rewrite length_insert|]. intros j Hj0. rewrite Hj by done. unfold h1. cbn [set_dev_data h_dev_data].
  destruct (Z.leb_spec (i + 1) j), (Z.leb_spec i j), (Z.ltb_spec j (i + 1 + Z.of_nat n)), (Z.ltb_spec j (i + Z.of_nat (S n))); cbn [andb]; try lia; try done;
    try (rewrite list_lookup_insert_ne by lia; done). assert (j = i) as -> by lia. rewrite list_lookup_insert_eq by lia. done.
Qed.

(** The end of the module marks the slots of the devices and unregisters none
    of them: their instances and memory are left. *)
Theorem exit_unregisters_nothing sg (h : host D) :
  0 <= h_dev_max_minor h <= Z.of_nat (length (h_dev_data h)) -> DEV_DATA_INVALID ∉ h_dev_data h ->
  exists l, ihk_exit sg h = Ret (tt, set_dev_data h l) /\ forall j, 0 <= j < h_dev_max_minor h -> l !! Z.to_nat j = Some DEV_DATA_INVALID.
Proof.
  intros Hmax Hni. unfold ihk_exit. erewrite io_bind_ret by done.
  destruct (exit_from_ok sg (Z.to_nat (h_dev_max_minor h)) 0 h) as (l & E & _ & Hl); [lia|lia| |].
  { intros j _ Hj. apply Hni. by eapply list_elem_of_lookup_2. }
  exists l. split; [done|]. intros j Hj. rewrite Hl by lia. by rewrite (proj2 (Z.leb_le 0 j)), (proj2 (Z.ltb_lt j _)) by lia.
Qed.
End wrong.

(** ** The small driver of HostInv.v *)

#[export] Instance demo_linux : HostLinux Z := {
  kv_read := fun _ n d => Ret (replicate (Z.to_nat n) 0, d);
  mon_get := fun _ d => Ret ([], d);
  mon_put := fun _ _ d => Ret (tt, d);
  phys_to_virt := fun p => p;
  eventfd_signal := fun _ d => Ret (tt, d)
}.
#[export] Instance demo_linux_ok : LinuxOk (fun _ : Z => True).
Proof. split; intros; intros d _; by eexists _, _. Qed.

(** Device 500 with instance 1000, which file 7 has open *)
Definition demo_open : host Z :=
  match serve_all [Create (demo_env 0) 500 0; Open 0 7] demo_start with Ret (_, h) => h | Undef => demo_start end.
Definition demo_call (euid : Z) : call :=
  mk_call euid (mk_user (fun _ n => Some (replicate (Z.to_nat n) 0)) (fun _ _ => true) (fun _ _ => Some [109]) (fun _ _ => Some []))
    (fun _ => Some (mk_kfile 5 (fun pos _ => (5 - pos, drop (Z.to_nat pos) [1; 2; 3; 4; 5])))) (fun fd => fd) true false false (demo_env 1).

Lemma demo_open_inv : hinv (fun _ : Z => True) [] demo_open.
Proof.
  assert (hinv (fun _ : Z => True) [] demo_start) as H0 by (by apply start_inv; [apply demo_devs_ok|]).
  pose proof (serve_safe (fun _ : Z => True) [] demo_start (Create (demo_env 0) 500 0) H0) as H1.
  destruct (serve (Create (demo_env 0) 500 0) demo_start) as [[r1 h1]|] eqn:E1; [|vm_compute in E1; discriminate E1].
  assert (hinv (fun _ : Z => True) [] h1) as Hi1 by (apply H1; split; simpl; [by eexists|done|done|by intros p Hp%elem_of_nil]).
  pose proof (serve_safe (fun _ : Z => True) [] h1 (Open 0 7) Hi1) as H2. unfold demo_open, serve_all. rewrite E1. cbn [mbind outcome_bind].
  vm_compute in E1. injection E1 as <- <-. destruct (serve (Open 0 7) _) as [[r2 h2]|] eqn:E2; [|vm_compute in E2; discriminate E2].
  cbn [mbind outcome_bind]. apply H2. split; [done|]. split; [done|]. apply refcounts_low_dec. vm_compute. reflexivity.
Qed.

(** Its instance *)
Lemma demo_open_os p o : h_oses demo_open !! p = Some o -> p = 1000 /\ o = mk_os 500 1 0 1 (Some demo_os_ops) 0 0 [] 0 [] None 0 0.
Proof.
  assert (h_oses demo_open = {[ 1000 := mk_os 500 1 0 1 (Some demo_os_ops) 0 0 [] 0 [] None 0 0 ]}) as -> by (vm_compute; reflexivity).
  intros [<- <-]%lookup_singleton_Some. done.
Qed.

Lemma demo_full : driver_full (fun _ : Z => True) demo_open.
Proof.
  intros p o [-> ->]%demo_open_os. split.
  - intros ops [= <-]. split; try done; intros f q v [= <-]; intros; intros d _; by eexists _, _.
  - eexists. split; [reflexivity|]. done.
Qed.

Lemma demo_asks : only_asks demo_open.
Proof.
  split_and!.
  - intros p o ops [-> ->]%demo_open_os [= <-]. split; try done. intros f q v [= <-] d r d' [= _ <-]. done.
  - intros p d Hd. assert (h_devs demo_open = demo_devs) as E by (vm_compute; reflexivity). rewrite E in Hd. unfold demo_devs in Hd.
    apply lookup_singleton_Some in Hd as [_ <-]. done.
  - intros a n d r d' [= _ <-]. done.
Qed.

Lemma os_ioctl_safe_witness :
  os_faults (demo_call 0) (mk_os 500 1 0 1 (Some demo_os_ops) 0 0 [] 0 [] None 0 0) 0x112a01 0 = false /\
  (exists rep h', ihk_host_os_ioctl (demo_call 0) 7 0x112a01 0 demo_open = Ret (rep, h') /\ hinv (fun _ : Z => True) [] h') /\
  ihk_host_os_ioctl (demo_call 1000) 7 0x112a39 0 demo_open = Undef.
Proof.
  assert (h_oses demo_open !! 1000 = Some (mk_os 500 1 0 1 (Some demo_os_ops) 0 0 [] 0 [] None 0 0)) as Ho by (vm_compute; reflexivity).
  assert (h_files demo_open !! 7 = Some (mk_file 1000 None 0 0)) as Hx by (vm_compute; reflexivity).
  split; [reflexivity|split].
  - pose proof (os_ioctl_safe (fun _ : Z => True) [] demo_open (demo_call 0) 7 _ _ 0x112a01 0 demo_open_inv demo_full Hx Ho) as H.
    apply H. intros _. split; [apply counts_low_dec; vm_compute; reflexivity|]. right. split; [done|].
    exists demo_os_ops. do 4 eexists. split_and!; reflexivity.
  - pose proof (os_ioctl_safe (fun _ : Z => True) [] demo_open (demo_call 1000) 7 _ _ 0x112a39 0 demo_open_inv demo_full Hx Ho) as H.
    apply H. intros ops b phys _ _ _ d _. by eexists _, _.
Defined.

Lemma unprivileged_ioctl_witness :
  exists rep h', ihk_host_os_ioctl (demo_call 1000) 7 0x112a01 0 demo_open = Ret (rep, h') /\
    looked (uses_kmsg (os_request_of 0x112a01)) (takes (os_request_of 0x112a01)) demo_open h' /\
    (controls (os_request_of 0x112a01) -> rep = (- EPERM, []) /\ h' = demo_open).
Proof.
  destruct (ihk_host_os_ioctl (demo_call 1000) 7 0x112a01 0 demo_open) as [[rep h']|] eqn:E; [|vm_compute in E; discriminate E].
  exists rep, h'. split; [reflexivity|]. apply (unprivileged_ioctl (demo_call 1000) 7 0x112a01 0 demo_open rep h'); [done|exact demo_asks|exact E].
Defined.

Definition demo_handler : ihk_os_user_call_handler Z := mk_uch 0x10000001 5 (fun _ _ priv arg _ d => Ret (priv + arg, d)).

Lemma aux_handlers_roundtrip_witness :
  let o := mk_os 500 1 0 1 (Some demo_os_ops) 0 0 [] 0 [] None 0 0 in
  let h1 := set_oses demo_open (<[1000 := o_set_aux o ([] ++ [(300, [demo_handler])])]> (h_oses demo_open)) in
  ihk_os_register_user_call_handlers 1000 300 [demo_handler] demo_open = Ret (0, h1) /\
  ihk_os_unregister_user_call_handlers 1000 300 h1 = Ret (tt, demo_open) /\
  ihk_host_os_ioctl (demo_call 1000) 7 0x10000001 37 h1 = Ret ((42, []), set_drv h1 (h_drv demo_open)).
Proof.
  assert (h_oses demo_open !! 1000 = Some (mk_os 500 1 0 1 (Some demo_os_ops) 0 0 [] 0 [] None 0 0)) as Ho by (vm_compute; reflexivity).
  pose proof (aux_handlers_roundtrip demo_open 1000 _ 300 [demo_handler] Ho) as H. cbv zeta in H |- *.
  destruct H as (H1 & H2 & H3); [by intros []%elem_of_nil|]. split; [exact H1|]. split; [exact H2|].
  eapply eq_trans; [apply (H3 (demo_call 1000) 7 (mk_file 1000 None 0 0) 0x10000001 37); [reflexivity..|]|reflexivity].
  unfold IHK_OS_AUX_CALL_START, IHK_OS_AUX_CALL_END. lia.
Defined.

Lemma load_file_pieces_witness :
  exists pieces, concat pieces = [1; 2; 3; 4; 5] /\ Forall (fun b => (0 < length b)%nat /\ Z.of_nat (length b) <= PAGE_SIZE) pieces /\
    __ihk_os_load_file (demo_call 0) 1000 [109] demo_open =
    on_drv (load_seq (fun _ _ _ => Ret (0, IHK_OS_STATUS_LOADING)) 0 pieces) demo_open.
Proof.
  apply (load_file_pieces (demo_call 0) demo_open 1000 (mk_os 500 1 0 1 (Some demo_os_ops) 0 0 [] 0 [] None 0 0) demo_os_ops
    (fun _ _ _ _ _ => Ret (0, IHK_OS_STATUS_LOADING)) [109] (mk_kfile 5 (fun pos _ => (5 - pos, drop (Z.to_nat pos) [1; 2; 3; 4; 5]))));
    try reflexivity; [|done].
  split; [reflexivity|]. cbn [kf_size kf_read]. intros pos Hpos. exists (Z.to_nat (5 - pos)). split_and!; [lia|unfold PAGE_SIZE; lia|lia|].
  f_equal; [lia|]. rewrite take_ge; [done|]. rewrite length_drop. cbn. lia.
Defined.

(** File 8 has the device open. *)
Definition demo_dev_open : host Z := set_dev_files demo_open {[ 8 := 500 ]}.

Lemma demo_dev_open_inv : hinv (fun _ : Z => True) [] demo_dev_open.
Proof. destruct demo_open_inv as [H1 H2 H3 H4 H5 H6 H7 H8 H9 H10]. split; try done. intros p o Ho. destruct (H5 p o Ho). by split. Qed.

Lemma device_ioctl_safe_witness :
  (exists rep h' handles', ihk_host_device_ioctl [49] (demo_call 0) 8 0x112901 0 demo_dev_open = Ret (rep, h') /\ hinv (fun _ : Z => True) handles' h') /\
  ihk_host_device_ioctl [49] (demo_call 0) 8 0x112901 64 demo_dev_open = Undef.
Proof.
  split.
  - apply (device_ioctl_safe (fun _ : Z => True) [49] [] demo_dev_open (demo_call 0) 8 500 (mk_dev 1 0 0 demo_dev_ops 0) 0x112901 0);
      [exact demo_dev_open_inv|exact demo_full|reflexivity|reflexivity|by split|done|done].
  - apply (device_ioctl_safe (fun _ : Z => True) [49] [] demo_dev_open (demo_call 0) 8 500 (mk_dev 1 0 0 demo_dev_ops 0) 0x112901 64);
      [exact demo_dev_open_inv|exact demo_full|reflexivity|reflexivity|by split|done|done].
Defined.
