(* ===== verification/SmpDump.v ===== *)
(** * The dump bitmap of a kernel

    A booting kernel gets a buffer with one bitmap per memory chunk, in which
    it later clears the bits of the pages to leave out of a dump.  This file
    models the layout of the buffer, its initial contents (the end of
    smp_ihk_os_boot, smp-driver.c), the dump requests (get_dump_num_mem_areas
    and smp_ihk_os_dump of arch/*/smp-arch-driver.c) and the panic notifier
    (smp-driver.c), which hides pages from the dump of Linux. *)

From stdpp Require Import base tactics numbers list gmap sorting.
From S2P Require Import Prelude Kmsg HostData SmpData SmpStatus.

Open Scope ihk_scope.

(** ** Layout *)

Definition BITS_PER_LONG : Z := 64.
Definition DUMP_MAP_INDEX (n : Z) : Z := Z.shiftr n 6.
Definition DUMP_MAP_BIT (n : Z) : Z := Z.land n 63.

(** struct ihk_dump_page, its map included; the buffer holds it as the words
    start, map_count and map[0..map_count-1]. *)
Record ihk_dump_page : Type := mk_dump_page { dp_start : Z; dp_map : list Z }.

Definition encode_page (d : ihk_dump_page) : list Z :=
  dp_start d :: Z.of_nat (length (dp_map d)) :: dp_map d.
Definition encode_pages (l : list ihk_dump_page) : list Z := concat (encode_page <$> l).

(** The word where the structure after the one at word [pos] begins:
    (char * )dump_page + map_count * sizeof(unsigned long) + sizeof(struct ihk_dump_page). *)
Definition next_page (i pos : Z) (buf : list Z) : outcome Z :=
  if i =? 0 then Ret pos else n ← aget buf (pos + 1); Ret (pos + n + 2).

(** ** Initial contents (smp_ihk_os_boot) *)

Definition dump_map_count (csize : Z) : Z :=
  u64 (csize + PAGE_SIZE * BITS_PER_LONG - 1) / (PAGE_SIZE * BITS_PER_LONG).
Definition dump_map_end (csize : Z) : Z := Z.shiftr (u64 (csize + PAGE_SIZE - 1)) PAGE_SHIFT.

(** buffer_size of the kernel's chunks, in bytes *)
Fixpoint dump_buffer_size (os : Z) (l : list ihk_os_mem_chunk) : Z :=
  match l with
  | [] => 0
  | c :: l' =>
      if oc_os c =? os then dump_map_count (oc_size c) * 8 + 16 + dump_buffer_size os l'
      else dump_buffer_size os l'
  end.

(** Turning on the bits of one chunk: [n] more rounds from [index]. *)
Fixpoint mark_pages (n : nat) (index pos : Z) (buf : list Z) : outcome (list Z) :=
  match n with
  | O => Ret buf
  | S n' =>
      count ← aget buf (pos + 1);
      if count <=? DUMP_MAP_INDEX index then Ret buf else
      w ← aget buf (pos + 2 + DUMP_MAP_INDEX index);
      buf ← aset buf (pos + 2 + DUMP_MAP_INDEX index) (Z.lor w (Z.shiftl 1 (DUMP_MAP_BIT index)));
      mark_pages n' (index + 1) pos buf
  end.

(** The loop over all used chunks. *)
Fixpoint dump_fill (l : list ihk_os_mem_chunk) (i pos : Z) (buf : list Z) : outcome (list Z) :=
  match l with
  | [] => Ret buf
  | c :: l' =>
      pos ← next_page i pos buf;
      buf ← aset buf pos (oc_addr c);
      buf ← aset buf (pos + 1) (dump_map_count (oc_size c));
      buf ← mark_pages (Z.to_nat (dump_map_end (oc_size c))) 0 pos buf;
      dump_fill l' (i + 1) pos buf
  end.

(** struct ihk_dump_page_set; the buffer at phy_page is [ds_buf]. *)
Record ihk_dump_page_set : Type := mk_dump_set {
  ds_completion_flag : Z;
  ds_count : Z;
  ds_page_size : Z;
  ds_buf : list Z
}.
Definition IHK_DUMP_PAGE_SET_INCOMPLETE : Z := 0.
Definition IHK_DUMP_PAGE_SET_COMPLETED : Z := 1.

(** The smallest order with at least [size] bytes; the left operand is a
    size_t, so 64 orders can be shifted by. *)
Fixpoint pages_order (fuel : nat) (order size : Z) : outcome Z :=
  match fuel with
  | O => Undef
  | S f => if u64 (Z.shiftl PAGE_SIZE order) <? size then pages_order f (order + 1) size else Ret order
  end.

(** dump_size and the part of smp_ihk_os_boot that fills the buffer; the
    pages come zeroed from alloc_pages. *)
Definition dump_size (buffer_size : Z) : Z := s32 (Z.land (buffer_size + PAGE_SIZE - 1) (- PAGE_SIZE)).
Definition dump_init (os : Z) (used : list ihk_os_mem_chunk) : outcome ihk_dump_page_set :=
  let buffer_size := dump_buffer_size os used in
  let nr_memory_chunks := Z.of_nat (length (filter (fun c => oc_os c = os) used)) in
  order ← pages_order 64 0 (u64 (dump_size buffer_size));
  let buf := replicate (Z.to_nat (Z.shiftl PAGE_SIZE order / 8)) 0 in
  buf ← (if nr_memory_chunks =? 0 then Ret buf else dump_fill used 0 0 buf);
  Ret (mk_dump_set IHK_DUMP_PAGE_SET_INCOMPLETE nr_memory_chunks (dump_size buffer_size) buf).

(** ** Reading the bitmaps (get_dump_num_mem_areas) *)

Definition dump_bit (w k : Z) : bool := negb (Z.land (Z.shiftr w k) 1 =? 0).

(** The loops over the bits of a word, the words of a map and the maps; the
    state is bit_count and mem_num. *)
Fixpoint count_bits (n : nat) (k w : Z) (st : Z * Z) : Z * Z :=
  match n with
  | O => st
  | S n' =>
      let '(bit_count, mem_num) := st in
      count_bits n' (k + 1) w
        (if dump_bit w k then (bit_count + 1, mem_num)
         else if bit_count =? 0 then (0, mem_num) else (0, mem_num + 1))
  end.

Fixpoint count_words (n : nat) (j pos : Z) (buf : list Z) (st : Z * Z) : outcome (Z * Z) :=
  match n with
  | O => Ret st
  | S n' =>
      w ← aget buf (pos + 2 + j);
      count_words n' (j + 1) pos buf (count_bits 64 0 w st)
  end.

Fixpoint count_pages (n : nat) (i pos : Z) (buf : list Z) (mem_num : Z) : outcome Z :=
  match n with
  | O => Ret mem_num
  | S n' =>
      pos ← next_page i pos buf;
      count ← aget buf (pos + 1);
      ' (bit_count, mem_num) ← count_words (Z.to_nat count) 0 pos buf (0, mem_num);
      count_pages n' (i + 1) pos buf (if bit_count =? 0 then mem_num else mem_num + 1)
  end.

(** Bytes of dump_mem_chunks_t with [n] entries. *)
Definition dump_bytes (n : Z) : Z := 24 + 16 * n.

(** get_dump_num_mem_areas once completion_flag is set. *)
Definition get_dump_num_mem_areas (s : ihk_dump_page_set) : outcome Z :=
  mem_num ← count_pages (Z.to_nat (ds_count s)) 0 0 (ds_buf s) 0;
  Ret (dump_bytes mem_num).

(** ** Collecting the areas (DUMP_QUERY_MEM_AREAS) *)

(** bit_count, map_start, index and the entries of mem_chunks *)
Record area_state : Type := mk_areas {
  as_bit_count : Z;
  as_map_start : Z;
  as_index : Z;
  as_chunks : list (Z * Z)
}.

(** mem_chunks->chunks[index] = the current run; index++ *)
Definition put_area (s : area_state) : outcome area_state :=
  chunks ← aset (as_chunks s) (as_index s) (as_map_start s, u64 (Z.shiftl (as_bit_count s) PAGE_SHIFT));
  Ret (mk_areas 0 (as_map_start s) (as_index s + 1) chunks).

Fixpoint area_bits (n : nat) (k j start w : Z) (s : area_state) : outcome area_state :=
  match n with
  | O => Ret s
  | S n' =>
      s ← (if dump_bit w k then
             Ret (mk_areas (as_bit_count s + 1)
                    (if as_bit_count s =? 0
                     then u64 (u64 (start + Z.shiftl j (PAGE_SHIFT + 6)) + Z.shiftl k PAGE_SHIFT)
                     else as_map_start s)
                    (as_index s) (as_chunks s))
           else if as_bit_count s =? 0 then Ret s else put_area s);
      area_bits n' (k + 1) j start w s
  end.

Fixpoint area_words (n : nat) (j pos start : Z) (buf : list Z) (s : area_state) : outcome area_state :=
  match n with
  | O => Ret s
  | S n' =>
      w ← aget buf (pos + 2 + j);
      s ← area_bits 64 0 j start w s;
      area_words n' (j + 1) pos start buf s
  end.

(** [clip]: the size of mem_chunks that x86_64 checks before each map; arm64
    has no check. *)
Fixpoint area_pages (n : nat) (i pos : Z) (buf : list Z) (clip : option Z) (s : area_state) : outcome area_state :=
  match n with
  | O => Ret s
  | S n' =>
      if (match clip with Some mem_size => mem_size <? dump_bytes (as_index s + 1) | None => false end)
      then Ret s else
      pos ← next_page i pos buf;
      count ← aget buf (pos + 1);
      start ← aget buf pos;
      s ← area_words (Z.to_nat count) 0 pos start buf (mk_areas 0 (as_map_start s) (as_index s) (as_chunks s));
      s ← (if as_bit_count s =? 0 then Ret s else put_area s);
      area_pages n' (i + 1) pos buf clip s
  end.

(** The chunks of DUMP_QUERY, the entries of mem_chunks filled from [i] on. *)
Fixpoint query_chunks (os : Z) (l : list ihk_os_mem_chunk) (clip : option Z) (i : Z) (chunks : list (Z * Z))
    : outcome (Z * list (Z * Z)) :=
  match l with
  | [] => Ret (i, chunks)
  | c :: l' =>
      if negb (oc_os c =? os) then query_chunks os l' clip i chunks else
      if (match clip with Some mem_size => mem_size <? dump_bytes (i + 1) | None => false end)
      then Ret (i, chunks) else
      chunks ← aset chunks i (oc_addr c, oc_size c);
      query_chunks os l' clip (i + 1) chunks
  end.

(** ** smp_ihk_os_dump *)

(** dumpargs_t without the buffer and its commands *)
Record dumpargs : Type := mk_dumpargs { da_cmd : Z; da_level : Z; da_start : Z; da_size : Z }.
Definition DUMP_NMI : Z := 1.
Definition DUMP_QUERY : Z := 2.
Definition DUMP_READ : Z := 3.
Definition DUMP_QUERY_ALL : Z := 4.
Definition DUMP_READ_ALL : Z := 5.
Definition DUMP_SET_LEVEL : Z := 6.
Definition DUMP_QUERY_NUM_MEM_AREAS : Z := 7.
Definition DUMP_QUERY_MEM_AREAS : Z := 8.
Definition DUMP_QUERY_PHYS_START : Z := 9.
Definition DUMP_NMI_CONT : Z := 10.
Definition DUMP_LEVEL_ALL : Z := 0.
Definition DUMP_LEVEL_USER_UNUSED_EXCLUDE : Z := 24.

Definition IHK_SMP_LARGE_PAGE : Z := 2 ^ 21.

(** What a dump request reads of a kernel: its number, the boot parameters'
    dump_level and dump_page_set (if they exist), and its memory. *)
Record dump_kernel : Type := mk_dump_kernel {
  dk_os : Z;
  dk_param : option (Z * ihk_dump_page_set);
  dk_bootstrap_mem_start : Z;
  dk_mem_start : Z;
  dk_mem_end : Z;
  dk_used : list ihk_os_mem_chunk
}.

(** What a request copies to the buffer of the caller, with its length: the
    structure dump_mem_chunks_t, physical memory from an address on, or a
    variable of 8 bytes. *)
Inductive dump_copy : Type :=
| CopyChunks (nr_chunks kernel_base phys_start : Z) (chunks : list (Z * Z))
| CopyPhys (start : Z)
| CopyWord (v : Z).

(** The result: return value, arguments written back, dump_level, the mode of
    an NMI that is sent, and what is copied. *)
Record dump_out : Type := mk_dump_out {
  do_ret : Z;
  do_args : dumpargs;
  do_level : option Z;
  do_nmi : option Z;
  do_copy : option (Z * dump_copy)
}.
Definition dump_ret (ret : Z) (args : dumpargs) : dump_out := mk_dump_out ret args None None None.

(** The polling of completion_flag: [obs] are the contents that successive
    polls see. *)
Fixpoint wait_completed (obs : list ihk_dump_page_set) : option ihk_dump_page_set :=
  match obs with
  | [] => None
  | s :: obs' => if ds_completion_flag s =? IHK_DUMP_PAGE_SET_COMPLETED then Some s else wait_completed obs'
  end.

Section dump.
(** kmalloc of a size succeeds; copy_to_user of a number of bytes to the
    buffer of the caller succeeds; *ihk___memstart_addr of arm64. *)
Context (a : smp_arch) (kmalloc copy_ok : Z -> bool) (memstart : Z).

Definition is_x86 : bool := match a with X86_64 => true | ARM64 _ => false end.

(** copy_to_user at the end of a request *)
Definition dump_copy_out (args : dumpargs) (n : Z) (c : dump_copy) : dump_out :=
  if copy_ok n then mk_dump_out 0 args None None (Some (n, c)) else dump_ret (- EFAULT) args.

(** The common part of DUMP_QUERY and DUMP_QUERY_MEM_AREAS: the structure
    with [mem_size] bytes, filled by [fill].  The header takes 16 bytes on
    x86_64, where phys_start is not written, and 24 on arm64. *)
Definition dump_chunks (k : dump_kernel) (args : dumpargs) (s : ihk_dump_page_set)
    (fill : option Z -> list (Z * Z) -> outcome (Z * list (Z * Z))) : outcome dump_out :=
  num ← get_dump_num_mem_areas s;
  let mem_size := if is_x86 then Z.min num (da_size args) else num in
  if negb (kmalloc mem_size) then Ret (dump_ret (- ENOMEM) args) else
  ' (n, chunks) ← fill (if is_x86 then Some mem_size else None)
                       (replicate (Z.to_nat ((mem_size - 24) / 16)) (0, 0));
  if mem_size <? (if is_x86 then 16 else 24) then Undef else
  let kernel_base := Z.land (u64 (dk_bootstrap_mem_start k + IHK_SMP_LARGE_PAGE * 2 - 1)) (- IHK_SMP_LARGE_PAGE) in
  Ret (dump_copy_out args mem_size (CopyChunks n kernel_base (if is_x86 then 0 else memstart) chunks)).

(** [obs]: what later polls of the boot parameters see; the result is [None]
    while the request waits for the kernel. *)
Definition smp_ihk_os_dump (k : dump_kernel) (obs : list ihk_dump_page_set) (args : dumpargs)
    : outcome (option dump_out) :=
  let with_set (f : Z -> ihk_dump_page_set -> outcome (option dump_out)) :=
    match dk_param k with Some (level, s) => f level s | None => Undef end in
  let completed (f : ihk_dump_page_set -> outcome dump_out) :=
    with_set (fun _ s =>
      match wait_completed (s :: obs) with
      | Some s => o ← f s; Ret (Some o)
      | None => Ret None
      end) in
  if da_cmd args =? DUMP_SET_LEVEL then
    with_set (fun _ _ =>
      Ret (Some (if (da_level args =? DUMP_LEVEL_ALL) || (da_level args =? DUMP_LEVEL_USER_UNUSED_EXCLUDE)
                 then mk_dump_out 0 args (Some (da_level args)) None None
                 else dump_ret (- EINVAL) args)))
  else if da_cmd args =? DUMP_NMI then
    with_set (fun _ s =>
      Ret (Some (mk_dump_out 0 args None
        (if ds_completion_flag s =? IHK_DUMP_PAGE_SET_COMPLETED then None else Some 0) None)))
  else if da_cmd args =? DUMP_NMI_CONT then
    with_set (fun _ s =>
      Ret (Some (mk_dump_out 0 args None
        (if ds_completion_flag s =? IHK_DUMP_PAGE_SET_COMPLETED then Some 4 else None) None)))
  else if da_cmd args =? DUMP_QUERY_NUM_MEM_AREAS then
    completed (fun s =>
      num ← get_dump_num_mem_areas s;
      Ret (dump_ret 0 (mk_dumpargs (da_cmd args) (da_level args) (da_start args) num)))
  else if da_cmd args =? DUMP_QUERY then
    completed (fun s => dump_chunks k args s (fun clip => query_chunks (dk_os k) (dk_used k) clip 0))
  else if da_cmd args =? DUMP_QUERY_MEM_AREAS then
    completed (fun s => dump_chunks k args s (fun clip chunks =>
      r ← area_pages (Z.to_nat (ds_count s)) 0 0 (ds_buf s) clip (mk_areas 0 0 0 chunks);
      Ret (as_index r, as_chunks r)))
  else if (da_cmd args =? DUMP_READ) || (da_cmd args =? DUMP_READ_ALL) then
    Ret (Some (dump_copy_out args (da_size args) (CopyPhys (da_start args))))
  else if da_cmd args =? DUMP_QUERY_ALL then
    Ret (Some (dump_ret 0 (mk_dumpargs (da_cmd args) (da_level args) (s64 (dk_mem_start k))
                             (s64 (dk_mem_end k - dk_mem_start k)))))
  else if negb is_x86 && (da_cmd args =? DUMP_QUERY_PHYS_START) then
    Ret (Some (dump_copy_out args 8 (CopyWord memstart)))
  else Ret (Some (dump_ret (- EINVAL) args)).
End dump.

(** ** smp_ihk_os_panic_notifier

    The pages that get PAGE_MAPPING_ANON, as a set of page frame numbers. *)

Definition mark_anon (phys : Z) (m : gset Z) : gset Z := {[phys / PAGE_SIZE]} ∪ m.

Fixpoint anon_bits (n : nat) (k j start w : Z) (m : gset Z) : gset Z :=
  match n with
  | O => m
  | S n' =>
      anon_bits n' (k + 1) j start w
        (if dump_bit w k then m
         else mark_anon (u64 (u64 (start + Z.shiftl j (PAGE_SHIFT + 6)) + Z.shiftl k PAGE_SHIFT)) m)
  end.

Fixpoint anon_words (n : nat) (j pos start : Z) (buf : list Z) (m : gset Z) : outcome (gset Z) :=
  match n with
  | O => Ret m
  | S n' =>
      w ← aget buf (pos + 2 + j);
      anon_words n' (j + 1) pos start buf (anon_bits 64 0 j start w m)
  end.

Fixpoint anon_pages (n : nat) (i pos : Z) (buf : list Z) (m : gset Z) : outcome (gset Z) :=
  match n with
  | O => Ret m
  | S n' =>
      pos ← next_page i pos buf;
      count ← aget buf (pos + 1);
      start ← aget buf pos;
      m ← anon_words (Z.to_nat count) 0 pos start buf m;
      anon_pages n' (i + 1) pos buf m
  end.

(** exclude_mem_from_linux_dump: [n] is a bound on the pages of a chunk. *)
Fixpoint exclude_chunk (n : nat) (phys stop : Z) (m : gset Z) : gset Z :=
  match n with
  | O => m
  | S n' => if phys <? stop then exclude_chunk n' (phys + PAGE_SIZE) stop (mark_anon phys m) else m
  end.
Definition exclude_chunks (os : Z) (l : list ihk_os_mem_chunk) (m : gset Z) : gset Z :=
  foldl (fun m c => if oc_os c =? os
                    then exclude_chunk (Z.to_nat (oc_size c / PAGE_SIZE + 1)) (oc_addr c) (oc_addr c + oc_size c) m
                    else m) m l.

(** [obs n]: what the n-th poll of the boot parameters sees. *)
Definition smp_ihk_os_panic_notifier (a : smp_arch) (kn : kernel) (k : dump_kernel) (obs : nat -> ihk_dump_page_set)
    (m : gset Z) : outcome (gset Z) :=
  status ← smp_ihk_os_query_status a kn;
  if (status =? IHK_OS_STATUS_BOOTED) || (status =? IHK_OS_STATUS_BOOTING) || (status =? IHK_OS_STATUS_READY)
  then Ret (exclude_chunks (dk_os k) (dk_used k) m) else
  match dk_param k with
  | None => Undef
  | Some (level, _) =>
      match wait_completed (obs <$> seq 0 30) with
      | None => Ret (exclude_chunks (dk_os k) (dk_used k) m)
      | Some s =>
          if level =? DUMP_LEVEL_USER_UNUSED_EXCLUDE
          then anon_pages (Z.to_nat (ds_count s)) 0 0 (ds_buf s) m
          else Ret m
      end
  end.

(** ** Runs of set bits

    The reference for the scans: the maximal runs (start, length) of the first
    [n] bits of [f], those already closed and the length of the open one. *)
Fixpoint runs_upto (f : nat -> bool) (n : nat) : list (nat * nat) * nat :=
  match n with
  | O => ([], 0%nat)
  | S n' =>
      let '(l, open) := runs_upto f n' in
      if f n' then (l, S open)
      else match open with O => (l, O) | S _ => (l ++ [(n' - open, open)%nat], O) end
  end.
Definition close (n : nat) (r : list (nat * nat) * nat) : list (nat * nat) :=
  match r.2 with O => r.1 | S _ => r.1 ++ [(n - r.2, r.2)%nat] end.
Definition bit_runs (f : nat -> bool) (n : nat) : list (nat * nat) := close n (runs_upto f n).

(** The runs of a bit set: inside the range, all bits set, no set bit next to
    them, in order, and every set bit in one of them. *)
Record is_runs (f : nat -> bool) (n : nat) (l : list (nat * nat)) : Prop := mk_is_runs {
  ir_inside : Forall (fun r => 0 < r.2 /\ r.1 + r.2 <= n)%nat l;
  ir_set : forall r i, r ∈ l -> (r.1 <= i < r.1 + r.2)%nat -> f i = true;
  ir_before : forall r, r ∈ l -> (0 < r.1)%nat -> f (r.1 - 1)%nat = false;
  ir_after : forall r, r ∈ l -> (r.1 + r.2 < n)%nat -> f (r.1 + r.2)%nat = false;
  ir_sorted : pairwise (fun r r' => r.1 + r.2 < r'.1)%nat l;
  ir_all : forall i, (i < n)%nat -> f i = true -> exists r, r ∈ l /\ (r.1 <= i < r.1 + r.2)%nat
}.

Lemma pairwise_snoc {A} (R : A -> A -> Prop) l x :
  pairwise R l -> Forall (fun y => R y x) l -> pairwise R (l ++ [x]).
Proof.
  induction l as [|y l IH]; simpl; [by repeat constructor|].
  intros [H1 H2] H. apply Forall_cons in H as [Hy H]. split; [|auto].
  apply Forall_app. auto.
Qed.

Lemma is_runs_skip f n l : is_runs f n l -> f n = false -> is_runs f (S n) l.
Proof.
  intros [H1 H2 H3 H4 H5 H6] Hn. constructor; auto.
  - eapply Forall_impl; [exact H1|]. simpl. lia.
  - intros r Hr Hlt. destruct (decide (r.1 + r.2 = n)%nat) as [->|]; [done|]. apply H4; [done|lia].
  - intros i Hi Hf. apply H6; [|done]. destruct (decide (i = n)); [congruence|lia].
Qed.

Lemma is_runs_push f m o l :
  is_runs f m l -> (0 < o)%nat -> (forall i, (m <= i < m + o)%nat -> f i = true) ->
  ((0 < m)%nat -> f (m - 1)%nat = false) -> Forall (fun r => r.1 + r.2 < m)%nat l ->
  is_runs f (m + o) (l ++ [(m, o)]).
Proof.
  intros [H1 H2 H3 H4 H5 H6] Ho Hset Hb Hl. rewrite Forall_forall in Hl. constructor.
  - apply Forall_app. split; [|apply Forall_singleton; simpl; lia].
    eapply Forall_impl; [exact H1|]. simpl. lia.
  - intros r i [Hr|Hr%list_elem_of_singleton]%elem_of_app ?; [by eapply H2|subst; auto].
  - intros r [Hr|Hr%list_elem_of_singleton]%elem_of_app; [by apply H3|subst; auto].
  - intros r [Hr|Hr%list_elem_of_singleton]%elem_of_app ?; [|subst; simpl in *; lia].
    apply H4; [done|]. specialize (Hl _ Hr). simpl in *. lia.
  - apply pairwise_snoc; [done|]. by apply Forall_forall.
  - intros i Hi Hf. destruct (decide (i < m)%nat) as [Hlt|].
    + destruct (H6 i Hlt Hf) as (r & ? & ?). exists r. rewrite elem_of_app. auto.
    + exists (m, o). rewrite elem_of_app, list_elem_of_singleton. simpl. split; [auto|lia].
Qed.

(** The closed runs are those before the open one. *)
Lemma runs_upto_spec f n :
  let '(l, open) := runs_upto f n in
  (open <= n)%nat /\
  (forall i, (n - open <= i < n)%nat -> f i = true) /\
  ((open < n)%nat -> f (n - open - 1)%nat = false) /\
  is_runs f (n - open) l /\ Forall (fun r => r.1 + r.2 < n - open)%nat l.
Proof.
  induction n as [|n IH]; simpl.
  { split_and!; try lia; [constructor|constructor]; try done; intros; set_solver by lia. }
  destruct (runs_upto f n) as [l o]. destruct IH as (Ho & Hopen & Hb & Hr & Hl).
  destruct (f n) eqn:Hn.
  - replace (S n - S o)%nat with (n - o)%nat by lia. split_and!; auto with lia.
    intros i Hi. destruct (decide (i = n)) as [->|]; auto with lia.
  - destruct o as [|o']; [|set (o := S o') in *].
    + replace (n - 0)%nat with n in * by lia. replace (S n - 0)%nat with (S n) by lia.
      split_and!; auto with lia.
      * by replace (S n - 1)%nat with n by lia.
      * by apply is_runs_skip.
      * eapply Forall_impl; [exact Hl|]. simpl. lia.
    + replace (S n - 0)%nat with (S n) by lia.
      split_and!; auto with lia.
      * by replace (S n - 1)%nat with n by lia.
      * apply is_runs_skip; [|done]. replace n with (n - o + o)%nat at 1 by lia.
        apply is_runs_push; auto with lia.
      * apply Forall_app. split; [|apply Forall_singleton; simpl; lia].
        eapply Forall_impl; [exact Hl|]. simpl. lia.
Qed.

Lemma bit_runs_spec f n : is_runs f n (bit_runs f n).
Proof.
  unfold bit_runs, close. pose proof (runs_upto_spec f n) as H.
  destruct (runs_upto f n) as [l o]. destruct H as (Ho & Hopen & Hb & Hr & Hl). simpl.
  destruct o as [|o']; [by replace (n - 0)%nat with n in Hr by lia|]. set (o := S o') in *.
  replace n with (n - o + o)%nat at 1 by lia. apply is_runs_push; auto with lia.
Qed.

(** How many runs the first bits have only grows with their number. *)
Definition run_count (r : list (nat * nat) * nat) : nat :=
  (length r.1 + if decide (r.2 = 0) then 0 else 1)%nat.

Lemma run_count_close n r : length (close n r) = run_count r.
Proof. destruct r as [l [|o]]; unfold close, run_count; simpl; [lia|]. rewrite length_app. simpl. lia. Qed.

Lemma run_count_mono f i n : (i <= n)%nat -> (run_count (runs_upto f i) <= run_count (runs_upto f n))%nat.
Proof.
  induction 1 as [|n _ IH]; [lia|]. etrans; [exact IH|]. simpl.
  destruct (runs_upto f n) as [l o]. unfold run_count. simpl.
  destruct (f n); [|destruct o]; simpl; repeat case_decide; try lia. rewrite length_app. simpl. lia.
Qed.

(** ** The layout of the buffer *)

(** Bit [i] of a map of 64-bit words. *)
Definition map_bit (m : list Z) (i : nat) : bool :=
  Z.testbit (default 0 (m !! (i / 64)%nat)) (Z.of_nat (i mod 64)).

Lemma dump_bit_testbit w k : 0 <= k -> dump_bit w k = Z.testbit w k.
Proof.
  intros. unfold dump_bit. rewrite (Z.land_ones _ 1), Z.testbit_odd, Zmod_odd by lia.
  by destruct (Z.odd _).
Qed.

Lemma map_bit_word m j k w :
  m !! j = Some w -> (k < 64)%nat -> map_bit m (64 * j + k) = Z.testbit w (Z.of_nat k).
Proof.
  intros Hj Hk. unfold map_bit.
  replace ((64 * j + k) / 64)%nat with j by (rewrite Nat.mul_comm, Nat.div_add_l, Nat.div_small; lia).
  replace ((64 * j + k) mod 64)%nat with k
    by (rewrite Nat.mul_comm, Nat.add_comm, Nat.Div0.mod_add, Nat.mod_small; lia).
  by rewrite Hj.
Qed.

(** The words of one structure, found in a buffer. *)
Section page.
Context (pre post : list Z) (d : ihk_dump_page).
Abbreviation buf := (pre ++ encode_page d ++ post).
Abbreviation pos := (Z.of_nat (length pre)).

Lemma page_word i w : encode_page d !! i = Some w -> aget buf (pos + Z.of_nat i) = Ret w.
Proof using.
  intros H. apply aget_Ret. split; [lia|]. rewrite lookup_app_r by lia.
  replace (Z.to_nat _ - _)%nat with i by lia. by apply lookup_app_l_Some.
Qed.

Lemma page_start : aget buf pos = Ret (dp_start d).
Proof using. rewrite <- (Z.add_0_r pos). by apply (page_word 0). Qed.

Lemma page_count : aget buf (pos + 1) = Ret (Z.of_nat (length (dp_map d))).
Proof using. by apply (page_word 1). Qed.

Lemma page_map j w : dp_map d !! j = Some w -> aget buf (pos + 2 + Z.of_nat j) = Ret w.
Proof using.
  intros H. replace (pos + 2 + Z.of_nat j) with (pos + Z.of_nat (S (S j))) by lia. by apply page_word.
Qed.

Lemma page_next i : 0 <= i -> next_page (i + 1) pos buf = Ret (Z.of_nat (length (pre ++ encode_page d))).
Proof using.
  intros Hi. unfold next_page. destruct (Z.eqb_spec (i + 1) 0); [lia|]. rewrite page_count.
  cbn [mbind outcome_bind]. f_equal. rewrite length_app. simpl. lia.
Qed.
End page.

(** ** The scans compute the runs *)

Section scan.
Context (d : ihk_dump_page).
Abbreviation f := (map_bit (dp_map d)).
Abbreviation nbits := (64 * length (dp_map d))%nat.

Definition page_runs : list (nat * nat) := bit_runs f nbits.

(** get_dump_num_mem_areas: bit_count is the open run, mem_num grows by the
    closed ones. *)
Definition counted (num : Z) (i : nat) (st : Z * Z) : Prop :=
  st = (Z.of_nat (runs_upto f i).2, num + Z.of_nat (length (runs_upto f i).1)).

Lemma count_bits_ok num j w n k st :
  dp_map d !! j = Some w -> (k + n <= 64)%nat -> counted num (64 * j + k) st ->
  counted num (64 * j + (k + n)) (count_bits n (Z.of_nat k) w st).
Proof using.
  intros Hw. revert k st. induction n as [|n IH]; intros k st Hk Hst; cbn [count_bits].
  { by rewrite Nat.add_0_r. }
  rewrite Hst. replace (Z.of_nat k + 1) with (Z.of_nat (S k)) by lia.
  replace (k + S n)%nat with (S k + n)%nat by lia. apply IH; [lia|].
  unfold counted. replace (64 * j + S k)%nat with (S (64 * j + k)) by lia. cbn [runs_upto].
  rewrite (map_bit_word _ _ _ _ Hw), dump_bit_testbit by lia.
  destruct (runs_upto f _) as [l o]. simpl. destruct (Z.testbit w _); simpl; [f_equal; lia|].
  destruct o; simpl; [done|]. rewrite length_app. simpl. f_equal. lia.
Qed.

Lemma count_words_ok pre post num n j st :
  (j + n = length (dp_map d))%nat -> counted num (64 * j) st ->
  exists st', count_words n (Z.of_nat j) (Z.of_nat (length pre)) (pre ++ encode_page d ++ post) st = Ret st' /\
    counted num nbits st'.
Proof using.
  revert j st. induction n as [|n IH]; intros j st Hj Hst; cbn [count_words].
  { exists st. split; [done|]. by replace (length (dp_map d)) with j by lia. }
  destruct (lookup_lt_is_Some_2 (dp_map d) j) as [w Hw]; [lia|].
  rewrite (page_map _ _ _ _ _ Hw). cbn [mbind outcome_bind].
  replace (Z.of_nat j + 1) with (Z.of_nat (S j)) by lia. apply IH; [lia|].
  replace (64 * S j)%nat with (64 * j + (0 + 64))%nat by lia.
  apply count_bits_ok; [done|lia|]. by rewrite Nat.add_0_r.
Qed.

(** DUMP_QUERY_MEM_AREAS: the entries of the closed runs follow [done0]. *)
Definition area_of (r : nat * nat) : Z * Z :=
  (u64 (dp_start d + Z.of_nat r.1 * PAGE_SIZE), u64 (Z.of_nat r.2 * PAGE_SIZE)).

Definition filled (cap : nat) (l : list (Z * Z)) : list (Z * Z) := l ++ replicate (cap - length l) (0, 0).

Record collected (done0 : list (Z * Z)) (cap i : nat) (s : area_state) : Prop := mk_collected {
  co_open : as_bit_count s = Z.of_nat (runs_upto f i).2;
  co_start : (0 < (runs_upto f i).2)%nat -> as_map_start s = u64 (dp_start d + Z.of_nat (i - (runs_upto f i).2) * PAGE_SIZE);
  co_index : as_index s = Z.of_nat (length done0 + length (runs_upto f i).1);
  co_chunks : as_chunks s = filled cap (done0 ++ (area_of <$> (runs_upto f i).1))
}.

Lemma filled_put cap l x :
  (length l < cap)%nat -> aset (filled cap l) (Z.of_nat (length l)) x = Ret (filled cap (l ++ [x])).
Proof using.
  intros H. unfold filled. rewrite aset_in by (rewrite length_app, length_replicate; lia).
  f_equal. rewrite Nat2Z.id, insert_app_r_alt, Nat.sub_diag by lia.
  rewrite length_app. replace (cap - length l)%nat with (S (cap - (length l + 1))) by lia. simpl.
  by rewrite <- app_assoc.
Qed.

(** The entry of the open run when it ends before bit [i]. *)
Lemma put_area_ok done0 cap i s :
  collected done0 cap i s -> (0 < (runs_upto f i).2)%nat -> (length done0 + run_count (runs_upto f i) <= cap)%nat ->
  put_area s = Ret (mk_areas 0 (as_map_start s) (as_index s + 1)
    (filled cap (done0 ++ (area_of <$> close i (runs_upto f i))))).
Proof using.
  intros [H1 H2 H3 H4] Ho Hcap. unfold put_area. rewrite H1, H2, H3, H4 by done.
  unfold run_count in Hcap. unfold close. destruct (runs_upto f i) as [l o]. simpl in *.
  case_decide; [lia|]. destruct o as [|o]; [lia|].
  replace (length done0 + length l)%nat with (length (done0 ++ (area_of <$> l)))
    by (rewrite length_app, length_fmap; lia).
  rewrite filled_put by (rewrite length_app, length_fmap; lia). cbn [mbind outcome_bind].
  rewrite fmap_app, app_assoc. f_equal. f_equal. f_equal. unfold area_of. simpl.
  do 3 f_equal. by rewrite Z.shiftl_mul_pow2.
Qed.

Lemma area_bits_ok done0 cap j w n k s :
  dp_map d !! j = Some w -> (k + n <= 64)%nat -> (length done0 + length page_runs <= cap)%nat ->
  collected done0 cap (64 * j + k) s ->
  exists s', area_bits n (Z.of_nat k) (Z.of_nat j) (dp_start d) w s = Ret s' /\
    collected done0 cap (64 * j + (k + n)) s'.
Proof using.
  intros Hw Hk Hcap. revert k s Hk. induction n as [|n IH]; intros k s Hk Hs; cbn [area_bits].
  { exists s. by rewrite Nat.add_0_r. }
  pose proof (lookup_lt_Some _ _ _ Hw) as Hj.
  assert (run_count (runs_upto f (64 * j + k)) <= length page_runs)%nat as Hc.
  { unfold page_runs, bit_runs. rewrite run_count_close. apply run_count_mono. lia. }
  rewrite dump_bit_testbit, <- (map_bit_word _ _ _ _ Hw) by lia.
  replace (Z.of_nat k + 1) with (Z.of_nat (S k)) by lia. replace (k + S n)%nat with (S k + n)%nat by lia.
  pose proof (put_area_ok _ _ _ _ Hs) as Hput.
  assert (forall s', collected done0 cap (S (64 * j + k)) s' ->
    exists s'', area_bits n (Z.of_nat (S k)) (Z.of_nat j) (dp_start d) w s' = Ret s'' /\
      collected done0 cap (64 * j + (S k + n)) s'') as Hrest.
  { intros s' Hs'. apply IH; [lia|]. by replace (64 * j + S k)%nat with (S (64 * j + k)) by lia. }
  destruct Hs as [H1 H2 H3 H4]. set (i := (64 * j + k)%nat) in *.
  destruct (f i) eqn:Hf; [|destruct (Z.eqb_spec (as_bit_count s) 0) as [E|E]].
  - apply Hrest. constructor; cbn [runs_upto as_bit_count as_map_start as_index as_chunks];
      rewrite Hf; destruct (runs_upto f i) as [l o]; simpl in *; try done; [lia|].
    intros _. destruct (Z.eqb_spec (as_bit_count s) 0); [|rewrite H2 by lia; do 3 f_equal; lia].
    replace (i - o)%nat with i by lia. subst i. unfold PAGE_SIZE, PAGE_SHIFT, u64.
    rewrite !Z.shiftl_mul_pow2, Zplus_mod_idemp_l by lia. f_equal. lia.
  - apply Hrest. constructor; cbn [runs_upto]; rewrite Hf; destruct (runs_upto f i) as [l [|o]]; simpl in *; done || lia.
  - rewrite Hput by lia. cbn [mbind outcome_bind]. apply Hrest. clear Hput. unfold close.
    constructor; cbn [runs_upto as_bit_count as_map_start as_index as_chunks];
      rewrite Hf; destruct (runs_upto f i) as [l [|o]]; simpl in *; try done; try lia.
    rewrite length_app. simpl. lia.
Qed.

Lemma area_words_ok pre post done0 cap n j s :
  (j + n = length (dp_map d))%nat -> (length done0 + length page_runs <= cap)%nat ->
  collected done0 cap (64 * j) s ->
  exists s', area_words n (Z.of_nat j) (Z.of_nat (length pre)) (dp_start d) (pre ++ encode_page d ++ post) s = Ret s' /\
    collected done0 cap nbits s'.
Proof using.
  intros Hj Hcap. revert j s Hj. induction n as [|n IH]; intros j s Hj Hs; cbn [area_words].
  { exists s. split; [done|]. by replace (length (dp_map d)) with j by lia. }
  destruct (lookup_lt_is_Some_2 (dp_map d) j) as [w Hw]; [lia|].
  rewrite (page_map _ _ _ _ _ Hw). cbn [mbind outcome_bind].
  destruct (area_bits_ok done0 cap j w 64 0 s) as (s' & E & Hs'); [done|lia|done|by rewrite Nat.add_0_r|].
  change (Z.of_nat 0) with 0 in E. rewrite E. cbn [mbind outcome_bind]. replace (Z.of_nat j + 1) with (Z.of_nat (S j)) by lia. apply IH; [lia|].
  by replace (64 * S j)%nat with (64 * j + (0 + 64))%nat by lia.
Qed.

(** The panic notifier: the frames of the clear bits are added. *)
Definition frame (i : nat) : Z := u64 (dp_start d + Z.of_nat i * PAGE_SIZE) / PAGE_SIZE.
Definition hidden (m0 : gset Z) (i : nat) (m : gset Z) : Prop :=
  forall x, x ∈ m <-> x ∈ m0 \/ exists i', (i' < i)%nat /\ f i' = false /\ x = frame i'.

Lemma anon_bits_ok m0 j w n k m :
  dp_map d !! j = Some w -> (k + n <= 64)%nat -> hidden m0 (64 * j + k) m ->
  hidden m0 (64 * j + (k + n)) (anon_bits n (Z.of_nat k) (Z.of_nat j) (dp_start d) w m).
Proof using.
  intros Hw. revert k m. induction n as [|n IH]; intros k m Hk Hm; cbn [anon_bits].
  { by rewrite Nat.add_0_r. }
  replace (Z.of_nat k + 1) with (Z.of_nat (S k)) by lia. replace (k + S n)%nat with (S k + n)%nat by lia.
  apply IH; [lia|]. rewrite dump_bit_testbit, <- (map_bit_word _ _ _ _ Hw) by lia.
  set (i := (64 * j + k)%nat) in *. replace (64 * j + S k)%nat with (S i) by lia.
  assert (u64 (u64 (dp_start d + Z.shiftl (Z.of_nat j) (PAGE_SHIFT + 6)) + Z.shiftl (Z.of_nat k) PAGE_SHIFT) / PAGE_SIZE
          = frame i) as Hframe.
  { unfold frame, PAGE_SIZE, PAGE_SHIFT, u64. rewrite !Z.shiftl_mul_pow2, Zplus_mod_idemp_l by lia.
    do 2 f_equal. lia. }
  intros x. destruct (f i) eqn:Hf; unfold mark_anon; rewrite ?Hframe, ?elem_of_union, ?elem_of_singleton, (Hm x).
  - split; (intros [?|(i' & ? & ? & ?)]; [by left|right]); exists i'; split_and!; auto with lia.
    destruct (decide (i' = i)); [congruence|lia].
  - split.
    + intros [->|[?|(i' & ? & ? & ?)]]; [|by left|]; right; [exists i|exists i']; auto with lia.
    + intros [?|(i' & Hi & ? & ?)]; [by right; left|]. destruct (decide (i' = i)) as [->|]; [by left|].
      right; right. exists i'. auto with lia.
Qed.

Lemma anon_words_ok pre post m0 n j m :
  (j + n = length (dp_map d))%nat -> hidden m0 (64 * j) m ->
  exists m', anon_words n (Z.of_nat j) (Z.of_nat (length pre)) (dp_start d) (pre ++ encode_page d ++ post) m = Ret m' /\
    hidden m0 nbits m'.
Proof using.
  revert j m. induction n as [|n IH]; intros j m Hj Hm; cbn [anon_words].
  { exists m. split; [done|]. by replace (length (dp_map d)) with j by lia. }
  destruct (lookup_lt_is_Some_2 (dp_map d) j) as [w Hw]; [lia|].
  rewrite (page_map _ _ _ _ _ Hw). cbn [mbind outcome_bind].
  replace (Z.of_nat j + 1) with (Z.of_nat (S j)) by lia. apply IH; [lia|].
  replace (64 * S j)%nat with (64 * j + (0 + 64))%nat by lia.
  apply anon_bits_ok; [done|lia|]. by rewrite Nat.add_0_r.
Qed.
End scan.

(** ** The loops over the maps *)

(** The areas of all maps. *)
Definition all_areas (ds : list ihk_dump_page) : list (Z * Z) := concat ((fun d => area_of d <$> page_runs d) <$> ds).

Lemma close_areas d done0 cap s :
  collected d done0 cap (64 * length (dp_map d)) s -> (length done0 + length (page_runs d) <= cap)%nat ->
  let done1 := done0 ++ (area_of d <$> page_runs d) in
  exists s', (if as_bit_count s =? 0 then Ret s else put_area s) = Ret s' /\
    as_index s' = Z.of_nat (length done1) /\ as_chunks s' = filled cap done1.
Proof.
  intros Hs Hcap done1. pose proof (put_area_ok _ _ _ _ _ Hs) as Hput.
  subst done1. unfold page_runs, bit_runs in *. rewrite run_count_close in Hcap.
  destruct Hs as [H1 H2 H3 H4]. set (r := runs_upto _ _) in *.
  destruct (Z.eqb_spec (as_bit_count s) 0) as [E|E].
  - exists s. unfold close. destruct r as [l [|o]]; [|simpl in *; lia]. simpl in *.
    rewrite length_app, length_fmap. auto.
  - rewrite Hput by lia. eexists. split; [done|]. split; [|done]. cbn [as_index].
    rewrite H3, length_app, length_fmap, run_count_close. unfold run_count. case_decide; lia.
Qed.

Section maps.
Context (post : list Z).

Lemma count_pages_ok ds : forall pre i pos num,
  0 <= i -> next_page i pos (pre ++ encode_pages ds ++ post) = Ret (Z.of_nat (length pre)) ->
  count_pages (length ds) i pos (pre ++ encode_pages ds ++ post) num =
    Ret (num + Z.of_nat (length (all_areas ds))).
Proof using.
  induction ds as [|d ds IH]; intros pre i pos num Hi Hp; cbn [count_pages length]; [simpl; f_equal; lia|].
  rewrite Hp. cbn [mbind outcome_bind]. unfold encode_pages, all_areas in *. cbn [fmap list_fmap concat] in *.
  rewrite <- app_assoc in *. rewrite page_count. cbn [mbind outcome_bind]. rewrite Nat2Z.id.
  destruct (count_words_ok d pre (concat (encode_page <$> ds) ++ post) num (length (dp_map d)) 0 (0, num))
    as (st & E & Hst); [lia|by unfold counted; simpl; f_equal; lia|].
  change (Z.of_nat 0) with 0 in E. rewrite E. cbn [mbind outcome_bind]. rewrite Hst.
  pose proof (page_next pre (concat (encode_page <$> ds) ++ post) d i Hi) as Hn.
  rewrite app_assoc in Hn |- *. erewrite IH; [|lia|exact Hn]. f_equal.
  rewrite length_app, length_fmap. unfold page_runs, bit_runs. rewrite run_count_close. unfold run_count.
  destruct (runs_upto _ _) as [l o]. simpl. case_decide; destruct (Z.eqb_spec (Z.of_nat o) 0); lia.
Qed.

Lemma area_pages_ok clip cap ds : forall pre i pos done0 s,
  (clip = None \/ clip = Some (dump_bytes (Z.of_nat cap))) ->
  0 <= i -> next_page i pos (pre ++ encode_pages ds ++ post) = Ret (Z.of_nat (length pre)) ->
  as_index s = Z.of_nat (length done0) -> as_chunks s = filled cap done0 ->
  (length done0 + length (all_areas ds) = cap)%nat ->
  exists s', area_pages (length ds) i pos (pre ++ encode_pages ds ++ post) clip s = Ret s' /\
    as_index s' = Z.of_nat cap /\ as_chunks s' = done0 ++ all_areas ds.
Proof using.
  induction ds as [|d ds IH]; intros pre i pos done0 s Hclip Hi Hp Hx Hc Hcap; cbn [area_pages length].
  { exists s. simpl in Hcap. split_and!; [done|lia|]. unfold filled in Hc.
    by replace (cap - length done0)%nat with 0%nat in Hc by lia. }
  destruct (match clip with Some _ => _ | None => _ end) eqn:Ec.
  { destruct Hclip as [->| ->]; [done|]. apply Z.ltb_lt in Ec. unfold dump_bytes in Ec.
    assert (all_areas (d :: ds) = []) as E by (apply length_zero_iff_nil; lia). rewrite E in Hcap |- *.
    simpl in Hcap. unfold filled in Hc. replace (cap - length done0)%nat with 0%nat in Hc by lia.
    exists s. split_and!; [done|lia|done]. }
  rewrite Hp. cbn [mbind outcome_bind]. unfold encode_pages, all_areas in *. cbn [fmap list_fmap concat] in *.
  rewrite <- app_assoc in *. rewrite page_count, page_start. cbn [mbind outcome_bind]. rewrite Nat2Z.id.
  rewrite length_app, length_fmap in Hcap.
  edestruct (area_words_ok d pre (concat (encode_page <$> ds) ++ post) done0 cap (length (dp_map d)) 0)
    as (s1 & E & Hs1); [lia|lia| |change (Z.of_nat 0) with 0 in E; rewrite E].
  { constructor; simpl; [done|lia|lia|by rewrite app_nil_r]. }
  cbn [mbind outcome_bind]. destruct (close_areas _ _ _ _ Hs1) as (s2 & -> & Hx2 & Hc2); [lia|].
  cbn [mbind outcome_bind]. pose proof (page_next pre (concat (encode_page <$> ds) ++ post) d i Hi) as Hn.
  rewrite app_assoc in Hn |- *. edestruct IH as (s' & -> & ? & Hc'); [done| |exact Hn|exact Hx2|exact Hc2| |].
  - lia.
  - rewrite length_app, length_fmap. lia.
  - exists s'. rewrite Hc', app_assoc. done.
Qed.

(** The frames of the clear bits of all maps. *)
Definition clear_frames (ds : list ihk_dump_page) (x : Z) : Prop :=
  exists d i, d ∈ ds /\ (i < 64 * length (dp_map d))%nat /\ map_bit (dp_map d) i = false /\ x = frame d i.

Lemma anon_pages_ok ds : forall pre i pos m,
  0 <= i -> next_page i pos (pre ++ encode_pages ds ++ post) = Ret (Z.of_nat (length pre)) ->
  exists m', anon_pages (length ds) i pos (pre ++ encode_pages ds ++ post) m = Ret m' /\
    forall x, x ∈ m' <-> x ∈ m \/ clear_frames ds x.
Proof using.
  induction ds as [|d ds IH]; intros pre i pos m Hi Hp; cbn [anon_pages length].
  { exists m. split; [done|]. intros x. split; [by left|]. intros [|(? & ? & ?%elem_of_nil & _)]; done. }
  rewrite Hp. cbn [mbind outcome_bind]. unfold encode_pages in *. cbn [fmap list_fmap concat] in *.
  rewrite <- app_assoc in *. rewrite page_count, page_start. cbn [mbind outcome_bind]. rewrite Nat2Z.id.
  destruct (anon_words_ok d pre (concat (encode_page <$> ds) ++ post) m (length (dp_map d)) 0 m)
    as (m1 & E & Hm1); [lia| |change (Z.of_nat 0) with 0 in E; rewrite E].
  { intros x. split; [by left|]. intros [|(? & ? & _)]; [done|lia]. }
  cbn [mbind outcome_bind]. pose proof (page_next pre (concat (encode_page <$> ds) ++ post) d i Hi) as Hn.
  rewrite app_assoc in Hn |- *. destruct (IH (pre ++ encode_page d) (i + 1) (Z.of_nat (length pre)) m1)
    as (m' & -> & Hm'); [lia|done|]. exists m'. split; [done|]. intros x. rewrite (Hm' x), (Hm1 x).
  unfold clear_frames. clear. split.
  - intros [[?|(i' & ?)]|(d' & i' & ? & ?)]; [by left|right; exists d, i'|right; exists d', i'];
      (split; [rewrite elem_of_cons; by auto|done]).
  - intros [?|(d' & i' & [->|?]%elem_of_cons & ?)]; [by left; left|left; right; by exists i'|right; by exists d', i'].
Qed.
End maps.

(** ** Filling the buffer *)

(** A map whose first [i] bits are set. *)
Definition map_upto (cnt i : nat) : list Z := (fun j => Z.ones (Z.of_nat (Nat.min 64 (i - 64 * j)))) <$> seq 0 cnt.

Lemma map_upto_lookup cnt i j :
  (j < cnt)%nat -> map_upto cnt i !! j = Some (Z.ones (Z.of_nat (Nat.min 64 (i - 64 * j)))).
Proof. intros. unfold map_upto. rewrite list_lookup_fmap, lookup_seq_lt by lia. done. Qed.

Lemma map_upto_length cnt i : length (map_upto cnt i) = cnt.
Proof. unfold map_upto. by rewrite length_fmap, length_seq. Qed.

Lemma map_upto_0 cnt : map_upto cnt 0 = replicate cnt 0.
Proof.
  apply list_eq. intros j. destruct (decide (j < cnt)%nat).
  - by rewrite map_upto_lookup, lookup_replicate_2 by lia.
  - rewrite !lookup_ge_None_2; rewrite ?map_upto_length, ?length_replicate; [done|lia|lia].
Qed.

Lemma map_upto_bit cnt n i : (i < 64 * cnt)%nat -> map_bit (map_upto cnt n) i = (Nat.ltb i n).
Proof.
  intros Hi. unfold map_bit.
  pose proof (Nat.div_mod_eq i 64) as E. pose proof (Nat.mod_upper_bound i 64 ltac:(lia)) as Hm.
  rewrite map_upto_lookup by (apply Nat.Div0.div_lt_upper_bound; lia). cbn [from_option id].
  generalize dependent (i / 64)%nat. generalize dependent (i mod 64)%nat. intros k Hk q E.
  rewrite ones_testbit by lia.
  destruct (Nat.ltb_spec i n), (Z.leb_spec 0 (Z.of_nat k)),
    (Z.ltb_spec (Z.of_nat k) (Z.of_nat (Nat.min 64 (n - 64 * q)))); done || lia.
Qed.

Lemma map_upto_set cnt i w :
  (i < 64 * cnt)%nat -> map_upto cnt i !! (i / 64)%nat = Some w ->
  <[(i / 64)%nat := Z.lor w (Z.shiftl 1 (Z.of_nat (i mod 64)))]> (map_upto cnt i) = map_upto cnt (S i).
Proof.
  intros Hi Hw.
  pose proof (Nat.div_mod_eq i 64) as E. pose proof (Nat.mod_upper_bound i 64 ltac:(lia)) as Hm.
  assert (i / 64 < cnt)%nat as Hq by (apply Nat.Div0.div_lt_upper_bound; lia).
  set (q := (i / 64)%nat) in *. set (k := (i mod 64)%nat) in *.
  clearbody q k. rewrite map_upto_lookup in Hw by lia. apply (inj Some) in Hw as <-.
  apply list_eq. intros j. destruct (decide (j < cnt)%nat) as [Hj|Hj].
  2: { rewrite !lookup_ge_None_2; rewrite ?length_insert, ?map_upto_length; [done|lia|lia]. }
  destruct (decide (j = q)) as [->|].
  - rewrite list_lookup_insert_eq, map_upto_lookup by (rewrite ?map_upto_length; lia). f_equal.
    replace (Nat.min 64 (i - 64 * q)) with k by lia. replace (Nat.min 64 (S i - 64 * q)) with (S k) by lia.
    apply Z.bits_inj'. intros b Hb. rewrite Z.lor_spec, !ones_testbit, Z.shiftl_spec by lia.
    destruct (Z.leb_spec 0 b), (Z.ltb_spec b (Z.of_nat k)), (Z.ltb_spec b (Z.of_nat (S k))); cbn [andb orb]; try done; try lia.
    + replace b with (Z.of_nat k) by lia. by rewrite Z.sub_diag.
    + apply (Z.bits_above_log2 1); simpl; lia.
  - rewrite list_lookup_insert_ne, !map_upto_lookup by lia. do 3 f_equal. lia.
Qed.

Lemma dump_map_index i : DUMP_MAP_INDEX (Z.of_nat i) = Z.of_nat (i / 64).
Proof. unfold DUMP_MAP_INDEX. by rewrite Z.shiftr_div_pow2, Nat2Z.inj_div by lia. Qed.

Lemma dump_map_bit i : DUMP_MAP_BIT (Z.of_nat i) = Z.of_nat (i mod 64).
Proof. unfold DUMP_MAP_BIT. rewrite (Z.land_ones _ 6) by lia. by rewrite Nat2Z.inj_mod. Qed.

Lemma aset_app {A} (pre l : list A) i x :
  (i < length l)%nat -> aset (pre ++ l) (Z.of_nat (length pre) + Z.of_nat i) x = Ret (pre ++ <[i := x]> l).
Proof.
  intros Hi. rewrite aset_in by (rewrite length_app; lia). f_equal.
  rewrite insert_app_r_alt by lia. do 2 f_equal. lia.
Qed.

Lemma page_set_map pre post start m j x :
  (j < length m)%nat ->
  aset (pre ++ encode_page (mk_dump_page start m) ++ post) (Z.of_nat (length pre) + 2 + Z.of_nat j) x =
    Ret (pre ++ encode_page (mk_dump_page start (<[j := x]> m)) ++ post).
Proof.
  intros Hj. replace (_ + 2 + Z.of_nat j) with (Z.of_nat (length pre) + Z.of_nat (S (S j))) by lia.
  rewrite aset_app by (simpl; rewrite length_app; lia). unfold encode_page. simpl.
  by rewrite insert_app_l, length_insert by lia.
Qed.

Lemma mark_pages_ok pre post start cnt n i :
  (i + n <= 64 * cnt)%nat ->
  mark_pages n (Z.of_nat i) (Z.of_nat (length pre)) (pre ++ encode_page (mk_dump_page start (map_upto cnt i)) ++ post) =
    Ret (pre ++ encode_page (mk_dump_page start (map_upto cnt (i + n))) ++ post).
Proof.
  revert i. induction n as [|n IH]; intros i Hi; cbn [mark_pages]; [by rewrite Nat.add_0_r|].
  rewrite page_count. cbn [mbind outcome_bind dp_map]. rewrite map_upto_length, dump_map_index, dump_map_bit.
  assert (i / 64 < cnt)%nat as Hq by (apply Nat.Div0.div_lt_upper_bound; lia).
  destruct (Z.leb_spec (Z.of_nat cnt) (Z.of_nat (i / 64))); [lia|].
  destruct (lookup_lt_is_Some_2 (map_upto cnt i) (i / 64)%nat) as [w Hw]; [by rewrite map_upto_length|].
  rewrite (page_map _ _ (mk_dump_page start (map_upto cnt i)) (i / 64)%nat w Hw). cbn [mbind outcome_bind].
  rewrite page_set_map by (by rewrite map_upto_length). cbn [mbind outcome_bind].
  rewrite (map_upto_set cnt i w ltac:(lia) Hw). replace (Z.of_nat i + 1) with (Z.of_nat (S i)) by lia.
  rewrite IH by lia. do 6 f_equal. lia.
Qed.

(** The structure of a chunk, and that it is well-sized. *)
Definition chunk_pages (c : ihk_os_mem_chunk) : nat := Z.to_nat ((oc_size c + PAGE_SIZE - 1) / PAGE_SIZE).
Definition chunk_words (c : ihk_os_mem_chunk) : nat := Z.to_nat ((oc_size c + PAGE_SIZE * 64 - 1) / (PAGE_SIZE * 64)).
Definition page_of (c : ihk_os_mem_chunk) : ihk_dump_page :=
  mk_dump_page (oc_addr c) (map_upto (chunk_words c) (chunk_pages c)).
Definition sized (c : ihk_os_mem_chunk) : Prop := 0 <= oc_size c < 2 ^ 63.

Lemma chunk_fits c : sized c -> (chunk_pages c <= 64 * chunk_words c)%nat.
Proof.
  unfold sized, chunk_pages, chunk_words, PAGE_SIZE. intros H.
  pose proof (Z.div_mod (oc_size c + 4096 - 1) 4096 ltac:(lia)) as E1.
  pose proof (Z.div_mod (oc_size c + 4096 * 64 - 1) (4096 * 64) ltac:(lia)) as E2.
  pose proof (Z.mod_pos_bound (oc_size c + 4096 - 1) 4096 ltac:(lia)).
  pose proof (Z.mod_pos_bound (oc_size c + 4096 * 64 - 1) (4096 * 64) ltac:(lia)).
  lia.
Qed.

Lemma dump_map_count_nat c : sized c -> dump_map_count (oc_size c) = Z.of_nat (chunk_words c).
Proof.
  unfold sized, dump_map_count, chunk_words, BITS_PER_LONG, PAGE_SIZE. intros H.
  rewrite u64_small, Z2Nat.id by (try apply Z.div_pos; lia). done.
Qed.

Lemma dump_map_end_nat c : sized c -> Z.to_nat (dump_map_end (oc_size c)) = chunk_pages c.
Proof.
  unfold sized, dump_map_end, chunk_pages, PAGE_SHIFT, PAGE_SIZE. intros H.
  by rewrite u64_small, Z.shiftr_div_pow2 by lia.
Qed.

Definition words (l : list ihk_os_mem_chunk) : nat := length (encode_pages (page_of <$> l)).

Lemma words_cons c l : words (c :: l) = (2 + chunk_words c + words l)%nat.
Proof. unfold words, encode_pages. simpl. by rewrite length_app, map_upto_length. Qed.

Lemma dump_fill_ok l : forall pre i pos r,
  Forall sized l -> 0 <= i -> (words l <= r)%nat ->
  (l <> [] -> next_page i pos (pre ++ replicate r 0) = Ret (Z.of_nat (length pre))) ->
  dump_fill l i pos (pre ++ replicate r 0) =
    Ret (pre ++ encode_pages (page_of <$> l) ++ replicate (r - words l) 0).
Proof.
  induction l as [|c l IH]; intros pre i pos r Hl Hi Hr Hp; cbn [dump_fill].
  { unfold words. simpl. by rewrite Nat.sub_0_r. }
  apply Forall_cons in Hl as [Hc Hl]. rewrite words_cons in Hr. rewrite Hp by done.
  cbn [mbind outcome_bind]. rewrite dump_map_count_nat, dump_map_end_nat by done.
  replace r with (2 + chunk_words c + (r - (2 + chunk_words c)))%nat at 1 by lia.
  set (r' := (r - (2 + chunk_words c))%nat) in *. rewrite !replicate_add. cbn [replicate app].
  rewrite <- (Z.add_0_r (Z.of_nat (length pre))) at 1. rewrite (aset_app pre _ 0) by (simpl; lia).
  cbn [mbind outcome_bind]. rewrite (aset_app pre _ 1) by (simpl; lia). cbn [mbind outcome_bind].
  cbn [insert list_insert]. rewrite <- map_upto_0.
  pose proof (mark_pages_ok pre (replicate r' 0) (oc_addr c) (chunk_words c) (chunk_pages c) 0) as Hm.
  unfold encode_page in Hm. cbn [dp_start dp_map] in Hm. rewrite !map_upto_length in Hm.
  change (Z.of_nat 0) with 0 in Hm. cbn [app] in Hm. rewrite Hm by (apply chunk_fits; done).
  cbn [mbind outcome_bind]. rewrite Nat.add_0_l.
  replace (Z.of_nat (chunk_words c)) with (Z.of_nat (length (dp_map (page_of c)))) by (by simpl; rewrite map_upto_length).
  change (oc_addr c :: _) with (encode_page (page_of c) ++ replicate r' 0).
  pose proof (page_next pre (replicate r' 0) (page_of c) i Hi) as Hn. rewrite app_assoc in Hn |- *.
  rewrite (IH _ _ _ r' Hl); [|lia|subst r'; lia|intros _; exact Hn]. rewrite words_cons. unfold encode_pages. rewrite !fmap_cons. cbn [concat].
  rewrite <- !app_assoc. by replace (r' - words l)%nat with (r - (2 + chunk_words c + words l))%nat by (subst r'; lia).
Qed.

(** *** Size of the buffer *)

(** Masking with PAGE_MASK and the like. *)
Lemma land_neg_pow2 x k : 0 <= k -> Z.land x (- 2 ^ k) = x / 2 ^ k * 2 ^ k.
Proof.
  intros Hk. replace (- 2 ^ k) with (Z.lnot (Z.ones k)) by (rewrite Z.ones_equiv; unfold Z.lnot; lia).
  by rewrite <- Z.ldiff_land, Z.ldiff_ones_r, Z.shiftl_mul_pow2, Z.shiftr_div_pow2 by done.
Qed.

Lemma page_align x : x <= Z.land (x + PAGE_SIZE - 1) (- PAGE_SIZE) < x + PAGE_SIZE.
Proof.
  change (- PAGE_SIZE) with (- 2 ^ 12). rewrite land_neg_pow2 by lia. change (2 ^ 12) with 4096. unfold PAGE_SIZE.
  pose proof (Z.div_mod (x + 4096 - 1) 4096 ltac:(lia)).
  pose proof (Z.mod_pos_bound (x + 4096 - 1) 4096 ltac:(lia)). lia.
Qed.

Lemma pages_order_ok fuel size : forall o,
  0 <= o <= 51 -> 51 - o < Z.of_nat fuel -> size <= 2 ^ 63 ->
  exists o', pages_order fuel o size = Ret o' /\ o <= o' <= 51 /\ size <= Z.shiftl PAGE_SIZE o'.
Proof.
  induction fuel as [|fuel IH]; intros o Ho Hf Hs; [lia|]. cbn [pages_order].
  assert (0 < Z.shiftl PAGE_SIZE o <= 2 ^ 63) as Hb.
  { rewrite Z.shiftl_mul_pow2 by lia. unfold PAGE_SIZE. change 4096 with (2 ^ 12).
    rewrite <- Z.pow_add_r by lia. split; [apply Z.pow_pos_nonneg; lia|]. apply Z.pow_le_mono_r; lia. }
  rewrite u64_small by lia. destruct (Z.ltb_spec (Z.shiftl PAGE_SIZE o) size).
  - destruct (decide (o = 51)) as [->|]; [by rewrite Z.shiftl_mul_pow2 in * by lia; unfold PAGE_SIZE in *; lia|].
    destruct (IH (o + 1)) as (o' & ? & ? & ?); [lia|lia|done|]. exists o'. split_and!; auto with lia.
  - exists o. split_and!; auto with lia.
Qed.

Lemma dump_buffer_words os l :
  Forall sized l -> Forall (fun c => oc_os c = os) l -> dump_buffer_size os l = 8 * Z.of_nat (words l).
Proof.
  induction 1 as [|c l Hc Hl IH]; intros Hos; [done|]. apply Forall_cons in Hos as [Ho Hos].
  cbn [dump_buffer_size]. rewrite Ho, Z.eqb_refl, dump_map_count_nat, IH, words_cons by done. lia.
Qed.

Lemma dump_init_ok os used :
  used <> [] -> Forall sized used -> Forall (fun c => oc_os c = os) used -> 8 * Z.of_nat (words used) + PAGE_SIZE <= 2 ^ 31 ->
  exists rest, dump_init os used =
    Ret (mk_dump_set IHK_DUMP_PAGE_SET_INCOMPLETE (Z.of_nat (length used))
           (dump_size (8 * Z.of_nat (words used))) (encode_pages (page_of <$> used) ++ replicate rest 0)).
Proof.
  intros Hne Hsz Hos Hb. unfold dump_init. rewrite dump_buffer_words by done.
  pose proof (page_align (8 * Z.of_nat (words used))) as Ha.
  assert (8 * Z.of_nat (words used) <= u64 (dump_size (8 * Z.of_nat (words used))) < 2 ^ 31) as Hd.
  { unfold dump_size. rewrite s32_small, u64_small by lia. lia. }
  destruct (pages_order_ok 64 (u64 (dump_size (8 * Z.of_nat (words used)))) 0) as (o & -> & Ho & Hs); [lia|lia|lia|].
  cbn [mbind outcome_bind]. rewrite filter_all by (by apply Forall_forall).
  destruct (Z.eqb_spec (Z.of_nat (length used)) 0); [by destruct used|].
  set (r := Z.to_nat (Z.shiftl PAGE_SIZE o / 8)).
  assert (words used <= r)%nat. { subst r. pose proof (Z.div_le_lower_bound (Z.shiftl PAGE_SIZE o) 8 (Z.of_nat (words used))). lia. }
  pose proof (dump_fill_ok used [] 0 0 r Hsz ltac:(lia) ltac:(lia) ltac:(done)) as E. cbn [app] in E. rewrite E. exists (r - words used)%nat. done.
Qed.

(** The bytes of the pages that a boot allocates for the bitmaps. *)
Definition dump_page_bytes (os : Z) (used : list ihk_os_mem_chunk) : Z :=
  match pages_order 64 0 (u64 (dump_size (dump_buffer_size os used))) with Ret order => Z.shiftl PAGE_SIZE order | Undef => 0 end.

(** The bitmaps of all used chunks fit these pages: nothing is written behind
    them. *)
Lemma dump_init_fits os used :
  Forall sized used -> filter (fun c => oc_os c = os) used = [] \/ 8 * Z.of_nat (words used) <= dump_page_bytes os used ->
  exists s, dump_init os used = Ret s.
Proof.
  intros Hsz Hf. unfold dump_init, dump_page_bytes in *. destruct (pages_order 64 0 _) as [order|] eqn:Eo; cbn [mbind outcome_bind].
  - destruct (Z.eqb_spec (Z.of_nat (length (filter (fun c => oc_os c = os) used))) 0) as [|Hn]; [by eexists|].
    destruct Hf as [E|Hf]; [by rewrite E in Hn|]. set (r := Z.to_nat (Z.shiftl PAGE_SIZE order / 8)).
    assert (words used <= r)%nat. { subst r. pose proof (Z.div_le_lower_bound (Z.shiftl PAGE_SIZE order) 8 (Z.of_nat (words used))). lia. }
    pose proof (dump_fill_ok used [] 0 0 r Hsz ltac:(lia) ltac:(lia) ltac:(done)) as E. cbn [app] in E. rewrite E. by eexists.
  - exfalso. destruct Hf as [E|Hf].
    + assert (dump_buffer_size os used = 0) as E0; [|rewrite E0 in Eo; vm_compute in Eo; discriminate Eo].
      clear Eo Hsz. induction used as [|c l IH]; [done|]. cbn [dump_buffer_size]. rewrite filter_cons in E.
      destruct (decide (oc_os c = os)) as [|Hc]; [done|]. apply Z.eqb_neq in Hc. rewrite Hc. by apply IH.
    + assert (used = []) as -> by (destruct used; [done|rewrite words_cons in Hf; lia]). vm_compute in Eo. discriminate Eo.
Qed.

(** ** Properties *)

(** The map [d] of chunk [c]: one bit per page, set exactly for the pages
    that begin inside the chunk. *)
Definition describes (c : ihk_os_mem_chunk) (d : ihk_dump_page) : Prop :=
  dp_start d = oc_addr c /\ oc_size c <= 64 * Z.of_nat (length (dp_map d)) * PAGE_SIZE /\
  forall i, (i < 64 * length (dp_map d))%nat ->
    map_bit (dp_map d) i = true <-> Z.of_nat i * PAGE_SIZE < oc_size c.

Lemma page_of_describes c : sized c -> describes c (page_of c).
Proof.
  intros Hc. unfold describes, page_of. cbn [dp_start dp_map]. rewrite map_upto_length.
  unfold sized in Hc. split_and!; [done| |].
  - unfold chunk_words, PAGE_SIZE.
    pose proof (Z.div_mod (oc_size c + 4096 * 64 - 1) (4096 * 64) ltac:(lia)).
    pose proof (Z.mod_pos_bound (oc_size c + 4096 * 64 - 1) (4096 * 64) ltac:(lia)). lia.
  - intros i Hi. rewrite map_upto_bit by done. rewrite Nat.ltb_lt. unfold chunk_pages, PAGE_SIZE.
    pose proof (Z.div_mod (oc_size c + 4096 - 1) 4096 ltac:(lia)).
    pose proof (Z.mod_pos_bound (oc_size c + 4096 - 1) 4096 ltac:(lia)). lia.
Qed.

(** C29: when all used chunks belong to the booting kernel, smp_ihk_os_boot
    fills the dump buffer inside its bounds: there is one bitmap per chunk,
    in the order of the chunks, and a bit is set exactly when its page begins
    inside the chunk. *)
Theorem dump_init_correct os used :
  used <> [] -> Forall (fun c => oc_os c = os /\ 0 <= oc_size c < 2 ^ 63) used ->
  dump_buffer_size os used + PAGE_SIZE <= 2 ^ 31 ->
  exists s pages rest, dump_init os used = Ret s /\ ds_count s = Z.of_nat (length used) /\
    ds_buf s = encode_pages pages ++ rest /\ Forall2 describes used pages.
Proof.
  intros Hne Hl Hb.
  assert (Forall sized used) as Hsz by (eapply Forall_impl; [exact Hl|]; by intros c [_ ?]).
  assert (Forall (fun c => oc_os c = os) used) as Hos by (eapply Forall_impl; [exact Hl|]; by intros c [? _]).
  rewrite dump_buffer_words in Hb by done. destruct (dump_init_ok os used) as [rest ->]; [done..|].
  eexists _, (page_of <$> used), _. split_and!; [done..|].
  apply Forall2_fmap_r, Forall_Forall2_diag. eapply Forall_impl; [exact Hsz|]. apply page_of_describes.
Qed.

Lemma dump_init_correct_witness :
  exists s pages rest, dump_init 1 [mk_os_chunk 0x400000 0x400000 1 0; mk_os_chunk 0x1000000 0x3000 1 1] = Ret s /\
    ds_count s = 2 /\ ds_buf s = encode_pages pages ++ rest /\
    Forall2 describes [mk_os_chunk 0x400000 0x400000 1 0; mk_os_chunk 0x1000000 0x3000 1 1] pages.
Proof.
  apply (dump_init_correct 1 [mk_os_chunk 0x400000 0x400000 1 0; mk_os_chunk 0x1000000 0x3000 1 1]).
  - done.
  - repeat constructor; done.
  - vm_compute. done.
Defined.

Lemma get_dump_num_ok s ds rest :
  ds_count s = Z.of_nat (length ds) -> ds_buf s = encode_pages ds ++ rest ->
  get_dump_num_mem_areas s = Ret (dump_bytes (Z.of_nat (length (all_areas ds)))).
Proof.
  intros Hn Hb. unfold get_dump_num_mem_areas. rewrite Hn, Hb, Nat2Z.id.
  pose proof (count_pages_ok rest ds [] 0 0 0 ltac:(lia) eq_refl) as E. cbn [app] in E. by rewrite E.
Qed.

(** C28: DUMP_QUERY_NUM_MEM_AREAS tells the size of the
    answer to a query of the memory areas; a query with a buffer of at least
    that size returns the maximal runs of set bits of every bitmap as address
    ranges, in order, and stays inside the structure it allocates.  With a
    smaller buffer it does not (dump_query_overrun). *)
Theorem dump_areas_correct a kmalloc copy_ok memstart k level s0 obs s ds rest args :
  dk_param k = Some (level, s0) -> wait_completed (s0 :: obs) = Some s ->
  ds_count s = Z.of_nat (length ds) -> ds_buf s = encode_pages ds ++ rest ->
  da_cmd args = DUMP_QUERY_MEM_AREAS ->
  (forall n, kmalloc n = true) -> (forall n, copy_ok n = true) ->
  exists runs, let areas := concat (zip_with (fun d r => area_of d <$> r) ds runs) in
    let bytes := dump_bytes (Z.of_nat (length areas)) in
    Forall2 (fun d r => is_runs (map_bit (dp_map d)) (64 * length (dp_map d)) r) ds runs /\
    smp_ihk_os_dump a kmalloc copy_ok memstart k obs
      (mk_dumpargs DUMP_QUERY_NUM_MEM_AREAS (da_level args) (da_start args) (da_size args)) =
      Ret (Some (dump_ret 0 (mk_dumpargs DUMP_QUERY_NUM_MEM_AREAS (da_level args) (da_start args) bytes))) /\
    (bytes <= da_size args -> exists kernel_base phys_start,
      smp_ihk_os_dump a kmalloc copy_ok memstart k obs args =
        Ret (Some (mk_dump_out 0 args None None
          (Some (bytes, CopyChunks (Z.of_nat (length areas)) kernel_base phys_start areas))))).
Proof.
  intros Hk Hw Hn Hb Hcmd Hm Hc. exists (page_runs <$> ds). cbn zeta.
  assert (concat (zip_with (fun d r => area_of d <$> r) ds (page_runs <$> ds)) = all_areas ds) as ->.
  { unfold all_areas. f_equal. rewrite zip_with_fmap_r. by rewrite zip_with_diag. }
  pose proof (get_dump_num_ok s ds rest Hn Hb) as Hnum.
  split; [|split].
  - apply Forall2_fmap_r, Forall_Forall2_diag, Forall_forall. intros d _. apply bit_runs_spec.
  - unfold smp_ihk_os_dump. cbn [da_cmd da_level da_start da_size]. rewrite Hk, Hw. cbn -[get_dump_num_mem_areas].
    by rewrite Hnum.
  - intros Hsize. unfold smp_ihk_os_dump. rewrite Hcmd, Hk, Hw. cbn -[dump_chunks].
    unfold dump_chunks. rewrite Hnum. cbn [mbind outcome_bind]. set (n := length (all_areas ds)) in *.
    assert ((if is_x86 a then Z.min (dump_bytes (Z.of_nat n)) (da_size args) else dump_bytes (Z.of_nat n))
            = dump_bytes (Z.of_nat n)) as -> by (destruct (is_x86 a); [by apply Z.min_l|done]).
    rewrite Hm. cbn [negb]. replace ((dump_bytes (Z.of_nat n) - 24) / 16) with (Z.of_nat n)
      by (unfold dump_bytes; rewrite Z.add_simpl_l, Z.mul_comm, Z.div_mul; lia).
    rewrite Nat2Z.id, Hn, Hb, Nat2Z.id.
    edestruct (area_pages_ok rest (if is_x86 a then Some (dump_bytes (Z.of_nat n)) else None) n ds [] 0 0 [])
      as (r & E & Hx & Hch); [by destruct (is_x86 a); auto|lia|done| | |done|].
    3: { cbn [app] in E. rewrite E. cbn [mbind outcome_bind]. rewrite Hx, Hch.
         assert ((dump_bytes (Z.of_nat n) <? (if is_x86 a then 16 else 24)) = false) as ->
           by (apply Z.ltb_ge; unfold dump_bytes; destruct (is_x86 a); lia).
         unfold dump_copy_out. rewrite Hc. by eexists _, _. }
    + done.
    + unfold filled. cbn. by rewrite Nat.sub_0_r.
Qed.

(** A kernel of one chunk that has left pages 1 and 2 out of its dump. *)
Definition demo_set : ihk_dump_page_set := mk_dump_set IHK_DUMP_PAGE_SET_COMPLETED 1 4096 [0x400000; 1; 0x3f9; 0].
Definition demo_kernel (os : Z) (used : list ihk_os_mem_chunk) (s : ihk_dump_page_set) : dump_kernel :=
  mk_dump_kernel os (Some (DUMP_LEVEL_USER_UNUSED_EXCLUDE, s)) 0x400000 0x400000 0x40a000 used.
Definition dump_all (k : dump_kernel) (size : Z) : outcome (option dump_out) :=
  smp_ihk_os_dump X86_64 (fun _ => true) (fun _ => true) 0 k [] (mk_dumpargs DUMP_QUERY_MEM_AREAS 0 0 size).

Lemma dump_areas_correct_witness :
  exists runs, let areas := concat (zip_with (fun d r => area_of d <$> r) [mk_dump_page 0x400000 [0x3f9]] runs) in
    Forall2 (fun d r => is_runs (map_bit (dp_map d)) (64 * length (dp_map d)) r) [mk_dump_page 0x400000 [0x3f9]] runs /\
    (dump_bytes (Z.of_nat (length areas)) <= 56 -> exists kernel_base phys_start,
      dump_all (demo_kernel 1 [mk_os_chunk 0x400000 0xa000 1 0] demo_set) 56 =
        Ret (Some (mk_dump_out 0 (mk_dumpargs DUMP_QUERY_MEM_AREAS 0 0 56) None None
          (Some (dump_bytes (Z.of_nat (length areas)),
                 CopyChunks (Z.of_nat (length areas)) kernel_base phys_start areas))))).
Proof.
  destruct (dump_areas_correct X86_64 (fun _ => true) (fun _ => true) 0
    (demo_kernel 1 [mk_os_chunk 0x400000 0xa000 1 0] demo_set) 24 demo_set [] demo_set
    [mk_dump_page 0x400000 [0x3f9]] [0] (mk_dumpargs DUMP_QUERY_MEM_AREAS 0 0 56))
    as (runs & H1 & _ & H3); [done..|].
  exists runs. exact (conj H1 H3).
Defined.

(** The areas it names. *)
Example demo_areas :
  dump_all (demo_kernel 1 [mk_os_chunk 0x400000 0xa000 1 0] demo_set) 56 =
    Ret (Some (mk_dump_out 0 (mk_dumpargs DUMP_QUERY_MEM_AREAS 0 0 56) None None
      (Some (56, CopyChunks 2 0x600000 0 [(0x400000, 0x1000); (0x403000, 0x7000)])))).
Proof. vm_compute. reflexivity. Qed.

(** The panic notifier of a running kernel that completes its
    bitmaps hides exactly the pages with a clear bit from the dump of Linux,
    in addition to those already hidden. *)
Theorem panic_marks_clear a kn k s0 obs s ds rest m status :
  smp_ihk_os_query_status a kn = Ret status ->
  status <> IHK_OS_STATUS_BOOTED -> status <> IHK_OS_STATUS_BOOTING -> status <> IHK_OS_STATUS_READY ->
  dk_param k = Some (DUMP_LEVEL_USER_UNUSED_EXCLUDE, s0) ->
  wait_completed (obs <$> seq 0 30) = Some s ->
  ds_count s = Z.of_nat (length ds) -> ds_buf s = encode_pages ds ++ rest ->
  exists m', smp_ihk_os_panic_notifier a kn k obs m = Ret m' /\
    forall x, x ∈ m' <-> x ∈ m \/ clear_frames ds x.
Proof.
  intros Hs H1 H2 H3 Hk Hw Hn Hb. unfold smp_ihk_os_panic_notifier. rewrite Hs. cbn [mbind outcome_bind].
  rewrite (proj2 (Z.eqb_neq _ _) H1), (proj2 (Z.eqb_neq _ _) H2), (proj2 (Z.eqb_neq _ _) H3), Hk, Hw.
  cbn [orb]. rewrite Z.eqb_refl, Hn, Hb, Nat2Z.id.
  apply (anon_pages_ok rest ds [] 0 0 m); [lia|done].
Qed.

(** The kernel runs on one CPU. *)
Definition demo_running : kernel := mk_kernel BUILTIN_OS_STATUS_BOOTING (Some 3) (Some [mk_mon 3 0 0]).

Lemma panic_marks_clear_witness :
  exists m', smp_ihk_os_panic_notifier X86_64 demo_running
      (demo_kernel 1 [mk_os_chunk 0x400000 0xa000 1 0] demo_set) (fun _ => demo_set) ∅ = Ret m' /\
    forall x, x ∈ m' <-> x ∈ (∅ : gset Z) \/ clear_frames [mk_dump_page 0x400000 [0x3f9]] x.
Proof.
  apply (panic_marks_clear X86_64 demo_running _ demo_set _ demo_set [mk_dump_page 0x400000 [0x3f9]] [0] ∅
    IHK_OS_STATUS_RUNNING); done || (vm_compute; done).
Defined.

(** On x86_64 a query of the memory areas with a smaller buffer than the
    areas need writes behind the structure it allocates, because the size is
    checked once per bitmap and not once per area. *)
Theorem dump_query_overrun :
  dump_all (demo_kernel 1 [mk_os_chunk 0x400000 0xa000 1 0] demo_set) 40 = Undef.
Proof. vm_compute. reflexivity. Qed.

(** The dump set that a kernel booted with these used chunks completes. *)
Definition completed (s : ihk_dump_page_set) : ihk_dump_page_set :=
  mk_dump_set IHK_DUMP_PAGE_SET_COMPLETED (ds_count s) (ds_page_size s) (ds_buf s).
Definition areas_after_boot (os : Z) (used : list ihk_os_mem_chunk) : outcome (option (Z * dump_copy)) :=
  s ← dump_init os used;
  o ← dump_all (demo_kernel os used (completed s)) 4096;
  Ret (o ≫= do_copy).
Definition hidden_after_boot (os : Z) (used : list ihk_os_mem_chunk) : outcome (list Z) :=
  s ← dump_init os used;
  m ← smp_ihk_os_panic_notifier X86_64 demo_running (demo_kernel os used (completed s)) (fun _ => completed s) ∅;
  Ret (merge_sort Z.le (elements m)).

(** The buffer is sized for the chunks of the booting kernel but filled
    with all used chunks.  With the chunks of another kernel in front, the
    areas of kernel 2 are those of kernel 1; and a large chunk of another
    kernel makes the boot of kernel 2 write behind the buffer. *)
Theorem dump_two_kernels :
  areas_after_boot 2 [mk_os_chunk 0x400000 0x200000 1 0; mk_os_chunk 0x800000 0x100000 2 0] =
    Ret (Some (40, CopyChunks 1 0x600000 0 [(0x400000, 0x200000)])) /\
  dump_init 2 [mk_os_chunk 0x10000000 0x10000000 1 0; mk_os_chunk 0x800000 0x100000 2 0] = Undef.
Proof. vm_compute. split; reflexivity. Qed.

(** The bits of a bitmap behind the end of its chunk stay clear, so the
    panic notifier hides pages that do not belong to the kernel: here the
    kernel owns page frames 0x400 to 0x402 and frames 0x403 to 0x43f are
    hidden. *)
Theorem panic_hides_neighbours :
  hidden_after_boot 1 [mk_os_chunk 0x400000 0x3000 1 0] = Ret (seqZ 0x403 61).
Proof. vm_compute. reflexivity. Qed.
