(* ===== verification/SmpPt.v ===== *)
(** * Boot page tables of a kernel on x86_64

    ihk_smp_map_kernel, ihk_smp_free_page_tables and the page tables that
    smp_ihk_os_setup_startup builds (src/linux/driver/smp/arch/x86_64/
    smp-arch-driver.c): identity and straight mapping of the first 256 GB, and
    the kernel image.  Tables have four levels (the p4d level of newer
    versions of Linux is folded). *)

From stdpp Require Import base tactics numbers list gmap sorting.
From S2P Require Import Prelude.

Open Scope ihk_scope.

(** ** Tables

    A table page is its page number with the entries that are present. *)
Inductive pmd_entry : Type :=
| PmdLarge (paddr : Z)
| PmdTable (page : Z) (ptes : gmap Z Z).
Record pmd_tab : Type := mk_pmd { pmd_page : Z; pmd_ents : gmap Z pmd_entry }.
Record pud_tab : Type := mk_pud { pud_page : Z; pud_ents : gmap Z pmd_tab }.
Record pgd_tab : Type := mk_pgd { pgd_page : Z; pgd_ents : gmap Z pud_tab }.

Definition PTL4_SHIFT : Z := 39.
Definition PTL3_SHIFT : Z := 30.
Definition PTL2_SHIFT : Z := 21.
Definition LARGE_PAGE : Z := 2 ^ PTL2_SHIFT.

Definition pgd_index (v : Z) : Z := Z.land (Z.shiftr v PTL4_SHIFT) 511.
Definition pud_index (v : Z) : Z := Z.land (Z.shiftr v PTL3_SHIFT) 511.
Definition pmd_index (v : Z) : Z := Z.land (Z.shiftr v PTL2_SHIFT) 511.
Definition pte_index (v : Z) : Z := Z.land (Z.shiftr v PAGE_SHIFT) 511.

(** The walk of the hardware. *)
Definition translate (pt : pgd_tab) (v : Z) : option Z :=
  pud ← pgd_ents pt !! pgd_index v;
  pmd ← pud_ents pud !! pud_index v;
  e ← pmd_ents pmd !! pmd_index v;
  match e with
  | PmdLarge p => Some (p + v mod LARGE_PAGE)
  | PmdTable _ t => p ← t !! pte_index v; Some (p + v mod PAGE_SIZE)
  end.

Section tables.
(** What the n-th call of get_zeroed_page returns. *)
Context (get_zeroed_page : nat -> option Z).

(** A lower table that is present, or a new one; [n] calls were made. *)
Definition present_or_new {A} (e : option A) (new : Z -> A) (n : nat) : option A * nat :=
  match e with
  | Some x => (Some x, n)
  | None => (new <$> get_zeroed_page n, S n)
  end.

Definition map_pmd (pmd : pmd_tab) (v p : Z) (n : nat) : Z * pmd_tab * nat :=
  let set e := mk_pmd (pmd_page pmd) (<[pmd_index v := e]> (pmd_ents pmd)) in
  let frame := Z.shiftl (Z.shiftr p PAGE_SHIFT) PAGE_SHIFT in
  match pmd_ents pmd !! pmd_index v with
  | Some (PmdLarge _) => (- EBUSY, pmd, n)
  | Some (PmdTable page t) => (0, set (PmdTable page (<[pte_index v := frame]> t)), n)
  | None =>
      if (Z.land v (LARGE_PAGE - 1) =? 0) && (Z.land p (LARGE_PAGE - 1) =? 0)
      then (0, set (PmdLarge frame), n)
      else match get_zeroed_page n with
           | None => (- ENOMEM, pmd, S n)
           | Some page => (0, set (PmdTable page {[pte_index v := frame]}), S n)
           end
  end.

Definition map_pud (pud : pud_tab) (v p : Z) (n : nat) : Z * pud_tab * nat :=
  match present_or_new (pud_ents pud !! pud_index v) (fun pg => mk_pmd pg ∅) n with
  | (None, n) => (- ENOMEM, pud, n)
  | (Some pmd, n) =>
      let '(ret, pmd, n) := map_pmd pmd v p n in
      (ret, mk_pud (pud_page pud) (<[pud_index v := pmd]> (pud_ents pud)), n)
  end.

Definition ihk_smp_map_kernel (pt : pgd_tab) (v p : Z) (n : nat) : Z * pgd_tab * nat :=
  match present_or_new (pgd_ents pt !! pgd_index v) (fun pg => mk_pud pg ∅) n with
  | (None, n) => (- ENOMEM, pt, n)
  | (Some pud, n) =>
      let '(ret, pud, n) := map_pud pud v p n in
      (ret, mk_pgd (pgd_page pt) (<[pgd_index v := pud]> (pgd_ents pt)), n)
  end.

(** A loop of smp_ihk_os_setup_startup over [count] large pages. *)
Fixpoint map_range (count : nat) (v p : Z) (pt : pgd_tab) (n : nat) : Z * pgd_tab * nat :=
  match count with
  | O => (0, pt, n)
  | S count' =>
      let '(ret, pt, n) := ihk_smp_map_kernel pt v p n in
      if ret <? 0 then (- ENOMEM, pt, n) else map_range count' (u64 (v + LARGE_PAGE)) (p + LARGE_PAGE) pt n
  end.

Definition IHK_SMP_MAP_ST_START : Z := 0xffff800000000000.
Definition IHK_SMP_MAP_KERNEL_START : Z := 0xfffffffffe800000.
Definition ident_len : Z := 0x4000000000.

(** The tables of smp_ihk_os_setup_startup for an image at [phys]; the
    result is [None] when the first page cannot be allocated. *)
Definition setup_tables (phys : Z) : Z * option pgd_tab * nat :=
  match get_zeroed_page 0 with
  | None => (- ENOMEM, None, 1%nat)
  | Some page =>
      let count := Z.to_nat (ident_len / LARGE_PAGE) in
      let '(ret, pt, n) := map_range count 0 0 (mk_pgd page ∅) 1 in
      if ret <? 0 then (ret, Some pt, n) else
      let '(ret, pt, n) := map_range count IHK_SMP_MAP_ST_START 0 pt n in
      if ret <? 0 then (ret, Some pt, n) else
      let '(ret, pt, n) := map_range 4 IHK_SMP_MAP_KERNEL_START phys pt n in
      if ret <? 0 then (ret, Some pt, n) else (0, Some pt, n)
  end.
End tables.

(** ** ihk_smp_free_page_tables: the pages in the order they are freed *)

Definition slots : list Z := seqZ 0 512.

Definition free_pmd (pmd : pmd_tab) : list Z :=
  (slots ≫= fun i => match pmd_ents pmd !! i with Some (PmdTable page _) => [page] | _ => [] end) ++ [pmd_page pmd].
Definition free_pud (pud : pud_tab) : list Z :=
  (slots ≫= fun i => match pud_ents pud !! i with Some pmd => free_pmd pmd | None => [] end) ++ [pud_page pud].
Definition ihk_smp_free_page_tables (pt : option pgd_tab) : list Z :=
  match pt with
  | None => []
  | Some pt =>
      (slots ≫= fun i => match pgd_ents pt !! i with Some pud => free_pud pud | None => [] end) ++ [pgd_page pt]
  end.

Lemma elem_of_slots i : i ∈ slots <-> 0 <= i < 512.
Proof. unfold slots. rewrite elem_of_seqZ. lia. Qed.

Lemma NoDup_slots : NoDup slots.
Proof. apply NoDup_seqZ. Qed.

#[local] Opaque slots.

(** ** Indices *)

(** The number of the large page of an address in the 48 translated bits. *)
Definition lpage (v : Z) : Z := (v / LARGE_PAGE) mod 2 ^ 27.

Lemma land_511 x : Z.land x 511 = x mod 2 ^ 9.
Proof. change 511 with (Z.ones 9). by rewrite Z.land_ones by lia. Qed.

Lemma lpage_indices v : lpage v = pmd_index v + 2 ^ 9 * (pud_index v + 2 ^ 9 * pgd_index v).
Proof.
  unfold lpage, pmd_index, pud_index, pgd_index, LARGE_PAGE, PTL2_SHIFT, PTL3_SHIFT, PTL4_SHIFT.
  rewrite !land_511, !Z.shiftr_div_pow2 by lia.
  replace (v / 2 ^ 30) with (v / 2 ^ 21 / 2 ^ 9) by (rewrite Z.div_div by lia; done).
  replace (v / 2 ^ 39) with (v / 2 ^ 21 / 2 ^ 9 / 2 ^ 9) by (rewrite !Z.div_div by lia; done).
  change (2 ^ 27) with (2 ^ 9 * (2 ^ 9 * 2 ^ 9)). by rewrite !Z.rem_mul_r by lia.
Qed.

Lemma index_range v : (0 <= pmd_index v < 512 /\ 0 <= pud_index v < 512 /\ 0 <= pgd_index v < 512).
Proof. unfold pmd_index, pud_index, pgd_index. rewrite !land_511. split_and!; apply Z.mod_pos_bound; lia. Qed.

Lemma lpage_same v w :
  lpage v = lpage w <-> pgd_index v = pgd_index w /\ pud_index v = pud_index w /\ pmd_index v = pmd_index w.
Proof.
  rewrite !lpage_indices. pose proof (index_range v). pose proof (index_range w).
  change (2 ^ 9) with 512. split; [intros E; split_and!; lia|intros (-> & -> & ->); done].
Qed.

(** ** The entry of an address *)

Definition entry (pt : pgd_tab) (v : Z) : option pmd_entry :=
  pud ← pgd_ents pt !! pgd_index v; pmd ← pud_ents pud !! pud_index v; pmd_ents pmd !! pmd_index v.

Lemma entry_lpage pt v w : lpage v = lpage w -> entry pt v = entry pt w.
Proof. intros (E1 & E2 & E3)%lpage_same. unfold entry. by rewrite E1, E2, E3. Qed.

Lemma translate_large pt v p : entry pt v = Some (PmdLarge p) -> translate pt v = Some (p + v mod LARGE_PAGE).
Proof.
  unfold entry, translate. destruct (pgd_ents pt !! pgd_index v) as [pud|]; [|done]. cbn.
  destruct (pud_ents pud !! pud_index v) as [pmd|]; [|done]. cbn. by intros ->.
Qed.

Definition large_aligned (x : Z) : Prop := x mod LARGE_PAGE = 0.

Lemma land_large x : Z.land x (LARGE_PAGE - 1) = x mod LARGE_PAGE.
Proof. unfold LARGE_PAGE, PTL2_SHIFT. change (2 ^ 21 - 1) with (Z.ones 21). by rewrite Z.land_ones by lia. Qed.

Lemma frame_aligned p : large_aligned p -> Z.shiftl (Z.shiftr p PAGE_SHIFT) PAGE_SHIFT = p.
Proof.
  unfold large_aligned, LARGE_PAGE, PTL2_SHIFT, PAGE_SHIFT. intros E.
  rewrite Z.shiftl_mul_pow2, Z.shiftr_div_pow2 by lia. change (2 ^ 21) with (2 ^ 9 * 2 ^ 12) in E.
  apply Z.mod_divide in E as [k ->]; [|lia]. rewrite Z.mul_assoc, Z.div_mul by lia. done.
Qed.

Section alloc.
Context (gzp : nat -> option Z).

(** The pages that the calls from [n] to [n'] returned. *)
Definition allocated (n n' : nat) : list Z := omap gzp (seq n (n' - n)).

Lemma allocated_app a b c : (a <= b <= c)%nat -> allocated a b ++ allocated b c = allocated a c.
Proof using.
  intros H. unfold allocated. rewrite <- omap_app. f_equal.
  replace (c - a)%nat with ((b - a) + (c - b))%nat by lia. rewrite seq_app. do 2 f_equal. lia.
Qed.

Lemma allocated_nil n : allocated n n = [].
Proof using. unfold allocated. by rewrite Nat.sub_diag. Qed.

Lemma allocated_one n : allocated n (S n) = match gzp n with Some p => [p] | None => [] end.
Proof using. unfold allocated. replace (S n - n)%nat with 1%nat by lia. simpl. by destruct (gzp n). Qed.

(** *** Pages are freed once *)

(** The pages of the tables in the slots of a map. *)
Definition free_slots {A} (f : A -> list Z) (m : gmap Z A) : list Z :=
  slots ≫= fun i => match m !! i with Some x => f x | None => [] end.

Lemma free_slots_insert {A} (f : A -> list Z) m i x new :
  0 <= i < 512 -> f x ≡ₚ new ++ (match m !! i with Some y => f y | None => [] end) ->
  free_slots f (<[i := x]> m) ≡ₚ new ++ free_slots f m.
Proof using.
  intros Hi Hx. unfold free_slots.
  assert (i ∈ slots) as Hin by (by apply elem_of_slots).
  apply list_elem_of_split in Hin as (l1 & l2 & E). pose proof NoDup_slots as Hd.
  rewrite E in Hd |- *. apply NoDup_app in Hd as (_ & H1 & [H2 _]%NoDup_cons).
  assert (forall l, (forall j, j ∈ l -> j <> i) ->
    (l ≫= fun i0 => match <[i:=x]> m !! i0 with Some x => f x | None => [] end) =
    (l ≫= fun i0 => match m !! i0 with Some x => f x | None => [] end)) as Hl.
  { induction l as [|j l IH]; intros Hj; [done|]. cbn. rewrite IH by (intros; apply Hj; by right).
    rewrite lookup_insert_ne by (intros <-; by apply (Hj i); [left|]). done. }
  rewrite !bind_app, !bind_cons, lookup_insert_eq.
  rewrite (Hl l1) by (intros j Hj ->; apply (H1 i Hj); left). rewrite (Hl l2) by (by intros j Hj ->).
  rewrite Hx. solve_Permutation.
Qed.

(** The new pages of a step are those it allocated, whatever its result. *)
Definition pmd_pte (e : pmd_entry) : list Z := match e with PmdTable page _ => [page] | PmdLarge _ => [] end.

Lemma free_pmd_eq pmd : free_pmd pmd = free_slots pmd_pte (pmd_ents pmd) ++ [pmd_page pmd].
Proof using. done. Qed.

Lemma free_pud_eq pud : free_pud pud = free_slots free_pmd (pud_ents pud) ++ [pud_page pud].
Proof using. done. Qed.

Lemma free_pgd_eq pt : ihk_smp_free_page_tables (Some pt) = free_slots free_pud (pgd_ents pt) ++ [pgd_page pt].
Proof using. done. Qed.

Lemma map_pmd_pages pmd v p n ret pmd' n' :
  map_pmd gzp pmd v p n = (ret, pmd', n') -> (n <= n')%nat /\ free_pmd pmd' ≡ₚ allocated n n' ++ free_pmd pmd.
Proof using.
  unfold map_pmd. rewrite !free_pmd_eq. pose proof (index_range v) as (Hi & _ & _).
  destruct (pmd_ents pmd !! pmd_index v) as [[?|page t]|] eqn:E.
  - intros [[<- <-]%pair_eq <-]%pair_eq. rewrite allocated_nil. auto.
  - intros [[<- <-]%pair_eq <-]%pair_eq. rewrite allocated_nil. split; [lia|]. cbn [pmd_ents pmd_page app].
    by rewrite (free_slots_insert _ _ _ _ []) by (done || rewrite E; done).
  - destruct (_ && _); [|destruct (gzp n) as [page|] eqn:Eg]; intros [[<- <-]%pair_eq <-]%pair_eq.
    + rewrite allocated_nil. split; [lia|]. cbn [pmd_ents pmd_page app].
      by rewrite (free_slots_insert _ _ _ _ []) by (done || rewrite E; done).
    + rewrite allocated_one, Eg. split; [lia|]. cbn [pmd_ents pmd_page].
      by rewrite (free_slots_insert _ _ _ _ [page]) by (done || rewrite E; done).
    + rewrite allocated_one, Eg. split; [lia|done].
Qed.

Lemma present_pages {A} (f : A -> list Z) e new n x n' :
  (forall pg, f (new pg) = [pg]) -> present_or_new gzp e new n = (Some x, n') ->
  (n <= n')%nat /\ f x ≡ₚ allocated n n' ++ (match e with Some y => f y | None => [] end).
Proof using.
  intros Hnew. unfold present_or_new. destruct e as [y|].
  - intros [= -> <-]. by rewrite allocated_nil.
  - destruct (gzp n) as [pg|] eqn:E; [|done]. intros [= <- <-]. rewrite allocated_one, E, Hnew. auto.
Qed.

Lemma present_none {A} (e : option A) new n n' :
  present_or_new gzp e new n = (None, n') -> n' = S n /\ gzp n = None.
Proof using. unfold present_or_new. destruct e; [done|]. destruct (gzp n); [done|]. by intros [= <-]. Qed.

Lemma free_slots_empty {A} (f : A -> list Z) : free_slots f ∅ = [].
Proof using.
  unfold free_slots. generalize slots. induction l as [|i l IH]; [done|]. cbn. by rewrite IH, lookup_empty.
Qed.

Lemma map_pud_pages pud v p n ret pud' n' :
  map_pud gzp pud v p n = (ret, pud', n') -> (n <= n')%nat /\ free_pud pud' ≡ₚ allocated n n' ++ free_pud pud.
Proof using.
  unfold map_pud. pose proof (index_range v) as (_ & Hi & _).
  destruct (present_or_new _ _ _ n) as [[pmd|] n1] eqn:E.
  2: { intros [[<- <-]%pair_eq <-]%pair_eq. apply present_none in E as [-> E]. rewrite allocated_one, E. auto. }
  apply (present_pages free_pmd) in E as [Hn1 E]; [|intros; rewrite free_pmd_eq; cbn [pmd_ents pmd_page]; by rewrite free_slots_empty].
  destruct (map_pmd gzp pmd v p n1) as [[r pmd'] n2] eqn:E2. apply map_pmd_pages in E2 as [Hn2 E2].
  intros [[<- <-]%pair_eq <-]%pair_eq. split; [lia|]. rewrite !free_pud_eq. cbn [pud_ents pud_page].
  rewrite (free_slots_insert free_pmd _ _ _ (allocated n n2)) by
    (done || (rewrite E2, E, app_assoc; f_equiv; rewrite <- (allocated_app n n1 n2) by lia; solve_Permutation)).
  by rewrite app_assoc.
Qed.

Lemma map_kernel_pages pt v p n ret pt' n' :
  ihk_smp_map_kernel gzp pt v p n = (ret, pt', n') ->
  (n <= n')%nat /\ ihk_smp_free_page_tables (Some pt') ≡ₚ allocated n n' ++ ihk_smp_free_page_tables (Some pt).
Proof using.
  unfold ihk_smp_map_kernel. pose proof (index_range v) as (_ & _ & Hi).
  destruct (present_or_new _ _ _ n) as [[pud|] n1] eqn:E.
  2: { intros [[<- <-]%pair_eq <-]%pair_eq. apply present_none in E as [-> E]. rewrite allocated_one, E. auto. }
  apply (present_pages free_pud) in E as [Hn1 E].
  2: { intros pg. rewrite free_pud_eq. cbn [pud_ents pud_page]. by rewrite free_slots_empty. }
  destruct (map_pud gzp pud v p n1) as [[r pud'] n2] eqn:E2. apply map_pud_pages in E2 as [Hn2 E2].
  intros [[<- <-]%pair_eq <-]%pair_eq. split; [lia|]. rewrite !free_pgd_eq. cbn [pgd_ents pgd_page].
  rewrite (free_slots_insert free_pud _ _ _ (allocated n n2)) by
    (done || (rewrite E2, E, app_assoc; f_equiv; rewrite <- (allocated_app n n1 n2) by lia; solve_Permutation)).
  by rewrite app_assoc.
Qed.

Lemma map_range_pages count : forall v p pt n ret pt' n',
  map_range gzp count v p pt n = (ret, pt', n') ->
  (n <= n')%nat /\ ihk_smp_free_page_tables (Some pt') ≡ₚ allocated n n' ++ ihk_smp_free_page_tables (Some pt).
Proof using.
  induction count as [|count IH]; intros v p pt n ret pt' n'; cbn [map_range].
  { intros [[<- <-]%pair_eq <-]%pair_eq. by rewrite allocated_nil. }
  destruct (ihk_smp_map_kernel gzp pt v p n) as [[r pt1] n1] eqn:E. apply map_kernel_pages in E as [H1 E1].
  destruct (r <? 0); [by intros [[<- <-]%pair_eq <-]%pair_eq|]. intros [H2 E2]%IH. split; [lia|].
  rewrite E2, E1, app_assoc, <- (allocated_app n n1 n') by lia. apply Permutation_app_tail. solve_Permutation.
Qed.
End alloc.

(** ** What the tables translate *)

Section translation.
Context (gzp : nat -> option Z) (Hgzp : forall n, is_Some (gzp n)).

Lemma present_ok {A} (e : option A) new n :
  exists x n', present_or_new gzp e new n = (Some x, n') /\ (e = Some x \/ e = None /\ exists pg, x = new pg).
Proof using Hgzp.
  unfold present_or_new. destruct e as [x|]; [by eauto 6|]. destruct (Hgzp n) as [pg ->]. cbn. eauto 8.
Qed.

Lemma map_kernel_large pt v p n :
  entry pt v = None -> large_aligned v -> large_aligned p ->
  exists pt' n', ihk_smp_map_kernel gzp pt v p n = (0, pt', n') /\
    forall w, entry pt' w = if decide (lpage w = lpage v) then Some (PmdLarge p) else entry pt w.
Proof using Hgzp.
  intros He Hv Hp. unfold ihk_smp_map_kernel, map_pud.
  destruct (present_ok (pgd_ents pt !! pgd_index v) (fun pg => mk_pud pg ∅) n) as (pud & n1 & -> & Hpud).
  destruct (present_ok (pud_ents pud !! pud_index v) (fun pg => mk_pmd pg ∅) n1) as (pmd & n2 & -> & Hpmd).
  assert (pmd_ents pmd !! pmd_index v = None) as Hn.
  { unfold entry in He. destruct Hpmd as [Hpmd|[_ [pg ->]]]; [|apply lookup_empty].
    destruct Hpud as [Hpud|[_ [pg ->]]]; [by rewrite Hpud in He; cbn in He; rewrite Hpmd in He|].
    cbn [pud_ents] in Hpmd. by rewrite lookup_empty in Hpmd. }
  unfold map_pmd. rewrite Hn, !land_large, Hv, Hp, Z.eqb_refl, frame_aligned by done. cbn [andb].
  eexists _, _. split; [done|]. intros w. unfold entry. cbn [pgd_ents].
  destruct (decide (pgd_index w = pgd_index v)) as [E1|E1].
  2: { rewrite lookup_insert_ne by done. case_decide as E; [|done]. by apply lpage_same in E as [? _]. }
  rewrite E1, lookup_insert_eq. cbn [mbind option_bind pud_ents].
  destruct (decide (pud_index w = pud_index v)) as [E2|E2].
  2: { rewrite lookup_insert_ne by done. case_decide as E; [by apply lpage_same in E as (_ & ? & _)|].
       destruct Hpud as [->|[-> [pg ->]]]; [done|]. cbn. by rewrite lookup_empty. }
  rewrite E2, lookup_insert_eq. cbn [mbind option_bind pmd_ents].
  destruct (decide (pmd_index w = pmd_index v)) as [E3|E3].
  { rewrite E3, lookup_insert_eq. case_decide as E; [done|]. destruct E. by apply lpage_same. }
  rewrite lookup_insert_ne by done. case_decide as E; [by apply lpage_same in E as (_ & _ & ?)|].
  destruct Hpud as [->|[-> [pg ->]]]; cbn [mbind option_bind pud_ents].
  - by destruct Hpmd as [->|[-> [pg ->]]]; cbn; rewrite ?lookup_empty.
  - cbn [pud_ents] in Hpmd. rewrite lookup_empty in Hpmd. destruct Hpmd as [?|[_ [pg' ->]]]; [done|]. apply lookup_empty.
Qed.

Lemma lpage_next v : 0 <= v -> lpage v + 1 < 2 ^ 27 -> lpage (v + LARGE_PAGE) = lpage v + 1.
Proof using.
  intros Hv Hl. unfold lpage, LARGE_PAGE, PTL2_SHIFT in *.
  rewrite <- (Z.mul_1_l (2 ^ 21)) at 1. rewrite Z.div_add by lia. rewrite <- Zplus_mod_idemp_l.
  apply Z.mod_small. split; [|done]. pose proof (Z.mod_pos_bound (v / 2 ^ 21) (2 ^ 27)). lia.
Qed.

Lemma aligned_next x : large_aligned x -> large_aligned (x + LARGE_PAGE).
Proof using. unfold large_aligned. intros E. rewrite <- Zplus_mod_idemp_l, E, Z.add_0_l. by apply Z.mod_same. Qed.

Lemma map_range_ok count : forall v p pt n,
  0 <= v -> v + Z.of_nat count * LARGE_PAGE < 2 ^ 64 -> lpage v + Z.of_nat count < 2 ^ 27 ->
  large_aligned v -> large_aligned p ->
  (forall w, lpage v <= lpage w < lpage v + Z.of_nat count -> entry pt w = None) ->
  exists pt' n', map_range gzp count v p pt n = (0, pt', n') /\
    (forall w, lpage v <= lpage w < lpage v + Z.of_nat count ->
       entry pt' w = Some (PmdLarge (p + (lpage w - lpage v) * LARGE_PAGE))) /\
    (forall w, ~ lpage v <= lpage w < lpage v + Z.of_nat count -> entry pt' w = entry pt w).
Proof using Hgzp.
  induction count as [|count IH]; intros v p pt n Hv0 Hv Hl Av Ap Hfree; cbn [map_range].
  { exists pt, n. split_and!; [done|intros; lia|done]. }
  destruct (map_kernel_large pt v p n) as (pt1 & n1 & -> & H1); [apply Hfree; lia|done|done|].
  cbn [Z.ltb Z.compare]. assert (0 < LARGE_PAGE) by done. rewrite u64_small by lia.
  pose proof (lpage_next v Hv0 ltac:(lia)) as En.
  destruct (IH (v + LARGE_PAGE) (p + LARGE_PAGE) pt1 n1) as (pt' & n' & -> & H2 & H3);
    [lia|lia|lia|by apply aligned_next|by apply aligned_next| |].
  { intros w Hw. rewrite H1. case_decide; [lia|]. apply Hfree. lia. }
  exists pt', n'. rewrite En in *. split_and!; [done| |].
  - intros w Hw. destruct (decide (lpage w = lpage v)) as [E|E].
    + rewrite H3, H1, decide_True by (done || lia). do 2 f_equal. lia.
    + rewrite H2 by lia. do 2 f_equal. lia.
  - intros w Hw. rewrite H3, H1 by lia. case_decide; [lia|done].
Qed.
End translation.

Lemma lpage_offset base x :
  large_aligned base -> 0 <= x -> lpage base + x / LARGE_PAGE < 2 ^ 27 ->
  lpage (base + x) = lpage base + x / LARGE_PAGE /\ (base + x) mod LARGE_PAGE = x mod LARGE_PAGE.
Proof.
  unfold large_aligned, lpage. intros Hb Hx Hl. assert (LARGE_PAGE <> 0) by done. split.
  - apply Z.mod_divide in Hb as [k ->]; [|done]. rewrite Z.div_add_l, Z.div_mul in * by done.
    rewrite <- Zplus_mod_idemp_l. apply Z.mod_small.
    pose proof (Z.mod_pos_bound k (2 ^ 27) ltac:(lia)). pose proof (Z.div_pos x LARGE_PAGE Hx ltac:(done)). lia.
  - by rewrite <- Zplus_mod_idemp_l, Hb, Z.add_0_l.
Qed.

(** A range that is mapped large translates linearly. *)
Lemma linear pt base p count x :
  large_aligned base -> 0 <= x < Z.of_nat count * LARGE_PAGE -> lpage base + Z.of_nat count < 2 ^ 27 ->
  (forall w, lpage base <= lpage w < lpage base + Z.of_nat count ->
     entry pt w = Some (PmdLarge (p + (lpage w - lpage base) * LARGE_PAGE))) ->
  translate pt (base + x) = Some (p + x).
Proof.
  intros Hb Hx Hl He. assert (0 < LARGE_PAGE) as HL by done.
  assert (x / LARGE_PAGE < Z.of_nat count) as Hq by (apply Z.div_lt_upper_bound; lia).
  pose proof (Z.div_pos x LARGE_PAGE ltac:(lia) HL).
  destruct (lpage_offset base x Hb) as [E1 E2]; [lia|lia|].
  rewrite (translate_large pt (base + x) (p + x / LARGE_PAGE * LARGE_PAGE)).
  - rewrite E2. f_equal. pose proof (Z.div_mod x LARGE_PAGE ltac:(lia)). lia.
  - rewrite He by lia. do 2 f_equal. lia.
Qed.

(** The three ranges of setup_tables, with what the walk finds in them. *)
Lemma setup_tables_ok gzp phys :
  (forall n, is_Some (gzp n)) -> large_aligned phys ->
  let count := Z.to_nat (ident_len / LARGE_PAGE) in
  let mapped pt base p k := forall w, lpage base <= lpage w < lpage base + Z.of_nat k ->
    entry pt w = Some (PmdLarge (p + (lpage w - lpage base) * LARGE_PAGE)) in
  exists pt n, setup_tables gzp phys = (0, Some pt, n) /\
    mapped pt 0 0 count /\ mapped pt IHK_SMP_MAP_ST_START 0 count /\ mapped pt IHK_SMP_MAP_KERNEL_START phys 4%nat.
Proof.
  intros Hg Hp count mapped. unfold setup_tables. destruct (Hg 0%nat) as [pg Epg]. rewrite Epg. fold count.
  assert (Z.of_nat count = 131072) as Hc by (subst count; vm_compute; reflexivity). clearbody count.
  assert (lpage 0 = 0 /\ lpage IHK_SMP_MAP_ST_START = 2 ^ 26 /\ lpage IHK_SMP_MAP_KERNEL_START = 2 ^ 27 - 12)
    as (L0 & LS & LK) by (vm_compute; auto).
  assert (LARGE_PAGE = 0x200000) as HL by done.
  assert (forall w, entry (mk_pgd pg ∅) w = None) as He by (intros; unfold entry; cbn; by rewrite lookup_empty).
  destruct (map_range_ok gzp Hg count 0 0 (mk_pgd pg ∅) 1) as (pt1 & n1 & -> & A1 & B1);
    [lia|rewrite Hc, HL; lia|lia|done|done|by intros|]. cbn [Z.ltb Z.compare].
  destruct (map_range_ok gzp Hg count IHK_SMP_MAP_ST_START 0 pt1 n1) as (pt2 & n2 & -> & A2 & B2);
    [done|rewrite Hc, HL; unfold IHK_SMP_MAP_ST_START; lia|lia|done|done|intros; by rewrite B1 by lia|].
  cbn [Z.ltb Z.compare].
  destruct (map_range_ok gzp Hg 4 IHK_SMP_MAP_KERNEL_START phys pt2 n2) as (pt3 & n3 & -> & A3 & B3);
    [done|done|lia|done|done|intros; by rewrite B2, B1 by lia|]. cbn [Z.ltb Z.compare].
  exists pt3, n3. split_and!; [done| | |exact A3]; intros w Hw.
  - rewrite B3, B2 by lia. by apply A1.
  - rewrite B3 by lia. by apply A2.
Qed.

(** C22: when pages can be allocated, the boot page tables of a kernel map the
    first 256 GB of memory at address 0 and at the straight map, and 8 MB of
    the kernel image at its link address. *)
Theorem boot_tables_correct gzp phys :
  (forall n, is_Some (gzp n)) -> large_aligned phys ->
  exists pt n, setup_tables gzp phys = (0, Some pt, n) /\
    (forall v, 0 <= v < 0x4000000000 -> translate pt v = Some v) /\
    (forall x, 0 <= x < 0x4000000000 -> translate pt (IHK_SMP_MAP_ST_START + x) = Some x) /\
    (forall x, 0 <= x < 0x800000 -> translate pt (IHK_SMP_MAP_KERNEL_START + x) = Some (phys + x)).
Proof.
  intros Hg Hp. destruct (setup_tables_ok gzp phys Hg Hp) as (pt & n & E & A1 & A2 & A3).
  exists pt, n. split; [done|]. set (count := Z.to_nat (ident_len / LARGE_PAGE)) in *.
  assert (Z.of_nat count = 131072) as Hc by (subst count; vm_compute; reflexivity). clearbody count.
  assert (lpage 0 = 0 /\ lpage IHK_SMP_MAP_ST_START = 2 ^ 26 /\ lpage IHK_SMP_MAP_KERNEL_START = 2 ^ 27 - 12)
    as (L0 & LS & LK) by (vm_compute; auto).
  assert (LARGE_PAGE = 0x200000) as HL by done. split_and!.
  - intros v Hv. by apply (linear pt 0 0 count v); [done|lia|lia|].
  - intros x Hx. by apply (linear pt IHK_SMP_MAP_ST_START 0 count x); [done|lia|lia|].
  - intros x Hx. by apply (linear pt IHK_SMP_MAP_KERNEL_START phys 4 x); [done|lia|lia|].
Qed.

Lemma boot_tables_correct_witness :
  exists pt n, setup_tables (fun n => Some (Z.of_nat n)) 0x600000 = (0, Some pt, n) /\
    (forall v, 0 <= v < 0x4000000000 -> translate pt v = Some v) /\
    (forall x, 0 <= x < 0x4000000000 -> translate pt (IHK_SMP_MAP_ST_START + x) = Some x) /\
    (forall x, 0 <= x < 0x800000 -> translate pt (IHK_SMP_MAP_KERNEL_START + x) = Some (0x600000 + x)).
Proof. apply (boot_tables_correct (fun n => Some (Z.of_nat n)) 0x600000); [intros n; by eexists|reflexivity]. Defined.

(** C23: whether or not building the page tables of a kernel succeeds, freeing
    them frees exactly the pages that were allocated for them. *)
Theorem tables_freed_once gzp phys :
  let '(_, pt, n) := setup_tables gzp phys in ihk_smp_free_page_tables pt ≡ₚ omap gzp (seq 0 n).
Proof.
  unfold setup_tables. destruct (gzp 0%nat) as [pg|] eqn:E0; [|by cbn; rewrite E0].
  set (count := Z.to_nat (ident_len / LARGE_PAGE)). clearbody count.
  assert (forall n, (1 <= n)%nat -> omap gzp (seq 0 n) = allocated gzp 0 1 ++ allocated gzp 1 n) as Hall.
  { intros n Hn. rewrite allocated_app by lia. unfold allocated. by rewrite Nat.sub_0_r. }
  assert (ihk_smp_free_page_tables (Some (mk_pgd pg ∅)) = allocated gzp 0 1) as H0.
  { rewrite free_pgd_eq, allocated_one, E0. cbn [pgd_ents pgd_page]. by rewrite free_slots_empty. }
  destruct (map_range gzp count 0 0 _ 1) as [[r1 pt1] n1] eqn:E1. apply map_range_pages in E1 as [N1 P1]. rewrite H0 in P1.
  destruct (r1 <? 0); [rewrite Hall, P1 by lia; solve_Permutation|].
  destruct (map_range gzp count IHK_SMP_MAP_ST_START 0 pt1 n1) as [[r2 pt2] n2] eqn:E2.
  apply map_range_pages in E2 as [N2 P2]. rewrite P1, app_assoc in P2.
  assert (allocated gzp n1 n2 ++ allocated gzp 1 n1 ≡ₚ allocated gzp 1 n2) as S2
    by (rewrite <- (allocated_app gzp 1 n1 n2) by lia; solve_Permutation). rewrite S2 in P2.
  destruct (r2 <? 0); [rewrite Hall, P2 by lia; solve_Permutation|].
  destruct (map_range gzp 4 _ phys pt2 n2) as [[r3 pt3] n3] eqn:E3.
  apply map_range_pages in E3 as [N3 P3]. rewrite P2, app_assoc in P3.
  assert (allocated gzp n2 n3 ++ allocated gzp 1 n2 ≡ₚ allocated gzp 1 n3) as S3
    by (rewrite <- (allocated_app gzp 1 n2 n3) by lia; solve_Permutation). rewrite S3 in P3.
  destruct (r3 <? 0); rewrite Hall, P3 by lia; solve_Permutation.
Qed.
