(* ===== verification/SmpLoad.v ===== *)
(** * Loading a kernel image (src/linux/driver/smp/smp-driver.c)

    smp_ihk_os_load_file chooses the chunk that the image goes to, reads the
    ELF header into the last page of that chunk, copies the segments, and
    prepares the start-up page.  Also smp_ihk_os_load_mem, which copies a
    buffer, ihk_smp_map_virtual and smp_ihk_os_vtop.  Physical memory is a
    function from addresses to bytes; Linux maps all of it.  The addresses and
    the start-up code are those of x86_64.  The additional mapping of the image
    into Linux (smp_ihk_os_map_lwk), whose failure is only logged, is left
    out. *)

From stdpp Require Import base tactics numbers list gmap sorting.
From S2P Require Import Prelude Kmsg HostData SmpData SmpDump SmpPt.

Open Scope ihk_scope.

(** ** Memory *)

Definition memory : Type := Z -> Z.

(** [store m a l]: the bytes [l] are written at [a]. *)
Definition store (m : memory) (a : Z) (l : list Z) : memory :=
  fun x => if (a <=? x) && (x <? a + Z.of_nat (length l)) then nth (Z.to_nat (x - a)) l 0 else m x.

(** A little-endian number of [n] bytes. *)
Fixpoint rd (n : nat) (m : memory) (a : Z) : Z :=
  match n with O => 0 | S n' => m a + 256 * rd n' m (a + 1) end.
Fixpoint le (n : nat) (v : Z) : list Z :=
  match n with O => [] | S n' => v mod 256 :: le n' (v / 256) end.

(** ihk_smp_map_virtual: the address when some used chunk holds the range. *)
Fixpoint ihk_smp_map_virtual (used : list ihk_os_mem_chunk) (phys size : Z) : option Z :=
  match used with
  | [] => None
  | c :: used' =>
      if (oc_addr c <=? phys) && (u64 (phys + size) <=? u64 (oc_addr c + oc_size c)) then Some phys
      else ihk_smp_map_virtual used' phys size
  end.

(** ** ELF *)

(** The fields of Elf64_Phdr that are used *)
Record phdr : Type := mk_phdr { p_type : Z; p_offset : Z; p_vaddr : Z; p_filesz : Z; p_memsz : Z }.
Definition sizeof_phdr : Z := 56.
Definition PT_LOAD : Z := 1.

Definition read_phdr (m : memory) (a : Z) : phdr :=
  mk_phdr (rd 4 m a) (rd 8 m (a + 8)) (rd 8 m (a + 16)) (rd 8 m (a + 32)) (rd 8 m (a + 40)).
(** e_entry, e_phoff and e_phnum of Elf64_Ehdr *)
Definition e_entry (m : memory) (a : Z) : Z := rd 8 m (a + 24).
Definition e_phoff (m : memory) (a : Z) : Z := rd 8 m (a + 32).
Definition e_phnum (m : memory) (a : Z) : Z := rd 2 m (a + 56).
Definition bad_elf (m : memory) (a : Z) : bool :=
  negb (m a =? 0x7f) || negb (m (a + 1) =? 69) || negb (m (a + 2) =? 76) || negb (m (a + 3) =? 70) ||
  (PAGE_SIZE <? u64 (e_phoff m a + sizeof_phdr * e_phnum m a)).

Definition page_round (x : Z) : Z := Z.land (u64 (x + PAGE_SIZE - 1)) (- PAGE_SIZE).
Definition large_round (start : Z) : Z := Z.land (u64 (start + LARGE_PAGE * 2 - 1)) (- LARGE_PAGE).

Section load.
(** The used chunks, kernel_read of the file (position and length to the
    result and the bytes), and bootstrap_mem_end. *)
Context (used : list ihk_os_mem_chunk) (kernel_read : Z -> Z -> Z * list Z) (mem_end : Z).

(** The loop that copies the file part of a segment: memory, the offset, and
    the value of ret when the function is left by revert_state, which is 0 when
    the file ends inside the segment. *)
Fixpoint copy_loop (fuel : nat) (m : memory) (offset pos stop : Z) : outcome (option Z * memory * Z) :=
  match fuel with
  | O => Undef
  | S f =>
      if negb (u64 pos <? stop) then Ret (None, m, offset) else
      let l := s64 (stop - pos) in
      let l := if PAGE_SIZE <? l then PAGE_SIZE else l in
      if mem_end <? u64 (offset + PAGE_SIZE) then Ret (Some (- E2BIG), m, offset) else
      match ihk_smp_map_virtual used offset PAGE_SIZE with
      | None => Ret (Some (- EFAULT), m, offset)
      | Some buf =>
          let '(r, bytes) := kernel_read pos l in
          if r <=? 0 then Ret (Some (s32 r), m, offset) else
          let m := store m buf bytes in
          let m := if r =? PAGE_SIZE then m else store m (buf + r) (replicate (Z.to_nat (PAGE_SIZE - r)) 0) in
          copy_loop f m (u64 (offset + PAGE_SIZE)) (pos + r) stop
      end
  end.

(** The loop that clears the rest; the mapping is not checked. *)
Fixpoint zero_loop (fuel : nat) (m : memory) (offset size psize : Z) : outcome (option Z * memory * Z) :=
  match fuel with
  | O => Undef
  | S f =>
      if negb (size <? psize) then Ret (None, m, offset) else
      if mem_end <? u64 (offset + PAGE_SIZE) then Ret (Some (- E2BIG), m, offset) else
      match ihk_smp_map_virtual used offset PAGE_SIZE with
      | None => Undef
      | Some buf =>
          zero_loop f (store m buf (replicate (Z.to_nat PAGE_SIZE) 0)) (u64 (offset + PAGE_SIZE))
            (u64 (size + PAGE_SIZE)) psize
      end
  end.

(** One segment of an image whose first address goes to [phys]. *)
Definition load_segment (phys : Z) (ph : phdr) (m : memory) : outcome (option Z * memory * Z) :=
  let offset := u64 (p_vaddr ph - (IHK_SMP_MAP_KERNEL_START - phys)) in
  let psize := page_round (p_memsz ph) in
  let size := p_filesz ph in
  let stop := u64 (p_offset ph + size) in
  ' (ret, m, offset) ← copy_loop (S (Z.to_nat size)) m offset (p_offset ph) stop;
  match ret with
  | Some _ => Ret (ret, m, offset)
  | None =>
      zero_loop (S (Z.to_nat (psize / PAGE_SIZE))) m offset (page_round size) psize
  end.

(** The loop over the program headers, which stay in memory at [hdr] and
    [ph]. *)
Fixpoint load_segments (fuel : nat) (i : Z) (hdr ph phys : Z) (m : memory) : outcome (option Z * memory) :=
  match fuel with
  | O => Ret (None, m)
  | S f =>
      if negb (i <? e_phnum m hdr) then Ret (None, m) else
      let p := read_phdr m (u64 (ph + sizeof_phdr * i)) in
      if negb (p_type p =? PT_LOAD) || (p_vaddr p =? 0) then load_segments f (i + 1) hdr ph phys m else
      ' (ret, m, _) ← load_segment phys p m;
      match ret with
      | Some _ => Ret (ret, m)
      | None => load_segments f (i + 1) hdr ph phys m
      end
  end.
End load.

(** ** smp_ihk_os_load_file *)

(** The smallest node of all used chunks (-1: none). *)
Fixpoint min_numa (l : list ihk_os_mem_chunk) (min : Z) : Z :=
  match l with
  | [] => min
  | c :: l' => min_numa l' (if negb (min =? -1) && (min <=? oc_numa c) then min else oc_numa c)
  end.

(** The largest chunk of the kernel on a node: bootstrap_mem_start, _end and
    whether one was found. *)
Fixpoint largest_chunk (os numa : Z) (l : list ihk_os_mem_chunk) (best : Z * Z * bool) : Z * Z * bool :=
  match l with
  | [] => best
  | c :: l' =>
      if negb (oc_os c =? os) || negb (oc_numa c =? numa) then largest_chunk os numa l' best else
      let '(start, stop, _) := best in
      largest_chunk os numa l'
        (if u64 (stop - start) <? oc_size c then (oc_addr c, u64 (oc_addr c + oc_size c), true) else best)
  end.

(** What loading changes: memory, and of the kernel its data, the bootstrap
    members, boot_rip and boot_pt. *)
Record load_st : Type := mk_load {
  ls_mem : memory;
  ls_os : smp_os_data;
  ls_numa_id : Z;
  ls_start : Z;
  ls_end : Z;
  ls_boot_rip : Z;
  ls_boot_pt : option pgd_tab
}.
Definition ls_set_mem (s : load_st) m := mk_load m (ls_os s) (ls_numa_id s) (ls_start s) (ls_end s) (ls_boot_rip s) (ls_boot_pt s).
Definition ls_set_os (s : load_st) o := mk_load (ls_mem s) o (ls_numa_id s) (ls_start s) (ls_end s) (ls_boot_rip s) (ls_boot_pt s).
Definition ls_set_boot (s : load_st) rip pt := mk_load (ls_mem s) (ls_os s) (ls_numa_id s) (ls_start s) (ls_end s) rip pt.

(** What Linux and the build give: pages for tables, the file, the start-up
    code, trampoline_phys, and the physical address of a page. *)
Record load_env : Type := mk_load_env {
  le_get_zeroed_page : nat -> option Z;
  le_open : bool;
  le_kernel_read : Z -> Z -> Z * list Z;
  le_startup_data : list Z;
  le_trampoline_phys : Z
}.

Definition smp_ihk_adjust_entry (entry phys : Z) : Z := entry.

(** The start-up page: startup_data with the words 2 to 6 set. *)
Definition startup_page (e : load_env) (m : memory) (startup_p pt stack_p phys entry : Z) : memory :=
  let m := store m startup_p (le_startup_data e) in
  let m := store m (startup_p + 16) (le 8 pt) in
  let m := store m (startup_p + 24) (le 8 stack_p) in
  let m := store m (startup_p + 32) (le 8 phys) in
  let m := store m (startup_p + 40) (le 8 (le_trampoline_phys e)) in
  store m (startup_p + 48) (le 8 entry).

Definition smp_ihk_os_setup_startup (e : load_env) (used : list ihk_os_mem_chunk) (phys entry : Z) (s : load_st)
    : outcome (Z * load_st) :=
  let '(ret, pt, _) := setup_tables (le_get_zeroed_page e) phys in
  let s := ls_set_boot s (ls_boot_rip s) pt in
  if ret <? 0 then Ret (- ENOMEM, s) else
  let pt_phys := match pt with Some t => pgd_page t | None => 0 end in
  let stack_p := u64 (ls_end s - PAGE_SIZE) in
  let startup_p := u64 (Z.land (ls_end s) (- LARGE_PAGE) - Z.shiftl 2 PTL2_SHIFT) in
  match ihk_smp_map_virtual used startup_p PAGE_SIZE with
  | None => Undef
  | Some _ =>
      Ret (0, ls_set_boot (ls_set_mem s (startup_page e (ls_mem s) startup_p pt_phys stack_p phys entry)) startup_p pt)
  end.

(** e_phnum has 16 bits. *)
Definition phnum_fuel : nat := Z.to_nat (2 ^ 16).

(** From the opened file to revert_state. *)
Definition load_image (e : load_env) (used : list ihk_os_mem_chunk) (s : load_st) : outcome (Z * load_st) :=
  let hdr := u64 (ls_end s - PAGE_SIZE) in
  match ihk_smp_map_virtual used hdr PAGE_SIZE with
  | None => Ret (- EINVAL, s)
  | Some _ =>
      let '(r, bytes) := le_kernel_read e 0 PAGE_SIZE in
      if r <=? 0 then Ret (s32 r, s) else
      let m := store (ls_mem s) hdr bytes in
      if bad_elf m hdr then Ret (- EINVAL, ls_set_mem s m) else
      let phys := large_round (ls_start s) in
      let entry := smp_ihk_adjust_entry (e_entry m hdr) phys in
      ' (ret, m) ← load_segments used (le_kernel_read e) (ls_end s) phnum_fuel 0 hdr (u64 (hdr + e_phoff m hdr)) phys m;
      match ret with
      | Some ret => Ret (ret, ls_set_mem s m)
      | None => smp_ihk_os_setup_startup e used phys entry (ls_set_mem s m)
      end
  end.

Definition smp_ihk_os_load_file (e : load_env) (os : Z) (used : list ihk_os_mem_chunk) (s : load_st) : outcome (Z * load_st) :=
  let numa := if ls_numa_id s =? -1 then min_numa used (-1) else ls_numa_id s in
  let '(start, stop, found) := largest_chunk os numa used (0, 0, false) in
  let s := mk_load (ls_mem s) (ls_os s) numa start stop (ls_boot_rip s) (ls_boot_pt s) in
  if negb found then Ret (- EINVAL, s) else
  if bool_decide (os_hw_ids_map (ls_os s) = ∅) || (stop <? start) then Ret (- EINVAL, s) else
  if negb (os_status (ls_os s) =? BUILTIN_OS_STATUS_INITIAL) then Ret (- EBUSY, s) else
  let s := ls_set_os s (osd_set_status (ls_os s) BUILTIN_OS_STATUS_LOADING) in
  (* a file that cannot be opened is passed to fput *)
  if negb (le_open e) then Undef else
  ' (ret, s) ← load_image e used s;
  Ret (ret, ls_set_os s (osd_set_status (ls_os s) BUILTIN_OS_STATUS_INITIAL)).

(** ** smp_ihk_os_load_mem *)

(** The loop over pages; [buf] is the caller's buffer, which has its bytes
    and no more. *)
Fixpoint load_pages (fuel : nat) (used : list ihk_os_mem_chunk) (buf : list Z) (phys offset size : Z) (m : memory)
    : outcome (Z * memory) :=
  match fuel with
  | O => Undef
  | S f =>
      if size <=? 0 then Ret (0, m) else
      match ihk_smp_map_virtual used phys PAGE_SIZE with
      | None => Ret (- ENOMEM, m)
      | Some virt =>
          let in_page := offset mod PAGE_SIZE in
          let to_read := if PAGE_SIZE <? in_page + size then PAGE_SIZE - in_page else size in
          if (offset <? 0) || (Z.of_nat (length buf) <? offset + to_read) then Undef else
          let m := store m virt (take (Z.to_nat to_read) (drop (Z.to_nat offset) buf)) in
          load_pages f used buf (u64 (phys + PAGE_SIZE)) (offset + to_read) (size - to_read) m
      end
  end.

Definition smp_ihk_os_load_mem (used : list ihk_os_mem_chunk) (buf : list Z) (offset : Z) (s : load_st)
    : outcome (Z * load_st) :=
  let o := ls_os s in
  let size := Z.of_nat (length buf) in
  if bool_decide (os_hw_ids_map o = ∅) || (os_mem_end o <? os_mem_start o) then Ret (- EINVAL, s) else
  if os_mem_end o <? u64 (os_mem_start o + size) then Ret (- E2BIG, s) else
  if negb (os_status o =? BUILTIN_OS_STATUS_INITIAL) then Ret (- EBUSY, s) else
  let at_ := offset + os_mem_start o in
  let phys := Z.land at_ (- PAGE_SIZE) in
  ' (ret, m) ← load_pages (S (length buf)) used buf phys (at_ - phys) size (ls_mem s);
  let s := ls_set_mem s m in
  if negb (ret =? 0) then Ret (ret, ls_set_os s (osd_set_status o BUILTIN_OS_STATUS_INITIAL)) else
  Ret (0, ls_set_os (ls_set_boot s (os_mem_start o) (ls_boot_pt s)) (osd_set_status o BUILTIN_OS_STATUS_INITIAL)).

(** ** smp_ihk_os_vtop *)

(** virt_to_phys of Linux is the parameter. *)
Definition smp_ihk_os_vtop (modules_end : Z) (virt_to_phys : Z -> Z) (start virt : Z) : Z :=
  if (IHK_SMP_MAP_KERNEL_START <? virt) && (virt <? modules_end)
  then u64 (large_round start + (virt - IHK_SMP_MAP_KERNEL_START))
  else virt_to_phys virt.

Lemma phnum_fuel_eq : Z.of_nat phnum_fuel = 2 ^ 16.
Proof. unfold phnum_fuel. lia. Qed.
#[local] Opaque phnum_fuel.

(** ** Lemmas on memory *)

Lemma store_in m a l x :
  a <= x < a + Z.of_nat (length l) -> store m a l x = nth (Z.to_nat (x - a)) l 0.
Proof. intros. unfold store. by rewrite (proj2 (Z.leb_le _ _)), (proj2 (Z.ltb_lt _ _)) by lia. Qed.

Lemma store_out m a l x : ~ a <= x < a + Z.of_nat (length l) -> store m a l x = m x.
Proof. intros. unfold store. destruct (Z.leb_spec a x), (Z.ltb_spec x (a + Z.of_nat (length l))); done || lia. Qed.

Lemma rd_ext n m m' a : (forall x, a <= x < a + Z.of_nat n -> m x = m' x) -> rd n m a = rd n m' a.
Proof.
  revert a. induction n as [|n IH]; intros a H; [done|]. cbn [rd].
  rewrite (H a), (IH (a + 1)) by (lia || intros; apply H; lia). done.
Qed.

Lemma read_phdr_ext m m' a : (forall x, a <= x < a + sizeof_phdr -> m x = m' x) -> read_phdr m a = read_phdr m' a.
Proof. unfold sizeof_phdr. intros H. unfold read_phdr. f_equal; apply rd_ext; intros; apply H; lia. Qed.

Lemma map_virtual_some used c x size :
  c ∈ used -> oc_addr c <= x -> 0 <= x -> 0 <= size -> x + size <= oc_addr c + oc_size c -> oc_addr c + oc_size c < 2 ^ 64 ->
  ihk_smp_map_virtual used x size = Some x.
Proof.
  intros Hin H1 H2 H3 H4 H5. induction used as [|c' l IH]; [by apply elem_of_nil in Hin|].
  cbn [ihk_smp_map_virtual]. apply elem_of_cons in Hin as [->|Hin].
  - rewrite !u64_small by lia. by rewrite !(proj2 (Z.leb_le _ _)) by lia.
  - destruct (_ && _); [done|]. by apply IH.
Qed.

Lemma nth_replicate0 n k : nth n (replicate k 0) 0 = 0.
Proof. revert n. induction k as [|k IH]; intros [|n]; simpl; auto. Qed.

Lemma nth_take_drop i n k (l : list Z) : (i < n)%nat -> nth i (take n (drop k l)) 0 = nth (k + i) l 0.
Proof. intros. by rewrite !nth_lookup, lookup_take_lt, lookup_drop by done. Qed.

(** Rounding up to pages. *)
Definition npages (x : Z) : nat := Z.to_nat ((x + PAGE_SIZE - 1) / PAGE_SIZE).

Lemma npages_bounds x : 0 <= x -> (Z.of_nat (npages x) - 1) * PAGE_SIZE < x <= Z.of_nat (npages x) * PAGE_SIZE.
Proof.
  unfold npages, PAGE_SIZE. intros Hx.
  pose proof (Z.div_mod (x + 4096 - 1) 4096 ltac:(lia)).
  pose proof (Z.mod_pos_bound (x + 4096 - 1) 4096 ltac:(lia)). lia.
Qed.

Lemma page_round_npages x : 0 <= x < 2 ^ 63 -> page_round x = Z.of_nat (npages x) * PAGE_SIZE.
Proof.
  intros Hx. unfold page_round, npages. rewrite u64_small by (unfold PAGE_SIZE; lia).
  change (- PAGE_SIZE) with (- 2 ^ 12). rewrite land_neg_pow2 by lia. change (2 ^ 12) with PAGE_SIZE.
  rewrite Z2Nat.id; [done|]. apply Z.div_pos; unfold PAGE_SIZE; lia.
Qed.

Lemma npages_mono x y : x <= y -> (npages x <= npages y)%nat.
Proof.
  intros H. unfold npages. pose proof (Z.div_le_mono (x + PAGE_SIZE - 1) (y + PAGE_SIZE - 1) PAGE_SIZE ltac:(done) ltac:(lia)). lia.
Qed.

(** ** The loops *)

Section image.
Context (used : list ihk_os_mem_chunk) (file : list Z) (kr : Z -> Z -> Z * list Z).
(** Reading the file gives as much as there is. *)
Context (Hkr : forall pos l, 0 <= pos -> 0 < l ->
  kr pos l = (Z.of_nat (length (take (Z.to_nat l) (drop (Z.to_nat pos) file))), take (Z.to_nat l) (drop (Z.to_nat pos) file))).
(** The chunk that the image goes to. *)
Context (c : ihk_os_mem_chunk) (Hc : c ∈ used) (Hc0 : 0 <= oc_addr c) (Hc1 : oc_addr c + oc_size c < 2 ^ 64).
Abbreviation mem_end := (oc_addr c + oc_size c).
Abbreviation fbyte i := (nth (Z.to_nat i) file 0).

Lemma copy_loop_ok n : forall fuel m o pos size,
  (Z.of_nat n - 1) * PAGE_SIZE < size <= Z.of_nat n * PAGE_SIZE -> 0 <= size -> (n < fuel)%nat ->
  oc_addr c <= o -> o + Z.of_nat n * PAGE_SIZE <= mem_end ->
  0 <= pos -> pos + size <= Z.of_nat (length file) -> pos + size < 2 ^ 63 ->
  exists m', copy_loop used kr mem_end fuel m o pos (pos + size) = Ret (None, m', o + Z.of_nat n * PAGE_SIZE) /\
    (forall x, o <= x < o + size -> m' x = fbyte (pos + (x - o))) /\
    (forall x, o + size <= x < o + Z.of_nat n * PAGE_SIZE -> m' x = 0) /\
    (forall x, ~ o <= x < o + Z.of_nat n * PAGE_SIZE -> m' x = m x).
Proof using Hkr Hc Hc0 Hc1.
  unfold PAGE_SIZE. induction n as [|n IH]; intros [|fuel] m o pos size Hs H0 Hf Ho1 Ho2 Hp Hlen Hb; try lia; cbn [copy_loop].
  { assert (size = 0) as -> by lia. rewrite u64_small by lia. destruct (Z.ltb_spec pos (pos + 0)); [lia|].
    cbn [negb]. exists m. split_and!; [do 2 f_equal; lia|intros; lia|intros; lia|done]. }
  rewrite u64_small by lia. destruct (Z.ltb_spec pos (pos + size)); [|lia]. cbn [negb].
  replace (pos + size - pos) with size by lia. assert (s64 size = size) as -> by (unfold s64; rewrite Z.mod_small; lia).
  set (l := if PAGE_SIZE <? size then PAGE_SIZE else size).
  assert (l = Z.min PAGE_SIZE size) as El by (subst l; destruct (Z.ltb_spec PAGE_SIZE size); lia). clearbody l.
  unfold PAGE_SIZE in *. rewrite (u64_small (o + 4096)) by lia. destruct (Z.ltb_spec mem_end (o + 4096)); [lia|].
  rewrite (map_virtual_some used c) by (done || lia). rewrite Hkr by lia.
  set (bytes := take (Z.to_nat l) (drop (Z.to_nat pos) file)).
  assert (length bytes = Z.to_nat l) as Hbl by (subst bytes; rewrite length_take, length_drop; lia).
  rewrite Hbl, Z2Nat.id by lia. destruct (Z.leb_spec l 0); [lia|].
  set (m1 := if l =? 4096 then _ else _).
  assert ((forall x, o <= x < o + l -> m1 x = fbyte (pos + (x - o))) /\
          (forall x, o + l <= x < o + 4096 -> m1 x = 0) /\ (forall x, ~ o <= x < o + 4096 -> m1 x = m x)) as (M1 & M2 & M3).
  { assert (forall x, o <= x < o + l -> store m o bytes x = fbyte (pos + (x - o))) as HB.
    { intros x Hx. rewrite store_in by lia. subst bytes. rewrite nth_take_drop by lia. f_equal. lia. }
    subst m1. destruct (Z.eqb_spec l 4096) as [E|E].
    - split_and!; [done|intros; lia|intros; by rewrite store_out by lia].
    - assert (Z.of_nat (length (replicate (Z.to_nat (4096 - l)) 0)) = 4096 - l) as HR by (rewrite length_replicate; lia).
      split_and!; intros x Hx; [rewrite store_out by lia; by apply HB| |by rewrite !store_out by lia].
      rewrite store_in by lia. apply nth_replicate0. }
  destruct (IH fuel m1 (o + 4096) (pos + l) (size - l)) as (m' & E & A1 & A2 & A3); [lia..|].
  replace (pos + l + (size - l)) with (pos + size) in E by lia. rewrite E. exists m'.
  split_and!; [do 2 f_equal; lia| | |].
  - intros x Hx. destruct (decide (x < o + 4096)); [rewrite A3, M1 by lia; done|]. rewrite A1 by lia. do 2 f_equal. lia.
  - intros x Hx. destruct (decide (x < o + 4096)); [rewrite A3, M2 by lia; done|]. by rewrite A2 by lia.
  - intros x Hx. by rewrite A3, M3 by lia.
Qed.

Lemma zero_loop_ok n : forall fuel m o size,
  (n < fuel)%nat -> oc_addr c <= o -> o + Z.of_nat n * PAGE_SIZE <= mem_end ->
  0 <= size -> size + Z.of_nat n * PAGE_SIZE < 2 ^ 64 ->
  exists m', zero_loop used mem_end fuel m o size (size + Z.of_nat n * PAGE_SIZE) = Ret (None, m', o + Z.of_nat n * PAGE_SIZE) /\
    (forall x, o <= x < o + Z.of_nat n * PAGE_SIZE -> m' x = 0) /\
    (forall x, ~ o <= x < o + Z.of_nat n * PAGE_SIZE -> m' x = m x).
Proof using Hc Hc0 Hc1.
  unfold PAGE_SIZE. induction n as [|n IH]; intros [|fuel] m o size Hf Ho1 Ho2 Hs Hb; try lia; cbn [zero_loop].
  { destruct (Z.ltb_spec size (size + Z.of_nat 0 * 4096)); [lia|]. cbn [negb].
    exists m. split_and!; [do 2 f_equal; lia|intros; lia|done]. }
  destruct (Z.ltb_spec size (size + Z.of_nat (S n) * 4096)); [|lia]. cbn [negb]. unfold PAGE_SIZE.
  rewrite (u64_small (o + 4096)), (u64_small (size + 4096)) by lia. destruct (Z.ltb_spec mem_end (o + 4096)); [lia|].
  rewrite (map_virtual_some used c) by (done || lia).
  destruct (IH fuel (store m o (replicate (Z.to_nat 4096) 0)) (o + 4096) (size + 4096)) as (m' & E & A1 & A2); [lia..|].
  replace (size + 4096 + Z.of_nat n * 4096) with (size + Z.of_nat (S n) * 4096) in E by lia. rewrite E. exists m'.
  assert (Z.of_nat (length (replicate (Z.to_nat 4096) 0)) = 4096) as HR by (rewrite length_replicate; lia).
  split_and!; [do 2 f_equal; lia| |].
  - intros x Hx. destruct (decide (x < o + 4096)); [|by apply A1; lia].
    rewrite A2, store_in by lia. apply nth_replicate0.
  - intros x Hx. by rewrite A2, store_out by lia.
Qed.

(** *** Segments *)

Context (phys : Z).
Definition loadable (ph : phdr) : Prop := p_type ph = PT_LOAD /\ p_vaddr ph <> 0.
(** Where a segment goes, and how much memory it takes. *)
Definition seg_at (ph : phdr) : Z := phys + (p_vaddr ph - IHK_SMP_MAP_KERNEL_START).
Definition seg_size (ph : phdr) : Z := Z.of_nat (npages (p_memsz ph)) * PAGE_SIZE.

(** A segment that lies in the chunk, below [limit], and in the file. *)
Definition seg_ok (limit : Z) (ph : phdr) : Prop :=
  0 <= p_filesz ph <= p_memsz ph /\ p_memsz ph < 2 ^ 62 /\ 0 <= p_offset ph /\
  p_offset ph + p_filesz ph <= Z.of_nat (length file) /\ p_offset ph + p_filesz ph < 2 ^ 63 /\
  oc_addr c <= seg_at ph /\ seg_at ph + seg_size ph <= limit.

(** Its bytes from the file, the rest zero. *)
Definition loaded (ph : phdr) (m : memory) : Prop :=
  forall i, 0 <= i < seg_size ph -> m (seg_at ph + i) = if i <? p_filesz ph then fbyte (p_offset ph + i) else 0.

Lemma load_segment_ok ph m :
  seg_ok mem_end ph ->
  exists m' off, load_segment used kr mem_end phys ph m = Ret (None, m', off) /\ loaded ph m' /\
    forall x, ~ seg_at ph <= x < seg_at ph + seg_size ph -> m' x = m x.
Proof using Hkr Hc Hc0 Hc1.
  intros (Hf & Hm & Hp0 & Hp1 & Hp2 & Ho1 & Ho2). unfold load_segment.
  replace (p_vaddr ph - (IHK_SMP_MAP_KERNEL_START - phys)) with (seg_at ph) by (unfold seg_at; lia).
  pose proof (npages_mono (p_filesz ph) (p_memsz ph) ltac:(lia)) as Hmono.
  pose proof (npages_bounds (p_filesz ph) ltac:(lia)) as Hb. pose proof (npages_bounds (p_memsz ph) ltac:(lia)) as Hb2.
  unfold seg_size in *. set (o := seg_at ph) in *. unfold PAGE_SIZE in *.
  rewrite !page_round_npages, (u64_small o), (u64_small (p_offset ph + p_filesz ph)) by lia. unfold PAGE_SIZE.
  destruct (copy_loop_ok (npages (p_filesz ph)) (S (Z.to_nat (p_filesz ph))) m o (p_offset ph) (p_filesz ph))
    as (m1 & -> & A1 & A2 & A3); [unfold PAGE_SIZE; lia..|].
  cbn [mbind outcome_bind Z.eqb negb]. unfold PAGE_SIZE in *.
  set (k := (npages (p_memsz ph) - npages (p_filesz ph))%nat).
  destruct (zero_loop_ok k (S (Z.to_nat (Z.of_nat (npages (p_memsz ph)) * 4096 / 4096))) m1
    (o + Z.of_nat (npages (p_filesz ph)) * 4096) (Z.of_nat (npages (p_filesz ph)) * 4096)) as (m2 & E & B1 & B2);
    unfold PAGE_SIZE in *; [rewrite Z.div_mul; lia|lia..|].
  replace (Z.of_nat (npages (p_filesz ph)) * 4096 + Z.of_nat k * 4096) with (Z.of_nat (npages (p_memsz ph)) * 4096) in E by lia.
  rewrite E. eexists m2, _. split; [done|]. split.
  - intros i Hi. unfold seg_size in Hi. fold o. unfold PAGE_SIZE in Hi.
    destruct (Z.ltb_spec i (p_filesz ph)).
    + rewrite B2, A1 by lia. do 2 f_equal. lia.
    + destruct (decide (o + i < o + Z.of_nat (npages (p_filesz ph)) * 4096)); [rewrite B2, A2 by lia; done|by apply B1; lia].
  - intros x Hx. rewrite B2, A3 by lia. done.
Qed.

(** *** The loop over the program headers *)

Definition disjoint_segs (a b : phdr) : Prop :=
  loadable a -> loadable b -> seg_at a + seg_size a <= seg_at b \/ seg_at b + seg_size b <= seg_at a.

Context (hdr ph0 : Z) (Hhdr : hdr = mem_end - PAGE_SIZE).

Lemma loaded_frame ph m m' :
  loaded ph m -> (forall x, seg_at ph <= x < seg_at ph + seg_size ph -> m' x = m x) -> loaded ph m'.
Proof using. intros H E i Hi. rewrite E by lia. by apply H. Qed.

#[local] Instance loadable_dec ph : Decision (loadable ph).
Proof using. unfold loadable. apply _. Defined.

Lemma load_segments_ok rest : forall fuel i m,
  (length rest < fuel)%nat -> 0 <= i -> 0 <= hdr <= ph0 -> ph0 + sizeof_phdr * (i + Z.of_nat (length rest)) <= mem_end ->
  e_phnum m hdr = i + Z.of_nat (length rest) ->
  (forall k ph, rest !! k = Some ph -> read_phdr m (ph0 + sizeof_phdr * (i + Z.of_nat k)) = ph) ->
  Forall (fun ph => loadable ph -> seg_ok hdr ph) rest -> pairwise disjoint_segs rest ->
  exists m', load_segments used kr mem_end fuel i hdr ph0 phys m = Ret (None, m') /\
    Forall (fun ph => loadable ph -> loaded ph m') rest /\
    forall x, (forall ph, ph ∈ rest -> loadable ph -> ~ seg_at ph <= x < seg_at ph + seg_size ph) -> m' x = m x.
Proof using Hkr Hc Hc0 Hc1 Hhdr.
  unfold sizeof_phdr. induction rest as [|ph rest IH]; intros [|fuel] i m Hf Hi Hph Hend Hn Hr Hok Hd;
    cbn [length] in *; try lia; cbn [load_segments].
  { rewrite Hn. destruct (Z.ltb_spec i (i + Z.of_nat 0)); [lia|]. cbn [negb]. exists m. split_and!; [done|constructor|done]. }
  rewrite Hn. destruct (Z.ltb_spec i (i + Z.of_nat (S (length rest)))); [|lia]. cbn [negb]. unfold sizeof_phdr.
  rewrite u64_small by lia. pose proof (Hr 0%nat ph eq_refl) as Hr0. rewrite Z.add_0_r in Hr0. rewrite Hr0.
  apply Forall_cons in Hok as [Hok0 Hok]. destruct Hd as [Hd0 Hd].
  assert (forall k ph', rest !! k = Some ph' -> read_phdr m (ph0 + 56 * (i + 1 + Z.of_nat k)) = ph') as Hr'.
  { intros k ph' Hk. rewrite <- (Hr (S k) ph' Hk). f_equal. lia. }
  destruct (decide (loadable ph)) as [Hl|Hl].
  2: { assert (negb (p_type ph =? PT_LOAD) || (p_vaddr ph =? 0) = true) as ->.
       { destruct (Z.eqb_spec (p_type ph) PT_LOAD), (Z.eqb_spec (p_vaddr ph) 0); try done. by destruct Hl. }
       destruct (IH fuel (i + 1) m) as (m' & -> & A & B); [lia|lia|lia|lia|lia|done|done|done|].
       exists m'. split_and!; [done|by constructor|]. intros x Hx. apply B. intros; apply Hx; [by right|done]. }
  assert (negb (p_type ph =? PT_LOAD) || (p_vaddr ph =? 0) = false) as ->.
  { destruct Hl as [-> Hl]. by rewrite (proj2 (Z.eqb_neq _ _) Hl). }
  pose proof (Hok0 Hl) as (S1 & S2 & S3 & S4 & S5 & S6 & S7).
  destruct (load_segment_ok ph m) as (m1 & off & -> & L1 & F1); [unfold seg_ok, PAGE_SIZE in *; split_and!; lia|].
  cbn [mbind outcome_bind Z.eqb negb].
  assert (forall x, hdr <= x -> m1 x = m x) as Fh by (intros; apply F1; lia).
  destruct (IH fuel (i + 1) m1) as (m' & -> & A & B); [lia|lia|lia|lia| | |done|done|].
  { unfold e_phnum in *. rewrite <- (rd_ext 2 m) by (intros; symmetry; apply Fh; lia). lia. }
  { intros k ph' Hk. rewrite <- (Hr' k ph' Hk). apply read_phdr_ext. intros; apply Fh; lia. }
  exists m'. split_and!; [done| |].
  - constructor; [|done]. intros _. apply (loaded_frame ph m1 m' L1). intros x Hx. apply B.
    intros ph' Hin Hl' Hx'. rewrite Forall_forall in Hd0. destruct (Hd0 ph' Hin Hl Hl'); lia.
  - intros x Hx. rewrite B, F1; [done|by apply Hx; [left|]|]. intros ph' Hin. apply Hx. by right.
Qed.
End image.

(** ** Choice of the chunk *)

Definition boot_chunk (os numa : Z) (c : ihk_os_mem_chunk) : Prop := oc_os c = os /\ oc_numa c = numa.
Definition in_range (c : ihk_os_mem_chunk) : Prop := 0 <= oc_addr c /\ 0 < oc_size c /\ oc_addr c + oc_size c < 2 ^ 64.

(** The best chunk so far. *)
Definition best_of (os numa : Z) (seen : list ihk_os_mem_chunk) (best : Z * Z * bool) : Prop :=
  (best = (0, 0, false) /\ Forall (fun c => ~ boot_chunk os numa c) seen) \/
  exists c, c ∈ seen /\ boot_chunk os numa c /\ in_range c /\ best = (oc_addr c, oc_addr c + oc_size c, true) /\
    Forall (fun c' => boot_chunk os numa c' -> oc_size c' <= oc_size c) seen.

Lemma largest_chunk_ok os numa l : forall seen best,
  Forall in_range l -> best_of os numa seen best -> best_of os numa (seen ++ l) (largest_chunk os numa l best).
Proof.
  induction l as [|c l IH]; intros seen best Hl Hb; cbn [largest_chunk]; [by rewrite app_nil_r|].
  apply Forall_cons in Hl as [(Hc0 & Hc1 & Hc2) Hl].
  replace (seen ++ c :: l) with ((seen ++ [c]) ++ l) by (by rewrite <- app_assoc).
  destruct (negb (oc_os c =? os) || negb (oc_numa c =? numa)) eqn:E.
  - assert (~ boot_chunk os numa c) as Hn.
    { intros [E1 E2]. rewrite E1, E2, !Z.eqb_refl in E. done. }
    apply IH; [done|]. destruct Hb as [[-> Hs]|(d & Hd & Hbd & Hr & -> & Hs)].
    + left. split; [done|]. apply Forall_app. auto.
    + right. exists d. rewrite elem_of_app, Forall_app, Forall_singleton. split_and!; try done; by auto.
  - assert (boot_chunk os numa c) as Hn.
    { apply orb_false_iff in E as [E1%negb_false_iff%Z.eqb_eq E2%negb_false_iff%Z.eqb_eq]. done. }
    destruct best as [[start stop] found]. apply IH; [done|]. rewrite (u64_small (oc_addr c + oc_size c)) by lia.
    destruct Hb as [[[= -> -> ->] Hs]|(d & Hd & Hbd & (D0 & D1 & D2) & [= -> -> ->] & Hs)].
    + rewrite u64_small by lia. destruct (Z.ltb_spec (0 - 0) (oc_size c)); [|lia]. right. exists c.
      rewrite elem_of_app, Forall_app, Forall_singleton, list_elem_of_singleton. split_and!; try done; auto.
      eapply Forall_impl; [exact Hs|]. by intros c' Hc' ?.
    + replace (oc_addr d + oc_size d - oc_addr d) with (oc_size d) by lia. rewrite u64_small by lia.
      destruct (Z.ltb_spec (oc_size d) (oc_size c)); right; [exists c|exists d];
        rewrite elem_of_app, Forall_app, Forall_singleton, list_elem_of_singleton; split_and!; try done; auto.
      eapply Forall_impl; [exact Hs|]. intros c' Hc' ?. specialize (Hc' ltac:(done)). lia.
Qed.

(** ** Images *)

Lemma rd_range n m a : (forall x, 0 <= m x < 256) -> 0 <= rd n m a < 256 ^ Z.of_nat n.
Proof.
  intros H. revert a. induction n as [|n IH]; intros a; [done|]. cbn [rd].
  replace (256 ^ Z.of_nat (S n)) with (256 * 256 ^ Z.of_nat n) by (rewrite <- Z.pow_succ_r by lia; f_equal; lia).
  specialize (H a). specialize (IH (a + 1)). lia.
Qed.

Lemma rd_shift n m m' d a : (forall x, a <= x < a + Z.of_nat n -> m (d + x) = m' x) -> rd n m (d + a) = rd n m' a.
Proof.
  revert a. induction n as [|n IH]; intros a H; [done|]. cbn [rd].
  rewrite H by lia. rewrite <- Z.add_assoc, IH by (intros; apply H; lia). done.
Qed.

Lemma read_phdr_shift m m' d a :
  (forall x, a <= x < a + sizeof_phdr -> m (d + x) = m' x) -> read_phdr m (d + a) = read_phdr m' a.
Proof.
  unfold sizeof_phdr, read_phdr. intros H. rewrite <- !Z.add_assoc.
  f_equal; apply rd_shift; intros; apply H; lia.
Qed.

(** The bytes and the program headers of a file. *)
Definition file_bytes (file : list Z) : memory := fun x => nth (Z.to_nat x) file 0.
Definition elf_phdrs (file : list Z) : list phdr :=
  (fun i => read_phdr (file_bytes file) (e_phoff (file_bytes file) 0 + sizeof_phdr * i)) <$>
    seqZ 0 (e_phnum (file_bytes file) 0).

(** A file that is an ELF image whose headers lie in its first page. *)
Record elf_ok (file : list Z) : Prop := {
  eo_bytes : Forall (fun b => 0 <= b < 256) file;
  eo_magic : bad_elf (file_bytes file) 0 = false;
  eo_size : 64 <= Z.of_nat (length file) < 2 ^ 62;
  eo_headers : e_phoff (file_bytes file) 0 + sizeof_phdr * e_phnum (file_bytes file) 0 <=
    Z.min PAGE_SIZE (Z.of_nat (length file))
}.

Lemma file_bytes_range file x : Forall (fun b => 0 <= b < 256) file -> 0 <= file_bytes file x < 256.
Proof.
  intros H. unfold file_bytes. rewrite nth_lookup. destruct (file !! Z.to_nat x) as [b|] eqn:E; [|done].
  rewrite Forall_lookup in H. by apply (H _ _ E).
Qed.

Definition page_of_file (file : list Z) : list Z := take (Z.to_nat PAGE_SIZE) (drop (Z.to_nat 0) file).

Lemma header_bytes m hdr file x :
  0 <= x < Z.min PAGE_SIZE (Z.of_nat (length file)) -> store m hdr (page_of_file file) (hdr + x) = file_bytes file x.
Proof.
  intros Hx. unfold page_of_file. rewrite store_in by (rewrite length_take, length_drop; lia).
  rewrite nth_take_drop by lia. unfold file_bytes. f_equal. lia.
Qed.

(** The header in memory reads as in the file. *)
Lemma header_ok m hdr file :
  elf_ok file -> let m1 := store m hdr (page_of_file file) in
  e_phnum m1 hdr = e_phnum (file_bytes file) 0 /\ e_phoff m1 hdr = e_phoff (file_bytes file) 0 /\
  e_entry m1 hdr = e_entry (file_bytes file) 0 /\ bad_elf m1 hdr = false.
Proof.
  intros [Hb Hm Hs Hh] m1. assert (forall x, 0 <= x < 64 -> m1 (hdr + x) = file_bytes file x) as H.
  { intros. apply header_bytes. unfold PAGE_SIZE. lia. }
  assert (e_phnum m1 hdr = e_phnum (file_bytes file) 0) as E1 by (apply rd_shift; intros; apply H; lia).
  assert (e_phoff m1 hdr = e_phoff (file_bytes file) 0) as E2 by (apply rd_shift; intros; apply H; lia).
  split_and!; [done|done|apply rd_shift; intros; apply H; lia|].
  unfold bad_elf in *. rewrite E1, E2, !H by lia. rewrite <- (Z.add_0_r hdr), H by lia. exact Hm.
Qed.

Lemma le_length n v : length (le n v) = n.
Proof. revert v. induction n as [|n IH]; intros v; [done|]. cbn [le length]. by rewrite IH. Qed.

Lemma rd_store_le n : forall m a v, rd n (store m a (le n v)) a = v mod 256 ^ Z.of_nat n.
Proof.
  induction n as [|n IH]; intros m a v; [by rewrite Z.mod_1_r|]. cbn [rd].
  rewrite (rd_ext n _ (store m (a + 1) (le n (v / 256))) (a + 1)).
  - rewrite store_in by (rewrite le_length; lia). rewrite Z.sub_diag. cbn [le Z.to_nat nth].
    rewrite IH, Nat2Z.inj_succ, Z.pow_succ_r, Z.rem_mul_r by lia. done.
  - intros x Hx. rewrite !store_in by (rewrite le_length; lia). cbn [le].
    replace (Z.to_nat (x - a)) with (S (Z.to_nat (x - (a + 1)))) by lia. done.
Qed.

(** The start-up page at [p]: the start-up code, and in its words 2 to 6 the
    page tables, the stack, the image, the trampoline and the entry. *)
Definition startup_ready (e : load_env) (m : memory) (p pt stack phys entry : Z) : Prop :=
  rd 8 m (p + 16) = u64 pt /\ rd 8 m (p + 24) = u64 stack /\ rd 8 m (p + 32) = u64 phys /\
  rd 8 m (p + 40) = u64 (le_trampoline_phys e) /\ rd 8 m (p + 48) = u64 entry /\
  forall i, (i < length (le_startup_data e))%nat -> ~ 16 <= Z.of_nat i < 56 -> m (p + Z.of_nat i) = nth i (le_startup_data e) 0.

Lemma rd_store_other n m a b l : a + Z.of_nat n <= b \/ b + Z.of_nat (length l) <= a -> rd n (store m b l) a = rd n m a.
Proof. intros H. apply rd_ext. intros x Hx. apply store_out. lia. Qed.

Lemma startup_page_ready e m p pt stack phys entry : startup_ready e (startup_page e m p pt stack phys entry) p pt stack phys entry.
Proof.
  unfold startup_ready, startup_page. split_and!; repeat (rewrite rd_store_other by (rewrite le_length; lia));
    try (apply (rd_store_le 8)). intros i Hi Hn. rewrite !store_out by (rewrite le_length; lia).
  rewrite store_in by lia. f_equal. lia.
Qed.

Lemma startup_page_frame e m p pt stack phys entry x :
  Z.of_nat (length (le_startup_data e)) <= PAGE_SIZE -> ~ p <= x < p + PAGE_SIZE ->
  startup_page e m p pt stack phys entry x = m x.
Proof.
  unfold PAGE_SIZE. intros Hd Hx. unfold startup_page.
  rewrite !store_out; [done|..]; rewrite ?le_length; lia.
Qed.

Lemma large_round_spec a : 0 <= a -> a + 2 ^ 23 < 2 ^ 64 -> a < large_round a + 1 /\ large_aligned (large_round a).
Proof.
  intros H0 H1. unfold large_round, large_aligned, LARGE_PAGE, PTL2_SHIFT. rewrite u64_small by lia.
  rewrite land_neg_pow2 by lia. split; [|apply Z.mod_mul; lia].
  pose proof (Z.div_mod (a + 2 ^ 21 * 2 - 1) (2 ^ 21) ltac:(lia)).
  pose proof (Z.mod_pos_bound (a + 2 ^ 21 * 2 - 1) (2 ^ 21) ltac:(lia)). lia.
Qed.

(** Where the chunk's parts are. *)
Definition image_at (c : ihk_os_mem_chunk) : Z := large_round (oc_addr c).
Definition header_at (c : ihk_os_mem_chunk) : Z := oc_addr c + oc_size c - PAGE_SIZE.
Definition startup_at (c : ihk_os_mem_chunk) : Z := Z.land (oc_addr c + oc_size c) (- LARGE_PAGE) - Z.shiftl 2 PTL2_SHIFT.

(** The image fits into the chunk: its segments do not overlap each other,
    the header, or the start-up page. *)
Record image_fits (file : list Z) (c : ihk_os_mem_chunk) : Prop := {
  if_elf : elf_ok file;
  if_range : 0 <= oc_addr c /\ oc_addr c + oc_size c + 2 ^ 23 < 2 ^ 64 /\ oc_addr c <= header_at c;
  if_startup : oc_addr c <= startup_at c;
  if_segs : Forall (fun ph => loadable ph -> seg_ok file c (image_at c) (header_at c) ph) (elf_phdrs file);
  if_disjoint : pairwise (disjoint_segs (image_at c)) (elf_phdrs file);
  if_apart : Forall (fun ph => loadable ph -> seg_at (image_at c) ph + seg_size ph <= startup_at c \/
    startup_at c + PAGE_SIZE <= seg_at (image_at c) ph) (elf_phdrs file)
}.

(** Linux gives what is asked for: the file, all its bytes, and pages. *)
Record load_works (e : load_env) (file : list Z) : Prop := {
  lw_open : le_open e = true;
  lw_read : forall pos l, 0 <= pos -> 0 < l ->
    le_kernel_read e pos l =
      (Z.of_nat (length (take (Z.to_nat l) (drop (Z.to_nat pos) file))), take (Z.to_nat l) (drop (Z.to_nat pos) file));
  lw_pages : forall n, is_Some (le_get_zeroed_page e n);
  lw_startup : Z.of_nat (length (le_startup_data e)) <= PAGE_SIZE
}.

(** Memory outside the segments, the header and the start-up page. *)
Definition untouched (file : list Z) (c : ihk_os_mem_chunk) (x : Z) : Prop :=
  ~ header_at c <= x < header_at c + PAGE_SIZE /\ ~ startup_at c <= x < startup_at c + PAGE_SIZE /\
  forall ph, ph ∈ elf_phdrs file -> loadable ph -> ~ seg_at (image_at c) ph <= x < seg_at (image_at c) ph + seg_size ph.

Section load_ok.
Context (e : load_env) (used : list ihk_os_mem_chunk) (file : list Z) (c : ihk_os_mem_chunk).
Context (Hw : load_works e file) (Hc : c ∈ used) (Hf : image_fits file c).

Lemma elf_phdrs_spec :
  0 <= e_phoff (file_bytes file) 0 /\ 0 <= e_phnum (file_bytes file) 0 < 2 ^ 16 /\
  Z.of_nat (length (elf_phdrs file)) = e_phnum (file_bytes file) 0.
Proof using Hf.
  pose proof (if_elf _ _ Hf) as He.
  pose proof (rd_range 8 (file_bytes file) (0 + 32) (fun x => file_bytes_range file x (eo_bytes _ He))) as [H1 _].
  pose proof (rd_range 2 (file_bytes file) (0 + 56) (fun x => file_bytes_range file x (eo_bytes _ He))) as H2.
  split; [exact H1|]. split; [exact H2|]. unfold elf_phdrs. rewrite length_fmap, length_seqZ.
  unfold e_phnum in *. lia.
Qed.

Lemma header_read : le_kernel_read e 0 PAGE_SIZE = (Z.of_nat (length (page_of_file file)), page_of_file file).
Proof using Hw. unfold page_of_file. apply (lw_read _ _ Hw); unfold PAGE_SIZE; lia. Qed.

(** The segments are loaded, and the rest is left alone. *)
Lemma segments_loaded m :
  exists m', load_segments used (le_kernel_read e) (oc_addr c + oc_size c) phnum_fuel 0 (header_at c)
      (header_at c + e_phoff (file_bytes file) 0) (image_at c) (store m (header_at c) (page_of_file file)) = Ret (None, m') /\
    Forall (fun ph => loadable ph -> loaded file (image_at c) ph m') (elf_phdrs file) /\
    forall x, (forall ph, ph ∈ elf_phdrs file -> loadable ph ->
        ~ seg_at (image_at c) ph <= x < seg_at (image_at c) ph + seg_size ph) ->
      m' x = store m (header_at c) (page_of_file file) x.
Proof using Hw Hc Hf.
  pose proof elf_phdrs_spec as (Ho & Hn & Hlen). pose proof (if_elf _ _ Hf) as He. pose proof (eo_headers _ He) as Hh.
  pose proof phnum_fuel_eq. destruct (if_range _ _ Hf) as (R0 & R1 & R2). unfold header_at, PAGE_SIZE in *. unfold sizeof_phdr in *.
  destruct (header_ok m (oc_addr c + oc_size c - 4096) file He) as (E1 & _ & _ & _).
  apply (load_segments_ok used file (le_kernel_read e) (lw_read _ _ Hw) c Hc R0 ltac:(lia) (image_at c)
    (oc_addr c + oc_size c - 4096)); try lia.
  - done.
  - unfold sizeof_phdr. lia.
  - intros k ph Hk. unfold elf_phdrs in Hk. rewrite list_lookup_fmap, fmap_Some in Hk.
    destruct Hk as (i & [-> Ek]%lookup_seqZ & ->).
    rewrite Z.add_0_l, <- Z.add_assoc. apply read_phdr_shift. unfold sizeof_phdr. intros x Hx. apply header_bytes.
    unfold PAGE_SIZE. lia.
  - apply (if_segs _ _ Hf).
  - apply (if_disjoint _ _ Hf).
Qed.

Lemma load_image_ok s :
  ls_start s = oc_addr c -> ls_end s = oc_addr c + oc_size c ->
  exists s' pt, load_image e used s = Ret (0, s') /\ ls_os s' = ls_os s /\ ls_boot_rip s' = startup_at c /\ ls_boot_pt s' = Some pt /\
    startup_ready e (ls_mem s') (startup_at c) (pgd_page pt) (header_at c) (image_at c) (e_entry (file_bytes file) 0) /\
    (forall x, 0 <= x < 0x800000 -> translate pt (IHK_SMP_MAP_KERNEL_START + x) = Some (image_at c + x)) /\
    Forall (fun ph => loadable ph -> loaded file (image_at c) ph (ls_mem s')) (elf_phdrs file) /\
    forall x, untouched file c x -> ls_mem s' x = ls_mem s x.
Proof using Hw Hc Hf.
  intros Es Ee. destruct (if_range _ _ Hf) as (R0 & R1 & R2). pose proof (if_elf _ _ Hf) as He.
  pose proof elf_phdrs_spec as (Ho & Hn & Hlen). pose proof (eo_headers _ He) as Hh. pose proof (eo_size _ He) as Hs.
  pose proof (if_startup _ _ Hf) as Hst.
  unfold load_image. rewrite Es, Ee. fold (header_at c). rewrite (u64_small (header_at c)) by (unfold header_at, PAGE_SIZE in *; lia).
  rewrite (map_virtual_some used c) by (done || (unfold header_at, PAGE_SIZE in *; lia)).
  rewrite header_read.
  assert (0 < Z.of_nat (length (page_of_file file))) by (unfold page_of_file, PAGE_SIZE; rewrite length_take, length_drop; lia).
  destruct (Z.leb_spec (Z.of_nat (length (page_of_file file))) 0); [lia|].
  destruct (header_ok (ls_mem s) (header_at c) file He) as (E1 & E2 & E3 & E4). rewrite E4, E2. fold (image_at c).
  rewrite (u64_small (header_at c + _)) by (unfold header_at, PAGE_SIZE, sizeof_phdr in *; lia).
  destruct (segments_loaded (ls_mem s)) as (m1 & -> & L1 & F1). cbn [mbind outcome_bind Z.eqb negb].
  unfold smp_ihk_os_setup_startup. destruct (large_round_spec (oc_addr c)) as [Hr0 Hr1]; [lia|unfold header_at, PAGE_SIZE in *; lia|].
  destruct (setup_tables_ok (le_get_zeroed_page e) (image_at c) (lw_pages _ _ Hw) Hr1) as (pt & n & -> & _ & _ & A3).
  cbn [Z.ltb Z.compare ls_set_boot ls_set_mem ls_end ls_mem ls_boot_rip]. rewrite Ee.
  fold (startup_at c). assert (startup_at c + 2 ^ 22 <= oc_addr c + oc_size c) as Hse.
  { unfold startup_at, LARGE_PAGE, PTL2_SHIFT. rewrite land_neg_pow2 by lia. change (Z.shiftl 2 21) with (2 ^ 22).
    pose proof (Z.div_mod (oc_addr c + oc_size c) (2 ^ 21) ltac:(lia)).
    pose proof (Z.mod_pos_bound (oc_addr c + oc_size c) (2 ^ 21) ltac:(lia)). lia. }
  rewrite (u64_small (startup_at c)) by lia. rewrite (map_virtual_some used c) by (done || (unfold PAGE_SIZE; lia)).
  eexists _, pt. split; [done|]. split; [done|]. split; [done|]. split; [done|]. cbn [ls_set_boot ls_mem ls_set_mem].
  split; [|split_and!].
  - unfold smp_ihk_adjust_entry. rewrite E3. fold (header_at c). rewrite (u64_small (header_at c)) by (unfold header_at, PAGE_SIZE in *; lia).
    apply startup_page_ready.
  - intros x Hx. assert (lpage IHK_SMP_MAP_KERNEL_START = 2 ^ 27 - 12) as LK by (vm_compute; auto).
    apply (linear pt IHK_SMP_MAP_KERNEL_START (image_at c) 4 x); [done|change LARGE_PAGE with 0x200000; lia|lia|exact A3].
  - apply Forall_forall. intros ph Hin Hl. pose proof (if_apart _ _ Hf) as Ha. rewrite Forall_forall in Ha, L1.
    apply (loaded_frame file (image_at c) ph m1); [by apply L1|]. intros x Hx.
    apply startup_page_frame; [apply (lw_startup _ _ Hw)|]. destruct (Ha ph Hin Hl); lia.
  - intros x (U1 & U2 & U3). rewrite startup_page_frame by (apply (lw_startup _ _ Hw) || done). rewrite F1 by done.
    apply store_out. assert (Z.of_nat (length (page_of_file file)) <= PAGE_SIZE); [|lia].
    unfold page_of_file. rewrite length_take. unfold PAGE_SIZE. lia.
Qed.
End load_ok.

(** ** Properties *)

Definition boot_numa (used : list ihk_os_mem_chunk) (s : load_st) : Z :=
  if ls_numa_id s =? -1 then min_numa used (-1) else ls_numa_id s.


(** *** An image with one segment *)

Definition elf_header (phnum : Z) : list Z :=
  [0x7f; 69; 76; 70] ++ replicate 20 0 ++ le 8 (IHK_SMP_MAP_KERNEL_START + 0x10) ++ le 8 64 ++ replicate 16 0 ++ le 2 phnum ++
  replicate 6 0.
Definition elf_segment (offset vaddr filesz memsz : Z) : list Z :=
  le 4 PT_LOAD ++ replicate 4 0 ++ le 8 offset ++ le 8 vaddr ++ replicate 8 0 ++ le 8 filesz ++ le 8 memsz ++ replicate 8 0.
Definition demo_file (vaddr : Z) : list Z := elf_header 1 ++ elf_segment 120 vaddr 4 0x1800 ++ [1; 2; 3; 4].
Definition demo_read (file : list Z) (pos l : Z) : Z * list Z :=
  let b := take (Z.to_nat l) (drop (Z.to_nat pos) file) in (Z.of_nat (length b), b).
Definition demo_load_env (file : list Z) : load_env :=
  mk_load_env (fun n => Some (Z.of_nat n)) true (demo_read file) [0; 0; 0; 0] 0x8000.
Definition demo_chunk : ihk_os_mem_chunk := mk_os_chunk 0x1000000 0x1000000 16 0.
Definition demo_load : load_st :=
  mk_load (fun _ => 255) (mk_osd BUILTIN_OS_STATUS_INITIAL 0x1000000 0x2000000 {[0]} {[3]} [] [] 0 1) (-1) 0 0 0 None.

Definition demo_ph : phdr := mk_phdr PT_LOAD 120 (IHK_SMP_MAP_KERNEL_START + 0x1000) 4 0x1800.

Lemma demo_phdrs : elf_phdrs (demo_file (IHK_SMP_MAP_KERNEL_START + 0x1000)) = [demo_ph].
Proof. vm_compute. reflexivity. Qed.

Lemma demo_works file : load_works (demo_load_env file) file.
Proof. constructor; [done|done|by eexists|done]. Qed.

Lemma demo_image_fits : image_fits (demo_file (IHK_SMP_MAP_KERNEL_START + 0x1000)) demo_chunk.
Proof.
  constructor.
  - constructor; [|vm_compute; done..]. apply (bool_decide_unpack _). vm_compute. done.
  - vm_compute. done.
  - vm_compute. done.
  - rewrite demo_phdrs. apply Forall_singleton. intros _. vm_compute. done.
  - rewrite demo_phdrs. split; [constructor|done].
  - rewrite demo_phdrs. apply Forall_singleton. intros _. left. vm_compute. done.
Qed.


(** The node for the image is the lowest node of the chunks of all
    kernels, so a kernel cannot be loaded while another kernel has memory on a
    lower node: here kernel 16 has only memory on node 1. *)
Theorem load_wrong_node :
  let c := mk_os_chunk 0x1000000 0x1000000 16 1 in
  (exists s, smp_ihk_os_load_file (demo_load_env (demo_file (IHK_SMP_MAP_KERNEL_START + 0x1000))) 16
      [mk_os_chunk 0x400000 0x400000 1 0; c] demo_load = Ret (- EINVAL, s)) /\
  largest_chunk 16 (min_numa [c] (-1)) [c] (0, 0, false) = (0x1000000, 0x2000000, true).
Proof. split; [eexists; vm_compute; reflexivity|vm_compute; reflexivity]. Qed.

(** Result and some memory after loading the segments of an image. *)
Definition loaded_bytes (file : list Z) (used : list ihk_os_mem_chunk) (c : ihk_os_mem_chunk) (a : Z) : outcome (Z * list Z) :=
  let m := store (fun _ => 255) (header_at c) (page_of_file file) in
  ' (ret, m) ← load_segments used (demo_read file) (oc_addr c + oc_size c) 2 0 (header_at c)
                 (header_at c + e_phoff m (header_at c)) (image_at c) m;
  Ret (default 0 ret, m <$> seqZ a 4).

(** A file that ends inside a segment is reported as loaded, although neither
    the start-up page nor the boot page tables are written. *)
Theorem truncated_image_succeeds :
  let file := elf_header 1 ++ elf_segment 120 (IHK_SMP_MAP_KERNEL_START + 0x1000) 8 0x1800 in
  match smp_ihk_os_load_file (demo_load_env file) 16 [demo_chunk] demo_load with
  | Ret (ret, s) => ret = 0 /\ ls_boot_rip s = 0 /\ ls_boot_pt s = None /\ ls_mem s (startup_at demo_chunk + 48) = 255
  | Undef => False
  end.
Proof. vm_compute. done. Qed.

(** There is no lower bound on the addresses of segments, and the
    mapping accepts the chunks of all kernels: an image with a segment below
    the link address overwrites the memory of another kernel. *)
Theorem load_hits_neighbour :
  loaded_bytes (demo_file (IHK_SMP_MAP_KERNEL_START - 0x400000)) [mk_os_chunk 0x800000 0x800000 1 0; demo_chunk] demo_chunk
    0xe00000 = Ret (0, [1; 2; 3; 4]) /\
  loaded_bytes (demo_file (IHK_SMP_MAP_KERNEL_START - 0x400000)) [demo_chunk] demo_chunk 0xe00000 =
    Ret (- EFAULT, [255; 255; 255; 255]).
Proof. split; vm_compute; reflexivity. Qed.

(** *** load_mem *)

Lemma load_pages_ok used c buf base : c ∈ used -> 0 <= oc_addr c <= base -> oc_addr c + oc_size c < 2 ^ 64 ->
  forall fuel k m, (npages (Z.of_nat (length buf)) < fuel + k)%nat -> (k <= npages (Z.of_nat (length buf)))%nat ->
    base + Z.of_nat (npages (Z.of_nat (length buf))) * PAGE_SIZE <= oc_addr c + oc_size c ->
    (forall x, base <= x < base + Z.min (Z.of_nat k * PAGE_SIZE) (Z.of_nat (length buf)) -> m x = nth (Z.to_nat (x - base)) buf 0) ->
    exists m', load_pages fuel used buf (base + Z.of_nat k * PAGE_SIZE)
        (Z.min (Z.of_nat k * PAGE_SIZE) (Z.of_nat (length buf)))
        (Z.max 0 (Z.of_nat (length buf) - Z.of_nat k * PAGE_SIZE)) m = Ret (0, m') /\
      (forall x, base <= x < base + Z.of_nat (length buf) -> m' x = nth (Z.to_nat (x - base)) buf 0) /\
      (forall x, ~ base + Z.of_nat k * PAGE_SIZE <= x < base + Z.of_nat (length buf) -> m' x = m x).
Proof.
  intros Hc Hb Hr. pose proof (npages_bounds (Z.of_nat (length buf)) ltac:(lia)) as Hn. unfold PAGE_SIZE in *.
  set (len := Z.of_nat (length buf)) in *. set (n := Z.of_nat (npages len)) in *.
  induction fuel as [|fuel IH]; intros k m Hf Hk He Hm; [lia|]. cbn [load_pages].
  destruct (Z.leb_spec (Z.max 0 (len - Z.of_nat k * 4096)) 0) as [Hz|Hz].
  { exists m. split_and!; [done|intros; apply Hm; lia|done]. }
  assert (Z.of_nat k * 4096 < len) as Hlt by lia. rewrite (map_virtual_some used c) by (done || (unfold PAGE_SIZE; lia)).
  unfold PAGE_SIZE. replace (Z.min (Z.of_nat k * 4096) len) with (Z.of_nat k * 4096) by lia.
  rewrite Z.mod_mul, Z.add_0_l, Z.sub_0_r by lia. rewrite Z.max_r by lia.
  set (t := if 4096 <? len - Z.of_nat k * 4096 then 4096 else len - Z.of_nat k * 4096).
  assert (t = Z.min 4096 (len - Z.of_nat k * 4096)) as Et
    by (subst t; destruct (Z.ltb_spec 4096 (len - Z.of_nat k * 4096)); lia). clearbody t.
  fold len. destruct (Z.ltb_spec (Z.of_nat k * 4096) 0); [lia|]. destruct (Z.ltb_spec len (Z.of_nat k * 4096 + t)); [lia|]. cbn [orb].
  set (bytes := take (Z.to_nat t) (drop (Z.to_nat (Z.of_nat k * 4096)) buf)).
  assert (Z.of_nat (length bytes) = t) as Hbl by (subst bytes; rewrite length_take, length_drop; lia).
  rewrite u64_small by lia.
  edestruct (IH (S k) (store m (base + Z.of_nat k * 4096) bytes)) as (m' & E & A1 & A2); [lia|lia|lia| |].
  { intros x Hx. destruct (decide (x < base + Z.of_nat k * 4096)); [rewrite store_out by lia; apply Hm; lia|].
    rewrite store_in by lia. subst bytes. rewrite nth_take_drop by lia. f_equal. lia. }
  replace (base + Z.of_nat k * 4096 + 4096) with (base + Z.of_nat (S k) * 4096) by lia.
  replace (Z.of_nat k * 4096 + t) with (Z.min (Z.of_nat (S k) * 4096) len) by lia.
  replace (len - Z.of_nat k * 4096 - t) with (Z.max 0 (len - Z.of_nat (S k) * 4096)) by lia.
  rewrite E. exists m'. split_and!; [done|done|]. intros x Hx. by rewrite A2, store_out by lia.
Qed.

(** Loading a buffer to a page of the kernel's memory puts its bytes there and
    changes nothing else. *)
Theorem load_mem_correct used c buf offset s :
  let base := os_mem_start (ls_os s) + offset in
  c ∈ used -> 0 <= oc_addr c <= base -> oc_addr c + oc_size c < 2 ^ 64 ->
  base mod PAGE_SIZE = 0 -> base + Z.of_nat (npages (Z.of_nat (length buf))) * PAGE_SIZE <= oc_addr c + oc_size c ->
  os_mem_start (ls_os s) + Z.of_nat (length buf) <= os_mem_end (ls_os s) < 2 ^ 64 -> 0 <= os_mem_start (ls_os s) ->
  os_hw_ids_map (ls_os s) <> ∅ -> os_status (ls_os s) = BUILTIN_OS_STATUS_INITIAL ->
  exists s', smp_ihk_os_load_mem used buf offset s = Ret (0, s') /\ os_status (ls_os s') = BUILTIN_OS_STATUS_INITIAL /\
    (forall x, base <= x < base + Z.of_nat (length buf) -> ls_mem s' x = nth (Z.to_nat (x - base)) buf 0) /\
    (forall x, ~ base <= x < base + Z.of_nat (length buf) -> ls_mem s' x = ls_mem s x).
Proof.
  intros base Hc Hb Hr Ha He Hs H0 Hh Hst. unfold smp_ihk_os_load_mem. rewrite bool_decide_false by done.
  destruct (Z.ltb_spec (os_mem_end (ls_os s)) (os_mem_start (ls_os s))); [lia|]. cbn [orb]. rewrite u64_small by lia.
  destruct (Z.ltb_spec (os_mem_end (ls_os s)) (os_mem_start (ls_os s) + Z.of_nat (length buf))); [lia|].
  rewrite Hst, Z.eqb_refl. cbn [negb]. replace (offset + os_mem_start (ls_os s)) with base by (subst base; lia).
  assert (Z.land base (- PAGE_SIZE) = base) as ->.
  { change (- PAGE_SIZE) with (- 2 ^ 12). rewrite land_neg_pow2 by lia. change (2 ^ 12) with PAGE_SIZE.
    pose proof (Z.div_mod base PAGE_SIZE ltac:(done)). lia. }
  destruct (load_pages_ok used c buf base Hc Hb Hr (S (length buf)) 0 (ls_mem s)) as (m' & E & A1 & A2).
  - pose proof (npages_bounds (Z.of_nat (length buf)) ltac:(lia)). unfold PAGE_SIZE in *. lia.
  - lia.
  - done.
  - unfold PAGE_SIZE. intros; lia.
  - replace (base + Z.of_nat 0 * PAGE_SIZE) with base in * by lia.
    replace (Z.min (Z.of_nat 0 * PAGE_SIZE) (Z.of_nat (length buf))) with (base - base) in E by lia.
    replace (Z.max 0 (Z.of_nat (length buf) - Z.of_nat 0 * PAGE_SIZE)) with (Z.of_nat (length buf)) in E by lia.
    rewrite E. cbn [mbind outcome_bind Z.eqb negb]. eexists. split; [done|]. split_and!; done.
Qed.

(** Result and some memory after loading a buffer. *)
Definition load_mem_bytes (buf : list Z) (offset a : Z) (n : Z) : outcome (Z * list Z) :=
  ' (ret, s) ← smp_ihk_os_load_mem [demo_chunk] buf offset demo_load; Ret (ret, ls_mem s <$> seqZ a n).

(** A buffer that is loaded to an address inside a page is read
    from that offset on and put to the start of the page: the copy reads
    behind the buffer. *)
Theorem load_mem_offset_overreads :
  load_mem_bytes [1; 2; 3] 0x1000 0x1000fff 5 = Ret (0, [255; 1; 2; 3; 255]) /\
  load_mem_bytes [1; 2; 3] 0x1001 0x1000fff 5 = Undef.
Proof. split; vm_compute; reflexivity. Qed.
