(* ===== verification/SmpBoot.v ===== *)
(** * Booting a kernel (src/linux/driver/smp/smp-driver.c)

    smp_ihk_os_boot builds the boot parameters of a kernel: a structure that
    is followed by one entry per CPU, NUMA node and memory chunk and by the
    distances between the nodes, all in pages of a size computed beforehand.
    Also the conversions between node numbers of Linux and of the kernel, the
    kernel arguments, and the creation of the driver's data of a kernel. *)

From stdpp Require Import base tactics numbers list gmap sorting.
From S2P Require Import Prelude Kmsg HostData SmpData SmpMem SmpCpu SmpOs SmpStatus SmpDump.

Open Scope ihk_scope.

(** ** Data *)

(** A pointer member: not set, to a live object, or to one that was freed. *)
Inductive cptr (A : Type) : Type :=
| PNull
| PLive (x : A)
| PFreed.
Arguments PNull {A}.
Arguments PLive {A} x.
Arguments PFreed {A}.

(** Reading through it. *)
Definition deref {A} (p : cptr A) : outcome A := match p with PLive x => Ret x | _ => Undef end.
(** kfree or free_pages of it; the member keeps its value. *)
Definition pfree {A} (p : cptr A) : cptr A := match p with PLive _ => PFreed | p => p end.

(** struct ihk_smp_boot_param_cpu, _numa_node and _memory_chunk *)
Record boot_param_cpu : Type := mk_bp_cpu { bc_numa_id : Z; bc_hw_id : Z; bc_linux_cpu_id : Z; bc_ikc_cpu : Z }.
Record boot_param_numa_node : Type := mk_bp_node { bn_type : Z; bn_linux_numa_id : Z }.
Record boot_param_memory_chunk : Type := mk_bp_chunk { bm_start : Z; bm_end : Z; bm_numa_id : Z }.

Definition IHK_SMP_MEMORY_TYPE_DRAM : Z := 1.
Definition PERF_EXTRA_REG_MAX : Z := 10.

(** struct smp_boot_param (without the fields that only name addresses of
    Linux or are filled by the kernel) and the arrays behind it *)
Record smp_boot_param : Type := mk_boot_param {
  bp_start : Z;
  bp_end : Z;
  bp_param_size : Z;
  bp_bootstrap_mem_end : Z;
  bp_msg_buffer : Z;
  bp_msg_buffer_size : Z;
  bp_apicids : list Z;
  bp_kernel_args : list Z;
  bp_nr_linux_cpus : Z;
  bp_nr_cpus : Z;
  bp_nr_numa_nodes : Z;
  bp_nr_memory_chunks : Z;
  bp_osnum : Z;
  bp_nr_extra_regs : Z;
  bp_dump_page_set : option ihk_dump_page_set;
  bp_cpus : list boot_param_cpu;
  bp_numa_nodes : list boot_param_numa_node;
  bp_memory_chunks : list boot_param_memory_chunk;
  bp_numa_distances : list Z
}.

(** The members of struct smp_os_data that booting uses besides [smp_os_data]. *)
Record boot_data : Type := mk_boot_data {
  bd_numa_mapping : cptr (list Z);
  bd_nr_numa_nodes : Z;
  bd_cpu_ikc_map : list Z;
  bd_param : cptr smp_boot_param;
  bd_param_pages_order : Z;
  bd_n_cpus : Z;
  bd_boot_cpu : Z;
  bd_bootstrap_mem_end : Z;
  bd_kernel_args : list Z
}.

(** What reaches a CPU: a write of the interrupt command register for an APIC
    id, the wake-up function of Linux's APIC driver, and CPU_ON of PSCI. *)
Inductive wake_cmd : Type :=
| IcrWrite (value apicid : Z)
| ApicWakeup (apicid start_eip : Z)
| CpuOn (affi start_eip : Z).

(** What waking a CPU meets: apic->wakeup_secondary_cpu if it is set,
    APIC_INTEGRATED of a CPU, safe_apic_wait_icr_idle after INIT and, with the
    error register, after the [j]th STARTUP; on arm64 ihk___cpu_logical_map and
    cpu_on of ihk_psci_ops. *)
Record wake_env : Type := mk_wake_env {
  wk_apic : option (Z -> Z -> Z);
  wk_integrated : Z -> bool;
  wk_init : Z;
  wk_startup : Z -> Z * Z;
  wk_logical_map : list Z;
  wk_cpu_on : Z -> Z -> Z
}.

(** What a boot finds of Linux: the size of struct smp_boot_param as built,
    node_distance, the extra registers of the PMU, the table of APIC ids, the
    physical address of the kernel's message buffer and the number of the
    kernel, whether the three allocations succeed, what waking a CPU meets, and
    trampoline_phys. *)
Record boot_env : Type := mk_boot_env {
  be_sizeof_param : Z;
  be_node_distance : Z -> Z -> Z;
  be_extra_regs : list Z;
  be_apicid : Z -> Z;
  be_msg_buffer : Z;
  be_osnum : Z;
  be_numa_mapping : bool;
  be_param_pages : bool;
  be_dump_pages : bool;
  be_wakeup : wake_env;
  be_trampoline : Z
}.

Definition BUILTIN_DEV_STATUS_BOOTING : Z := 1.

(** The driver during a boot: the status of the device, the kernel's data, and
    what was sent to CPUs. *)
Record bworld : Type := mk_bworld { bw_dev_status : Z; bw_os : smp_os_data; bw_boot : boot_data; bw_cmds : list wake_cmd }.

(** ** Waking a CPU *)

(** The values of Linux's apicdef.h *)
Definition APIC_INT_LEVELTRIG : Z := 0x8000.
Definition APIC_INT_ASSERT : Z := 0x4000.
Definition APIC_DM_INIT : Z := 0x500.
Definition APIC_DM_STARTUP : Z := 0x600.

(** The loop over the STARTUP IPIs, from the [j]th on, with send_status and
    accept_status. *)
Fixpoint startup_loop (k : wake_env) (n : nat) (j apicid start_eip : Z) (st : Z * Z) : Z * Z * list wake_cmd :=
  match n with
  | O => (st, [])
  | S n' =>
      let '(send_status, esr) := wk_startup k j in
      let accept_status := Z.land esr 0xef in
      let cmd := IcrWrite (Z.lor APIC_DM_STARTUP (Z.shiftr start_eip 12)) apicid in
      if negb (send_status =? 0) || negb (accept_status =? 0) then (send_status, accept_status, [cmd]) else
      let '(st, l) := startup_loop k n' (j + 1) apicid start_eip (send_status, accept_status) in (st, cmd :: l)
  end.

(** smp_wakeup_secondary_cpu_via_init, without the accesses of the error
    register of this CPU and the delays *)
Definition smp_wakeup_secondary_cpu_via_init (k : wake_env) (apicid start_eip : Z) : Z * list wake_cmd :=
  let num_starts := if wk_integrated k apicid then 2%nat else 0%nat in
  let '(send_status, accept_status, l) := startup_loop k num_starts 1 apicid start_eip (wk_init k, 0) in
  (s32 (Z.lor send_status accept_status),
   IcrWrite (Z.lor (Z.lor APIC_INT_LEVELTRIG APIC_INT_ASSERT) APIC_DM_INIT) apicid ::
   IcrWrite (Z.lor APIC_INT_LEVELTRIG APIC_DM_INIT) apicid :: l).

(** smp_wakeup_secondary_cpu of both architectures, on x86_64 without the warm
    reset vector *)
Definition smp_wakeup_secondary_cpu (a : smp_arch) (k : wake_env) (hw_id start_eip : Z) : Z * list wake_cmd :=
  match a with
  | X86_64 =>
      match wk_apic k with
      | Some f => (f hw_id start_eip, [ApicWakeup hw_id start_eip])
      | None => smp_wakeup_secondary_cpu_via_init k hw_id start_eip
      end
  | ARM64 _ =>
      if hw_id <? 0 then (- EINVAL, []) else
      match wk_logical_map k !! Z.to_nat hw_id with
      | None => (- EINVAL, [])
      | Some affi => (wk_cpu_on k affi start_eip, [CpuOn affi start_eip])
      end
  end.

(** ** NUMA nodes *)

(** find_next_bit on numa_mask; [n] bits are left. *)
Fixpoint find_bit (n : nat) (from : Z) (mask : gset Z) : Z :=
  match n with
  | O => from
  | S n' => if decide (from ∈ mask) then from else find_bit n' (from + 1) mask
  end.
Definition find_next_bit (mask : gset Z) (from : Z) : Z := find_bit (Z.to_nat (64 - from)) from mask.

(** The loop over the nodes of a mask. *)
Fixpoint each_node (fuel : nat) (mask : gset Z) (linux_numa_id : Z) : list Z :=
  match fuel with
  | O => []
  | S f => if linux_numa_id <? 64 then linux_numa_id :: each_node f mask (find_next_bit mask (linux_numa_id + 1)) else []
  end.
Definition numa_nodes (mask : gset Z) : list Z := each_node 65 mask (find_next_bit mask 0).

Definition hweight64 (mask : gset Z) : Z := Z.of_nat (length (filter (fun b => b ∈ mask) (seqZ 0 64))).

(** os->numa_mapping[numa_id] = linux_numa_id *)
Fixpoint fill_mapping (nodes : list Z) (numa_id : Z) (m : list Z) : outcome (list Z) :=
  match nodes with
  | [] => Ret m
  | n :: nodes' => m ← aset m numa_id n; fill_mapping nodes' (numa_id + 1) m
  end.

(** lwk_numa_2_linux_numa, linux_numa_2_lwk_numa on the mapping *)
Definition lwk_numa_2_linux_numa (nr : Z) (m : list Z) (numa_id : Z) : outcome Z :=
  if numa_id <? nr then aget m numa_id else Ret (-1).
Fixpoint find_numa (n : nat) (i : Z) (m : list Z) (numa_id : Z) : outcome Z :=
  match n with
  | O => Ret (-1)
  | S n' => x ← aget m i; if x =? numa_id then Ret i else find_numa n' (i + 1) m numa_id
  end.
Definition linux_numa_2_lwk_numa (nr : Z) (m : list Z) (numa_id : Z) : outcome Z :=
  find_numa (Z.to_nat nr) 0 m numa_id.

(** ** Filling the boot parameters *)

(** *bp++ = x: the pointer is the offset in pages of [limit] bytes. *)
Definition emit {A} (limit size : Z) (x : A) (st : Z * list A) : outcome (Z * list A) :=
  let '(off, l) := st in
  if off + size <=? limit then Ret (off + size, l ++ [x]) else Undef.

Definition sizeof_bp_cpu : Z := 16.
Definition sizeof_bp_node : Z := 8.
Definition sizeof_bp_chunk : Z := 24.
Definition sizeof_int : Z := 4.

Section fill.
Context `{SmpEnv}.
Context (limit : Z) (o : smp_os_data) (cpu : cpust) (used : list ihk_os_mem_chunk) (os : Z).
(** os->nr_numa_nodes and os->numa_mapping *)
Context (nr : Z) (m : list Z).

(** The loop over the CPUs; also fills os->cpu_ikc_map. *)
Fixpoint fill_cpus (n : nat) (lwk_cpu : Z) (ikc : list Z) (st : Z * list boot_param_cpu)
    : outcome (list Z * (Z * list boot_param_cpu)) :=
  match n with
  | O => Ret (ikc, st)
  | S n' =>
      linux ← aget (os_cpu_mapping o) lwk_cpu;
      numa ← linux_numa_2_lwk_numa nr m (cpu_to_node linux);
      hw ← aget (os_cpu_hw_ids o) lwk_cpu;
      l ← lwk_cpu_2_linux_cpu o lwk_cpu;
      c ← aget (cpus cpu) l;
      ikc ← aset ikc lwk_cpu (cpu_ikc_map c);
      st ← emit limit sizeof_bp_cpu (mk_bp_cpu numa hw linux (cpu_ikc_map c)) st;
      fill_cpus n' (lwk_cpu + 1) ikc st
  end.

(** The loop over the nodes. *)
Fixpoint fill_nodes (nodes : list Z) (st : Z * list boot_param_numa_node) : outcome (Z * list boot_param_numa_node) :=
  match nodes with
  | [] => Ret st
  | n :: nodes' => st ← emit limit sizeof_bp_node (mk_bp_node IHK_SMP_MEMORY_TYPE_DRAM n) st; fill_nodes nodes' st
  end.

(** The loops over the nodes and the chunks. *)
Fixpoint fill_node_chunks (node : Z) (l : list ihk_os_mem_chunk) (st : Z * list boot_param_memory_chunk)
    : outcome (Z * list boot_param_memory_chunk) :=
  match l with
  | [] => Ret st
  | c :: l' =>
      if negb (oc_os c =? os) || negb (oc_numa c =? node) then fill_node_chunks node l' st else
      numa ← linux_numa_2_lwk_numa nr m (oc_numa c);
      st ← emit limit sizeof_bp_chunk (mk_bp_chunk (oc_addr c) (u64 (oc_addr c + oc_size c)) numa) st;
      fill_node_chunks node l' st
  end.
Fixpoint fill_chunks (nodes : list Z) (st : Z * list boot_param_memory_chunk) : outcome (Z * list boot_param_memory_chunk) :=
  match nodes with
  | [] => Ret st
  | n :: nodes' => st ← fill_node_chunks n used st; fill_chunks nodes' st
  end.

(** The loops over pairs of nodes. *)
Context (node_distance : Z -> Z -> Z).
Fixpoint fill_row (n : nat) (i j : Z) (st : Z * list Z) : outcome (Z * list Z) :=
  match n with
  | O => Ret st
  | S n' =>
      a ← lwk_numa_2_linux_numa nr m i;
      b ← lwk_numa_2_linux_numa nr m j;
      st ← emit limit sizeof_int (node_distance a b) st;
      fill_row n' i (j + 1) st
  end.
Fixpoint fill_distances (n : nat) (i : Z) (st : Z * list Z) : outcome (Z * list Z) :=
  match n with
  | O => Ret st
  | S n' => st ← fill_row (Z.to_nat nr) i 0 st; fill_distances n' (i + 1) st
  end.
End fill.

(** smp_ihk_arch_get_perf_event_map with ENABLE_PERF on x86_64: the copy of
    the registers comes before the check of their number. *)
Fixpoint copy_regs (l : list Z) (i : Z) (ereg : list Z) : outcome (list Z) :=
  match l with
  | [] => Ret ereg
  | r :: l' => ereg ← aset ereg i r; copy_regs l' (i + 1) ereg
  end.
Definition smp_ihk_arch_get_perf_event_map (a : smp_arch) (regs : list Z) : outcome (Z * Z) :=
  match a with
  | X86_64 =>
      _ ← copy_regs regs 0 (replicate (Z.to_nat PERF_EXTRA_REG_MAX) 0);
      let er_cnt := Z.of_nat (length regs) in
      if PERF_EXTRA_REG_MAX <? er_cnt then Ret (- EINVAL, 0) else Ret (0, er_cnt)
  | ARM64 _ => Ret (0, 0)
  end.

(** The loop of smp_ihk_setup_trampoline over the CPUs of Linux. *)
Fixpoint fill_apicids (n : nat) (i : Z) (apicid : Z -> Z) (l : list Z) : outcome (list Z) :=
  match n with
  | O => Ret l
  | S n' => l ← aset l i (apicid i); fill_apicids n' (i + 1) apicid l
  end.

(** strncpy to an array of [n] characters *)
Fixpoint strncpy (n : nat) (src : list Z) : list Z :=
  match n, src with
  | O, _ => []
  | S n', c :: src' => if c =? 0 then replicate n 0 else c :: strncpy n' src'
  | _, [] => replicate n 0
  end.

(** ** smp_ihk_os_boot *)

Definition my_chunks (os : Z) (used : list ihk_os_mem_chunk) : list ihk_os_mem_chunk := filter (fun c => oc_os c = os) used.

(** param_size, an int, rounded up to pages *)
Definition boot_param_size (sizeof_param nr_cpus nr_numa_nodes nr_memory_chunks : Z) : Z :=
  let size := s32 (sizeof_param + nr_cpus * sizeof_bp_cpu + nr_numa_nodes * sizeof_bp_node +
                   nr_numa_nodes * nr_numa_nodes * sizeof_int + nr_memory_chunks * sizeof_bp_chunk) in
  s32 (Z.land (size + PAGE_SIZE - 1) (- PAGE_SIZE)).

(** smp_ihk_setup_trampoline, the part that writes arrays of the boot
    parameters (x86_64) *)
Definition smp_ihk_setup_trampoline (a : smp_arch) (nr_cpu_ids : Z) (apicid : Z -> Z) : outcome (list Z) :=
  match a with
  | X86_64 => fill_apicids (Z.to_nat nr_cpu_ids) 0 apicid (replicate (Z.to_nat SMP_MAX_CPUS) 0)
  | ARM64 _ => Ret []
  end.

(** The labels free_numa_mapping and free_param_pages *)
Definition bd_mapping (b : boot_data) (p : cptr (list Z)) : boot_data :=
  mk_boot_data p (bd_nr_numa_nodes b) (bd_cpu_ikc_map b) (bd_param b) (bd_param_pages_order b) (bd_n_cpus b)
    (bd_boot_cpu b) (bd_bootstrap_mem_end b) (bd_kernel_args b).
Definition free_numa_mapping (b : boot_data) : boot_data := bd_mapping b (pfree (bd_numa_mapping b)).
Definition free_param_pages (b : boot_data) : boot_data :=
  mk_boot_data (bd_numa_mapping b) (bd_nr_numa_nodes b) (bd_cpu_ikc_map b) (pfree (bd_param b)) (bd_param_pages_order b)
    (bd_n_cpus b) (bd_boot_cpu b) (bd_bootstrap_mem_end b) (bd_kernel_args b).

Definition with_boot (w : bworld) (b : boot_data) : bworld := mk_bworld (bw_dev_status w) (bw_os w) b (bw_cmds w).

Section boot.
Context `{SmpEnv}.

(** From the allocation of the boot parameters on: [m] is the mapping of
    the nodes, [order] that of the parameter pages. *)
Definition boot_with_param (e : boot_env) (os : Z) (used : list ihk_os_mem_chunk) (cpu : cpust) (w : bworld)
    (nr : Z) (m : list Z) (psize order : Z) : outcome (Z * bworld) :=
  let o := bw_os w in
  let b := bw_boot w in
  let nr_chunks := Z.of_nat (length (my_chunks os used)) in
  let limit := Z.shiftl PAGE_SIZE order in
  let param cpus nodes chunks distances apicids nr_extra_regs ds args :=
    mk_boot_param (os_mem_start o) (os_mem_end o) psize (bd_bootstrap_mem_end b) (be_msg_buffer e) sizeof_kmsg_buf
      apicids args nr_cpu_ids (os_nr_cpus o) nr nr_chunks (be_osnum e) nr_extra_regs ds cpus nodes chunks distances in
  let booted n_cpus boot_cpu ikc p :=
    mk_boot_data (PLive m) nr ikc (PLive p) order n_cpus boot_cpu (bd_bootstrap_mem_end b) (bd_kernel_args b) in
  let undo b := free_numa_mapping (free_param_pages b) in
  ' (ret, nr_regs) ← smp_ihk_arch_get_perf_event_map arch (be_extra_regs e);
  if negb (ret =? 0) then
    Ret (ret, with_boot w (undo (booted (bd_n_cpus b) (bd_boot_cpu b) (bd_cpu_ikc_map b)
                                   (param [] [] [] [] [] 0 None []))))
  else
  ' (ikc, (off, cpus)) ← fill_cpus limit o cpu nr m (Z.to_nat (os_nr_cpus o)) 0 (bd_cpu_ikc_map b) (be_sizeof_param e, []);
  ' (off, nodes) ← fill_nodes limit (numa_nodes (os_numa_mask o)) (off, []);
  ' (off, chunks) ← fill_chunks limit used os nr m (numa_nodes (os_numa_mask o)) (off, []);
  ' (_, distances) ← fill_distances limit nr m (be_node_distance e) (Z.to_nat nr) 0 (off, []);
  if os_nr_cpus o <? 1 then
    Ret (- EINVAL, mk_bworld BUILTIN_DEV_STATUS_READY o
           (undo (booted (os_nr_cpus o) (bd_boot_cpu b) ikc (param cpus nodes chunks distances [] nr_regs None []))) (bw_cmds w))
  else
  boot_cpu ← aget (os_cpu_hw_ids o) 0;
  apicids ← smp_ihk_setup_trampoline arch nr_cpu_ids (be_apicid e);
  (* kfree(os) comes before the members of os are reset *)
  if negb (be_dump_pages e) then Undef else
  ds ← dump_init os used;
  let '(ret, cmds) := smp_wakeup_secondary_cpu arch (be_wakeup e) boot_cpu (be_trampoline e) in
  Ret (ret, mk_bworld BUILTIN_DEV_STATUS_BOOTING (osd_set_status o BUILTIN_OS_STATUS_BOOTING)
         (booted (os_nr_cpus o) boot_cpu ikc
            (param cpus nodes chunks distances apicids nr_regs (Some ds) (strncpy 256 (bd_kernel_args b)))) (bw_cmds w ++ cmds)).

(** From the filled mapping on. *)
Definition boot_mapped (e : boot_env) (os : Z) (used : list ihk_os_mem_chunk) (cpu : cpust) (w : bworld)
    (nr : Z) (m : list Z) : outcome (Z * bworld) :=
  let psize := boot_param_size (be_sizeof_param e) (os_nr_cpus (bw_os w)) nr (Z.of_nat (length (my_chunks os used))) in
  order ← pages_order 64 0 (u64 psize);
  if negb (be_param_pages e) then Ret (- ENOMEM, with_boot w (free_numa_mapping (bw_boot w))) else
  boot_with_param e os used cpu w nr m psize order.

Definition smp_ihk_os_boot (e : boot_env) (os : Z) (used : list ihk_os_mem_chunk) (cpu : cpust) (w : bworld)
    : outcome (Z * bworld) :=
  if negb (bw_dev_status w =? BUILTIN_DEV_STATUS_READY) then Ret (- EBUSY, w) else
  if os_status (bw_os w) =? BUILTIN_OS_STATUS_BOOTING then Ret (- EBUSY, w) else
  if negb (be_numa_mapping e) then Ret (- ENOMEM, with_boot w (bd_mapping (bw_boot w) PNull)) else
  let nr := hweight64 (os_numa_mask (bw_os w)) in
  m ← fill_mapping (numa_nodes (os_numa_mask (bw_os w))) 0 (replicate (Z.to_nat nr) 0);
  boot_mapped e os used cpu (with_boot w (bd_mapping (bw_boot w) (PLive m))) nr m.
End boot.

(** ** Kernel arguments *)

(** smp_ihk_os_set_kargs *)
Definition smp_ihk_os_set_kargs (buf : list Z) (w : bworld) : Z * bworld :=
  if negb (os_status (bw_os w) =? BUILTIN_OS_STATUS_INITIAL) then (- EBUSY, w) else
  let b := bw_boot w in
  (0, mk_bworld (bw_dev_status w) (osd_set_status (bw_os w) BUILTIN_OS_STATUS_INITIAL)
        (mk_boot_data (bd_numa_mapping b) (bd_nr_numa_nodes b) (bd_cpu_ikc_map b) (bd_param b) (bd_param_pages_order b)
           (bd_n_cpus b) (bd_boot_cpu b) (bd_bootstrap_mem_end b) (strncpy 255 buf ++ [0])) (bw_cmds w)).

(** ** Lemmas *)

(** The loop over a mask visits its bits in order. *)
Lemma each_node_ok mask k : forall fuel from,
  from + Z.of_nat k = 64 -> (k < fuel)%nat ->
  each_node fuel mask (find_bit k from mask) = filter (fun b => b ∈ mask) (seqZ from (Z.of_nat k)).
Proof.
  induction k as [|k IH]; intros [|fuel] from Hk Hf; try lia; cbn [find_bit].
  { cbn [each_node]. destruct (Z.ltb_spec from 64); [lia|done]. }
  rewrite seqZ_cons by lia. replace (Z.pred (Z.of_nat (S k))) with (Z.of_nat k) by lia. unfold Z.succ.
  destruct (decide (from ∈ mask)) as [Hin|Hin].
  - rewrite filter_cons_True by done. cbn [each_node]. destruct (Z.ltb_spec from 64); [|lia].
    f_equal. unfold find_next_bit. replace (Z.to_nat _) with k by lia. apply IH; lia.
  - rewrite filter_cons_False by done. apply IH; lia.
Qed.

Lemma numa_nodes_spec mask : numa_nodes mask = filter (fun b => b ∈ mask) (seqZ 0 64).
Proof. unfold numa_nodes, find_next_bit. apply (each_node_ok mask 64); lia. Qed.

Lemma numa_nodes_elem mask x : x ∈ numa_nodes mask <-> x ∈ mask /\ 0 <= x < 64.
Proof. rewrite numa_nodes_spec, list_elem_of_filter, elem_of_seqZ. naive_solver lia. Qed.

Lemma numa_nodes_NoDup mask : NoDup (numa_nodes mask).
Proof. rewrite numa_nodes_spec. apply NoDup_filter, NoDup_seqZ. Qed.

Lemma hweight64_nodes mask : hweight64 mask = Z.of_nat (length (numa_nodes mask)).
Proof. unfold hweight64. by rewrite numa_nodes_spec. Qed.

Lemma fill_mapping_ok nodes : forall pre,
  fill_mapping nodes (Z.of_nat (length pre)) (pre ++ replicate (length nodes) 0) = Ret (pre ++ nodes).
Proof.
  induction nodes as [|n nodes IH]; intros pre; cbn [fill_mapping length replicate]; [done|].
  rewrite <- (Z.add_0_r (Z.of_nat (length pre))) at 1. rewrite (aset_app pre _ 0) by (simpl; lia).
  cbn [mbind outcome_bind insert list_insert]. specialize (IH (pre ++ [n])).
  rewrite length_app, <- !app_assoc in IH. cbn [length app] in IH. rewrite <- IH. f_equal. lia.
Qed.

Lemma fill_mapping_all nodes : fill_mapping nodes 0 (replicate (length nodes) 0) = Ret nodes.
Proof. apply (fill_mapping_ok nodes []). Qed.

Lemma find_numa_ok m x i : NoDup m -> m !! i = Some x -> forall n j,
  (j + n = length m)%nat -> (j <= i)%nat -> find_numa n (Z.of_nat j) m x = Ret (Z.of_nat i).
Proof.
  intros Hd Hi. induction n as [|n IH]; intros j Hn Hj; cbn [find_numa].
  { apply lookup_lt_Some in Hi. lia. }
  destruct (lookup_lt_is_Some_2 m j) as [y Hy]; [lia|].
  rewrite (proj2 (aget_Ret _ _ y)) by (rewrite Nat2Z.id; split; [lia|done]). cbn [mbind outcome_bind].
  destruct (Z.eqb_spec y x) as [->|Hne].
  - by rewrite (NoDup_lookup m i j x Hd Hi Hy).
  - replace (Z.of_nat j + 1) with (Z.of_nat (S j)) by lia. apply IH; [lia|].
    destruct (decide (i = j)) as [->|]; [congruence|lia].
Qed.

Lemma numa_roundtrip m x i :
  NoDup m -> m !! i = Some x -> linux_numa_2_lwk_numa (Z.of_nat (length m)) m x = Ret (Z.of_nat i).
Proof. intros Hd Hi. unfold linux_numa_2_lwk_numa. rewrite Nat2Z.id. by apply (find_numa_ok m x i Hd Hi _ 0); lia. Qed.

Lemma lwk_to_linux m i x :
  m !! i = Some x -> lwk_numa_2_linux_numa (Z.of_nat (length m)) m (Z.of_nat i) = Ret x.
Proof.
  intros Hi. pose proof (lookup_lt_Some _ _ _ Hi). unfold lwk_numa_2_linux_numa.
  destruct (Z.ltb_spec (Z.of_nat i) (Z.of_nat (length m))); [|lia].
  apply aget_Ret. rewrite Nat2Z.id. split; [lia|done].
Qed.

Lemma emit_ok {A} limit size (x : A) off l :
  off + size <= limit -> emit limit size x (off, l) = Ret (off + size, l ++ [x]).
Proof. intros. unfold emit. by rewrite (proj2 (Z.leb_le _ _)) by done. Qed.

(** Grouping a list by a key that takes the values of [ks]. *)
Lemma group_by {A} (key : A -> Z) ks : forall l,
  NoDup ks -> Forall (fun x => key x ∈ ks) l ->
  concat ((fun k => filter (fun x => key x = k) l) <$> ks) ≡ₚ l.
Proof.
  induction ks as [|k ks IH]; intros l Hd Hl; cbn [fmap list_fmap concat].
  { destruct l as [|x l]; [done|]. apply Forall_cons in Hl as [Hx _]. by apply elem_of_nil in Hx. }
  apply NoDup_cons in Hd as [Hk Hd].
  etrans; [|apply (filter_app_complement (fun x => key x = k) l)]. apply Permutation_app; [done|].
  rewrite <- (IH (filter (fun x => ¬ key x = k) l)); [|done|].
  - apply eq_subrelation; [apply _|]. f_equal. apply list_fmap_ext. intros i k' Hi%list_elem_of_lookup_2.
    rewrite list_filter_filter. apply list_filter_iff. intros x. split; [|tauto]. intros E. split; [done|]. intros E2. apply Hk. by rewrite <- E2, E.
  - apply Forall_forall. intros x [Hx Hin]%list_elem_of_filter. rewrite Forall_forall in Hl.
    specialize (Hl x Hin). apply elem_of_cons in Hl. tauto.
Qed.

(** ** The loops that fill the boot parameters *)

Section fill_ok.
Context `{SmpEnv}.
Context (limit : Z) (o : smp_os_data) (cpu : cpust) (used : list ihk_os_mem_chunk) (os : Z) (m : list Z) (Hm : NoDup m).
Abbreviation nr := (Z.of_nat (length m)).

(** Entry [e] of kernel CPU [i], with os->cpu_ikc_map at the end *)
Definition cpu_entry (ikc : list Z) (i : nat) (e : boot_param_cpu) : Prop :=
  os_cpu_mapping o !! i = Some (bc_linux_cpu_id e) /\ os_cpu_hw_ids o !! i = Some (bc_hw_id e) /\
  (exists c, tbl cpu (bc_linux_cpu_id e) = Some c /\ bc_ikc_cpu e = cpu_ikc_map c) /\
  ikc !! i = Some (bc_ikc_cpu e) /\
  0 <= bc_numa_id e /\ m !! Z.to_nat (bc_numa_id e) = Some (cpu_to_node (bc_linux_cpu_id e)).

(** CPU [i] can be described. *)
Definition cpu_known (i : nat) : Prop :=
  exists x hw c, os_cpu_mapping o !! i = Some x /\ os_cpu_hw_ids o !! i = Some hw /\ tbl cpu x = Some c /\
    cpu_to_node x ∈ m.

Lemma tbl_aget x c : tbl cpu x = Some c -> aget (cpus cpu) x = Ret c.
Proof using. unfold tbl, aget. destruct (Z.leb_spec 0 x); [|done]. by intros ->. Qed.

Lemma fill_cpus_ok n : forall j ikc off l,
  (Z.of_nat (j + n) <= os_nr_cpus o) -> (j + n <= length ikc)%nat ->
  (forall i, (j <= i < j + n)%nat -> cpu_known i) -> off + sizeof_bp_cpu * Z.of_nat n <= limit ->
  exists ikc' es, fill_cpus limit o cpu nr m n (Z.of_nat j) ikc (off, l) =
      Ret (ikc', (off + sizeof_bp_cpu * Z.of_nat n, l ++ es)) /\
    length ikc' = length ikc /\ (forall i, (i < j)%nat -> ikc' !! i = ikc !! i) /\
    Forall2 (cpu_entry ikc') (seq j n) es.
Proof using Hm.
  induction n as [|n IH]; intros j ikc off l Hn Hlen Hk Hoff; cbn [fill_cpus].
  { exists ikc, []. rewrite app_nil_r, Z.mul_0_r, Z.add_0_r. split_and!; done || constructor. }
  destruct (Hk j) as (x & hw & c & Hx & Hhw & Hc & [i Hi]%list_elem_of_lookup); [lia|].
  rewrite (proj2 (aget_Ret (os_cpu_mapping o) (Z.of_nat j) x)) by (rewrite Nat2Z.id; split; [lia|done]).
  cbn [mbind outcome_bind]. rewrite (numa_roundtrip m _ i Hm Hi). cbn [mbind outcome_bind].
  rewrite (proj2 (aget_Ret (os_cpu_hw_ids o) (Z.of_nat j) hw)) by (rewrite Nat2Z.id; split; [lia|done]).
  cbn [mbind outcome_bind]. unfold lwk_cpu_2_linux_cpu. destruct (Z.ltb_spec (Z.of_nat j) (os_nr_cpus o)); [|lia].
  rewrite (proj2 (aget_Ret (os_cpu_mapping o) (Z.of_nat j) x)) by (rewrite Nat2Z.id; split; [lia|done]).
  cbn [mbind outcome_bind]. rewrite (tbl_aget x c Hc). cbn [mbind outcome_bind].
  rewrite aset_in by lia. cbn [mbind outcome_bind]. rewrite Nat2Z.id.
  rewrite emit_ok by (unfold sizeof_bp_cpu in *; lia). cbn [mbind outcome_bind].
  replace (Z.of_nat j + 1) with (Z.of_nat (S j)) by lia.
  destruct (IH (S j) (<[j := cpu_ikc_map c]> ikc) (off + sizeof_bp_cpu) (l ++ [mk_bp_cpu (Z.of_nat i) hw x (cpu_ikc_map c)]))
    as (ikc' & es & -> & Hl & Hlow & Hes); [lia|rewrite length_insert; lia|intros; apply Hk; lia| |].
  { unfold sizeof_bp_cpu in *. lia. }
  exists ikc', (mk_bp_cpu (Z.of_nat i) hw x (cpu_ikc_map c) :: es). rewrite length_insert in Hl. split_and!.
  - rewrite <- app_assoc. cbn [app]. do 3 f_equal. unfold sizeof_bp_cpu. lia.
  - done.
  - intros k Hk'. rewrite Hlow, list_lookup_insert_ne by lia. done.
  - cbn [seq]. constructor; [|done]. unfold cpu_entry. cbn [bc_linux_cpu_id bc_hw_id bc_ikc_cpu bc_numa_id].
    rewrite Nat2Z.id, Hlow, list_lookup_insert_eq by lia. split_and!; eauto with lia.
Qed.

Lemma fill_nodes_ok nodes : forall off l,
  off + sizeof_bp_node * Z.of_nat (length nodes) <= limit ->
  fill_nodes limit nodes (off, l) =
    Ret (off + sizeof_bp_node * Z.of_nat (length nodes), l ++ (mk_bp_node IHK_SMP_MEMORY_TYPE_DRAM <$> nodes)).
Proof using.
  unfold sizeof_bp_node. induction nodes as [|n nodes IH]; intros off l Hoff; cbn [fill_nodes fmap list_fmap length] in *.
  { by rewrite app_nil_r, Z.mul_0_r, Z.add_0_r. }
  rewrite emit_ok by (unfold sizeof_bp_node; lia). cbn [mbind outcome_bind]. unfold sizeof_bp_node.
  rewrite IH by lia. rewrite <- app_assoc. cbn [app]. do 2 f_equal. lia.
Qed.

(** Entry [e] of chunk [c] *)
Definition chunk_entry (c : ihk_os_mem_chunk) (e : boot_param_memory_chunk) : Prop :=
  bm_start e = oc_addr c /\ bm_end e = u64 (oc_addr c + oc_size c) /\
  0 <= bm_numa_id e /\ m !! Z.to_nat (bm_numa_id e) = Some (oc_numa c).

Definition on_numa (node : Z) (l : list ihk_os_mem_chunk) : list ihk_os_mem_chunk :=
  filter (fun c => oc_numa c = node) (my_chunks os l).

Lemma fill_node_chunks_ok node l : forall off es0,
  node ∈ m -> off + sizeof_bp_chunk * Z.of_nat (length (on_numa node l)) <= limit ->
  exists es, fill_node_chunks limit os nr m node l (off, es0) =
      Ret (off + sizeof_bp_chunk * Z.of_nat (length (on_numa node l)), es0 ++ es) /\
    Forall2 chunk_entry (on_numa node l) es.
Proof using Hm.
  unfold sizeof_bp_chunk. induction l as [|c l IH]; intros off es0 Hn Hoff; cbn [fill_node_chunks].
  { exists []. unfold on_numa. simpl. rewrite app_nil_r, Z.add_0_r. split; [done|constructor]. }
  unfold on_numa, my_chunks in *. destruct (decide (oc_os c = os)) as [E|E].
  2: { rewrite (filter_cons_False (fun c => oc_os c = os)) in * by done.
       rewrite (proj2 (Z.eqb_neq _ _) E). cbn [negb orb]. apply IH; done. }
  rewrite (filter_cons_True (fun c => oc_os c = os)) in * by done. rewrite (proj2 (Z.eqb_eq _ _) E). cbn [negb orb].
  destruct (decide (oc_numa c = node)) as [E2|E2].
  2: { rewrite filter_cons_False in * by done. rewrite (proj2 (Z.eqb_neq _ _) E2). cbn [negb]. apply IH; done. }
  rewrite filter_cons_True in * by done. rewrite (proj2 (Z.eqb_eq _ _) E2). cbn [negb length] in *.
  destruct (proj1 (list_elem_of_lookup _ _) Hn) as [i Hi].
  rewrite E2, (numa_roundtrip m _ i Hm Hi). cbn [mbind outcome_bind].
  rewrite emit_ok by (unfold sizeof_bp_chunk; lia). cbn [mbind outcome_bind]. unfold sizeof_bp_chunk.
  edestruct IH as (es & -> & Hes); [done| |].
  2: { eexists (_ :: es). rewrite <- app_assoc. cbn [app]. split; [do 2 f_equal; lia|].
       constructor; [|done]. unfold chunk_entry. cbn. rewrite Nat2Z.id, E2. auto with lia. }
  lia.
Qed.

Definition by_node (nodes : list Z) : list ihk_os_mem_chunk := concat ((fun n => on_numa n used) <$> nodes).

Lemma fill_chunks_ok nodes : forall off es0,
  Forall (fun n => n ∈ m) nodes -> off + sizeof_bp_chunk * Z.of_nat (length (by_node nodes)) <= limit ->
  exists es, fill_chunks limit used os nr m nodes (off, es0) =
      Ret (off + sizeof_bp_chunk * Z.of_nat (length (by_node nodes)), es0 ++ es) /\
    Forall2 chunk_entry (by_node nodes) es.
Proof using Hm.
  induction nodes as [|n nodes IH]; intros off es0 Hn Hoff; cbn [fill_chunks].
  { exists []. unfold by_node. simpl. rewrite app_nil_r, Z.mul_0_r, Z.add_0_r. split; [done|constructor]. }
  apply Forall_cons in Hn as [Hn Hns]. unfold by_node in *. cbn [fmap list_fmap concat] in *.
  rewrite length_app, Nat2Z.inj_add in *. unfold sizeof_bp_chunk in *.
  destruct (fill_node_chunks_ok n used off es0 Hn) as (es1 & -> & H1); [unfold sizeof_bp_chunk; lia|].
  cbn [mbind outcome_bind]. unfold sizeof_bp_chunk.
  edestruct (IH (off + 24 * Z.of_nat (length (on_numa n used)))) as (es2 & -> & H2); [done|lia|].
  exists (es1 ++ es2). rewrite app_assoc. split; [do 2 f_equal; lia|]. by apply Forall2_app.
Qed.

Context (nd : Z -> Z -> Z).

Lemma fill_row_ok i a n : forall j off l,
  m !! i = Some a -> (j + n = length m)%nat -> off + sizeof_int * Z.of_nat n <= limit ->
  fill_row limit nr m nd n (Z.of_nat i) (Z.of_nat j) (off, l) =
    Ret (off + sizeof_int * Z.of_nat n, l ++ (nd a <$> drop j m)).
Proof using.
  unfold sizeof_int. induction n as [|n IH]; intros j off l Ha Hj Hoff; cbn [fill_row].
  { rewrite drop_ge by lia. by rewrite app_nil_r, Z.mul_0_r, Z.add_0_r. }
  destruct (lookup_lt_is_Some_2 m j) as [b Hb]; [lia|].
  rewrite (lwk_to_linux m i a Ha), (lwk_to_linux m j b Hb). cbn [mbind outcome_bind].
  rewrite emit_ok by (unfold sizeof_int; lia). cbn [mbind outcome_bind]. unfold sizeof_int.
  replace (Z.of_nat j + 1) with (Z.of_nat (S j)) by lia. rewrite IH by (done || lia).
  rewrite (drop_S m b j Hb), <- app_assoc. cbn [fmap list_fmap app]. do 2 f_equal. lia.
Qed.

(** node_distance of all pairs, row by row *)
Definition distance_matrix (rows : list Z) : list Z := concat ((fun a => nd a <$> m) <$> rows).

Lemma fill_distances_ok n : forall i off l,
  (i + n = length m)%nat -> off + sizeof_int * (Z.of_nat n * nr) <= limit ->
  fill_distances limit nr m nd n (Z.of_nat i) (off, l) =
    Ret (off + sizeof_int * (Z.of_nat n * nr), l ++ distance_matrix (drop i m)).
Proof using.
  unfold sizeof_int, distance_matrix. induction n as [|n IH]; intros i off l Hi Hoff; cbn [fill_distances].
  { rewrite drop_ge by lia. rewrite app_nil_r. do 2 f_equal. lia. }
  destruct (lookup_lt_is_Some_2 m i) as [a Ha]; [lia|].
  rewrite Nat2Z.id, (fill_row_ok i a (length m) 0) by (unfold sizeof_int; done || lia).
  cbn [mbind outcome_bind]. unfold sizeof_int. rewrite drop_0.
  replace (Z.of_nat i + 1) with (Z.of_nat (S i)) by lia. rewrite IH by lia.
  rewrite (drop_S m a i Ha), <- app_assoc. cbn [fmap list_fmap concat]. do 2 f_equal. lia.
Qed.
End fill_ok.

Lemma copy_regs_ok l : forall i ereg,
  (Z.to_nat i + length l <= length ereg)%nat -> 0 <= i -> exists ereg', copy_regs l i ereg = Ret ereg'.
Proof.
  induction l as [|r l IH]; intros i ereg Hl Hi; cbn [copy_regs]; [by eexists|]. simpl in Hl.
  rewrite aset_in by lia. cbn [mbind outcome_bind]. apply IH; [rewrite length_insert|]; lia.
Qed.

Lemma perf_event_map_ok a regs :
  Z.of_nat (length regs) <= PERF_EXTRA_REG_MAX -> exists n, smp_ihk_arch_get_perf_event_map a regs = Ret (0, n).
Proof.
  unfold PERF_EXTRA_REG_MAX. intros Hl. destruct a; [|by eexists]. cbn [smp_ihk_arch_get_perf_event_map].
  destruct (copy_regs_ok regs 0 (replicate (Z.to_nat PERF_EXTRA_REG_MAX) 0)) as [e ->];
    [rewrite length_replicate; unfold PERF_EXTRA_REG_MAX; lia|lia|].
  cbn [mbind outcome_bind]. rewrite (proj2 (Z.ltb_ge _ _)) by done. by eexists.
Qed.

Lemma fill_apicids_ok apicid n : forall i l,
  0 <= i -> (Z.to_nat i + n <= length l)%nat -> exists l', fill_apicids n i apicid l = Ret l'.
Proof.
  induction n as [|n IH]; intros i l Hi Hl; cbn [fill_apicids]; [by eexists|].
  rewrite aset_in by lia. cbn [mbind outcome_bind]. apply IH; [|rewrite length_insert]; lia.
Qed.

Lemma setup_trampoline_ok a n apicid :
  0 <= n <= SMP_MAX_CPUS -> exists l, smp_ihk_setup_trampoline a n apicid = Ret l.
Proof.
  unfold SMP_MAX_CPUS. intros Hn. destruct a; [|by eexists].
  apply fill_apicids_ok; [lia|]. rewrite length_replicate. unfold SMP_MAX_CPUS. lia.
Qed.

(** ** Booting *)

Section boot_params.
Context `{SmpEnv}.
Context (e : boot_env) (os : Z) (used : list ihk_os_mem_chunk) (cpu : cpust) (w : bworld).
Abbreviation o := (bw_os w).
Abbreviation nodes := (numa_nodes (os_numa_mask o)).

(** The bytes that the structure and the arrays take. *)
Definition boot_bytes : Z :=
  be_sizeof_param e + os_nr_cpus o * sizeof_bp_cpu + Z.of_nat (length nodes) * sizeof_bp_node +
  Z.of_nat (length nodes) * Z.of_nat (length nodes) * sizeof_int +
  Z.of_nat (length (my_chunks os used)) * sizeof_bp_chunk.

(** A kernel that can boot: it has CPUs, its node mask covers its CPUs and
    chunks, nothing that Linux does for it fails, and the bitmaps of all used
    chunks (also those of other kernels) fit the pages for its dump. *)
Record bootable : Prop := {
  bk_dev : bw_dev_status w = BUILTIN_DEV_STATUS_READY;
  bk_status : os_status o <> BUILTIN_OS_STATUS_BOOTING;
  bk_allocs : be_numa_mapping e = true /\ be_param_pages e = true /\ be_dump_pages e = true;
  bk_cpus : 1 <= os_nr_cpus o <= SMP_MAX_CPUS;
  bk_ikc : length (bd_cpu_ikc_map (bw_boot w)) = Z.to_nat SMP_MAX_CPUS;
  bk_known : forall i, (i < Z.to_nat (os_nr_cpus o))%nat -> cpu_known o cpu nodes i;
  bk_chunks : Forall (fun c => oc_numa c ∈ nodes) (my_chunks os used);
  bk_size : 0 <= be_sizeof_param e /\ boot_bytes + PAGE_SIZE <= 2 ^ 31;
  bk_linux : 0 <= nr_cpu_ids <= SMP_MAX_CPUS;
  bk_regs : Z.of_nat (length (be_extra_regs e)) <= PERF_EXTRA_REG_MAX;
  bk_dump : Forall sized used /\ (my_chunks os used = [] \/ 8 * Z.of_nat (words used) <= dump_page_bytes os used)
}.

(** The parameters describe the kernel: the counts are those of the arrays,
    the arrays lie inside param_size, every CPU has its Linux number,
    hardware id, message CPU and node, every chunk of the kernel is listed
    once with its node, and the distances are those of Linux. *)
Record describes_kernel (ikc : list Z) (p : smp_boot_param) : Prop := {
  dk_nr_cpus : bp_nr_cpus p = os_nr_cpus o /\ Z.of_nat (length (bp_cpus p)) = os_nr_cpus o;
  dk_cpus : Forall2 (cpu_entry o cpu nodes ikc) (seq 0 (Z.to_nat (os_nr_cpus o))) (bp_cpus p);
  dk_nodes : bp_nr_numa_nodes p = Z.of_nat (length nodes) /\ bp_numa_nodes p = mk_bp_node IHK_SMP_MEMORY_TYPE_DRAM <$> nodes;
  dk_chunks : bp_nr_memory_chunks p = Z.of_nat (length (bp_memory_chunks p)) /\
    exists l, l ≡ₚ my_chunks os used /\ Forall2 (chunk_entry nodes) l (bp_memory_chunks p);
  dk_distances : bp_numa_distances p = distance_matrix nodes (be_node_distance e) nodes;
  dk_fits : boot_bytes <= bp_param_size p;
  dk_memory : bp_start p = os_mem_start o /\ bp_end p = os_mem_end o;
  dk_args : bp_kernel_args p = strncpy 256 (bd_kernel_args (bw_boot w))
}.

(** What waking its first CPU returns and sends. *)
Definition boot_wakeup : Z * list wake_cmd :=
  smp_wakeup_secondary_cpu arch (be_wakeup e) (default 0 (os_cpu_hw_ids o !! 0%nat)) (be_trampoline e).

Lemma nodes_self : Forall (fun n => n ∈ nodes) nodes.
Proof using. by apply Forall_forall. Qed.

Lemma by_node_perm :
  Forall (fun c => oc_numa c ∈ nodes) (my_chunks os used) -> by_node used os nodes ≡ₚ my_chunks os used.
Proof using. apply group_by, numa_nodes_NoDup. Qed.

Lemma boot_with_param_ok b psize order :
  bootable -> boot_bytes <= psize <= Z.shiftl PAGE_SIZE order ->
  length (bd_cpu_ikc_map b) = Z.to_nat SMP_MAX_CPUS -> bd_kernel_args b = bd_kernel_args (bw_boot w) ->
  exists w' p, boot_with_param e os used cpu (with_boot w b) (Z.of_nat (length nodes)) nodes psize order =
      Ret (fst boot_wakeup, w') /\
    bw_dev_status w' = BUILTIN_DEV_STATUS_BOOTING /\ os_status (bw_os w') = BUILTIN_OS_STATUS_BOOTING /\
    bw_cmds w' = bw_cmds w ++ snd boot_wakeup /\ bd_numa_mapping (bw_boot w') = PLive nodes /\ bd_param (bw_boot w') = PLive p /\
    describes_kernel (bd_cpu_ikc_map (bw_boot w')) p.
Proof using.
  intros Hk [Hp1 Hp2] Hikc Hargs. unfold boot_with_param. cbn [with_boot bw_os bw_boot bw_dev_status].
  pose proof (numa_nodes_NoDup (os_numa_mask o)) as Hd. pose proof (bk_cpus Hk) as Hn.
  pose proof (by_node_perm (bk_chunks Hk)) as Hperm. pose proof (Permutation_length Hperm) as Hlen.
  unfold boot_bytes in Hp1.
  destruct (perf_event_map_ok arch _ (bk_regs Hk)) as [nreg ->]. cbn [mbind outcome_bind Z.eqb negb].
  unfold SMP_MAX_CPUS in *. unfold sizeof_bp_cpu, sizeof_bp_node, sizeof_int, sizeof_bp_chunk in Hp1.
  destruct (fill_cpus_ok (Z.shiftl PAGE_SIZE order) o cpu nodes Hd (Z.to_nat (os_nr_cpus o)) 0 (bd_cpu_ikc_map b)
    (be_sizeof_param e) []) as (ikc & es & E & _ & _ & Hes);
    [lia|lia|intros; apply (bk_known Hk); lia|unfold sizeof_bp_cpu; lia|].
  change (Z.of_nat 0) with 0 in E. rewrite E. cbn [mbind outcome_bind]. clear E.
  rewrite fill_nodes_ok by (unfold sizeof_bp_cpu, sizeof_bp_node; lia). cbn [mbind outcome_bind].
  edestruct (fill_chunks_ok (Z.shiftl PAGE_SIZE order) used os nodes Hd nodes) as (cs & -> & Hcs);
    [apply nodes_self|rewrite Hlen; unfold sizeof_bp_cpu, sizeof_bp_node, sizeof_bp_chunk; lia|].
  cbn [mbind outcome_bind]. rewrite Hlen, Nat2Z.id.
  pose proof (fill_distances_ok (Z.shiftl PAGE_SIZE order) nodes (be_node_distance e) (length nodes) 0) as E.
  change (Z.of_nat 0) with 0 in E. rewrite E by (unfold sizeof_bp_cpu, sizeof_bp_node, sizeof_bp_chunk, sizeof_int; lia).
  cbn [mbind outcome_bind]. clear E. rewrite (proj2 (Z.ltb_ge _ _)) by lia.
  destruct (bk_known Hk 0) as (x & hw & c & _ & Hhw & _); [lia|].
  rewrite (proj2 (aget_Ret (os_cpu_hw_ids o) 0 hw)) by (split; [lia|done]). cbn [mbind outcome_bind].
  destruct (setup_trampoline_ok arch nr_cpu_ids (be_apicid e) (bk_linux Hk)) as [ids ->].
  destruct (bk_allocs Hk) as (_ & _ & ->). destruct (bk_dump Hk) as [Hsz Hfit]. destruct (dump_init_fits os used Hsz Hfit) as [ds ->]. cbn [mbind outcome_bind negb].
  unfold boot_wakeup. rewrite Hhw. cbn [default]. unfold id. destruct (smp_wakeup_secondary_cpu _ _ _ _) as [ret cmds]. cbn [fst snd].
  eexists _, _. split; [done|]. do 5 (split; [done|]). cbn [bw_boot bd_cpu_ikc_map].
  pose proof (Forall2_length _ _ _ Hes) as L1. rewrite length_seq in L1.
  pose proof (Forall2_length _ _ _ Hcs) as L2. rewrite Hlen in L2.
  constructor; cbn [bp_nr_cpus bp_cpus bp_nr_numa_nodes bp_numa_nodes bp_nr_memory_chunks bp_memory_chunks
    bp_numa_distances bp_param_size bp_start bp_end bp_kernel_args app].
  - split; [done|]. lia.
  - done.
  - done.
  - split; [lia|]. by exists (by_node used os nodes).
  - done.
  - unfold boot_bytes, sizeof_bp_cpu, sizeof_bp_node, sizeof_int, sizeof_bp_chunk. lia.
  - done.
  - by rewrite Hargs.
Qed.

Lemma boot_param_size_ok :
  0 <= be_sizeof_param e -> 0 <= os_nr_cpus o -> boot_bytes + PAGE_SIZE <= 2 ^ 31 ->
  boot_bytes <= boot_param_size (be_sizeof_param e) (os_nr_cpus o) (Z.of_nat (length nodes))
    (Z.of_nat (length (my_chunks os used))) < 2 ^ 31.
Proof using.
  intros Hs Hn Hb. unfold boot_param_size. change (be_sizeof_param e + _ + _ + _ + _) with boot_bytes.
  assert (0 <= boot_bytes) by (unfold boot_bytes, sizeof_bp_cpu, sizeof_bp_node, sizeof_int, sizeof_bp_chunk; lia).
  rewrite (s32_small boot_bytes) by (unfold PAGE_SIZE in *; lia).
  pose proof (page_align boot_bytes). rewrite s32_small; lia.
Qed.

(** The driver after the CPU was woken. *)
Definition booted (w' : bworld) : Prop :=
  exists p, bw_dev_status w' = BUILTIN_DEV_STATUS_BOOTING /\ os_status (bw_os w') = BUILTIN_OS_STATUS_BOOTING /\
    bw_cmds w' = bw_cmds w ++ snd boot_wakeup /\ bd_numa_mapping (bw_boot w') = PLive nodes /\ bd_param (bw_boot w') = PLive p /\
    describes_kernel (bd_cpu_ikc_map (bw_boot w')) p.

Lemma boot_mapped_ok b :
  bootable -> length (bd_cpu_ikc_map b) = Z.to_nat SMP_MAX_CPUS -> bd_kernel_args b = bd_kernel_args (bw_boot w) ->
  exists w', boot_mapped e os used cpu (with_boot w b) (Z.of_nat (length nodes)) nodes = Ret (fst boot_wakeup, w') /\ booted w'.
Proof using.
  intros Hk Hb Hargs. unfold boot_mapped. cbn [with_boot bw_os].
  destruct (bk_size Hk) as [Hs0 Hs]. pose proof (bk_cpus Hk) as Hn.
  pose proof (boot_param_size_ok Hs0 ltac:(lia) Hs) as Hp. set (psize := boot_param_size _ _ _ _) in *. clearbody psize.
  assert (0 <= boot_bytes) by (unfold boot_bytes, sizeof_bp_cpu, sizeof_bp_node, sizeof_int, sizeof_bp_chunk; lia).
  destruct (pages_order_ok 64 (u64 psize) 0) as (ord & -> & _ & Ho); [lia|lia|rewrite u64_small; lia|].
  rewrite u64_small in Ho by lia. destruct (bk_allocs Hk) as (_ & -> & _). cbn [mbind outcome_bind negb].
  destruct (boot_with_param_ok b psize ord Hk) as (w' & p & E & Hw); [lia|done|done|].
  exists w'. split; [exact E|]. by exists p.
Qed.

Lemma boot_ok : bootable -> exists w', smp_ihk_os_boot e os used cpu w = Ret (fst boot_wakeup, w') /\ booted w'.
Proof using.
  intros Hk. destruct (boot_mapped_ok (bd_mapping (bw_boot w) (PLive nodes)) Hk (bk_ikc Hk) eq_refl) as (w' & E & Hw).
  exists w'. split; [|exact Hw]. unfold smp_ihk_os_boot. rewrite (bk_dev Hk), Z.eqb_refl. cbn [negb].
  rewrite (proj2 (Z.eqb_neq _ _) (bk_status Hk)). destruct (bk_allocs Hk) as (-> & _ & _). cbn [negb].
  rewrite hweight64_nodes, Nat2Z.id, fill_mapping_all. exact E.
Qed.

(** What is sent to wake the CPU with hardware id [hw], and what is returned:
    INIT is asserted and deasserted and, with an integrated APIC, one or two
    STARTUP IPIs with the page of the start address follow, two and the result 0
    when no status is reported; a wake-up function of Linux is called instead if
    there is one; on arm64 the CPU is switched on by its affinity. *)
Definition wakes (a : smp_arch) (k : wake_env) (hw eip ret : Z) (cmds : list wake_cmd) : Prop :=
  match a with
  | X86_64 =>
      match wk_apic k with
      | Some f => ret = f hw eip /\ cmds = [ApicWakeup hw eip]
      | None => exists n, cmds = IcrWrite 0xc500 hw :: IcrWrite 0x8500 hw :: replicate n (IcrWrite (Z.lor 0x600 (eip / 4096)) hw) /\
          (wk_integrated k hw = true -> (1 <= n <= 2)%nat /\ ((forall j, wk_startup k j = (0, 0)) -> n = 2%nat /\ ret = 0))
      end
  | ARM64 _ => forall affi, 0 <= hw -> wk_logical_map k !! Z.to_nat hw = Some affi -> ret = wk_cpu_on k affi eip /\ cmds = [CpuOn affi eip]
  end.

Lemma wakeup_wakes a k hw eip : wakes a k hw eip (fst (smp_wakeup_secondary_cpu a k hw eip)) (snd (smp_wakeup_secondary_cpu a k hw eip)).
Proof using.
  unfold wakes, smp_wakeup_secondary_cpu. destruct a.
  - destruct (wk_apic k) as [f|]; [done|]. unfold smp_wakeup_secondary_cpu_via_init. change (eip / 4096) with (eip / 2 ^ 12).
    rewrite <- Z.shiftr_div_pow2 by lia. destruct (wk_integrated k hw); cbn [startup_loop fst snd]; [|by exists 0%nat].
    destruct (wk_startup k 1) as [s1 e1] eqn:E1. destruct (wk_startup k (1 + 1)) as [s2 e2] eqn:E2. destruct (_ || _) eqn:Ea.
    + exists 1%nat. split; [done|]. intros _. split; [lia|]. intros Hz. rewrite Hz in E1. injection E1 as <- <-. discriminate Ea.
    + exists 2%nat. destruct (negb (s2 =? 0) || negb (Z.land e2 239 =? 0)) eqn:Eb; cbn [fst snd]; (split; [reflexivity|]; intros _; split; [lia|]; intros Hz; rewrite Hz in E2; injection E2 as <- <-; done).
  - intros affi H0 Hm. rewrite (proj2 (Z.ltb_ge hw 0)) by lia. by rewrite Hm.
Qed.

(** C8: booting a kernel that can boot writes boot parameters that
    describe the kernel exactly and lie inside the pages allocated for them,
    sets the mapping of nodes to that of the mask, and then wakes the CPU that
    was assigned first, and no other, at the trampoline; the result is that of
    waking it. A device or a kernel that is booting is refused without any
    change. Asked for ([bootable]) are a node mask that covers the CPUs and
    chunks of the kernel, allocations that succeed, at most ten extra registers
    of the PMU, and bitmaps of all used chunks that fit the pages allocated for
    those of the kernel's own chunks; the last does not always hold when other
    kernels have memory ([dump_two_kernels]). *)
Theorem boot_correct :
  (bw_dev_status w <> BUILTIN_DEV_STATUS_READY \/ os_status o = BUILTIN_OS_STATUS_BOOTING ->
     smp_ihk_os_boot e os used cpu w = Ret (- EBUSY, w)) /\
  (bootable -> exists w' hw ret cmds, smp_ihk_os_boot e os used cpu w = Ret (ret, w') /\ booted w' /\
     os_cpu_hw_ids o !! 0%nat = Some hw /\ bw_cmds w' = bw_cmds w ++ cmds /\ wakes arch (be_wakeup e) hw (be_trampoline e) ret cmds).
Proof using.
  split.
  2: { intros Hk. destruct (boot_ok Hk) as (w' & E & Hb). destruct (bk_known Hk 0) as (x & hw & c & _ & Hhw & _); [pose proof (bk_cpus Hk); lia|].
       exists w', hw, (fst boot_wakeup), (snd boot_wakeup). split_and!; try done; [by destruct Hb as (p & _ & _ & Hc & _)|].
       unfold boot_wakeup. rewrite Hhw. apply wakeup_wakes. } unfold smp_ihk_os_boot. intros Hbusy.
  destruct (Z.eqb_spec (bw_dev_status w) BUILTIN_DEV_STATUS_READY) as [Hd|]; cbn [negb]; [|done].
  destruct Hbusy as [| ->]; [done|]. by rewrite Z.eqb_refl.
Qed.
End boot_params.

(** The CPUs of a kernel in a consistent CPU table can be described. *)
Lemma known_cpus `{SmpEnv} w k o :
  cpu_inv w -> w_os w !! k = Some o -> (forall x, x ∈ os_cpus o -> cpu_to_node x ∈ numa_nodes (os_numa_mask o)) ->
  forall i, (i < Z.to_nat (os_nr_cpus o))%nat -> cpu_known o (w_cpu w) (numa_nodes (os_numa_mask o)) i.
Proof.
  intros Hw Ho Hn i Hi. destruct (ci_osd _ Hw k o Ho) as [(Hm & Hh & Hr) _].
  destruct (lookup_lt_is_Some_2 (os_cpu_mapping o) i) as [x Hx]; [rewrite Hm; unfold SMP_MAX_CPUS in *; lia|].
  destruct (lookup_lt_is_Some_2 (os_cpu_hw_ids o) i) as [hw Hhw]; [rewrite Hh; unfold SMP_MAX_CPUS in *; lia|].
  assert (x ∈ os_cpus o) as Hin.
  { unfold os_cpus. apply list_elem_of_lookup. exists i. by rewrite lookup_take_lt by done. }
  destruct (ci_map _ Hw k o x Ho Hin) as (c & Hc & _). exists x, hw, c. auto.
Qed.

(** ** A kernel with two CPUs and two chunks *)

Definition demo_os_cpus (l : list Z) : smp_os_data :=
  match @smp_ihk_os_assign_cpu cpu_smp true 16 (cpu_arg l) (w_cpu available_world) zero_osd with
  | Ret (_, _, o) => o
  | Undef => zero_osd
  end.
Definition demo_table (l : list Z) : cpust :=
  match @smp_ihk_os_assign_cpu cpu_smp true 16 (cpu_arg l) (w_cpu available_world) zero_osd with
  | Ret (_, s, _) => s
  | Undef => mk_cpust [] ∅
  end.
Definition demo_used : list ihk_os_mem_chunk := [mk_os_chunk 0x1000000 0x400000 16 1; mk_os_chunk 0x400000 0x200000 16 0].
Definition demo_boot_data : boot_data :=
  mk_boot_data PNull 0 (replicate (Z.to_nat SMP_MAX_CPUS) 0) PNull 0 0 0 0 (replicate 256 0).
Definition demo_wake : wake_env := mk_wake_env None (fun _ => true) 0 (fun _ => (0, 0)) [0x80000000; 0x80000001; 0x80000002; 0x80000003; 0x80000100; 0x80000101; 0x80000102; 0x80000103] (fun _ _ => 0).
Definition demo_boot_env : boot_env :=
  mk_boot_env 5000 (fun a b => if a =? b then 10 else 20) [0x1a6; 0x1a7] (fun c => 2 * c) 0x900000 0 true true true demo_wake 0x9a000.
Definition demo_bworld (o : smp_os_data) : bworld := mk_bworld BUILTIN_DEV_STATUS_READY o demo_boot_data [].

Lemma demo_dump_fits : Forall sized demo_used /\ (my_chunks 16 demo_used = [] \/ 8 * Z.of_nat (words demo_used) <= dump_page_bytes 16 demo_used).
Proof. split; [repeat constructor; done|]. right. vm_compute. done. Qed.

Lemma demo_bootable :
  @bootable cpu_smp demo_boot_env 16 demo_used (demo_table [5; 3]) (demo_bworld (demo_os_cpus [5; 3])).
Proof.
  constructor; try exact demo_dump_fits; try (vm_compute; done || (split; done)).
  - intros i Hi. change (Z.to_nat _) with 2%nat in Hi.
    destruct i as [|[|i]]; [| |lia];
      (eexists _, _, _; split_and!; [vm_compute; reflexivity|vm_compute; reflexivity|vm_compute; reflexivity|];
       apply numa_nodes_elem; by vm_compute).
  - repeat (constructor; [apply numa_nodes_elem; by vm_compute|]). constructor.
Qed.

Lemma boot_correct_witness :
  exists w', @smp_ihk_os_boot cpu_smp demo_boot_env 16 demo_used (demo_table [5; 3]) (demo_bworld (demo_os_cpus [5; 3])) =
      Ret (0, w') /\
    @booted cpu_smp demo_boot_env 16 demo_used (demo_table [5; 3]) (demo_bworld (demo_os_cpus [5; 3])) w' /\
    bw_cmds w' = [IcrWrite 0xc500 0; IcrWrite 0x8500 0; IcrWrite 0x69a 0; IcrWrite 0x69a 0].
Proof.
  destruct (proj2 (@boot_correct cpu_smp demo_boot_env 16 demo_used (demo_table [5; 3]) (demo_bworld (demo_os_cpus [5; 3]))) demo_bootable)
    as (w' & hw & ret & cmds & E & Hb & Hhw & Hc & n & Hcmds & Hn).
  destruct (Hn eq_refl) as [_ Hs]. destruct (Hs (fun _ => eq_refl)) as [-> ->]. vm_compute in Hhw. injection Hhw as <-.
  exists w'. split; [exact E|]. split; [exact Hb|]. rewrite Hc, Hcmds. reflexivity.
Defined.

(** What is left after a boot: the result, the status of the device and of
    the kernel, and whether boot parameters and mapping can be read. *)
Definition boot_view (e : boot_env) (l : list Z) (used : list ihk_os_mem_chunk) : outcome (Z * Z * Z * bool * bool) :=
  ' (ret, w) ← @smp_ihk_os_boot cpu_smp e 16 used (demo_table l) (demo_bworld (demo_os_cpus l));
  let readable {A} (p : cptr A) := match deref p with Ret _ => true | Undef => false end in
  Ret (ret, bw_dev_status w, os_status (bw_os w), readable (bd_param (bw_boot w)), readable (bd_numa_mapping (bw_boot w))).

(** A boot that fails frees the boot parameters and the mapping of
    nodes but leaves the pointers to them, while the status says that the
    kernel never booted; the failed allocation of the dump buffer even frees
    the kernel's data before writing to it. *)
Theorem failed_boot_frees :
  boot_view demo_boot_env [] demo_used = Ret (- EINVAL, BUILTIN_DEV_STATUS_READY, BUILTIN_OS_STATUS_INITIAL, false, false) /\
  (exists w, @smp_ihk_os_boot cpu_smp demo_boot_env 16 demo_used (demo_table []) (demo_bworld (demo_os_cpus [])) = Ret (- EINVAL, w) /\
     bd_param (bw_boot w) = PFreed /\ bd_numa_mapping (bw_boot w) = PFreed) /\
  boot_view (mk_boot_env 5000 (fun _ _ => 10) [] (fun c => c) 0 0 true true false demo_wake 0x9a000) [5] demo_used = Undef.
Proof.
  split; [vm_compute; reflexivity|]. split; [|vm_compute; reflexivity].
  eexists. split; [vm_compute; reflexivity|]. split; reflexivity.
Qed.

(** The registers of the PMU are counted only after they were copied. *)
Example regs_overrun : smp_ihk_arch_get_perf_event_map X86_64 (replicate 11 1) = Undef.
Proof. vm_compute. reflexivity. Qed.

(** ** Kernel arguments *)

(** The characters of a C string in a buffer. *)
Fixpoint c_string (l : list Z) : list Z :=
  match l with
  | [] => []
  | c :: l' => if c =? 0 then [] else c :: c_string l'
  end.

Lemma strncpy_spec n l : strncpy n l = take n (c_string l) ++ replicate (n - length (c_string l)) 0.
Proof.
  revert l. induction n as [|n IH]; intros l; [done|]. destruct l as [|c l]; [done|].
  cbn [strncpy c_string]. destruct (c =? 0); [done|]. cbn [take length]. rewrite IH. done.
Qed.

Lemma c_string_nonzero l : Forall (fun c => c <> 0) (c_string l).
Proof. induction l as [|c l IH]; [constructor|]. simpl. destruct (Z.eqb_spec c 0); by constructor. Qed.

Lemma c_string_app l r : Forall (fun c => c <> 0) l -> c_string (l ++ 0 :: r) = l.
Proof. induction 1 as [|c l Hc _ IH]; [done|]. simpl. rewrite (proj2 (Z.eqb_neq c 0) Hc). by f_equal. Qed.

(** The arguments that the kernel gets are the first 255 characters of those
    that were set, and end in a zero. *)
Theorem kargs_reach_kernel buf w w' :
  smp_ihk_os_set_kargs buf w = (0, w') ->
  os_status (bw_os w') = BUILTIN_OS_STATUS_INITIAL /\
  c_string (strncpy 256 (bd_kernel_args (bw_boot w'))) = take 255 (c_string buf) /\
  last (strncpy 256 (bd_kernel_args (bw_boot w'))) = Some 0.
Proof.
  unfold smp_ihk_os_set_kargs. destruct (negb _) eqn:E; [done|]. intros H%(f_equal snd). cbn [snd] in H. subst w'. split; [done|].
  cbn [bw_boot bd_kernel_args]. set (s := take 255 (c_string buf)).
  assert (Forall (fun c => c <> 0) s) as Hs by (apply Forall_take, c_string_nonzero).
  assert (length s <= 255)%nat as Hl by (subst s; rewrite length_take; lia).
  assert (c_string (strncpy 255 buf ++ [0]) = s) as Ec.
  { rewrite strncpy_spec, <- app_assoc. fold s.
    destruct (255 - length (c_string buf))%nat as [|n]; by apply c_string_app. }
  rewrite (strncpy_spec 256), Ec, take_ge by lia.
  destruct (256 - length s)%nat as [|n] eqn:En; [lia|].
  split; [by apply c_string_app|]. rewrite replicate_S_end, app_assoc. apply last_snoc.
Qed.
