(* ===== verification/Cokernel.v ===== *)
(** * The kernel's side of the boot parameters (src/cokernel/smp)

    A booted kernel finds its CPUs, NUMA nodes, memory chunks and the distances
    between nodes in the bytes behind struct smp_boot_param, by offsets that it
    computes from the counts in the structure.  In the other direction it
    stores addresses there that the driver reads with
    smp_ihk_os_get_special_addr.  On arm64 it also distributes the interrupts
    of the driver over the Linux CPUs that serve it. *)

From stdpp Require Import base tactics numbers list gmap.
From S2P Require Import Prelude Kmsg HostData SmpData SmpMem SmpCpu SmpOs SmpStatus SmpDump SmpBoot.

Open Scope ihk_scope.

(** ** The bytes behind the structure *)

Definition encode_cpu (e : boot_param_cpu) : list Z :=
  le_bytes 4 (bc_numa_id e) ++ le_bytes 4 (bc_hw_id e) ++ le_bytes 4 (bc_linux_cpu_id e) ++ le_bytes 4 (bc_ikc_cpu e).
Definition encode_node (e : boot_param_numa_node) : list Z := le_bytes 4 (bn_type e) ++ le_bytes 4 (bn_linux_numa_id e).
Definition encode_chunk (e : boot_param_memory_chunk) : list Z :=
  le_bytes 8 (bm_start e) ++ le_bytes 8 (bm_end e) ++ le_bytes 4 (bm_numa_id e) ++ replicate 4 0.
Definition encode_int (x : Z) : list Z := le_bytes 4 x.

(** The bytes behind the structure, as smp_ihk_os_boot writes them into pages
    that were cleared: each entry is stored at a pointer that starts behind the
    structure and is moved by the size of the entry; the nodes start where the
    CPUs end, the chunks where the nodes end, the distances where the chunks
    end.  SmpBoot.emit checks the same pointer against the end of the pages. *)
Definition put (off : Z) (b buf : list Z) : list Z := take (Z.to_nat off) buf ++ b ++ drop (Z.to_nat off + length b) buf.
Fixpoint put_each {A} (encode : A -> list Z) (l : list A) (st : Z * list Z) : Z * list Z :=
  match l with
  | [] => st
  | x :: l' => let '(ptr, buf) := st in put_each encode l' (ptr + Z.of_nat (length (encode x)), put ptr (encode x) buf)
  end.
Definition boot_tail (sizeof_param : Z) (p : smp_boot_param) : list Z :=
  let bp_cpu := put_each encode_cpu (bp_cpus p) (0, replicate (Z.to_nat (bp_param_size p - sizeof_param)) 0) in
  let bp_numa_node := put_each encode_node (bp_numa_nodes p) bp_cpu in
  let bp_mem_chunk := put_each encode_chunk (bp_memory_chunks p) bp_numa_node in
  let ihk_smp_boot_numa_distance := put_each encode_int (bp_numa_distances p) bp_mem_chunk in
  snd ihk_smp_boot_numa_distance.

(** An int and an unsigned long at a byte offset; only boot_param_size bytes
    are mapped. *)
Definition rd_bytes (tail : list Z) (off n : Z) : outcome Z :=
  if (0 <=? off) && (off + n <=? Z.of_nat (length tail))
  then Ret (le_value (take (Z.to_nat n) (drop (Z.to_nat off) tail))) else Undef.
Definition rd_int (tail : list Z) (off : Z) : outcome Z := v ← rd_bytes tail off 4; Ret (s32 v).
Definition rd_ulong (tail : list Z) (off : Z) : outcome Z := rd_bytes tail off 8.

(** ** The tables of a kernel *)

(** struct ihk_mc_cpu_info and the pages it starts: the ints behind it, and
    the four pointers as indices into them *)
Record ihk_mc_cpu_info : Type := mk_mc_cpu_info {
  ci_ncpus : Z;
  ci_hw_ids : Z;
  ci_nodes : Z;
  ci_linux_cpu_ids : Z;
  ci_ikc_cpus : Z;
  ci_ints : list Z
}.

Section kernel.
(** [sizeof_info]: the size of struct ihk_mc_cpu_info, which the kernel
    defines; [fresh]: what new pages of the kernel hold. *)
Context (sizeof_info : Z) (fresh : Z -> Z) (p : smp_boot_param) (tail : list Z).

(** build_ihk_cpu_info: the loop; [bp_cpu] is an offset. *)
Fixpoint cpu_info_loop (n : nat) (i bp_cpu : Z) (info : ihk_mc_cpu_info) : outcome ihk_mc_cpu_info :=
  match n with
  | O => Ret info
  | S n' =>
      hw_id ← rd_int tail (bp_cpu + 4);
      ints ← aset (ci_ints info) (ci_hw_ids info + i) hw_id;
      numa_id ← rd_int tail bp_cpu;
      ints ← aset ints (ci_nodes info + i) numa_id;
      linux_cpu_id ← rd_int tail (bp_cpu + 8);
      ints ← aset ints (ci_linux_cpu_ids info + i) linux_cpu_id;
      ikc_cpu ← rd_int tail (bp_cpu + 12);
      ints ← aset ints (ci_ikc_cpus info + i) ikc_cpu;
      cpu_info_loop n' (i + 1) (bp_cpu + sizeof_bp_cpu)
        (mk_mc_cpu_info (ci_ncpus info) (ci_hw_ids info) (ci_nodes info) (ci_linux_cpu_ids info) (ci_ikc_cpus info) ints)
  end.

(** The number of pages: four pointers are counted for each CPU. *)
Definition cpu_info_pages : Z := Z.shiftr (sizeof_info + bp_nr_cpus p * 32 + PAGE_SIZE - 1) 12.
Definition cpu_info_ints : Z := (cpu_info_pages * PAGE_SIZE - sizeof_info) / 4.

Definition build_ihk_cpu_info : outcome ihk_mc_cpu_info :=
  let nr := bp_nr_cpus p in
  info ← cpu_info_loop (Z.to_nat nr) 0 0 (mk_mc_cpu_info 0 0 nr (2 * nr) (3 * nr) (fresh <$> seqZ 0 cpu_info_ints));
  Ret (mk_mc_cpu_info nr (ci_hw_ids info) (ci_nodes info) (ci_linux_cpu_ids info) (ci_ikc_cpus info) (ci_ints info)).

(** ihk_mc_get_numa_node: the result, *linux_numa_id and *type *)
Definition ihk_mc_get_numa_node (id : Z) : outcome (Z * option (Z * Z)) :=
  if (id <? 0) || (bp_nr_numa_nodes p <=? id) then Ret (-1, None) else
  let node := bp_nr_cpus p * sizeof_bp_cpu + sizeof_bp_node * id in
  linux_numa_id ← rd_int tail (node + 4);
  type ← rd_int tail node;
  Ret (0, Some (linux_numa_id, type)).

Definition ihk_mc_get_numa_distance (i j : Z) : outcome Z :=
  if (i <? 0) || (bp_nr_numa_nodes p <=? i) || (j <? 0) || (bp_nr_numa_nodes p <=? j) then Ret (-1) else
  rd_int tail (bp_nr_cpus p * sizeof_bp_cpu + bp_nr_numa_nodes p * sizeof_bp_node +
               bp_nr_memory_chunks p * sizeof_bp_chunk + sizeof_int * (i * bp_nr_numa_nodes p + j)).

(** ihk_mc_get_memory_chunk: the result, *start, *end and *numa_id *)
Definition ihk_mc_get_memory_chunk (id : Z) : outcome (Z * option (Z * Z * Z)) :=
  if (id <? 0) || (bp_nr_memory_chunks p <=? id) then Ret (-1, None) else
  let chunk := bp_nr_cpus p * sizeof_bp_cpu + bp_nr_numa_nodes p * sizeof_bp_node + sizeof_bp_chunk * id in
  start ← rd_ulong tail chunk;
  stop ← rd_ulong tail (chunk + 8);
  numa_id ← rd_int tail (chunk + 16);
  Ret (0, Some (start, stop, numa_id)).

(** ihk_mc_get_core: the result, *linux_core_id, *apic_id and *numa_id *)
Definition ihk_mc_get_core (info : option ihk_mc_cpu_info) (id : Z) : outcome (Z * option (Z * Z * Z)) :=
  if (id <? 0) || (bp_nr_cpus p <=? id) then Ret (-1, None) else
  match info with
  | None => Undef
  | Some info =>
      linux ← aget (ci_ints info) (ci_linux_cpu_ids info + id);
      hw ← aget (ci_ints info) (ci_hw_ids info + id);
      numa ← aget (ci_ints info) (ci_nodes info + id);
      Ret (0, Some (u64 linux, u64 hw, numa))
  end.

Definition ihk_mc_get_ikc_cpu (info : option ihk_mc_cpu_info) (id : Z) : outcome Z :=
  if (id <? 0) || (bp_nr_cpus p <=? id) then Ret (-1) else
  match info with
  | None => Ret (-1)
  | Some info => aget (ci_ints info) (ci_ikc_cpus info + id)
  end.

(** ihk_mc_get_numa_id on the processor [cpu] *)
Definition ihk_mc_get_numa_id (info : option ihk_mc_cpu_info) (cpu : Z) : outcome Z :=
  match info with
  | None => Ret 0
  | Some info => aget (ci_ints info) (ci_nodes info + cpu)
  end.
End kernel.

(** ** Reading what was encoded *)

Lemma le_value_bytes n z : le_value (le_bytes n z) = z mod 256 ^ Z.of_nat n.
Proof.
  revert z. induction n as [|n IH]; intros z; cbn [le_bytes le_value]; [by rewrite Z.mod_1_r|].
  rewrite IH, Nat2Z.inj_succ, Z.pow_succ_r, Z.rem_mul_r by lia. lia.
Qed.

Lemma s32_le z : s32 (le_value (le_bytes 4 z)) = s32 z.
Proof. rewrite le_value_bytes. unfold s32. change (256 ^ Z.of_nat 4) with (2 ^ 32). by rewrite Zplus_mod_idemp_l. Qed.

Lemma rd_at a b c off n : off = Z.of_nat (length a) -> n = Z.of_nat (length b) -> rd_bytes (a ++ b ++ c) off n = Ret (le_value b).
Proof.
  intros -> ->. unfold rd_bytes. rewrite !length_app, !Nat2Z.id, drop_app_length, take_app_length.
  rewrite (proj2 (Z.leb_le _ _)), (proj2 (Z.leb_le _ _)) by lia. done.
Qed.

(** Entry [i] of an array of entries of [w] bytes. *)
Lemma concat_at {A} (enc : A -> list Z) w l i x :
  (forall y, length (enc y) = w) -> l !! i = Some x ->
  exists a b, concat (enc <$> l) = a ++ enc x ++ b /\ length a = (w * i)%nat.
Proof.
  intros Hw Hi. rewrite <- (take_drop_middle l i x Hi). rewrite fmap_app, concat_app. cbn [fmap list_fmap concat].
  eexists _, _. split; [reflexivity|]. apply lookup_lt_Some in Hi.
  assert (length (take i l) = i) as Hl by (rewrite length_take; lia). rewrite <- Hl at 2. generalize (take i l). clear -Hw.
  intros l. induction l as [|y l IH]; cbn [fmap list_fmap concat length]; [lia|]. rewrite length_app, Hw, IH. lia.
Qed.

(** [v] is stored in [n] bytes at [off]. *)
Definition stored (l : list Z) (off : Z) (n : nat) (v : Z) : Prop :=
  exists a c, l = a ++ le_bytes n v ++ c /\ off = Z.of_nat (length a).

Lemma rd_int_stored l off v : stored l off 4 v -> rd_int l off = Ret (s32 v).
Proof.
  intros (a & c & -> & ->). unfold rd_int. rewrite rd_at by (done || by rewrite length_le_bytes).
  cbn [mbind outcome_bind]. by rewrite s32_le.
Qed.

Lemma rd_ulong_stored l off v : stored l off 8 v -> rd_ulong l off = Ret (u64 v).
Proof.
  intros (a & c & -> & ->). unfold rd_ulong. rewrite rd_at by (done || by rewrite length_le_bytes).
  by rewrite le_value_bytes.
Qed.

(** A field of an entry of an array inside the parameters. *)
Lemma stored_field {A} (enc : A -> list Z) w before l after i x off f n v g :
  (forall y, length (enc y) = w) -> l !! i = Some x -> enc x = f ++ le_bytes n v ++ g ->
  off = Z.of_nat (length before) + Z.of_nat w * Z.of_nat i + Z.of_nat (length f) ->
  stored (before ++ concat (enc <$> l) ++ after) off n v.
Proof.
  intros Hw Hi He ->. destruct (concat_at enc w l i x Hw Hi) as (a & b & E & Ha). rewrite E, He.
  exists (before ++ a ++ f), (g ++ b ++ after). rewrite <- !app_assoc. split; [done|]. rewrite !length_app. lia.
Qed.

Lemma length_encode_cpu e : length (encode_cpu e) = 16%nat.
Proof. unfold encode_cpu. by rewrite !length_app, !length_le_bytes. Qed.
Lemma length_encode_node e : length (encode_node e) = 8%nat.
Proof. unfold encode_node. by rewrite !length_app, !length_le_bytes. Qed.
Lemma length_encode_chunk e : length (encode_chunk e) = 24%nat.
Proof. unfold encode_chunk. by rewrite !length_app, !length_le_bytes. Qed.
Lemma length_encode_int x : length (encode_int x) = 4%nat.
Proof. apply length_le_bytes. Qed.

Lemma length_encoded {A} (enc : A -> list Z) w l : (forall y, length (enc y) = w) -> length (concat (enc <$> l)) = (w * length l)%nat.
Proof. intros Hw. induction l as [|y l IH]; cbn [fmap list_fmap concat length]; [lia|]. rewrite length_app, Hw, IH. lia. Qed.

(** Storing entries one after the other from the end of [pre] on. *)
Lemma put_each_zero {A} (encode : A -> list Z) l : forall pre r,
  (length (concat (encode <$> l)) <= r)%nat ->
  put_each encode l (Z.of_nat (length pre), pre ++ replicate r 0) =
    (Z.of_nat (length (pre ++ concat (encode <$> l))), pre ++ concat (encode <$> l) ++ replicate (r - length (concat (encode <$> l))) 0).
Proof.
  induction l as [|x l IH]; intros pre r Hr; cbn [put_each fmap list_fmap concat].
  { cbn [length app]. by rewrite app_nil_r, Nat.sub_0_r. }
  cbn [fmap list_fmap concat] in Hr. rewrite length_app in Hr. unfold put.
  rewrite Nat2Z.id, take_app_length, drop_app, drop_ge, drop_replicate by lia. cbn [app].
  replace (r - (length pre + length (encode x) - length pre))%nat with (r - length (encode x))%nat by lia.
  pose proof (IH (pre ++ encode x) (r - length (encode x))%nat ltac:(lia)) as E. rewrite <- !app_assoc in E.
  replace (Z.of_nat (length pre) + Z.of_nat (length (encode x))) with (Z.of_nat (length (pre ++ encode x))) by (rewrite length_app; lia).
  rewrite E. f_equal. rewrite (length_app (encode x)), Nat.sub_add_distr, <- (app_assoc (encode x)). reflexivity.
Qed.

(** ** A kernel reads its boot parameters *)

Section reads.
Context (sizeof_param sizeof_info : Z) (fresh : Z -> Z) (p : smp_boot_param).
Abbreviation tail := (boot_tail sizeof_param p).

(** The counts are those of the arrays, which lie inside param_size. *)
Record counts_ok : Prop := {
  ct_cpus : bp_nr_cpus p = Z.of_nat (length (bp_cpus p));
  ct_nodes : bp_nr_numa_nodes p = Z.of_nat (length (bp_numa_nodes p));
  ct_chunks : bp_nr_memory_chunks p = Z.of_nat (length (bp_memory_chunks p));
  ct_fits : sizeof_param + bp_nr_cpus p * sizeof_bp_cpu + bp_nr_numa_nodes p * sizeof_bp_node +
    Z.of_nat (length (bp_numa_distances p)) * sizeof_int + bp_nr_memory_chunks p * sizeof_bp_chunk <= bp_param_size p
}.
Context (Hp : counts_ok).

(** The entries one after the other *)
Definition boot_arrays : list Z :=
  concat (encode_cpu <$> bp_cpus p) ++ concat (encode_node <$> bp_numa_nodes p) ++
  concat (encode_chunk <$> bp_memory_chunks p) ++ concat (encode_int <$> bp_numa_distances p).

Lemma boot_tail_arrays : exists pad, tail = boot_arrays ++ pad.
Proof using Hp.
  unfold boot_tail. set (n := Z.to_nat _). destruct Hp as [H1 H2 H3 H4]. rewrite H1, H2, H3 in H4.
  unfold sizeof_bp_cpu, sizeof_bp_node, sizeof_bp_chunk, sizeof_int in H4.
  pose proof (length_encoded encode_cpu 16 (bp_cpus p) length_encode_cpu) as L1.
  pose proof (length_encoded encode_node 8 (bp_numa_nodes p) length_encode_node) as L2.
  pose proof (length_encoded encode_chunk 24 (bp_memory_chunks p) length_encode_chunk) as L3.
  pose proof (length_encoded encode_int 4 (bp_numa_distances p) length_encode_int) as L4.
  pose proof (put_each_zero encode_cpu (bp_cpus p) [] n) as E1. cbn [length app Nat.add] in E1. change (Z.of_nat 0) with 0 in E1. rewrite E1 by lia.
  rewrite put_each_zero by lia. rewrite app_assoc, put_each_zero by lia. rewrite app_assoc, put_each_zero by lia.
  eexists. cbn [snd]. unfold boot_arrays. rewrite <- !app_assoc. reflexivity.
Qed.

Lemma read_cpu i e :
  bp_cpus p !! i = Some e ->
  rd_int tail (sizeof_bp_cpu * Z.of_nat i) = Ret (s32 (bc_numa_id e)) /\
  rd_int tail (sizeof_bp_cpu * Z.of_nat i + 4) = Ret (s32 (bc_hw_id e)) /\
  rd_int tail (sizeof_bp_cpu * Z.of_nat i + 8) = Ret (s32 (bc_linux_cpu_id e)) /\
  rd_int tail (sizeof_bp_cpu * Z.of_nat i + 12) = Ret (s32 (bc_ikc_cpu e)).
Proof using Hp.
  intros Hi. destruct boot_tail_arrays as [pad ->]. unfold boot_arrays. rewrite <- !app_assoc. unfold sizeof_bp_cpu.
  split_and!; apply rd_int_stored.
  - eapply (stored_field encode_cpu 16 [] _ _ i e _ []); [apply length_encode_cpu|done|done|]. cbn [length]. lia.
  - eapply (stored_field encode_cpu 16 [] _ _ i e _ (le_bytes 4 _)); [apply length_encode_cpu|done|done|].
    rewrite length_le_bytes. cbn [length]. lia.
  - eapply (stored_field encode_cpu 16 [] _ _ i e _ (le_bytes 4 _ ++ le_bytes 4 _)); [apply length_encode_cpu|done|done|].
    rewrite length_app, !length_le_bytes. cbn [length]. lia.
  - eapply (stored_field encode_cpu 16 [] _ _ i e _ (le_bytes 4 _ ++ le_bytes 4 _ ++ le_bytes 4 _) 4 _ []);
      [apply length_encode_cpu|done|by rewrite app_nil_r|]. rewrite !length_app, !length_le_bytes. cbn [length]. lia.
Qed.

Lemma get_numa_node_ok i e :
  bp_numa_nodes p !! i = Some e ->
  ihk_mc_get_numa_node p tail (Z.of_nat i) = Ret (0, Some (s32 (bn_linux_numa_id e), s32 (bn_type e))).
Proof using Hp.
  intros Hi. pose proof (lookup_lt_Some _ _ _ Hi). unfold ihk_mc_get_numa_node.
  rewrite (ct_nodes Hp), (proj2 (Z.ltb_ge _ _)), (proj2 (Z.leb_gt _ _)), (ct_cpus Hp) by lia. cbn [orb].
  destruct boot_tail_arrays as [pad ->]. unfold boot_arrays. rewrite <- !app_assoc.
  unfold sizeof_bp_cpu, sizeof_bp_node.
  pose proof (length_encoded encode_cpu 16 (bp_cpus p) length_encode_cpu) as Hb.
  rewrite (rd_int_stored _ (_ + 4) (bn_linux_numa_id e)).
  2:{ eapply (stored_field encode_node 8 _ _ _ i e _ (le_bytes 4 _) 4 _ []); [apply length_encode_node|done|by rewrite app_nil_r|].
      rewrite length_le_bytes, Hb. lia. }
  cbn [mbind outcome_bind]. rewrite (rd_int_stored _ _ (bn_type e)); [done|].
  eapply (stored_field encode_node 8 _ _ _ i e _ []); [apply length_encode_node|done|done|]. rewrite Hb. cbn [length]. lia.
Qed.

Lemma get_memory_chunk_ok i e :
  bp_memory_chunks p !! i = Some e ->
  ihk_mc_get_memory_chunk p tail (Z.of_nat i) = Ret (0, Some (u64 (bm_start e), u64 (bm_end e), s32 (bm_numa_id e))).
Proof using Hp.
  intros Hi. pose proof (lookup_lt_Some _ _ _ Hi). unfold ihk_mc_get_memory_chunk.
  rewrite (ct_chunks Hp), (proj2 (Z.ltb_ge _ _)), (proj2 (Z.leb_gt _ _)), (ct_cpus Hp), (ct_nodes Hp) by lia. cbn [orb].
  destruct boot_tail_arrays as [pad ->]. unfold boot_arrays. rewrite <- !app_assoc.
  rewrite (app_assoc (concat (encode_cpu <$> _))).
  unfold sizeof_bp_cpu, sizeof_bp_node, sizeof_bp_chunk.
  assert (Z.of_nat (length (concat (encode_cpu <$> bp_cpus p) ++ concat (encode_node <$> bp_numa_nodes p))) =
    Z.of_nat (length (bp_cpus p)) * 16 + Z.of_nat (length (bp_numa_nodes p)) * 8) as Hb.
  { rewrite length_app, (length_encoded encode_cpu 16), (length_encoded encode_node 8)
      by auto using length_encode_cpu, length_encode_node. lia. }
  rewrite (rd_ulong_stored _ (_ + 8) (bm_end e)).
  2:{ eapply (stored_field encode_chunk 24 _ _ _ i e _ (le_bytes 8 _)); [apply length_encode_chunk|done|done|].
      rewrite length_le_bytes, Hb. lia. }
  rewrite (rd_int_stored _ (_ + 16) (bm_numa_id e)).
  2:{ eapply (stored_field encode_chunk 24 _ _ _ i e _ (le_bytes 8 _ ++ le_bytes 8 _)); [apply length_encode_chunk|done|done|].
      rewrite Hb, length_app, !length_le_bytes. lia. }
  cbn [mbind outcome_bind]. rewrite (rd_ulong_stored _ _ (bm_start e)); [done|].
  eapply (stored_field encode_chunk 24 _ _ _ i e _ []); [apply length_encode_chunk|done|done|]. rewrite Hb. cbn [length]. lia.
Qed.

Lemma get_numa_distance_ok i j d :
  (i < length (bp_numa_nodes p))%nat -> (j < length (bp_numa_nodes p))%nat ->
  bp_numa_distances p !! (i * length (bp_numa_nodes p) + j)%nat = Some d ->
  ihk_mc_get_numa_distance p tail (Z.of_nat i) (Z.of_nat j) = Ret (s32 d).
Proof using Hp.
  intros Hi Hj Hd. unfold ihk_mc_get_numa_distance.
  rewrite (ct_nodes Hp), (ct_cpus Hp), (ct_chunks Hp), !(proj2 (Z.ltb_ge _ _)), !(proj2 (Z.leb_gt _ _)) by lia. cbn [orb].
  destruct boot_tail_arrays as [pad ->]. apply rd_int_stored. unfold boot_arrays. rewrite <- !app_assoc.
  rewrite (app_assoc (concat (encode_cpu <$> _))), app_assoc. unfold sizeof_bp_cpu, sizeof_bp_node, sizeof_bp_chunk, sizeof_int.
  eapply (stored_field encode_int 4 _ _ _ _ d _ [] 4 _ []); [apply length_encode_int|exact Hd|by rewrite app_nil_r|].
  rewrite !length_app, (length_encoded encode_cpu 16), (length_encoded encode_node 8), (length_encoded encode_chunk 24)
    by auto using length_encode_cpu, length_encode_node, length_encode_chunk. cbn [length]. lia.
Qed.

(** The tables that the loop of build_ihk_cpu_info has filled up to [i]. *)
Record info_upto (i : nat) (info : ihk_mc_cpu_info) : Prop := mk_info_upto {
  iu_base : let nr := bp_nr_cpus p in
    ci_hw_ids info = 0 /\ ci_nodes info = nr /\ ci_linux_cpu_ids info = 2 * nr /\ ci_ikc_cpus info = 3 * nr;
  iu_len : (4 * length (bp_cpus p) <= length (ci_ints info))%nat;
  iu_cpus : forall k e, (k < i)%nat -> bp_cpus p !! k = Some e -> let n := length (bp_cpus p) in
    ci_ints info !! k = Some (s32 (bc_hw_id e)) /\ ci_ints info !! (n + k)%nat = Some (s32 (bc_numa_id e)) /\
    ci_ints info !! (2 * n + k)%nat = Some (s32 (bc_linux_cpu_id e)) /\ ci_ints info !! (3 * n + k)%nat = Some (s32 (bc_ikc_cpu e))
}.

Lemma aset_at {A} (l : list A) (k : nat) x v : x = Z.of_nat k -> (k < length l)%nat -> aset l x v = Ret (<[k := v]> l).
Proof using. intros -> Hk. rewrite aset_in by lia. by rewrite Nat2Z.id. Qed.

Lemma cpu_info_loop_ok n : forall i info,
  (i + n = length (bp_cpus p))%nat -> info_upto i info ->
  exists info', cpu_info_loop tail n (Z.of_nat i) (sizeof_bp_cpu * Z.of_nat i) info = Ret info' /\
    info_upto (length (bp_cpus p)) info'.
Proof using Hp.
  induction n as [|n IH]; intros i info Hn Hu; cbn [cpu_info_loop].
  { exists info. rewrite <- Hn, Nat.add_0_r. done. }
  destruct (lookup_lt_is_Some_2 (bp_cpus p) i) as [e He]; [lia|].
  destruct (read_cpu i e He) as (-> & -> & -> & ->). destruct Hu as [(B1 & B2 & B3 & B4) HL Hc]. rewrite (ct_cpus Hp) in *.
  cbn [mbind outcome_bind]. rewrite B1, B2, B3, B4. set (m := length (bp_cpus p)) in *.
  rewrite (aset_at _ i) by lia. cbn [mbind outcome_bind].
  rewrite (aset_at _ (m + i)) by (rewrite ?length_insert; lia). cbn [mbind outcome_bind].
  rewrite (aset_at _ (2 * m + i)) by (rewrite ?length_insert; lia). cbn [mbind outcome_bind].
  rewrite (aset_at _ (3 * m + i)) by (rewrite ?length_insert; lia). cbn [mbind outcome_bind].
  replace (Z.of_nat i + 1) with (Z.of_nat (S i)) by lia.
  replace (sizeof_bp_cpu * Z.of_nat i + sizeof_bp_cpu) with (sizeof_bp_cpu * Z.of_nat (S i)) by (unfold sizeof_bp_cpu; lia).
  apply IH; [lia|]. constructor; cbn [ci_hw_ids ci_nodes ci_linux_cpu_ids ci_ikc_cpus ci_ints].
  - by rewrite (ct_cpus Hp).
  - rewrite !length_insert. done.
  - intros k e' Hk Hke. fold m. cbv zeta. destruct (decide (k = i)) as [->|Hne].
    + rewrite He in Hke. injection Hke as <-. split_and!;
        (repeat rewrite list_lookup_insert_ne by lia); apply list_lookup_insert_eq; rewrite ?length_insert; lia.
    + rewrite !list_lookup_insert_ne by lia. apply Hc; [lia|done].
Qed.

(** build_ihk_cpu_info stays inside the pages it allocates. *)
Lemma build_cpu_info_ok :
  0 <= sizeof_info -> exists info, build_ihk_cpu_info sizeof_info fresh p tail = Ret info /\
    ci_ncpus info = bp_nr_cpus p /\ info_upto (length (bp_cpus p)) info.
Proof using Hp.
  intros Hs. unfold build_ihk_cpu_info. rewrite (ct_cpus Hp), Nat2Z.id.
  edestruct (cpu_info_loop_ok (length (bp_cpus p)) 0) as (info & E & Hu); [done| |].
  2:{ change (Z.of_nat 0) with 0 in E. rewrite Z.mul_0_r in E. rewrite E. cbn [mbind outcome_bind].
      eexists. split; [reflexivity|]. split; [done|]. destruct Hu as [B L C]. by constructor. }
  constructor; cbn [ci_hw_ids ci_nodes ci_linux_cpu_ids ci_ikc_cpus ci_ints]; [by rewrite (ct_cpus Hp)| |lia].
  rewrite length_fmap, length_seqZ. unfold cpu_info_ints, cpu_info_pages, PAGE_SIZE. rewrite (ct_cpus Hp), Z.shiftr_div_pow2 by lia.
  set (n := length (bp_cpus p)). change (2 ^ 12) with 4096.
  pose proof (Z.mul_succ_div_gt (sizeof_info + Z.of_nat n * 32 + 4096 - 1) 4096 ltac:(lia)).
  assert (4 * Z.of_nat n <= ((sizeof_info + Z.of_nat n * 32 + 4096 - 1) / 4096 * 4096 - sizeof_info) / 4); [|lia].
  apply Z.div_le_lower_bound; lia.
Qed.

Lemma get_core_ok info i e :
  info_upto (length (bp_cpus p)) info -> bp_cpus p !! i = Some e ->
  ihk_mc_get_core p (Some info) (Z.of_nat i) = Ret (0, Some (u64 (s32 (bc_linux_cpu_id e)), u64 (s32 (bc_hw_id e)), s32 (bc_numa_id e))) /\
  ihk_mc_get_ikc_cpu p (Some info) (Z.of_nat i) = Ret (s32 (bc_ikc_cpu e)) /\
  ihk_mc_get_numa_id (Some info) (Z.of_nat i) = Ret (s32 (bc_numa_id e)).
Proof using Hp.
  intros [(B1 & B2 & B3 & B4) HL Hc] Hi. pose proof (lookup_lt_Some _ _ _ Hi). unfold ihk_mc_get_core, ihk_mc_get_ikc_cpu, ihk_mc_get_numa_id.
  rewrite (ct_cpus Hp) in *. rewrite B1, B2, B3, B4, (proj2 (Z.ltb_ge _ _)), (proj2 (Z.leb_gt _ _)) by lia. cbn [orb].
  destruct (Hc i e) as (C1 & C2 & C3 & C4); [done|done|].
  assert (forall x k v, x = Z.of_nat k -> ci_ints info !! k = Some v -> aget (ci_ints info) x = Ret v) as Hget.
  { intros x k v -> Hk. apply aget_Ret. rewrite Nat2Z.id. split; [lia|done]. }
  set (n := length (bp_cpus p)) in *.
  pose proof (Hget (0 + Z.of_nat i) i _ ltac:(lia) C1) as ->. pose proof (Hget (Z.of_nat n + Z.of_nat i) (n + i)%nat _ ltac:(lia) C2) as ->.
  pose proof (Hget (2 * Z.of_nat n + Z.of_nat i) (2 * n + i)%nat _ ltac:(lia) C3) as ->.
  by pose proof (Hget (3 * Z.of_nat n + Z.of_nat i) (3 * n + i)%nat _ ltac:(lia) C4) as ->.
Qed.
End reads.

(** ** The kernel sees what was assigned to it *)

Section sees.
Context `{SmpEnv} (e : boot_env) (os : Z) (used : list ihk_os_mem_chunk) (cpu : cpust) (w : bworld).
Abbreviation o := (bw_os w).
Abbreviation nodes := (numa_nodes (os_numa_mask o)).

(** The values fit the C types of the boot parameters. *)
Record typed : Prop := {
  ty_cpus : Z.of_nat (length (cpus cpu)) <= 2 ^ 31;
  ty_hw : forall i hw, os_cpu_hw_ids o !! i = Some hw -> 0 <= hw < 2 ^ 31;
  ty_ikc : forall x c, tbl cpu x = Some c -> 0 <= cpu_ikc_map c < 2 ^ 31;
  ty_chunks : forall c, c ∈ my_chunks os used -> 0 <= oc_addr c /\ 0 <= oc_size c /\ oc_addr c + oc_size c < 2 ^ 64;
  ty_distances : forall a b, 0 <= be_node_distance e a b < 2 ^ 31
}.

Lemma nodes_small i n : nodes !! i = Some n -> 0 <= n < 64 /\ (i < 64)%nat.
Proof using.
  intros Hi. rewrite numa_nodes_spec in Hi. split.
  - apply list_elem_of_lookup_2, list_elem_of_filter in Hi as [_ Hi%elem_of_seqZ]. lia.
  - apply lookup_lt_Some in Hi. eapply Nat.lt_le_trans; [exact Hi|]. rewrite length_filter. by rewrite length_seqZ.
Qed.

Lemma length_distance_matrix m nd rows : length (distance_matrix m nd rows) = (length rows * length m)%nat.
Proof using.
  unfold distance_matrix. induction rows as [|a rows IH]; cbn [fmap list_fmap concat length]; [done|].
  rewrite length_app, length_fmap, IH. lia.
Qed.

Lemma distance_at m nd rows i j a b :
  rows !! i = Some a -> m !! j = Some b -> distance_matrix m nd rows !! (i * length m + j)%nat = Some (nd a b).
Proof using.
  unfold distance_matrix. revert i. induction rows as [|x rows IH]; intros [|i] Hi Hj; try done; cbn [fmap list_fmap concat].
  - injection Hi as ->. rewrite Nat.mul_0_l, Nat.add_0_l, lookup_app_l.
    + rewrite list_lookup_fmap, Hj. done.
    + rewrite length_fmap. by eapply lookup_lt_Some.
  - rewrite lookup_app_r; rewrite length_fmap; [|lia]. rewrite <- (IH i Hi Hj). f_equal. lia.
Qed.

Lemma describes_counts ikc p : describes_kernel e os used cpu w ikc p -> counts_ok (be_sizeof_param e) p.
Proof using.
  intros [[H1 H1'] H2 [H3 H3'] [H4 (l & Hl & Hl2)] H5 H6 H7 H8]. apply Forall2_length in Hl2.
  assert (length (bp_numa_distances p) = length nodes * length nodes)%nat as Hd.
  { rewrite H5. apply length_distance_matrix. }
  unfold boot_bytes in H6. rewrite (Permutation_length Hl) in Hl2. constructor; [lia| |done|].
  - by rewrite H3, H3', length_fmap.
  - rewrite H1, H3, H4, Hd. rewrite <- Hl2. lia.
Qed.

Context (sizeof_info : Z) (fresh : Z -> Z).

(** What the kernel finds about its CPUs, nodes, chunks and distances. *)
Definition sees_cpus (p : smp_boot_param) (info : ihk_mc_cpu_info) : Prop :=
  forall i, (i < Z.to_nat (os_nr_cpus o))%nat -> exists x hw c node,
    os_cpu_mapping o !! i = Some x /\ os_cpu_hw_ids o !! i = Some hw /\ tbl cpu x = Some c /\
    nodes !! node = Some (cpu_to_node x) /\
    ihk_mc_get_core p (Some info) (Z.of_nat i) = Ret (0, Some (x, hw, Z.of_nat node)) /\
    ihk_mc_get_ikc_cpu p (Some info) (Z.of_nat i) = Ret (cpu_ikc_map c) /\
    ihk_mc_get_numa_id (Some info) (Z.of_nat i) = Ret (Z.of_nat node).
Definition sees_nodes (p : smp_boot_param) (tail : list Z) : Prop :=
  (forall i n, nodes !! i = Some n -> ihk_mc_get_numa_node p tail (Z.of_nat i) = Ret (0, Some (n, IHK_SMP_MEMORY_TYPE_DRAM))) /\
  (forall i j a b, nodes !! i = Some a -> nodes !! j = Some b ->
     ihk_mc_get_numa_distance p tail (Z.of_nat i) (Z.of_nat j) = Ret (be_node_distance e a b)).
Definition sees_chunks (p : smp_boot_param) (tail : list Z) : Prop :=
  exists l, l ≡ₚ my_chunks os used /\ bp_nr_memory_chunks p = Z.of_nat (length l) /\
  forall i c, l !! i = Some c -> exists node, nodes !! node = Some (oc_numa c) /\
    ihk_mc_get_memory_chunk p tail (Z.of_nat i) = Ret (0, Some (oc_addr c, oc_addr c + oc_size c, Z.of_nat node)).
(** Other numbers are refused. *)
Definition refuses_others (p : smp_boot_param) (tail : list Z) (info : ihk_mc_cpu_info) : Prop :=
  (forall i, i < 0 \/ os_nr_cpus o <= i -> ihk_mc_get_core p (Some info) i = Ret (-1, None) /\
     ihk_mc_get_ikc_cpu p (Some info) i = Ret (-1)) /\
  (forall i, i < 0 \/ Z.of_nat (length nodes) <= i -> ihk_mc_get_numa_node p tail i = Ret (-1, None)) /\
  (forall i j, i < 0 \/ Z.of_nat (length nodes) <= i \/ j < 0 \/ Z.of_nat (length nodes) <= j -> ihk_mc_get_numa_distance p tail i j = Ret (-1)) /\
  (forall i, i < 0 \/ Z.of_nat (length (my_chunks os used)) <= i -> ihk_mc_get_memory_chunk p tail i = Ret (-1, None)).

Lemma node_index ni : 0 <= ni -> (exists n, nodes !! Z.to_nat ni = Some n) -> s32 ni = Z.of_nat (Z.to_nat ni).
Proof using. intros Hn [n Hi%nodes_small]. rewrite s32_small; lia. Qed.

Lemma sees_cpus_ok ikc p info :
  typed -> describes_kernel e os used cpu w ikc p -> info_upto p (length (bp_cpus p)) info -> sees_cpus p info.
Proof using.
  intros Hty Hd Hinfo i Hi. pose proof (describes_counts _ _ Hd) as Hc. destruct (dk_nr_cpus _ _ _ _ _ _ _ Hd) as [_ Hlen].
  destruct (lookup_lt_is_Some_2 (bp_cpus p) i) as [en He]; [lia|].
  destruct (Forall2_lookup_r _ _ _ _ _ (dk_cpus _ _ _ _ _ _ _ Hd) He) as (i' & [-> _]%lookup_seq & Hx & Hhw & (c & Hcpu & Hikc) & _ & Hn & Hnode).
  cbn [Nat.add] in *. destruct (get_core_ok _ p Hc info i en Hinfo He) as (E1 & E2 & E3).
  assert (0 <= bc_linux_cpu_id en < 2 ^ 31) as Hr.
  { pose proof (ty_cpus Hty). unfold tbl in Hcpu. destruct (Z.leb_spec 0 (bc_linux_cpu_id en)); [|done].
    apply lookup_lt_Some in Hcpu. lia. }
  pose proof (ty_hw Hty _ _ Hhw) as Hh. pose proof (ty_ikc Hty _ _ Hcpu) as Hk. rewrite Hikc in E2.
  rewrite (s32_small (bc_linux_cpu_id en)), (s32_small (bc_hw_id en)), !u64_small in E1 by lia.
  rewrite s32_small in E2 by lia. rewrite (node_index _ Hn) in E1, E3 by eauto.
  exists (bc_linux_cpu_id en), (bc_hw_id en), c, (Z.to_nat (bc_numa_id en)). by split_and!.
Qed.

Lemma sees_nodes_ok ikc p : typed -> describes_kernel e os used cpu w ikc p -> sees_nodes p (boot_tail (be_sizeof_param e) p).
Proof using.
  intros Hty Hd. pose proof (describes_counts _ _ Hd) as Hc. destruct (dk_nodes _ _ _ _ _ _ _ Hd) as [_ Hn].
  assert (length (bp_numa_nodes p) = length nodes) as Hl by (by rewrite Hn, length_fmap). split.
  - intros i n Hi. rewrite (get_numa_node_ok _ p Hc i (mk_bp_node IHK_SMP_MEMORY_TYPE_DRAM n)).
    + destruct (nodes_small _ _ Hi). cbn [bn_linux_numa_id bn_type]. unfold IHK_SMP_MEMORY_TYPE_DRAM. rewrite !s32_small by lia. done.
    + rewrite Hn, list_lookup_fmap, Hi. done.
  - intros i j a b Hi Hj. pose proof (ty_distances Hty a b).
    rewrite (get_numa_distance_ok _ p Hc i j (be_node_distance e a b)); [by rewrite s32_small by lia| | |].
    + rewrite Hl. by eapply lookup_lt_Some.
    + rewrite Hl. by eapply lookup_lt_Some.
    + rewrite (dk_distances _ _ _ _ _ _ _ Hd), Hl. by apply distance_at.
Qed.

Lemma sees_chunks_ok ikc p : typed -> describes_kernel e os used cpu w ikc p -> sees_chunks p (boot_tail (be_sizeof_param e) p).
Proof using.
  intros Hty Hd. pose proof (describes_counts _ _ Hd) as Hc. destruct (dk_chunks _ _ _ _ _ _ _ Hd) as [Hn (l & Hl & Hl2)].
  exists l. split; [done|]. split; [by rewrite Hn, (Forall2_length _ _ _ Hl2)|]. intros i c Hi.
  destruct (Forall2_lookup_l _ _ _ _ _ Hl2 Hi) as (en & He & H1 & H2 & H3 & H4).
  exists (Z.to_nat (bm_numa_id en)). split; [done|]. rewrite (get_memory_chunk_ok _ p Hc i en He), H1, H2.
  destruct (ty_chunks Hty c) as (T1 & T2 & T3); [rewrite <- Hl; by eapply list_elem_of_lookup_2|].
  rewrite (node_index _ H3) by eauto. rewrite !u64_small by (try apply u64_range; lia). done.
Qed.

(** C11: a kernel that is booted finds in its boot
    parameters exactly what the driver assigned to it: its CPUs in the order of
    their assignment with hardware id, node and message CPU, its nodes, each of
    its chunks once with its node, and the distances of Linux; it reads only
    mapped bytes, builds its tables inside the pages it allocates, and refuses
    all other numbers.  Asked for are the conditions of boot_correct
    ([bootable]) and values that fit the fields they are stored in
    ([typed]). *)
Theorem kernel_sees_assignment :
  bootable e os used cpu w -> typed -> 0 <= sizeof_info ->
  exists w' p info, let tail := boot_tail (be_sizeof_param e) p in
    smp_ihk_os_boot e os used cpu w = Ret (fst (boot_wakeup e w), w') /\ bd_param (bw_boot w') = PLive p /\
    build_ihk_cpu_info sizeof_info fresh p tail = Ret info /\
    sees_cpus p info /\ sees_nodes p tail /\ sees_chunks p tail /\ refuses_others p tail info.
Proof using.
  intros Hk Hty Hs. destruct (boot_ok e os used cpu w Hk) as (w' & E & p & _ & _ & _ & _ & Hp & Hd).
  pose proof (describes_counts _ _ Hd) as Hc.
  destruct (build_cpu_info_ok _ sizeof_info fresh p Hc Hs) as (info & Hb & _ & Hinfo).
  exists w', p, info. do 3 (split; [done|]). split; [by eapply sees_cpus_ok|]. split; [by eapply sees_nodes_ok|].
  split; [by eapply sees_chunks_ok|]. split_and!.
  - intros i Hi. unfold ihk_mc_get_core, ihk_mc_get_ikc_cpu. destruct (dk_nr_cpus _ _ _ _ _ _ _ Hd) as [-> _].
    destruct (Z.ltb_spec i 0), (Z.leb_spec (os_nr_cpus o) i); try lia; done.
  - intros i Hi. unfold ihk_mc_get_numa_node. destruct (dk_nodes _ _ _ _ _ _ _ Hd) as [-> _].
    destruct (Z.ltb_spec i 0), (Z.leb_spec (Z.of_nat (length nodes)) i); try lia; done.
  - intros i j Hij. unfold ihk_mc_get_numa_distance. destruct (dk_nodes _ _ _ _ _ _ _ Hd) as [-> _].
    destruct (Z.ltb_spec i 0), (Z.leb_spec (Z.of_nat (length nodes)) i), (Z.ltb_spec j 0), (Z.leb_spec (Z.of_nat (length nodes)) j); try lia; done.
  - intros i Hi. unfold ihk_mc_get_memory_chunk. destruct (dk_chunks _ _ _ _ _ _ _ Hd) as [-> (l & Hl & Hl2)].
    rewrite <- (Forall2_length _ _ _ Hl2), (Permutation_length Hl).
    destruct (Z.ltb_spec i 0), (Z.leb_spec (Z.of_nat (length (my_chunks os used))) i); try lia; done.
Qed.
End sees.

Lemma kernel_sees_assignment_witness :
  exists w' p info, let tail := boot_tail 5000 p in let w := demo_bworld (demo_os_cpus [5; 3]) in
    @smp_ihk_os_boot cpu_smp demo_boot_env 16 demo_used (demo_table [5; 3]) w = Ret (0, w') /\ bd_param (bw_boot w') = PLive p /\
    build_ihk_cpu_info 40 (fun _ => 0) p tail = Ret info /\
    @sees_cpus cpu_smp (demo_table [5; 3]) w p info /\ sees_nodes demo_boot_env w p tail /\
    sees_chunks 16 demo_used w p tail /\ refuses_others 16 demo_used w p tail info.
Proof.
  apply (@kernel_sees_assignment cpu_smp demo_boot_env 16 demo_used (demo_table [5; 3]) (demo_bworld (demo_os_cpus [5; 3])) 40 (fun _ => 0)).
  - apply demo_bootable.
  - constructor.
    + vm_compute. done.
    + intros i hw Hi%list_elem_of_lookup_2. revert hw Hi. apply Forall_forall.
      apply (bool_decide_unpack (Forall (fun hw => 0 <= hw < 2 ^ 31) _)). vm_compute. done.
    + intros x c Hc. unfold tbl in Hc. destruct (0 <=? x); [|done]. apply list_elem_of_lookup_2 in Hc. revert c Hc. apply Forall_forall.
      apply (bool_decide_unpack (Forall (fun c => 0 <= cpu_ikc_map c < 2 ^ 31) _)). vm_compute. done.
    + apply Forall_forall. apply (bool_decide_unpack (Forall (fun c => 0 <= oc_addr c /\ 0 <= oc_size c /\ oc_addr c + oc_size c < 2 ^ 64) _)).
      vm_compute. done.
    + intros a b. cbn. destruct (a =? b); lia.
  - lia.
Defined.
