(* ===== verification/CoIrq.v ===== *)
(** * Interrupts of a kernel on arm64 (src/cokernel/smp/arm64/setup.c)

    The driver reserves some interrupts and hands them to a kernel in its boot
    parameters.  build_spi_table gives each Linux CPU that serves the kernel,
    and CPU 0, an interrupt of its own, and panics when there are too few; the
    driver's check of a routing is meant to prevent that. *)

From stdpp Require Import base tactics numbers list gmap.
From S2P Require Import Prelude Kmsg HostData SmpData SmpMem SmpCpu SmpOs SmpStatus SmpDump SmpBoot Cokernel.

Open Scope ihk_scope.

Definition SMP_MAX_IRQS : Z := 32.

(** An entry of ihk_ikc_irqs that was not reserved: (unsigned int)-1 *)
Definition NO_IRQ : Z := 2 ^ 32 - 1.

(** The loop that picks the distinct values of ihk_cpu_info->ikc_cpus, [cs],
    from index [i] on: max, min, k and the array ikc_cpus at its end; [None] is
    a panic. *)
Fixpoint pick_targets (cs l : list Z) (i : nat) (checkers : list bool) (max min k : Z) (ikc_cpus : list Z)
    : outcome (option (Z * Z * Z * list Z)) :=
  match l with
  | [] => Ret (Some (max, min, k, ikc_cpus))
  | c :: r =>
      if default false (checkers !! i) then pick_targets cs r (S i) checkers max min k ikc_cpus else
      let max := if max <? c then c else max in
      let min := if c <? min then c else min in
      let checkers := zip_with (fun d b => if c =? d then true else b) cs checkers in
      if k <? SMP_MAX_IRQS then
        ikc_cpus ← aset ikc_cpus k c;
        pick_targets cs r (S i) checkers max min (k + 1) ikc_cpus
      else Ret None
  end.

(** The loop that fills spi_table. *)
Fixpoint set_spis (irqs targets : list Z) (j : Z) (spi_table : list Z) : outcome (option (list Z)) :=
  match targets with
  | [] => Ret (Some spi_table)
  | t :: r =>
      q ← aget irqs j;
      if q =? NO_IRQ then Ret None else
      spi_table ← aset spi_table t (s32 q);
      set_spis irqs r (j + 1) spi_table
  end.

(** build_spi_table: spi_table and nr_spi_table *)
Definition build_spi_table (cs irqs : list Z) : outcome (option (list Z * Z)) :=
  first ← aget cs 0;
  if SMP_MAX_CPUS <? Z.of_nat (length cs) then Ret None else
  picked ← pick_targets cs cs 0 (replicate (length cs) false) first first 0 (replicate (Z.to_nat SMP_MAX_IRQS) 0);
  match picked with
  | None => Ret None
  | Some (max, min, k, ikc_cpus) =>
      let spi_table := replicate (Z.to_nat SMP_MAX_CPUS) (-1) in
      let rest (spi_table : list Z) (j : Z) : outcome (option (list Z * Z)) :=
        t ← set_spis irqs (take (Z.to_nat k) ikc_cpus) j spi_table;
        Ret (match t with Some t => Some (t, max + 1) | None => None end) in
      if negb (min =? 0) then
        q ← aget irqs 0;
        if q =? NO_IRQ then Ret None else
        spi_table ← aset spi_table 0 (s32 q);
        rest spi_table 1
      else rest spi_table 0
  end.

(** ** Lemmas *)

Definition vals (l : list Z) : gset Z := list_to_set l.

(** After picking from a prefix with values [S]: the targets so far. *)
Record picked (cs : list Z) (S : gset Z) (max min k : Z) (out : list Z) : Prop := mk_picked {
  pk_k : 0 <= k <= SMP_MAX_IRQS;
  pk_len : length out = Z.to_nat SMP_MAX_IRQS;
  pk_nodup : NoDup (take (Z.to_nat k) out);
  pk_vals : vals (take (Z.to_nat k) out) = S;
  pk_max : forall x, x ∈ S -> min <= x <= max;
  pk_mem : max ∈ cs /\ min ∈ cs
}.

Lemma ticks_add (cs : list Z) (v : Z) (S : gset Z) :
  zip_with (fun d b => if v =? d then true else b) cs ((fun d => bool_decide (d ∈ S)) <$> cs) =
  (fun d => bool_decide (d ∈ {[v]} ∪ S)) <$> cs.
Proof.
  induction cs as [|d cs IH]; cbn [fmap list_fmap zip_with]; [done|]. rewrite IH. f_equal.
  destruct (Z.eqb_spec v d) as [->|Ed]; symmetry; [apply bool_decide_eq_true_2; set_solver|].
  apply bool_decide_ext. set_solver.
Qed.

Lemma picked_size cs S max min k out : picked cs S max min k out -> k = Z.of_nat (size S).
Proof.
  intros [Hk Hl Hn Hv _ _]. rewrite <- Hv. unfold vals. rewrite size_list_to_set by done.
  rewrite length_take. unfold SMP_MAX_IRQS in *. lia.
Qed.

Lemma picked_add cs S max min k out c :
  picked cs S max min k out -> c ∉ S -> c ∈ cs -> k < SMP_MAX_IRQS ->
  picked cs ({[c]} ∪ S) (if max <? c then c else max) (if c <? min then c else min) (k + 1) (<[Z.to_nat k := c]> out).
Proof.
  intros [Hk Hl Hn Hv Hm [M1 M2]] Hc Hin Hlt. unfold SMP_MAX_IRQS in *.
  assert (take (Z.to_nat (k + 1)) (<[Z.to_nat k := c]> out) = take (Z.to_nat k) out ++ [c]) as Ht.
  { replace (Z.to_nat (k + 1)) with (Datatypes.S (Z.to_nat k)) by lia. apply take_insert_snoc. lia. }
  constructor.
  - unfold SMP_MAX_IRQS. lia.
  - by rewrite length_insert.
  - rewrite Ht. apply NoDup_app. split_and!; [done| |apply NoDup_singleton].
    intros x Hx ->%list_elem_of_singleton. apply Hc. rewrite <- Hv. by apply elem_of_list_to_set.
  - rewrite Ht. unfold vals. rewrite list_to_set_app_L. unfold vals in Hv. rewrite Hv. cbn [list_to_set]. set_solver.
  - intros x [->%elem_of_singleton|Hx%Hm]%elem_of_union; destruct (Z.ltb_spec max c), (Z.ltb_spec c min); lia || idtac.
    all: destruct (Hm x); try lia.
  - split; [by destruct (max <? c)|by destruct (c <? min)].
Qed.

Lemma pick_targets_ok cs l : forall pre max min k out,
  cs = pre ++ l -> picked cs (vals pre) max min k out -> Z.of_nat (size (vals cs)) <= SMP_MAX_IRQS ->
  exists max' min' k' out',
    pick_targets cs l (length pre) ((fun d => bool_decide (d ∈ vals pre)) <$> cs) max min k out =
      Ret (Some (max', min', k', out')) /\ picked cs (vals cs) max' min' k' out'.
Proof.
  induction l as [|c l IH]; intros pre max min k out Hcs Hpk Hsz; cbn [pick_targets].
  { rewrite app_nil_r in Hcs. subst pre. eexists _, _, _, _. split; [reflexivity|exact Hpk]. }
  assert (cs = (pre ++ [c]) ++ l) as Hcs' by (by rewrite <- app_assoc).
  assert (length (pre ++ [c]) = S (length pre)) as Hlen by (rewrite length_app; cbn; lia).
  assert (vals (pre ++ [c]) = {[c]} ∪ vals pre) as Hv by (unfold vals; rewrite list_to_set_app_L; cbn; set_solver).
  rewrite list_lookup_fmap, Hcs, lookup_app_r, Nat.sub_diag by lia. cbn [lookup list_lookup fmap option_fmap option_map default].
  rewrite <- Hcs. specialize (IH (pre ++ [c])). rewrite Hlen, Hv in IH. case_bool_decide as Hin; cbn [id from_option].
  - replace ({[c]} ∪ vals pre) with (vals pre) in IH by set_solver. by apply IH.
  - assert (c ∈ cs) by (rewrite Hcs; set_solver). rewrite ticks_add.
    assert (k < SMP_MAX_IRQS) as Hk.
    { rewrite (picked_size _ _ _ _ _ _ Hpk). eapply Z.lt_le_trans; [|exact Hsz]. apply inj_lt, subset_size.
      split; [unfold vals; rewrite Hcs; set_solver|]. unfold vals. set_solver. }
    rewrite (proj2 (Z.ltb_lt _ _) Hk). destruct Hpk as [K1 K2 K3 K4 K5 K6] eqn:E. rewrite aset_in by (unfold SMP_MAX_IRQS in *; lia).
    cbn [mbind outcome_bind]. apply IH; [done| |done]. by apply picked_add.
Qed.

Lemma set_spis_ok irqs targets : forall j tab,
  (forall i t, targets !! i = Some t -> 0 <= t < Z.of_nat (length tab) /\
     exists q, irqs !! (j + i)%nat = Some q /\ 0 <= q < 2 ^ 31) ->
  NoDup targets ->
  exists tab', set_spis irqs targets (Z.of_nat j) tab = Ret (Some tab') /\ length tab' = length tab /\
    (forall i t, targets !! i = Some t -> tab' !! Z.to_nat t = irqs !! (j + i)%nat) /\
    (forall x, Z.of_nat x ∉ targets -> tab' !! x = tab !! x).
Proof.
  induction targets as [|t targets IH]; intros j tab Ht Hn; cbn [set_spis].
  { exists tab. split_and!; done. }
  apply NoDup_cons in Hn as [Hnot Hn]. destruct (Ht 0%nat t eq_refl) as (Hr & q & Hq & Hq2). rewrite Nat.add_0_r in Hq.
  rewrite (proj2 (aget_Ret irqs (Z.of_nat j) q)) by (rewrite Nat2Z.id; split; [lia|done]). cbn [mbind outcome_bind].
  rewrite (proj2 (Z.eqb_neq q NO_IRQ)), aset_in, s32_small by (unfold NO_IRQ; lia). cbn [mbind outcome_bind].
  replace (Z.of_nat j + 1) with (Z.of_nat (S j)) by lia.
  destruct (IH (S j) (<[Z.to_nat t := q]> tab)) as (tab' & -> & HL & H1 & H2); [|done|].
  { intros i t' Hi. rewrite length_insert. destruct (Ht (S i) t' Hi) as [? Hx]. split; [done|].
    by rewrite Nat.add_succ_l, <- Nat.add_succ_r. }
  exists tab'. rewrite length_insert in HL. split_and!; [done|done| |].
  - intros [|i] t' Hi; cbn in Hi.
    + injection Hi as <-. rewrite Nat.add_0_r, Hq, H2 by (rewrite Z2Nat.id by lia; done).
      apply list_lookup_insert_eq. lia.
    + rewrite Nat.add_succ_r, <- Nat.add_succ_l. by apply H1.
  - intros x [Hx1 Hx2]%not_elem_of_cons. rewrite H2 by done. apply list_lookup_insert_ne. lia.
Qed.

Lemma no_ticks cs : (fun d => bool_decide (d ∈ vals [])) <$> cs = replicate (length cs) false.
Proof. induction cs as [|c l IH]; [done|]. cbn [fmap list_fmap length replicate]. by rewrite IH. Qed.

(** ** Every CPU that serves the kernel has an interrupt of its own *)

Section routes.
Context (cs irqs : list Z) (n : nat).

(** The first [n] interrupts are reserved, and they are different. *)
Record reserved_irqs : Prop := {
  ri_len : length irqs = Z.to_nat SMP_MAX_IRQS /\ (n <= Z.to_nat SMP_MAX_IRQS)%nat;
  ri_valid : Forall (fun q => 0 <= q < 2 ^ 31) (take n irqs);
  ri_distinct : NoDup (take n irqs)
}.

Definition served : gset Z := {[0]} ∪ vals cs.

Definition spi_ok (tab : list Z) : Prop :=
  (forall c, c ∈ served -> exists q, q ∈ take n irqs /\ tab !! Z.to_nat c = Some q) /\
  (forall c d, c ∈ served -> d ∈ served -> tab !! Z.to_nat c = tab !! Z.to_nat d -> c = d) /\
  (forall x, 0 <= x < SMP_MAX_CPUS -> x ∉ served -> tab !! Z.to_nat x = Some (-1)).

Lemma spis_for_targets T :
  reserved_irqs -> NoDup T -> vals T = served -> Forall (fun c => 0 <= c < SMP_MAX_CPUS) T -> (length T <= n)%nat ->
  exists tab, set_spis irqs T 0 (replicate (Z.to_nat SMP_MAX_CPUS) (-1)) = Ret (Some tab) /\ spi_ok tab.
Proof using.
  intros [[L1 L2] Hv Hd] HT HvT Hr Hn.
  assert (forall i t, T !! i = Some t -> exists q, take n irqs !! i = Some q /\ irqs !! i = Some q) as Hat.
  { intros i t Hi%lookup_lt_Some. destruct (lookup_lt_is_Some_2 (take n irqs) i) as [q Hq]; [rewrite length_take; lia|].
    exists q. split; [done|]. by apply lookup_take_Some in Hq as [? _]. }
  destruct (set_spis_ok irqs T 0 (replicate (Z.to_nat SMP_MAX_CPUS) (-1))) as (tab & E & HL & H1 & H2); [|done|].
  { intros i t Hi. rewrite length_replicate. rewrite Forall_lookup in Hr. specialize (Hr i t Hi). split; [lia|].
    destruct (Hat i t Hi) as (q & Hq1 & Hq2). exists q. split; [done|]. rewrite Forall_lookup in Hv. by eapply Hv. }
  exists tab. split; [done|].
  assert (forall c, c ∈ served -> exists i, T !! i = Some c) as Hin.
  { intros c Hc. rewrite <- HvT in Hc. unfold vals in Hc. by apply elem_of_list_to_set, list_elem_of_lookup in Hc. }
  split_and!.
  - intros c [i Hi]%Hin. destruct (Hat i c Hi) as (q & Hq1 & Hq2). exists q. split; [by eapply list_elem_of_lookup_2|].
    by rewrite (H1 i c Hi).
  - intros c d [i Hi]%Hin [j Hj]%Hin. rewrite (H1 i c Hi), (H1 j d Hj). cbn [Nat.add].
    destruct (Hat i c Hi) as (q & Hq1 & ->), (Hat j d Hj) as (q' & Hq1' & ->). intros [= ->].
    assert (i = j) as -> by exact (NoDup_lookup _ _ _ _ Hd Hq1 Hq1'). congruence.
  - intros x Hx Hnot. rewrite H2.
    + apply lookup_replicate. lia.
    + rewrite Z2Nat.id by lia. intros Hin'. apply Hnot. rewrite <- HvT. by apply elem_of_list_to_set.
Qed.

(** The kernel does not panic when its interrupts are enough. *)
Lemma build_spi_table_ok :
  reserved_irqs -> cs <> [] -> Z.of_nat (length cs) <= SMP_MAX_CPUS -> Forall (fun c => 0 <= c < SMP_MAX_CPUS) cs ->
  (size served <= n)%nat ->
  exists tab nr, build_spi_table cs irqs = Ret (Some (tab, nr)) /\ spi_ok tab.
Proof using.
  intros Hirq Hne Hlen Hr Hsz. destruct Hirq as [[L1 L2] Hv Hd] eqn:Eirq. unfold build_spi_table.
  destruct cs as [|c0 cs'] eqn:Ecs; [done|]. rewrite <- Ecs in *.
  assert (aget cs 0 = Ret c0) as -> by (by rewrite Ecs). cbn [mbind outcome_bind]. rewrite (proj2 (Z.ltb_ge _ _)) by lia.
  assert (c0 ∈ cs) as H0 by (rewrite Ecs; by left).
  assert (vals cs ⊆ served) as Hsub by (unfold served; set_solver).
  pose proof (subseteq_size _ _ Hsub) as Hsz'. unfold SMP_MAX_IRQS in *.
  destruct (pick_targets_ok cs cs [] c0 c0 0 (replicate 32 0) eq_refl) as (mx & mn & k & out & E & Hpk); [|unfold SMP_MAX_IRQS; lia|].
  { constructor; unfold SMP_MAX_IRQS; [lia|by rewrite length_replicate|constructor|done|done|done]. }
  rewrite no_ticks in E. cbn [length] in E. change (Z.to_nat 32) with 32%nat. rewrite E. cbn [mbind outcome_bind].
  destruct Hpk as [K1 K2 K3 K4 K5 [K6 K7]]. set (T := take (Z.to_nat k) out) in *.
  assert (forall x, x ∈ T -> x ∈ cs) as HTc.
  { intros x Hx. assert (x ∈ vals T) as Hx' by (by apply elem_of_list_to_set). rewrite K4 in Hx'. by apply elem_of_list_to_set in Hx'. }
  rewrite Forall_forall in Hr.
  assert (Forall (fun c => 0 <= c < SMP_MAX_CPUS) T) as HrT by (apply Forall_forall; auto).
  assert (mn = 0 <-> 0 ∈ vals cs) as Hmn.
  { split; [intros <-; by apply elem_of_list_to_set|]. intros Hz0. specialize (K5 0 Hz0). specialize (Hr mn K7). cbv beta in Hr. lia. }
  destruct (Z.eqb_spec mn 0) as [E0|E0]; cbn [negb].
  - assert (vals T = served) as HvT by (rewrite K4; unfold served; apply Hmn in E0; set_solver).
    destruct (spis_for_targets T) as (tab & -> & Hok); [done|done|done|done| |by exists tab, (mx + 1)].
    rewrite <- HvT in Hsz. unfold vals in Hsz. by rewrite size_list_to_set in Hsz.
  - assert (0 ∉ T) as Hz0 by (intros Hx; apply E0, Hmn; rewrite <- K4; by apply elem_of_list_to_set).
    assert (vals (0 :: T) = served) as HvT by (unfold vals; cbn [list_to_set]; unfold vals in K4; rewrite K4; done).
    destruct (spis_for_targets (0 :: T)) as (tab & Es & Hok); [done|by constructor|done| | |].
    + constructor; [unfold SMP_MAX_CPUS; lia|done].
    + rewrite <- HvT in Hsz. unfold vals in Hsz. rewrite size_list_to_set in Hsz by (by constructor). done.
    + exists tab, (mx + 1). split; [|done]. cbn [set_spis] in Es. destruct (aget irqs 0) as [q|]; [|done]. cbn [mbind outcome_bind] in *.
      destruct (q =? NO_IRQ); [done|]. destruct (aset _ 0 (s32 q)); [|done]. cbn [mbind outcome_bind] in *. change (0 + 1) with 1 in Es. by rewrite Es.
Qed.
End routes.

(** ** Host and kernel together *)

(** ihk_cpu_info->ikc_cpus of the kernel's CPUs *)
Definition info_ikc (info : ihk_mc_cpu_info) : list Z :=
  take (Z.to_nat (ci_ncpus info)) (drop (Z.to_nat (ci_ikc_cpus info)) (ci_ints info)).

Lemma info_ikc_ok sizeof_param p info :
  counts_ok sizeof_param p -> ci_ncpus info = bp_nr_cpus p -> info_upto p (length (bp_cpus p)) info ->
  info_ikc info = (fun en => s32 (bc_ikc_cpu en)) <$> bp_cpus p.
Proof.
  intros Hp Hn [(_ & _ & _ & B4) HL Hc]. unfold info_ikc. rewrite Hn, B4, (ct_cpus _ _ Hp) in *.
  set (n := length (bp_cpus p)) in *. replace (Z.to_nat (Z.of_nat n)) with n by lia. replace (Z.to_nat (3 * Z.of_nat n)) with (3 * n)%nat by lia.
  apply list_eq. intros i. rewrite list_lookup_fmap. destruct (bp_cpus p !! i) as [en|] eqn:E; cbn [fmap option_fmap option_map].
  - pose proof (lookup_lt_Some _ _ _ E). rewrite lookup_take_lt, lookup_drop by done. by apply (Hc i en).
  - apply lookup_ge_None in E. apply lookup_ge_None. rewrite length_take. lia.
Qed.

Section spi.
Context `{SmpEnv} (e : boot_env) (used : list ihk_os_mem_chunk) (W : world) (k : Z) (w : bworld).
Context (sizeof_info : Z) (fresh : Z -> Z) (irqs : list Z) (nr : Z).

Lemma booted_targets ikc p :
  cpu_inv W -> w_os W !! k = Some (bw_os w) -> typed e k used (w_cpu W) w ->
  describes_kernel e k used (w_cpu W) w ikc p -> vals ((fun en => s32 (bc_ikc_cpu en)) <$> bp_cpus p) ⊆ targets k (cpus (w_cpu W)).
Proof using.
  intros HW Hk Hty Hd x Hx. apply elem_of_list_to_set, list_elem_of_fmap in Hx as (en & -> & [i Hi]%list_elem_of_lookup).
  destruct (Forall2_lookup_r _ _ _ _ _ (dk_cpus _ _ _ _ _ _ _ Hd) Hi) as (i' & [-> Hlt]%lookup_seq & Hx & _ & (c & Hc & ->) & _).
  cbn [Nat.add] in *. pose proof (ty_ikc _ _ _ _ _ Hty _ _ Hc). rewrite s32_small by lia.
  destruct (ci_map _ HW k _ (bc_linux_cpu_id en) Hk) as (c' & Hc' & Hs & Ho).
  { unfold os_cpus. apply list_elem_of_lookup. exists i. by rewrite lookup_take_lt. }
  rewrite Hc in Hc'. injection Hc' as <-. unfold targets. apply elem_of_list_to_set, list_elem_of_fmap. exists c. split; [done|].
  apply list_elem_of_filter. split; [unfold my_cpu; by rewrite Hs, Ho, !Z.eqb_refl|].
  unfold tbl in Hc. destruct (0 <=? _); [|done]. by eapply list_elem_of_lookup_2.
Qed.

(** C33: when the driver on arm64 accepts the routing
    of a kernel, the kernel that it boots does not panic over its interrupts:
    every Linux CPU that serves one of the kernel's CPUs, and CPU 0, gets one of
    the reserved interrupts, no two of them the same, and the others none. *)
Theorem accepted_routing_boots :
  arch = ARM64 (Some nr) -> cpu_inv W -> w_os W !! k = Some (bw_os w) ->
  bootable e k used (w_cpu W) w -> typed e k used (w_cpu W) w -> 0 <= sizeof_info ->
  Forall (fun c => 0 <= cpu_ikc_map c < SMP_MAX_CPUS) (cpus (w_cpu W)) ->
  smp_ihk_os_check_ikc_map k (cpus (w_cpu W)) = 0 -> reserved_irqs irqs (Z.to_nat nr) ->
  exists w' p info tab nr_spi, smp_ihk_os_boot e k used (w_cpu W) w = Ret (fst (boot_wakeup e w), w') /\ bd_param (bw_boot w') = PLive p /\
    build_ihk_cpu_info sizeof_info fresh p (boot_tail (be_sizeof_param e) p) = Ret info /\
    build_spi_table (info_ikc info) irqs = Ret (Some (tab, nr_spi)) /\ spi_ok (info_ikc info) irqs (Z.to_nat nr) tab.
Proof using.
  intros Ha HW Hk Hb Hty Hs Hr Hchk Hirq. destruct (boot_ok _ _ _ _ _ Hb) as (w' & E & p & _ & _ & _ & _ & Hp & Hd).
  pose proof (describes_counts _ _ _ _ _ _ _ Hd) as Hc. destruct (build_cpu_info_ok _ sizeof_info fresh p Hc Hs) as (info & Hbi & Hn & Hinfo).
  pose proof (info_ikc_ok _ p info Hc Hn Hinfo) as Ecs. pose proof (booted_targets _ _ HW Hk Hty Hd) as Hsub. rewrite <- Ecs in Hsub.
  unfold SMP_MAX_CPUS in *. rewrite (check_ikc_map_eq k _ nr Ha) in Hchk by (eapply Forall_impl; [exact Hr|]; cbv beta; lia).
  case_bool_decide as Hsz; [|done]. destruct (dk_nr_cpus _ _ _ _ _ _ _ Hd) as [_ Hl]. pose proof (bk_cpus _ _ _ _ _ Hb) as Hcp.
  assert (length (info_ikc info) = length (bp_cpus p)) as Hli by (by rewrite Ecs, length_fmap). unfold SMP_MAX_CPUS in *.
  destruct (build_spi_table_ok (info_ikc info) irqs (Z.to_nat nr) Hirq) as (tab & ns & Hbs & Hok).
  - intros En. rewrite En in Hli. cbn [length] in Hli. lia.
  - unfold SMP_MAX_CPUS. lia.
  - apply Forall_forall. intros x Hx. assert (x ∈ targets k (cpus (w_cpu W))) as Hx' by (apply Hsub; by apply elem_of_list_to_set).
    apply elem_of_list_to_set, list_elem_of_fmap in Hx' as (c & -> & [_ Hin]%list_elem_of_filter). rewrite Forall_forall in Hr. by apply Hr.
  - assert (served (info_ikc info) ⊆ {[0]} ∪ targets k (cpus (w_cpu W))) as Hsv by (unfold served; set_solver).
    apply subseteq_size in Hsv. lia.
  - by exists w', p, info, tab, ns.
Qed.
End spi.

(** ** A kernel with two CPUs and two interrupts *)

(** The driver after these requests. *)
Definition arm_run (ops : list cpu_op) : outcome (list Z * world) :=
  s ← @init_cpus arm_smp SmpCpu.all_cpus; @cpu_run arm_smp ops (mk_world s ∅).
Definition arm_world (ops : list cpu_op) : world := match arm_run ops with Ret (_, w) => w | Undef => mk_world (mk_cpust [] ∅) ∅ end.
Definition arm_osd (W : world) : smp_os_data := default zero_osd (w_os W !! 16).

Definition arm_setup : list cpu_op :=
  [CCreate true 16; CReserve true (cpu_arg [2; 3; 5]); CAssign true 16 (cpu_arg [5; 2; 3])].
(** All three CPUs are served by CPU 4. *)
Definition arm_routed : list cpu_op := arm_setup ++ [CSetIkc (fun _ => true) 16 (ikc_arg [2; 3; 5] [4; 4; 4])].
Definition arm_irqs : list Z := [40; 41] ++ replicate 30 NO_IRQ.

Lemma arm_world_inv ops : Forall distinct_op ops -> cpu_inv (arm_world ops).
Proof.
  intros Hd. destruct (@cpu_run_ok arm_smp arm_smp_ok ops SmpCpu.all_cpus Hd) as (s & rets & w & Es & Er & Hi).
  unfold arm_world, arm_run. rewrite Es. cbn [mbind outcome_bind]. by rewrite Er.
Qed.

Lemma arm_routed_distinct : Forall distinct_op arm_routed.
Proof.
  assert (NoDup [5; 2; 3]) by (repeat constructor; set_solver).
  repeat (constructor; [done|]). constructor.
Qed.

Lemma accepted_routing_boots_witness :
  exists w' p info tab nr_spi, let W := arm_world arm_routed in
    @smp_ihk_os_boot arm_smp demo_boot_env 16 demo_used (w_cpu W) (demo_bworld (arm_osd W)) = Ret (0, w') /\
    bd_param (bw_boot w') = PLive p /\ build_ihk_cpu_info 40 (fun _ => 0) p (boot_tail 5000 p) = Ret info /\
    build_spi_table (info_ikc info) arm_irqs = Ret (Some (tab, nr_spi)) /\ spi_ok (info_ikc info) arm_irqs 2 tab.
Proof.
  apply (@accepted_routing_boots arm_smp demo_boot_env demo_used (arm_world arm_routed) 16 (demo_bworld (arm_osd (arm_world arm_routed)))
    40 (fun _ => 0) arm_irqs 2).
  - reflexivity.
  - apply arm_world_inv, arm_routed_distinct.
  - vm_compute. reflexivity.
  - constructor; try exact demo_dump_fits; try (vm_compute; done || (split; done)).
    + intros i Hi. change (Z.to_nat _) with 3%nat in Hi.
      destruct i as [|[|[|i]]]; [| | |lia];
        (eexists _, _, _; split_and!; [vm_compute; reflexivity|vm_compute; reflexivity|vm_compute; reflexivity|];
         apply numa_nodes_elem; by vm_compute).
    + repeat (constructor; [apply numa_nodes_elem; by vm_compute|]). constructor.
  - constructor.
    + vm_compute. done.
    + intros i hw Hi%list_elem_of_lookup_2. revert hw Hi. apply Forall_forall.
      apply (bool_decide_unpack (Forall (fun hw => 0 <= hw < 2 ^ 31) _)). vm_compute. done.
    + intros x c Hc. unfold tbl in Hc. destruct (0 <=? x); [|done]. apply list_elem_of_lookup_2 in Hc. revert c Hc. apply Forall_forall.
      apply (bool_decide_unpack (Forall (fun c => 0 <= cpu_ikc_map c < 2 ^ 31) _)). vm_compute. done.
    + apply Forall_forall. apply (bool_decide_unpack (Forall (fun c => 0 <= oc_addr c /\ 0 <= oc_size c /\ oc_addr c + oc_size c < 2 ^ 64) _)).
      vm_compute. done.
    + intros a b. cbn. destruct (a =? b); lia.
  - lia.
  - apply (bool_decide_unpack (Forall (fun c => 0 <= cpu_ikc_map c < SMP_MAX_CPUS) _)). vm_compute. done.
  - vm_compute. reflexivity.
  - constructor; [split; [reflexivity|unfold SMP_MAX_IRQS; lia]| |].
    + apply (bool_decide_unpack (Forall (fun q => 0 <= q < 2 ^ 31) _)). vm_compute. done.
    + apply (bool_decide_unpack (NoDup _)). vm_compute. done.
Defined.

(** A routing that the check refuses is to be
    replaced by the default one, but is kept when an earlier routing of the
    kernel was accepted.  Here the second request returns 0 although the check
    fails, each of the three CPUs keeps its own target, and the kernel panics
    because two interrupts are not enough; without the first request all CPUs
    are served by CPU 0. *)
Theorem second_routing_panics :
  let bad := CSetIkc (fun _ => true) 16 (ikc_arg [2; 3; 5] [4; 6; 7]) in
  let routing ops :=
    let W := arm_world ops in
    (default [] (fst <$> (match arm_run ops with Ret r => Some r | Undef => None end)),
     @smp_ihk_os_check_ikc_map arm_smp 16 (cpus (w_cpu W)),
     omap (fun x => cpu_ikc_map <$> tbl (w_cpu W) x) (os_cpus (arm_osd W))) in
  routing (arm_routed ++ [bad]) = ([0; 0; 0; 0; 0], 1, [7; 4; 6]) /\
  build_spi_table [7; 4; 6] arm_irqs = Ret None /\
  routing (arm_setup ++ [bad]) = ([0; 0; 0; 0], 0, [0; 0; 0]).
Proof. split_and!; vm_compute; reflexivity. Qed.
