(* ===== verification/CoReport.v ===== *)
(** * Addresses that a kernel reports and the driver uses

    A running kernel stores its status and the addresses of its queues,
    monitor and flags into the boot parameters (src/cokernel/smp/x86_64/setup.c,
    the same in arm64).  The driver reads them with smp_ihk_os_get_special_addr
    (src/linux/driver/smp/smp-driver.c) and, before it sends an interrupt to all
    CPUs of a kernel, writes its purpose to one of these addresses. *)

From stdpp Require Import base tactics numbers list gmap.
From S2P Require Import Prelude Kmsg HostData SmpData SmpStatus SmpDump SmpPt SmpLoad.

Open Scope ihk_scope.

(** ** The kernel's side *)

(** The fields of struct smp_boot_param that the kernel writes *)
Record kernel_fields : Type := mk_kf {
  kf_status : Z;
  kf_mikc_queue_recv : Z;
  kf_mikc_queue_send : Z;
  kf_monitor : Z;
  kf_monitor_size : Z;
  kf_rusage : Z;
  kf_rusage_size : Z;
  kf_nmi_mode_addr : Z;
  kf_multi_intr_mode_addr : Z;
  kf_mckernel_do_futex : Z
}.

(** The parameters after the boot: cleared pages. *)
Definition kf_zero : kernel_fields := mk_kf 0 0 0 0 0 0 0 0 0 0.

Definition kf_set_status (f : kernel_fields) (v : Z) : kernel_fields :=
  mk_kf v (kf_mikc_queue_recv f) (kf_mikc_queue_send f) (kf_monitor f) (kf_monitor_size f) (kf_rusage f) (kf_rusage_size f)
    (kf_nmi_mode_addr f) (kf_multi_intr_mode_addr f) (kf_mckernel_do_futex f).

(** The acknowledgement of arch_init *)
Definition arch_init_ack (f : kernel_fields) : kernel_fields := kf_set_status f 1.
Definition arch_ready (f : kernel_fields) : kernel_fields := kf_set_status f 2.
Definition done_init (f : kernel_fields) : kernel_fields := kf_set_status f 3.

(** arch_set_mikc_queue: the queue that the kernel reads is the one that the
    driver writes. *)
Definition arch_set_mikc_queue (virt_to_phys : Z -> Z) (rq wq : Z) (f : kernel_fields) : kernel_fields :=
  mk_kf (kf_status f) (virt_to_phys wq) (virt_to_phys rq) (kf_monitor f) (kf_monitor_size f) (kf_rusage f) (kf_rusage_size f)
    (kf_nmi_mode_addr f) (kf_multi_intr_mode_addr f) (kf_mckernel_do_futex f).
Definition ihk_set_monitor (addr size : Z) (f : kernel_fields) : kernel_fields :=
  mk_kf (kf_status f) (kf_mikc_queue_recv f) (kf_mikc_queue_send f) addr size (kf_rusage f) (kf_rusage_size f)
    (kf_nmi_mode_addr f) (kf_multi_intr_mode_addr f) (kf_mckernel_do_futex f).
Definition ihk_set_rusage (addr size : Z) (f : kernel_fields) : kernel_fields :=
  mk_kf (kf_status f) (kf_mikc_queue_recv f) (kf_mikc_queue_send f) (kf_monitor f) (kf_monitor_size f) addr size
    (kf_nmi_mode_addr f) (kf_multi_intr_mode_addr f) (kf_mckernel_do_futex f).
Definition ihk_set_multi_intr_mode_addr (addr : Z) (f : kernel_fields) : kernel_fields :=
  mk_kf (kf_status f) (kf_mikc_queue_recv f) (kf_mikc_queue_send f) (kf_monitor f) (kf_monitor_size f) (kf_rusage f) (kf_rusage_size f)
    (kf_nmi_mode_addr f) addr (kf_mckernel_do_futex f).
Definition ihk_set_nmi_mode_addr (addr : Z) (f : kernel_fields) : kernel_fields :=
  mk_kf (kf_status f) (kf_mikc_queue_recv f) (kf_mikc_queue_send f) (kf_monitor f) (kf_monitor_size f) (kf_rusage f) (kf_rusage_size f)
    addr (kf_multi_intr_mode_addr f) (kf_mckernel_do_futex f).
Definition ihk_set_mckernel_do_futex (addr : Z) (f : kernel_fields) : kernel_fields :=
  mk_kf (kf_status f) (kf_mikc_queue_recv f) (kf_mikc_queue_send f) (kf_monitor f) (kf_monitor_size f) (kf_rusage f) (kf_rusage_size f)
    (kf_nmi_mode_addr f) (kf_multi_intr_mode_addr f) addr.

(** ** The driver's side *)

(** enum ihk_special_addr_type *)
Inductive ihk_special_addr_type : Type :=
| IHK_SPADDR_KMSG
| IHK_SPADDR_MIKC_QUEUE_RECV
| IHK_SPADDR_MIKC_QUEUE_SEND
| IHK_SPADDR_MONITOR
| IHK_SPADDR_RUSAGE
| IHK_SPADDR_NMI_MODE
| IHK_SPADDR_MCKERNEL_DO_FUTEX
| IHK_SPADDR_MULTI_INTR_MODE.

Definition MASTER_IKCQ_SIZE : Z := PAGE_SIZE.

(** os->param: msg_buffer and its size, and the fields of the kernel *)
Definition kparam : Type := option (Z * Z * kernel_fields).

(** smp_ihk_os_get_special_addr: the result, *addr and *size; the size of the
    futex function is not written. *)
Definition smp_ihk_os_get_special_addr (param : kparam) (type : ihk_special_addr_type) : Z * option (Z * option Z) :=
  match param with
  | None => (- EINVAL, None)
  | Some (msg_buffer, msg_buffer_size, f) =>
      let answer addr size := if addr =? 0 then (- EINVAL, None) else (0, Some (addr, size)) in
      match type with
      | IHK_SPADDR_KMSG => answer msg_buffer (Some msg_buffer_size)
      | IHK_SPADDR_MIKC_QUEUE_RECV => answer (kf_mikc_queue_recv f) (Some MASTER_IKCQ_SIZE)
      | IHK_SPADDR_MIKC_QUEUE_SEND => answer (kf_mikc_queue_send f) (Some MASTER_IKCQ_SIZE)
      | IHK_SPADDR_MONITOR => answer (kf_monitor f) (Some (kf_monitor_size f))
      | IHK_SPADDR_RUSAGE => answer (kf_rusage f) (Some (kf_rusage_size f))
      | IHK_SPADDR_MULTI_INTR_MODE => answer (kf_multi_intr_mode_addr f) (Some 4)
      | IHK_SPADDR_NMI_MODE => answer (kf_nmi_mode_addr f) (Some 4)
      | IHK_SPADDR_MCKERNEL_DO_FUTEX => answer (kf_mckernel_do_futex f) None
      end
  end.

(** smp_ihk_os_map_memory: all kernels share the physical memory. *)
Definition smp_ihk_os_map_memory (remote_phys : Z) : Z := remote_phys.

Section interrupts.
(** The architecture, the used chunks, and cpu_info.hw_ids with cpu_info.n_cpus *)
Context (a : smp_arch) (used : list ihk_os_mem_chunk) (hw_ids : list Z) (n_cpus : Z).

(** An int is stored through the mapping of a page, which is not checked. *)
Definition set_mode (param : kparam) (type : ihk_special_addr_type) (mode : Z) (m : memory) : outcome (Z * memory) :=
  match smp_ihk_os_get_special_addr param type with
  | (0, Some (rpa, _)) =>
      match ihk_smp_map_virtual used (smp_ihk_os_map_memory rpa) PAGE_SIZE with
      | None => Undef
      | Some virt => Ret (0, store m virt (le 4 (u32 mode)))
      end
  | _ => Ret (- EINVAL, m)
  end.
Definition ihk_smp_set_multi_intr_mode (param : kparam) : Z -> memory -> outcome (Z * memory) := set_mode param IHK_SPADDR_MULTI_INTR_MODE.
Definition ihk_smp_set_nmi_mode (param : kparam) : Z -> memory -> outcome (Z * memory) := set_mode param IHK_SPADDR_NMI_MODE.

(** The loop over the CPUs: hardware ids that get the interrupt *)
Fixpoint send_each (n : nat) (i : Z) : outcome (list Z) :=
  match n with
  | O => Ret []
  | S n' => hw ← aget hw_ids i; l ← send_each n' (i + 1); Ret (hw :: l)
  end.

Definition INTRID_MULTI_INTR : Z := 6.
Definition INTRID_MULTI_NMI : Z := 7.
(** The interrupts: the one that cannot be masked and the one of freezing *)
Definition nmi_vector : Z := match a with X86_64 => 2 | ARM64 _ => INTRID_MULTI_NMI end.
Definition multi_intr_vector : Z := match a with X86_64 => 242 | ARM64 _ => INTRID_MULTI_INTR end.

(** Result, memory and the interrupts: hardware id and vector *)
Definition sent : Type := Z * memory * list (Z * Z).
Definition send_all (vector : Z) (set : memory -> outcome (Z * memory)) (m : memory) : outcome sent :=
  ' (ret, m) ← set m;
  if negb (ret =? 0) then Ret (ret, m, []) else
  ids ← send_each (Z.to_nat n_cpus) 0;
  Ret (0, m, map (fun id : Z => (id, vector)) ids).
Definition smp_ihk_os_send_nmi (param : kparam) (mode : Z) : memory -> outcome sent :=
  send_all nmi_vector (ihk_smp_set_nmi_mode param mode).
Definition smp_ihk_os_send_multi_intr (param : kparam) (mode : Z) : memory -> outcome sent :=
  send_all multi_intr_vector (ihk_smp_set_multi_intr_mode param mode).

(** The result of sending is not looked at. *)
Definition smp_ihk_os_freeze (param : kparam) (m : memory) : outcome sent :=
  ' (_, m, ipis) ← smp_ihk_os_send_multi_intr param 1 m; Ret (0, m, ipis).
Definition smp_ihk_os_thaw (param : kparam) (m : memory) : outcome sent :=
  ' (_, m, ipis) ← smp_ihk_os_send_multi_intr param 2 m; Ret (0, m, ipis).

(** smp_ihk_os_issue_interrupt: -EINVAL also after the interrupt was sent *)
Definition smp_ihk_os_issue_interrupt (cpu v : Z) : outcome (Z * list (Z * Z)) :=
  if (cpu <? 0) || (n_cpus <=? cpu) then Ret (- EINVAL, []) else
  hw ← aget hw_ids cpu; Ret (- EINVAL, [(hw, v)]).

(** smp_ihk_os_debug_request: a CPU and a vector in the argument; the result of
    the interrupt is dropped. *)
Definition IHK_OS_DEBUG_START : Z := 0x122a00.
Definition smp_ihk_os_debug_request (req arg : Z) : outcome (Z * list (Z * Z)) :=
  if u32 req =? IHK_OS_DEBUG_START
  then ' (_, ipis) ← smp_ihk_os_issue_interrupt (s32 (Z.shiftr arg 8)) (Z.land arg 0xff); Ret (0, ipis)
  else Ret (- EINVAL, []).

(** A debug request sends every vector to every CPU of the kernel. *)
Theorem debug_sends_interrupt cpu hw v :
  hw_ids !! Z.to_nat cpu = Some hw -> 0 <= cpu < n_cpus -> n_cpus <= 2 ^ 31 -> 0 <= v < 256 ->
  smp_ihk_os_debug_request IHK_OS_DEBUG_START (cpu * 256 + v) = Ret (0, [(hw, v)]).
Proof.
  intros Hhw Hc Hn Hv. unfold smp_ihk_os_debug_request. change (u32 IHK_OS_DEBUG_START =? IHK_OS_DEBUG_START) with true. cbv iota.
  rewrite Z.shiftr_div_pow2 by lia. replace ((cpu * 256 + v) / 2 ^ 8) with cpu by (rewrite Z.div_add_l, Z.div_small; lia).
  change 0xff with (Z.ones 8). rewrite Z.land_ones by lia. replace ((cpu * 256 + v) mod 2 ^ 8) with v by (rewrite Z.add_comm, Z.mod_add, Z.mod_small; lia).
  rewrite s32_small by lia. unfold smp_ihk_os_issue_interrupt. rewrite (proj2 (Z.ltb_ge cpu 0)), (proj2 (Z.leb_gt n_cpus cpu)) by lia. cbn [orb].
  unfold aget. rewrite (proj2 (Z.leb_le 0 cpu)), Hhw by lia. done.
Qed.
End interrupts.

(** ** Reports of a kernel *)

Inductive report : Type :=
| RAck
| RReady
| RRunning
| RQueues (rq wq : Z)
| RMonitor (addr size : Z)
| RRusage (addr size : Z)
| RNmi (addr : Z)
| RMultiIntr (addr : Z)
| RFutex (addr : Z).

Section reports.
Context (virt_to_phys : Z -> Z).

Definition perform (f : kernel_fields) (r : report) : kernel_fields :=
  match r with
  | RAck => arch_init_ack f
  | RReady => arch_ready f
  | RRunning => done_init f
  | RQueues rq wq => arch_set_mikc_queue virt_to_phys rq wq f
  | RMonitor a s => ihk_set_monitor a s f
  | RRusage a s => ihk_set_rusage a s f
  | RNmi a => ihk_set_nmi_mode_addr a f
  | RMultiIntr a => ihk_set_multi_intr_mode_addr a f
  | RFutex a => ihk_set_mckernel_do_futex a f
  end.

(** What a report says about an address. *)
Definition says (type : ihk_special_addr_type) (r : report) : option (Z * option Z) :=
  match type, r with
  | IHK_SPADDR_MIKC_QUEUE_RECV, RQueues _ wq => Some (virt_to_phys wq, Some MASTER_IKCQ_SIZE)
  | IHK_SPADDR_MIKC_QUEUE_SEND, RQueues rq _ => Some (virt_to_phys rq, Some MASTER_IKCQ_SIZE)
  | IHK_SPADDR_MONITOR, RMonitor a s => Some (a, Some s)
  | IHK_SPADDR_RUSAGE, RRusage a s => Some (a, Some s)
  | IHK_SPADDR_NMI_MODE, RNmi a => Some (a, Some 4)
  | IHK_SPADDR_MULTI_INTR_MODE, RMultiIntr a => Some (a, Some 4)
  | IHK_SPADDR_MCKERNEL_DO_FUTEX, RFutex a => Some (a, None)
  | _, _ => None
  end.
Definition status_of (r : report) : option Z := match r with RAck => Some 1 | RReady => Some 2 | RRunning => Some 3 | _ => None end.

(** The status and the address and size that the fields hold. *)
Definition held (type : ihk_special_addr_type) (f : kernel_fields) : option (Z * option Z) :=
  match type with
  | IHK_SPADDR_KMSG => None
  | IHK_SPADDR_MIKC_QUEUE_RECV => Some (kf_mikc_queue_recv f, Some MASTER_IKCQ_SIZE)
  | IHK_SPADDR_MIKC_QUEUE_SEND => Some (kf_mikc_queue_send f, Some MASTER_IKCQ_SIZE)
  | IHK_SPADDR_MONITOR => Some (kf_monitor f, Some (kf_monitor_size f))
  | IHK_SPADDR_RUSAGE => Some (kf_rusage f, Some (kf_rusage_size f))
  | IHK_SPADDR_NMI_MODE => Some (kf_nmi_mode_addr f, Some 4)
  | IHK_SPADDR_MULTI_INTR_MODE => Some (kf_multi_intr_mode_addr f, Some 4)
  | IHK_SPADDR_MCKERNEL_DO_FUTEX => Some (kf_mckernel_do_futex f, None)
  end.

Lemma held_perform type f r :
  type <> IHK_SPADDR_KMSG -> held type (perform f r) = match says type r with Some x => Some x | None => held type f end.
Proof using. by destruct type, r. Qed.

Lemma held_reports type rs :
  type <> IHK_SPADDR_KMSG ->
  held type (foldl perform kf_zero rs) = match last (omap (says type) rs) with Some x => Some x | None => held type kf_zero end.
Proof using.
  intros Ht. induction rs as [|r rs IH] using rev_ind; [done|].
  rewrite foldl_app, omap_app. cbn [foldl]. rewrite held_perform by done. cbn [omap list_omap].
  destruct (says type r) as [x|]; [by rewrite last_snoc|]. by rewrite app_nil_r.
Qed.

Lemma status_reports rs : kf_status (foldl perform kf_zero rs) = default 0 (last (omap status_of rs)).
Proof using.
  induction rs as [|r rs IH] using rev_ind; [done|]. rewrite foldl_app, omap_app. cbn [foldl omap list_omap].
  destruct r; cbn [perform status_of]; rewrite ?last_snoc, ?app_nil_r; exact IH || reflexivity.
Qed.

Lemma special_addr_eq msg size rs type : type <> IHK_SPADDR_KMSG ->
  smp_ihk_os_get_special_addr (Some (msg, size, foldl perform kf_zero rs)) type =
    match last (omap (says type) rs) with
    | Some (addr, s) => if addr =? 0 then (- EINVAL, None) else (0, Some (addr, s))
    | None => (- EINVAL, None)
    end.
Proof using.
  intros Ht. pose proof (held_reports type rs Ht) as Hh. destruct (last _) as [[addr s]|];
    destruct type; try done; cbn [held smp_ihk_os_get_special_addr] in *; injection Hh as -> ; subst; simplify_eq; done || (by rewrite H).
Qed.

(** C31: whatever a kernel reports and in whatever order,
    the driver finds the last address and size that were reported, the kernel's
    write queue as its receive queue and the other way round; it gets -EINVAL
    for an address that was not reported or is zero; and the status of a kernel
    that is booting is the one that was announced last. *)
Theorem reports_reach_driver a msg size rs l :
  let f := foldl perform kf_zero rs in
  (forall type, type <> IHK_SPADDR_KMSG ->
     smp_ihk_os_get_special_addr (Some (msg, size, f)) type =
       match last (omap (says type) rs) with
       | Some (addr, s) => if addr =? 0 then (- EINVAL, None) else (0, Some (addr, s))
       | None => (- EINVAL, None)
       end) /\
  smp_ihk_os_query_status a (mk_kernel BUILTIN_OS_STATUS_BOOTING (Some (kf_status f)) (Some l)) =
    match last (omap status_of rs) with
    | None => Ret IHK_OS_STATUS_BOOTING
    | Some s => if s =? 1 then Ret IHK_OS_STATUS_BOOTED
                else monitor_status (if s =? 2 then IHK_OS_STATUS_READY else IHK_OS_STATUS_RUNNING) l
    end.
Proof using.
  cbv zeta. split.
  - intros type Ht. by apply special_addr_eq.
  - rewrite status_reports. destruct (last (omap status_of rs)) as [s|] eqn:E; cbn [default]; [|by destruct a].
    assert (s = 1 \/ s = 2 \/ s = 3) as [-> | [-> | ->]]; [|by destruct a..].
    apply last_Some_elem_of in E as Hin. apply list_elem_of_omap in Hin as (r & _ & Hr). destruct r; cbn in Hr; simplify_eq; auto.
Qed.
End reports.

(** ** Interrupts reach every CPU with their mode *)

Lemma send_each_ok hw_ids k : forall i, 0 <= i -> i + Z.of_nat k <= Z.of_nat (length hw_ids) ->
  send_each hw_ids k i = Ret (take k (drop (Z.to_nat i) hw_ids)).
Proof.
  induction k as [|k IH]; intros i Hi Hk; [done|]. cbn [send_each].
  destruct (lookup_lt_is_Some_2 hw_ids (Z.to_nat i)) as [x Hx]; [lia|].
  rewrite (proj2 (aget_Ret _ _ _)) by (split; [lia|exact Hx]). cbn.
  rewrite IH by lia. rewrite (drop_S _ _ _ Hx). cbn. by replace (Z.to_nat (i + 1)) with (S (Z.to_nat i)) by lia.
Qed.

(** A page at the address lies in a chunk of the kernel. *)
Definition page_held (used : list ihk_os_mem_chunk) (addr : Z) : Prop :=
  exists c, c ∈ used /\ 0 <= oc_addr c <= addr /\ addr + PAGE_SIZE <= oc_addr c + oc_size c < 2 ^ 64.

(** The interrupts with [vector] that all CPUs of the kernel get, in order. *)
Definition to_all (hw_ids : list Z) (n_cpus vector : Z) : list (Z * Z) :=
  map (fun id => (id, vector)) (take (Z.to_nat n_cpus) hw_ids).

Lemma send_all_ok used hw_ids n_cpus vector param type mode m addr s :
  0 <= n_cpus <= Z.of_nat (length hw_ids) ->
  smp_ihk_os_get_special_addr param type = (0, Some (addr, s)) -> page_held used addr ->
  send_all hw_ids n_cpus vector (set_mode used param type mode) m =
    Ret (0, store m addr (le 4 (u32 mode)), to_all hw_ids n_cpus vector).
Proof.
  intros Hn Ha (c & Hc & Hl & Hu). unfold send_all, set_mode. rewrite Ha. unfold smp_ihk_os_map_memory.
  rewrite (map_virtual_some used c) by (done || unfold PAGE_SIZE in *; lia). cbn -[store le].
  by rewrite send_each_ok by lia.
Qed.

Lemma send_all_refused used hw_ids n_cpus vector param type mode m :
  smp_ihk_os_get_special_addr param type = (- EINVAL, None) ->
  send_all hw_ids n_cpus vector (set_mode used param type mode) m = Ret (- EINVAL, m, []).
Proof. intros Ha. unfold send_all, set_mode. by rewrite Ha. Qed.

(** The memory of the kernel does not reach the end of the address space. *)
Definition used_fits (used : list ihk_os_mem_chunk) : Prop := Forall (fun c => 0 <= oc_addr c /\ 0 <= oc_size c /\ oc_addr c + oc_size c < 2 ^ 64) used.

Lemma not_mapped used addr : used_fits used -> 0 <= addr < 2 ^ 64 - PAGE_SIZE -> ~ page_held used addr ->
  ihk_smp_map_virtual used addr PAGE_SIZE = None.
Proof.
  intros Hf Ha Hn. induction Hf as [|c l (H1 & H2 & H3) Hf IH]; [done|]. cbn [ihk_smp_map_virtual].
  rewrite (u64_small (addr + _)), (u64_small (oc_addr c + _)) by (unfold PAGE_SIZE in *; lia).
  destruct (_ && _) eqn:E; [|apply IH; intros (d & Hd & Hr); apply Hn; exists d; split; [by right|done]].
  apply andb_true_iff in E as [E1 E2]. apply Z.leb_le in E1, E2. destruct Hn. exists c. split; [left|]. lia.
Qed.

Lemma send_all_faults used hw_ids n_cpus vector param type mode m addr s :
  smp_ihk_os_get_special_addr param type = (0, Some (addr, s)) ->
  used_fits used -> 0 <= addr < 2 ^ 64 - PAGE_SIZE -> ~ page_held used addr ->
  send_all hw_ids n_cpus vector (set_mode used param type mode) m = Undef.
Proof. intros Ha Hf Hr Hn. unfold send_all, set_mode. rewrite Ha. unfold smp_ihk_os_map_memory. by rewrite not_mapped. Qed.

(** Only the four bytes of an int at [addr] have changed, to [mode]. *)
Definition mode_at (addr mode : Z) (m m' : memory) : Prop :=
  s32 (rd 4 m' addr) = mode /\ forall x, ~ addr <= x < addr + 4 -> m' x = m x.

Lemma mode_stored m addr mode : - 2 ^ 31 <= mode < 2 ^ 31 -> mode_at addr mode m (store m addr (le 4 (u32 mode))).
Proof.
  intros Hm. split.
  - rewrite rd_store_le. change (256 ^ Z.of_nat 4) with (2 ^ 32). unfold s32, u32. rewrite Zmod_mod.
    rewrite Zplus_mod_idemp_l. rewrite Z.mod_small; lia.
  - intros x Hx. apply store_out. by rewrite le_length.
Qed.

Section delivery.
Context (v2p : Z -> Z) (a : smp_arch) (used : list ihk_os_mem_chunk) (hw_ids : list Z) (n_cpus msg size : Z) (rs : list report).
Hypothesis Hn : 0 <= n_cpus <= Z.of_nat (length hw_ids).

Abbreviation param := (Some (msg, size, foldl (perform v2p) kf_zero rs)).
Abbreviation reported := (fun type => last (omap (says v2p type) rs)).

Lemma special_addr_reported type addr s : type <> IHK_SPADDR_KMSG ->
  (reported type = Some (addr, s) -> addr <> 0 -> smp_ihk_os_get_special_addr param type = (0, Some (addr, s))) /\
  (reported type = None -> smp_ihk_os_get_special_addr param type = (- EINVAL, None)).
Proof using.
  intros Ht. rewrite special_addr_eq by done. split; [intros -> Ha%Z.eqb_neq; by rewrite Ha|by intros ->].
Qed.

(** C32: once the kernel has reported the address of its
    NMI mode (of its multi-interrupt mode), and a whole page from that address
    on is in a used chunk, sending an NMI (freezing and thawing) stores the
    mode there, changes no other byte, and interrupts every CPU of the kernel
    once, in the order of the CPUs.  When the address is reported but less
    than a page is left in the chunk, which is enough for the mode itself, the
    driver stores through a mapping it did not get (mode_in_last_page is an
    instance).  Before the report nothing is written and no CPU is
    interrupted, the NMI fails with -EINVAL and freezing and thawing report
    success. *)
Theorem mode_interrupts_correct mode m :
  - 2 ^ 31 <= mode < 2 ^ 31 ->
  (forall addr s, reported IHK_SPADDR_NMI_MODE = Some (addr, s) -> addr <> 0 -> page_held used addr ->
     exists m', smp_ihk_os_send_nmi a used hw_ids n_cpus param mode m = Ret (0, m', to_all hw_ids n_cpus (nmi_vector a)) /\
       mode_at addr mode m m') /\
  (forall addr s, reported IHK_SPADDR_MULTI_INTR_MODE = Some (addr, s) -> addr <> 0 -> page_held used addr ->
     (exists m', smp_ihk_os_freeze a used hw_ids n_cpus param m = Ret (0, m', to_all hw_ids n_cpus (multi_intr_vector a)) /\
       mode_at addr 1 m m') /\
     (exists m', smp_ihk_os_thaw a used hw_ids n_cpus param m = Ret (0, m', to_all hw_ids n_cpus (multi_intr_vector a)) /\
       mode_at addr 2 m m')) /\
  (forall addr s, used_fits used -> addr <> 0 -> 0 <= addr < 2 ^ 64 - PAGE_SIZE -> ~ page_held used addr ->
     (reported IHK_SPADDR_NMI_MODE = Some (addr, s) -> smp_ihk_os_send_nmi a used hw_ids n_cpus param mode m = Undef) /\
     (reported IHK_SPADDR_MULTI_INTR_MODE = Some (addr, s) ->
        smp_ihk_os_freeze a used hw_ids n_cpus param m = Undef /\ smp_ihk_os_thaw a used hw_ids n_cpus param m = Undef)) /\
  (reported IHK_SPADDR_NMI_MODE = None -> smp_ihk_os_send_nmi a used hw_ids n_cpus param mode m = Ret (- EINVAL, m, [])) /\
  (reported IHK_SPADDR_MULTI_INTR_MODE = None ->
     smp_ihk_os_freeze a used hw_ids n_cpus param m = Ret (0, m, []) /\
     smp_ihk_os_thaw a used hw_ids n_cpus param m = Ret (0, m, [])).
Proof using Hn.
  intros Hm. unfold smp_ihk_os_freeze, smp_ihk_os_thaw, smp_ihk_os_send_nmi, smp_ihk_os_send_multi_intr, ihk_smp_set_nmi_mode, ihk_smp_set_multi_intr_mode.
  split_and!.
  - intros addr s Hr Ha Hp. eexists. split; [eapply send_all_ok; [done|by apply special_addr_reported|done]|by apply mode_stored].
  - intros addr s Hr Ha Hp. rewrite !(send_all_ok _ _ _ _ _ _ _ _ addr s) by (done || by apply special_addr_reported).
    split; eexists; (split; [reflexivity|by apply mode_stored]).
  - intros addr s Hf Ha Hr Hp. split; [intros Hre; by eapply send_all_faults; [apply special_addr_reported|..]|].
    intros Hre. rewrite !(send_all_faults _ _ _ _ _ _ _ _ addr s) by (done || by apply special_addr_reported). done.
  - intros Hr. apply send_all_refused. by apply (special_addr_reported _ 0 None).
  - intros Hr. rewrite !send_all_refused by by apply (special_addr_reported _ 0 None). done.
Qed.
End delivery.

(** A kernel of two CPUs that has reported its addresses. *)
Definition rep_used : list ihk_os_mem_chunk := [mk_os_chunk 0x100000 0x2000 0 0].
Definition demo_reports : list report :=
  [RAck; RNmi 0x100010; RMultiIntr 0x100020; RQueues 0x100100 0x100200; RReady].
Lemma mode_interrupts_correct_witness :
  exists m', smp_ihk_os_send_nmi X86_64 rep_used [4; 6] 2 (Some (0x100800, 64, foldl (perform id) kf_zero demo_reports)) 3 (fun _ => 0) =
    Ret (0, m', [(4, 2); (6, 2)]) /\ s32 (rd 4 m' 0x100010) = 3.
Proof.
  destruct (mode_interrupts_correct id X86_64 rep_used [4; 6] 2 0x100800 64 demo_reports ltac:(cbn; lia) 3 (fun _ => 0) ltac:(lia)) as [H _].
  destruct (H 0x100010 (Some 4)) as (m' & E & Hm & _); [reflexivity|discriminate| |].
  - exists (mk_os_chunk 0x100000 0x2000 0 0). split; [apply list_elem_of_here|]. unfold PAGE_SIZE. cbn. lia.
  - exists m'. split; [exact E|exact Hm].
Defined.

(** A mode that is an int in the last page of the kernel's memory: the driver
    asks for a whole page at its address, gets no mapping, and stores through
    it. *)
Theorem mode_in_last_page :
  let param := Some (0x100800, 64, foldl (perform id) kf_zero [RNmi 0x101010]) in
  smp_ihk_os_send_nmi X86_64 rep_used [4; 6] 2 param 3 (fun _ => 0) = Undef.
Proof. vm_compute. reflexivity. Qed.
